(* ===== verification/_CoqProject ===== *)
-Q . S2P
Prelude.v
JsNumber.v
Json.v
Regex.v
SpyPatterns.v
CostTracker.v
CostTrackerProofs.v
Approval.v
ApprovalProofs.v
Sessions.v
ModeThreads.v
SessionsProofs.v
TaskTypes.v
AgentSpy.v
TaskRepository.v
TaskRepositoryProofs.v
MergePhase.v
MergePhaseProofs.v
GlobalScan.v
AgentSpyProofs.v
BuildCheck.v
DeveloperPhase.v
DeveloperPhaseProofs.v
Orchestrator.v
OrchestratorProofs.v
AgentPhase.v
EventBridge.v
EventBridgeProofs.v
AnalysisPhase.v
AnalysisPhaseProofs.v
PlanningPhase.v
PlanningPhaseProofs.v
TestGenerationPhase.v
TestGenerationPhaseProofs.v
PhaseLinks.v
BridgeLinks.v
Schema.v
ExecutionTracker.v
ExecutionTrackerProofs.v
Crypto.v
CryptoProofs.v
Accounts.v
AccountsProofs.v
Projects.v
LlmConfig.v
RepositoryRoutes.v
ProjectRoutes.v
ActivityStream.v
ActivityStreamProofs.v
ContextCache.v
ContextCacheProofs.v
Sentinental.v
PhaseTracker.v
SentinentalProofs.v
TaskQueue.v
TaskWorker.v
TaskRoutes.v
TaskQueueProofs.v
TaskWorkerProofs.v
TaskRoutesProofs.v
TaskContext.v
TaskContextProofs.v
Workspace.v
WorkspaceProofs.v
Specialists.v
StackDetection.v
SpecialistsProofs.v
MlAnalyzer.v
MlAnalyzerProofs.v
GitService.v
GitServiceProofs.v
GitHubEnhanced.v
GitHubEnhancedProofs.v
Scaffolding.v
TenantProofs.v
ProjectRoutesProofs.v
SocketService.v
SocketServiceProofs.v
OpenCodeClient.v
OpenCodeClientProofs.v
