(* ===== verification/Prelude.v ===== *)
(** * Verification of the multi-agent orchestration backend

    The program (TypeScript, under src/src/) is a server that runs software
    tasks with language-model agents. A task goes through a fixed pipeline of
    phases (planning, analysis, development, test generation, merge, global
    scan); each phase drives OpenCode sessions, asks the user for approval over
    a socket, runs git and build commands and records its progress in
    PostgreSQL. This library models the parts that decide: which phase runs,
    what is committed and merged, who approved it, what is stored and for whom,
    what is shown and reported, and what it cost.

    ** The parts, and how they interact

<<
   TaskRoutes ---> TaskQueue (BullMQ) ---> TaskWorker ---> Orchestrator
     |  +--> ApprovalService                 +--> CostTracker
     +--> TaskRepository
     +--> TaskContext (continuations)
     +--> Workspace (files, git status, commit, push)

   Orchestrator ---- PhaseRunners ----> PlanningPhase, AnalysisPhase,
     |     ^                            TestGenerationPhase (on AgentPhase),
     |     |                            DeveloperPhase --> BuildCheck
     |     |                              |   |    |
     |  PhaseLinks (the instance)         |   |    +--> SessionRepository
     |                                    |   +--> Json, Regex (answers)
     +--> ApprovalService --> ApprovalLog +--> TaskRepository
     +--> MergePhase, GlobalScan --> AgentSpy --> SpyPatterns --> Regex
     +--> TaskRepository
   OpenCode events --> EventBridge --> CostTracker --> TaskRepository
                         |   |   +---> ApprovalMode --> SessionRepository
                         |   +-------> ExecutionTracker --> Schema
                         +--> PhaseTracker --> AgentSpy
                                 +---------> Sentinental (training records)
   phases --> ActivityStream --> SocketService and the activity log
   ApprovalService <--> SocketService (rooms, requests sent again on a join)
   phases --> ContextCache --> workspace files
   DeveloperPhase --> GitService;  Orchestrator --> GitHubEnhanced (texts)
   phases --> OpenCodeClient --> OpenCode
   ExecutionTracker --> MlAnalyzer (signals)
   phases --> Specialists <-- StackDetection

   Accounts (OAuth, users, sessions of the API)
   ProjectRoutes --> Projects --> LlmConfig, Crypto
     +--> StackDetection, ProjectTools --> Specialists, Scaffolding --> Crypto
   RepositoryRoutes --> Projects --> Crypto (environment variables)
>>

    ** Files and the code they model (paths under src/src/)

    - [Prelude]: this file. Scope, hint databases, tactics, the [outcome] type
      of code that returns or throws, the state-and-exception monad with its
      [try], insertion-ordered maps ([Map], objects used as maps), string and
      list helpers of the language, and their lemmas.
    - [JsNumber]: the language's numbers, binary64 through [spec_float] for
      money, integers rounded to 53 bits for counters.
    - [Json]: JSON values, truthiness of fields, and the regular expression
      that finds the fenced block in an agent's answer.
    - [Regex]: the regular expressions of the language as far as the sources
      use them: a parser, a backtracking matcher, and the declarative meaning it
      is proved to decide.
    - [SpyPatterns], [AgentSpy], [AgentSpyProofs]: services/security/AgentSpy.ts,
      the pattern tables and the service.
    - [TaskTypes]: types/index.ts, the records and enumerations shared by the
      phases.
    - [CostTracker], [CostTrackerProofs]: services/cost/CostTracker.ts.
    - [Approval], [ApprovalProofs]: services/realtime/ApprovalService.ts
      (module [ApprovalService]) and database/repositories/
      ApprovalLogRepository.ts (module [ApprovalLog]).
    - [Sessions], [SessionsProofs]: database/repositories/SessionRepository.ts
      (module [SessionRepository]) and services/approval/ApprovalModeService.ts
      (module [ApprovalMode], each method run without a break).
      [ModeThreads]: the methods of the latter as threads cut at their awaits,
      any of which may run next and whose queries may be rejected.
    - [TaskRepository], [TaskRepositoryProofs]: database/repositories/
      TaskRepository.ts, the [tasks] table as a finite map of rows.
    - [MergePhase], [MergePhaseProofs]: orchestration/phases/MergePhaseV2.ts.
    - [GlobalScan]: orchestration/phases/GlobalScanPhaseV2.ts.
    - [BuildCheck]: [runBuildCheck] of orchestration/phases/DeveloperPhaseV2.ts.
    - [DeveloperPhase], [DeveloperPhaseProofs]: the rest of that file.
    - [Orchestrator], [OrchestratorProofs]: orchestration/OrchestratorV2.ts.
    - [AgentPhase]: what the three agent phases below share, namely OpenCode
      calls, events, sessions, reading of JSON answers, and a small program
      logic (what a run sends, costs, keeps and returns).
    - [AnalysisPhase], [PlanningPhase], [TestGenerationPhase], each with its
      [...Proofs]: orchestration/phases/AnalysisPhaseV2.ts,
      ProductPlanningPhase.ts and TestGenerationPhase.ts.
    - [PhaseLinks]: the phase models as an instance of the orchestrator's
      interface, with its laws, and the theorem on the composed system.
    - [EventBridge], [EventBridgeProofs]: services/opencode/
      OpenCodeEventBridge.ts and the event types of types/events.ts.
    - [BridgeLinks]: the event bridge as the source of the answers a phase waits
      for, and the test generation phase run against it.
    - [Schema]: database/postgres/schema.ts, the columns statements may name and
      must give.
    - [ExecutionTracker], [ExecutionTrackerProofs]: services/training/
      ExecutionTracker.ts with the repositories of executions, turns and tool
      calls; its module [Rows] has the lemmas on tables as lists of rows.
    - [Crypto], [CryptoProofs]: services/security/CryptoService.ts and
      services/env/EnvService.ts.
    - [Accounts], [AccountsProofs]: the repositories of users and OAuth states,
      and api/routes/auth.ts with its middleware.
    - [Projects]: the repositories of projects and of their git repositories.
      [LlmConfig]: config/llmProviders.ts and how a run reads it.
      [RepositoryRoutes], [ProjectRoutes]: api/routes/repositories.ts and
      projects.ts. [TenantProofs], [ProjectRoutesProofs]: what they guarantee.
    - [ActivityStream], [ActivityStreamProofs]: services/realtime/
      ActivityStreamService.ts.
    - [ContextCache], [ContextCacheProofs]: services/context/
      ContextCacheService.ts.
    - [Sentinental], [PhaseTracker], [SentinentalProofs]: services/training/
      SentinentalWebhook.ts with its repository (module [Sentinental], the
      scores in module [Cvss]) and orchestration/PhaseTracker.ts.
    - [TaskQueue], [TaskQueueProofs]: services/queue/TaskQueue.ts.
    - [TaskWorker], [TaskWorkerProofs]: workers/TaskWorker.ts, which runs the
      orchestrator for a job.
    - [TaskRoutes], [TaskRoutesProofs]: the handlers of api/routes/tasks.ts that
      start, resume, interrupt, continue, cancel, retry, approve and bypass, the
      order of its routes, and the recovery in server.ts.
    - [TaskContext], [TaskContextProofs]: services/context/TaskContextBuilder.ts
      and the handlers of tasks.ts that list, create, show, delete and continue
      tasks with the context of an earlier one.
    - [Workspace], [WorkspaceProofs]: services/workspace/WorkspaceService.ts,
      the path functions it uses (module [Paths]) and the workspace handlers of
      tasks.ts.
    - [Specialists]: services/specialists/SpecialistManager.ts, types.ts and the
      registry of prompts.ts; [StackDetection]: the detection of a project's
      stack of the same service; both with their routes of projects.ts.
      [SpecialistsProofs]: theorems on both.
    - [MlAnalyzer], [MlAnalyzerProofs]: services/training/MLSecurityAnalyzer.ts,
      and how it serves the calls [ExecutionTracker] records.
    - [GitService], [GitServiceProofs]: services/git/GitService.ts.
    - [GitHubEnhanced], [GitHubEnhancedProofs]: services/git/
      GitHubEnhancedService.ts and the description and labels the orchestrator
      makes with it.
    - [OpenCodeClient], [OpenCodeClientProofs]: services/opencode/
      OpenCodeClient.ts but for its event stream, which is the event bridge's.
    - [SocketService], [SocketServiceProofs]: services/realtime/SocketService.ts
      and the wiring of its callback in api/server.ts.
    - [Scaffolding]: services/scaffolding/ScaffoldingService.ts, with its
      lemmas; module [ProjectTools]: its route of projects.ts and the route of the
      contextual specialists.

    Definitions keep the names of the functions they translate; record fields
    carry a short prefix for the type they belong to.

    ** How code becomes definitions

    A class with static state is a record, a method a function on it. Code that
    throws returns an [outcome]; code that reads state and throws is in the
    monad of this file, in which a [try] keeps the state reached at the throw.
    Promises and timers are numbered entries of a table, so that "settled twice"
    and "never settled" can be said. A socket is write-only: what it was sent is
    a list. A [Map] keeps insertion order, because the code iterates over it.
    Database columns holding JSON that is only stored and shown are kept in
    serialised form.

    Code outside the repository, and the world, are arguments with no
    hypothesis on them: the answers of git and of the pull-request service
    ([MergePhase]), [JSON.parse], the agents, build commands and the user (classes
    [DevEnv] and [AgentEnv]), files and paths (class [NodeFs]), whether OpenCode accepts an answer
    ([ApprovalMode]), the clock and generated ids, and the conversion of a
    decimal column to a number ([CostTracker]). The phases reach the
    orchestrator through the class [PhaseRunners]; the laws some theorems need
    of them (a phase does not delete the task it works for) are the class
    [PhaseRunnersOk]; [PhaseLinks] builds an instance of both from the five phase
    models. The merge phase's own model implements the merge entry of
    that interface ([mergeRunner]), which is how the theorem that the worker
    never merges crosses worker, orchestrator and merge phase. BullMQ and
    Express are classes too ([BullMQ], [Express]); what the theorems use of
    their documentation (a job id is added once, the first matching route
    handles a request) is stated in [BullMQOk] and [ExpressOk], and a queue in
    memory and a first-match search are instances of them. That no job is locked
    when the server starts is the named hypothesis [unlocked]. Likewise the JWT
    library and AES-GCM ([Jwt], [Aead]) with the documented laws that
    verification accepts what was signed and decryption inverts encryption
    ([JwtOk], [AeadOk]); GitHub's answers, what the
    creation of a project gets of its scaffolding, the checkouts and files the
    stack detection and the other scaffolding see, the md5 digest of the
    cache and the project files a tracker reads are arguments. A git command of
    the workspaces is answered by a function of the commands run before it; the
    shell of [GitService], the SDK of [OpenCodeClient] and the client of
    [GitHubEnhanced] are functions that may change a state of their own; all
    commands and requests are recorded. The rooms of socket.io are the class
    [RoomSemantics], its documented behaviour, with an instance. The texts of
    the specialists are the class [PromptTexts]. The developer phase meets the
    git service through the class [OverGit].

    The database starts from the schema of the repository. Requests are served
    one at a time, with bodies of the declared types, but for the calls of the
    approval mode service, which interleave at their awaits; an operation of the
    execution tracker is one step; a callback given to a wait does not throw. A
    delivery of training records is two steps, its start and its answer, with
    anything in between; so is a background refresh of the context cache, whose
    contexts live in a heap because the code hands out and updates the same
    object. A scan sees one state of the file tree. An attempt to connect to
    OpenCode is two steps, its start and the answer of the health check.

    ** What the theorems show

    - Orchestrator: phases start in pipeline order and the scan runs once and
      last, whatever the phases return or throw; the final status, reason and
      resume columns on every branch; cancellation; the working directory. Also
      what the code does where it means something else: the approval object is
      tested for truthiness, so no answer can stop a phase; phases announced as
      skipped run; a resume repeats completed phases.
    - Developer phase: a commit follows an approved verdict and, outside the
      automatic mode, the user's approval of that same story; the phase
      terminates for every environment within its bounds and its counters are
      right; the consequences of a failed build, an unreadable verdict and a
      rejected story.
    - Event bridge and test generation composed: the first answer decides.
    - Analysis, planning and test generation: each returns (the last two in every
      environment) within a bounded number of prompts; why planning fails; what
      an analysis stores and when; the iteration limit of the test runs; what an
      unreadable answer counts as; what is left in the session table.
    - The composed pipeline: with every phase replaced by its model, an
      execution settles its task, and a developed task reaches the merge
      whatever the tests say.
    - Security spy: counters agree with the stored vulnerabilities in every
      reachable state; risk score and scans are bounded; what it detects
      itself is well typed, and what is registered from outside is stored as it
      was given; a file scan reports exactly the first matching line of each
      pattern; dangerous commands are reported before they run; when a loop is
      reported; and that a scan reports nothing where [require] is missing.
    - Regular expressions: the matcher decides the declarative meaning, and on
      the pattern of a fenced block it computes the direct definition.
    - Merge phase: nothing is merged without approval, "merged" means all
      merged.
    - Approvals: reachable states of the labelled transition system keep every
      promise with its own task and phase, settled at most once; each operation
      on both branches; the two ways in which a promise is lost.
    - Approval modes: the permission settings of a row are always those of its
      mode; all active sessions of a task share the cached mode as long as the
      calls on the mode of that task do not overlap, and two runs in which they
      do, or an UPDATE fails, and the modes come apart; manual mode never
      answers by itself; a switch to an automatic mode makes exactly the calls
      and answers it owes to the sessions and pending permissions of its task.
    - Cost: the incremental totals refine a replay of the event log; token
      totals agree with the sums over sessions below 2^53; persistence and
      restoration round trip.
    - Queue, worker, routes: what a job stores and reports on every branch,
      refused status writes included, and the reasons for which it is retried;
      the worker never merges; the clean-up at server start; what a resume and a
      retry queue and which phases they start again; and what is lost on the way
      (prioritized jobs, queued tasks at a restart, sessions of executions, one
      unreachable route).
    - Task repository: the record of completed phases only grows; restart
      recovery; frames and round trips of the statements.
    - Continuations: what the new task is told and where it works, that no other
      row changes, and the answer on every branch.
    - Event bridge: a registered session is heard whatever happened to earlier
      subscriptions; a wait settles at the end of its session; the activity log
      is conserved between the batches and the table.
    - Execution tracker: how each operation changes the rows of an execution;
      and that the schema the server creates accepts no turn, so that no turn
      and no tool call is ever recorded.
    - Accounts: an OAuth state lets at most as many callbacks in as it was handed
      out, and only in the day after it, whatever requests come in between; a
      login stores the account and issues a token for it.
    - Tenants: each user is served as if the database held only the own projects
      and repositories, the requests apart that detect a stack or choose
      contextual specialists, which do not check the owner and cross it;
      environment variables come back as they were stored, secrets
      encrypted in the table.
    - Model providers: every phase of a valid configuration has a provider with
      its key.
    - Activity stream: what was sent and what waits is what was logged, a timer
      is pending for what waits, the history is the end of the log, and only the
      throttle drops activities.
    - Context cache: a refresh by differences gives what a fresh scan gives; a
      miss leaves the cache within its limits.
    - Training records: every stored record is buffered, under way or accepted,
      in one of these places only, and one marked as sent was accepted; the
      findings of a run are stored at its end; the score of every severity and
      type.
    - Sockets: the messages of a task reach exactly the clients that joined it
      and have neither left nor disconnected; a client that joins a task with a
      pending approval is sent the first one of the table again. Also that users and tasks share the
      names of the rooms.
    - Git service: what a commit and push runs, on every branch; over this
      service the loop of the developer phase that changes branches runs a
      checkout in each repository, a fetch after one that fails, and never
      creates a branch itself. OpenCode client: retries
      end within the attempts and with the waits asked for.
    - Security analyser: executions are analysed apart, however their calls
      interleave; a sensitive file read before a network command is signalled.
    - Specialists: the ones chosen for a task are the best by score and the
      context is complete; the detected stack follows an order of precedence.
    - GitHub texts: titles of branches are well formed and descriptions are
      filled when no text has a dollar sign or a place holder, with what happens
      otherwise. Scaffolding: which project gets which template, and which
      address of the database counts.
    - Workspaces: a file is served only from a directory whose name begins with
      the identifier of the task; the parser of [git status] inverts its format,
      a first line with a blank index status apart.

    ** Bounds and fuel

    Loops are structural. The bounded loops of the code (3 iterations of a
    story, of an analysis and of a planning's judge, [maxIterations] test runs,
    3 build attempts, 5 answers to one approval request, 6 directory levels)
    recurse on a counter that starts at the code's own maximum, so running out of
    fuel is the exit of the source's loop and not an artefact. Loops over
    stories, repositories and rows recurse on the list. The matcher's star uses
    the length of the remaining text as fuel, which is enough because an
    iteration that consumes nothing ends the repetition; [run_decides] proves it.
    Splitting a text on a separator and an array into batches use its length,
    and each round takes at least one element away.

    ** Not modelled

    Failures of the database (a statement has its effect; only the cost tracker,
    the approval mode service and the status writes of the worker have failing
    ones), console and log output, prompt texts
    (the data a prompt prints and the ways in which printing it can throw are
    modelled), exceptions thrown by callbacks of the caller. Strings are
    sequences of 8-bit units; the patterns of the sources mention no others.
    Whole parts outside the library: the export of training data and its
    statistics (TrainingExportService), which only assembles rows for reading;
    the prompt texts of the specialists; health checks and logging; the printed
    form of a cached context, which nothing calls. The terminal proxy, the
    connection to Redis and the PostgreSQL pool are input and output only. Of
    the task routes, the diff, cost, statistics and export answers, which relay
    other parts.

    ** Plan

    What is left of the program's own logic is the training export; it needs no
    state beyond the tables modelled here. After it, the failures of the
    database, now in three components, would be worth threading through the
    repositories, and the awaits of the other services through their models as
    [ModeThreads] does for one. *)

From Stdlib Require Export ZArith Lia Ascii.
From stdpp Require Export base tactics list strings gmap decidable option.
From stdpp Require Import options.

#[export] Set Default Goal Selector "1".

(** ** Scope, hint databases and tactics shared by every component *)

Declare Scope js_scope.
Delimit Scope js_scope with js.

Create HintDb js discriminated.
Create HintDb jsmap discriminated.
Create Rewrite HintDb jsmap.

(** Case analysis on every [match]/[if] of the goal and hypotheses, with the
    equations it produces solved by injectivity. *)
Ltac js_cases := repeat (case_match || case_decide || case_bool_decide); simplify_eq/=.

(** The usual finish of a branch: simplify, rewrite with the map laws, done. *)
Ltac js_done := simpl in *; autorewrite with jsmap in *; eauto with js jsmap; try done; try lia.

(** Inversion of a conjunction of boolean tests of the source into its parts. *)
Ltac bools :=
  repeat match goal with
  | H : _ && _ = true |- _ => apply andb_true_iff in H as [??]
  | H : _ || _ = false |- _ => apply orb_false_iff in H as [??]
  | H : negb _ = true |- _ => apply negb_true_iff in H
  | H : negb _ = false |- _ => apply negb_false_iff in H
  | H : bool_decide _ = true |- _ => apply bool_decide_eq_true in H
  | H : bool_decide _ = false |- _ => apply bool_decide_eq_false in H
  end.

(** ** JavaScript strings: the operations the sources use *)

Module JsStr.

(** [s.startsWith(p)] *)
Fixpoint startsWith (p s : string) : bool :=
  match p, s with
  | EmptyString, _ => true
  | String a p', String b s' => bool_decide (a = b) && startsWith p' s'
  | String _ _, EmptyString => false
  end.

(** [s.includes(p)] *)
Fixpoint includes (p s : string) : bool :=
  startsWith p s ||
  match s with
  | EmptyString => false
  | String _ s' => includes p s'
  end.

(** [s.endsWith(p)] *)
Fixpoint endsWith (p s : string) : bool :=
  bool_decide (s = p) ||
  match s with
  | EmptyString => false
  | String _ s' => endsWith p s'
  end.

(** [s.substring(0, n)] *)
Fixpoint take (n : nat) (s : string) : string :=
  match n, s with
  | S n', String a s' => String a (take n' s')
  | _, _ => EmptyString
  end.

(** The number of code units of [s]; strings are sequences of 8-bit units here. *)
Definition length (s : string) : nat := String.length s.

(** [s.substring(n)] *)
Fixpoint drop (n : nat) (s : string) : string :=
  match n, s with
  | S n', String _ s' => drop n' s'
  | _, _ => s
  end.

(** [s.split('/')] *)
Fixpoint splitSlash (s : string) : list string :=
  match s with
  | EmptyString => [EmptyString]
  | String c s' =>
      if bool_decide (c = "/"%char) then EmptyString :: splitSlash s'
      else match splitSlash s' with x :: l => String c x :: l | [] => [String c EmptyString] end
  end.

(** [s.slice(-n)]: the last [n] code units. *)
Definition takeLast (n : nat) (s : string) : string := drop (length s - n) s.

(** A string is falsy exactly when it is empty. *)
Definition truthy (s : string) : bool := negb (bool_decide (s = EmptyString)).

(** [s || null], [s || undefined]: an absent or empty string becomes [null]. *)
Definition orNull (s : option string) : option string :=
  match s with
  | Some EmptyString => None
  | _ => s
  end.

(** No character of [s] is the key separator [':']. *)
Fixpoint no_colon (s : string) : bool :=
  match s with
  | EmptyString => true
  | String a s' => negb (bool_decide (a = ":"%char)) && no_colon s'
  end.

(** The composite map key written [`${a}:${b}`]. *)
Definition key (a b : string) : string := String.append a (String.append ":" b).

Lemma startsWith_append p s : startsWith p (String.append p s) = true.
Proof. induction p as [|a p IH]; simpl; [done|]. by rewrite bool_decide_true, IH. Qed.

Lemma startsWith_spec p s : startsWith p s = true <-> exists t, s = String.append p t.
Proof.
  split.
  - revert s. induction p as [|a p IH]; intros [|b s] H; simpl in *; try done; eauto.
    bools. subst. destruct (IH _ H0) as [t ->]. by exists t.
  - intros [t ->]. apply startsWith_append.
Qed.

Lemma includes_append p s t : includes p (String.append s (String.append p t)) = true.
Proof.
  induction s as [|a s IH]; simpl.
  - destruct (String.append p t) eqn:E; simpl; rewrite <- ?E, startsWith_append; done.
  - rewrite IH. by rewrite orb_true_r.
Qed.

Lemma splitSlash_plain s : includes "/" s = false -> splitSlash s = [s].
Proof.
  induction s as [|c s IH]; [done|]. cbn [includes startsWith splitSlash]. rewrite orb_false_iff, andb_true_r.
  intros [Hc Hs]. rewrite bool_decide_eq_false in Hc. rewrite bool_decide_eq_false_2 by congruence. by rewrite IH.
Qed.

Lemma splitSlash_app s t : splitSlash (String.append s (String.append "/" t)) = splitSlash s ++ splitSlash t.
Proof.
  induction s as [|c s IH]; [done|].
  change (String.append (String c s) (String.append "/" t)) with (String c (String.append s (String.append "/" t))). cbn [splitSlash].
  rewrite IH. case_bool_decide; [done|]. by destruct (splitSlash s) as [|x l] eqn:E; [destruct s; cbn in E; repeat case_match|].
Qed.

Lemma append_assoc r s t : String.append (String.append r s) t = String.append r (String.append s t).
Proof. induction r as [|c r IH]; [done|]. exact (f_equal (String c) IH). Qed.

Lemma append_nil s : String.append s EmptyString = s.
Proof. induction s as [|c s IH]; [done|]. exact (f_equal (String c) IH). Qed.

Lemma drop_length n s : length (drop n s) = length s - n.
Proof. unfold length. revert s. induction n as [|n IH]; intros [|a s]; simpl; auto with arith. Qed.

Lemma take_length n s : length (take n s) = Nat.min n (length s).
Proof.
  unfold length. revert s. induction n as [|n IH]; intros [|a s]; simpl; try done.
  by rewrite IH.
Qed.

Lemma takeLast_length n s : length (takeLast n s) = Nat.min n (length s).
Proof. unfold takeLast. rewrite drop_length. lia. Qed.

Lemma key_cons a x y : key (String a x) y = String a (key x y).
Proof. done. Qed.

(** Composite keys are injective when the left part holds no separator. *)
Lemma key_inj a a' b b' :
  no_colon a = true -> no_colon a' = true -> key a b = key a' b' -> a = a' /\ b = b'.
Proof.
  revert a'. induction a as [|c a IH]; intros [|c' a'] Ha Ha' H; simpl in *; bools;
    unfold key in H; simpl in H; simplify_eq; auto.
  destruct (IH a') as [-> ->]; auto.
Qed.

(** The prefix scan [key.startsWith(`${a}:`)] finds exactly the keys of [a]. *)
Lemma startsWith_key a a' b :
  no_colon a = true -> no_colon a' = true ->
  startsWith (String.append a ":") (key a' b) = bool_decide (a = a').
Proof.
  revert a'. induction a as [|c a IH]; intros [|c' a'] Ha Ha'; simpl in *; bools; try done.
  - by rewrite !bool_decide_false by congruence.
  - by rewrite !bool_decide_false by congruence.
  - unfold key in *. destruct (decide (c = c')) as [->|].
    + rewrite bool_decide_true, IH by done. simpl. apply bool_decide_ext. naive_solver.
    + rewrite !bool_decide_false by naive_solver. done.
Qed.

End JsStr.

#[export] Hint Resolve JsStr.startsWith_append JsStr.includes_append : js.

(** ** JavaScript [Map<string, V>]: insertion-ordered, one entry per key

    Iteration order is observable in the sources (the first pending approval
    of a task, the order of sessions and of batches), so a [Map] is the list
    of its entries in insertion order and not a [gmap]; [to_gmap] is the
    abstraction that forgets the order. *)

Module JsMap.

Abbreviation t V := (list (string * V)) (only parsing).

Section ops.
Context {V : Type}.
Implicit Types (m : t V) (k : string) (v : V).

Definition empty : t V := [].

(** [m.get(k)], with [None] for [undefined] *)
Fixpoint get (k : string) (m : t V) : option V :=
  match m with
  | [] => None
  | (k', v) :: m' => if decide (k' = k) then Some v else get k m'
  end.

Definition has (k : string) (m : t V) : bool := bool_decide (is_Some (get k m)).

(** [m.set(k, v)]: an existing key keeps its position *)
Fixpoint set (k : string) (v : V) (m : t V) : t V :=
  match m with
  | [] => [(k, v)]
  | (k', v') :: m' => if decide (k' = k) then (k, v) :: m' else (k', v') :: set k v m'
  end.

(** [m.delete(k)] *)
Definition delete (k : string) (m : t V) : t V := filter (fun e => e.1 <> k) m.

Definition keys (m : t V) : list string := m.*1.
Definition values (m : t V) : list V := m.*2.
Definition size (m : t V) : nat := length m.

(** [for (const [k, v] of m) if (p(k, v)) m.delete(k)] *)
Definition deleteWhere (p : string -> V -> bool) (m : t V) : t V :=
  filter (fun e => p e.1 e.2 = false) m.

(** Every key occurs once: what the language guarantees of a [Map]. *)
Definition wf (m : t V) : Prop := NoDup (keys m).

Definition to_gmap (m : t V) : gmap string V := list_to_map m.

Lemma get_set_eq k v m : get k (set k v m) = Some v.
Proof. induction m as [|[k' v'] m IH]; simpl; repeat case_decide; simpl; by simplify_option_eq. Qed.

Lemma get_set_ne k k' v m : k <> k' -> get k' (set k v m) = get k' m.
Proof.
  intros Hne. induction m as [|[k1 v1] m IH]; simpl; repeat case_decide; simpl;
    repeat case_decide; by simplify_eq.
Qed.

Lemma get_delete_eq k m : get k (delete k m) = None.
Proof.
  induction m as [|[k' v'] m IH]; [done|]. unfold delete in *. rewrite filter_cons.
  simpl. case_decide; simpl; [|done]. by rewrite decide_False.
Qed.

Lemma get_delete_ne k k' m : k <> k' -> get k' (delete k m) = get k' m.
Proof.
  intros Hne. induction m as [|[k1 v1] m IH]; [done|]. unfold delete in *.
  rewrite filter_cons. simpl. case_decide; simpl; case_decide; try done; by simplify_eq.
Qed.

Lemma has_spec k m : has k m = true <-> is_Some (get k m).
Proof. unfold has. by rewrite bool_decide_eq_true. Qed.

Lemma has_false k m : has k m = false <-> get k m = None.
Proof. unfold has. rewrite bool_decide_eq_false, eq_None_not_Some. done. Qed.

Lemma get_Some_elem k v m : get k m = Some v -> (k, v) ∈ m.
Proof.
  induction m as [|[k' v'] m IH]; simpl; intros; [done|]. case_decide; simplify_eq; set_solver.
Qed.

Lemma elem_get k v m : wf m -> (k, v) ∈ m -> get k m = Some v.
Proof.
  unfold wf, keys. induction m as [|[k' v'] m IH]; simpl; intros Hnd Hin; [set_solver|].
  inversion Hnd as [|?? Hni Hnd']; subst. apply elem_of_cons in Hin as [?|Hin].
  - simplify_eq. by rewrite decide_True.
  - rewrite decide_False; [auto|]. intros ->. apply Hni. by apply (list_elem_of_fmap_2 fst) in Hin.
Qed.

Lemma get_Some_iff k v m : wf m -> get k m = Some v <-> (k, v) ∈ m.
Proof. split; auto using get_Some_elem, elem_get. Qed.

Lemma get_None_keys k m : get k m = None <-> k ∉ keys m.
Proof.
  unfold keys. induction m as [|[k' v'] m IH]; simpl; [set_solver|].
  rewrite not_elem_of_cons, <- IH. case_decide; subst; intuition congruence.
Qed.

Lemma keys_set_fresh k v m : get k m = None -> set k v m = m ++ [(k, v)].
Proof.
  induction m as [|[k' v'] m IH]; simpl; [done|]. case_decide; [done|]. intros Hk. by rewrite IH.
Qed.

Lemma keys_set_old k v m : is_Some (get k m) -> keys (set k v m) = keys m.
Proof.
  unfold keys. induction m as [|[k' v'] m IH]; simpl; [by intros []|].
  case_decide; subst; simpl; [done|]. intros Hk. f_equal. by apply IH.
Qed.

Lemma get_Some_values k v m : get k m = Some v -> v ∈ values m.
Proof. intros Hk%get_Some_elem. by apply (list_elem_of_fmap_2 snd) in Hk. Qed.

Lemma values_set k v m x : x ∈ values (set k v m) -> x = v \/ x ∈ values m.
Proof.
  unfold values. induction m as [|[k' v'] m IH]; csimpl.
  - rewrite list_elem_of_singleton. auto.
  - case_decide; csimpl; rewrite !elem_of_cons; naive_solver.
Qed.

Lemma wf_empty : wf empty.
Proof. constructor. Qed.

Lemma wf_set k v m : wf m -> wf (set k v m).
Proof.
  intros Hwf. destruct (get k m) eqn:E.
  - unfold wf. rewrite keys_set_old by eauto. done.
  - rewrite keys_set_fresh by done. unfold wf, keys. rewrite fmap_app. simpl.
    apply get_None_keys in E. apply list.NoDup_app. split_and!; [done| |by apply NoDup_singleton].
    intros x Hx. rewrite list_elem_of_singleton. by intros ->.
Qed.

Lemma wf_filter (P : string * V -> Prop) `{!forall e, Decision (P e)} m : wf m -> wf (filter P m).
Proof.
  unfold wf, keys. induction m as [|[k v] m IH]; [done|]. simpl. intros Hnd.
  inversion Hnd as [|?? Hni Hnd']; subst. rewrite filter_cons. case_decide; [|auto].
  simpl. constructor; [|auto]. intros Hin. apply Hni. apply list_elem_of_fmap in Hin as [e [-> He]].
  apply list_elem_of_filter in He as [_ He]. by apply (list_elem_of_fmap_2 fst).
Qed.

Lemma wf_delete k m : wf m -> wf (delete k m).
Proof. apply wf_filter. Qed.

Lemma wf_deleteWhere p m : wf m -> wf (deleteWhere p m).
Proof. apply wf_filter. Qed.

Lemma get_deleteWhere p k m :
  wf m -> get k (deleteWhere p m) =
    match get k m with Some v => if p k v then None else Some v | None => None end.
Proof.
  unfold wf, keys, deleteWhere. induction m as [|[k' v'] m IH]; [done|]. simpl. intros Hnd.
  inversion Hnd as [|?? Hni Hnd']; subst. rewrite filter_cons. simpl.
  destruct (decide (k' = k)) as [->|Hne].
  - assert (get k m = None) as HN by by apply get_None_keys.
    specialize (IH Hnd'). rewrite HN in IH. case_decide as Hp; simpl.
    + rewrite decide_True, Hp by done. done.
    + destruct (p k v'); [exact IH|done].
  - case_decide; simpl; rewrite ?decide_False by done; auto.
Qed.

(** One visit of the loop [for (const [k, v] of m) if (p(k, v)) m.delete(k)]. *)
Definition visitDelete (p : string -> V -> bool) (acc : t V) (e : string * V) : t V :=
  if p e.1 e.2 then delete e.1 acc else acc.

Lemma delete_fresh k m : k ∉ keys m -> delete k m = m.
Proof.
  unfold keys, delete. induction m as [|[a b] m IH]; [done|]. simpl.
  rewrite not_elem_of_cons. intros [Ha Hm]. rewrite filter_cons, decide_True by naive_solver.
  by rewrite IH.
Qed.

Lemma delete_middle k v pre m :
  k ∉ keys pre -> k ∉ keys m -> delete k (pre ++ (k, v) :: m) = pre ++ m.
Proof.
  intros Hp Hm. unfold delete. rewrite list.filter_app, filter_cons. simpl.
  rewrite decide_False by naive_solver. f_equal; by apply delete_fresh.
Qed.

Lemma visitDelete_from p pre m :
  wf (pre ++ m) ->
  fold_left (visitDelete p) m (pre ++ m) = pre ++ deleteWhere p m.
Proof.
  unfold wf, deleteWhere. revert pre. induction m as [|[k v] m IH]; intros pre Hnd; [done|].
  simpl. rewrite filter_cons. unfold visitDelete at 2. simpl.
  unfold keys in Hnd. rewrite fmap_app in Hnd. csimpl in *.
  destruct (p k v) eqn:Hp.
  - apply list.NoDup_app in Hnd as (H1 & H2 & H3%list.NoDup_cons).
    rewrite decide_False by done. rewrite delete_middle; [|intros Hk; apply (H2 k Hk), list_elem_of_here|naive_solver].
    apply IH. unfold keys. rewrite fmap_app. apply list.NoDup_app. split_and!; [done| |naive_solver].
    intros x Hx Hx'. by eapply H2; [exact Hx|apply list_elem_of_further].
  - rewrite decide_True by done. rewrite (cons_middle (k, v) pre m), (app_assoc pre).
    rewrite IH; [by rewrite <- app_assoc|]. unfold keys. rewrite !fmap_app. csimpl.
    by rewrite <- app_assoc.
Qed.

(** Iterating the live [Map] and deleting the entries that match is
    [deleteWhere]: each key is visited once, so the deletions commute with the
    visit. *)
Lemma deleteWhere_loop p m : wf m -> fold_left (visitDelete p) m m = deleteWhere p m.
Proof. apply (visitDelete_from p []). Qed.

Lemma to_gmap_lookup k m : to_gmap m !! k = get k m.
Proof.
  unfold to_gmap. induction m as [|[k' v'] m IH]; simpl; [by rewrite lookup_empty|].
  case_decide; subst; [by rewrite lookup_insert_eq|by rewrite lookup_insert_ne].
Qed.

(** [Map] operations refine the finite-map operations. *)
Lemma to_gmap_set k v m : to_gmap (set k v m) = <[k := v]> (to_gmap m).
Proof.
  apply map_eq. intros j. rewrite to_gmap_lookup. destruct (decide (k = j)) as [->|].
  - by rewrite get_set_eq, lookup_insert_eq.
  - by rewrite get_set_ne, lookup_insert_ne, to_gmap_lookup.
Qed.

Lemma to_gmap_delete k m : to_gmap (delete k m) = base.delete k (to_gmap m).
Proof.
  apply map_eq. intros j. rewrite to_gmap_lookup. destruct (decide (k = j)) as [->|].
  - by rewrite get_delete_eq, lookup_delete_eq.
  - by rewrite get_delete_ne, lookup_delete_ne, to_gmap_lookup.
Qed.

End ops.
End JsMap.

#[export] Hint Rewrite @JsMap.get_set_eq @JsMap.get_delete_eq : jsmap.
#[export] Hint Rewrite @JsMap.get_set_ne @JsMap.get_delete_ne using done : jsmap.
#[export] Hint Resolve JsMap.wf_empty JsMap.wf_set JsMap.wf_delete JsMap.wf_deleteWhere : jsmap.

(** ** Errors and state: the monad of the asynchronous handlers

    An [async] function that mutates shared state and may throw is a function
    from the state to its outcome and the new state. A throw keeps the state
    changes made before it, as in the source. *)

Inductive outcome (A : Type) : Type :=
  | Ok (a : A)
  | Throw (msg : string).
Arguments Ok {A} _.
Arguments Throw {A} _.

Definition JsM (S A : Type) : Type := S -> outcome A * S.

#[export] Instance jsm_ret S : MRet (JsM S) := fun A a s => (Ok a, s).
#[export] Instance jsm_bind S : MBind (JsM S) := fun A B k m s =>
  match m s with
  | (Ok a, s') => k a s'
  | (Throw e, s') => (Throw e, s')
  end.

Module Js.

Definition throw {S A} (e : string) : JsM S A := fun s => (Throw e, s).
Definition modify {S} (f : S -> S) : JsM S unit := fun s => (Ok tt, f s).
Definition gets {S A} (f : S -> A) : JsM S A := fun s => (Ok (f s), s).
Definition when {S} (b : bool) (m : JsM S unit) : JsM S unit := if b then m else mret tt.

(** [try { m } catch (e) { h(e) }] *)
Definition try_catch {S A} (m : JsM S A) (h : string -> JsM S A) : JsM S A := fun s =>
  match m s with
  | (Ok a, s') => (Ok a, s')
  | (Throw e, s') => h e s'
  end.

Lemma bind_ok {S A B} (m : JsM S A) (k : A -> JsM S B) s a s' :
  m s = (Ok a, s') -> (m ≫= k) s = k a s'.
Proof. unfold mbind, jsm_bind. by intros ->. Qed.

Lemma bind_throw {S A B} (m : JsM S A) (k : A -> JsM S B) s e s' :
  m s = (Throw e, s') -> (m ≫= k) s = (Throw e, s').
Proof. unfold mbind, jsm_bind. by intros ->. Qed.

(** A run of a sequence that returns: both parts returned. *)
Lemma bind_inv {S A B} (m : JsM S A) (k : A -> JsM S B) s b s' :
  (m ≫= k) s = (Ok b, s') -> exists a s1, m s = (Ok a, s1) /\ k a s1 = (Ok b, s').
Proof. unfold mbind, jsm_bind. destruct (m s) as [[a|e] s1]; [eauto|done]. Qed.

Lemma bind_assoc {S A B C} (m : JsM S A) (f : A -> JsM S B) (g : B -> JsM S C) s :
  ((m ≫= f) ≫= g) s = (m ≫= (fun x => f x ≫= g)) s.
Proof. unfold mbind, jsm_bind. by destruct (m s) as [[]]. Qed.

(** A catch handler that never throws makes the whole statement total. *)
Lemma try_catch_ok {S A} (m : JsM S A) (h : string -> JsM S A) s :
  (forall e s', exists a s'', h e s' = (Ok a, s'')) ->
  exists a s'', try_catch m h s = (Ok a, s'').
Proof. intros Hh. unfold try_catch. destruct (m s) as [[a|e] s']; eauto. Qed.

End Js.

(** ** Lists: the array operations the sources use *)

Section arrays.
Context {A : Type}.
Implicit Types (l : list A).

(** [a.slice(-n)]: the last [n] elements, all of them when [n] exceeds the length *)
Definition slice_last (n : nat) l : list A := drop (length l - n) l.

Lemma slice_last_length n l : length (slice_last n l) = Nat.min n (length l).
Proof. unfold slice_last. rewrite length_drop. lia. Qed.

Lemma slice_last_all n l : length l <= n -> slice_last n l = l.
Proof. intros. unfold slice_last. by replace (length l - n) with 0 by lia. Qed.

Lemma slice_last_suffix n l : slice_last n l `suffix_of` l.
Proof. exists (take (length l - n) l). unfold slice_last. by rewrite take_drop. Qed.

Lemma slice_last_snoc n l x :
  0 < n -> slice_last n (l ++ [x]) = slice_last (n - 1) l ++ [x].
Proof.
  intros Hn. unfold slice_last. rewrite length_app. simpl.
  replace (length l + 1 - n) with (length l - (n - 1)) by lia.
  rewrite drop_app_le by lia. done.
Qed.

Lemma snoc_not_nil l x : l ++ [x] <> [].
Proof. by destruct l. Qed.

(** Keeping the last [n] of a buffer already cut to its last [n] loses nothing. *)
Lemma slice_last_app n l k :
  slice_last n (slice_last n l ++ k) = slice_last n (l ++ k).
Proof.
  unfold slice_last. rewrite !length_app, length_drop.
  rewrite <- drop_app_le by lia. rewrite drop_drop. f_equal. lia.
Qed.

End arrays.

#[export] Hint Resolve snoc_not_nil slice_last_suffix : js.

(** Sum of an integer measure over a list. *)
Definition sumZ {A} (f : A -> Z) (l : list A) : Z := foldr (fun a acc => (f a + acc)%Z) 0%Z l.

Lemma sumZ_app {A} (f : A -> Z) l k : sumZ f (l ++ k) = (sumZ f l + sumZ f k)%Z.
Proof. induction l; simpl; lia. Qed.

Lemma sumZ_nonneg {A} (f : A -> Z) l : (forall a, a ∈ l -> (0 <= f a)%Z) -> (0 <= sumZ f l)%Z.
Proof.
  induction l as [|a l IH]; simpl; intros Hl; [lia|].
  assert (0 <= f a)%Z by (apply Hl; set_solver). assert (0 <= sumZ f l)%Z by (apply IH; set_solver). lia.
Qed.

Lemma sumZ_elem {A} (f : A -> Z) l a :
  (forall b, b ∈ l -> (0 <= f b)%Z) -> a ∈ l -> (f a <= sumZ f l)%Z.
Proof.
  induction l as [|b l IH]; simpl; intros Hl Ha; [set_solver|].
  assert (0 <= f b)%Z by (apply Hl; set_solver).
  assert (0 <= sumZ f l)%Z by (apply sumZ_nonneg; set_solver).
  apply elem_of_cons in Ha as [->|Ha]; [lia|].
  assert (f a <= sumZ f l)%Z by (apply IH; set_solver). lia.
Qed.

(** Replacing the value of a key shifts the sum by the difference. *)
Lemma sumZ_set {V} (f : V -> Z) k (v : V) (m : list (string * V)) :
  sumZ f (JsMap.values (JsMap.set k v m))
  = (sumZ f (JsMap.values m) + f v - from_option f 0%Z (JsMap.get k m))%Z.
Proof.
  unfold JsMap.values. induction m as [|[k' v'] m IH]; csimpl; [lia|].
  case_decide; csimpl; lia.
Qed.
