(* ===== verification/JsNumber.v ===== *)
(** * JavaScript numbers

    A [number] is an IEEE-754 binary64. Amounts of money are kept as such
    ([t], the Standard Library's [spec_float] at precision 53 and [emax]
    1024, which computes). Counters hold integers only: they are [Z], and
    their addition rounds to 53 significant bits as binary64 does, so that
    exactness below [2^53] is a lemma and not an assumption. *)

From S2P Require Import Prelude.
From Stdlib Require Import SpecFloat Sorted.
From stdpp Require Import list sorting options.

Module JsNum.

Definition t : Type := spec_float.

Definition add : t -> t -> t := SFadd 53 1024.
Definition sub : t -> t -> t := SFsub 53 1024.
Definition mul : t -> t -> t := SFmul 53 1024.

Definition zero : t := S754_zero false.
Definition ofZ (z : Z) : t := binary_normalize 53 1024 z 0 false.

(** The decimal literal [n * 10^-d], correctly rounded. *)
Definition ofDecimal (n d : Z) : t := SFdiv 53 1024 (ofZ n) (ofZ (10 ^ d)).

(** [x === y] *)
Definition eqb : t -> t -> bool := SFeqb.

(** [NaN], [0] and [-0] are falsy. *)
Definition truthy (x : t) : bool :=
  match x with
  | S754_zero _ | S754_nan => false
  | _ => true
  end.

(** [x || 0] on a possibly undefined number *)
Definition orZero (x : option t) : t :=
  match x with
  | Some x => if truthy x then x else zero
  | None => zero
  end.

(** [Math.floor(x)]: an integer, or the non-finite value it leaves unchanged. *)
Inductive floored : Type :=
  | FloorInt (z : Z)
  | FloorInf (sign : bool)
  | FloorNaN.

Definition floor (x : t) : floored :=
  match x with
  | S754_zero _ => FloorInt 0
  | S754_infinity s => FloorInf s
  | S754_nan => FloorNaN
  | S754_finite s m e =>
      let v := if s then Zneg m else Zpos m in
      FloorInt (if (0 <=? e)%Z then Z.shiftl v e else Z.shiftr v (- e))
  end.

(** [x / y] *)
Definition div : t -> t -> t := SFdiv 53 1024.

(** [Math.round(x)], of a finite number: the exact floor of [x + 1/2]. *)
Definition roundInt (x : t) : Z :=
  match x with
  | S754_finite s m e =>
      let v := if s then Zneg m else Zpos m in
      if (0 <=? e)%Z then Z.shiftl v e else Z.shiftr (2 * v + Z.shiftl 1 (- e)) (1 - e)
  | _ => 0%Z
  end.

(** [a !== b] on two floored numbers; [NaN] differs from itself. *)
Definition floored_ne (a b : floored) : bool :=
  match a, b with
  | FloorInt x, FloorInt y => negb (x =? y)%Z
  | FloorInf s, FloorInf s' => negb (Bool.eqb s s')
  | _, _ => true
  end.

(** Integer-valued numbers: rounding to 53 significant bits, ties to even. *)
Definition round53 (z : Z) : Z :=
  let m := Z.abs z in
  let s := (Z.log2 m + 1 - 53)%Z in
  if (s <=? 0)%Z then z
  else
    let q := Z.shiftr m s in
    let r := (m - Z.shiftl q s)%Z in
    let half := (2 ^ (s - 1))%Z in
    let q' := if (half <? r)%Z || ((r =? half)%Z && Z.odd q) then (q + 1)%Z else q in
    (Z.sgn z * Z.shiftl q' s)%Z.

Definition intAdd (a b : Z) : Z := round53 (a + b).

(** [n || 0] on a possibly undefined counter *)
Definition intOrZero (n : option Z) : Z := default 0%Z n.

Definition maxSafe : Z := 2 ^ 53.

Lemma round53_exact z : (Z.abs z < maxSafe)%Z -> round53 z = z.
Proof.
  intros Hz. unfold round53. rewrite (proj2 (Z.leb_le _ _)); [done|].
  destruct (Z.eq_dec z 0%Z) as [->|Hne]; [done|].
  assert (Z.log2 (Z.abs z) < 53)%Z; [|lia]. apply Z.log2_lt_pow2; unfold maxSafe in *; lia.
Qed.

Lemma intAdd_exact a b : (Z.abs (a + b) < maxSafe)%Z -> intAdd a b = (a + b)%Z.
Proof. apply round53_exact. Qed.

Lemma orZero_none : orZero None = zero.
Proof. done. Qed.

Lemma orZero_idemp x : orZero (Some (orZero x)) = orZero x.
Proof. destruct x as [[]|]; done. Qed.

(** The value of a decimal digit. *)
Definition digit (c : Ascii.ascii) : option Z :=
  let n := Z.of_N (Ascii.N_of_ascii c) in if ((48 <=? n) && (n <=? 57))%Z then Some (n - 48)%Z else None.

(** [Number(s)] of decimal digits; [None] is [NaN]. *)
Fixpoint numberFrom (acc : Z) (s : string) : option Z :=
  match s with
  | EmptyString => Some acc
  | String c s' => d ← digit c; numberFrom (10 * acc + d)%Z s'
  end.

(** [l.sort((a, b) => f(b) - f(a))], which is stable: an element goes before the
    first that does not exceed it. *)
Fixpoint insertDesc {A} (f : A -> t) (e : A) (l : list A) : list A :=
  match l with
  | [] => [e]
  | x :: l' => if SFleb (f x) (f e) then e :: x :: l' else x :: insertDesc f e l'
  end.

Definition sortDesc {A} (f : A -> t) (l : list A) : list A := foldr (insertDesc f) [] l.

End JsNum.

#[export] Hint Rewrite JsNum.intAdd_exact using lia : jsmap.

(** ** The order of numbers: every number but NaN has a place *)

Module NumberOrder.
Import JsNum.

Definition notNaN (x : JsNum.t) : Prop := x <> S754_nan.

Definition place (x : JsNum.t) : Z * Z * Z :=
  match x with
  | S754_nan => (0, 0, 0)
  | S754_infinity true => (-2, 0, 0)
  | S754_infinity false => (2, 0, 0)
  | S754_zero _ => (0, 0, 0)
  | S754_finite true m e => (-1, - e, Z.neg m)
  | S754_finite false m e => (1, e, Z.pos m)
  end%Z.

Definition below (a b : Z * Z * Z) : Prop :=
  let '(x, y, z) := a in let '(x', y', z') := b in
  (x < x' \/ x = x' /\ (y < y' \/ y = y' /\ z <= z'))%Z.

Lemma leb_place a b : notNaN a -> notNaN b -> SFleb a b = true <-> below (place a) (place b).
Proof.
  unfold SFleb, SFcompare. intros Ha Hb.
  destruct a as [sa|sa| |sa ma ea], b as [sb|sb| |sb mb eb]; try done; try destruct sa; try destruct sb; cbn;
    try (split; [done|lia]); try (split; [lia|done]).
  all: destruct (Z.compare_spec ea eb); try (split; [done|lia]); try (split; [lia|done]).
  all: change (Pos.compare_cont Eq ma mb) with (Pos.compare ma mb); destruct (Pos.compare_spec ma mb); cbn; split; try done; lia.
Qed.

Lemma leb_total a b : notNaN a -> notNaN b -> SFleb a b = false -> SFleb b a = true.
Proof.
  intros Ha Hb H. apply leb_place; [done..|]. destruct (decide (SFleb a b = true)) as [E|E]; [congruence|].
  rewrite leb_place in E by done. destruct (place a) as [[x y] z], (place b) as [[x' y'] z']. cbn in *. lia.
Qed.

Lemma leb_trans a b c : notNaN a -> notNaN b -> notNaN c -> SFleb a b = true -> SFleb b c = true -> SFleb a c = true.
Proof.
  intros Ha Hb Hc. rewrite !leb_place by done.
  destruct (place a) as [[x y] z], (place b) as [[x' y'] z'], (place c) as [[x'' y''] z'']. cbn. lia.
Qed.

Lemma leb_number a b : SFleb a b = true -> notNaN a /\ notNaN b.
Proof. unfold notNaN. by destruct a, b; cbn. Qed.

Section sort.
Context {A : Type} (f : A -> JsNum.t).
#[local] Set Default Proof Using "Type".

Definition atLeast (a b : A) : Prop := SFleb (f b) (f a) = true.
Definition numbered (l : list A) : Prop := Forall (fun e => notNaN (f e)) l.

Lemma insertDesc_perm e l : insertDesc f e l ≡ₚ e :: l.
Proof. induction l as [|x l IH]; cbn; [done|]. destruct (SFleb _ _); [done|]. rewrite IH. apply Permutation_swap. Qed.

Lemma sortDesc_perm l : sortDesc f l ≡ₚ l.
Proof. induction l as [|e l IH]; cbn; [done|]. by rewrite insertDesc_perm, IH. Qed.

Lemma insertDesc_sorted e l :
  notNaN (f e) -> numbered l -> StronglySorted atLeast l -> StronglySorted atLeast (insertDesc f e l).
Proof.
  intros He Hl Hs. induction Hs as [|x l Hs IH Hx]; cbn; [by repeat constructor|].
  apply Forall_cons in Hl as [Hnx Hl]. destruct (SFleb (f x) (f e)) eqn:E.
  - constructor; [by constructor|]. constructor; [done|]. unfold numbered in Hl. rewrite list.Forall_forall in Hl, Hx |- *.
    intros y Hy. eapply leb_trans; [..|exact E]; auto. by apply Hx.
  - constructor; [by apply IH|]. rewrite insertDesc_perm. constructor; [|done]. by apply leb_total.
Qed.

Lemma sortDesc_sorted l : numbered l -> StronglySorted atLeast (sortDesc f l).
Proof.
  induction l as [|e l IH]; intros Hl; [constructor|]. apply Forall_cons in Hl as [He Hl].
  change (sortDesc f (e :: l)) with (insertDesc f e (sortDesc f l)). apply insertDesc_sorted; [done| |auto]. unfold numbered. by rewrite sortDesc_perm.
Qed.

Lemma prefix_sorted (l k : list A) : StronglySorted atLeast (l ++ k) -> StronglySorted atLeast l.
Proof.
  induction l as [|x l IH]; intros H; [constructor|]. cbn in H. apply StronglySorted_inv in H as [H Hx].
  constructor; [auto|]. by apply Forall_app in Hx as [Hx _].
Qed.

(** The first elements are at least as great as the others. *)
Lemma sortDesc_take n l a b :
  numbered l -> a ∈ take n (sortDesc f l) -> b ∈ drop n (sortDesc f l) -> atLeast a b.
Proof.
  intros Hl Ha Hb. pose proof (sortDesc_sorted l Hl) as Hs. rewrite <- (take_drop n (sortDesc f l)) in Hs.
  clear Hl. induction (take n (sortDesc f l)) as [|x k IH]; [by apply not_elem_of_nil in Ha|].
  cbn in Hs. apply StronglySorted_inv in Hs as [Hs Hx]. apply elem_of_cons in Ha as [->|Ha]; [|by apply IH].
  rewrite list.Forall_forall in Hx. apply Hx, elem_of_app. by right.
Qed.

End sort.
End NumberOrder.
