(* ===== verification/Json.v ===== *)
(** * JSON values and the JSON block of an agent's answer

    The agents answer with prose and one fenced block, [```json ... ```]. The
    block is found with the regular expression the phases share; the text
    inside goes to [JSON.parse], which the components take as an argument (a
    partial function from strings to values, with no assumption on it). *)

From S2P Require Import Prelude JsNumber.
From stdpp Require Import options.

Module Json.

Inductive Json :=
  | JNull
  | JBool (b : bool)
  | JNum (n : JsNum.t)
  | JStr (s : string)
  | JArr (l : list Json)
  | JObj (m : list (string * Json)).

(** [!!v] *)
Definition truthy (v : Json) : bool :=
  match v with
  | JNull => false
  | JBool b => b
  | JNum n => JsNum.truthy n
  | JStr s => JsStr.truthy s
  | JArr _ | JObj _ => true
  end.

(** [v.name] on a parsed value: absent on anything but an object that has it
    (the last one wins when a key is repeated). *)
Definition field (name : string) (v : Json) : option Json :=
  match v with
  | JObj m => snd <$> hd_error (base.filter (fun e => e.1 = name) (reverse m))
  | _ => None
  end.

(** [v.name || undefined] *)
Definition truthyField (name : string) (v : Json) : option Json :=
  x ← field name v; if truthy x then Some x else None.

(** [v.name || '...'] where the value is used as a string *)
Definition strField (name dflt : string) (v : Json) : string :=
  match truthyField name v with
  | Some (JStr s) => s
  | _ => dflt
  end.

(** ** The fenced block *)

Definition isSpace (c : Ascii.ascii) : bool :=
  let n := Ascii.nat_of_ascii c in
  (n =? 32) || ((9 <=? n) && (n <=? 13)).

Fixpoint trimStart (s : string) : string :=
  match s with
  | EmptyString => EmptyString
  | String c s' => if isSpace c then trimStart s' else s
  end.

Definition fence : string := "```".
Definition openFence : string := "```json".

(** The text after the first [```json]. *)
Fixpoint afterOpen (s : string) : option string :=
  if JsStr.startsWith openFence s then Some (JsStr.drop 7 s)
  else match s with
       | EmptyString => None
       | String _ s' => afterOpen s'
       end.

(** The shortest text followed by [\s*```]. *)
Fixpoint untilFence (s : string) : option string :=
  if JsStr.startsWith fence (trimStart s) then Some EmptyString
  else match s with
       | EmptyString => None
       | String c s' => String c <$> untilFence s'
       end.

(** [output.match(/```json\s*([\s\S]*?)\s*```/)?.[1]] *)
Definition jsonBlock (s : string) : option string :=
  r ← afterOpen s; untilFence (trimStart r).

(** ** The block of a well-formed answer is its body *)

Definition backquote : Ascii.ascii := "`"%char.

Fixpoint noBackquote (s : string) : bool :=
  match s with
  | EmptyString => true
  | String c s' => negb (bool_decide (c = backquote)) && noBackquote s'
  end.

(** The last character of [s] is not white space. *)
Fixpoint trimmedEnd (s : string) : bool :=
  match s with
  | EmptyString => true
  | String c EmptyString => negb (isSpace c)
  | String _ s' => trimmedEnd s'
  end.

Definition trimmed (s : string) : bool :=
  match s with
  | EmptyString => false
  | String c _ => negb (isSpace c) && trimmedEnd s
  end.

Lemma afterOpen_skip pre s :
  noBackquote pre = true -> afterOpen (pre +:+ openFence +:+ s) = Some s.
Proof.
  induction pre as [|c pre IH]; [done|]. intros [Hc Hp]%andb_true_iff.
  assert (c <> backquote) as Hne by (by intros ->; rewrite bool_decide_true in Hc).
  change (String c pre +:+ openFence +:+ s) with (String c (pre +:+ openFence +:+ s)).
  cbn [afterOpen]. unfold openFence at 1. cbn [JsStr.startsWith].
  rewrite bool_decide_false by (intros ?; by apply Hne). simpl. by apply IH.
Qed.

Lemma trimStart_first c s : isSpace c = false -> trimStart (String c s) = String c s.
Proof. simpl. by intros ->. Qed.

(** White space before a fence is not part of the captured text. *)
Lemma fence_after_space ws s :
  (forall c, c ∈ String.list_ascii_of_string ws -> isSpace c = true) ->
  JsStr.startsWith fence (trimStart (ws +:+ fence +:+ s)) = true.
Proof.
  induction ws as [|c ws IH]; intros Hws; [done|].
  change (String c ws +:+ fence +:+ s) with (String c (ws +:+ fence +:+ s)).
  cbn [trimStart]. rewrite (Hws c) by (apply list_elem_of_here).
  apply IH. intros c' Hc'. apply Hws. by apply list_elem_of_further.
Qed.

(** Inside the body no fence follows, unless only white space remains. *)
Lemma no_fence_inside b t :
  b <> EmptyString -> noBackquote b = true -> trimmedEnd b = true ->
  JsStr.startsWith fence (trimStart (b +:+ t)) = false.
Proof.
  induction b as [|c b IH]; [done|]. intros _ [Hc Hb]%andb_true_iff Ht.
  assert (c <> backquote) as Hne by (by intros ->; rewrite bool_decide_true in Hc).
  change (String c b +:+ t) with (String c (b +:+ t)). cbn [trimStart].
  destruct (isSpace c) eqn:Hs.
  - destruct b as [|c' b']; [simpl in Ht; by rewrite Hs in Ht|]. by apply IH.
  - unfold fence. cbn [JsStr.startsWith]. by rewrite bool_decide_false by (intros ?; by apply Hne).
Qed.

Lemma untilFence_stop s :
  JsStr.startsWith fence (trimStart s) = true -> untilFence s = Some EmptyString.
Proof. destruct s; intros H; cbn [untilFence]; by rewrite H. Qed.

Lemma untilFence_body b ws s :
  (forall c, c ∈ String.list_ascii_of_string ws -> isSpace c = true) ->
  noBackquote b = true -> trimmedEnd b = true ->
  untilFence (b +:+ ws +:+ fence +:+ s) = Some b.
Proof.
  intros Hws. induction b as [|c b IH].
  - intros _ _. change (EmptyString +:+ ws +:+ fence +:+ s) with (ws +:+ fence +:+ s).
    by apply untilFence_stop, fence_after_space.
  - intros Hb Ht. pose proof (no_fence_inside (String c b) (ws +:+ fence +:+ s) ltac:(done) Hb Ht) as Hn.
    change (String c b +:+ ws +:+ fence +:+ s) with (String c (b +:+ ws +:+ fence +:+ s)) in *.
    cbn [untilFence]. rewrite Hn. apply andb_true_iff in Hb as [_ Hb]. rewrite IH; [done|done|].
    destruct b; [done|exact Ht].
Qed.

(** The block of an answer [pre ```json<ws>body<ws>``` post]. *)
Lemma jsonBlock_body pre ws1 b ws2 post :
  noBackquote pre = true ->
  (forall c, c ∈ String.list_ascii_of_string ws1 -> isSpace c = true) ->
  (forall c, c ∈ String.list_ascii_of_string ws2 -> isSpace c = true) ->
  noBackquote b = true -> trimmed b = true ->
  jsonBlock (pre +:+ openFence +:+ ws1 +:+ b +:+ ws2 +:+ fence +:+ post) = Some b.
Proof.
  intros Hpre H1 H2 Hb Ht. unfold jsonBlock. rewrite afterOpen_skip by done. simpl.
  destruct b as [|c b]; [done|]. apply andb_true_iff in Ht as [Hc Ht]. apply negb_true_iff in Hc.
  assert (trimStart (ws1 +:+ String c b +:+ ws2 +:+ fence +:+ post)
    = String c b +:+ ws2 +:+ fence +:+ post) as ->; [|by apply untilFence_body].
  induction ws1 as [|w ws1 IH]; [by apply trimStart_first|].
  change (String w ws1 +:+ String c b +:+ ws2 +:+ fence +:+ post)
    with (String w (ws1 +:+ String c b +:+ ws2 +:+ fence +:+ post)).
  cbn [trimStart]. rewrite (H1 w) by apply list_elem_of_here. apply IH.
  intros x Hx. apply H1. by apply list_elem_of_further.
Qed.

(** ** A longer text has the same first block *)

Lemma startsWith_app p s t : JsStr.startsWith p s = true -> JsStr.startsWith p (s +:+ t) = true.
Proof.
  revert s. induction p as [|c p IH]; [done|]. intros [|d s]; [done|].
  change (String d s +:+ t) with (String d (s +:+ t)). simpl. intros [? ?]%andb_true_iff.
  apply andb_true_iff. auto.
Qed.

Lemma startsWith_long p s t :
  String.length p <= String.length s -> JsStr.startsWith p (s +:+ t) = JsStr.startsWith p s.
Proof.
  revert s. induction p as [|c p IH]; [done|]. intros [|d s] Hle; [simpl in Hle; lia|].
  change (String d s +:+ t) with (String d (s +:+ t)). simpl in *. rewrite IH by lia. done.
Qed.

Lemma startsWith_length p s : JsStr.startsWith p s = true -> String.length p <= String.length s.
Proof.
  revert s. induction p as [|c p IH]; [simpl; lia|]. intros [|d s]; [done|]. simpl.
  intros [_ Hs]%andb_true_iff. specialize (IH _ Hs). lia.
Qed.

Lemma drop_append n s t : n <= String.length s -> JsStr.drop n (s +:+ t) = JsStr.drop n s +:+ t.
Proof.
  revert s. induction n as [|n IH]; intros [|c s] Hle; simpl in *; try done; try lia.
  change (String c s +:+ t) with (String c (s +:+ t)). simpl. apply IH. lia.
Qed.

Lemma afterOpen_length s r : afterOpen s = Some r -> 7 <= String.length s.
Proof.
  revert r. induction s as [|c s IH]; intros r; [done|]. cbn [afterOpen]. case_match eqn:Hs.
  - intros _. apply (startsWith_length _ _ Hs).
  - intros Hr%IH. simpl. lia.
Qed.

Lemma afterOpen_app s r t : afterOpen s = Some r -> afterOpen (s +:+ t) = Some (r +:+ t).
Proof.
  revert r. induction s as [|c s IH]; intros r Hr; [done|]. pose proof (afterOpen_length _ _ Hr) as Hlen.
  change (String c s +:+ t) with (String c (s +:+ t)). cbn [afterOpen] in *.
  change (String c (s +:+ t)) with (String c s +:+ t). rewrite startsWith_long by exact Hlen.
  case_match; [|by apply IH]. injection Hr as <-. f_equal. by apply drop_append.
Qed.

Lemma trimStart_app s t : trimStart s <> EmptyString -> trimStart (s +:+ t) = trimStart s +:+ t.
Proof.
  induction s as [|c s IH]; [done|]. change (String c s +:+ t) with (String c (s +:+ t)). simpl.
  case_match; [done|done].
Qed.

Lemma untilFence_length s b : untilFence s = Some b -> 3 <= String.length (trimStart s).
Proof.
  revert b. induction s as [|c s IH]; intros b; cbn [untilFence]; case_match eqn:Hs; try done.
  - intros _. apply (startsWith_length _ _ Hs).
  - intros (b' & Hb & _)%fmap_Some. specialize (IH _ Hb). cbn [trimStart]. case_match; [done|].
    assert (forall u, String.length (trimStart u) <= String.length u) as Htrim.
    { induction u as [|d u IHu]; simpl; [lia|]. case_match; simpl; lia. }
    specialize (Htrim s). simpl. lia.
Qed.

Lemma untilFence_app s b t : untilFence s = Some b -> untilFence (s +:+ t) = Some b.
Proof.
  revert b. induction s as [|c s IH]; intros b Hb; [done|]. pose proof (untilFence_length _ _ Hb) as Hlen.
  assert (trimStart (String c s) <> EmptyString) as Hne by (by intros He; rewrite He in Hlen; simpl in Hlen; lia).
  pose proof (trimStart_app (String c s) t Hne) as Htrim.
  change (String c s +:+ t) with (String c (s +:+ t)) in *. cbn [untilFence] in *.
  rewrite Htrim, startsWith_long by exact Hlen. case_match; [done|].
  apply fmap_Some in Hb as (b' & Hb & ->). by rewrite (IH _ Hb).
Qed.

Lemma jsonBlock_app s b t : jsonBlock s = Some b -> jsonBlock (s +:+ t) = Some b.
Proof.
  unfold jsonBlock. intros (r & Hr & Hb)%bind_Some. rewrite (afterOpen_app _ _ _ Hr). simpl.
  rewrite trimStart_app; [by apply untilFence_app|].
  intros He. by rewrite He in Hb.
Qed.

End Json.
