(* ===== verification/Regex.v ===== *)
(** * Regular expressions of the language

    The sources find JSON in the agents' answers and dangerous text in commands
    and files with [RegExp] literals. This file holds the part of the
    language's regular expressions they use: a parser of the literal's text
    ([compile]), the backtracking matcher with its priorities ([run], [exec],
    [test], [matchAll]), and a declarative meaning ([matches]) that the matcher
    is proved to decide. Captures inside a repeated group keep their last
    value; no literal of the sources reads one. Strings are sequences of 8-bit
    units, so only the ASCII white space counts as [\s]. *)

From S2P Require Import Prelude Json.
From stdpp Require Import options.

Module Regex.
Local Open Scope N_scope.

(** ** Syntax *)

(** A class: ranges of code units, possibly complemented. *)
Record cset := { cs_neg : bool; cs_ranges : list (N * N) }.

Inductive re :=
  | REmpty
  | RSet (c : cset)
  | RCat (a b : re)
  | RAlt (a b : re)
  | RStar (greedy : bool) (a : re)
  | RGroup (i : nat) (a : re)
  | RWordB (negated : bool)
  | RStart
  | REnd
  | RAhead (negated : bool) (a : re).

Definition code (c : Ascii.ascii) : N := Ascii.N_of_ascii c.

Definition upper (n : N) : N := if (97 <=? n) && (n <=? 122) then n - 32 else n.
Definition lower (n : N) : N := if (65 <=? n) && (n <=? 90) then n + 32 else n.

Definition inRanges (l : list (N * N)) (n : N) : bool :=
  existsb (fun r => (r.1 <=? n) && (n <=? r.2)) l.

(** Membership; under the flag [i] a member with the same upper case will do. *)
Definition csetHas (ci : bool) (s : cset) (c : Ascii.ascii) : bool :=
  let n := code c in
  xorb (cs_neg s)
    (inRanges (cs_ranges s) n
     || ci && (inRanges (cs_ranges s) (upper n) || inRanges (cs_ranges s) (lower n))).

Definition single (n : N) : cset := {| cs_neg := false; cs_ranges := [(n, n)] |}.
Definition lit (c : Ascii.ascii) : re := RSet (single (code c)).

Definition spaceRanges : list (N * N) := [(9, 13); (32, 32)].
Definition notSpaceRanges : list (N * N) := [(0, 8); (14, 31); (33, 255)].
Definition digitRanges : list (N * N) := [(48, 57)].
Definition notDigitRanges : list (N * N) := [(0, 47); (58, 255)].
Definition wordRanges : list (N * N) := [(48, 57); (65, 90); (95, 95); (97, 122)].
Definition notWordRanges : list (N * N) := [(0, 47); (58, 64); (91, 94); (96, 96); (123, 255)].

Definition ranges (l : list (N * N)) : cset := {| cs_neg := false; cs_ranges := l |}.

(** [.]: everything but the line terminators *)
Definition dot : cset := {| cs_neg := true; cs_ranges := [(10, 10); (13, 13)] |}.

(** [a?], [a*], [a+], [a{n,m}] *)
Definition opt (greedy : bool) (a : re) : re := if greedy then RAlt a REmpty else RAlt REmpty a.
Definition plus (greedy : bool) (a : re) : re := RCat a (RStar greedy a).
Fixpoint times (n : nat) (a rest : re) : re :=
  match n with O => rest | S n' => RCat a (times n' a rest) end.
Fixpoint upTo (greedy : bool) (n : nat) (a : re) : re :=
  match n with O => REmpty | S n' => opt greedy (RCat a (upTo greedy n' a)) end.

(** ** The parser of a literal *)

(** What follows a backslash: a class of characters, or one of them. *)
Definition escape (s : string) : option (list (N * N) * string) :=
  match s with
  | EmptyString => None
  | String c s' =>
      if bool_decide (c = "s"%char) then Some (spaceRanges, s')
      else if bool_decide (c = "S"%char) then Some (notSpaceRanges, s')
      else if bool_decide (c = "d"%char) then Some (digitRanges, s')
      else if bool_decide (c = "D"%char) then Some (notDigitRanges, s')
      else if bool_decide (c = "w"%char) then Some (wordRanges, s')
      else if bool_decide (c = "W"%char) then Some (notWordRanges, s')
      else if bool_decide (c = "n"%char) then Some ([(10, 10)], s')
      else if bool_decide (c = "r"%char) then Some ([(13, 13)], s')
      else if bool_decide (c = "t"%char) then Some ([(9, 9)], s')
      else Some ([(code c, code c)], s')
  end.

(** An element of a class: a range, or the ranges of an escape. *)
Definition classAtom (s : string) : option (list (N * N) * string) :=
  match s with
  | EmptyString => None
  | String "\" s' => escape s'
  | String c s' => Some ([(code c, code c)], s')
  end.

(** The elements of a class up to its closing bracket. *)
Fixpoint classItems (fuel : nat) (s : string) : option (list (N * N) * string) :=
  match fuel with
  | O => None
  | S fuel' =>
      match s with
      | String "]" s' => Some ([], s')
      | _ =>
          '(a, s1) ← classAtom s;
          match a, s1 with
          | [(x, y)], String "-" (String c s2) =>
              if bool_decide (c = "]"%char) || negb (x =? y)
              then '(l, s3) ← classItems fuel' s1; Some (a ++ l, s3)
              else
                '(b, s3) ← classAtom (String c s2);
                '(l, s4) ← classItems fuel' s3;
                match b with
                | [(z, z')] => if z =? z' then Some ((x, z) :: l, s4) else Some (a ++ (45, 45) :: b ++ l, s4)
                | _ => Some (a ++ (45, 45) :: b ++ l, s4)
                end
          | _, _ => '(l, s3) ← classItems fuel' s1; Some (a ++ l, s3)
          end
      end
  end.

(** A decimal number. *)
Fixpoint number (acc : option N) (s : string) : option N * string :=
  match s with
  | String c s' =>
      if (48 <=? code c) && (code c <=? 57)
      then number (Some (10 * default 0 acc + (code c - 48))) s' else (acc, s)
  | EmptyString => (acc, s)
  end.

(** [{n}], [{n,}], [{n,m}] after the opening brace; anything else is no
    quantifier and the brace stands for itself. *)
Definition bounds (s : string) : option (N * option N * bool * string) :=
  match number None s with
  | (Some n, String "}" s') => Some (n, Some n, true, s')
  | (Some n, String "," s1) =>
      match number None s1 with
      | (Some m, String "}" s') => Some (n, Some m, true, s')
      | (None, String "}" s') => Some (n, None, true, s')
      | _ => None
      end
  | _ => None
  end.

(** Is the quantifier followed by the [?] that makes it lazy? *)
Definition greedy (s : string) : bool * string :=
  match s with String "?" s' => (false, s') | _ => (true, s) end.

Definition quantify (a : re) (s : string) : re * string :=
  match s with
  | String "*" s' => let '(g, s2) := greedy s' in (RStar g a, s2)
  | String "+" s' => let '(g, s2) := greedy s' in (plus g a, s2)
  | String "?" s' => let '(g, s2) := greedy s' in (opt g a, s2)
  | String "{" s' =>
      match bounds s' with
      | Some (n, m, _, s1) =>
          let '(g, s2) := greedy s1 in
          (times (N.to_nat n) a
             (match m with
              | Some m => upTo g (N.to_nat m - N.to_nat n) a
              | None => RStar g a end), s2)
      | None => (a, s)
      end
  | _ => (a, s)
  end.

(** Alternatives, sequences and atoms; [g] counts the capturing groups. *)
Fixpoint parseAlt (fuel : nat) (g : nat) (s : string) : option (re * nat * string) :=
  match fuel with
  | O => None
  | S fuel' =>
      '(a, g1, s1) ← parseSeq fuel' g s;
      match s1 with
      | String "|" s2 => '(b, g2, s3) ← parseAlt fuel' g1 s2; Some (RAlt a b, g2, s3)
      | _ => Some (a, g1, s1)
      end
  end
with parseSeq (fuel : nat) (g : nat) (s : string) : option (re * nat * string) :=
  match fuel with
  | O => None
  | S fuel' =>
      match s with
      | EmptyString | String "|" _ | String ")" _ => Some (REmpty, g, s)
      | _ =>
          '(a, g1, s1) ← parseAtom fuel' g s;
          let '(a', s2) := quantify a s1 in
          '(b, g2, s3) ← parseSeq fuel' g1 s2;
          Some (match b with REmpty => a' | _ => RCat a' b end, g2, s3)
      end
  end
with parseAtom (fuel : nat) (g : nat) (s : string) : option (re * nat * string) :=
  match fuel with
  | O => None
  | S fuel' =>
      match s with
      | EmptyString => None
      | String "(" (String "?" (String ":" s')) => close fuel' (fun a => a) g s'
      | String "(" (String "?" (String "!" s')) => close fuel' (RAhead true) g s'
      | String "(" (String "?" (String "=" s')) => close fuel' (RAhead false) g s'
      | String "(" s' => close fuel' (RGroup (S g)) (S g) s'
      | String "[" (String "^" s') =>
          '(l, s1) ← classItems (S (String.length s')) s';
          Some (RSet {| cs_neg := true; cs_ranges := l |}, g, s1)
      | String "[" s' =>
          '(l, s1) ← classItems (S (String.length s')) s'; Some (RSet (ranges l), g, s1)
      | String "." s' => Some (RSet dot, g, s')
      | String "^" s' => Some (RStart, g, s')
      | String "$" s' => Some (REnd, g, s')
      | String "\" (String "b" s') => Some (RWordB false, g, s')
      | String "\" (String "B" s') => Some (RWordB true, g, s')
      | String "\" s' => '(l, s1) ← escape s'; Some (RSet (ranges l), g, s1)
      | String c s' => Some (lit c, g, s')
      end
  end
with close (fuel : nat) (f : re -> re) (g : nat) (s : string) : option (re * nat * string) :=
  match fuel with
  | O => None
  | S fuel' =>
      '(a, g1, s1) ← parseAlt fuel' g s;
      match s1 with String ")" s2 => Some (f a, g1, s2) | _ => None end
  end.

(** The expression of a literal; [None] is a syntax error. The fuel is twice
    what a literal of this length can need. *)
Definition compile (src : string) : option re :=
  match parseAlt (4 * String.length src + 4)%nat 0%nat src with
  | Some (r, _, EmptyString) => Some r
  | _ => None
  end.

(** ** Matching *)

(** A place in the subject: the unit before it, what follows, the captures. *)
Record pos := { p_prev : option Ascii.ascii; p_rest : string; p_caps : list (nat * string) }.

Definition isWord (c : option Ascii.ascii) : bool :=
  match c with Some c => inRanges wordRanges (code c) | None => false end.

Definition next (p : pos) : option Ascii.ascii :=
  match p_rest p with String c _ => Some c | EmptyString => None end.

Definition boundary (p : pos) : bool := xorb (isWord (p_prev p)) (isWord (next p)).

Definition advance (p : pos) : pos :=
  match p_rest p with
  | String c s => {| p_prev := Some c; p_rest := s; p_caps := p_caps p |}
  | EmptyString => p
  end.

Definition remaining (p : pos) : nat := String.length (p_rest p).

(** What was consumed between two places. *)
Definition consumed (p p' : pos) : string := JsStr.take (remaining p - remaining p')%nat (p_rest p).

Definition capture (i : nat) (p p' : pos) : pos :=
  {| p_prev := p_prev p'; p_rest := p_rest p'; p_caps := (i, consumed p p') :: p_caps p' |}.

(** The iterations of a repetition. An iteration that consumes nothing ends it,
    so the remaining length bounds their number. *)
Fixpoint star {A} (body : (pos -> option A) -> pos -> option A) (g : bool) (k : pos -> option A)
    (n : nat) (p : pos) : option A :=
  let more := match n with
              | O => None
              | S n' => body (fun p' => if (remaining p' <? remaining p)%nat
                                        then star body g k n' p' else None) p
              end in
  if g then match more with Some x => Some x | None => k p end
  else match k p with Some x => Some x | None => more end.

(** The backtracking matcher, in continuation-passing style as the language's
    specification has it. *)
Section matcher.
Variable ci : bool.

Fixpoint run {A} (r : re) (k : pos -> option A) (p : pos) : option A :=
  match r with
  | REmpty => k p
  | RSet c => match next p with
              | Some x => if csetHas ci c x then k (advance p) else None
              | None => None
              end
  | RCat a b => run a (run b k) p
  | RAlt a b => match run a k p with Some x => Some x | None => run b k p end
  | RStar g a => star (run a) g k (remaining p) p
  | RGroup i a => run a (fun p' => k (capture i p p')) p
  | RWordB n => if xorb n (boundary p) then k p else None
  | RStart => match p_prev p with None => k p | Some _ => None end
  | REnd => match p_rest p with EmptyString => k p | String _ _ => None end
  | RAhead n a =>
      match run a Some p with
      | Some _ => if n then None else k p
      | None => if n then k p else None
      end
  end.

(** The first match at or after a place: where it starts and ends. *)
Fixpoint execFrom (r : re) (prev : option Ascii.ascii) (s : string) : option (pos * pos) :=
  let p := {| p_prev := prev; p_rest := s; p_caps := [] |} in
  match run r Some p with
  | Some p' => Some (p, p')
  | None => match s with
            | EmptyString => None
            | String c s' => execFrom r (Some c) s'
            end
  end.

Definition exec (r : re) (s : string) : option (pos * pos) := execFrom r None s.

(** [r.test(s)] *)
Definition test (r : re) (s : string) : bool :=
  match exec r s with Some _ => true | None => false end.

(** [s.match(r)?.[0]] *)
Definition match0 (r : re) (s : string) : option string :=
  m ← exec r s; Some (consumed m.1 m.2).

(** [s.match(r)?.[1]] *)
Definition match1 (r : re) (s : string) : option string :=
  m ← exec r s; snd <$> hd_error (base.filter (fun c => c.1 = 1%nat) (p_caps m.2)).

(** [s.match(r)] with the flag [g]: the texts of the successive matches. After
    an empty match the search goes on one unit further. *)
Fixpoint matchAllFrom (fuel : nat) (r : re) (prev : option Ascii.ascii) (s : string) : list string :=
  match fuel with
  | O => []
  | S fuel' =>
      match execFrom r prev s with
      | None => []
      | Some (p, p') =>
          let q := if (remaining p' =? remaining p)%nat then advance p' else p' in
          consumed p p' ::
          (if (remaining q <? remaining p)%nat then matchAllFrom fuel' r (p_prev q) (p_rest q) else [])
      end
  end.

Definition matchAll (r : re) (s : string) : list string :=
  matchAllFrom (S (String.length s)) r None s.

(** ** Meaning: which places a match can lead to *)

Fixpoint matches (r : re) (p p' : pos) : Prop :=
  match r with
  | REmpty => p' = p
  | RSet c => exists x, next p = Some x /\ csetHas ci c x = true /\ p' = advance p
  | RCat a b => exists q, matches a p q /\ matches b q p'
  | RAlt a b => matches a p p' \/ matches b p p'
  | RStar _ a => rtc (fun q q' => matches a q q' /\ (remaining q' < remaining q)%nat) p p'
  | RGroup i a => exists q, matches a p q /\ p' = capture i p q
  | RWordB n => xorb n (boundary p) = true /\ p' = p
  | RStart => p_prev p = None /\ p' = p
  | REnd => p_rest p = EmptyString /\ p' = p
  | RAhead true a => p' = p /\ ~ exists q, matches a p q
  | RAhead false a => p' = p /\ exists q, matches a p q
  end.

(** The matcher finds a match whose continuation succeeds exactly when there is
    one. *)
Definition decides {A} (f : (pos -> option A) -> pos -> option A) (R : pos -> pos -> Prop) : Prop :=
  (forall k p x, f k p = Some x -> exists p', R p p' /\ k p' = Some x) /\
  (forall k p p', R p p' -> is_Some (k p') -> is_Some (f k p)).

Lemma star_sound {A} (body : (pos -> option A) -> pos -> option A) (R : pos -> pos -> Prop) g k n p x :
  decides body R -> star body g k n p = Some x ->
  exists p', rtc (fun q q' => R q q' /\ (remaining q' < remaining q)%nat) p p' /\ k p' = Some x.
Proof.
  intros [Hs _]. revert p. induction n as [|n IH]; intros p; simpl.
  { destruct g; [|destruct (k p) eqn:Hk]; intros H; simplify_eq; exists p; split; auto using rtc_refl. }
  set (more := body _ p). assert (more = Some x -> exists p', rtc (fun q q' =>
    R q q' /\ (remaining q' < remaining q)%nat) p p' /\ k p' = Some x) as Hmore.
  { intros (q & HR & Hq)%Hs. destruct (Nat.ltb_spec (remaining q) (remaining p)); [|done].
    destruct (IH q Hq) as (p' & Hp' & Hk). exists p'. split; [|done]. eapply rtc_l; eauto. }
  destruct g; [destruct more eqn:E|destruct (k p) eqn:Hk]; intros H; simplify_eq; auto;
    exists p; split; auto using rtc_refl.
Qed.

Lemma star_complete {A} (body : (pos -> option A) -> pos -> option A) (R : pos -> pos -> Prop) g k n p p' :
  decides body R -> (remaining p <= n)%nat ->
  rtc (fun q q' => R q q' /\ (remaining q' < remaining q)%nat) p p' -> is_Some (k p') ->
  is_Some (star body g k n p).
Proof.
  intros [_ Hc] Hn Hr. revert n Hn. induction Hr as [p|p q p' [HR Hlt] _ IH]; intros n Hn Hk.
  - destruct Hk as [y Hy]. destruct n; simpl; rewrite Hy; destruct g; try case_match; eauto.
  - destruct n as [|n]; [lia|]. simpl.
    assert (is_Some (body (fun p' => if (remaining p' <? remaining p)%nat
      then star body g k n p' else None) p)) as [x Hx].
    { eapply Hc; [exact HR|]. rewrite (proj2 (Nat.ltb_lt _ _) Hlt). apply IH; [lia|done]. }
    rewrite Hx. destruct g; [eauto|case_match; eauto].
Qed.

Lemma run_decides r : forall A, decides (run (A := A) r) (matches r).
Proof.
  induction r as [|c|a IHa b IHb|a IHa b IHb|g a IHa|i a IHa|n| | |n a IHa]; intros A; split; simpl.
  - eauto.
  - by intros k p p' ->.
  - intros k p x H. repeat case_match; simplify_eq. eauto 10.
  - intros k p p' (x & Hx & Hc & ->) Hk. by rewrite Hx, Hc.
  - intros k p x (q & Hq & (p' & Hp' & Hk)%IHb)%IHa. eauto 10.
  - intros k p p' (q & Hq & Hp') Hk. apply (proj2 (IHa A) _ _ q); [done|]. by eapply (IHb A).
  - intros k p x H. destruct (run a k p) eqn:E; simplify_eq.
    + apply IHa in E as (? & ? & ?). eauto.
    + apply IHb in H as (? & ? & ?). eauto.
  - intros k p p' [H|H] Hk.
    + destruct (proj2 (IHa A) k p p' H Hk) as [x ->]. eauto.
    + destruct (run a k p); [eauto|]. by eapply (IHb A).
  - intros k p x H. by apply (star_sound _ (matches a)) in H.
  - intros k p p' H Hk. by eapply (star_complete _ (matches a)).
  - intros k p x (q & Hq & Hk)%IHa. eauto 10.
  - intros k p p' (q & Hq & ->) Hk. by eapply (IHa A).
  - intros k p x H. case_match; simplify_eq. eauto.
  - intros k p p' [-> ->] Hk. done.
  - intros k p x H. case_match; simplify_eq. eauto.
  - intros k p p' [-> ->] Hk. done.
  - intros k p x H. case_match; simplify_eq. eauto.
  - intros k p p' [-> ->] Hk. done.
  - intros k p x H. destruct (run a Some p) eqn:E; destruct n; simplify_eq.
    + apply (IHa pos) in E as (q & Hq & _). eauto 10.
    + exists p. split_and!; try done. intros [q Hq].
      destruct (proj2 (IHa pos) Some p q Hq ltac:(eauto)). congruence.
  - intros k p p' H Hk. destruct n; destruct H as [-> H]; destruct (run a Some p) eqn:E; try done.
    + destruct H. apply (IHa pos) in E as (q & Hq & _). eauto.
    + destruct H as [q Hq]. destruct (proj2 (IHa pos) Some p q Hq ltac:(eauto)). congruence.
Qed.

(** The places of a subject. *)
Fixpoint places (prev : option Ascii.ascii) (s : string) : list pos :=
  {| p_prev := prev; p_rest := s; p_caps := [] |} ::
  match s with EmptyString => [] | String c s' => places (Some c) s' end.

Lemma execFrom_spec r prev s :
  is_Some (execFrom r prev s) <-> exists p p', p ∈ places prev s /\ matches r p p'.
Proof.
  revert prev. induction s as [|c s IH]; intros prev; cbn [execFrom places];
    set (p0 := {| p_prev := prev |}); destruct (run r Some p0) as [p'|] eqn:E.
  1, 3: split; eauto; intros _; apply (run_decides r pos) in E as (q & Hq & _);
    exists p0, q; split; [apply list_elem_of_here|done].
  - split; [by intros []|]. intros (p & p' & ->%list_elem_of_singleton & Hm).
    destruct (proj2 (run_decides r pos) Some _ _ Hm ltac:(eauto)). unfold p0 in *. congruence.
  - rewrite IH. split; intros (p & p' & Hin & Hm).
    + exists p, p'. split; [by apply list_elem_of_further|done].
    + apply elem_of_cons in Hin as [->|Hin]; [|eauto].
      destruct (proj2 (run_decides r pos) Some _ _ Hm ltac:(eauto)). unfold p0 in *. congruence.
Qed.

(** [test] decides whether the expression matches somewhere in the subject. *)
Lemma test_spec r s :
  test r s = true <-> exists p p', p ∈ places None s /\ matches r p p'.
Proof.
  rewrite <- execFrom_spec. unfold test, exec. destruct (execFrom r None s); split; eauto; [done|by intros []].
Qed.

End matcher.

(** ** Literals *)

(** The text between the slashes, and the flag [i]. *)
Record literal := { lit_source : string; lit_ci : bool }.

Definition cs (src : string) : literal := {| lit_source := src; lit_ci := false |}.
Definition ci (src : string) : literal := {| lit_source := src; lit_ci := true |}.

(** A text outside the syntax of this file, which no table of the sources has,
    would match nothing. *)
Definition parses (l : literal) : bool := match compile (lit_source l) with Some _ => true | None => false end.
Definition litTest (l : literal) (s : string) : bool :=
  match compile (lit_source l) with Some r => test (lit_ci l) r s | None => false end.
Definition litMatch (l : literal) (s : string) : option string := r ← compile (lit_source l); match0 (lit_ci l) r s.
Definition litMatchAll (l : literal) (s : string) : list string :=
  match compile (lit_source l) with Some r => matchAll (lit_ci l) r s | None => [] end.

(** ** The fenced block *)

(** [/```json\s*([\s\S]*?)\s*```/] *)
Definition fencedBlock : re :=
  Eval vm_compute in default REmpty (compile "```json\s*([\s\S]*?)\s*```").

Definition spaces : re := RStar true (RSet (ranges spaceRanges)).
Definition anyUnit : re := RSet (ranges (spaceRanges ++ notSpaceRanges)).
Definition backquotes : re := RCat (lit "`") (RCat (lit "`") (lit "`")).
Definition fenceTail : re := RCat spaces backquotes.
Definition fenceBody : re := RCat (RGroup 1 (RStar false anyUnit)) fenceTail.

Lemma csetHas_single c x : csetHas false (single (code c)) x = bool_decide (x = c).
Proof.
  unfold csetHas, single, inRanges, code. simpl. rewrite !orb_false_r.
  case_bool_decide as Hx; [subst; by rewrite N.leb_refl|].
  destruct (N.leb_spec (N_of_ascii c) (N_of_ascii x)), (N.leb_spec (N_of_ascii x) (N_of_ascii c)); try done.
  exfalso. apply Hx. rewrite <- (ascii_N_embedding x), <- (ascii_N_embedding c). f_equal. lia.
Qed.

Lemma csetHas_space x : csetHas false (ranges spaceRanges) x = Json.isSpace x.
Proof. by destruct x as [[] [] [] [] [] [] [] []]. Qed.

Lemma csetHas_any x : csetHas false (ranges (spaceRanges ++ notSpaceRanges)) x = true.
Proof. by destruct x as [[] [] [] [] [] [] [] []]. Qed.

Lemma run_set {A} ci c (k : pos -> option A) p :
  run ci (RSet c) k p =
    match p_rest p with
    | String x _ => if csetHas ci c x then k (advance p) else None
    | EmptyString => None
    end.
Proof. simpl. unfold next. by destruct (p_rest p). Qed.

Lemma run_lit {A} c (k : pos -> option A) p :
  run false (lit c) k p =
    match p_rest p with
    | String x _ => if bool_decide (x = c) then k (advance p) else None
    | EmptyString => None
    end.
Proof. unfold lit. rewrite run_set. destruct (p_rest p); [done|]. by rewrite csetHas_single. Qed.

(** A run of literal units is a prefix test. *)
Fixpoint lits (s : string) (rest : re) : re :=
  match s with EmptyString => rest | String c s' => RCat (lit c) (lits s' rest) end.

Definition skip (n : nat) (p : pos) : pos := Nat.iter n advance p.

Lemma skip_S n p : skip (S n) p = skip n (advance p).
Proof. unfold skip. by rewrite Nat.iter_succ_r. Qed.

Lemma run_lits {A} w r (k : pos -> option A) p :
  run false (lits w r) k p =
    if JsStr.startsWith w (p_rest p) then run false r k (skip (String.length w) p) else None.
Proof.
  revert p. induction w as [|c w IH]; intros p; [done|]. cbn [lits String.length JsStr.startsWith].
  change (run false (RCat (lit c) (lits w r)) k p)
    with (run false (lit c) (run false (lits w r) k) p).
  rewrite run_lit, skip_S. destruct (p_rest p) as [|x s] eqn:E; [done|].
  rewrite bool_decide_decide, (bool_decide_ext (c = x) (x = c)) by naive_solver.
  rewrite bool_decide_decide. destruct (decide (x = c)); [|done].
  rewrite IH. unfold advance at 1. rewrite E. done.
Qed.

Lemma skip_rest n p : p_rest (skip n p) = JsStr.drop n (p_rest p).
Proof.
  revert p. induction n as [|n IH]; intros p; [done|]. rewrite skip_S, IH. unfold advance.
  destruct (p_rest p) as [|c s] eqn:E; simpl; rewrite ?E; [by destruct n|done].
Qed.

Lemma skip_caps n p : p_caps (skip n p) = p_caps p.
Proof.
  revert p. induction n as [|n IH]; intros p; [done|]. rewrite skip_S, IH. unfold advance.
  by destruct (p_rest p).
Qed.

(** The leading white space. *)
Fixpoint spaceCount (s : string) : nat :=
  match s with
  | EmptyString => 0
  | String c s' => if Json.isSpace c then S (spaceCount s') else 0
  end.

Lemma drop_spaceCount s : JsStr.drop (spaceCount s) s = Json.trimStart s.
Proof. induction s as [|c s IH]; [done|]. simpl. by destruct (Json.isSpace c). Qed.

Definition skipSpaces (p : pos) : pos := skip (spaceCount (p_rest p)) p.

Lemma skipSpaces_rest p : p_rest (skipSpaces p) = Json.trimStart (p_rest p).
Proof. unfold skipSpaces. by rewrite skip_rest, drop_spaceCount. Qed.

Lemma advance_rest p c s : p_rest p = String c s -> p_rest (advance p) = s.
Proof. unfold advance. by intros ->. Qed.

(** A continuation that fails before white space once it fails after it: the
    greedy repetition takes all the white space. *)
Definition spaceClosed {A} (k : pos -> option A) : Prop :=
  forall q c s, p_rest q = String c s -> Json.isSpace c = true -> k (advance q) = None -> k q = None.

Lemma run_spaces {A} (k : pos -> option A) p :
  spaceClosed k -> run false spaces k p = k (skipSpaces p).
Proof.
  intros Hk. unfold spaces. cbn [run].
  enough (forall s n q, p_rest q = s -> (remaining q <= n)%nat ->
    star (run false (RSet (ranges spaceRanges))) true k n q = k (skipSpaces q) /\
    (k (skipSpaces q) = None -> k q = None)) as H by (by apply (H (p_rest p) (remaining p) p)).
  unfold skipSpaces, remaining. induction s as [|c s IH]; intros n q Hq Hn; rewrite Hq in *.
  { destruct n; cbn [star spaceCount]; rewrite ?run_set, ?Hq; done. }
  destruct n as [|n]; [simpl in Hn; lia|]. simpl spaceCount. cbn [star].
  rewrite run_set, Hq, csetHas_space. destruct (Json.isSpace c) eqn:Hc; [|done].
  pose proof (advance_rest q c s Hq) as Ha. unfold remaining. rewrite Ha, Hq. simpl String.length.
  rewrite (proj2 (Nat.ltb_lt _ _)) by lia. rewrite skip_S.
  destruct (IH n (advance q) Ha) as [E1 E2]; [rewrite Ha; simpl in Hn; lia|].
  rewrite Ha in *. rewrite E1. split; [|intros H; by eapply Hk; eauto].
  destruct (k (skip (spaceCount s) (advance q))) eqn:E; [done|]. eapply Hk; eauto.
Qed.

Lemma fence_not_space c s : Json.isSpace c = true -> JsStr.startsWith Json.fence (String c s) = false.
Proof. intros Hc. unfold Json.fence. simpl. rewrite bool_decide_false; [done|]. by intros <-. Qed.

(** [\s*```] *)
Lemma run_fenceTail p :
  run false fenceTail Some p =
    if JsStr.startsWith Json.fence (Json.trimStart (p_rest p))
    then Some (skip 3 (skipSpaces p)) else None.
Proof.
  unfold fenceTail. cbn [run]. fold spaces.
  change (run false spaces (run false backquotes Some) p = if JsStr.startsWith Json.fence
    (Json.trimStart (p_rest p)) then Some (skip 3 (skipSpaces p)) else None).
  assert (forall q, run false backquotes Some q =
    if JsStr.startsWith Json.fence (p_rest q) then Some (skip 3 q) else None) as Hf.
  { intros q. pose proof (run_lits "```" REmpty Some q) as H. exact H. }
  rewrite run_spaces, Hf, skipSpaces_rest; [done|].
  intros q c s Hq Hc _. by rewrite Hf, Hq, fence_not_space.
Qed.

(** The lazy group stops at the first fence. *)
Lemma run_fenceBody p :
  run false fenceBody Some p =
    match Json.untilFence (p_rest p) with
    | Some t => run false fenceTail Some (capture 1 p (skip (String.length t) p))
    | None => None
    end.
Proof.
  unfold fenceBody. cbn [run]. unfold anyUnit.
  set (k := fun p' => run false fenceTail Some (capture 1 p p')).
  enough (forall s n q, p_rest q = s -> (remaining q <= n)%nat ->
    star (run false anyUnit) false k n q =
      match Json.untilFence s with Some t => k (skip (String.length t) q) | None => None end) as H
    by (by apply (H (p_rest p) (remaining p) p)).
  assert (forall q, k q = if JsStr.startsWith Json.fence (Json.trimStart (p_rest q))
    then Some (skip 3 (skipSpaces (capture 1 p q))) else None) as Hk.
  { intros q. unfold k. by rewrite run_fenceTail. }
  unfold remaining. induction s as [|c s IH]; intros n q Hq Hn; rewrite Hq in Hn.
  { destruct n; cbn [star Json.untilFence]; unfold anyUnit; rewrite ?run_set, Hk, ?Hq; done. }
  destruct n as [|n]; [simpl in Hn; lia|]. cbn [star Json.untilFence]. rewrite Hk, Hq.
  destruct (JsStr.startsWith Json.fence (Json.trimStart (String c s))) eqn:Hf.
  { simpl. by rewrite Hk, Hq, Hf. }
  pose proof (advance_rest q c s Hq) as Ha.
  unfold anyUnit at 1. rewrite run_set, Hq, csetHas_any.
  unfold remaining. rewrite Ha, Hq. simpl String.length. rewrite (proj2 (Nat.ltb_lt _ _)) by lia.
  rewrite (IH n (advance q) Ha) by (rewrite Ha; simpl in Hn; lia).
  destruct (Json.untilFence s); [|done]. simpl fmap. cbn [String.length]. by rewrite skip_S.
Qed.

Lemma untilFence_fence s t :
  Json.untilFence s = Some t ->
  JsStr.startsWith Json.fence (Json.trimStart (JsStr.drop (String.length t) s)) = true /\
  JsStr.take (String.length t) s = t.
Proof.
  revert t. induction s as [|c s IH]; intros t; cbn [Json.untilFence]; case_match; intros; simplify_eq.
  - by split.
  - destruct (Json.untilFence s) as [u|]; simplify_eq/=. destruct (IH u) as [??]; [done|].
    split; [done|]. by f_equal.
Qed.

(** The captured text, or no match at all. *)
Lemma fenceBody_text p :
  p_caps p = [] ->
  match Json.untilFence (p_rest p) with
  | Some t => exists p', run false fenceBody Some p = Some p' /\ p_caps p' = [(1%nat, t)]
  | None => run false fenceBody Some p = None
  end.
Proof.
  intros Hc. rewrite run_fenceBody. destruct (Json.untilFence (p_rest p)) as [t|] eqn:E; [|done].
  destruct (untilFence_fence _ _ E) as [Hf Ht]. rewrite run_fenceTail. unfold capture at 1. cbn [p_rest].
  rewrite skip_rest, Hf. eexists. split; [done|]. unfold skipSpaces. rewrite !skip_caps.
  cbn [capture p_caps]. rewrite skip_caps, Hc. do 2 f_equal. unfold consumed, remaining. rewrite skip_rest.
  pose proof (JsStr.drop_length (String.length t) (p_rest p)) as Hd.
  pose proof (JsStr.take_length (String.length t) (p_rest p)) as Hl. rewrite Ht in Hl.
  unfold JsStr.length in *. rewrite Hd. replace (_ - _)%nat with (String.length t) by lia. done.
Qed.

Lemma fenceBody_none p : run false fenceBody Some p = None <-> Json.untilFence (p_rest p) = None.
Proof.
  rewrite run_fenceBody. destruct (Json.untilFence (p_rest p)) as [t|] eqn:E; [|done].
  destruct (untilFence_fence _ _ E) as [Hf _]. rewrite run_fenceTail. unfold capture at 1. cbn [p_rest].
  by rewrite skip_rest, Hf.
Qed.

Lemma untilFence_tail c s : Json.untilFence (String c s) = None -> Json.untilFence s = None.
Proof. cbn [Json.untilFence]. case_match; [done|]. by destruct (Json.untilFence s). Qed.

Lemma untilFence_trim s : Json.untilFence (Json.trimStart s) = None -> Json.untilFence s = None.
Proof.
  induction s as [|c s IH]; [done|]. cbn [Json.trimStart]. destruct (Json.isSpace c) eqn:Hc; [|done].
  intros Hs%IH. cbn [Json.untilFence Json.trimStart]. rewrite Hc, Hs.
  destruct (JsStr.startsWith Json.fence (Json.trimStart s)) eqn:Hf; [|done].
  by rewrite (Json.untilFence_stop s Hf) in Hs.
Qed.

Lemma run_fencedBlock p :
  run false fencedBlock Some p =
    if JsStr.startsWith Json.openFence (p_rest p)
    then run false fenceBody Some (skipSpaces (skip 7 p)) else None.
Proof.
  change fencedBlock with (lits "```json" (RCat spaces fenceBody)). rewrite run_lits.
  change (String.length "```json") with 7%nat. unfold Json.openFence. case_match; [|done].
  change (run false (RCat spaces fenceBody) Some (skip 7 p))
    with (run false spaces (run false fenceBody Some) (skip 7 p)).
  rewrite run_spaces; [done|]. intros q c s Hq Hc. rewrite !fenceBody_none, (advance_rest q c s Hq), Hq.
  intros Hs. apply untilFence_trim. cbn [Json.trimStart]. rewrite Hc.
  destruct (Json.untilFence (Json.trimStart s)) eqn:E; [|done]. exfalso.
  clear - E Hs. induction s as [|d s IH]; [done|]. cbn [Json.trimStart] in E.
  destruct (Json.isSpace d); [|congruence]. apply IH; [by eapply untilFence_tail|done].
Qed.

(** Without a fence there is no block. *)
Lemma exec_no_fence prev s : Json.untilFence s = None -> execFrom false fencedBlock prev s = None.
Proof.
  revert prev. induction s as [|c s IH]; intros prev Hs; cbn [execFrom]; rewrite run_fencedBlock; cbn [p_rest].
  - done.
  - destruct (JsStr.startsWith Json.openFence (String c s)) eqn:Ho.
    + apply JsStr.startsWith_spec in Ho as [u Hu]. rewrite Hu in Hs.
      rewrite (Json.untilFence_stop (String.append Json.openFence u)) in Hs; [done|].
      by vm_compute.
    + by eapply IH, untilFence_tail.
Qed.

Lemma exec_skip prev c s :
  JsStr.startsWith Json.openFence (String c s) = false ->
  execFrom false fencedBlock prev (String c s) = execFrom false fencedBlock (Some c) s.
Proof. intros H. cbn [execFrom]. rewrite run_fencedBlock. cbn [p_rest]. by rewrite H. Qed.

(** On every text, the backtracking matcher run on the pattern with which all
    phases look for a fenced JSON block captures exactly what the direct scanner
    [Json.jsonBlock] of the models computes: the shortest block after the first
    opening fence that is closed, without the surrounding white space. *)
Theorem match1_jsonBlock s : match1 false fencedBlock s = Json.jsonBlock s.
Proof.
  unfold match1, exec, Json.jsonBlock. generalize (@None Ascii.ascii) as prev.
  induction s as [|c s IH]; intros prev; cbn [execFrom Json.afterOpen]; rewrite run_fencedBlock; cbn [p_rest].
  { done. }
  destruct (JsStr.startsWith Json.openFence (String c s)) eqn:Ho; [|apply IH].
  set (p := {| p_prev := prev |}). pose proof (fenceBody_text (skipSpaces (skip 7 p))) as H.
  rewrite skipSpaces_rest, skip_rest in H. change (p_rest p) with (String c s) in H.
  unfold skipSpaces at 1 in H. rewrite !skip_caps in H. specialize (H eq_refl).
  cbn [mbind option_bind]. destruct (Json.untilFence (Json.trimStart (JsStr.drop 7 (String c s)))) as [t|] eqn:E.
  - destruct H as (p' & -> & Hc). cbn [mbind option_bind snd]. by rewrite Hc.
  - rewrite H. apply JsStr.startsWith_spec in Ho as [u Hu]. injection Hu as -> ->. apply untilFence_trim in E.
    change (Json.untilFence u = None) in E.
    change (String.append "``json" u) with (String "`" (String "`" (String "j" (String "s" (String "o" (String "n" u)))))).
    do 6 (rewrite exec_skip by (by vm_compute)).
    by rewrite (exec_no_fence _ u E).
Qed.

End Regex.
