(* ===== verification/CostTracker.v ===== *)
(** * Cost tracker (src/services/cost/CostTracker.ts)

    The in-memory totals per task and session, the updates pushed to the
    frontend and the persisted totals of the [tasks] table. The socket and the
    logger are write-only: what they receive is the [emitted] list. *)

From S2P Require Import Prelude JsNumber.
From stdpp Require Import options.

Module CostTracker.

Record SessionCostSummary := {
  sc_sessionId : string;
  sc_cost : JsNum.t;
  sc_inputTokens : Z;
  sc_outputTokens : Z;
  sc_storyId : option string;
  sc_phase : option string;
}.

Record TaskCostSummary := {
  tc_taskId : string;
  totalCost : JsNum.t;
  totalInputTokens : Z;
  totalOutputTokens : Z;
  sessions : list (string * SessionCostSummary);
  lastUpdated : Z;
}.

(** The argument [costData] of [recordCost], from a [step_finish] event. *)
Record CostData := {
  cd_cost : option JsNum.t;
  cd_tokens : option (option Z * option Z);
}.

(** The argument [metadata]. *)
Record CostMeta := { cm_storyId : option string; cm_phase : option string }.

(** The payload of the [cost:update] event. *)
Record CostUpdate := {
  cu_taskId : string;
  cu_totalCost : JsNum.t;
  cu_totalInputTokens : Z;
  cu_totalOutputTokens : Z;
  cu_sessionsCount : nat;
  cu_lastUpdated : Z;
}.

(** The cost columns of a row of [tasks]; the columns are nullable. *)
Record CostRow := {
  total_cost : option JsNum.t;
  total_input_tokens : option Z;
  total_output_tokens : option Z;
}.

Record State := {
  taskCosts : list (string * TaskCostSummary);
  db : gmap string CostRow;
  emitted : list CostUpdate;
}.

Definition init (rows : gmap string CostRow) : State :=
  {| taskCosts := []; db := rows; emitted := [] |}.

Section CostTracker.

(** Storing a number in the column [DECIMAL(10, 6)] and reading it back with
    [parseFloat]; [None] when the database rejects it as out of range. *)
Variable numeric_10_6 : JsNum.t -> option JsNum.t.

(** The columns [total_*_tokens] are [INTEGER]. *)
Definition int4_ok (z : Z) : bool := (- 2 ^ 31 <=? z)%Z && (z <? 2 ^ 31)%Z.

Definition inputTokensOf (d : CostData) : Z := JsNum.intOrZero (t ← cd_tokens d; t.1).
Definition outputTokensOf (d : CostData) : Z := JsNum.intOrZero (t ← cd_tokens d; t.2).
Definition costOf (d : CostData) : JsNum.t := JsNum.orZero (cd_cost d).

(** The early return of [recordCost]. *)
Definition isEmptyCost (d : CostData) : bool :=
  JsNum.eqb (costOf d) JsNum.zero && (inputTokensOf d =? 0)%Z && (outputTokensOf d =? 0)%Z.

Definition newTaskSummary (now : Z) (taskId : string) : TaskCostSummary :=
  {| tc_taskId := taskId; totalCost := JsNum.zero; totalInputTokens := 0;
     totalOutputTokens := 0; sessions := []; lastUpdated := now |}.

Definition newSessionSummary (sessionId : string) (meta : option CostMeta) : SessionCostSummary :=
  {| sc_sessionId := sessionId; sc_cost := JsNum.zero; sc_inputTokens := 0;
     sc_outputTokens := 0; sc_storyId := m ← meta; cm_storyId m;
     sc_phase := m ← meta; cm_phase m |}.

(** [sessionSummary.cost += cost; ...] *)
Definition accumulateSession (d : CostData) (s : SessionCostSummary) : SessionCostSummary :=
  {| sc_sessionId := sc_sessionId s;
     sc_cost := JsNum.add (sc_cost s) (costOf d);
     sc_inputTokens := JsNum.intAdd (sc_inputTokens s) (inputTokensOf d);
     sc_outputTokens := JsNum.intAdd (sc_outputTokens s) (outputTokensOf d);
     sc_storyId := sc_storyId s; sc_phase := sc_phase s |}.

(** The session entry and the task totals after one event. *)
Definition accumulate (now : Z) (sessionId : string) (d : CostData) (meta : option CostMeta)
    (t : TaskCostSummary) : TaskCostSummary :=
  let s := default (newSessionSummary sessionId meta) (JsMap.get sessionId (sessions t)) in
  {| tc_taskId := tc_taskId t;
     totalCost := JsNum.add (totalCost t) (costOf d);
     totalInputTokens := JsNum.intAdd (totalInputTokens t) (inputTokensOf d);
     totalOutputTokens := JsNum.intAdd (totalOutputTokens t) (outputTokensOf d);
     sessions := JsMap.set sessionId (accumulateSession d s) (sessions t);
     lastUpdated := now |}.

Definition emitCostUpdate (taskId : string) (t : TaskCostSummary) (st : State) : State :=
  {| taskCosts := taskCosts st; db := db st;
     emitted := emitted st ++
       [{| cu_taskId := taskId; cu_totalCost := totalCost t;
           cu_totalInputTokens := totalInputTokens t;
           cu_totalOutputTokens := totalOutputTokens t;
           cu_sessionsCount := JsMap.size (sessions t);
           cu_lastUpdated := lastUpdated t |}] |}.

(** The [UPDATE tasks SET total_cost = ...] statement: rejected as a whole when
    a value does not fit its column, without effect when the row is missing. *)
Definition updateRow (taskId : string) (t : TaskCostSummary)
    (rows : gmap string CostRow) : gmap string CostRow :=
  match numeric_10_6 (totalCost t) with
  | Some c =>
      if int4_ok (totalInputTokens t) && int4_ok (totalOutputTokens t) then
        alter (fun _ => {| total_cost := Some c;
                           total_input_tokens := Some (totalInputTokens t);
                           total_output_tokens := Some (totalOutputTokens t) |}) taskId rows
      else rows
  | None => rows
  end.

(** A failing query is caught and logged, so [dbUp = false] is no write. *)
Definition persistCostToDb (dbUp : bool) (taskId : string) (st : State) : State :=
  match JsMap.get taskId (taskCosts st) with
  | None => st
  | Some t =>
      if dbUp then {| taskCosts := taskCosts st; db := updateRow taskId t (db st);
                      emitted := emitted st |}
      else st
  end.

(** Whether the total crossed a cent with this event. *)
Definition centCrossed (t : TaskCostSummary) (d : CostData) : bool :=
  let cents x := JsNum.floor (JsNum.mul x (JsNum.ofZ 100)) in
  JsNum.floored_ne (cents (totalCost t)) (cents (JsNum.sub (totalCost t) (costOf d))).

Definition recordCost (dbUp : bool) (now : Z) (taskId sessionId : string) (d : CostData)
    (meta : option CostMeta) (st : State) : State :=
  if isEmptyCost d then st
  else
    let t0 := default (newTaskSummary now taskId) (JsMap.get taskId (taskCosts st)) in
    let t := accumulate now sessionId d meta t0 in
    let st1 := {| taskCosts := JsMap.set taskId t (taskCosts st); db := db st;
                  emitted := emitted st |} in
    let st2 := emitCostUpdate taskId t st1 in
    if centCrossed t d then persistCostToDb dbUp taskId st2 else st2.

Record DbCost := { dc_totalCost : JsNum.t; dc_in : Z; dc_out : Z }.

Definition loadCostFromDb (dbUp : bool) (taskId : string) (st : State) : option DbCost :=
  if dbUp then
    row ← db st !! taskId;
    Some {| dc_totalCost := default JsNum.zero (total_cost row);
            dc_in := JsNum.intOrZero (total_input_tokens row);
            dc_out := JsNum.intOrZero (total_output_tokens row) |}
  else None.

Definition dbCostIsZero (c : DbCost) : bool :=
  JsNum.eqb (dc_totalCost c) JsNum.zero && (dc_in c =? 0)%Z && (dc_out c =? 0)%Z.

Definition restoredSummary (now : Z) (taskId : string) (c : DbCost) : TaskCostSummary :=
  {| tc_taskId := taskId; totalCost := dc_totalCost c; totalInputTokens := dc_in c;
     totalOutputTokens := dc_out c; sessions := []; lastUpdated := now |}.

Definition restoreCostsFromDb (dbUp : bool) (now : Z) (taskId : string) (st : State)
    : bool * State :=
  if JsMap.has taskId (taskCosts st) then (true, st)
  else
    match loadCostFromDb dbUp taskId st with
    | None => (false, st)
    | Some c =>
        if dbCostIsZero c then (false, st)
        else
          let t := restoredSummary now taskId c in
          (true, emitCostUpdate taskId t
                   {| taskCosts := JsMap.set taskId t (taskCosts st); db := db st;
                      emitted := emitted st |})
    end.

Definition getTaskCost (taskId : string) (st : State) : option TaskCostSummary :=
  JsMap.get taskId (taskCosts st).

Definition getSessionCost (taskId sessionId : string) (st : State) : option SessionCostSummary :=
  t ← JsMap.get taskId (taskCosts st); JsMap.get sessionId (sessions t).

(** The API view of a task's costs. *)
Record CostDetails := {
  de_cost : JsNum.t; de_in : Z; de_out : Z; de_sessions : list SessionCostSummary }.

Definition detailsOf (t : TaskCostSummary) : CostDetails :=
  {| de_cost := totalCost t; de_in := totalInputTokens t; de_out := totalOutputTokens t;
     de_sessions := JsMap.values (sessions t) |}.

Definition getTaskCostDetails (taskId : string) (st : State) : option CostDetails :=
  detailsOf <$> JsMap.get taskId (taskCosts st).

Definition getTaskCostDetailsAsync (dbUp : bool) (taskId : string) (st : State)
    : option CostDetails :=
  match JsMap.get taskId (taskCosts st) with
  | Some t => Some (detailsOf t)
  | None =>
      c ← loadCostFromDb dbUp taskId st;
      Some {| de_cost := dc_totalCost c; de_in := dc_in c; de_out := dc_out c; de_sessions := [] |}
  end.

Definition clearTask (dbUp : bool) (taskId : string) (st : State) : State :=
  let st' := persistCostToDb dbUp taskId st in
  {| taskCosts := JsMap.delete taskId (taskCosts st'); db := db st'; emitted := emitted st' |}.

End CostTracker.
End CostTracker.
