(* ===== verification/CostTrackerProofs.v ===== *)
(** * Cost tracker: correctness

    The totals kept incrementally are the replay of the event log; token
    totals agree with the per-session totals while they are exact; what is
    persisted is what is restored. *)

From S2P Require Import Prelude JsNumber CostTracker.
From stdpp Require Import options.
Import CostTracker.

Module CostSpec.

(** One [step_finish] event as the event bridge forwards it. *)
Record Event := {
  ev_taskId : string;
  ev_sessionId : string;
  ev_data : CostData;
  ev_meta : option CostMeta;
  ev_now : Z;
  ev_dbUp : bool;
}.

(** The reference: fold of the amounts, in the order they arrived. *)
Definition Totals : Type := JsNum.t * Z * Z.
Definition zeroTotals : Totals := (JsNum.zero, 0%Z, 0%Z).
Definition addTotals (a : Totals) (d : CostData) : Totals :=
  (JsNum.add a.1.1 (costOf d), JsNum.intAdd a.1.2 (inputTokensOf d),
   JsNum.intAdd a.2 (outputTokensOf d)).

(** The events that count for a task, and for one of its sessions. *)
Definition counts (taskId : string) (e : Event) : bool :=
  bool_decide (ev_taskId e = taskId) && negb (isEmptyCost (ev_data e)).
Definition ofTask (taskId : string) (evs : list Event) : list Event :=
  base.filter (fun e => counts taskId e = true) evs.
Definition ofSession (sessionId : string) (evs : list Event) : list Event :=
  base.filter (fun e => ev_sessionId e = sessionId) evs.

Definition specTotals (evs : list Event) : Totals :=
  fold_left (fun a e => addTotals a (ev_data e)) evs zeroTotals.

Definition taskTotals (t : TaskCostSummary) : Totals :=
  (totalCost t, totalInputTokens t, totalOutputTokens t).
Definition sessionTotals (s : SessionCostSummary) : Totals :=
  (sc_cost s, sc_inputTokens s, sc_outputTokens s).

(** The abstract specification: totals of a task and of each of its sessions
    as a function of the event log alone. *)
Definition specTask (taskId : string) (evs : list Event) : option Totals :=
  let c := ofTask taskId evs in if decide (c = []) then None else Some (specTotals c).
Definition specSession (taskId sessionId : string) (evs : list Event) : option Totals :=
  let c := ofSession sessionId (ofTask taskId evs) in
  if decide (c = []) then None else Some (specTotals c).

Section proofs.
Variable numeric_10_6 : JsNum.t -> option JsNum.t.

Definition step (st : State) (e : Event) : State :=
  recordCost numeric_10_6 (ev_dbUp e) (ev_now e) (ev_taskId e) (ev_sessionId e)
    (ev_data e) (ev_meta e) st.

Definition replay (rows : gmap string CostRow) (evs : list Event) : State :=
  fold_left step evs (init rows).

Lemma replay_snoc rows evs e : replay rows (evs ++ [e]) = step (replay rows evs) e.
Proof. unfold replay. by rewrite fold_left_app. Qed.

(** The in-memory effect of one event; emission and persistence do not touch it. *)
Lemma taskCosts_persist up t st : taskCosts (persistCostToDb numeric_10_6 up t st) = taskCosts st.
Proof. unfold persistCostToDb. js_cases; done. Qed.

Lemma step_taskCosts st e :
  taskCosts (step st e) =
    if isEmptyCost (ev_data e) then taskCosts st
    else JsMap.set (ev_taskId e)
           (accumulate (ev_now e) (ev_sessionId e) (ev_data e) (ev_meta e)
              (default (newTaskSummary (ev_now e) (ev_taskId e))
                 (JsMap.get (ev_taskId e) (taskCosts st)))) (taskCosts st).
Proof.
  unfold step, recordCost. destruct (isEmptyCost _); [done|].
  destruct (centCrossed _ _); [rewrite taskCosts_persist|]; done.
Qed.

Lemma step_get_other st e t :
  counts t e = false -> getTaskCost t (step st e) = getTaskCost t st.
Proof.
  unfold counts, getTaskCost. rewrite step_taskCosts, andb_false_iff, negb_false_iff,
    bool_decide_eq_false. destruct (isEmptyCost _); [done|]. intros [?|?]; [|done].
  by rewrite JsMap.get_set_ne.
Qed.

Lemma step_get_same st e t :
  counts t e = true ->
  getTaskCost t (step st e) =
    Some (accumulate (ev_now e) (ev_sessionId e) (ev_data e) (ev_meta e)
            (default (newTaskSummary (ev_now e) t) (getTaskCost t st))).
Proof.
  unfold counts, getTaskCost. intros [Ht He]%andb_true_iff. bools. subst.
  rewrite step_taskCosts, He. by rewrite JsMap.get_set_eq.
Qed.

Lemma ofTask_snoc t evs e :
  ofTask t (evs ++ [e]) = if counts t e then ofTask t evs ++ [e] else ofTask t evs.
Proof.
  unfold ofTask. rewrite list.filter_app, filter_cons, filter_nil.
  destruct (counts t e); simpl; by rewrite ?app_nil_r.
Qed.

Lemma ofSession_snoc s evs e :
  ofSession s (evs ++ [e]) =
    if decide (ev_sessionId e = s) then ofSession s evs ++ [e] else ofSession s evs.
Proof.
  unfold ofSession. rewrite list.filter_app, filter_cons, filter_nil.
  case_decide; by rewrite ?app_nil_r.
Qed.

Lemma specTotals_snoc evs e :
  specTotals (evs ++ [e]) = addTotals (specTotals evs) (ev_data e).
Proof. unfold specTotals. by rewrite fold_left_app. Qed.

(** The totals of a possibly missing entry. *)
Definition obsTask (o : option TaskCostSummary) : option Totals := taskTotals <$> o.
Definition obsSession (o : option TaskCostSummary) (s : string) : option Totals :=
  sessionTotals <$> (t ← o; JsMap.get s (sessions t)).

Lemma accumulate_totals now s d m t :
  taskTotals (accumulate now s d m t) = addTotals (taskTotals t) d.
Proof. done. Qed.

Lemma accumulate_session now s d m t :
  sessionTotals <$> JsMap.get s (sessions (accumulate now s d m t)) =
    Some (addTotals (default zeroTotals (sessionTotals <$> JsMap.get s (sessions t))) d).
Proof. simpl. rewrite JsMap.get_set_eq. by destruct (JsMap.get s (sessions t)). Qed.

Lemma accumulate_session_ne now s s' d m t :
  s <> s' -> JsMap.get s' (sessions (accumulate now s d m t)) = JsMap.get s' (sessions t).
Proof. intros. simpl. by rewrite JsMap.get_set_ne. Qed.

Lemma specTask_default t evs :
  default zeroTotals (specTask t evs) = specTotals (ofTask t evs).
Proof. unfold specTask. case_decide as E; [by rewrite E|done]. Qed.

Lemma specSession_default t s evs :
  default zeroTotals (specSession t s evs) = specTotals (ofSession s (ofTask t evs)).
Proof. unfold specSession. case_decide as E; [by rewrite E|done]. Qed.

Lemma specTask_snoc t evs e :
  counts t e = true ->
  specTask t (evs ++ [e]) = Some (addTotals (default zeroTotals (specTask t evs)) (ev_data e)).
Proof.
  intros Hc. rewrite specTask_default. unfold specTask. rewrite ofTask_snoc, Hc.
  rewrite decide_False by auto with js. by rewrite specTotals_snoc.
Qed.

Lemma specTask_snoc_other t evs e :
  counts t e = false -> specTask t (evs ++ [e]) = specTask t evs.
Proof. intros Hc. unfold specTask. by rewrite ofTask_snoc, Hc. Qed.

Lemma specSession_snoc t s evs e :
  counts t e = true -> ev_sessionId e = s ->
  specSession t s (evs ++ [e])
  = Some (addTotals (default zeroTotals (specSession t s evs)) (ev_data e)).
Proof.
  intros Hc Hs. rewrite specSession_default. unfold specSession.
  rewrite ofTask_snoc, Hc, ofSession_snoc, (decide_True _ _ Hs).
  rewrite decide_False by auto with js. by rewrite specTotals_snoc.
Qed.

Lemma specSession_snoc_other t s evs e :
  counts t e = false \/ ev_sessionId e <> s ->
  specSession t s (evs ++ [e]) = specSession t s evs.
Proof.
  intros Hc. unfold specSession. rewrite ofTask_snoc. destruct (counts t e); [|done].
  destruct Hc as [?|Hs]; [done|]. by rewrite ofSession_snoc, (decide_False _ _ Hs).
Qed.

Lemma obsTask_accumulate now s d m o t :
  obsTask (Some (accumulate now s d m (default (newTaskSummary now t) o)))
  = Some (addTotals (default zeroTotals (obsTask o)) d).
Proof. by destruct o. Qed.

Lemma obsSession_accumulate now s d m o t :
  obsSession (Some (accumulate now s d m (default (newTaskSummary now t) o))) s
  = Some (addTotals (default zeroTotals (obsSession o s)) d).
Proof. etrans; [apply accumulate_session|]. by destruct o. Qed.

Lemma obsSession_accumulate_ne now s s' d m o t :
  s <> s' ->
  obsSession (Some (accumulate now s d m (default (newTaskSummary now t) o))) s'
  = obsSession o s'.
Proof.
  intros Hne. etrans; [apply (f_equal (fmap sessionTotals)); by apply accumulate_session_ne|].
  by destruct o.
Qed.

(** C7 The tracker refines the event log: after any sequence of events the
    totals it reports for every task and every session are the fold of the
    amounts of exactly the non-empty events recorded for it, in arrival order
    (in binary64 arithmetic), and a task or session without such an event is
    unknown. *)
Theorem recordCost_refines_log rows evs taskId sessionId :
  obsTask (getTaskCost taskId (replay rows evs)) = specTask taskId evs
  /\ sessionTotals <$> getSessionCost taskId sessionId (replay rows evs)
     = specSession taskId sessionId evs.
Proof.
  change (sessionTotals <$> getSessionCost taskId sessionId (replay rows evs))
    with (obsSession (getTaskCost taskId (replay rows evs)) sessionId).
  induction evs as [|e evs [IHt IHs]] using rev_ind; [done|].
  rewrite replay_snoc. destruct (counts taskId e) eqn:Hc.
  - rewrite step_get_same by done. split.
    + by rewrite obsTask_accumulate, IHt, specTask_snoc.
    + destruct (decide (ev_sessionId e = sessionId)) as [<-|Hne].
      * by rewrite obsSession_accumulate, IHs, specSession_snoc.
      * by rewrite obsSession_accumulate_ne, IHs, specSession_snoc_other by auto.
  - rewrite step_get_other, specTask_snoc_other, specSession_snoc_other by auto. done.
Qed.

(** ** Token totals against the per-session totals *)

(** Exact sums of the tokens of a log. *)
Definition sumIn (evs : list Event) : Z := sumZ (fun e => inputTokensOf (ev_data e)) evs.
Definition sumOut (evs : list Event) : Z := sumZ (fun e => outputTokensOf (ev_data e)) evs.
Definition tokensNonneg (e : Event) : Prop :=
  (0 <= inputTokensOf (ev_data e))%Z /\ (0 <= outputTokensOf (ev_data e))%Z.

(** A counter of the task agrees with the same counter of its sessions. *)
Definition agrees (total : Z) (f : SessionCostSummary -> Z)
    (ss : list (string * SessionCostSummary)) : Prop :=
  total = sumZ f (JsMap.values ss) /\ (forall s, s ∈ JsMap.values ss -> (0 <= f s)%Z).

Lemma agrees_add total (f : SessionCostSummary -> Z) ss k s s' n :
  agrees total f ss -> (0 <= n)%Z -> (total + n < JsNum.maxSafe)%Z ->
  f s' = JsNum.intAdd (f s) n ->
  JsMap.get k ss = Some s \/ JsMap.get k ss = None /\ f s = 0%Z ->
  agrees (JsNum.intAdd total n) f (JsMap.set k s' ss)
  /\ JsNum.intAdd total n = (total + n)%Z.
Proof.
  intros [-> Hpos] Hn Hlt Hs' Hget.
  assert (0 <= f s <= sumZ f (JsMap.values ss))%Z as Hs.
  { destruct Hget as [Hg|[_ ->]]; [|split; [lia|by apply sumZ_nonneg]].
    apply JsMap.get_Some_values in Hg. split; [by apply Hpos|by apply sumZ_elem]. }
  rewrite JsNum.intAdd_exact in * by lia.
  split; [|done]. split.
  - rewrite sumZ_set, Hs'. destruct Hget as [->|[-> ->]]; simpl; lia.
  - intros x [->|Hx]%JsMap.values_set; [lia|auto].
Qed.

Definition balanced (t : TaskCostSummary) : Prop :=
  agrees (totalInputTokens t) sc_inputTokens (sessions t)
  /\ agrees (totalOutputTokens t) sc_outputTokens (sessions t).

Lemma accumulate_balanced now s d m t :
  balanced t -> (0 <= inputTokensOf d)%Z -> (0 <= outputTokensOf d)%Z ->
  (totalInputTokens t + inputTokensOf d < JsNum.maxSafe)%Z ->
  (totalOutputTokens t + outputTokensOf d < JsNum.maxSafe)%Z ->
  balanced (accumulate now s d m t)
  /\ totalInputTokens (accumulate now s d m t) = (totalInputTokens t + inputTokensOf d)%Z
  /\ totalOutputTokens (accumulate now s d m t) = (totalOutputTokens t + outputTokensOf d)%Z.
Proof.
  intros [Hin Hout] ? ? ? ?. unfold balanced. simpl.
  set (s0 := default (newSessionSummary s m) (JsMap.get s (sessions t))).
  assert (forall f, f (newSessionSummary s m) = 0%Z ->
    JsMap.get s (sessions t) = Some s0 \/ JsMap.get s (sessions t) = None /\ f s0 = 0%Z) as Hg.
  { intros f Hf. unfold s0. destruct (JsMap.get s (sessions t)); auto. }
  destruct (agrees_add _ _ _ s s0 (accumulateSession d s0) (inputTokensOf d) Hin) as [? Hx]; auto.
  destruct (agrees_add _ _ _ s s0 (accumulateSession d s0) (outputTokensOf d) Hout) as [? Hy]; auto.
Qed.

Lemma new_balanced now t : balanced (newTaskSummary now t).
Proof. split; split; simpl; [done|set_solver|done|set_solver]. Qed.

(** The running invariant behind [session_tokens_sum]. *)
Lemma replay_balanced rows evs taskId :
  Forall tokensNonneg evs ->
  (sumIn (ofTask taskId evs) < JsNum.maxSafe)%Z ->
  (sumOut (ofTask taskId evs) < JsNum.maxSafe)%Z ->
  match getTaskCost taskId (replay rows evs) with
  | None => ofTask taskId evs = []
  | Some t => balanced t /\ totalInputTokens t = sumIn (ofTask taskId evs)
              /\ totalOutputTokens t = sumOut (ofTask taskId evs)
  end.
Proof.
  induction evs as [|e evs IH] using rev_ind; [done|].
  rewrite Forall_app, Forall_singleton. intros [Hnn [Hi Ho]]. rewrite replay_snoc, ofTask_snoc.
  destruct (counts taskId e) eqn:Hc; [|rewrite step_get_other by done; by apply IH].
  unfold sumIn, sumOut. rewrite !sumZ_app. simpl. intros Hlt Hlt'.
  rewrite step_get_same by done. unfold sumIn, sumOut in IH.
  specialize (IH Hnn ltac:(lia) ltac:(lia)).
  destruct (getTaskCost taskId (replay rows evs)) as [t|]; cbn [from_option id].
  - destruct IH as (Hb & Hti & Hto).
    destruct (accumulate_balanced (ev_now e) (ev_sessionId e) (ev_data e) (ev_meta e) t) as (?&->&->);
      split_and?; auto; lia.
  - rewrite IH in *. cbn [sumZ foldr] in *.
    destruct (accumulate_balanced (ev_now e) (ev_sessionId e) (ev_data e) (ev_meta e)
      (newTaskSummary (ev_now e) taskId)) as (?&->&->);
      simpl; split_and?; auto using new_balanced; lia.
Qed.

(** As long as the token counts are non-negative and the task's exact totals
    stay below [2^53], the totals of a task are the sums of the totals of its
    sessions: no event is lost or counted twice between the two levels. *)
Theorem session_tokens_sum rows evs taskId t :
  Forall tokensNonneg evs ->
  (sumIn (ofTask taskId evs) < JsNum.maxSafe)%Z ->
  (sumOut (ofTask taskId evs) < JsNum.maxSafe)%Z ->
  getTaskCost taskId (replay rows evs) = Some t ->
  totalInputTokens t = sumZ sc_inputTokens (JsMap.values (sessions t))
  /\ totalOutputTokens t = sumZ sc_outputTokens (JsMap.values (sessions t))
  /\ totalInputTokens t = sumIn (ofTask taskId evs)
  /\ totalOutputTokens t = sumOut (ofTask taskId evs).
Proof.
  intros Hnn Hi Ho Hg. pose proof (replay_balanced rows evs taskId Hnn Hi Ho) as HR.
  rewrite Hg in HR. destruct HR as ([[??] [??]] & ? & ?). auto.
Qed.

(** ** Persistence *)

Lemma persist_row taskId t st c row :
  getTaskCost taskId st = Some t -> db st !! taskId = Some row ->
  numeric_10_6 (totalCost t) = Some c ->
  int4_ok (totalInputTokens t) = true -> int4_ok (totalOutputTokens t) = true ->
  loadCostFromDb true taskId (persistCostToDb numeric_10_6 true taskId st)
  = Some {| dc_totalCost := c; dc_in := totalInputTokens t; dc_out := totalOutputTokens t |}.
Proof.
  unfold getTaskCost. intros Hg Hrow Hc Hi Ho. unfold persistCostToDb, loadCostFromDb, updateRow.
  rewrite Hg. simpl. rewrite Hc, Hi, Ho. simpl. rewrite lookup_alter_eq, Hrow. done.
Qed.

(** Clearing a task persists its totals and a later restore brings back
    exactly what the database kept: the token totals unchanged, the cost as the
    [DECIMAL(10, 6)] column rounds it, no session detail; the other tasks are
    untouched. *)
Theorem clear_restore_roundtrip now taskId t st c row :
  getTaskCost taskId st = Some t -> db st !! taskId = Some row ->
  numeric_10_6 (totalCost t) = Some c ->
  int4_ok (totalInputTokens t) = true -> int4_ok (totalOutputTokens t) = true ->
  dbCostIsZero {| dc_totalCost := c; dc_in := totalInputTokens t;
                  dc_out := totalOutputTokens t |} = false ->
  let r := restoreCostsFromDb true now taskId (clearTask numeric_10_6 true taskId st) in
  r.1 = true
  /\ getTaskCost taskId (clearTask numeric_10_6 true taskId st) = None
  /\ (exists t', getTaskCost taskId r.2 = Some t'
       /\ taskTotals t' = (c, totalInputTokens t, totalOutputTokens t) /\ sessions t' = [])
  /\ (forall other, other <> taskId -> getTaskCost other r.2 = getTaskCost other st).
Proof.
  intros Hg Hrow Hc Hi Ho Hnz. pose proof (persist_row _ _ _ _ _ Hg Hrow Hc Hi Ho) as Hl.
  unfold clearTask, restoreCostsFromDb, getTaskCost in *. cbn [taskCosts].
  rewrite taskCosts_persist. rewrite (proj2 (JsMap.has_false _ _)) by apply JsMap.get_delete_eq.
  change (loadCostFromDb true taskId _) with (loadCostFromDb true taskId
    (persistCostToDb numeric_10_6 true taskId st)). rewrite Hl, Hnz. cbn -[JsMap.get JsMap.set].
  split_and!; [done|apply JsMap.get_delete_eq| |].
  - eexists. rewrite JsMap.get_set_eq. done.
  - intros other Hne. by rewrite JsMap.get_set_ne, JsMap.get_delete_ne.
Qed.

(** An event that crosses a cent leaves the database row equal to the
    in-memory totals (as the column rounds the cost), so a restart at that
    point loses nothing of them. *)
Theorem cent_crossing_persists now taskId sessionId d m st t c row :
  getTaskCost taskId (recordCost numeric_10_6 true now taskId sessionId d m st) = Some t ->
  isEmptyCost d = false -> centCrossed t d = true ->
  db st !! taskId = Some row -> numeric_10_6 (totalCost t) = Some c ->
  int4_ok (totalInputTokens t) = true -> int4_ok (totalOutputTokens t) = true ->
  loadCostFromDb true taskId (recordCost numeric_10_6 true now taskId sessionId d m st)
  = Some {| dc_totalCost := c; dc_in := totalInputTokens t; dc_out := totalOutputTokens t |}.
Proof.
  intros Hg He Hx Hrow Hc Hi Ho. unfold recordCost in *. rewrite He in *. cbn zeta in *.
  set (t' := accumulate _ _ _ _ _) in *.
  assert (t = t') as ->.
  { unfold getTaskCost in Hg. destruct (centCrossed t' d); rewrite ?taskCosts_persist in Hg;
      simpl in Hg; rewrite JsMap.get_set_eq in Hg; congruence. }
  rewrite Hx. eapply persist_row; eauto. apply JsMap.get_set_eq.
Qed.

Lemma sub_zero_floor x :
  JsNum.floor (JsNum.mul (JsNum.sub x JsNum.zero) (JsNum.ofZ 100))
  = JsNum.floor (JsNum.mul x (JsNum.ofZ 100)).
Proof. by destruct x as [[]|[]| |]. Qed.

(** An event without cost (a model that is free to run) never reaches the
    database, whatever its token counts: the incremental persistence that is
    meant to survive a crash only follows the dollar amount. *)
Theorem free_event_not_persisted up now taskId sessionId d m st :
  costOf d = JsNum.zero ->
  (forall t, getTaskCost taskId st = Some t ->
     exists z, JsNum.floor (JsNum.mul (JsNum.add (totalCost t) JsNum.zero) (JsNum.ofZ 100))
               = JsNum.FloorInt z) ->
  db (recordCost numeric_10_6 up now taskId sessionId d m st) = db st.
Proof.
  intros Hd Hfin. unfold recordCost. destruct (isEmptyCost d); [done|]. cbn zeta.
  set (t' := accumulate _ _ _ _ _). enough (centCrossed t' d = false) as -> by done.
  unfold centCrossed. rewrite Hd, sub_zero_floor.
  assert (exists z, JsNum.floor (JsNum.mul (totalCost t') (JsNum.ofZ 100)) = JsNum.FloorInt z)
    as [z ->].
  { unfold t', getTaskCost in *. simpl. rewrite Hd.
    destruct (JsMap.get taskId (taskCosts st)); [by apply Hfin|]. by exists 0%Z. }
  simpl. by rewrite Z.eqb_refl.
Qed.

End proofs.
(** ** Concrete runs *)

Definition demoData (cents i o : Z) : CostData :=
  {| cd_cost := Some (JsNum.ofDecimal cents 2); cd_tokens := Some (Some i, Some o) |}.
Definition demoEvent (s : string) (d : CostData) : Event :=
  {| ev_taskId := "task-1"; ev_sessionId := s; ev_data := d; ev_meta := None; ev_now := 7;
     ev_dbUp := true |}.
Definition demoLog : list Event :=
  [demoEvent "session-1" (demoData 1 100 50); demoEvent "session-2" (demoData 2 200 100)].
Definition demoRows : gmap string CostRow :=
  {["task-1" := {| total_cost := None; total_input_tokens := None; total_output_tokens := None |}]}.
Definition demoState : State := replay Some demoRows demoLog.

Lemma demoLog_nonneg : Forall tokensNonneg demoLog.
Proof. repeat constructor; vm_compute; discriminate. Qed.

Lemma session_tokens_sum_witness :
  exists t, getTaskCost "task-1" demoState = Some t /\ totalInputTokens t = 300%Z
    /\ totalInputTokens t = sumZ sc_inputTokens (JsMap.values (sessions t)).
Proof.
  eexists. split; [vm_compute; reflexivity|]. split; [reflexivity|].
  eapply (session_tokens_sum Some demoRows demoLog "task-1" _ demoLog_nonneg);
    [reflexivity|reflexivity|vm_compute; reflexivity].
Defined.

Lemma clear_restore_roundtrip_witness :
  (restoreCostsFromDb true 9 "task-1" (clearTask Some true "task-1" demoState)).1 = true.
Proof.
  eapply (clear_restore_roundtrip Some 9 "task-1" _ demoState);
    try (vm_compute; reflexivity).
Defined.

(** The task's totals after one more event of five cents. *)
Definition demoTotals : TaskCostSummary :=
  Eval vm_compute in default (newTaskSummary 0 "")
    (getTaskCost "task-1"
       (recordCost Some true 8 "task-1" "session-1" (demoData 5 10 10) None demoState)).
Definition demoRow : CostRow :=
  Eval vm_compute in default {| total_cost := None; total_input_tokens := None;
                                total_output_tokens := None |} (db demoState !! "task-1").

Lemma cent_crossing_persists_witness :
  loadCostFromDb true "task-1"
    (recordCost Some true 8 "task-1" "session-1" (demoData 5 10 10) None demoState)
  = Some {| dc_totalCost := totalCost demoTotals; dc_in := 310; dc_out := 160 |}.
Proof.
  apply (cent_crossing_persists Some 8 "task-1" "session-1" (demoData 5 10 10) None demoState
    demoTotals (totalCost demoTotals) demoRow); vm_compute; reflexivity.
Defined.

Lemma free_event_not_persisted_witness :
  db (recordCost Some true 8 "task-1" "session-1"
        {| cd_cost := Some JsNum.zero; cd_tokens := Some (Some 10%Z, None) |} None demoState)
  = db demoState.
Proof.
  eapply (free_event_not_persisted Some true 8 "task-1" "session-1"); [reflexivity|].
  intros t Ht. vm_compute in Ht. injection Ht as <-. eexists. vm_compute. reflexivity.
Defined.

End CostSpec.
