(* ===== verification/Approval.v ===== *)
(** * Phase approvals (src/services/realtime/ApprovalService.ts) and their
    audit trail (src/database/repositories/ApprovalLogRepository.ts)

    A request creates a promise and stores its resolver under the key
    [taskId:phase]. Promises and timers are numbered by [nextId]; a promise
    that is settled stays as it is, as the language has it. The payload shown
    to the user ([output], of type [any]) is only stored and sent again: it is
    kept in serialised form. *)

From S2P Require Import Prelude.
From stdpp Require Import options.

Module ApprovalLog.

Inductive LogAction := LogApprove | LogReject | LogTimeout | LogAuto.

#[global] Instance LogAction_eq_dec : EqDecision LogAction.
Proof. solve_decision. Defined.

(** A row of [approval_logs]; the rows are kept in order of [created_at]. *)
Record Entry := {
  le_taskId : string;
  le_phase : string;
  le_action : LogAction;
  le_userId : option string;
  le_clientId : option string;
  le_feedback : option string;
  le_requestedAt : Z;
  le_createdAt : Z;
}.

(** [INSERT INTO approval_logs ...] *)
Definition log (e : Entry) (rows : list Entry) : list Entry :=
  rows ++ [{| le_taskId := le_taskId e; le_phase := le_phase e; le_action := le_action e;
              le_userId := JsStr.orNull (le_userId e);
              le_clientId := JsStr.orNull (le_clientId e);
              le_feedback := le_feedback e; le_requestedAt := le_requestedAt e;
              le_createdAt := le_createdAt e |}].

Definition getByTaskId (taskId : string) (rows : list Entry) : list Entry :=
  base.filter (fun e => le_taskId e = taskId) rows.

Definition getByUserId (userId : string) (limit : nat) (rows : list Entry) : list Entry :=
  take limit (reverse (base.filter (fun e => le_userId e = Some userId) rows)).

Definition getRecent (limit : nat) (rows : list Entry) : list Entry :=
  take limit (reverse rows).

Record Stats := {
  st_total : nat; st_approved : nat; st_rejected : nat; st_auto : nat; st_timeout : nat;
  st_byPhase : gmap string nat }.

(** [SELECT action, COUNT( * ) ... GROUP BY action] at one action *)
Definition countAction (a : LogAction) (rows : list Entry) : nat :=
  length (base.filter (fun e => le_action e = a) rows).

(** [SELECT phase, COUNT( * ) ... GROUP BY phase] *)
Definition countByPhase (rows : list Entry) : gmap string nat :=
  foldr (fun e m => partial_alter (fun o => Some (S (default 0 o))) (le_phase e) m) ∅ rows.

(** [WHERE created_at >= $1] *)
Definition sinceOk (since : option Z) (e : Entry) : bool :=
  match since with Some z => (z <=? le_createdAt e)%Z | None => true end.

Definition getStats (since : option Z) (rows : list Entry) : Stats :=
  let rs := base.filter (fun e => sinceOk since e = true) rows in
  let c a := countAction a rs in
  {| st_total := c LogApprove + c LogReject + c LogAuto + c LogTimeout;
     st_approved := c LogApprove; st_rejected := c LogReject;
     st_auto := c LogAuto; st_timeout := c LogTimeout;
     st_byPhase := countByPhase rs |}.

End ApprovalLog.

Module ApprovalService.
Import ApprovalLog.

Inductive ApprovalAction := Approve | Reject | RequestChanges.

#[global] Instance ApprovalAction_eq_dec : EqDecision ApprovalAction.
Proof. solve_decision. Defined.

Record ApprovalResponse := { action : ApprovalAction; feedback : option string }.

#[global] Instance ApprovalResponse_eq_dec : EqDecision ApprovalResponse.
Proof. solve_decision. Defined.

(** What a promise was settled with. *)
Inductive Settlement :=
  | Resolved (r : ApprovalResponse)
  | Rejected (msg : string).

Record PendingApproval := {
  pa_promise : nat;
  pa_timeout : option nat;
  pa_taskId : string;
  pa_phase : string;
  pa_output : string;
  pa_requestedAt : Z;
}.

(** A running [setTimeout] of [requestApproval] and what its callback captured. *)
Record Timer := {
  tm_id : nat;
  tm_key : string;
  tm_taskId : string;
  tm_phase : string;
  tm_promise : nat;
  tm_requestedAt : Z;
}.

(** The payload of [phase:approval_required]. *)
Record PendingApprovalInfo := {
  pi_taskId : string; pi_phase : string; pi_output : string; pi_requestedAt : Z }.

Record State := {
  pending : list (string * PendingApproval);
  timers : list Timer;
  settled : list (nat * Settlement);
  nextId : nat;
  audit : list Entry;
  emitted : list PendingApprovalInfo;
}.

Definition init : State :=
  {| pending := []; timers := []; settled := []; nextId := 0; audit := []; emitted := [] |}.

Definition outcomeOf (p : nat) (st : State) : option Settlement :=
  (list_to_map (settled st) : gmap nat Settlement) !! p.

Definition isSettled (p : nat) (st : State) : bool := bool_decide (p ∈ (settled st).*1).

(** [resolve(v)] or [reject(e)] of a promise: only the first call counts. *)
Definition settle (p : nat) (v : Settlement) (st : State) : State :=
  if isSettled p st then st
  else {| pending := pending st; timers := timers st; settled := settled st ++ [(p, v)];
          nextId := nextId st; audit := audit st; emitted := emitted st |}.

Definition clearTimer (t : option nat) (ts : list Timer) : list Timer :=
  match t with
  | Some i => base.filter (fun tm => tm_id tm <> i) ts
  | None => ts
  end.

Definition timedOut (timeoutMs : option Z) : bool :=
  match timeoutMs with Some ms => (0 <? ms)%Z | None => false end.

Definition requestApproval (now : Z) (taskId phase output : string) (timeoutMs : option Z)
    (st : State) : nat * State :=
  let k := JsStr.key taskId phase in
  let p := nextId st in
  let t := if timedOut timeoutMs then Some p else None in
  (p, {| pending := JsMap.set k
           {| pa_promise := p; pa_timeout := t; pa_taskId := taskId; pa_phase := phase;
              pa_output := output; pa_requestedAt := now |} (pending st);
         timers := if timedOut timeoutMs then
             timers st ++ [{| tm_id := p; tm_key := k; tm_taskId := taskId; tm_phase := phase;
                              tm_promise := p; tm_requestedAt := now |}]
           else timers st;
         settled := settled st; nextId := S p; audit := audit st;
         emitted := emitted st ++
           [{| pi_taskId := taskId; pi_phase := phase; pi_output := output;
               pi_requestedAt := now |}] |}).

(** The callback of the timer [tm]. *)
Definition timerFires (now : Z) (tm : Timer) (st : State) : State :=
  settle (tm_promise tm) (Rejected (String.append "Approval timeout for " (tm_phase tm)))
    {| pending := JsMap.delete (tm_key tm) (pending st);
       timers := base.filter (fun tm' => tm_id tm' <> tm_id tm) (timers st);
       settled := settled st; nextId := nextId st;
       audit := log {| le_taskId := tm_taskId tm; le_phase := tm_phase tm;
                       le_action := LogTimeout; le_userId := None; le_clientId := None;
                       le_feedback := None; le_requestedAt := tm_requestedAt tm;
                       le_createdAt := now |} (audit st);
       emitted := emitted st |}.

(** The action written to the audit trail for a response. *)
Definition auditAction (a : ApprovalAction) : LogAction :=
  match a with
  | RequestChanges => LogApprove
  | Approve => LogApprove
  | Reject => LogReject
  end.

Definition resolveWithAction (now : Z) (taskId phase : string) (response : ApprovalResponse)
    (clientId userId : option string) (st : State) : bool * State :=
  let k := JsStr.key taskId phase in
  match JsMap.get k (pending st) with
  | Some pa =>
      let st1 := settle (pa_promise pa) (Resolved response)
        {| pending := pending st; timers := clearTimer (pa_timeout pa) (timers st);
           settled := settled st; nextId := nextId st; audit := audit st;
           emitted := emitted st |} in
      (true,
        {| pending := JsMap.delete k (pending st1); timers := timers st1;
           settled := settled st1; nextId := nextId st1;
           audit := log {| le_taskId := taskId; le_phase := phase;
                           le_action := auditAction (action response);
                           le_userId := userId; le_clientId := clientId;
                           le_feedback := feedback response;
                           le_requestedAt := pa_requestedAt pa;
                           le_createdAt := now |} (audit st1);
           emitted := emitted st1 |})
  | None => (false, st)
  end.

(** The deprecated boolean form. *)
Definition resolve (now : Z) (taskId phase : string) (approved : bool) (st : State) : bool * State :=
  resolveWithAction now taskId phase
    {| action := if approved then Approve else Reject; feedback := None |} None None st.

(** The three socket messages of a connected client. *)
Inductive SocketMsg :=
  | PhaseApprove (taskId phase : string) (fb userId : option string)
  | PhaseReject (taskId phase : string) (userId : option string)
  | PhaseRequestChanges (taskId phase fb : string) (userId : option string).

Definition onSocket (now : Z) (socketId : string) (m : SocketMsg) (st : State) : bool * State :=
  match m with
  | PhaseApprove t p fb u =>
      resolveWithAction now t p {| action := Approve; feedback := fb |} (Some socketId) u st
  | PhaseReject t p u =>
      resolveWithAction now t p {| action := Reject; feedback := None |} (Some socketId) u st
  | PhaseRequestChanges t p fb u =>
      resolveWithAction now t p {| action := RequestChanges; feedback := Some fb |}
        (Some socketId) u st
  end.

Definition hasPendingApproval (taskId phase : string) (st : State) : bool :=
  JsMap.has (JsStr.key taskId phase) (pending st).

(** The test [key.startsWith(`${taskId}:`)] of the two scans. *)
Definition keyOfTask (taskId k : string) : bool := JsStr.startsWith (String.append taskId ":") k.

(** The body of the loop of [cancelTask] for one matching entry. *)
Definition cancelEntry (now : Z) (taskId : string) (st : State) (e : string * PendingApproval)
    : State :=
  if keyOfTask taskId e.1 then
    let st1 := settle (pa_promise e.2) (Rejected "Task cancelled")
      {| pending := pending st; timers := clearTimer (pa_timeout e.2) (timers st);
         settled := settled st; nextId := nextId st;
         audit := log {| le_taskId := taskId; le_phase := pa_phase e.2; le_action := LogReject;
                         le_userId := None; le_clientId := None;
                         le_feedback := Some "task_cancelled";
                         le_requestedAt := pa_requestedAt e.2; le_createdAt := now |} (audit st);
         emitted := emitted st |} in
    {| pending := JsMap.delete e.1 (pending st1); timers := timers st1; settled := settled st1;
       nextId := nextId st1; audit := audit st1; emitted := emitted st1 |}
  else st.

Definition cancelTask (now : Z) (taskId : string) (st : State) : State :=
  fold_left (cancelEntry now taskId) (pending st) st.

Definition getPendingApprovalForTask (taskId : string) (st : State) : option PendingApprovalInfo :=
  r ← list_find (fun e => keyOfTask taskId e.1 = true) (pending st);
  let pa := r.2.2 in
  Some {| pi_taskId := pa_taskId pa; pi_phase := pa_phase pa; pi_output := pa_output pa;
          pi_requestedAt := pa_requestedAt pa |}.

Definition resendApprovalRequest (taskId : string) (st : State) : bool * State :=
  match getPendingApprovalForTask taskId st with
  | None => (false, st)
  | Some i =>
      (true, {| pending := pending st; timers := timers st; settled := settled st;
                nextId := nextId st; audit := audit st; emitted := emitted st ++ [i] |})
  end.

End ApprovalService.
