(* ===== verification/ApprovalProofs.v ===== *)
(** * Phase approvals: safety of the approval queue

    The operations as a labelled transition system, the invariant of its
    reachable states, and what follows: a promise settles at most once, and
    only by an answer for its own task and phase, by the cancellation of its
    task or by a timeout that was asked for. *)

From S2P Require Import Prelude Approval.
From stdpp Require Import options.
Import ApprovalLog ApprovalService.

Module ApprovalLTS.

Inductive Op :=
  | OpRequest (now : Z) (taskId phase output : string) (timeoutMs : option Z)
  | OpResolve (now : Z) (taskId phase : string) (r : ApprovalResponse)
      (clientId userId : option string)
  | OpCancel (now : Z) (taskId : string)
  | OpResend (taskId : string)
  | OpTimer (now : Z) (tm : Timer).

Inductive step (st : State) : Op -> State -> Prop :=
  | step_request now t ph out ms :
      step st (OpRequest now t ph out ms) (requestApproval now t ph out ms st).2
  | step_resolve now t ph r c u :
      step st (OpResolve now t ph r c u) (resolveWithAction now t ph r c u st).2
  | step_cancel now t :
      step st (OpCancel now t) (cancelTask now t st)
  | step_resend t :
      step st (OpResend t) (resendApprovalRequest t st).2
  | step_timer now tm :
      tm ∈ timers st -> step st (OpTimer now tm) (timerFires now tm st).

(** The states reachable from start-up, with the operations that led there. *)
Inductive trace : list Op -> State -> Prop :=
  | trace_nil : trace [] init
  | trace_snoc ops st o st' : trace ops st -> step st o st' -> trace (ops ++ [o]) st'.

(** Task ids hold no [':'] ([generateId] builds them from base-36 digits and
    one underscore). *)
Definition opTask (o : Op) : option string :=
  match o with
  | OpRequest _ t _ _ _ | OpResolve _ t _ _ _ _ | OpCancel _ t | OpResend t => Some t
  | OpTimer _ _ => None
  end.
Definition opOk (o : Op) : Prop := forall t, opTask o = Some t -> JsStr.no_colon t = true.

(** The task, the phase and whether a timeout was asked for, of the request
    that created each promise. *)
Definition requestOf (o : Op) : option (string * string * bool) :=
  match o with
  | OpRequest _ t ph _ ms => Some (t, ph, timedOut ms)
  | _ => None
  end.
Definition requests (ops : list Op) : list (string * string * bool) := omap requestOf ops.

(** What may settle the promise [p]: an answer given for its task and phase,
    the cancellation of its task, or its own timeout. *)
Definition justified (ops : list Op) (p : nat) (v : Settlement) : Prop :=
  exists t ph timed, requests ops !! p = Some (t, ph, timed) /\
    match v with
    | Resolved r => exists now c u, OpResolve now t ph r c u ∈ ops
    | Rejected _ => (exists now, OpCancel now t ∈ ops) \/ timed = true
    end.

Record EntryInv (ops : list Op) (st : State) (k : string) (pa : PendingApproval) : Prop := {
  ei_key : k = JsStr.key (pa_taskId pa) (pa_phase pa);
  ei_task : JsStr.no_colon (pa_taskId pa) = true;
  ei_req : exists timed, requests ops !! pa_promise pa = Some (pa_taskId pa, pa_phase pa, timed);
  ei_open : pa_promise pa ∉ (settled st).*1;
}.

Record TimerInv (ops : list Op) (st : State) (tm : Timer) : Prop := {
  ti_id : tm_id tm = tm_promise tm;
  ti_req : exists t ph, requests ops !! tm_promise tm = Some (t, ph, true)
             /\ tm_key tm = JsStr.key t ph;
  ti_open : tm_promise tm ∉ (settled st).*1;
  ti_entry : forall k pa, JsMap.get k (pending st) = Some pa -> pa_promise pa = tm_promise tm ->
    pa_timeout pa = Some (tm_id tm);
}.

Record Inv (ops : list Op) (st : State) : Prop := {
  inv_wf : JsMap.wf (pending st);
  inv_next : nextId st = length (requests ops);
  inv_entry : forall k pa, JsMap.get k (pending st) = Some pa -> EntryInv ops st k pa;
  inv_inj : NoDup ((pa_promise ∘ snd) <$> pending st);
  inv_settled : NoDup (settled st).*1;
  inv_just : forall p v, (p, v) ∈ settled st -> justified ops p v;
  inv_timer : forall tm, tm ∈ timers st -> TimerInv ops st tm;
}.

Lemma requests_snoc ops o :
  requests (ops ++ [o]) = requests ops ++ option_list (requestOf o).
Proof. unfold requests. rewrite omap_app. csimpl. by destruct (requestOf o). Qed.

Lemma requests_mono ops o p x :
  requests ops !! p = Some x -> requests (ops ++ [o]) !! p = Some x.
Proof. rewrite requests_snoc. apply lookup_app_l_Some. Qed.

Lemma justified_mono ops o p v : justified ops p v -> justified (ops ++ [o]) p v.
Proof.
  intros (t & ph & b & Hr & Hv). exists t, ph, b. split; [by apply requests_mono|].
  destruct v; set_solver.
Qed.

Lemma EntryInv_mono ops st st' o k pa :
  EntryInv ops st k pa -> pa_promise pa ∉ (settled st').*1 -> EntryInv (ops ++ [o]) st' k pa.
Proof. intros [??[??]?] ?. constructor; eauto using requests_mono. Qed.

(** ** Elementary facts on [settle] and the scans *)

Lemma settle_fresh p v st :
  p ∉ (settled st).*1 -> settled (settle p v st) = settled st ++ [(p, v)].
Proof. intros Hp. unfold settle, isSettled. by rewrite bool_decide_false. Qed.

Lemma settle_other p v st :
  pending (settle p v st) = pending st /\ timers (settle p v st) = timers st
  /\ nextId (settle p v st) = nextId st /\ emitted (settle p v st) = emitted st.
Proof. unfold settle. by destruct (isSettled p st). Qed.

Lemma clearTimer_subset t ts tm : tm ∈ clearTimer t ts -> tm ∈ ts.
Proof. destruct t; simpl; [|done]. rewrite list_elem_of_filter. naive_solver. Qed.

Lemma clearTimer_gone i ts tm : tm ∈ clearTimer (Some i) ts -> tm_id tm <> i.
Proof. simpl. rewrite list_elem_of_filter. naive_solver. Qed.

(** Distinct keys hold distinct promises. *)
Lemma promise_inj (m : list (string * PendingApproval)) k k' pa pa' :
  NoDup ((pa_promise ∘ snd) <$> m) ->
  JsMap.get k m = Some pa -> JsMap.get k' m = Some pa' -> pa_promise pa = pa_promise pa' ->
  k = k' /\ pa = pa'.
Proof.
  intros Hnd [i Hi]%JsMap.get_Some_elem%list_elem_of_lookup
    [j Hj]%JsMap.get_Some_elem%list_elem_of_lookup Heq.
  assert (i = j) as ->; [|naive_solver]. eapply (NoDup_lookup _ _ _ (pa_promise pa) Hnd).
  - by rewrite list_lookup_fmap, Hi.
  - rewrite list_lookup_fmap, Hj. simpl. by rewrite Heq.
Qed.

Lemma NoDup_fmap_filter {A B} (f : A -> B) (P : A -> Prop) `{!forall x, Decision (P x)} l :
  NoDup (f <$> l) -> NoDup (f <$> base.filter P l).
Proof.
  induction l as [|a l IH]; [done|]. csimpl. intros [Hn Hl]%list.NoDup_cons.
  rewrite filter_cons. case_decide; [|auto]. csimpl. constructor; [|auto].
  intros (x & Hx & [_ Hin]%list_elem_of_filter)%list_elem_of_fmap. apply Hn.
  rewrite Hx. by apply list_elem_of_fmap_2.
Qed.

Lemma promises_set k pa (m : list (string * PendingApproval)) :
  NoDup ((pa_promise ∘ snd) <$> m) -> pa_promise pa ∉ ((pa_promise ∘ snd) <$> m) ->
  NoDup ((pa_promise ∘ snd) <$> JsMap.set k pa m).
Proof.
  induction m as [|[k' pa'] m IH]; csimpl; intros Hnd Hni; [by apply NoDup_singleton|].
  apply not_elem_of_cons in Hni as [Hne Hni]. apply list.NoDup_cons in Hnd as [Hn' Hnd].
  case_decide; csimpl; constructor; auto.
  intros (e & He & Hin)%list_elem_of_fmap. simpl in *. destruct e as [k1 pa1]. simpl in *.
  pose proof (list_elem_of_fmap_2 snd _ _ Hin) as [Hv|Hv]%JsMap.values_set; simpl in Hv;
    [congruence|].
  apply Hn'. rewrite He. apply list_elem_of_fmap in Hv as ([k2 pa2] & -> & Hin2).
  by apply (list_elem_of_fmap_2 (pa_promise ∘ snd) _ _ Hin2).
Qed.

(** ** Preservation *)

Lemma Inv_init : Inv [] init.
Proof. constructor; simpl; try done; try constructor; set_solver. Qed.

Lemma Inv_mono ops st o : requestOf o = None -> Inv ops st -> Inv (ops ++ [o]) st.
Proof.
  intros Ho [Hwf Hn He Hi Hs Hj Ht]. constructor; auto using justified_mono.
  - by rewrite requests_snoc, Ho, app_nil_r.
  - intros k pa Hk. eapply EntryInv_mono; [eauto|]. by eapply ei_open, He.
  - intros tm Hin. destruct (Ht tm Hin) as [? (t & ph & ? & ?) ? ?].
    constructor; auto. exists t, ph. auto using requests_mono.
Qed.

(** Settling the promise of an entry and dropping the entry with its timer. *)
Definition closeEntry (k : string) (pa : PendingApproval) (v : Settlement) (rows : list Entry)
    (st : State) : State :=
  {| pending := JsMap.delete k (pending st); timers := clearTimer (pa_timeout pa) (timers st);
     settled := settled st ++ [(pa_promise pa, v)]; nextId := nextId st; audit := rows;
     emitted := emitted st |}.

Lemma get_delete_Some {V} k k' (v : V) (m : list (string * V)) :
  JsMap.get k' (JsMap.delete k m) = Some v -> k <> k' /\ JsMap.get k' m = Some v.
Proof.
  destruct (decide (k = k')) as [->|Hne]; [by rewrite JsMap.get_delete_eq|].
  by rewrite JsMap.get_delete_ne.
Qed.

Lemma not_in_settled_snoc (l : list (nat * Settlement)) p q v :
  p ∉ l.*1 -> p <> q -> p ∉ (l ++ [(q, v)]).*1.
Proof. rewrite fmap_app. csimpl. rewrite not_elem_of_app, list_elem_of_singleton. auto. Qed.

Lemma NoDup_settled_snoc (l : list (nat * Settlement)) q v :
  NoDup l.*1 -> q ∉ l.*1 -> NoDup (l ++ [(q, v)]).*1.
Proof.
  intros Hnd Hq. rewrite fmap_app. csimpl. apply list.NoDup_app.
  split_and!; [done| |by apply NoDup_singleton]. intros x Hx ->%list_elem_of_singleton. done.
Qed.

Lemma Inv_closeEntry ops st k pa v rows :
  Inv ops st -> JsMap.get k (pending st) = Some pa -> justified ops (pa_promise pa) v ->
  Inv ops (closeEntry k pa v rows st).
Proof.
  intros [Hwf Hn He Hi Hs Hj Ht] Hk Hv. pose proof (He _ _ Hk) as [Hkey Htask Hreq Hopen].
  constructor; simpl; auto with jsmap.
  - intros k' pa' [Hne Hk']%get_delete_Some. destruct (He _ _ Hk') as [????].
    constructor; auto. apply not_in_settled_snoc; [done|]. intros Heq. apply Hne.
    symmetry. by eapply (promise_inj _ _ _ _ _ Hi).
  - by apply NoDup_fmap_filter.
  - by apply NoDup_settled_snoc.
  - intros p w [?|Heq%list_elem_of_singleton]%elem_of_app; [auto|]. by simplify_eq.
  - intros tm Htm. pose proof (clearTimer_subset _ _ _ Htm) as Hin.
    destruct (Ht _ Hin) as [Hid Hr Hop Hent]. constructor; auto.
    + apply not_in_settled_snoc; [done|]. intros Heq.
      rewrite (Hent _ _ Hk (eq_sym Heq)) in Htm. by apply clearTimer_gone in Htm.
    + intros k' pa' [_ Hk']%get_delete_Some. by apply (Hent k').
Qed.

Lemma cancelEntry_close now t st e :
  keyOfTask t e.1 = true -> pa_promise e.2 ∉ (settled st).*1 ->
  exists rows, cancelEntry now t st e
    = closeEntry e.1 e.2 (Rejected "Task cancelled") rows st.
Proof.
  intros Hk Hp. unfold cancelEntry, settle, isSettled. rewrite Hk. simpl.
  rewrite bool_decide_false by done. eexists. reflexivity.
Qed.

Lemma keyOfTask_inv t k pa ops st :
  JsStr.no_colon t = true -> EntryInv ops st k pa ->
  keyOfTask t k = bool_decide (t = pa_taskId pa).
Proof. intros Ht [-> Hn _ _]. by apply JsStr.startsWith_key. Qed.

Lemma cancelEntry_Inv ops now t st e :
  JsStr.no_colon t = true -> OpCancel now t ∈ ops -> Inv ops st ->
  JsMap.get e.1 (pending st) = Some e.2 -> Inv ops (cancelEntry now t st e).
Proof.
  intros Hc Hop HI Hg. pose proof (inv_entry _ _ HI _ _ Hg) as He.
  destruct (keyOfTask t e.1) eqn:Hk; [|by unfold cancelEntry; rewrite Hk].
  destruct (cancelEntry_close now t st e Hk (ei_open _ _ _ _ He)) as [rows ->].
  apply Inv_closeEntry; auto. rewrite (keyOfTask_inv _ _ _ _ _ Hc He) in Hk. bools. subst.
  destruct He as [_ _ [b Hr] _]. exists (pa_taskId e.2), (pa_phase e.2), b. eauto.
Qed.

Lemma cancelEntry_get now t st e k :
  k <> e.1 -> JsMap.get k (pending (cancelEntry now t st e)) = JsMap.get k (pending st).
Proof.
  intros Hne. unfold cancelEntry. destruct (keyOfTask t e.1); [|done]. simpl.
  rewrite JsMap.get_delete_ne by done. f_equal.
  match goal with |- pending (settle ?p ?v ?s) = _ => by destruct (settle_other p v s) as [-> _] end.
Qed.

Lemma cancelLoop_Inv ops now t l st :
  JsStr.no_colon t = true -> OpCancel now t ∈ ops -> Inv ops st -> JsMap.wf l ->
  (forall e, e ∈ l -> JsMap.get e.1 (pending st) = Some e.2) ->
  Inv ops (fold_left (cancelEntry now t) l st).
Proof.
  intros Hc Hop. revert st. induction l as [|e l IH]; intros st HI Hwf Hl; [done|]. simpl.
  apply list.NoDup_cons in Hwf as [Hn Hwf]. apply IH; [|done|].
  - apply cancelEntry_Inv; auto. apply Hl, list_elem_of_here.
  - intros e' He'. rewrite cancelEntry_get; [by apply Hl, list_elem_of_further|].
    intros Heq. apply Hn. rewrite <- Heq. by apply list_elem_of_fmap_2.
Qed.

Lemma Inv_cancel ops now t st :
  JsStr.no_colon t = true -> OpCancel now t ∈ ops -> Inv ops st -> Inv ops (cancelTask now t st).
Proof.
  intros Hc Hop HI. unfold cancelTask. apply cancelLoop_Inv; auto; [apply (inv_wf _ _ HI)|].
  intros [k pa] He. apply JsMap.elem_get; [apply (inv_wf _ _ HI)|done].
Qed.

Lemma resolve_close now t ph r c u st pa :
  JsMap.get (JsStr.key t ph) (pending st) = Some pa -> pa_promise pa ∉ (settled st).*1 ->
  resolveWithAction now t ph r c u st =
    (true, closeEntry (JsStr.key t ph) pa (Resolved r)
       (log {| le_taskId := t; le_phase := ph; le_action := auditAction (action r);
               le_userId := u; le_clientId := c; le_feedback := feedback r;
               le_requestedAt := pa_requestedAt pa; le_createdAt := now |} (audit st)) st).
Proof.
  intros Hg Hp. unfold resolveWithAction. rewrite Hg. unfold settle, isSettled. simpl.
  by rewrite bool_decide_false.
Qed.

Lemma Inv_resolve ops now t ph r c u st :
  JsStr.no_colon t = true -> OpResolve now t ph r c u ∈ ops -> Inv ops st ->
  Inv ops (resolveWithAction now t ph r c u st).2.
Proof.
  intros Hc Hop HI. destruct (JsMap.get (JsStr.key t ph) (pending st)) as [pa|] eqn:Hg;
    [|by unfold resolveWithAction; rewrite Hg].
  pose proof (inv_entry _ _ HI _ _ Hg) as [Hkey Htask [b Hr] Hopen].
  rewrite (resolve_close _ _ _ _ _ _ _ _ Hg Hopen). apply Inv_closeEntry; auto.
  apply JsStr.key_inj in Hkey as [-> ->]; auto.
  exists (pa_taskId pa), (pa_phase pa), b. eauto.
Qed.

(** Promises created so far are numbered below [nextId]. *)
Lemma requests_lt ops st p x : Inv ops st -> requests ops !! p = Some x -> p < nextId st.
Proof. intros HI Hp. rewrite (inv_next _ _ HI). by eapply lookup_lt_Some. Qed.

Lemma requests_new ops now t ph out ms :
  requests (ops ++ [OpRequest now t ph out ms]) !! length (requests ops)
  = Some (t, ph, timedOut ms).
Proof. rewrite requests_snoc. by apply list_lookup_middle. Qed.

Lemma settled_lt ops st p : Inv ops st -> p ∈ (settled st).*1 -> p < nextId st.
Proof.
  intros HI ([q v] & -> & Hin)%list_elem_of_fmap.
  destruct (inv_just _ _ HI _ _ Hin) as (t & ph & b & Hr & _). by eapply requests_lt.
Qed.

Lemma entry_lt ops st k pa :
  Inv ops st -> JsMap.get k (pending st) = Some pa -> pa_promise pa < nextId st.
Proof.
  intros HI Hk. destruct (inv_entry _ _ HI _ _ Hk) as [_ _ [b Hr] _]. by eapply requests_lt.
Qed.

Lemma get_set_Some {V} k k' (v v' : V) (m : list (string * V)) :
  JsMap.get k' (JsMap.set k v m) = Some v' -> k = k' /\ v' = v \/ JsMap.get k' m = Some v'.
Proof.
  destruct (decide (k = k')) as [->|Hne].
  - rewrite JsMap.get_set_eq. naive_solver.
  - rewrite JsMap.get_set_ne by done. auto.
Qed.

Lemma Inv_request ops now t ph out ms st :
  JsStr.no_colon t = true -> Inv ops st ->
  Inv (ops ++ [OpRequest now t ph out ms]) (requestApproval now t ph out ms st).2.
Proof.
  intros Hc HI. pose proof HI as [Hwf Hn He Hi Hs Hj Ht]. constructor; simpl; auto with jsmap.
  - rewrite requests_snoc, length_app. simpl. lia.
  - intros k pa [[<- ->]|Hk]%get_set_Some.
    + constructor; simpl; auto.
      * exists (timedOut ms). rewrite Hn. apply requests_new.
      * intros Hin. apply (settled_lt _ _ _ HI) in Hin. lia.
    + eapply EntryInv_mono; [eauto|]. exact (ei_open _ _ _ _ (He _ _ Hk)).
  - apply promises_set; [done|]. simpl.
    intros ([k pa] & Heq & Hin%(JsMap.elem_get _ _ _ Hwf)%(entry_lt _ _ _ _ HI))%list_elem_of_fmap.
    simpl in *. lia.
  - auto using justified_mono.
  - intros tm Htm.
    assert (tm ∈ timers st \/ timedOut ms = true /\
      tm = {| tm_id := nextId st; tm_key := JsStr.key t ph; tm_taskId := t; tm_phase := ph;
              tm_promise := nextId st; tm_requestedAt := now |}) as [Hin|[Hms ->]].
    { destruct (timedOut ms); [|auto]. apply elem_of_app in Htm as [?|?%list_elem_of_singleton]; auto. }
    + destruct (Ht _ Hin) as [Hid (t' & ph' & Hr & Hk) Hop Hent]. constructor; auto.
      * exists t', ph'. auto using requests_mono.
      * intros k pa [[<- ->]|Hg]%get_set_Some; [|by apply (Hent k)].
        simpl. apply (requests_lt _ _ _ _ HI) in Hr. lia.
    + constructor; simpl; auto.
      * exists t, ph. split; [|done]. rewrite <- Hms, Hn. apply requests_new.
      * intros Hin. apply (settled_lt _ _ _ HI) in Hin. lia.
      * intros k pa [[<- ->]|Hg%(entry_lt _ _ _ _ HI)]%get_set_Some; simpl; [by rewrite Hms|lia].
Qed.

Lemma Inv_timer ops now tm st :
  tm ∈ timers st -> Inv ops st -> Inv ops (timerFires now tm st).
Proof.
  intros Htm HI. pose proof HI as [Hwf Hn He Hi Hs Hj Ht].
  destruct (Ht _ Htm) as [Hid (t & ph & Hr & Hkey) Hopen Hent].
  unfold timerFires, settle, isSettled. simpl. rewrite bool_decide_false by done.
  constructor; simpl; auto with jsmap.
  - intros k pa [Hne Hk]%get_delete_Some. destruct (He _ _ Hk) as [Hk' Hnc [b Hreq] Hop].
    constructor; eauto. apply not_in_settled_snoc; [done|]. intros Heq. apply Hne.
    rewrite Heq, Hr in Hreq. by simplify_eq.
  - by apply NoDup_fmap_filter.
  - by apply NoDup_settled_snoc.
  - intros p w [?|Heq%list_elem_of_singleton]%elem_of_app; [auto|]. simplify_eq.
    exists t, ph, true. auto.
  - intros tm' [Hne Hin]%list_elem_of_filter. destruct (Ht _ Hin) as [Hid' Hr' Hop' Hent'].
    constructor; auto.
    + apply not_in_settled_snoc; [done|congruence].
    + intros k pa [_ Hk]%get_delete_Some. by apply (Hent' k).
Qed.

Lemma Inv_resend ops t st : Inv ops st -> Inv ops (resendApprovalRequest t st).2.
Proof.
  intros [Hwf Hn He Hi Hs Hj Ht]. unfold resendApprovalRequest.
  destruct (getPendingApprovalForTask t st); [|by constructor]. constructor; simpl; auto.
  - intros k pa Hk. destruct (He _ _ Hk). by constructor.
  - intros tm Htm. destruct (Ht _ Htm). by constructor.
Qed.

Lemma trace_Inv ops st : trace ops st -> Forall opOk ops -> Inv ops st.
Proof.
  induction 1 as [|ops st o st' _ IH Hstep]; [intros; apply Inv_init|].
  rewrite Forall_app, Forall_singleton. intros [Hok Ho]. specialize (IH Hok).
  unfold opOk in Ho.
  inversion Hstep; subst; simpl in Ho.
  - apply Inv_request; auto.
  - apply Inv_resolve; [auto|set_solver|by apply Inv_mono].
  - apply Inv_cancel; [auto|set_solver|by apply Inv_mono].
  - by apply Inv_resend, Inv_mono.
  - by apply Inv_timer, Inv_mono.
Qed.

(** ** Settlement is final *)

Lemma settle_prefix p v st : settled st `prefix_of` settled (settle p v st).
Proof. unfold settle. destruct (isSettled p st); [done|]. by eexists. Qed.

Lemma cancelEntry_prefix now t st e : settled st `prefix_of` settled (cancelEntry now t st e).
Proof.
  unfold cancelEntry. destruct (keyOfTask t e.1); [|done]. simpl.
  match goal with |- _ `prefix_of` settled (settle ?p ?v ?s) => exact (settle_prefix p v s) end.
Qed.

Lemma cancelLoop_prefix now t l st :
  settled st `prefix_of` settled (fold_left (cancelEntry now t) l st).
Proof.
  revert st. induction l as [|e l IH]; intros st; simpl; [done|].
  etrans; [apply (cancelEntry_prefix now t st e)|apply IH].
Qed.

Lemma step_prefix st o st' : step st o st' -> settled st `prefix_of` settled st'.
Proof.
  destruct 1; simpl; [done| | | |].
  - unfold resolveWithAction. destruct (JsMap.get _ _); [|done]. simpl.
    match goal with |- _ `prefix_of` settled (settle ?p ?v ?s) => exact (settle_prefix p v s) end.
  - apply cancelLoop_prefix.
  - unfold resendApprovalRequest. by destruct (getPendingApprovalForTask t st).
  - unfold timerFires.
    match goal with |- _ `prefix_of` settled (settle ?p ?v ?s) => exact (settle_prefix p v s) end.
Qed.

Lemma outcomeOf_prefix p v st st' :
  settled st `prefix_of` settled st' -> outcomeOf p st = Some v -> outcomeOf p st' = Some v.
Proof.
  intros [l Hl]. unfold outcomeOf. rewrite Hl, list_to_map_app. apply lookup_union_Some_l.
Qed.

Lemma outcomeOf_elem p v st : outcomeOf p st = Some v -> (p, v) ∈ settled st.
Proof. apply elem_of_list_to_map_2. Qed.

Lemma outcomeOf_None p st : outcomeOf p st = None <-> p ∉ (settled st).*1.
Proof. unfold outcomeOf. symmetry. apply not_elem_of_list_to_map. Qed.

Lemma outcomeOf_snoc p v st l :
  p ∉ (settled st).*1 -> l = settled st ++ [(p, v)] ->
  (list_to_map l : gmap nat Settlement) !! p = Some v.
Proof.
  intros Hp%not_elem_of_list_to_map ->.
  rewrite list_to_map_app, lookup_union_r by done. simpl. by rewrite lookup_insert_eq.
Qed.

(** C4 The human is never bypassed: in every reachable state, an approval
    promise that has been settled was settled by an answer given for exactly
    its task and phase (with that answer), by the cancellation of its task, or
    by a timeout that its request asked for; and whatever happens next it keeps
    that outcome. *)
Theorem approval_never_bypassed ops st p v :
  trace ops st -> Forall opOk ops -> outcomeOf p st = Some v ->
  justified ops p v
  /\ (forall o st', step st o st' -> outcomeOf p st' = Some v).
Proof.
  intros Htr Hok Hv. split.
  - eapply inv_just; [by apply trace_Inv|by apply outcomeOf_elem].
  - intros o st' Hs. eapply outcomeOf_prefix; [by eapply step_prefix|done].
Qed.

(** Answering an approval: with a request pending for the task and phase the
    call reports success, settles that request's promise with the given answer,
    removes it (a second answer reports failure and changes nothing) and leaves
    every other pending request alone; without one it reports failure and
    changes nothing. *)
Theorem resolveWithAction_correct ops st now t ph r c u :
  trace ops st -> Forall opOk ops ->
  let res := resolveWithAction now t ph r c u st in
  match JsMap.get (JsStr.key t ph) (pending st) with
  | None => res = (false, st)
  | Some pa =>
      res.1 = true
      /\ outcomeOf (pa_promise pa) st = None
      /\ outcomeOf (pa_promise pa) res.2 = Some (Resolved r)
      /\ hasPendingApproval t ph res.2 = false
      /\ (forall now' r' c' u',
             resolveWithAction now' t ph r' c' u' res.2 = (false, res.2))
      /\ (forall k, k <> JsStr.key t ph ->
             JsMap.get k (pending res.2) = JsMap.get k (pending st))
  end.
Proof.
  intros Htr Hok. pose proof (trace_Inv _ _ Htr Hok) as HI. cbn zeta.
  destruct (JsMap.get (JsStr.key t ph) (pending st)) as [pa|] eqn:Hg;
    [|by unfold resolveWithAction; rewrite Hg].
  pose proof (ei_open _ _ _ _ (inv_entry _ _ HI _ _ Hg)) as Hopen.
  rewrite (resolve_close _ _ _ _ _ _ _ _ Hg Hopen). cbn [fst snd]. split_and!; auto.
  - by apply outcomeOf_None.
  - by apply (outcomeOf_snoc _ _ st).
  - apply JsMap.has_false, JsMap.get_delete_eq.
  - intros. unfold resolveWithAction. simpl. by rewrite JsMap.get_delete_eq.
  - intros k Hk. simpl. by rewrite JsMap.get_delete_ne.
Qed.

(** ** Cancelling a task *)

Lemma cancelEntry_pending now t st e :
  pending (cancelEntry now t st e)
  = JsMap.visitDelete (fun k _ => keyOfTask t k) (pending st) e.
Proof.
  unfold cancelEntry, JsMap.visitDelete. destruct (keyOfTask t e.1); [|done]. simpl. f_equal.
  match goal with |- pending (settle ?p ?v ?s) = _ => by destruct (settle_other p v s) as [-> _] end.
Qed.

Lemma cancelLoop_pending now t l st :
  pending (fold_left (cancelEntry now t) l st)
  = fold_left (JsMap.visitDelete (fun k _ => keyOfTask t k)) l (pending st).
Proof.
  revert st. induction l as [|e l IH]; intros st; [done|]. simpl. by rewrite IH, cancelEntry_pending.
Qed.

Lemma cancelTask_pending now t st :
  JsMap.wf (pending st) ->
  pending (cancelTask now t st) = JsMap.deleteWhere (fun k _ => keyOfTask t k) (pending st).
Proof. intros Hwf. unfold cancelTask. rewrite cancelLoop_pending. by apply JsMap.deleteWhere_loop. Qed.

Lemma cancelLoop_settles now t l st e :
  e ∈ l -> keyOfTask t e.1 = true -> NoDup ((pa_promise ∘ snd) <$> l) ->
  (forall e', e' ∈ l -> pa_promise e'.2 ∉ (settled st).*1) ->
  outcomeOf (pa_promise e.2) (fold_left (cancelEntry now t) l st)
  = Some (Rejected "Task cancelled").
Proof.
  revert st. induction l as [|e' l IH]; intros st Hin Hk Hnd Hopen; [set_solver|]. simpl.
  csimpl in Hnd. apply list.NoDup_cons in Hnd as [Hn Hnd].
  apply elem_of_cons in Hin as [->|Hin].
  - eapply outcomeOf_prefix; [apply cancelLoop_prefix|].
    destruct (cancelEntry_close now t st e' Hk) as [rows ->]; [apply Hopen, list_elem_of_here|].
    apply (outcomeOf_snoc _ _ st); [apply Hopen, list_elem_of_here|done].
  - apply IH; auto. intros e1 He1.
    destruct (keyOfTask t e'.1) eqn:Hk';
      [|unfold cancelEntry; rewrite Hk'; by apply Hopen, list_elem_of_further].
    destruct (cancelEntry_close now t st e' Hk') as [rows ->]; [apply Hopen, list_elem_of_here|].
    apply not_in_settled_snoc; [by apply Hopen, list_elem_of_further|].
    intros Heq. apply Hn. rewrite <- Heq. by apply (list_elem_of_fmap_2 (pa_promise ∘ snd)) in He1.
Qed.

(** Cancelling a task rejects every approval pending for it with
    ['Task cancelled'], removes them, and keeps exactly the pending approvals
    of the other tasks: the prefix test on keys separates tasks. *)
Theorem cancelTask_correct ops st now t :
  trace ops st -> Forall opOk ops -> JsStr.no_colon t = true ->
  forall k pa, JsMap.get k (pending st) = Some pa ->
    (pa_taskId pa = t ->
       JsMap.get k (pending (cancelTask now t st)) = None
       /\ outcomeOf (pa_promise pa) (cancelTask now t st) = Some (Rejected "Task cancelled"))
    /\ (pa_taskId pa <> t ->
       JsMap.get k (pending (cancelTask now t st)) = Some pa).
Proof.
  intros Htr Hok Ht k pa Hg. pose proof (trace_Inv _ _ Htr Hok) as HI.
  pose proof (inv_wf _ _ HI) as Hwf. pose proof (inv_entry _ _ HI _ _ Hg) as He.
  rewrite cancelTask_pending, JsMap.get_deleteWhere, Hg by done.
  rewrite (keyOfTask_inv _ _ _ _ _ Ht He). split; intros Heq.
  - rewrite bool_decide_true by done. split; [done|].
    apply (cancelLoop_settles now t (pending st) st (k, pa)).
    + by apply JsMap.get_Some_elem.
    + simpl. by rewrite (keyOfTask_inv _ _ _ _ _ Ht He), bool_decide_true.
    + apply (inv_inj _ _ HI).
    + intros [k' pa'] Hin. by eapply ei_open, (inv_entry _ _ HI), JsMap.elem_get.
  - by rewrite bool_decide_false.
Qed.

(** ** Two requests for one key *)

(** [p] was created, is not settled, and nothing that could settle it is left. *)
Record Orphan (p : nat) (st : State) : Prop := {
  or_old : p < nextId st;
  or_open : p ∉ (settled st).*1;
  or_entry : p ∉ ((pa_promise ∘ snd) <$> pending st);
  or_timer : p ∉ (tm_promise <$> timers st);
}.

Lemma get_promise k pa (m : list (string * PendingApproval)) :
  JsMap.get k m = Some pa -> pa_promise pa ∈ ((pa_promise ∘ snd) <$> m).
Proof. intros Hg%JsMap.get_Some_elem. by apply (list_elem_of_fmap_2 (pa_promise ∘ snd)) in Hg. Qed.

Lemma fmap_filter_not {A B} (f : A -> B) (P : A -> Prop) `{!forall x, Decision (P x)}
    (l : list A) (b : B) :
  b ∉ f <$> l -> b ∉ f <$> base.filter P l.
Proof.
  intros Hb (x & -> & [_ Hx]%list_elem_of_filter)%list_elem_of_fmap.
  by apply Hb, list_elem_of_fmap_2.
Qed.

Lemma clearTimer_promise p t ts : p ∉ (tm_promise <$> ts) -> p ∉ (tm_promise <$> clearTimer t ts).
Proof. destruct t; [apply fmap_filter_not|done]. Qed.

Lemma Orphan_settle p q v st : p <> q -> Orphan p st -> Orphan p (settle q v st).
Proof.
  intros Hne [????]. unfold settle. destruct (isSettled q st); [by constructor|].
  constructor; simpl; auto using not_in_settled_snoc.
Qed.

Lemma Orphan_cancelEntry p now t st e :
  p <> pa_promise e.2 -> Orphan p st -> Orphan p (cancelEntry now t st e).
Proof.
  intros Hne [????]. unfold cancelEntry. destruct (keyOfTask t e.1); [|by constructor].
  match goal with |- context [settle ?q ?v ?s] =>
    destruct (Orphan_settle p q v s Hne) as [????];
      [constructor; simpl; auto using clearTimer_promise|] end.
  constructor; simpl; unfold JsMap.delete; auto using fmap_filter_not.
Qed.

Lemma Orphan_cancel p now t l st :
  p ∉ ((pa_promise ∘ snd) <$> l) -> Orphan p st -> Orphan p (fold_left (cancelEntry now t) l st).
Proof.
  revert st. induction l as [|e l IH]; intros st Hl Ho; [done|]. simpl. csimpl in Hl.
  apply not_elem_of_cons in Hl as [Hne Hl]. apply IH; [done|]. by apply Orphan_cancelEntry.
Qed.

Lemma promises_set_not p k pa (m : list (string * PendingApproval)) :
  p <> pa_promise pa -> p ∉ ((pa_promise ∘ snd) <$> m) ->
  p ∉ ((pa_promise ∘ snd) <$> JsMap.set k pa m).
Proof.
  intros Hne. induction m as [|[k' pa'] m IH]; csimpl.
  - rewrite list_elem_of_singleton. auto.
  - rewrite not_elem_of_cons. intros [??]. case_decide; csimpl; rewrite not_elem_of_cons; auto.
Qed.

Lemma Orphan_step p st o st' : Orphan p st -> step st o st' -> Orphan p st'.
Proof.
  intros Ho Hs. pose proof Ho as [Hlt Hop He Ht]. destruct Hs as [now t ph out ms|now t ph r c u| |t|now tm Htm].
  - constructor; simpl; [lia|done|apply promises_set_not; simpl; [lia|done]|].
    destruct (timedOut ms); [|done]. rewrite fmap_app, not_elem_of_app. csimpl.
    rewrite list_elem_of_singleton. split; [done|lia].
  - unfold resolveWithAction. destruct (JsMap.get _ _) as [pa|] eqn:Hg; [|done]. simpl.
    match goal with |- context [settle ?q ?v ?s] =>
      destruct (Orphan_settle p q v s) as [????];
        [intros ->; by apply get_promise in Hg
        |constructor; simpl; auto using clearTimer_promise|] end.
    constructor; simpl; unfold JsMap.delete; auto using fmap_filter_not.
  - by apply Orphan_cancel.
  - unfold resendApprovalRequest. destruct (getPendingApprovalForTask t st); by try constructor.
  - unfold timerFires. apply Orphan_settle.
    + intros ->. apply Ht. by apply list_elem_of_fmap_2.
    + constructor; simpl; unfold JsMap.delete; auto using fmap_filter_not.
Qed.

(** Reachability from a given state. *)
Inductive steps : State -> State -> Prop :=
  | steps_refl st : steps st st
  | steps_cons st o st' st'' : step st o st' -> steps st' st'' -> steps st st''.

Lemma Orphan_steps p st st' : Orphan p st -> steps st st' -> outcomeOf p st' = None.
Proof.
  intros Ho Hs. induction Hs as [st|st o st' st'' Hst _ IH]; [|eauto using Orphan_step].
  by apply outcomeOf_None, or_open.
Qed.

Lemma JsMap_set_fresh_promise p k pa pa0 (m : list (string * PendingApproval)) :
  NoDup ((pa_promise ∘ snd) <$> m) -> JsMap.wf m ->
  JsMap.get k m = Some pa0 -> pa_promise pa0 = p -> pa_promise pa <> p ->
  p ∉ ((pa_promise ∘ snd) <$> JsMap.set k pa m).
Proof.
  intros Hnd Hwf Hg Hp Hne ([k' pa'] & Heq & Hin)%list_elem_of_fmap. simpl in *.
  apply (JsMap.elem_get _ _ _ (JsMap.wf_set k pa m Hwf)) in Hin.
  pose proof (get_set_Some _ _ _ _ _ Hin) as [[<- ->]|Hin']; [congruence|].
  destruct (promise_inj _ _ _ _ _ Hnd Hg Hin') as [-> ->]; [congruence|].
  rewrite JsMap.get_set_eq in Hin. by simplify_eq.
Qed.

(** A second request for a task and phase whose first request is still
    pending (and has no timeout) replaces it for good: no later operation of
    any kind ever settles the first promise, so its caller waits forever. *)
Theorem duplicate_request_never_settles ops st now t ph out ms pa st' :
  trace ops st -> Forall opOk ops ->
  JsMap.get (JsStr.key t ph) (pending st) = Some pa -> pa_timeout pa = None ->
  steps (requestApproval now t ph out ms st).2 st' ->
  outcomeOf (pa_promise pa) st' = None.
Proof.
  intros Htr Hok Hg Hto Hsteps. pose proof (trace_Inv _ _ Htr Hok) as HI.
  pose proof (entry_lt _ _ _ _ HI Hg) as Hlt.
  assert (pa_promise pa ∉ (tm_promise <$> timers st)) as Htm.
  { intros (tm & Heq & Hin)%list_elem_of_fmap.
    destruct (inv_timer _ _ HI _ Hin) as [_ _ _ Hent]. by rewrite (Hent _ _ Hg Heq) in Hto. }
  eapply Orphan_steps; [|exact Hsteps]. constructor; simpl.
  - lia.
  - exact (ei_open _ _ _ _ (inv_entry _ _ HI _ _ Hg)).
  - eapply JsMap_set_fresh_promise; eauto using inv_inj, inv_wf. simpl. lia.
  - destruct (timedOut ms); [|done]. rewrite fmap_app, not_elem_of_app. csimpl.
    rewrite list_elem_of_singleton. split; [done|lia].
Qed.

(** ** The reconnecting client and the audit trail *)

(** A client that joins a task room is sent the first approval in the table
    that is still pending for that task, and nothing when there is none; nothing
    else changes. *)
Theorem resend_correct ops st t :
  trace ops st -> Forall opOk ops -> JsStr.no_colon t = true ->
  let res := resendApprovalRequest t st in
  pending res.2 = pending st /\ settled res.2 = settled st /\
  (res.1 = false -> emitted res.2 = emitted st
     /\ forall k pa, JsMap.get k (pending st) = Some pa -> pa_taskId pa <> t) /\
  (res.1 = true -> exists i k pa, pending st !! i = Some (k, pa) /\ pa_taskId pa = t
     /\ emitted res.2 = emitted st ++
          [{| pi_taskId := t; pi_phase := pa_phase pa; pi_output := pa_output pa;
              pi_requestedAt := pa_requestedAt pa |}]
     /\ forall j k' pa', j < i -> pending st !! j = Some (k', pa') -> pa_taskId pa' <> t).
Proof.
  intros Htr Hok Ht. pose proof (trace_Inv _ _ Htr Hok) as HI. cbn zeta.
  assert (forall k pa, (k, pa) ∈ pending st -> keyOfTask t k = bool_decide (t = pa_taskId pa)) as Hk.
  { intros k pa Hin. eapply keyOfTask_inv; [done|]. apply (inv_entry _ _ HI).
    apply JsMap.elem_get; [apply (inv_wf _ _ HI)|done]. }
  unfold resendApprovalRequest, getPendingApprovalForTask.
  destruct (list_find _ (pending st)) as [[i [k pa]]|] eqn:Hf; simpl.
  - apply list_find_Some in Hf as (Hi & Hp & Hbefore). split_and!; [done..|].
    intros _. exists i, k, pa. simpl in Hp.
    rewrite (Hk _ _ (list_elem_of_lookup_2 _ _ _ Hi)) in Hp. bools. subst. split_and!; [done..|].
    intros j k' pa' Hlt Hj Heq. apply (Hbefore j (k', pa') Hj Hlt). simpl.
    rewrite (Hk _ _ (list_elem_of_lookup_2 _ _ _ Hj)). by apply bool_decide_true.
  - split_and!; [done..| |done]. intros _. split; [done|]. intros k pa Hg Heq.
    apply list_find_None in Hf. rewrite Forall_forall in Hf.
    apply JsMap.get_Some_elem in Hg. apply (Hf _ (proj1 (list_elem_of_In _ _) Hg)). simpl.
    rewrite (Hk _ _ Hg). by apply bool_decide_true.
Qed.

Lemma since_none (rows : list Entry) :
  base.filter (fun e => sinceOk None e = true) rows = rows.
Proof.
  induction rows as [|e rows IH]; [done|].
  rewrite filter_cons, decide_True by done. by rewrite IH.
Qed.

Lemma countAction_total rows :
  countAction LogApprove rows + countAction LogReject rows
  + countAction LogAuto rows + countAction LogTimeout rows = length rows.
Proof.
  unfold countAction. induction rows as [|e rows IH]; [done|].
  rewrite !filter_cons. destruct (le_action e); repeat (case_decide; [|]); simplify_eq; simpl; lia.
Qed.

(** Every answered approval leaves one row in the audit trail of its task,
    and the statistics count every row exactly once; the row of an answer that
    asks for changes is filed, and counted, as an approval. *)
Theorem audit_trail_counts ops st now t ph r c u pa :
  trace ops st -> Forall opOk ops ->
  JsMap.get (JsStr.key t ph) (pending st) = Some pa ->
  let res := resolveWithAction now t ph r c u st in
  let before := getStats None (audit st) in
  let after := getStats None (audit res.2) in
  length (getByTaskId t (audit res.2)) = S (length (getByTaskId t (audit st)))
  /\ st_total after = length (audit res.2) /\ st_total after = S (st_total before)
  /\ st_approved after = st_approved before
       + (if decide (action r = Reject) then 0 else 1)
  /\ st_rejected after = st_rejected before
       + (if decide (action r = Reject) then 1 else 0).
Proof.
  intros Htr Hok Hg. pose proof (trace_Inv _ _ Htr Hok) as HI.
  pose proof (ei_open _ _ _ _ (inv_entry _ _ HI _ _ Hg)) as Hopen. cbn zeta.
  rewrite (resolve_close _ _ _ _ _ _ _ _ Hg Hopen). cbn [snd closeEntry audit].
  unfold getStats. rewrite !since_none. cbn [st_total st_approved st_rejected].
  rewrite !countAction_total. unfold log, getByTaskId, countAction.
  rewrite !list.filter_app, !length_app, !filter_cons, !filter_nil. cbn.
  rewrite decide_True by done. destruct r as [[] fb]; cbn; repeat (case_decide; simplify_eq/=); lia.
Qed.

(** ** A concrete run: one task, one request, one answer *)

Definition demoReq : Op := OpRequest 0 "t1_ab" "Analysis" "{}" None.
Definition demoAns : Op :=
  OpResolve 5 "t1_ab" "Analysis" {| action := Approve; feedback := Some "ok" |} (Some "s1") None.
Definition demo1 : State := (requestApproval 0 "t1_ab" "Analysis" "{}" None init).2.
Definition demo2 : State :=
  (resolveWithAction 5 "t1_ab" "Analysis" {| action := Approve; feedback := Some "ok" |}
     (Some "s1") None demo1).2.

Definition demoEntry : PendingApproval :=
  {| pa_promise := 0; pa_timeout := None; pa_taskId := "t1_ab"; pa_phase := "Analysis";
     pa_output := "{}"; pa_requestedAt := 0 |}.

Lemma demo1_trace : trace [demoReq] demo1.
Proof. apply (trace_snoc [] init demoReq); constructor. Qed.

Lemma demo2_trace : trace [demoReq; demoAns] demo2.
Proof. apply (trace_snoc [demoReq] demo1 demoAns); [apply demo1_trace|constructor]. Qed.

Lemma demo_ok : Forall opOk [demoReq; demoAns].
Proof. repeat constructor; intros t Ht; by simplify_eq/=. Qed.

Lemma demo1_ok : Forall opOk [demoReq].
Proof. repeat constructor; intros t Ht; by simplify_eq/=. Qed.

Lemma approval_never_bypassed_witness :
  outcomeOf 0 demo2 = Some (Resolved {| action := Approve; feedback := Some "ok" |})
  /\ justified [demoReq; demoAns] 0 (Resolved {| action := Approve; feedback := Some "ok" |}).
Proof.
  split; [by vm_compute|].
  apply (approval_never_bypassed [demoReq; demoAns] demo2 0 _ demo2_trace demo_ok).
  by vm_compute.
Defined.

Lemma resolveWithAction_correct_witness :
  (resolveWithAction 5 "t1_ab" "Analysis" {| action := Reject; feedback := None |} None None
     demo1).1 = true.
Proof.
  apply (resolveWithAction_correct [demoReq] demo1 5 "t1_ab" "Analysis"
    {| action := Reject; feedback := None |} None None demo1_trace demo1_ok).
Defined.

Lemma cancelTask_correct_witness :
  JsMap.get "t1_ab:Analysis" (pending (cancelTask 9 "t1_ab" demo1)) = None
  /\ outcomeOf 0 (cancelTask 9 "t1_ab" demo1) = Some (Rejected "Task cancelled").
Proof.
  apply (cancelTask_correct [demoReq] demo1 9 "t1_ab" demo1_trace demo1_ok eq_refl
    "t1_ab:Analysis" demoEntry eq_refl). reflexivity.
Defined.

Lemma duplicate_request_never_settles_witness :
  outcomeOf 0 (resolveWithAction 8 "t1_ab" "Analysis" {| action := Approve; feedback := None |}
    None None (requestApproval 7 "t1_ab" "Analysis" "{}" None demo1).2).2 = None.
Proof.
  eapply (duplicate_request_never_settles [demoReq] demo1 7 "t1_ab" "Analysis" "{}" None
    demoEntry _ demo1_trace demo1_ok).
  - reflexivity.
  - reflexivity.
  - eapply steps_cons; [|apply steps_refl].
    apply (step_resolve _ 8 "t1_ab" "Analysis" {| action := Approve; feedback := None |} None None).
Defined.

Lemma resend_correct_witness :
  (resendApprovalRequest "t1_ab" demo1).1 = true
  /\ settled (resendApprovalRequest "t1_ab" demo1).2 = settled demo1.
Proof.
  split; [by vm_compute|].
  apply (resend_correct [demoReq] demo1 "t1_ab" demo1_trace demo1_ok). by vm_compute.
Defined.

Lemma audit_trail_counts_witness :
  st_approved (getStats None (audit (resolveWithAction 5 "t1_ab" "Analysis"
    {| action := RequestChanges; feedback := Some "redo" |} None None demo1).2)) = 1.
Proof.
  etrans; [eapply (audit_trail_counts [demoReq] demo1 5 "t1_ab" "Analysis"
    {| action := RequestChanges; feedback := Some "redo" |} None None demoEntry
    demo1_trace demo1_ok eq_refl)|by vm_compute].
Defined.

(** A request that asked for a timeout and was then repeated without one
    still takes the repeated request down: when its timer fires the second
    request disappears from the queue without being answered, and the user's
    approval is reported as unknown. *)
Theorem stale_timer_drops_newer_request :
  let st1 := (requestApproval 0 "t1" "Merge" "{}" (Some 1000%Z) init).2 in
  let st2 := (requestApproval 10 "t1" "Merge" "{}" None st1).2 in
  exists tm, tm ∈ timers st2 /\
    let st3 := timerFires 1000 tm st2 in
    hasPendingApproval "t1" "Merge" st2 = true
    /\ hasPendingApproval "t1" "Merge" st3 = false
    /\ outcomeOf 1 st3 = None
    /\ (resolveWithAction 1100 "t1" "Merge" {| action := Approve; feedback := None |}
          None None st3).1 = false.
Proof. eexists. split; [apply list_elem_of_here|]. by vm_compute. Qed.

End ApprovalLTS.
