(* ===== verification/Sessions.v ===== *)
(** * Sessions and approval modes
    (src/database/repositories/SessionRepository.ts,
     src/services/approval/ApprovalModeService.ts)

    The table [opencode_sessions] is a list of rows in order of creation, so
    [ORDER BY created_at DESC] is its reverse. *)

From S2P Require Import Prelude.
From stdpp Require Import options.

Module SessionRepository.

(** The approval mode of a session: manual, work or all. *)
Inductive Mode := MManual | MWork | MAll.
#[global] Instance Mode_eq_dec : EqDecision Mode.
Proof. solve_decision. Defined.

Inductive Perm := Ask | Allow | Deny.
#[global] Instance Perm_eq_dec : EqDecision Perm.
Proof. solve_decision. Defined.

Inductive BashPerm := BashAll (p : Perm) | BashBy (rules : list (string * Perm)).

Record PermissionSettings := {
  edit : Perm;
  bash : BashPerm;
  webfetch : Perm;
  doom_loop : option Perm;
  external_directory : option Perm;
}.

Inductive SessionStatus := Active | SCompleted | SError | SPaused.
#[global] Instance SessionStatus_eq_dec : EqDecision SessionStatus.
Proof. solve_decision. Defined.

Record Session := {
  se_id : string;
  se_sessionId : string;
  se_taskId : string;
  se_directory : string;
  se_phaseName : option string;
  se_mode : Mode;
  se_permissions : PermissionSettings;
  se_status : SessionStatus;
  se_pending : option (string * string);
  se_createdAt : Z;
  se_updatedAt : Z;
}.

Definition autoMode (m : Mode) : bool :=
  match m with MWork | MAll => true | MManual => false end.

(** The settings of a mode. *)
Definition permissionsOf (m : Mode) : PermissionSettings :=
  let p := if autoMode m then Allow else Ask in
  {| edit := p; bash := BashAll p; webfetch := p; doom_loop := None; external_directory := None |}.

(** [Partial<PermissionSettings>] and the spread over the defaults. *)
Record PartialPermissions := {
  pp_edit : option Perm;
  pp_bash : option BashPerm;
  pp_webfetch : option Perm;
  pp_doom_loop : option Perm;
  pp_external_directory : option Perm;
}.

Definition noPermissions : PartialPermissions :=
  {| pp_edit := None; pp_bash := None; pp_webfetch := None; pp_doom_loop := None;
     pp_external_directory := None |}.

Definition orElse {A} (a b : option A) : option A := match a with Some _ => a | None => b end.

Definition mergePermissions (d : PermissionSettings) (p : PartialPermissions) : PermissionSettings :=
  {| edit := default (edit d) (pp_edit p); bash := default (bash d) (pp_bash p);
     webfetch := default (webfetch d) (pp_webfetch p);
     doom_loop := orElse (pp_doom_loop p) (doom_loop d);
     external_directory := orElse (pp_external_directory p) (external_directory d) |}.

Abbreviation Sessions := (list Session).

Record CreateSession := {
  cs_sessionId : string; cs_taskId : string; cs_directory : string;
  cs_phaseName : option string; cs_mode : option Mode; cs_permissions : PartialPermissions }.

Definition newSession (newId : string) (now : Z) (c : CreateSession) : Session :=
  let m := default MManual (cs_mode c) in
  {| se_id := newId; se_sessionId := cs_sessionId c; se_taskId := cs_taskId c;
     se_directory := cs_directory c; se_phaseName := JsStr.orNull (cs_phaseName c);
     se_mode := m; se_permissions := mergePermissions (permissionsOf m) (cs_permissions c);
     se_status := Active; se_pending := None; se_createdAt := now; se_updatedAt := now |}.

Definition create (newId : string) (now : Z) (c : CreateSession) (ss : Sessions) : Sessions :=
  ss ++ [newSession newId now c].

Definition findBySessionId (sid : string) (ss : Sessions) : option Session :=
  snd <$> list_find (fun s => se_sessionId s = sid) ss.

Definition findByTaskId (t : string) (ss : Sessions) : list Session :=
  reverse (base.filter (fun s => se_taskId s = t) ss).

Definition isActiveOf (t : string) (s : Session) : bool :=
  bool_decide (se_taskId s = t) && bool_decide (se_status s = Active).

Definition findActiveByTaskId (t : string) (ss : Sessions) : option Session :=
  hd_error (reverse (base.filter (fun s => isActiveOf t s = true) ss)).

Definition findAllActive (ss : Sessions) : list Session :=
  reverse (base.filter (fun s => se_status s = Active) ss).

(** [UPDATE ... WHERE p] *)
Definition updateWhere (p : Session -> bool) (f : Session -> Session) (ss : Sessions) : Sessions :=
  (fun s => if p s then f s else s) <$> ss.

Definition bySessionId (sid : string) (s : Session) : bool := bool_decide (se_sessionId s = sid).

Definition withMode (now : Z) (m : Mode) (s : Session) : Session :=
  {| se_id := se_id s; se_sessionId := se_sessionId s; se_taskId := se_taskId s;
     se_directory := se_directory s; se_phaseName := se_phaseName s; se_mode := m;
     se_permissions := permissionsOf m; se_status := se_status s; se_pending := se_pending s;
     se_createdAt := se_createdAt s; se_updatedAt := now |}.

Definition withPermissions (now : Z) (p : PermissionSettings) (s : Session) : Session :=
  {| se_id := se_id s; se_sessionId := se_sessionId s; se_taskId := se_taskId s;
     se_directory := se_directory s; se_phaseName := se_phaseName s; se_mode := se_mode s;
     se_permissions := p; se_status := se_status s; se_pending := se_pending s;
     se_createdAt := se_createdAt s; se_updatedAt := now |}.

Definition withPending (now : Z) (p : option (string * string)) (s : Session) : Session :=
  {| se_id := se_id s; se_sessionId := se_sessionId s; se_taskId := se_taskId s;
     se_directory := se_directory s; se_phaseName := se_phaseName s; se_mode := se_mode s;
     se_permissions := se_permissions s; se_status := se_status s; se_pending := p;
     se_createdAt := se_createdAt s; se_updatedAt := now |}.

Definition withSessionStatus (now : Z) (st : SessionStatus) (s : Session) : Session :=
  {| se_id := se_id s; se_sessionId := se_sessionId s; se_taskId := se_taskId s;
     se_directory := se_directory s; se_phaseName := se_phaseName s; se_mode := se_mode s;
     se_permissions := se_permissions s; se_status := st; se_pending := se_pending s;
     se_createdAt := se_createdAt s; se_updatedAt := now |}.

Definition updateApprovalMode (now : Z) (sid : string) (m : Mode) (ss : Sessions)
    : option Session * Sessions :=
  let ss' := updateWhere (bySessionId sid) (withMode now m) ss in (findBySessionId sid ss', ss').

(** The number of rows updated. *)
Definition updateApprovalModeByTaskId (now : Z) (t : string) (m : Mode) (ss : Sessions)
    : nat * Sessions :=
  (length (base.filter (fun s => isActiveOf t s = true) ss),
   updateWhere (isActiveOf t) (withMode now m) ss).

Definition updatePermissions (now : Z) (sid : string) (p : PartialPermissions) (ss : Sessions)
    : option Session * Sessions :=
  match findBySessionId sid ss with
  | None => (None, ss)
  | Some ex =>
      let ss' := updateWhere (bySessionId sid)
                   (withPermissions now (mergePermissions (se_permissions ex) p)) ss in
      (findBySessionId sid ss', ss')
  end.

Definition setPendingPermission (now : Z) (sid pid data : string) (ss : Sessions) : Sessions :=
  updateWhere (bySessionId sid) (withPending now (Some (pid, data))) ss.

Definition clearPendingPermission (now : Z) (sid : string) (ss : Sessions) : Sessions :=
  updateWhere (bySessionId sid) (withPending now None) ss.

Definition updateSessionStatus (now : Z) (sid : string) (st : SessionStatus) (ss : Sessions) : Sessions :=
  updateWhere (bySessionId sid) (withSessionStatus now st) ss.

Definition deleteSession (sid : string) (ss : Sessions) : bool * Sessions :=
  (existsb (bySessionId sid) ss, base.filter (fun s => bySessionId sid s = false) ss).

(** [status = 'active' AND updated_at < NOW() - INTERVAL '1 hour'], in ms *)
Definition isStaleSession (now : Z) (s : Session) : bool :=
  bool_decide (se_status s = Active) && (se_updatedAt s <? now - 3600000)%Z.

Definition cleanupStale (now : Z) (ss : Sessions) : nat * Sessions :=
  (length (base.filter (fun s => isStaleSession now s = true) ss),
   updateWhere (isStaleSession now) (withSessionStatus now SError) ss).

End SessionRepository.

Module ApprovalMode.
Import SessionRepository.

Record PendingPermission := {
  pe_taskId : string;
  pe_sessionId : string;
  pe_permissionId : string;
  pe_tool : string;
  pe_description : string;
}.

Inductive Response := Once | Always | RejectPermission.

(** The calls to the OpenCode client, in order. *)
Inductive OcCall :=
  | OcEnable (session dir : string)
  | OcDisable (session dir : string)
  | OcRespond (session permission : string) (r : Response).

Inductive ModeEvent :=
  | EvModeChanged (t : string) (m : Mode)
  | EvAutoApproved (t session permission : string)
  | EvPermissionRequired (t session permission : string)
  | EvPermissionResponded (t session permission : string) (r : Response).

Record State := {
  pendingPermissions : list (string * PendingPermission);
  taskApprovalModes : list (string * Mode);
  sessions : list Session;
  occalls : list OcCall;
  events : list ModeEvent;
}.

Definition init : State :=
  {| pendingPermissions := []; taskApprovalModes := []; sessions := []; occalls := []; events := [] |}.

Definition withPendings (p : list (string * PendingPermission)) (s : State) : State :=
  {| pendingPermissions := p; taskApprovalModes := taskApprovalModes s; sessions := sessions s;
     occalls := occalls s; events := events s |}.
Definition withModes (m : list (string * Mode)) (s : State) : State :=
  {| pendingPermissions := pendingPermissions s; taskApprovalModes := m; sessions := sessions s;
     occalls := occalls s; events := events s |}.
Definition onSessions (f : list Session -> list Session) (s : State) : State :=
  {| pendingPermissions := pendingPermissions s; taskApprovalModes := taskApprovalModes s;
     sessions := f (sessions s); occalls := occalls s; events := events s |}.
Definition occall (c : OcCall) (s : State) : State :=
  {| pendingPermissions := pendingPermissions s; taskApprovalModes := taskApprovalModes s;
     sessions := sessions s; occalls := occalls s ++ [c]; events := events s |}.
Definition emit (e : ModeEvent) (s : State) : State :=
  {| pendingPermissions := pendingPermissions s; taskApprovalModes := taskApprovalModes s;
     sessions := sessions s; occalls := occalls s; events := events s ++ [e] |}.

Section service.

(** The operations below are async methods run without interruption, with
    queries that succeed; [ModeThreads] cuts them at their awaits.

    Whether [openCodeClient.respondToPermission] returns, with any result, or
    throws: the service ignores the boolean it returns, so an answer that the
    server refuses counts as given too. A failure of the other two calls is
    only logged. *)
Variable accepts : string -> string -> Response -> bool.
Variable now : Z.

(** The answer of a user, or of the service itself. *)
Definition respondToPermission (pid : string) (r : Response) (s : State) : bool * State :=
  match JsMap.get pid (pendingPermissions s) with
  | None => (false, s)
  | Some p =>
      match findBySessionId (pe_sessionId p) (sessions s) with
      | None => (false, s)
      | Some _ =>
          let s1 := occall (OcRespond (pe_sessionId p) pid r) s in
          if accepts (pe_sessionId p) pid r then
            let s2 := withPendings (JsMap.delete pid (pendingPermissions s1)) s1 in
            let s3 := onSessions (clearPendingPermission now (pe_sessionId p)) s2 in
            (true, emit (EvPermissionResponded (pe_taskId p) (pe_sessionId p) pid r) s3)
          else (false, s1)
      end
  end.

(** [pendingPermissions] of a task, in order. *)
Definition getPendingPermissions (t : string) (s : State) : list PendingPermission :=
  base.filter (fun p => pe_taskId p = t) (JsMap.values (pendingPermissions s)).

Definition processAllPendingPermissions (t : string) (s : State) : State :=
  fold_left (fun s p => (respondToPermission (pe_permissionId p) Always s).2)
    (getPendingPermissions t s) s.

(** One session of the loop of [setApprovalMode]. *)
Definition syncSession (m : Mode) (s : State) (se : Session) : State :=
  if bool_decide (se_status se = Active) then
    occall (if autoMode m then OcEnable (se_sessionId se) (se_directory se)
            else OcDisable (se_sessionId se) (se_directory se)) s
  else s.

(** One uninterrupted run: cache, UPDATE, SELECT, the calls, the announcement,
    the pending permissions. *)
Definition setApprovalMode (t : string) (m : Mode) (s : State) : State :=
  let s1 := withModes (JsMap.set t m (taskApprovalModes s)) s in
  let s2 := onSessions (fun ss => (updateApprovalModeByTaskId now t m ss).2) s1 in
  let s3 := fold_left (syncSession m) (findByTaskId t (sessions s2)) s2 in
  let s4 := emit (EvModeChanged t m) s3 in
  if autoMode m then processAllPendingPermissions t s4 else s4.

Definition getApprovalMode (t : string) (s : State) : Mode * State :=
  match JsMap.get t (taskApprovalModes s) with
  | Some m => (m, s)
  | None =>
      let m := match findActiveByTaskId t (sessions s) with
               | Some se => se_mode se | None => MManual end in
      (m, withModes (JsMap.set t m (taskApprovalModes s)) s)
  end.

(** One uninterrupted run: the mode, the INSERT, the call. *)
Definition registerSession (newId sid t dir : string) (phase : option string) (s : State) : State :=
  let '(m, s1) := getApprovalMode t s in
  let s2 := onSessions (create newId now
              {| cs_sessionId := sid; cs_taskId := t; cs_directory := dir; cs_phaseName := phase;
                 cs_mode := Some m; cs_permissions := noPermissions |}) s1 in
  if autoMode m then occall (OcEnable sid dir) s2 else s2.

Inductive Handled := AutoApproved | IsPending | HandleError.
#[global] Instance Handled_eq_dec : EqDecision Handled.
Proof. solve_decision. Defined.

Definition handlePermissionRequest (sid pid tool desc data : string) (s : State) : Handled * State :=
  match findBySessionId sid (sessions s) with
  | None => (HandleError, s)
  | Some se =>
      let t := se_taskId se in
      if autoMode (se_mode se) then
        let s1 := occall (OcRespond sid pid Always) s in
        if accepts sid pid Always then (AutoApproved, emit (EvAutoApproved t sid pid) s1)
        else (HandleError, s1)
      else
        let p := {| pe_taskId := t; pe_sessionId := sid; pe_permissionId := pid; pe_tool := tool;
                    pe_description := desc |} in
        let s1 := withPendings (JsMap.set pid p (pendingPermissions s)) s in
        let s2 := onSessions (setPendingPermission now sid pid data) s1 in
        (IsPending, emit (EvPermissionRequired t sid pid) s2)
  end.

Definition shouldAutoApprovePhase (t : string) (s : State) : bool * State :=
  let '(m, s') := getApprovalMode t s in (bool_decide (m = MAll), s').

Definition completeSession (sid : string) (s : State) : State :=
  let s1 := onSessions (updateSessionStatus now sid SCompleted) s in
  withPendings (JsMap.deleteWhere (fun _ p => bool_decide (pe_sessionId p = sid))
                  (pendingPermissions s1)) s1.

Definition clearTask (t : string) (s : State) : State :=
  let s1 := withModes (JsMap.delete t (taskApprovalModes s)) s in
  withPendings (JsMap.deleteWhere (fun _ p => bool_decide (pe_taskId p = t))
                  (pendingPermissions s1)) s1.

End service.
End ApprovalMode.
