(* ===== verification/ModeThreads.v ===== *)
(** * Approval modes, await by await
    (src/services/approval/ApprovalModeService.ts)

    The methods of the approval mode service are async: at each await another
    call can run. This file cuts them at their awaits. A [Thread] is a call
    that is waiting, with the values its continuation has in hand; [start]
    runs a call to its first await, [resume] executes the query or request a
    thread waits for and the code up to the next wait, [reject] is the
    rejection of a database query. A query and the code after it are two steps
    wherever that code reads or writes the maps of the service. The iterations
    of the two loops are separate steps too, also where the code does not
    wait: the model allows every interleaving of the code, and some more.

    The definitions of [Sessions.ApprovalMode] are the calls that run without
    interruption; [sequential] collects them and [SessionsProofs] proves that
    [alone] gives the same state. *)

From S2P Require Import Prelude Sessions.
From stdpp Require Import options.
Import SessionRepository ApprovalMode.

Module ModeThreads.

(** What follows [await this.getApprovalMode(taskId)]: nothing, or the rest of
    [registerSession]. *)
Inductive GetCont :=
  | KGet
  | KRegister (newId sid dir : string) (phase : option string).

Inductive Thread :=
  (* getApprovalMode: the SELECT, and its answer *)
  | GQuery (t : string) (k : GetCont)
  | GResume (t : string) (m : Mode) (k : GetCont)
  (* registerSession: the INSERT, and the rest *)
  | RInsert (newId sid t dir : string) (phase : option string) (m : Mode)
  | RCreated (sid dir : string) (m : Mode)
  (* setApprovalMode: the UPDATE, the SELECT, the loop over the sessions *)
  | SUpdate (t : string) (m : Mode)
  | SSelect (t : string) (m : Mode)
  | SLoop (t : string) (m : Mode) (rest : list Session)
  (* respondToPermission, and the loop of processAllPendingPermissions *)
  | PLoop (rest : list PendingPermission)
  | PQuery (pid : string) (p : PendingPermission) (r : Response) (rest : list PendingPermission)
  | PFound (pid : string) (p : PendingPermission) (r : Response) (rest : list PendingPermission)
  | PSent (pid : string) (p : PendingPermission) (r : Response) (rest : list PendingPermission)
  | PClear (pid : string) (p : PendingPermission) (r : Response) (rest : list PendingPermission)
  | PNotify (pid : string) (p : PendingPermission) (r : Response) (rest : list PendingPermission)
  (* handlePermissionRequest *)
  | HQuery (sid pid tool desc data : string)
  | HFound (se : Session) (sid pid tool desc data : string)
  | HSent (t sid pid : string)
  | HStore (t sid pid data : string)
  | HNotify (t sid pid : string)
  (* completeSession *)
  | CUpdate (sid : string)
  | CClean (sid : string).

Inductive Op :=
  | OpSet (t : string) (m : Mode)
  | OpGet (t : string)
  | OpRegister (newId sid t dir : string) (phase : option string)
  | OpRequest (sid pid tool desc data : string)
  | OpRespond (pid : string) (r : Response)
  | OpComplete (sid : string)
  | OpClear (t : string).

(** The code after the mode is known. *)
Definition afterGet (t : string) (k : GetCont) (m : Mode) : option Thread :=
  match k with
  | KGet => None
  | KRegister newId sid dir phase => Some (RInsert newId sid t dir phase m)
  end.

Definition startGet (t : string) (k : GetCont) (s : State) : State * option Thread :=
  match JsMap.get t (taskApprovalModes s) with
  | Some m => (s, afterGet t k m)
  | None => (s, Some (GQuery t k))
  end.

(** A call up to its first await; [None]: it has returned. *)
Definition start (op : Op) (s : State) : State * option Thread :=
  match op with
  | OpSet t m => (withModes (JsMap.set t m (taskApprovalModes s)) s, Some (SUpdate t m))
  | OpGet t => startGet t KGet s
  | OpRegister newId sid t dir phase => startGet t (KRegister newId sid dir phase) s
  | OpRequest sid pid tool desc data => (s, Some (HQuery sid pid tool desc data))
  | OpRespond pid r =>
      (s, match JsMap.get pid (pendingPermissions s) with
          | None => None
          | Some p => Some (PQuery pid p r [])
          end)
  | OpComplete sid => (s, Some (CUpdate sid))
  | OpClear t => (clearTask t s, None)
  end.

Section run.
Variable accepts : string -> string -> Response -> bool.
Variable now : Z.

Definition resume (th : Thread) (s : State) : State * option Thread :=
  match th with
  | GQuery t k =>
      (s, Some (GResume t (match findActiveByTaskId t (sessions s) with
                           | Some se => se_mode se | None => MManual end) k))
  | GResume t m k => (withModes (JsMap.set t m (taskApprovalModes s)) s, afterGet t k m)
  | RInsert newId sid t dir phase m =>
      (onSessions (create newId now
         {| cs_sessionId := sid; cs_taskId := t; cs_directory := dir; cs_phaseName := phase;
            cs_mode := Some m; cs_permissions := noPermissions |}) s, Some (RCreated sid dir m))
  | RCreated sid dir m => (if autoMode m then occall (OcEnable sid dir) s else s, None)
  | SUpdate t m =>
      (onSessions (fun ss => (updateApprovalModeByTaskId now t m ss).2) s, Some (SSelect t m))
  | SSelect t m => (s, Some (SLoop t m (findByTaskId t (sessions s))))
  | SLoop t m (se :: rest) => (syncSession m s se, Some (SLoop t m rest))
  | SLoop t m [] =>
      let s' := emit (EvModeChanged t m) s in
      (s', if autoMode m then Some (PLoop (getPendingPermissions t s')) else None)
  | PLoop [] => (s, None)
  | PLoop (p :: rest) =>
      (s, match JsMap.get (pe_permissionId p) (pendingPermissions s) with
          | None => Some (PLoop rest)
          | Some p' => Some (PQuery (pe_permissionId p) p' Always rest)
          end)
  | PQuery pid p r rest =>
      (s, match findBySessionId (pe_sessionId p) (sessions s) with
          | None => Some (PLoop rest)
          | Some _ => Some (PFound pid p r rest)
          end)
  | PFound pid p r rest =>
      (occall (OcRespond (pe_sessionId p) pid r) s, Some (PSent pid p r rest))
  | PSent pid p r rest =>
      if accepts (pe_sessionId p) pid r
      then (withPendings (JsMap.delete pid (pendingPermissions s)) s,
            Some (PClear pid p r rest))
      else (s, Some (PLoop rest))
  | PClear pid p r rest =>
      (onSessions (clearPendingPermission now (pe_sessionId p)) s, Some (PNotify pid p r rest))
  | PNotify pid p r rest =>
      (emit (EvPermissionResponded (pe_taskId p) (pe_sessionId p) pid r) s,
       Some (PLoop rest))
  | HQuery sid pid tool desc data =>
      (s, (fun se => HFound se sid pid tool desc data) <$> findBySessionId sid (sessions s))
  | HFound se sid pid tool desc data =>
      let t := se_taskId se in
      if autoMode (se_mode se) then (occall (OcRespond sid pid Always) s, Some (HSent t sid pid))
      else
        let p := {| pe_taskId := t; pe_sessionId := sid; pe_permissionId := pid; pe_tool := tool;
                    pe_description := desc |} in
        (withPendings (JsMap.set pid p (pendingPermissions s)) s, Some (HStore t sid pid data))
  | HSent t sid pid =>
      (if accepts sid pid Always then emit (EvAutoApproved t sid pid) s else s, None)
  | HStore t sid pid data =>
      (onSessions (setPendingPermission now sid pid data) s, Some (HNotify t sid pid))
  | HNotify t sid pid => (emit (EvPermissionRequired t sid pid) s, None)
  | CUpdate sid => (onSessions (updateSessionStatus now sid SCompleted) s, Some (CClean sid))
  | CClean sid =>
      (withPendings (JsMap.deleteWhere (fun _ p => bool_decide (pe_sessionId p = sid))
                       (pendingPermissions s)) s, None)
  end.

(** The query of a thread fails: the call rejects. The one query inside a try
    is the UPDATE of [respondToPermission], whose caller goes on. A query that
    fails has changed nothing. *)
Definition reject (th : Thread) : option (option Thread) :=
  match th with
  | GQuery _ _ | RInsert _ _ _ _ _ _ | SUpdate _ _ | SSelect _ _ | PQuery _ _ _ _
  | HQuery _ _ _ _ _ | HStore _ _ _ _ | CUpdate _ => Some None
  | PClear _ _ _ rest => Some (Some (PLoop rest))
  | _ => None
  end.

(** The same calls without interruption. *)
Definition sequential (op : Op) (s : State) : State :=
  match op with
  | OpSet t m => setApprovalMode accepts now t m s
  | OpGet t => (getApprovalMode t s).2
  | OpRegister newId sid t dir phase => registerSession now newId sid t dir phase s
  | OpRequest sid pid tool desc data => (handlePermissionRequest accepts now sid pid tool desc data s).2
  | OpRespond pid r => (respondToPermission accepts now pid r s).2
  | OpComplete sid => completeSession now sid s
  | OpClear t => clearTask t s
  end.

Definition solo (c c' : State * option Thread) : Prop :=
  exists th, c.2 = Some th /\ c' = resume th c.1.

Definition alone (op : Op) (s s' : State) : Prop := rtc solo (start op s) (s', None).

End run.

(** ** Any number of calls at once *)

Record World := {
  service : State;
  threads : list Thread;
  (** the tasks whose last UPDATE of the mode failed: a history variable *)
  failedUpdates : list string;
}.

Definition noThreads : World := {| service := init; threads := []; failedUpdates := [] |}.

Definition restart (o : option Thread) : list Thread := match o with Some th => [th] | None => [] end.

(** The failed UPDATEs after a thread has been resumed or rejected. *)
Definition updated (th : Thread) (l : list string) : list string :=
  match th with SUpdate t _ => base.filter (fun x => x <> t) l | _ => l end.
Definition notUpdated (th : Thread) (l : list string) : list string :=
  match th with SUpdate t _ => t :: l | _ => l end.

Section system.
Variable accepts : string -> string -> Response -> bool.
(** Which calls may start in a world. *)
Variable may : Op -> World -> bool.

Definition started (op : Op) (w : World) : World :=
  {| service := (start op (service w)).1;
     threads := threads w ++ restart (start op (service w)).2;
     failedUpdates := failedUpdates w |}.

Definition resumed (now : Z) (l1 : list Thread) (th : Thread) (l2 : list Thread) (w : World) : World :=
  {| service := (resume accepts now th (service w)).1;
     threads := l1 ++ restart (resume accepts now th (service w)).2 ++ l2;
     failedUpdates := updated th (failedUpdates w) |}.

Definition rejected (l1 : list Thread) (th : Thread) (o : option Thread) (l2 : list Thread)
    (w : World) : World :=
  {| service := service w; threads := l1 ++ restart o ++ l2;
     failedUpdates := notUpdated th (failedUpdates w) |}.

Inductive wstep : World -> World -> Prop :=
  | WStart op w : may op w = true -> wstep w (started op w)
  | WResume now l1 th l2 w :
      threads w = l1 ++ th :: l2 -> wstep w (resumed now l1 th l2 w)
  | WReject l1 th l2 o w :
      threads w = l1 ++ th :: l2 -> reject th = Some o -> wstep w (rejected l1 th o l2 w).

Definition reachable (w : World) : Prop := rtc wstep noThreads w.

(** A schedule: which call starts, which thread moves, which query fails. *)
Inductive Move := MStart (op : Op) | MResume (now : Z) (i : nat) | MReject (i : nat).

Definition move (w : World) (mv : Move) : option World :=
  match mv with
  | MStart op => if may op w then Some (started op w) else None
  | MResume now i =>
      match threads w !! i with
      | Some th => Some (resumed now (take i (threads w)) th (drop (S i) (threads w)) w)
      | None => None
      end
  | MReject i =>
      match threads w !! i with
      | Some th =>
          match reject th with
          | Some o => Some (rejected (take i (threads w)) th o (drop (S i) (threads w)) w)
          | None => None
          end
      | None => None
      end
  end.

Fixpoint play (l : list Move) (w : World) : option World :=
  match l with
  | [] => Some w
  | mv :: l' => match move w mv with Some w' => play l' w' | None => None end
  end.

End system.

(** ** Which calls may overlap *)

(** The task whose mode a thread has still to read, to write, or to write into
    a new row. *)
Definition modeTask (th : Thread) : option string :=
  match th with
  | GQuery t _ | GResume t _ _ | RInsert _ _ t _ _ _ | SUpdate t _ => Some t
  | _ => None
  end.

(** An INSERT with a mode that was in the cache. *)
Definition inserting (th : Thread) : bool :=
  match th with RInsert _ _ _ _ _ _ => true | _ => false end.

Definition opTask (op : Op) : option string :=
  match op with
  | OpSet t _ | OpGet t | OpRegister _ _ t _ _ | OpClear t => Some t
  | OpRequest _ _ _ _ _ | OpRespond _ _ | OpComplete _ => None
  end.

(** A reader that finds the mode in the cache. *)
Definition cachedRead (op : Op) (s : State) : bool :=
  match op with
  | OpGet t | OpRegister _ _ t _ _ => JsMap.has t (taskApprovalModes s)
  | _ => false
  end.

Definition anyStart (_ : Op) (_ : World) : bool := true.

(** The mode calls of one task do not overlap, readers of a cached mode aside;
    everything else may. *)
Definition apart (op : Op) (w : World) : bool :=
  forallb (fun th =>
      match opTask op with
      | None => true
      | Some t => negb (bool_decide (modeTask th = Some t))
                  || cachedRead op (service w) && inserting th
      end) (threads w).

End ModeThreads.
