(* ===== verification/SessionsProofs.v ===== *)
(** * Sessions and approval modes: coherence of the mode, manual mode, draining *)

From S2P Require Import Prelude Sessions ModeThreads.
From stdpp Require Import options.
Import SessionRepository ApprovalMode.

Module ModeSpec.

(** ** Rows *)

Lemma elem_updateWhere p f ss x :
  x ∈ updateWhere p f ss <-> exists s, s ∈ ss /\ x = (if p s then f s else s).
Proof. unfold updateWhere. rewrite list_elem_of_fmap. naive_solver. Qed.

Lemma findBySessionId_elem sid ss se : findBySessionId sid ss = Some se -> se ∈ ss /\ se_sessionId se = sid.
Proof.
  unfold findBySessionId. intros ([i x] & Hf & ->)%fmap_Some.
  apply list_find_Some in Hf as (Hi & Hx & _). split; [|done]. simpl.
  by eapply list_elem_of_lookup_2.
Qed.

Lemma findActive_elem t ss se :
  findActiveByTaskId t ss = Some se -> se ∈ ss /\ isActiveOf t se = true.
Proof.
  unfold findActiveByTaskId. intros H.
  assert (se ∈ reverse (base.filter (fun s => isActiveOf t s = true) ss)) as Hin.
  { destruct (reverse _) as [|x l]; [done|]. injection H as ->. apply list_elem_of_here. }
  apply elem_of_reverse, list_elem_of_filter in Hin. tauto.
Qed.

(** A session that was just created is the one found. *)
Lemma findActive_create t id now cs ss :
  cs_taskId cs = t ->
  findActiveByTaskId t (SessionRepository.create id now cs ss) = Some (newSession id now cs).
Proof.
  intros Ht. unfold findActiveByTaskId, SessionRepository.create. rewrite list.filter_app, list.filter_cons.
  rewrite decide_True by (unfold isActiveOf; simpl; rewrite !bool_decide_true; done).
  by rewrite list.filter_nil, reverse_snoc.
Qed.

Lemma findActive_None t ss :
  findActiveByTaskId t ss = None -> forall se, se ∈ ss -> isActiveOf t se = false.
Proof.
  unfold findActiveByTaskId. intros H se Hse. apply not_true_iff_false. intros Ha.
  assert (se ∈ reverse (base.filter (fun s => isActiveOf t s = true) ss)) as Hin.
  { apply elem_of_reverse, list_elem_of_filter. auto. }
  destruct (reverse _); [by apply not_elem_of_nil in Hin|done].
Qed.

(** ** Coherence *)

(** All active sessions of a task are in mode [m]. *)
Definition allIn (t : string) (m : Mode) (s : State) : Prop :=
  forall se, se ∈ sessions s -> isActiveOf t se = true -> se_mode se = m.

(** The active sessions of a task are in one mode, the cached one if there is one. *)
Definition taskCoherent (t : string) (s : State) : Prop :=
  match JsMap.get t (taskApprovalModes s) with
  | Some m => allIn t m s
  | None => exists m, allIn t m s
  end.

(** The permission settings of every row are those of its mode. *)
Definition permissionsMatch (s : State) : Prop :=
  forall se, se ∈ sessions s -> se_permissions se = permissionsOf (se_mode se).

Lemma taskCoherent_found t s :
  taskCoherent t s ->
  allIn t (match findActiveByTaskId t (sessions s) with Some se => se_mode se | None => MManual end) s.
Proof.
  intros Hc. assert (exists m, allIn t m s) as [m Hm].
  { unfold taskCoherent in Hc. case_match; eauto. }
  destruct (findActiveByTaskId t (sessions s)) as [x|] eqn:Ex.
  - apply findActive_elem in Ex as [Hx Hxa]. intros se Hse Ha. rewrite (Hm se Hse Ha). symmetry. by apply Hm.
  - intros se Hse Ha. by rewrite (findActive_None _ _ Ex se Hse) in Ha.
Qed.

(** An update that changes no mode, task or permission and activates nothing. *)
Definition harmless (f : Session -> Session) : Prop := forall s,
  se_taskId (f s) = se_taskId s /\ se_mode (f s) = se_mode s
  /\ se_permissions (f s) = se_permissions s /\ (se_status (f s) = Active -> se_status s = Active).

Lemma harmless_pending now p : harmless (withPending now p).
Proof. by intros s. Qed.
Lemma harmless_status now st : st <> Active -> harmless (withSessionStatus now st).
Proof. intros Hst s. by split_and!. Qed.

Lemma isActiveOf_iff t se : isActiveOf t se = true <-> se_taskId se = t /\ se_status se = Active.
Proof. unfold isActiveOf. rewrite andb_true_iff, !bool_decide_eq_true. done. Qed.

Lemma allIn_harmless p f t m s :
  harmless f -> allIn t m s -> allIn t m (onSessions (updateWhere p f) s).
Proof.
  intros Hf Hm x Hx Ha. simpl in Hx. apply elem_updateWhere in Hx as (y & Hy & ->).
  destruct (p y); [|by apply Hm]. destruct (Hf y) as (Et & -> & _ & Hs).
  apply isActiveOf_iff in Ha as [Ht Hst]. apply Hm; [done|]. apply isActiveOf_iff.
  split; [congruence|auto].
Qed.

Lemma permissions_harmless p f s :
  harmless f -> permissionsMatch s -> permissionsMatch (onSessions (updateWhere p f) s).
Proof.
  intros Hf Hm x Hx. simpl in Hx. apply elem_updateWhere in Hx as (y & Hy & ->).
  destruct (p y); [|by apply Hm]. destruct (Hf y) as (_ & -> & -> & _). by apply Hm.
Qed.

Lemma allIn_same t m s s' : sessions s' = sessions s -> allIn t m s -> allIn t m s'.
Proof. unfold allIn. by intros ->. Qed.
Lemma permissions_same s s' : sessions s' = sessions s -> permissionsMatch s -> permissionsMatch s'.
Proof. unfold permissionsMatch. by intros ->. Qed.

Lemma syncSession_frame m l s :
  sessions (fold_left (syncSession m) l s) = sessions s
  /\ taskApprovalModes (fold_left (syncSession m) l s) = taskApprovalModes s
  /\ pendingPermissions (fold_left (syncSession m) l s) = pendingPermissions s.
Proof.
  revert s. induction l as [|x l IH]; intros s; [done|]. simpl.
  destruct (IH (syncSession m s x)) as (-> & -> & ->). unfold syncSession. by case_bool_decide.
Qed.

(** The state in which [setApprovalMode] processes the pending permissions. *)
Definition switched (now : Z) (t : string) (m : Mode) (s : State) : State :=
  let s1 := withModes (JsMap.set t m (taskApprovalModes s)) s in
  let s2 := onSessions (fun ss => (updateApprovalModeByTaskId now t m ss).2) s1 in
  emit (EvModeChanged t m) (fold_left (syncSession m) (findByTaskId t (sessions s2)) s2).

Lemma switched_fields now t m s :
  sessions (switched now t m s) = updateWhere (isActiveOf t) (withMode now m) (sessions s)
  /\ taskApprovalModes (switched now t m s) = JsMap.set t m (taskApprovalModes s)
  /\ pendingPermissions (switched now t m s) = pendingPermissions s.
Proof.
  unfold switched. simpl.
  destruct (syncSession_frame m (findByTaskId t (updateWhere (isActiveOf t) (withMode now m) (sessions s)))
    (onSessions (fun ss => (updateApprovalModeByTaskId now t m ss).2)
       (withModes (JsMap.set t m (taskApprovalModes s)) s))) as (H1 & H2 & H3).
  simpl in *. by rewrite H1, H2, H3.
Qed.

(** ** A call that runs alone *)

Import ModeThreads.

Section alone.
Variable accepts : string -> string -> Response -> bool.
Variable now : Z.

Lemma solo_l th s c : rtc (solo accepts now) (resume accepts now th s) c -> rtc (solo accepts now) (s, Some th) c.
Proof. intros H. eapply rtc_l; [|exact H]. by exists th. Qed.

Lemma respond_runs pid p r rest s c :
  JsMap.get pid (pendingPermissions s) = Some p ->
  rtc (solo accepts now) ((respondToPermission accepts now pid r s).2, Some (PLoop rest)) c ->
  rtc (solo accepts now) (s, Some (PQuery pid p r rest)) c.
Proof.
  intros Hp H. unfold respondToPermission in H. rewrite Hp in H. apply solo_l. simpl.
  destruct (findBySessionId _ _); [|done]. do 2 (apply solo_l; simpl).
  destruct (accepts _ _ _); [|done]. by do 2 (apply solo_l; simpl).
Qed.

Lemma loop_runs l s :
  rtc (solo accepts now) (s, Some (PLoop l))
    (fold_left (fun s p => (respondToPermission accepts now (pe_permissionId p) Always s).2) l s, None).
Proof.
  revert s. induction l as [|p l IH]; intros s; apply solo_l; simpl; [done|].
  destruct (JsMap.get _ _) as [p'|] eqn:E; [by apply respond_runs|].
  unfold respondToPermission at 2. by rewrite E.
Qed.

Lemma sessions_loop_runs t m l s c :
  rtc (solo accepts now) (fold_left (syncSession m) l s, Some (SLoop t m [])) c ->
  rtc (solo accepts now) (s, Some (SLoop t m l)) c.
Proof. revert s. induction l as [|x l IH]; intros s H; [done|]. apply solo_l. by apply IH. Qed.

(** A call that nothing interrupts does what its definition in [Sessions] says. *)
Lemma uninterrupted_run op s : alone accepts now op s (sequential accepts now op s).
Proof.
  unfold alone. destruct op as [t m|t|id sid t dir ph|sid pid tool desc data|pid r|sid|t]; simpl.
  - do 2 (apply solo_l; simpl). apply sessions_loop_runs, solo_l. simpl.
    unfold setApprovalMode. destruct (autoMode m); [apply loop_runs|done].
  - unfold startGet, getApprovalMode. destruct (JsMap.get t _); simpl; [done|].
    by do 2 (apply solo_l; simpl).
  - unfold startGet, registerSession, getApprovalMode. destruct (JsMap.get t _) as [m|]; simpl;
      do 4 (try apply solo_l; simpl); done.
  - apply solo_l. simpl. unfold handlePermissionRequest.
    destruct (findBySessionId _ _) as [se|]; simpl; [|done].
    apply solo_l. simpl. destruct (autoMode _); simpl.
    + apply solo_l. simpl. by destruct (accepts _ _ _).
    + by do 2 (apply solo_l; simpl).
  - unfold respondToPermission. destruct (JsMap.get pid _) as [p|] eqn:E; [|done].
    eapply respond_runs; [done|]. unfold respondToPermission. rewrite E. by apply solo_l.
  - by do 2 (apply solo_l; simpl).
  - done.
Qed.

End alone.

(** ** What one step does to the mode of a task *)

Lemma start_other op s t :
  opTask op <> Some t ->
  JsMap.get t (taskApprovalModes (start op s).1) = JsMap.get t (taskApprovalModes s)
  /\ sessions (start op s).1 = sessions s.
Proof.
  destruct op; simpl; intros Ht; try (unfold startGet; repeat case_match); simpl; try done.
  - by rewrite JsMap.get_set_ne by congruence.
  - by rewrite JsMap.get_delete_ne by congruence.
Qed.

Lemma start_sessions op s : sessions (start op s).1 = sessions s.
Proof. destruct op; simpl; try (unfold startGet; repeat case_match); done. Qed.

Lemma resume_other accepts now th s t :
  modeTask th <> Some t ->
  JsMap.get t (taskApprovalModes (resume accepts now th s).1) = JsMap.get t (taskApprovalModes s)
  /\ forall m, allIn t m s -> allIn t m (resume accepts now th s).1.
Proof.
  destruct th as [| |? ? t' ? ? m'| |t' m'|?|? ? [|x rest]|[|x rest]| | | | | | | | | | | |];
    simpl; intros Ht; repeat case_match; simpl; try done.
  - by rewrite JsMap.get_set_ne by congruence.
  - split; [done|]. intros q Hm x Hx Ha. simpl in Hx. unfold create in Hx.
    apply elem_of_app in Hx as [Hx|Hx]; [by apply Hm|]. apply list_elem_of_singleton in Hx as ->.
    apply isActiveOf_iff in Ha as [Ha _]. simpl in Ha. congruence.
  - split; [done|]. intros q Hm x Hx Ha. simpl in Hx. apply elem_updateWhere in Hx as (y & Hy & ->).
    destruct (isActiveOf t' y) eqn:E; [|by apply Hm].
    apply isActiveOf_iff in Ha as [Ha _], E as [E _]. simpl in Ha. congruence.
  - split; [|intros q; apply allIn_same]; unfold syncSession; by case_bool_decide.
  - split; [done|]. intros q. apply allIn_harmless, harmless_pending.
  - split; [done|]. intros q. apply allIn_harmless, harmless_pending.
  - split; [done|]. intros q. by apply allIn_harmless, harmless_status.
Qed.

Lemma resume_permissions accepts now th s :
  permissionsMatch s -> permissionsMatch (resume accepts now th s).1.
Proof.
  intros Hm. destruct th as [| |? ? t' ? ? m'| |t' m'|?|? ? [|x rest]|[|x rest]| | | | | | | | | | | |];
    simpl; repeat case_match; simpl; try done.
  - intros x Hx. simpl in Hx. unfold create in Hx.
    apply elem_of_app in Hx as [Hx|Hx]; [by apply Hm|]. by apply list_elem_of_singleton in Hx as ->.
  - intros x Hx. simpl in Hx. apply elem_updateWhere in Hx as (y & Hy & ->).
    destruct (isActiveOf t' y); [done|by apply Hm].
  - eapply permissions_same; [|done]. unfold syncSession. by case_bool_decide.
  - apply permissions_harmless; [apply harmless_pending|done].
  - apply permissions_harmless; [apply harmless_pending|done].
  - apply permissions_harmless; [by apply harmless_status|done].
Qed.

(** The thread that follows is about the same task, which the first one held alone. *)
Lemma resume_next accepts now th s th' t :
  (resume accepts now th s).2 = Some th' -> modeTask th' = Some t ->
  modeTask th = Some t /\ inserting th = false.
Proof.
  destruct th as [? k|? ? k| | | | |? ? [|x rest]|[|x rest]| | | | | | | | | | | |]; simpl; intros H Ht;
    try destruct k; simpl in H; repeat case_match; simplify_eq/=; try done.
  apply fmap_Some in H as (? & _ & ->). done.
Qed.

(** ** Calls that do not overlap *)

(** Two threads that both hold the mode of a task are two INSERTs of a cached mode. *)
Definition compat (a b : Thread) : Prop := forall t,
  modeTask a = Some t -> modeTask b = Some t -> inserting a = true /\ inserting b = true.

Fixpoint exclusive (l : list Thread) : Prop :=
  match l with [] => True | a :: l' => (forall b, b ∈ l' -> compat a b) /\ exclusive l' end.

Lemma compat_sym a b : compat a b -> compat b a.
Proof. intros H t Ha Hb. destruct (H t Hb Ha). done. Qed.

Lemma compat_none a b : modeTask a = None -> compat a b.
Proof. intros H t Ha. congruence. Qed.

Lemma exclusive_middle l1 a l2 :
  exclusive (l1 ++ a :: l2) <-> exclusive (l1 ++ l2) /\ forall b, b ∈ l1 ++ l2 -> compat a b.
Proof.
  induction l1 as [|x l1 IH]; simpl; [naive_solver|]. rewrite IH. split.
  - intros (Hx & H1 & H2). split_and!; [|done|].
    + intros b Hb. apply Hx. set_solver.
    + intros b [->|Hb]%elem_of_cons; [|auto]. apply compat_sym, Hx. set_solver.
  - intros ((Hx & H1) & H2). split_and!; [|done|].
    + intros b Hb. assert (b = a \/ b ∈ l1 ++ l2) as [->|Hb'] by set_solver; [|auto].
      apply compat_sym, H2, list_elem_of_here.
    + intros b Hb. by apply H2, list_elem_of_further.
Qed.

(** What a thread knows of the mode it holds. *)
Definition threadOk (failed : list string) (th : Thread) (s : State) : Prop :=
  match th with
  | GResume t m _ => t ∉ failed -> allIn t m s
  | RInsert _ _ t _ _ m | SUpdate t m => JsMap.get t (taskApprovalModes s) = Some m
  | _ => True
  end.

Definition coherentIn (failed : list string) (l : list Thread) (s : State) : Prop :=
  forall t, t ∉ failed -> (forall m, SUpdate t m ∉ l) -> taskCoherent t s.

Record worldOk (w : World) : Prop := {
  wo_permissions : permissionsMatch (service w);
  wo_coherent : coherentIn (failedUpdates w) (threads w) (service w);
  wo_threads : forall th, th ∈ threads w -> threadOk (failedUpdates w) th (service w);
  wo_exclusive : exclusive (threads w) }.

Lemma taskCoherent_other t s s' :
  JsMap.get t (taskApprovalModes s') = JsMap.get t (taskApprovalModes s) ->
  (forall m, allIn t m s -> allIn t m s') -> taskCoherent t s -> taskCoherent t s'.
Proof. unfold taskCoherent. intros -> H. case_match; [auto|]. intros [m Hm]. eauto. Qed.

Lemma threadOk_other failed failed' th t s s' :
  modeTask th = Some t -> (t ∉ failed' -> t ∉ failed) ->
  JsMap.get t (taskApprovalModes s') = JsMap.get t (taskApprovalModes s) ->
  (forall m, allIn t m s -> allIn t m s') -> threadOk failed th s -> threadOk failed' th s'.
Proof. destruct th; simpl; intros [= ->] Hf Hg Hm; rewrite ?Hg; auto. Qed.

Lemma threadOk_none failed th s : modeTask th = None -> threadOk failed th s.
Proof. by destruct th. Qed.

Lemma updated_other th t l : modeTask th <> Some t -> t ∉ updated th l -> t ∉ l.
Proof.
  destruct th; simpl; try done. intros Hne Ht Hin. apply Ht, list_elem_of_filter.
  split; [congruence|done].
Qed.

(** The step of the thread that holds the mode of a task. *)
Lemma own_step accepts now th s t l1 l2 failed :
  worldOk {| service := s; threads := l1 ++ th :: l2; failedUpdates := failed |} ->
  modeTask th = Some t ->
  let r := resume accepts now th s in
  (t ∉ updated th failed -> taskCoherent t r.1)
  /\ (forall th', r.2 = Some th' -> threadOk (updated th failed) th' r.1)
  /\ (inserting th = true -> taskApprovalModes r.1 = taskApprovalModes s).
Proof.
  intros [_ Hc Ht Hx] Htask. simpl in *. assert (th ∈ l1 ++ th :: l2) as Hin by set_solver.
  apply Ht in Hin. apply exclusive_middle in Hx as [_ Hx].
  assert ((forall m, th <> SUpdate t m) -> t ∉ failed -> taskCoherent t s) as Hold.
  { intros Hne Hf. apply Hc; [done|]. intros m Hm.
    assert (SUpdate t m = th \/ SUpdate t m ∈ l1 ++ l2) as [Heq|Hm'] by set_solver; [by destruct (Hne m)|].
    by destruct (Hx _ Hm' t Htask eq_refl). }
  destruct th as [t' k|t' m k|id sid t' dir ph m| |t' m| | | | | | | | | | | | | | |];
    try done; simpl in *; injection Htask as ->.
  - split_and!; [by apply Hold| |done]. intros th' [= <-] Hf. simpl.
    apply taskCoherent_found. by apply Hold.
  - split_and!; [| |done].
    + intros Hf. unfold taskCoherent. simpl. rewrite JsMap.get_set_eq. by apply Hin.
    + intros th' Hth. destruct k; simpl in Hth; [done|]. injection Hth as <-. simpl.
      apply JsMap.get_set_eq.
  - split_and!; [| |done].
    + intros Hf. unfold taskCoherent. simpl. rewrite Hin. intros x Hx' Ha. unfold create in Hx'.
      apply elem_of_app in Hx' as [Hx'|Hx']; [|by apply list_elem_of_singleton in Hx' as ->].
      specialize (Hold ltac:(done) Hf). unfold taskCoherent in Hold. rewrite Hin in Hold. by apply Hold.
    + by intros th' [= <-].
  - split_and!; [| |done].
    + intros _. unfold taskCoherent. simpl. rewrite Hin. intros x Hx' Ha. simpl in Hx'.
      apply elem_updateWhere in Hx' as (y & Hy & ->). destruct (isActiveOf t y) eqn:E; [done|].
      congruence.
    + by intros th' [= <-].
Qed.

Lemma worldOk_resume accepts now l1 th l2 s failed :
  worldOk {| service := s; threads := l1 ++ th :: l2; failedUpdates := failed |} ->
  worldOk {| service := (resume accepts now th s).1;
             threads := l1 ++ restart (resume accepts now th s).2 ++ l2;
             failedUpdates := updated th failed |}.
Proof.
  intros Hw. pose proof Hw as [Hp Hc Ht Hx]. simpl in *.
  apply exclusive_middle in Hx as [Hx1 Hx2].
  assert (forall t, modeTask th = Some t -> _) as Hown by (intros t; apply (own_step accepts now th s t l1 l2 failed Hw)).
  split; simpl.
  - by apply resume_permissions.
  - intros t Hf Hnone. destruct (decide (modeTask th = Some t)) as [E|E]; [by apply (Hown t E)|].
    destruct (resume_other accepts now th s t E) as [Hg Hm].
    apply (taskCoherent_other t s); [done..|]. apply Hc; [by eapply updated_other|].
    intros m Hin. assert (SUpdate t m = th \/ SUpdate t m ∈ l1 ++ l2) as [<-|Hin'] by set_solver; [done|].
    apply (Hnone m). set_solver.
  - intros b Hb. destruct (modeTask b) as [t|] eqn:Eb; [|by apply threadOk_none].
    assert (b ∈ l1 ++ l2 \/ (resume accepts now th s).2 = Some b) as [Hb'|Hb'].
    { destruct (resume accepts now th s).2; simpl in *; set_solver. }
    + assert (threadOk failed b s) as Hok by (apply Ht; set_solver).
      destruct (decide (modeTask th = Some t)) as [E|E].
      * destruct (Hx2 b Hb' t E Eb) as [Hi Hib]. destruct (Hown t E) as (_ & _ & Hsame).
        destruct b; try done. simpl in *. by rewrite Hsame.
      * destruct (resume_other accepts now th s t E) as [Hg Hm].
        eapply threadOk_other; [done| |done..]. by apply updated_other.
    + destruct (resume_next _ _ _ _ _ _ Hb' Eb) as [E _]. by apply (Hown t E).
  - destruct (resume accepts now th s).2 as [th'|] eqn:E; simpl; [|done].
    apply exclusive_middle. split; [done|]. intros b Hb t Ha Hbt.
    destruct (resume_next _ _ _ _ _ _ E Ha) as [Et Hi]. destruct (Hx2 b Hb t Et Hbt). congruence.
Qed.

Lemma start_next op s th t :
  (start op s).2 = Some th -> modeTask th = Some t -> opTask op = Some t.
Proof.
  destruct op; simpl; intros H Ht; try unfold startGet in H; repeat case_match; simplify_eq/=; done.
Qed.

Lemma start_thread failed op s th :
  (start op s).2 = Some th ->
  threadOk failed th (start op s).1
  /\ (cachedRead op s = true -> inserting th = true).
Proof.
  destruct op; simpl; intros H; try (unfold startGet, JsMap.has in *);
    repeat case_match; simplify_eq/=; try done.
  split; [apply JsMap.get_set_eq|done].
Qed.

Lemma start_own op s t :
  opTask op = Some t -> taskCoherent t s ->
  taskCoherent t (start op s).1 \/ exists m, (start op s).2 = Some (SUpdate t m).
Proof.
  destruct op as [t' m|t'|? ? t'| | | |t']; simpl; intros [= ->] Hc; [eauto| | |].
  - unfold startGet. destruct (JsMap.get t _) eqn:E; simpl; auto.
  - unfold startGet. destruct (JsMap.get t _) eqn:E; simpl; auto.
  - left. unfold taskCoherent in *. simpl. rewrite JsMap.get_delete_eq.
    destruct (JsMap.get t _); eauto.
Qed.

Lemma start_cached op s t : opTask op = Some t -> cachedRead op s = true -> (start op s).1 = s.
Proof.
  intros _. destruct op; simpl; try done; unfold startGet, JsMap.has;
    intros Hb%bool_decide_eq_true; by destruct Hb as [m ->].
Qed.

Lemma apart_spec op w : apart op w = true ->
  forall t th, opTask op = Some t -> th ∈ threads w -> modeTask th = Some t ->
    cachedRead op (service w) = true /\ inserting th = true.
Proof.
  unfold apart. intros H t th Ht Hin Hth. rewrite forallb_forall in H.
  specialize (H th (proj1 (list_elem_of_In _ _) Hin)). rewrite Ht, bool_decide_true in H by done.
  by apply andb_true_iff in H.
Qed.

Lemma threads_start failed (l : list Thread) op s th :
  (forall t th, opTask op = Some t -> th ∈ l -> modeTask th = Some t ->
     cachedRead op s = true /\ inserting th = true) ->
  (forall th, th ∈ l -> threadOk failed th s) -> th ∈ l -> threadOk failed th (start op s).1.
Proof.
  intros Ha Ht Hin. destruct (modeTask th) as [t|] eqn:E; [|by apply threadOk_none].
  destruct (decide (opTask op = Some t)) as [Eo|Eo].
  - destruct (Ha t th Eo Hin E) as [Hr _]. rewrite (start_cached op s t Eo Hr). by apply Ht.
  - destruct (start_other op s t Eo) as [Hg Hs].
    eapply threadOk_other; [done|done|done|intros m; by apply allIn_same|auto].
Qed.

Lemma worldOk_start op w :
  apart op w = true -> worldOk w -> worldOk (started op w).
Proof.
  intros Ha [Hp Hc Ht Hx]. destruct w as [s l failed].
  pose proof (apart_spec _ _ Ha) as Hap. clear Ha. rename Hap into Ha. simpl in *.
  split; simpl.
  - eapply permissions_same; [apply start_sessions|done].
  - intros t Hf Hn. assert (taskCoherent t s) as Hold by (apply Hc; [done|set_solver]).
    destruct (decide (opTask op = Some t)) as [E|E].
    + destruct (start_own op s t E Hold) as [?|[m Hm]]; [done|].
      rewrite Hm in Hn. simpl in Hn. destruct (Hn m). set_solver.
    + destruct (start_other op s t E) as [Hg Hs].
      apply (taskCoherent_other t s); [done|intros m; by apply allIn_same|done].
  - intros b Hb. destruct (start op s).2 as [th|] eqn:Eth; simpl in Hb.
    + apply elem_of_app in Hb as [Hb|Hb]; [|apply list_elem_of_singleton in Hb as ->;
        by apply start_thread].
      by eapply threads_start.
    + rewrite app_nil_r in Hb. by eapply threads_start.
  - destruct (start op s).2 as [th|] eqn:Eth; simpl; [|by rewrite app_nil_r].
    apply exclusive_middle. rewrite app_nil_r. split; [done|]. intros b Hb t Htask Hbt.
    pose proof (start_next op s th t Eth Htask) as Hop. destruct (Ha t b Hop Hb Hbt) as [Hr Hi].
    split; [|done]. by eapply start_thread.
Qed.

Lemma worldOk_reject l1 th l2 o w :
  threads w = l1 ++ th :: l2 -> reject th = Some o -> worldOk w ->
  worldOk (rejected l1 th o l2 w).
Proof.
  intros Hth Hr [Hp Hc Ht Hx]. rewrite Hth in *. apply exclusive_middle in Hx as [Hx1 Hx2].
  assert (o = None \/ exists rest, o = Some (PLoop rest)) as Ho.
  { destruct th; simpl in Hr; simplify_eq; eauto. }
  assert (forall t, t ∉ notUpdated th (failedUpdates w) -> t ∉ failedUpdates w) as Hf.
  { intros t. destruct th; simpl; set_solver. }
  split; simpl; [done| | |].
  - intros t Hnf Hn. apply Hc; [auto|]. intros m Hin.
    assert (th = SUpdate t m \/ SUpdate t m ∈ l1 ++ l2) as [->|Hin'] by set_solver.
    + apply Hnf. simpl. set_solver.
    + apply (Hn m). set_solver.
  - intros b Hb. assert (b ∈ l1 ++ l2 \/ modeTask b = None) as [Hb'|Hb'].
    { destruct Ho as [->|[rest ->]]; simpl in Hb; [set_solver|].
      assert (b = PLoop rest \/ b ∈ l1 ++ l2) as [->|?] by set_solver; auto. }
    + destruct (modeTask b) as [t|] eqn:Eb; [|by apply threadOk_none].
      eapply threadOk_other; [done|apply Hf|done|done|]. apply Ht. set_solver.
    + by apply threadOk_none.
  - destruct Ho as [->|[rest ->]]; simpl; [done|]. apply exclusive_middle.
    split; [done|]. intros b _. by apply compat_none.
Qed.

Lemma worldOk_reachable accepts w : reachable accepts apart w -> worldOk w.
Proof.
  intros Hr. unfold reachable in Hr. remember noThreads as w0 eqn:E. assert (worldOk w0) as H0.
  { subst. split; simpl; [intros ? ?%elem_of_nil; done| |intros ? ?%elem_of_nil; done|done].
    intros t _ _. exists MManual. by intros ? ?%elem_of_nil. }
  clear E. induction Hr as [|w1 w2 w3 Hs _ IH]; [done|]. apply IH. clear IH.
  destruct Hs as [op w Ha|now l1 th l2 w Hl|l1 th l2 o w Hl Hre].
  - by apply worldOk_start.
  - destruct w as [s l failed]. simpl in *. subst. by apply worldOk_resume.
  - by eapply worldOk_reject.
Qed.

Lemma play_reachable accepts may l w : play accepts may l noThreads = Some w -> reachable accepts may w.
Proof.
  unfold reachable. generalize noThreads. induction l as [|mv l IH]; intros w0; simpl; [by intros [= ->]|].
  destruct (move accepts may w0 mv) as [w1|] eqn:E; [|done]. intros H. eapply rtc_l; [|by apply IH].
  destruct mv as [op|now i|i]; simpl in E.
  - destruct (may op w0) eqn:Em; [|done]. injection E as <-. by apply WStart.
  - destruct (threads w0 !! i) as [th|] eqn:Eth; [|done]. injection E as <-.
    apply WResume. symmetry. by apply take_drop_middle.
  - destruct (threads w0 !! i) as [th|] eqn:Eth; [|done]. destruct (reject th) eqn:Er; [|done].
    injection E as <-. apply WReject; [|done]. symmetry. by apply take_drop_middle.
Qed.

(** C12: the calls of the service interleave at every await, and any query can
    fail. In every state this reaches the permission settings of every row are
    those of its mode, so a row in manual mode asks for everything. And as
    long as calls that read or write the mode of one task do not overlap (two
    readers of a cached mode may, and so may everything else), the active
    sessions of a task are all in the same mode, the cached one when there is
    one: in every state, for every task whose mode is not just being updated
    and whose last update did not fail. [overlapping_mode_race] shows what an
    overlap does. *)
Theorem approval_mode_coherent accepts w :
  (reachable accepts anyStart w -> permissionsMatch (service w))
  /\ (reachable accepts apart w -> forall t,
        t ∉ failedUpdates w -> (forall m, SUpdate t m ∉ threads w) -> taskCoherent t (service w)).
Proof.
  split; [|intros Hr; apply (worldOk_reachable accepts w Hr)].
  unfold reachable. intros Hr. remember noThreads as w0 eqn:E. assert (permissionsMatch (service w0)) as H0.
  { subst. intros x Hx. by apply not_elem_of_nil in Hx. }
  clear E. induction Hr as [|w1 w2 w3 Hs _ IH]; [done|]. apply IH.
  destruct Hs; simpl; [|by apply resume_permissions|done].
  eapply permissions_same; [apply start_sessions|done].
Qed.

(** A permission requested by a session in manual mode is never answered by
    the service: no response is sent to the OpenCode server, the caller is told
    it is pending, and the request is kept, with its own task and session, for
    the user to answer. *)
Theorem manual_mode_asks_the_user accepts now sid pid tool desc data s se :
  findBySessionId sid (sessions s) = Some se -> se_mode se = MManual ->
  let '(h, s') := handlePermissionRequest accepts now sid pid tool desc data s in
  h = IsPending /\ occalls s' = occalls s
  /\ (exists p, JsMap.get pid (pendingPermissions s') = Some p
        /\ pe_sessionId p = sid /\ pe_taskId p = se_taskId se /\ pe_permissionId p = pid
        /\ p ∈ getPendingPermissions (se_taskId se) s')
  /\ (forall q, q <> pid -> JsMap.get q (pendingPermissions s') = JsMap.get q (pendingPermissions s)).
Proof.
  intros Hf Hm. unfold handlePermissionRequest. rewrite Hf, Hm. simpl. split_and!; try done.
  - eexists. rewrite JsMap.get_set_eq. split_and!; try done.
    unfold getPendingPermissions. apply list_elem_of_filter. split; [done|]. simpl.
    eapply JsMap.get_Some_values, JsMap.get_set_eq.
  - intros q Hq. by rewrite JsMap.get_set_ne by congruence.
Qed.

(** ** Draining the pending permissions *)

Definition known (sid : string) (ss : list Session) : Prop :=
  exists se, se ∈ ss /\ se_sessionId se = sid.

Lemma known_find sid ss : known sid ss -> is_Some (findBySessionId sid ss).
Proof.
  intros (se & Hse & Hid). unfold findBySessionId. apply fmap_is_Some.
  by eapply list_find_elem_of.
Qed.

Lemma find_known sid ss se : findBySessionId sid ss = Some se -> known sid ss.
Proof. intros [? ?]%findBySessionId_elem. by exists se. Qed.

Lemma known_update p f ss sid :
  (forall s, se_sessionId (f s) = se_sessionId s) -> known sid ss -> known sid (updateWhere p f ss).
Proof.
  intros Hf (se & Hse & Hid). exists (if p se then f se else se). split.
  - apply elem_updateWhere. eauto.
  - destruct (p se); [by rewrite Hf|done].
Qed.

Lemma known_resume accepts now th s sid :
  known sid (sessions s) -> known sid (sessions (resume accepts now th s).1).
Proof.
  intros Hk. destruct th as [| |? ? t' ? ? m'| |t' m'|?|? ? [|x rest]|[|x rest]| | | | | | | | | | | |];
    simpl; repeat case_match; simpl; try done; try by apply known_update.
  - destruct Hk as (se & ? & ?). exists se. split; [|done]. unfold create. set_solver.
  - unfold syncSession. by case_bool_decide.
Qed.

(** A pending permission is filed under its own id and belongs to a session of
    the table. *)
Definition pendOk (s : State) : Prop :=
  JsMap.wf (pendingPermissions s)
  /\ forall pid p, JsMap.get pid (pendingPermissions s) = Some p ->
       pe_permissionId p = pid /\ known (pe_sessionId p) (sessions s).

Definition requestKnown (th : Thread) (s : State) : Prop :=
  match th with HFound _ sid _ _ _ _ => known sid (sessions s) | _ => True end.

Lemma pendOk_sub s s' :
  JsMap.wf (pendingPermissions s') ->
  (forall pid p, JsMap.get pid (pendingPermissions s') = Some p ->
     JsMap.get pid (pendingPermissions s) = Some p) ->
  (forall sid, known sid (sessions s) -> known sid (sessions s')) ->
  pendOk s -> pendOk s'.
Proof. intros Hw Hg Hk [_ H]. split; [done|]. intros pid p Hp. destruct (H pid p (Hg _ _ Hp)). auto. Qed.

Lemma pendOk_deleteWhere f s s' :
  pendingPermissions s' = JsMap.deleteWhere f (pendingPermissions s) -> sessions s' = sessions s ->
  pendOk s -> pendOk s'.
Proof.
  intros Ep Es Hp. pose proof Hp as [Hw _]. apply (pendOk_sub s); rewrite ?Ep, ?Es; [auto with jsmap| |done|exact Hp].
  intros q p. rewrite JsMap.get_deleteWhere by done. repeat case_match; congruence.
Qed.

Lemma pendOk_same s s' :
  pendingPermissions s' = pendingPermissions s ->
  (forall sid, known sid (sessions s) -> known sid (sessions s')) -> pendOk s -> pendOk s'.
Proof. intros E Hk Hp. apply (pendOk_sub s); rewrite ?E; [apply Hp|done|done|exact Hp]. Qed.

Lemma pendOk_delete pid s :
  pendOk s -> pendOk (withPendings (JsMap.delete pid (pendingPermissions s)) s).
Proof.
  intros Hp. pose proof Hp as [Hw _]. apply (pendOk_sub s); simpl; [auto with jsmap| |done|exact Hp].
  intros q x. destruct (decide (q = pid)) as [->|Hne].
  - by rewrite JsMap.get_delete_eq.
  - by rewrite JsMap.get_delete_ne.
Qed.

Lemma pendOk_resume accepts now th s :
  requestKnown th s -> pendOk s -> pendOk (resume accepts now th s).1.
Proof.
  intros Hr Hp.
  assert (pendingPermissions (resume accepts now th s).1 = pendingPermissions s ->
    pendOk (resume accepts now th s).1) as Hsame.
  { intros E. eapply pendOk_same; [done| |done]. intros sid. apply known_resume. }
  destruct th as [| | | | | |? ? [|x rest]|[|x rest]| | |pid p r rest| | | |se sid pid| | | | |];
    try (apply Hsame; simpl; repeat case_match; done); simpl.
  - apply Hsame. simpl. unfold syncSession. by case_bool_decide.
  - destruct (accepts _ _ _); [by apply pendOk_delete|done].
  - destruct (autoMode _); [by apply (pendOk_same s)|]. destruct Hp as [Hw Hg].
    split; simpl; [auto with jsmap|]. intros q p Hq. destruct (decide (pid = q)) as [->|Hne].
    + rewrite JsMap.get_set_eq in Hq. by injection Hq as <-.
    + rewrite JsMap.get_set_ne in Hq by congruence. auto.
  - by eapply pendOk_deleteWhere; [done..|].
Qed.

Lemma pendOk_start op s : pendOk s -> pendOk (start op s).1.
Proof.
  destruct op; simpl; try (unfold startGet; repeat case_match); try done.
  apply pendOk_deleteWhere with (f := fun _ p => bool_decide (pe_taskId p = t)); done.
Qed.

Lemma requestKnown_new accepts now th s th' :
  (resume accepts now th s).2 = Some th' -> requestKnown th' (resume accepts now th s).1.
Proof.
  destruct th as [? k|? ? k| | | | |? ? [|x rest]|[|x rest]| | | | | | | | | | | |]; simpl; intros H;
    try destruct k; simpl in H; repeat case_match; simplify_eq/=; try done.
  apply fmap_Some in H as (se & Hf & ->). simpl. by eapply find_known.
Qed.

Lemma start_request op s th s' : (start op s).2 = Some th -> requestKnown th s'.
Proof. destruct op; simpl; try unfold startGet; repeat case_match; intros; simplify_eq/=; done. Qed.

Lemma reject_request th o b s : reject th = Some o -> b ∈ restart o -> requestKnown b s.
Proof.
  destruct th; simpl; intros; simplify_eq/=; try by match goal with H : _ ∈ [] |- _ => apply not_elem_of_nil in H end.
  match goal with H : _ ∈ [_] |- _ => by apply list_elem_of_singleton in H as -> end.
Qed.

Lemma pendOk_reachable accepts may w : reachable accepts may w -> pendOk (service w).
Proof.
  intros Hr. unfold reachable in Hr. remember noThreads as w0 eqn:E.
  assert (pendOk (service w0) /\ forall th, th ∈ threads w0 -> requestKnown th (service w0)) as H0.
  { subst. split; [split; [apply JsMap.wf_empty|done]|]. by intros ? ?%not_elem_of_nil. }
  clear E. induction Hr as [|w1 w2 w3 Hs _ IH]; [tauto|]. apply IH. clear IH. destruct H0 as [Hp Ht].
  destruct Hs as [op w Hm|now l1 th l2 w Hl|l1 th l2 o w Hl Hre]; simpl in *.
  - split; [by apply pendOk_start|]. intros b [Hb|Hb]%elem_of_app.
    + specialize (Ht b Hb). destruct b; try done. simpl in *. by rewrite start_sessions.
    + destruct (start op (service w)).2 eqn:E; simpl in Hb; [|by apply not_elem_of_nil in Hb].
      apply list_elem_of_singleton in Hb as ->. by eapply start_request.
  - rewrite Hl in Ht. split; [apply pendOk_resume; [apply Ht; set_solver|done]|]. intros b Hb.
    assert (b ∈ l1 ++ l2 \/ (resume accepts now th (service w)).2 = Some b) as [Hb'|Hb'].
    { destruct (resume accepts now th (service w)).2; simpl in *; set_solver. }
    + assert (requestKnown b (service w)) as Hk by (apply Ht; set_solver).
      destruct b; try done. by apply known_resume.
    + by apply requestKnown_new.
  - rewrite Hl in Ht. split; [done|]. intros b Hb.
    assert (b ∈ l1 ++ l2 \/ b ∈ restart o) as [Hb'|Hb'] by set_solver; [apply Ht; set_solver|].
    by eapply reject_request.
Qed.

(** An answer the client takes. *)
Lemma respond_taken accepts now pid r s p :
  JsMap.get pid (pendingPermissions s) = Some p -> known (pe_sessionId p) (sessions s) ->
  accepts (pe_sessionId p) pid r = true ->
  let s' := (respondToPermission accepts now pid r s).2 in
  pendingPermissions s' = JsMap.delete pid (pendingPermissions s)
  /\ taskApprovalModes s' = taskApprovalModes s
  /\ sessions s' = clearPendingPermission now (pe_sessionId p) (sessions s)
  /\ occalls s' = occalls s ++ [OcRespond (pe_sessionId p) pid r]
  /\ events s' = events s ++ [EvPermissionResponded (pe_taskId p) (pe_sessionId p) pid r].
Proof.
  intros Hg [se Hf]%known_find Ha. unfold respondToPermission. by rewrite Hg, Hf, Ha.
Qed.

Lemma filter_same {A} (P Q : A -> Prop) `{!forall x, Decision (P x), !forall x, Decision (Q x)} (l : list A) :
  (forall x, x ∈ l -> P x <-> Q x) -> base.filter P l = base.filter Q l.
Proof.
  induction l as [|x l IH]; intros Hx; [done|]. rewrite !filter_cons.
  rewrite IH by (intros y Hy; apply Hx; by apply list_elem_of_further).
  pose proof (Hx x (list_elem_of_here _ _)). repeat case_decide; naive_solver.
Qed.

Lemma filter_everything {A} (P : A -> Prop) `{!forall x, Decision (P x)} (l : list A) :
  (forall x, P x) -> base.filter P l = l.
Proof. intros Hp. induction l as [|x l IH]; [done|]. rewrite filter_cons, decide_True by done. by f_equal. Qed.

Definition clearAll (now : Z) (l : list PendingPermission) (ss : list Session) : list Session :=
  fold_left (fun ss p => clearPendingPermission now (pe_sessionId p) ss) l ss.
Definition answersTo (l : list PendingPermission) : list OcCall :=
  (fun p => OcRespond (pe_sessionId p) (pe_permissionId p) Always) <$> l.
Definition answerEvents (l : list PendingPermission) : list ModeEvent :=
  (fun p => EvPermissionResponded (pe_taskId p) (pe_sessionId p) (pe_permissionId p) Always) <$> l.

(** Answering a list of distinct pending permissions. *)
Lemma drain_all accepts now l s :
  (forall sid pid, accepts sid pid Always = true) ->
  NoDup (pe_permissionId <$> l) ->
  (forall p, p ∈ l -> JsMap.get (pe_permissionId p) (pendingPermissions s) = Some p
                      /\ known (pe_sessionId p) (sessions s)) ->
  let s' := fold_left (fun s p => (respondToPermission accepts now (pe_permissionId p) Always s).2) l s in
  pendingPermissions s' = base.filter (fun e => e.1 ∉ pe_permissionId <$> l) (pendingPermissions s)
  /\ taskApprovalModes s' = taskApprovalModes s
  /\ sessions s' = clearAll now l (sessions s)
  /\ occalls s' = occalls s ++ answersTo l
  /\ events s' = events s ++ answerEvents l.
Proof.
  intros Hacc. revert s. induction l as [|p l IH]; intros s Hnd Hl.
  { simpl. rewrite !app_nil_r. split_and!; try done. symmetry. apply filter_everything.
    intros e H. by apply not_elem_of_nil in H. }
  rewrite fmap_cons in Hnd; apply list.NoDup_cons in Hnd as [Hp Hnd]. destruct (Hl p (list_elem_of_here _ _)) as [Hg Hk].
  destruct (respond_taken accepts now _ Always s p Hg Hk (Hacc _ _)) as (E1 & E2 & E3 & E4 & E5).
  simpl. set (s1 := (respondToPermission accepts now (pe_permissionId p) Always s).2) in *.
  destruct (IH s1 Hnd) as (H1 & H2 & H3 & H4 & H5).
  { intros q Hq. destruct (Hl q) as [Hgq Hkq]; [by apply list_elem_of_further|]. split.
    - rewrite E1, JsMap.get_delete_ne; [done|]. intros Heq. apply Hp. rewrite Heq. by apply list_elem_of_fmap_2.
    - rewrite E3. by apply known_update. }
  rewrite H1, H2, H3, H4, H5, E1, E2, E3, E4, E5. unfold JsMap.delete.
  rewrite list_filter_filter, <-!app_assoc. split_and!; try done.
  apply list_filter_iff. intros e. simpl. rewrite elem_of_cons. naive_solver.
Qed.

(** The pending permissions of a task, in a state where they are well filed. *)
Lemma pendings_of t s :
  pendOk s ->
  NoDup (pe_permissionId <$> getPendingPermissions t s)
  /\ (forall p, p ∈ getPendingPermissions t s ->
        JsMap.get (pe_permissionId p) (pendingPermissions s) = Some p /\ known (pe_sessionId p) (sessions s))
  /\ (forall e, e ∈ pendingPermissions s ->
        e.1 ∉ pe_permissionId <$> getPendingPermissions t s <-> pe_taskId e.2 <> t).
Proof.
  intros [Hw Hg].
  assert (forall e, e ∈ pendingPermissions s -> JsMap.get e.1 (pendingPermissions s) = Some e.2) as Hin.
  { intros [k p] He. by apply JsMap.get_Some_iff. }
  assert (forall p, p ∈ getPendingPermissions t s -> pe_taskId p = t /\
    JsMap.get (pe_permissionId p) (pendingPermissions s) = Some p /\ known (pe_sessionId p) (sessions s)) as Hp.
  { intros p [Ht (e & -> & He)%list_elem_of_fmap]%list_elem_of_filter.
    specialize (Hin e He). destruct (Hg _ _ Hin) as [Hid Hk]. rewrite Hid. done. }
  split_and!.
  - assert (pe_permissionId <$> JsMap.values (pendingPermissions s) = JsMap.keys (pendingPermissions s)) as Ek.
    { unfold JsMap.values, JsMap.keys. rewrite <-list_fmap_compose. apply list_fmap_ext.
      intros i e He. simpl. apply (Hg e.1), Hin. by eapply list_elem_of_lookup_2. }
    unfold JsMap.wf in Hw. rewrite <-Ek in Hw. eapply sublist_NoDup; [exact Hw|].
    apply fmap_sublist, sublist_filter.
  - intros p H. by apply Hp.
  - intros e He. split.
    + intros Hn Ht. apply Hn. destruct (Hg _ _ (Hin e He)) as [<- _]. apply list_elem_of_fmap_2.
      apply list_elem_of_filter. split; [done|]. by apply list_elem_of_fmap_2.
    + intros Hne (p & Ep & H)%list_elem_of_fmap. destruct (Hp p H) as (Ht & Hget & _).
      rewrite <-Ep in Hget. rewrite (Hin e He) in Hget. congruence.
Qed.

Lemma findByTaskId_fmap f t ss :
  (forall s, se_taskId (f s) = se_taskId s) -> findByTaskId t (f <$> ss) = f <$> findByTaskId t ss.
Proof.
  intros Hf. unfold findByTaskId. rewrite fmap_reverse. f_equal.
  induction ss as [|x ss IH]; [done|]. rewrite fmap_cons, !filter_cons, Hf.
  case_decide; [|done]. by rewrite fmap_cons, IH.
Qed.

(** The calls of the loop over the sessions of a task. *)
Lemma syncSession_calls m l s :
  occalls (fold_left (syncSession m) l s)
  = occalls s ++ ((fun se => if autoMode m then OcEnable (se_sessionId se) (se_directory se)
                             else OcDisable (se_sessionId se) (se_directory se))
                  <$> base.filter (fun se => se_status se = Active) l)
  /\ events (fold_left (syncSession m) l s) = events s.
Proof.
  revert s. induction l as [|x l IH]; intros s; simpl; [by rewrite app_nil_r|].
  destruct (IH (syncSession m s x)) as [-> ->]. unfold syncSession. rewrite filter_cons.
  case_bool_decide; case_decide; try done. simpl. by rewrite <-app_assoc.
Qed.

Lemma active_switched now m t (l : list Session) :
  (fun se => OcEnable (se_sessionId se) (se_directory se))
    <$> base.filter (fun se => se_status se = Active)
          ((fun se => if isActiveOf t se then SessionRepository.withMode now m se else se) <$> l)
  = (fun se => OcEnable (se_sessionId se) (se_directory se))
    <$> base.filter (fun se => se_status se = Active) l.
Proof.
  induction l as [|x l IH]; [done|]. rewrite fmap_cons, !filter_cons.
  assert (se_status (if isActiveOf t x then SessionRepository.withMode now m x else x) = se_status x) as ->
    by (by destruct (isActiveOf t x)).
  case_decide; [|done]. rewrite !fmap_cons, IH. f_equal. by destruct (isActiveOf t x).
Qed.

Lemma switched_calls now t m s :
  autoMode m = true ->
  occalls (switched now t m s)
  = occalls s ++ ((fun se => OcEnable (se_sessionId se) (se_directory se))
                  <$> base.filter (fun se => se_status se = Active) (findByTaskId t (sessions s)))
  /\ events (switched now t m s) = events s ++ [EvModeChanged t m].
Proof.
  intros Hm. unfold switched. simpl. unfold updateWhere. rewrite findByTaskId_fmap.
  2:{ intros x. by destruct (isActiveOf t x). }
  match goal with |- context [fold_left _ ?l ?s0] => destruct (syncSession_calls m l s0) as [-> ->] end.
  rewrite Hm, active_switched. done.
Qed.

Lemma clearAll_allIn now l t m s :
  allIn t m s -> allIn t m (onSessions (clearAll now l) s).
Proof.
  revert s. induction l as [|p l IH]; intros s H; [exact H|].
  apply (IH (onSessions (clearPendingPermission now (pe_sessionId p)) s)).
  apply allIn_harmless; [apply harmless_pending|done].
Qed.

(** C13: switching a task to an automatic mode answers everything that waits.
    The calls may have interleaved in any way before; from there the call runs
    alone, its queries succeed and the OpenCode client throws at no answer.
    Then the call ends; it has enabled auto-approval for each active session of
    the task, newest first, and sent [always] for each pending permission of the
    task, in their order and to the session that asked, and nothing else; it has
    announced the change and each answer. What is still pending are exactly the
    permissions of the other tasks, unchanged; the mode is cached, the active
    sessions of the task are in it, and no other row has changed but for the
    pending column. *)
Theorem auto_mode_drains_pending accepts now t m w :
  reachable accepts anyStart w -> autoMode m = true ->
  (forall sid pid, accepts sid pid Always = true) ->
  let s := service w in
  let l := getPendingPermissions t s in
  exists s', alone accepts now (OpSet t m) s s'
  /\ occalls s' = occalls s
       ++ ((fun se => OcEnable (se_sessionId se) (se_directory se))
             <$> base.filter (fun se => se_status se = Active) (findByTaskId t (sessions s)))
       ++ answersTo l
  /\ events s' = events s ++ EvModeChanged t m :: answerEvents l
  /\ pendingPermissions s' = base.filter (fun e => pe_taskId e.2 <> t) (pendingPermissions s)
  /\ taskApprovalModes s' = JsMap.set t m (taskApprovalModes s)
  /\ sessions s' = clearAll now l (updateWhere (isActiveOf t) (SessionRepository.withMode now m) (sessions s))
  /\ allIn t m s'.
Proof.
  intros Hr Hm Hacc s l. pose proof (pendOk_reachable accepts _ w Hr) as Hp. fold s in Hp.
  destruct (switched_fields now t m s) as (Es & Em & Ep). destruct (switched_calls now t m s Hm) as [Eo Ee].
  destruct (pendings_of t s Hp) as (Hnd & Hl & Hf). fold l in Hnd, Hl, Hf.
  destruct (drain_all accepts now l (switched now t m s) Hacc Hnd) as (H1 & H2 & H3 & H4 & H5).
  { intros p Hin. rewrite Ep, Es. destruct (Hl p Hin). split; [done|]. by apply known_update. }
  exists (setApprovalMode accepts now t m s). split; [apply uninterrupted_run|].
  unfold setApprovalMode. fold (switched now t m s). rewrite Hm. unfold processAllPendingPermissions.
  assert (getPendingPermissions t (switched now t m s) = l) as -> by (unfold getPendingPermissions; by rewrite Ep).
  rewrite H1, H2, H3, H4, H5, Eo, Ee, Ep, Em, Es, <-!app_assoc. split_and!; try done.
  - by apply filter_same.
  - apply (allIn_same _ _ (onSessions (clearAll now l) (switched now t m s))).
    { rewrite H3. done. }
    apply clearAll_allIn. intros x Hx Ha. rewrite Es in Hx. apply elem_updateWhere in Hx as (y & Hy & ->).
    destruct (isActiveOf t y) eqn:E; [done|congruence].
Qed.

(** ** Concrete runs *)

Definition acceptAll (_ _ : string) (_ : Response) : bool := true.

Definition resumesOf (l : list nat) : list Move := MResume 1 <$> l.

Definition worldOf (accepts : string -> string -> Response -> bool) (may : Op -> World -> bool)
    (l : list Move) : World := default noThreads (play accepts may l noThreads).

(** The sessions of two tasks are registered at once, and the first asks for a
    permission; then the mode of the first task is changed while the row of the
    second is still being inserted. *)
Definition demoRequest : list Move :=
  [MStart (OpRegister "r1" "s1" "t1" "/w" None); MStart (OpRegister "r2" "s2" "t2" "/w" None)]
  ++ resumesOf [0; 1; 0; 0; 1; 0] ++ [MStart (OpRequest "s1" "p1" "bash" "rm" "{}")]
  ++ resumesOf [1; 1; 1; 1].
Definition demoSwitch : list Move := demoRequest ++ [MStart (OpSet "t1" MWork)] ++ resumesOf [1].

Lemma worldOf_reachable accepts may l :
  is_Some (play accepts may l noThreads) -> reachable accepts may (worldOf accepts may l).
Proof. intros [w E]. apply (play_reachable accepts may l). unfold worldOf. by rewrite E. Qed.

(** A session that is registered while its task goes from all to manual: the
    mode is manual, the new row is in mode all, and its requests are approved
    without the user. *)
Definition raceMoves : list Move :=
  [MStart (OpSet "t1" MAll)] ++ resumesOf [0; 0; 0; 0]
  ++ [MStart (OpRegister "r1" "s1" "t1" "/w" None); MStart (OpSet "t1" MManual)]
  ++ resumesOf [1; 0; 0; 0; 0; 0].

Lemma overlapping_mode_race :
  exists w, reachable acceptAll anyStart w /\ threads w = [] /\ failedUpdates w = []
  /\ JsMap.get "t1" (taskApprovalModes (service w)) = Some MManual
  /\ ~ taskCoherent "t1" (service w)
  /\ (handlePermissionRequest acceptAll 2 "s1" "p1" "bash" "rm" "{}" (service w)).1 = AutoApproved.
Proof.
  exists (worldOf acceptAll anyStart raceMoves). split; [apply worldOf_reachable; vm_compute; eauto|].
  split_and!; try (vm_compute; reflexivity). intros H.
  assert (exists se, se ∈ sessions (service (worldOf acceptAll anyStart raceMoves))
    /\ isActiveOf "t1" se = true /\ se_mode se = MAll) as (se & Hin & Ha & Hm).
  { eexists. split; [vm_compute; apply list_elem_of_here|]. split; vm_compute; reflexivity. }
  change (allIn "t1" MManual (service (worldOf acceptAll anyStart raceMoves))) in H.
  by rewrite (H se Hin Ha) in Hm.
Qed.

(** An UPDATE that fails after the mode has been cached: the task is said to be
    in mode all, its session still asks. *)
Definition failMoves : list Move :=
  [MStart (OpRegister "r1" "s1" "t1" "/w" None)] ++ resumesOf [0; 0; 0; 0]
  ++ [MStart (OpSet "t1" MAll); MReject 0].

Lemma failed_update_splits_the_mode :
  exists w, reachable acceptAll apart w /\ threads w = [] /\ failedUpdates w = ["t1"]
  /\ (getApprovalMode "t1" (service w)).1 = MAll
  /\ (handlePermissionRequest acceptAll 2 "s1" "p1" "bash" "rm" "{}" (service w)).1 = IsPending.
Proof.
  exists (worldOf acceptAll apart failMoves). split; [apply worldOf_reachable; vm_compute; eauto|].
  split_and!; vm_compute; reflexivity.
Qed.

Lemma approval_mode_coherent_witness :
  let w := worldOf acceptAll apart demoSwitch in
  length (threads w) = 2 /\ length (sessions (service w)) = 1
  /\ JsMap.get "t1" (taskApprovalModes (service w)) = Some MWork
  /\ taskCoherent "t1" (service w).
Proof.
  split_and!; try (vm_compute; reflexivity).
  apply (approval_mode_coherent acceptAll (worldOf acceptAll apart demoSwitch)).
  - apply worldOf_reachable. vm_compute. eauto.
  - vm_compute. intros H. inversion H.
  - intros m H. vm_compute in H. repeat (inversion H as [|? ? ? H']; clear H; subst; rename H' into H).
Defined.

Definition demo1 : State := registerSession 1 "r1" "s1" "t1" "/w" None init.

Lemma manual_mode_asks_the_user_witness :
  (handlePermissionRequest acceptAll 2 "s1" "p1" "bash" "rm" "{}" demo1).1 = IsPending.
Proof.
  pose proof (manual_mode_asks_the_user acceptAll 2 "s1" "p1" "bash" "rm" "{}" demo1
    (newSession "r1" 1 {| cs_sessionId := "s1"; cs_taskId := "t1"; cs_directory := "/w";
       cs_phaseName := None; cs_mode := Some MManual; cs_permissions := noPermissions |})
    eq_refl eq_refl) as H.
  apply H.
Defined.

Lemma auto_mode_drains_pending_witness :
  exists s', alone acceptAll 3 (OpSet "t1" MWork) (service (worldOf acceptAll anyStart demoRequest)) s'
  /\ occalls s' = [OcEnable "s1" "/w"; OcRespond "s1" "p1" Always]
  /\ pendingPermissions s' = [].
Proof.
  destruct (auto_mode_drains_pending acceptAll 3 "t1" MWork (worldOf acceptAll anyStart demoRequest))
    as (s' & Hal & Ho & _ & Hp & _).
  - apply worldOf_reachable. vm_compute. eauto.
  - reflexivity.
  - reflexivity.
  - exists s'. split; [exact Hal|]. rewrite Ho, Hp. split; vm_compute; reflexivity.
Defined.

End ModeSpec.
