(* ===== verification/TaskTypes.v ===== *)
(** * Shared task types (src/types/index.ts)

    JSON columns whose content is only stored and shown are kept in serialised
    form (a [string]); the fields the orchestration reads are records. *)

From S2P Require Import Prelude JsNumber Json.
From stdpp Require Import options.

Inductive TaskStatus :=
  | Pending | Queued | Running | WaitingForApproval | Paused
  | Completed | Failed | Cancelled | Interrupted.

#[global] Instance TaskStatus_eq_dec : EqDecision TaskStatus.
Proof. solve_decision. Defined.

Inductive StoryStatus := StoryPending | StoryInProgress | StoryCompleted | StoryFailed.

#[global] Instance StoryStatus_eq_dec : EqDecision StoryStatus.
Proof. solve_decision. Defined.

(** [VOther] stands for any other value: the verdicts come out of a language
    model and are not checked when they are parsed. *)
Inductive Verdict := VApproved | VRejected | VNeedsRevision | VOther.

#[global] Instance Verdict_eq_dec : EqDecision Verdict.
Proof. solve_decision. Defined.

(** [SevOther]: as for the verdicts, an unchecked answer. *)
Inductive Severity := SevLow | SevMedium | SevHigh | SevCritical | SevOther.

#[global] Instance Severity_eq_dec : EqDecision Severity.
Proof. solve_decision. Defined.

(** A vulnerability as the phases pass it on. *)
Record Vulnerability := {
  v_id : string;
  v_taskId : string;
  v_sessionId : string;
  v_phase : string;
  v_severity : Severity;
  v_type : string;
  v_blocked : bool;
  v_toolUseId : option string;
}.

Record Story := {
  s_id : string;
  s_title : string;
  s_description : string;
  s_status : StoryStatus;
  s_filesToModify : option (list string);
  s_filesToCreate : option (list string);
  s_filesToRead : option (list string);
  s_acceptanceCriteria : option (list string);
}.

Record StoryResult := {
  sr_id : string;
  sr_title : string;
  sr_description : string;
  sr_status : StoryStatus;
  sr_filesToModify : option (list string);
  sr_filesToCreate : option (list string);
  sr_filesToRead : option (list string);
  sr_acceptanceCriteria : option (list string);
  sr_iterations : nat;
  sr_verdict : Verdict;
  sr_score : option Json.Json;
  sr_issues : option Json.Json;
  sr_commitHash : option string;
  sr_vulnerabilities : list Vulnerability;
}.

Record RepositoryInfo := {
  r_id : string;
  r_name : string;
  r_type : string;
  r_localPath : string;
  r_executionOrder : option Z;
}.

Record AnalysisData := {
  an_summary : string;
  an_approach : string;
  an_risks : list string;
  an_vulnerabilities : list Vulnerability;
}.

Record AnalysisResult := {
  ar_success : bool;
  ar_sessionId : string;
  ar_analysis : AnalysisData;
  ar_stories : list StoryResult;
  ar_branchName : string;
  ar_error : option string;
}.

Record DeveloperResult := {
  dr_success : bool;
  dr_sessionId : string;
  dr_stories : list StoryResult;
  dr_totalCommits : nat;
  dr_error : option string;
}.

(** An element of the JSON array [completed_phases]: the rows written before
    the approved data was stored hold plain strings, [markPhaseComplete] writes
    objects. *)
Inductive PhaseEntry :=
  | PhaseString (phase : string)
  | PhaseObject (phase : string) (completedAt : Z) (approvedData : option string).

(** [a.includes(s)] for a string [s]: strict equality, never true of an object. *)
Definition entryIs (s : string) (e : PhaseEntry) : bool :=
  match e with
  | PhaseString p => bool_decide (p = s)
  | PhaseObject _ _ _ => false
  end.

Definition includesPhase (s : string) (l : list PhaseEntry) : bool := existsb (entryIs s) l.

(** [typeof p === 'string' ? p : p.phase], as the resume route reads them *)
Definition entryName (e : PhaseEntry) : string :=
  match e with
  | PhaseString p | PhaseObject p _ _ => p
  end.
