(* ===== verification/AgentSpy.v ===== *)
(** * Security spy (src/services/security/AgentSpy.ts)

    The service that looks for dangerous commands, secrets, traversals,
    injections and loops, in the events of an agent ([analyze]) and in the
    files of a workspace ([scanWorkspace], [scanAllRepositories]). Its three
    maps are the state [Spy]; generated ids are numbered. The file system and
    the functions of node's [path] module that rewrite paths are the class
    [NodeFs]. [requireDefined] says whether the name [require] is bound in the
    module, which is false under node's loader of ES modules (package.json
    declares [type: module]) and true under loaders that add it. Arguments of
    the tools are strings and numbers, as the tools' schemas say. *)

From S2P Require Import Prelude JsNumber Json Regex TaskTypes SpyPatterns.
From stdpp Require Import pretty.
From stdpp Require Import options.

Module AgentSpy.
Import Json SpyPatterns.

(** ** Data *)

Record SpyVulnerability := {
  vu_id : string;
  vu_taskId : string;
  vu_sessionId : string;
  vu_phase : string;
  vu_timestamp : Z;
  vu_severity : VulnerabilitySeverity;
  vu_type : VulnerabilityType;
  vu_description : string;
  vu_evidence : Json;
  vu_toolName : option string;
  vu_blocked : bool;
  vu_matchedPattern : option string;
  vu_category : string;
  vu_toolUseId : option string;
  vu_turnNumber : option nat;
  vu_owaspCategory : option string;
  vu_cweId : option string;
  vu_filePath : option string;
  vu_lineNumber : option Z;
  vu_codeSnippet : option string;
  vu_recommendation : option string;
  vu_workspacePath : option string;
  vu_absoluteFilePath : option string;
  vu_storyId : option string;
  vu_iteration : option Z;
  vu_repositoryName : option string;
  vu_repositoryType : option string;
}.

(** The counters by severity. *)
Record SeverityCounts := { n_low : nat; n_medium : nat; n_high : nat; n_critical : nat }.

Definition noCounts : SeverityCounts := {| n_low := 0; n_medium := 0; n_high := 0; n_critical := 0 |}.

(** [bySeverity[s]++] *)
Definition bumpSeverity (s : VulnerabilitySeverity) (c : SeverityCounts) : SeverityCounts :=
  match s with
  | low => {| n_low := S (n_low c); n_medium := n_medium c; n_high := n_high c; n_critical := n_critical c |}
  | medium => {| n_low := n_low c; n_medium := S (n_medium c); n_high := n_high c; n_critical := n_critical c |}
  | high => {| n_low := n_low c; n_medium := n_medium c; n_high := S (n_high c); n_critical := n_critical c |}
  | critical => {| n_low := n_low c; n_medium := n_medium c; n_high := n_high c; n_critical := S (n_critical c) |}
  end.

(** [m[k] = (m[k] || 0) + 1] *)
Definition bump (k : string) (m : JsMap.t nat) : JsMap.t nat :=
  JsMap.set k (S (default 0 (JsMap.get k m))) m.

Record SpyMetrics := {
  me_totalEvents : nat;
  me_toolCalls : nat;
  me_vulnerabilitiesDetected : nat;
  me_bySeverity : SeverityCounts;
  me_byType : JsMap.t nat;
  me_byCategory : JsMap.t nat;
}.

Definition createInitialMetrics : SpyMetrics :=
  {| me_totalEvents := 0; me_toolCalls := 0; me_vulnerabilitiesDetected := 0;
     me_bySeverity := noCounts; me_byType := []; me_byCategory := [] |}.

Record LoopState := { lo_count : nat; lo_lastTool : option string; lo_timestamp : Z }.

Record Spy := {
  sp_vulnerabilities : JsMap.t (list SpyVulnerability);
  sp_metrics : JsMap.t SpyMetrics;
  sp_loops : JsMap.t LoopState;
  sp_ids : nat;
}.

Definition initSpy : Spy :=
  {| sp_vulnerabilities := []; sp_metrics := []; sp_loops := []; sp_ids := 0 |}.

Record SpyContext := {
  cx_taskId : string;
  cx_sessionId : string;
  cx_phase : string;
  cx_storyId : option string;
  cx_workspacePath : option string;
  cx_iteration : option Z;
  cx_toolUseId : option string;
  cx_turnNumber : option nat;
}.

(** The second argument of [createVulnerability]. *)
Record Finding := {
  fd_severity : VulnerabilitySeverity;
  fd_type : VulnerabilityType;
  fd_category : string;
  fd_description : string;
  fd_evidence : Json;
  fd_toolName : option string;
  fd_blocked : bool;
  fd_matchedPattern : option string;
  fd_filePath : option string;
  fd_lineNumber : option Z;
  fd_codeSnippet : option string;
}.

(** ** What the service asks of node *)

Inductive EntryKind := KDir | KFile | KOther.
Record DirEntry := { en_name : string; en_kind : EntryKind }.
Record FileStat := { st_isFile : bool; st_size : Z }.

Class NodeFs := {
  readdirSync : string -> option (list DirEntry);
  statSync : string -> option FileStat;
  readFileSync : string -> option string;
  pathJoin : string -> string -> string;
  pathResolve : string -> string;
  requireDefined : bool;
}.

(** [path.isAbsolute] *)
Definition isAbsolute (p : string) : bool := JsStr.startsWith "/" p.

Definition lowerChar (c : Ascii.ascii) : Ascii.ascii := Ascii.ascii_of_N (Regex.lower (Regex.code c)).

Fixpoint toLowerCase (s : string) : string :=
  match s with EmptyString => EmptyString | String c s' => String (lowerChar c) (toLowerCase s') end.

(** The part of [s] from its last dot on. *)
Fixpoint fromLastDot (s : string) : option string :=
  match s with
  | EmptyString => None
  | String c s' =>
      match fromLastDot s' with
      | Some e => Some e
      | None => if bool_decide (c = "."%char) then Some s else None
      end
  end.

(** [path.extname] of a name: nothing when the only dot comes first. *)
Definition extname (name : string) : string :=
  match fromLastDot name with
  | Some e => if bool_decide (e = name) || bool_decide (name = "..") then "" else e
  | None => ""
  end.

Definition newline : Ascii.ascii := "010"%char.

(** [s.split('\n')] *)
Fixpoint splitLines (s : string) : list string :=
  match s with
  | EmptyString => [""]
  | String c s' =>
      if bool_decide (c = newline) then "" :: splitLines s'
      else match splitLines s' with
           | l :: ls => String c l :: ls
           | [] => [String c ""]
           end
  end.

(** ** Detection *)

Definition patternEvidence (key value : string) (p : Pattern) : Json :=
  JObj [(key, JStr value); ("pattern", JStr (toString p))].

Definition withType (t : VulnerabilityType) (l : list Pattern) : list (VulnerabilityType * Pattern) :=
  (fun p => (t, p)) <$> l.

(** [for (const { pattern, ... } of table) if (pattern.test(s)) detected.push(...)] *)
Definition detect (mk : VulnerabilityType -> Pattern -> Finding)
    (table : list (VulnerabilityType * Pattern)) (s : string) : list Finding :=
  omap (fun tp => if test tp.2 s then Some (mk tp.1 tp.2) else None) table.

Definition isCritical (s : VulnerabilitySeverity) : bool := bool_decide (s = critical).
Definition isCriticalOrHigh (s : VulnerabilitySeverity) : bool :=
  bool_decide (s = critical) || bool_decide (s = high).

Definition commandFinding (category : string) (blocked : VulnerabilitySeverity -> bool)
    (tool : option string) (command : string) (t : VulnerabilityType) (p : Pattern) : Finding :=
  {| fd_severity := pt_severity p; fd_type := t; fd_category := category;
     fd_description := pt_description p; fd_evidence := patternEvidence "command" command p;
     fd_toolName := tool; fd_blocked := blocked (pt_severity p);
     fd_matchedPattern := Some (toString p); fd_filePath := None; fd_lineNumber := None;
     fd_codeSnippet := None |}.

(** The six passes over a shell command. *)
Definition bashFindings (tool : option string) (command : string) : list Finding :=
  detect (commandFinding "system_destruction" isCritical tool command)
    (withType dangerous_command DANGEROUS_COMMANDS) command ++
  detect (commandFinding "network_attack" isCritical tool command) NETWORK_ATTACKS command ++
  detect (commandFinding "code_injection" isCriticalOrHigh tool command) CODE_INJECTION_PATTERNS command ++
  detect (commandFinding "persistence" isCritical tool command) PERSISTENCE_PATTERNS command ++
  detect (commandFinding "supply_chain" isCritical tool command) SUPPLY_CHAIN_PATTERNS command ++
  detect (commandFinding "privilege_escalation" isCritical tool command) CONTAINER_ESCAPE_PATTERNS command.

Record ToolArgs := {
  ta_command : option string;
  ta_file_path : option string;
  ta_path : option string;
  ta_content : option string;
  ta_new_string : option string;
  ta_old_string : option string;
  ta_line_number : option Z;
  ta_offset : option Z;
}.

(** [a || b] on strings and numbers that may be undefined *)
Definition orElse (a b : option string) : option string :=
  match JsStr.orNull a with Some s => Some s | None => JsStr.orNull b end.

Definition nonZero (n : option Z) : option Z :=
  match n with Some 0%Z => None | _ => n end.

Definition orElseZ (a b : option Z) : option Z :=
  match nonZero a with Some n => Some n | None => nonZero b end.

(** The first line that matches, with its index. *)
Fixpoint firstLine (p : Pattern) (i : nat) (ls : list string) : option (nat * string) :=
  match ls with
  | [] => None
  | l :: ls' => if test p l then Some (i, l) else firstLine p (S i) ls'
  end.

Definition pathFinding (tool : option string) (filePath : string) (lineNumber : option Z)
    (codeSnippet : option string) (t : VulnerabilityType) (p : Pattern) : Finding :=
  {| fd_severity := pt_severity p; fd_type := t; fd_category := "file_system";
     fd_description := pt_description p; fd_evidence := patternEvidence "filePath" filePath p;
     fd_toolName := tool; fd_blocked := isCritical (pt_severity p);
     fd_matchedPattern := Some (toString p); fd_filePath := Some filePath;
     fd_lineNumber := lineNumber; fd_codeSnippet := codeSnippet |}.

(** A secret in the text written to a file. *)
Definition secretFinding (prefix : string) (tool : option string) (filePath : string)
    (lineOf : nat -> Z) (lines : list string) (t : VulnerabilityType) (p : Pattern) : Finding :=
  let at_ := firstLine p 0 lines in
  {| fd_severity := pt_severity p; fd_type := t; fd_category := "secrets";
     fd_description := prefix +:+ pt_description p;
     fd_evidence := patternEvidence "filePath" filePath p;
     fd_toolName := tool; fd_blocked := false; fd_matchedPattern := Some (toString p);
     fd_filePath := Some filePath;
     fd_lineNumber := (fun x => lineOf x.1) <$> at_;
     fd_codeSnippet := (fun x => JsStr.take 200 x.2) <$> at_ |}.

Definition fileTools : list string := ["read"; "write"; "edit"].

(** The passes over a file operation. *)
Definition fileFindings (tool : string) (a : ToolArgs) : list Finding :=
  let filePath := default "" (orElse (ta_file_path a) (ta_path a)) in
  let content := default "" (orElse (ta_content a) (ta_new_string a)) in
  let lineNumber := orElseZ (ta_line_number a) (ta_offset a) in
  let codeSnippet :=
    match JsStr.orNull (ta_old_string a) with
    | Some s => Some (JsStr.take 200 s)
    | None => if JsStr.truthy content then Some (JsStr.take 200 content) else None
    end in
  detect (pathFinding (Some tool) filePath lineNumber codeSnippet)
    (withType path_traversal SENSITIVE_PATHS) filePath ++
  (if bool_decide (tool = "write") && JsStr.truthy content then
     detect (secretFinding "Writing secret to file: " (Some tool) filePath
               (fun i => (Z.of_nat i + 1)%Z) (splitLines content))
       (withType secret_exposure SECRET_PATTERNS) content
   else []) ++
  match bool_decide (tool = "edit"), JsStr.orNull (ta_new_string a) with
  | true, Some new =>
      detect (secretFinding "Editing file with secret: " (Some tool) filePath
                (fun i => match lineNumber with
                          | Some n => (n + Z.of_nat i)%Z
                          | None => (Z.of_nat i + 1)%Z end) (splitLines new))
        (withType secret_exposure SECRET_PATTERNS) new
  | _, _ => []
  end.

Definition toolText (tool : option string) : string := default "undefined" tool.

Definition loopFinding (tool : option string) (count : nat) (delta : Z) : Finding :=
  {| fd_severity := high; fd_type := infinite_loop; fd_category := "resource_exhaustion";
     fd_description := "Potential infinite loop: " +:+ toolText tool +:+ " called " +:+ pretty count
       +:+ " times in " +:+ pretty delta +:+ "ms";
     fd_evidence := JObj [("tool", match tool with Some t => JStr t | None => JNull end);
                          ("count", JNum (JsNum.ofZ (Z.of_nat count)));
                          ("timeDeltaMs", JNum (JsNum.ofZ delta))];
     fd_toolName := tool; fd_blocked := 20 <? count; fd_matchedPattern := Some "loop_detection";
     fd_filePath := None; fd_lineNumber := None; fd_codeSnippet := None |}.

(** Loop detection: the state of the session, and what it reports. *)
Definition loopStep (now : Z) (tool : option string) (s : option LoopState) : LoopState * list Finding :=
  match s with
  | Some st =>
      if bool_decide (lo_lastTool st = tool) then
        let n := S (lo_count st) in
        let delta := (now - lo_timestamp st)%Z in
        ({| lo_count := n; lo_lastTool := lo_lastTool st; lo_timestamp := lo_timestamp st |},
         if (10 <? n) && (delta <? 60000)%Z then [loopFinding tool n delta] else [])
      else ({| lo_count := 1; lo_lastTool := tool; lo_timestamp := now |}, [])
  | None => ({| lo_count := 1; lo_lastTool := tool; lo_timestamp := now |}, [])
  end.

(** Everything found before a tool runs, the loop apart. *)
Definition callFindings (tool : option string) (a : ToolArgs) : list Finding :=
  match bool_decide (tool = Some "bash"), JsStr.orNull (ta_command a) with
  | true, Some command => bashFindings tool command
  | _, _ => []
  end ++
  match tool with
  | Some t => if bool_decide (t ∈ fileTools) then fileFindings t a else []
  | None => []
  end.

Definition analyzeToolBefore (now : Z) (tool : option string) (a : ToolArgs) (s : option LoopState)
    : LoopState * list Finding :=
  let '(st, l) := loopStep now tool s in (st, callFindings tool a ++ l).

(** The first pattern of a table that matches: [for ... { ...; break; }]. *)
Fixpoint firstPattern (table : list Pattern) (s : string) : option Pattern :=
  match table with
  | [] => None
  | p :: table' => if test p s then Some p else firstPattern table' s
  end.

Definition outputFinding (tool : option string) (text : string) (p : Pattern) : Finding :=
  {| fd_severity := pt_severity p; fd_type := secret_exposure; fd_category := "secrets";
     fd_description := "Secret in tool output: " +:+ pt_description p;
     fd_evidence := JObj [("tool", match tool with Some t => JStr t | None => JNull end);
       ("pattern", JStr (toString p));
       ("preview", JStr (JsStr.take 100 text +:+ (if 100 <? JsStr.length text then "..." else "")))];
     fd_toolName := tool; fd_blocked := false; fd_matchedPattern := Some (toString p);
     fd_filePath := None; fd_lineNumber := None; fd_codeSnippet := None |}.

(** [typeof result === 'string' ? result : JSON.stringify(result)] of
    [properties.result || ''] *)
Definition resultText (stringify : Json -> string) (result : option Json) : string :=
  match result with
  | Some (JStr s) => s
  | Some v => if truthy v then stringify v else ""
  | None => ""
  end.

Definition analyzeToolAfter (stringify : Json -> string) (tool : option string) (result : option Json)
    : list Finding :=
  let text := resultText stringify result in
  match firstPattern SECRET_PATTERNS text with
  | Some p => [outputFinding tool text p]
  | None => []
  end.

Definition messageSecret (p : Pattern) : Finding :=
  {| fd_severity := if isCritical (pt_severity p) then high else pt_severity p;
     fd_type := secret_exposure; fd_category := "secrets";
     fd_description := "Secret in agent message: " +:+ pt_description p;
     fd_evidence := JObj [("pattern", JStr (toString p))];
     fd_toolName := None; fd_blocked := false; fd_matchedPattern := Some (toString p);
     fd_filePath := None; fd_lineNumber := None; fd_codeSnippet := None |}.

Definition injectionFinding (text : string) (t : VulnerabilityType) (p : Pattern) : Finding :=
  {| fd_severity := pt_severity p; fd_type := t; fd_category := "prompt_injection";
     fd_description := pt_description p;
     fd_evidence := JObj [("textPreview", JStr (JsStr.take 200 text)); ("pattern", JStr (toString p))];
     fd_toolName := None; fd_blocked := isCritical (pt_severity p);
     fd_matchedPattern := Some (toString p); fd_filePath := None; fd_lineNumber := None;
     fd_codeSnippet := None |}.

Definition looksHallucinated (text : string) : bool :=
  (JsStr.includes "I cannot" text && JsStr.includes "but I will" text)
  || (JsStr.includes "I'm not able to" text && JsStr.includes "however" text)
  || JsStr.includes "let me pretend" text
  || JsStr.includes "I'll imagine" text.

Definition hallucinationFinding (text : string) : Finding :=
  {| fd_severity := low; fd_type := hallucination; fd_category := "ai_behavior";
     fd_description := "Agent may be hallucinating capabilities";
     fd_evidence := JObj [("textPreview", JStr (JsStr.take 200 text))];
     fd_toolName := None; fd_blocked := false; fd_matchedPattern := Some "hallucination_heuristic";
     fd_filePath := None; fd_lineNumber := None; fd_codeSnippet := None |}.

Definition messageFindings (text : string) : list Finding :=
  match firstPattern SECRET_PATTERNS text with Some p => [messageSecret p] | None => [] end ++
  detect (injectionFinding text) PROMPT_INJECTION_PATTERNS text ++
  (if looksHallucinated text then [hallucinationFinding text] else []).

(** A part of a message: its type and its text. *)
Definition analyzeMessage (part : option (string * option string)) : list Finding :=
  match part with
  | Some (ty, t) =>
      match bool_decide (ty = "text"), JsStr.orNull t with
      | true, Some text => messageFindings text
      | _, _ => []
      end
  | None => []
  end.

(** The events the service looks at. *)
Inductive SpyEvent :=
  | ToolBefore (tool : option string) (args : ToolArgs)
  | ToolAfter (tool : option string) (result : option Json)
  | PartUpdated (part : option (string * option string))
  | OtherEvent.

(** ** Creating and storing vulnerabilities *)

Section service.
Context `{NodeFs}.
Variable stringify : Json -> string.
Variable genId : nat -> string.

(** [absoluteFilePath]; the call of [require] throws where it is not bound. *)
Definition absolutePath (ctx : SpyContext) (f : Finding) : outcome (option string) :=
  match JsStr.orNull (cx_workspacePath ctx), JsStr.orNull (fd_filePath f) with
  | Some ws, Some file =>
      if requireDefined then Ok (Some (if isAbsolute file then file else pathJoin ws file))
      else Throw "require is not defined"
  | _, _ => Ok None
  end.

Definition createVulnerability (now : Z) (ctx : SpyContext) (n : nat) (f : Finding)
    : outcome SpyVulnerability :=
  match absolutePath ctx f with
  | Throw e => Throw e
  | Ok abs =>
      Ok {| vu_id := genId n; vu_taskId := cx_taskId ctx; vu_sessionId := cx_sessionId ctx;
            vu_phase := cx_phase ctx; vu_timestamp := now; vu_severity := fd_severity f;
            vu_type := fd_type f; vu_description := fd_description f; vu_evidence := fd_evidence f;
            vu_toolName := fd_toolName f; vu_blocked := fd_blocked f;
            vu_matchedPattern := fd_matchedPattern f; vu_category := fd_category f;
            vu_toolUseId := cx_toolUseId ctx; vu_turnNumber := cx_turnNumber ctx;
            vu_owaspCategory := Some (OWASP_MAPPINGS (fd_type f));
            vu_cweId := Some (CWE_MAPPINGS (fd_type f)); vu_filePath := fd_filePath f;
            vu_lineNumber := fd_lineNumber f; vu_codeSnippet := fd_codeSnippet f;
            vu_recommendation := Some (RECOMMENDATIONS (fd_type f));
            vu_workspacePath := cx_workspacePath ctx; vu_absoluteFilePath := abs;
            vu_storyId := cx_storyId ctx; vu_iteration := cx_iteration ctx;
            vu_repositoryName := None; vu_repositoryType := None |}
  end.

(** The vulnerabilities of the findings, in order, each with the next id. *)
Fixpoint createAll (now : Z) (ctx : SpyContext) (n : nat) (fs : list Finding)
    : outcome (list SpyVulnerability) :=
  match fs with
  | [] => Ok []
  | f :: fs' =>
      match createVulnerability now ctx n f with
      | Throw e => Throw e
      | Ok v => match createAll now ctx (S n) fs' with
                | Throw e => Throw e
                | Ok vs => Ok (v :: vs)
                end
      end
  end.

(** One turn of the loop that updates the metrics. *)
Definition countVulnerability (m : SpyMetrics) (v : SpyVulnerability) : SpyMetrics :=
  {| me_totalEvents := me_totalEvents m; me_toolCalls := me_toolCalls m;
     me_vulnerabilitiesDetected := S (me_vulnerabilitiesDetected m);
     me_bySeverity := bumpSeverity (vu_severity v) (me_bySeverity m);
     me_byType := bump (typeName (vu_type v)) (me_byType m);
     me_byCategory := bump (vu_category v) (me_byCategory m) |}.

Definition metricsOf (taskId : string) (s : Spy) : SpyMetrics :=
  default createInitialMetrics (JsMap.get taskId (sp_metrics s)).

Definition getVulnerabilities (taskId : string) (s : Spy) : list SpyVulnerability :=
  default [] (JsMap.get taskId (sp_vulnerabilities s)).

Definition getMetrics (taskId : string) (s : Spy) : option SpyMetrics :=
  JsMap.get taskId (sp_metrics s).

(** Store what was detected and count it; nothing happens without a detection. *)
Definition storeDetected (taskId : string) (detected : list SpyVulnerability) (s : Spy) : Spy :=
  match detected with
  | [] => s
  | _ =>
      {| sp_vulnerabilities :=
           JsMap.set taskId (getVulnerabilities taskId s ++ detected) (sp_vulnerabilities s);
         sp_metrics :=
           JsMap.set taskId (fold_left countVulnerability detected (metricsOf taskId s)) (sp_metrics s);
         sp_loops := sp_loops s; sp_ids := sp_ids s |}
  end.

Definition setMetrics (taskId : string) (m : SpyMetrics) (s : Spy) : Spy :=
  {| sp_vulnerabilities := sp_vulnerabilities s; sp_metrics := JsMap.set taskId m (sp_metrics s);
     sp_loops := sp_loops s; sp_ids := sp_ids s |}.

Definition setLoop (session : string) (l : LoopState) (s : Spy) : Spy :=
  {| sp_vulnerabilities := sp_vulnerabilities s; sp_metrics := sp_metrics s;
     sp_loops := JsMap.set session l (sp_loops s); sp_ids := sp_ids s |}.

Definition useIds (n : nat) (s : Spy) : Spy :=
  {| sp_vulnerabilities := sp_vulnerabilities s; sp_metrics := sp_metrics s;
     sp_loops := sp_loops s; sp_ids := sp_ids s + n |}.

(** The event counted. *)
Definition countEvent (taskId : string) (isTool : bool) (s : Spy) : Spy :=
  let m := metricsOf taskId s in
  setMetrics taskId
    {| me_totalEvents := S (me_totalEvents m);
       me_toolCalls := if isTool then S (me_toolCalls m) else me_toolCalls m;
       me_vulnerabilitiesDetected := me_vulnerabilitiesDetected m;
       me_bySeverity := me_bySeverity m; me_byType := me_byType m;
       me_byCategory := me_byCategory m |} s.

Definition isToolBefore (e : SpyEvent) : bool := match e with ToolBefore _ _ => true | _ => false end.

(** The detections of an event, with the loop state they leave. *)
Definition eventFindings (now : Z) (session : string) (e : SpyEvent) (s : Spy) : list Finding * Spy :=
  match e with
  | ToolBefore tool args =>
      let '(l, fs) := analyzeToolBefore now tool args (JsMap.get session (sp_loops s)) in
      (fs, setLoop session l s)
  | ToolAfter tool result => (analyzeToolAfter stringify tool result, s)
  | PartUpdated part => (analyzeMessage part, s)
  | OtherEvent => ([], s)
  end.

Definition analyze (now : Z) (e : SpyEvent) (ctx : SpyContext) (s : Spy)
    : outcome (list SpyVulnerability) * Spy :=
  let s1 := countEvent (cx_taskId ctx) (isToolBefore e) s in
  let '(fs, s2) := eventFindings now (cx_sessionId ctx) e s1 in
  match createAll now ctx (sp_ids s2) fs with
  | Throw m => (Throw m, s2)
  | Ok vs => (Ok vs, storeDetected (cx_taskId ctx) vs (useIds (length vs) s2))
  end.

(** ** Reading *)

Definition severityWeight (s : VulnerabilitySeverity) : Z :=
  match s with critical => 25 | high => 15 | medium => 5 | low => 1 end.

Definition riskScore (vs : list SpyVulnerability) : Z :=
  Z.min 100 (fold_left (fun acc v => (acc + severityWeight (vu_severity v))%Z) vs 0%Z).

Record Summary := {
  sm_vulnerabilities : list SpyVulnerability;
  sm_metrics : option SpyMetrics;
  sm_riskScore : Z;
}.

Definition getSummary (taskId : string) (s : Spy) : Summary :=
  let vs := getVulnerabilities taskId s in
  {| sm_vulnerabilities := vs; sm_metrics := getMetrics taskId s; sm_riskScore := riskScore vs |}.

Definition clear (taskId : string) (s : Spy) : Spy :=
  {| sp_vulnerabilities := JsMap.delete taskId (sp_vulnerabilities s);
     sp_metrics := JsMap.delete taskId (sp_metrics s); sp_loops := sp_loops s; sp_ids := sp_ids s |}.

Definition shouldBlock (v : SpyVulnerability) : bool := vu_blocked v.

Definition getVulnerabilitiesByStory (taskId storyId : string) (s : Spy) : list SpyVulnerability :=
  base.filter (fun v => vu_storyId v = Some storyId) (getVulnerabilities taskId s).

Definition getVulnerabilitiesByPhase (taskId phase : string) (s : Spy) : list SpyVulnerability :=
  base.filter (fun v => vu_phase v = phase) (getVulnerabilities taskId s).

(** ** Scanning files *)

Definition scanFinding (prefix category filePath : string) (t : VulnerabilityType) (p : Pattern)
    (i : nat) (line : string) : Finding :=
  {| fd_severity := pt_severity p; fd_type := t; fd_category := category;
     fd_description := prefix +:+ pt_description p;
     fd_evidence := patternEvidence "filePath" filePath p;
     fd_toolName := Some "workspace_scan"; fd_blocked := false;
     fd_matchedPattern := Some (toString p); fd_filePath := Some filePath;
     fd_lineNumber := Some (Z.of_nat i + 1)%Z; fd_codeSnippet := Some (JsStr.take 200 line) |}.

(** One table over the lines of a file: at most one finding per pattern. *)
Definition scanTable (prefix category filePath : string) (table : list (VulnerabilityType * Pattern))
    (lines : list string) : list Finding :=
  omap (fun tp => (fun x => scanFinding prefix category filePath tp.1 tp.2 x.1 x.2)
                    <$> firstLine tp.2 0 lines) table.

Definition isScript (filePath : string) : bool :=
  JsStr.endsWith ".sh" filePath || JsStr.endsWith ".bash" filePath
  || JsStr.includes "package.json" filePath.

Definition scanFileContent (filePath content : string) : list Finding :=
  let lines := splitLines content in
  scanTable "Secret found in code: " "secrets" filePath (withType secret_exposure SECRET_PATTERNS) lines ++
  scanTable "" "code_injection" filePath CODE_INJECTION_PATTERNS lines ++
  scanTable "" "file_system" filePath (withType sensitive_file_access SENSITIVE_PATHS) lines ++
  (if isScript filePath
   then scanTable "" "system_destruction" filePath (withType dangerous_command DANGEROUS_COMMANDS) lines
   else []).

Definition codeExtensions : list string :=
  [".ts"; ".js"; ".tsx"; ".jsx"; ".py"; ".rb"; ".go"; ".java";
   ".sh"; ".bash"; ".yml"; ".yaml"; ".json"; ".env"; ".sql"].

Definition ignoreDirs : list string :=
  ["node_modules"; ".git"; "dist"; "build"; ".next"; "__pycache__"; "venv"].

Definition isCodeFile (name : string) : bool :=
  bool_decide (toLowerCase (extname name) ∈ codeExtensions) || JsStr.startsWith ".env" name.

Definition entersDir (name : string) : bool :=
  negb (bool_decide (name ∈ ignoreDirs)) && negb (JsStr.startsWith "." name).

(** [walkDir]: [fuel] levels are left, of the six the code allows. *)
Fixpoint walkDir (maxFiles : nat) (fuel : nat) (dir : string) (files : list string) : list string :=
  match fuel with
  | 0 => files
  | S fuel' =>
      if maxFiles <=? length files then files
      else
        match readdirSync dir with
        | None => files
        | Some entries =>
            (fix go (es : list DirEntry) (files : list string) : list string :=
               match es with
               | [] => files
               | e :: es' =>
                   if maxFiles <=? length files then files
                   else
                     let full := pathJoin dir (en_name e) in
                     match en_kind e with
                     | KDir => go es' (if entersDir (en_name e)
                                       then walkDir maxFiles fuel' full files else files)
                     | KFile => go es' (if isCodeFile (en_name e) then files ++ [full] else files)
                     | KOther => go es' files
                     end
               end) entries files
        end
  end.

Definition maxDepth : nat := 6.

Definition findCodeFiles (workspacePath : string) (maxFiles : nat) : list string :=
  walkDir maxFiles maxDepth workspacePath [].

Record ScanOptions := {
  so_filesToScan : option (list string);
  so_maxFiles : option nat;
  so_maxFileSize : option Z;
}.

Definition absoluteWorkspace (workspacePath : string) : string :=
  if isAbsolute workspacePath then workspacePath else pathResolve workspacePath.

(** One file: [None] when it is skipped, its vulnerabilities otherwise. *)
Definition scanOne (now : Z) (ctx : SpyContext) (maxFileSize : Z) (n : nat) (full : string)
    : option (list SpyVulnerability) :=
  st ← statSync full;
  if negb (st_isFile st) || (maxFileSize <? st_size st)%Z then None
  else
    content ← readFileSync full;
    match createAll now ctx n (scanFileContent full content) with
    | Ok vs => Some vs
    | Throw _ => None
    end.

(** The loop over the files, with the number already scanned. *)
Fixpoint scanFiles (now : Z) (ctx : SpyContext) (ws : string) (maxFiles : nat) (maxFileSize : Z)
    (n scanned : nat) (files : list string) : list SpyVulnerability :=
  match files with
  | [] => []
  | f :: files' =>
      if maxFiles <=? scanned then []
      else
        let full := if isAbsolute f then f else pathJoin ws f in
        match scanOne now ctx maxFileSize n full with
        | None => scanFiles now ctx ws maxFiles maxFileSize n scanned files'
        | Some vs => vs ++ scanFiles now ctx ws maxFiles maxFileSize (n + length vs) (S scanned) files'
        end
  end.

Definition withWorkspace (ctx : SpyContext) (ws : string) : SpyContext :=
  {| cx_taskId := cx_taskId ctx; cx_sessionId := cx_sessionId ctx; cx_phase := cx_phase ctx;
     cx_storyId := cx_storyId ctx; cx_workspacePath := Some ws; cx_iteration := cx_iteration ctx;
     cx_toolUseId := cx_toolUseId ctx; cx_turnNumber := cx_turnNumber ctx |}.

Definition scanWorkspace (now : Z) (workspacePath : string) (ctx : SpyContext) (o : ScanOptions) (s : Spy)
    : list SpyVulnerability * Spy :=
  let maxFiles := default 100 (so_maxFiles o) in
  let maxFileSize := default (500 * 1024)%Z (so_maxFileSize o) in
  let ws := absoluteWorkspace workspacePath in
  let files := match so_filesToScan o with
               | Some (f :: fs) => f :: fs
               | _ => findCodeFiles ws maxFiles
               end in
  let detected := scanFiles now (withWorkspace ctx ws) ws maxFiles maxFileSize (sp_ids s) 0 files in
  (detected, storeDetected (cx_taskId ctx) detected (useIds (length detected) s)).

(** ** All repositories *)

Record Repo := { re_name : string; re_localPath : string; re_type : string }.

Record RepoScan := {
  rs_name : string; rs_path : string; rs_type : string; rs_filesScanned : nat;
  rs_vulnerabilitiesFound : nat }.

Record GlobalScanReport := {
  gr_scannedAt : Z;
  gr_totalFilesScanned : nat;
  gr_repositoriesScanned : list RepoScan;
  gr_vulnerabilities : list SpyVulnerability;
  gr_bySeverity : SeverityCounts;
  gr_byType : JsMap.t nat;
  gr_byRepository : JsMap.t nat;
}.

Definition emptyReport (now : Z) : GlobalScanReport :=
  {| gr_scannedAt := now; gr_totalFilesScanned := 0; gr_repositoriesScanned := [];
     gr_vulnerabilities := []; gr_bySeverity := noCounts; gr_byType := []; gr_byRepository := [] |}.

Definition countCodeFiles (workspacePath : string) : nat := length (findCodeFiles workspacePath 500).

(** The two fields added to a reported object. *)
Definition tag (r : Repo) (v : SpyVulnerability) : SpyVulnerability :=
  {| vu_id := vu_id v; vu_taskId := vu_taskId v; vu_sessionId := vu_sessionId v;
     vu_phase := vu_phase v; vu_timestamp := vu_timestamp v; vu_severity := vu_severity v;
     vu_type := vu_type v; vu_description := vu_description v; vu_evidence := vu_evidence v;
     vu_toolName := vu_toolName v; vu_blocked := vu_blocked v;
     vu_matchedPattern := vu_matchedPattern v; vu_category := vu_category v;
     vu_toolUseId := vu_toolUseId v; vu_turnNumber := vu_turnNumber v;
     vu_owaspCategory := vu_owaspCategory v; vu_cweId := vu_cweId v; vu_filePath := vu_filePath v;
     vu_lineNumber := vu_lineNumber v; vu_codeSnippet := vu_codeSnippet v;
     vu_recommendation := vu_recommendation v; vu_workspacePath := vu_workspacePath v;
     vu_absoluteFilePath := vu_absoluteFilePath v; vu_storyId := vu_storyId v;
     vu_iteration := vu_iteration v; vu_repositoryName := Some (re_name r);
     vu_repositoryType := Some (re_type r) |}.

(** The reported objects are the last [n] stored ones, so the store sees the
    tags too. *)
Definition tagStored (taskId : string) (r : Repo) (n : nat) (s : Spy) : Spy :=
  match n with
  | 0 => s
  | _ =>
      let l := getVulnerabilities taskId s in
      {| sp_vulnerabilities :=
           JsMap.set taskId (take (length l - n) l ++ (tag r <$> drop (length l - n) l))
             (sp_vulnerabilities s);
         sp_metrics := sp_metrics s; sp_loops := sp_loops s; sp_ids := sp_ids s |}
  end.

(** One repository added to the report. *)
Definition reportRepo (r : Repo) (files : nat) (vs : list SpyVulnerability) (g : GlobalScanReport)
    : GlobalScanReport :=
  {| gr_scannedAt := gr_scannedAt g;
     gr_totalFilesScanned := gr_totalFilesScanned g + files;
     gr_repositoriesScanned := gr_repositoriesScanned g ++
       [{| rs_name := re_name r; rs_path := re_localPath r; rs_type := re_type r;
           rs_filesScanned := files; rs_vulnerabilitiesFound := length vs |}];
     gr_vulnerabilities := gr_vulnerabilities g ++ (tag r <$> vs);
     gr_bySeverity := fold_left (fun c v => bumpSeverity (vu_severity v) c) vs (gr_bySeverity g);
     gr_byType := fold_left (fun m v => bump (typeName (vu_type v)) m) vs (gr_byType g);
     gr_byRepository := fold_left (fun m _ => bump (re_name r) m) vs (gr_byRepository g) |}.

Definition globalOptions : ScanOptions :=
  {| so_filesToScan := None; so_maxFiles := Some 200; so_maxFileSize := None |}.

Definition scanRepo (now : Z) (ctx : SpyContext) (st : GlobalScanReport * Spy) (r : Repo)
    : GlobalScanReport * Spy :=
  let '(vs, s1) := scanWorkspace now (re_localPath r) ctx globalOptions st.2 in
  let files := countCodeFiles (re_localPath r) in
  (reportRepo r files vs st.1, tagStored (cx_taskId ctx) r (length vs) s1).

Definition scanAllRepositories (now : Z) (repositories : list Repo) (ctx : SpyContext) (s : Spy)
    : GlobalScanReport * Spy :=
  fold_left (scanRepo now ctx) repositories (emptyReport now, s).

(** ** Vulnerabilities found elsewhere *)

Definition withId (id : string) (now : Z) (v : SpyVulnerability) : SpyVulnerability :=
  {| vu_id := id; vu_taskId := vu_taskId v; vu_sessionId := vu_sessionId v;
     vu_phase := vu_phase v; vu_timestamp := now; vu_severity := vu_severity v;
     vu_type := vu_type v; vu_description := vu_description v; vu_evidence := vu_evidence v;
     vu_toolName := vu_toolName v; vu_blocked := vu_blocked v;
     vu_matchedPattern := vu_matchedPattern v; vu_category := vu_category v;
     vu_toolUseId := vu_toolUseId v; vu_turnNumber := vu_turnNumber v;
     vu_owaspCategory := vu_owaspCategory v; vu_cweId := vu_cweId v; vu_filePath := vu_filePath v;
     vu_lineNumber := vu_lineNumber v; vu_codeSnippet := vu_codeSnippet v;
     vu_recommendation := vu_recommendation v; vu_workspacePath := vu_workspacePath v;
     vu_absoluteFilePath := vu_absoluteFilePath v; vu_storyId := vu_storyId v;
     vu_iteration := vu_iteration v; vu_repositoryName := vu_repositoryName v;
     vu_repositoryType := vu_repositoryType v |}.

Definition registerExternalVulnerability (now : Z) (taskId : string) (v : SpyVulnerability) (s : Spy) : Spy :=
  storeDetected taskId [withId (genId (sp_ids s)) now v] (useIds 1 s).

End service.
End AgentSpy.
