(* ===== verification/TaskRepository.v ===== *)
(** * Task repository (src/database/repositories/TaskRepository.ts)

    The [tasks] table as a finite map from primary key to row; each static
    method is the effect of its SQL statement. [NOW()] and the generated id are
    arguments. *)

From S2P Require Import Prelude JsNumber TaskTypes.
From stdpp Require Import sorting.
From stdpp Require Import options.

Module TaskRepository.

Record ActivityEntry := {
  ae_type : string;
  ae_content : string;
  ae_timestamp : Z;
  ae_tool : option string;
  ae_toolInput : option string;
}.

Record TaskRow := {
  id : string;
  user_id : string;
  project_id : option string;
  repository_id : option string;
  title : string;
  description : option string;
  status : TaskStatus;
  branch_name : option string;
  analysis : option AnalysisData;
  stories : option (list Story);
  pr_number : option Z;
  pr_url : option string;
  created_at : Z;
  updated_at : Z;
  completed_phases : option (list PhaseEntry);
  current_phase : option string;
  current_step : option Z;
  current_agent : option string;
  last_completed_story_index : option Z;
  planning_result : option string;
  failure_reason : option string;
  activity_log : option (list ActivityEntry);
}.

(** The [Task] interface. *)
Record Task := {
  t_id : string;
  t_userId : string;
  t_projectId : option string;
  t_repositoryId : option string;
  t_title : string;
  t_description : option string;
  t_status : TaskStatus;
  t_branchName : option string;
  t_analysis : option AnalysisData;
  t_stories : option (list Story);
  t_prNumber : option Z;
  t_prUrl : option string;
  t_createdAt : Z;
  t_updatedAt : Z;
  t_completedPhases : option (list PhaseEntry);
  t_currentPhase : option string;
  t_currentStep : option Z;
  t_currentAgent : option string;
  t_lastCompletedStoryIndex : option Z;
  t_planningResult : option string;
  t_failureReason : option string;
}.

(** [n || undefined] *)
Definition zOrNull (n : option Z) : option Z :=
  match n with Some 0%Z => None | _ => n end.

Definition mapRow (r : TaskRow) : Task :=
  {| t_id := id r; t_userId := user_id r;
     t_projectId := JsStr.orNull (project_id r);
     t_repositoryId := JsStr.orNull (repository_id r);
     t_title := title r; t_description := JsStr.orNull (description r);
     t_status := status r; t_branchName := JsStr.orNull (branch_name r);
     t_analysis := analysis r; t_stories := stories r;
     t_prNumber := zOrNull (pr_number r); t_prUrl := JsStr.orNull (pr_url r);
     t_createdAt := created_at r; t_updatedAt := updated_at r;
     t_completedPhases := completed_phases r;
     t_currentPhase := JsStr.orNull (current_phase r);
     t_currentStep := current_step r;
     t_currentAgent := JsStr.orNull (current_agent r);
     t_lastCompletedStoryIndex := last_completed_story_index r;
     t_planningResult := JsStr.orNull (planning_result r);
     t_failureReason := JsStr.orNull (failure_reason r) |}.

Abbreviation Table := (gmap string TaskRow).

Record CreateTaskParams := {
  cp_userId : string; cp_projectId : option string; cp_repositoryId : option string;
  cp_title : string; cp_description : option string; cp_status : option TaskStatus }.

(** The row inserted; the other columns take their defaults of the schema. *)
Definition newRow (newId : string) (now : Z) (p : CreateTaskParams) : TaskRow :=
  {| id := newId; user_id := cp_userId p; project_id := JsStr.orNull (cp_projectId p);
     repository_id := JsStr.orNull (cp_repositoryId p); title := cp_title p;
     description := JsStr.orNull (cp_description p);
     status := default Pending (cp_status p);
     branch_name := None; analysis := None; stories := None; pr_number := None;
     pr_url := None; created_at := now; updated_at := now;
     completed_phases := Some []; current_phase := None; current_step := None;
     current_agent := None; last_completed_story_index := None; planning_result := None;
     failure_reason := None; activity_log := Some [] |}.

Definition findById (i : string) (tb : Table) : option Task := mapRow <$> tb !! i.

(** [INSERT] fails on an existing primary key. *)
Definition create (newId : string) (now : Z) (p : CreateTaskParams) (tb : Table)
    : option (Task * Table) :=
  match tb !! newId with
  | Some _ => None
  | None =>
      let tb' := <[newId := newRow newId now p]> tb in
      t ← findById newId tb'; Some (t, tb')
  end.

Record FindOptions := {
  fo_projectId : option string; fo_status : option TaskStatus;
  fo_limit : option nat; fo_offset : option nat }.

Definition matchesOptions (o : FindOptions) (r : TaskRow) : bool :=
  match JsStr.orNull (fo_projectId o) with
  | Some p => bool_decide (project_id r = Some p)
  | None => true
  end &&
  match fo_status o with Some s => bool_decide (status r = s) | None => true end.

(** [ORDER BY created_at DESC] *)
Definition newerFirst (a b : TaskRow) : Prop := (created_at b <= created_at a)%Z.
#[global] Instance newerFirst_dec a b : Decision (newerFirst a b).
Proof. unfold newerFirst. apply _. Defined.

(** A limit or offset of 0 is falsy and adds no clause. *)
Definition findAll (o : FindOptions) (tb : Table) : list Task :=
  let rows := base.filter (fun r => matchesOptions o r = true) ((map_to_list tb).*2) in
  let sorted := merge_sort newerFirst rows in
  let skipped := match fo_offset o with Some n => drop n sorted | None => sorted end in
  mapRow <$> match fo_limit o with
             | Some (S n) => take (S n) skipped
             | _ => skipped
             end.

Record UpdateTaskParams := {
  up_title : option string; up_description : option string; up_status : option TaskStatus }.

(** [UPDATE tasks SET ... WHERE id = $n] with a row transformer *)
Definition updateRow (i : string) (f : TaskRow -> TaskRow) (tb : Table) : Table := alter f i tb.

(** Field updates: each sets the named columns and [updated_at]. *)
Definition withStatus (now : Z) (s : TaskStatus) (fr : option string) (r : TaskRow) : TaskRow :=
  {| id := id r; user_id := user_id r; project_id := project_id r;
     repository_id := repository_id r; title := title r; description := description r;
     status := s; branch_name := branch_name r; analysis := analysis r; stories := stories r;
     pr_number := pr_number r; pr_url := pr_url r; created_at := created_at r;
     updated_at := now; completed_phases := completed_phases r;
     current_phase := current_phase r; current_step := current_step r;
     current_agent := current_agent r;
     last_completed_story_index := last_completed_story_index r;
     planning_result := planning_result r; failure_reason := fr;
     activity_log := activity_log r |}.

Definition withText (now : Z) (ti : string) (d : option string) (r : TaskRow) : TaskRow :=
  {| id := id r; user_id := user_id r; project_id := project_id r;
     repository_id := repository_id r; title := ti; description := d;
     status := status r; branch_name := branch_name r; analysis := analysis r;
     stories := stories r; pr_number := pr_number r; pr_url := pr_url r;
     created_at := created_at r; updated_at := now; completed_phases := completed_phases r;
     current_phase := current_phase r; current_step := current_step r;
     current_agent := current_agent r;
     last_completed_story_index := last_completed_story_index r;
     planning_result := planning_result r; failure_reason := failure_reason r;
     activity_log := activity_log r |}.

Definition withAnalysis (now : Z) (b : option string) (a : option AnalysisData)
    (ss : option (list Story)) (r : TaskRow) : TaskRow :=
  {| id := id r; user_id := user_id r; project_id := project_id r;
     repository_id := repository_id r; title := title r; description := description r;
     status := status r; branch_name := b; analysis := a; stories := ss;
     pr_number := pr_number r; pr_url := pr_url r; created_at := created_at r;
     updated_at := now; completed_phases := completed_phases r;
     current_phase := current_phase r; current_step := current_step r;
     current_agent := current_agent r;
     last_completed_story_index := last_completed_story_index r;
     planning_result := planning_result r; failure_reason := failure_reason r;
     activity_log := activity_log r |}.

Definition withPR (now n : Z) (url : string) (r : TaskRow) : TaskRow :=
  {| id := id r; user_id := user_id r; project_id := project_id r;
     repository_id := repository_id r; title := title r; description := description r;
     status := status r; branch_name := branch_name r; analysis := analysis r;
     stories := stories r; pr_number := Some n; pr_url := Some url;
     created_at := created_at r; updated_at := now; completed_phases := completed_phases r;
     current_phase := current_phase r; current_step := current_step r;
     current_agent := current_agent r;
     last_completed_story_index := last_completed_story_index r;
     planning_result := planning_result r; failure_reason := failure_reason r;
     activity_log := activity_log r |}.

(** The resume columns. *)
Record ResumeState := {
  rs_completed : option (list PhaseEntry);
  rs_phase : option string;
  rs_step : option Z;
  rs_agent : option string;
  rs_story : option Z;
}.

Definition resumeOf (r : TaskRow) : ResumeState :=
  {| rs_completed := completed_phases r; rs_phase := current_phase r;
     rs_step := current_step r; rs_agent := current_agent r;
     rs_story := last_completed_story_index r |}.

Definition withResume (now : Z) (rs : ResumeState) (r : TaskRow) : TaskRow :=
  {| id := id r; user_id := user_id r; project_id := project_id r;
     repository_id := repository_id r; title := title r; description := description r;
     status := status r; branch_name := branch_name r; analysis := analysis r;
     stories := stories r; pr_number := pr_number r; pr_url := pr_url r;
     created_at := created_at r; updated_at := now; completed_phases := rs_completed rs;
     current_phase := rs_phase rs; current_step := rs_step rs; current_agent := rs_agent rs;
     last_completed_story_index := rs_story rs;
     planning_result := planning_result r; failure_reason := failure_reason r;
     activity_log := activity_log r |}.

Definition withLog (now : Z) (pl : option string) (l : option (list ActivityEntry))
    (r : TaskRow) : TaskRow :=
  {| id := id r; user_id := user_id r; project_id := project_id r;
     repository_id := repository_id r; title := title r; description := description r;
     status := status r; branch_name := branch_name r; analysis := analysis r;
     stories := stories r; pr_number := pr_number r; pr_url := pr_url r;
     created_at := created_at r; updated_at := now; completed_phases := completed_phases r;
     current_phase := current_phase r; current_step := current_step r;
     current_agent := current_agent r;
     last_completed_story_index := last_completed_story_index r;
     planning_result := pl; failure_reason := failure_reason r; activity_log := l |}.

Definition applyUpdate (now : Z) (p : UpdateTaskParams) (r : TaskRow) : TaskRow :=
  let r1 := withText now (default (title r) (up_title p))
              (match up_description p with Some d => Some d | None => description r end) r in
  withStatus now (default (status r) (up_status p)) (failure_reason r1) r1.

Definition update (now : Z) (i : string) (p : UpdateTaskParams) (tb : Table)
    : option Task * Table :=
  match findById i tb with
  | None => (None, tb)
  | Some _ => let tb' := updateRow i (applyUpdate now p) tb in (findById i tb', tb')
  end.

Definition updateStatus (now : Z) (i : string) (s : TaskStatus) (tb : Table) : Table :=
  updateRow i (fun r => withStatus now s (failure_reason r) r) tb.

Definition setFailed (now : Z) (i reason : string) (tb : Table) : Table :=
  updateRow i (withStatus now Failed (Some reason)) tb.

Definition setBranchName (now : Z) (i b : string) (tb : Table) : Table :=
  updateRow i (fun r => withAnalysis now (Some b) (analysis r) (stories r) r) tb.

Definition setAnalysis (now : Z) (i : string) (a : AnalysisData) (tb : Table) : Table :=
  updateRow i (fun r => withAnalysis now (branch_name r) (Some a) (stories r) r) tb.

Definition setStories (now : Z) (i : string) (ss : list Story) (tb : Table) : Table :=
  updateRow i (fun r => withAnalysis now (branch_name r) (analysis r) (Some ss) r) tb.

Definition savePlanningResult (now : Z) (i pl : string) (tb : Table) : Table :=
  updateRow i (fun r => withLog now (Some pl) (activity_log r) r) tb.

Definition setPullRequest (now : Z) (i : string) (n : Z) (url : string) (tb : Table) : Table :=
  updateRow i (withPR now n url) tb.

Definition updateAfterAnalysis (now : Z) (i b : string) (a : AnalysisData) (ss : list Story)
    (tb : Table) : Table :=
  updateRow i (withAnalysis now (Some b) (Some a) (Some ss)) tb.

(** [COALESCE(completed_phases, '[]') || [entry]] and [current_phase = NULL] *)
Definition markPhaseComplete (now : Z) (i phase : string) (data : option string) (tb : Table)
    : Table :=
  updateRow i (fun r =>
    let rs := resumeOf r in
    withResume now
      {| rs_completed := Some (default [] (rs_completed rs) ++ [PhaseObject phase now data]);
         rs_phase := None; rs_step := rs_step rs; rs_agent := rs_agent rs;
         rs_story := rs_story rs |} r) tb.

Definition setCurrentPhase (now : Z) (i phase : string) (tb : Table) : Table :=
  updateRow i (fun r =>
    let rs := resumeOf r in
    withResume now
      {| rs_completed := rs_completed rs; rs_phase := Some phase; rs_step := rs_step rs;
         rs_agent := rs_agent rs; rs_story := rs_story rs |} r) tb.

Definition setCurrentStep (now : Z) (i : string) (step : Z) (agent : string) (tb : Table) : Table :=
  updateRow i (fun r =>
    let rs := resumeOf r in
    withResume now
      {| rs_completed := rs_completed rs; rs_phase := rs_phase rs; rs_step := Some step;
         rs_agent := Some agent; rs_story := rs_story rs |} r) tb.

Definition setLastCompletedStoryIndex (now : Z) (i : string) (k : Z) (tb : Table) : Table :=
  updateRow i (fun r =>
    let rs := resumeOf r in
    withResume now
      {| rs_completed := rs_completed rs; rs_phase := rs_phase rs; rs_step := rs_step rs;
         rs_agent := rs_agent rs; rs_story := Some k |} r) tb.

Definition clearResumeState (now : Z) (i : string) (tb : Table) : Table :=
  updateRow i (fun r =>
    withResume now
      {| rs_completed := rs_completed (resumeOf r); rs_phase := None; rs_step := None;
         rs_agent := None; rs_story := None |} r) tb.

(** [DELETE]: [rowCount > 0] *)
Definition delete (i : string) (tb : Table) : bool * Table :=
  (bool_decide (is_Some (tb !! i)), base.delete i tb).

Record TaskStats := {
  ts_total : nat; ts_pending : nat; ts_running : nat; ts_completed : nat; ts_failed : nat }.

Definition countStatus (s : TaskStatus) (tb : Table) : nat :=
  size (base.filter (fun e => status e.2 = s) tb).

Definition getStats (tb : Table) : TaskStats :=
  {| ts_total := size tb; ts_pending := countStatus Pending tb;
     ts_running := countStatus Running tb; ts_completed := countStatus Completed tb;
     ts_failed := countStatus Failed tb |}.

(** [WHERE status IN ('running', 'paused')] *)
Definition isStale (r : TaskRow) : bool :=
  bool_decide (status r = Running) || bool_decide (status r = Paused).

Definition recoverStaleTasks (now : Z) (tb : Table) : nat * Table :=
  (size (base.filter (fun e => isStale e.2 = true) tb),
   (fun r => if isStale r then withStatus now Interrupted (failure_reason r) r else r) <$> tb).

(** [timestamp: entry.timestamp || new Date()] is an argument of the entry. *)
Definition appendActivityLogs (now : Z) (i : string) (es : list ActivityEntry) (tb : Table)
    : Table :=
  match es with
  | [] => tb
  | _ => updateRow i (fun r =>
           withLog now (planning_result r) (Some (default [] (activity_log r) ++ es)) r) tb
  end.

Definition appendActivityLog (now : Z) (i : string) (e : ActivityEntry) (tb : Table) : Table :=
  updateRow i (fun r =>
    withLog now (planning_result r) (Some (default [] (activity_log r) ++ [e])) r) tb.

Definition getActivityLog (i : string) (tb : Table) : list ActivityEntry :=
  default [] (r ← tb !! i; activity_log r).

Definition clearActivityLog (now : Z) (i : string) (tb : Table) : Table :=
  updateRow i (fun r => withLog now (planning_result r) (Some []) r) tb.

End TaskRepository.
