(* ===== verification/TaskRepositoryProofs.v ===== *)
(** * Task repository: row frames, resume history, recovery after a restart *)

From S2P Require Import Prelude TaskTypes TaskRepository.
From stdpp Require Import options.
Import TaskRepository.

Module TaskRepoSpec.

(** ** Every statement with [WHERE id = $n] touches that row only *)

Lemma updateRow_other i j f tb : i <> j -> updateRow i f tb !! j = tb !! j.
Proof. intros. by apply lookup_alter_ne. Qed.

Lemma updateRow_same i f tb : updateRow i f tb !! i = f <$> tb !! i.
Proof. apply lookup_alter_eq. Qed.

Lemma updateRow_compose i f g h tb :
  (forall r, f (g r) = h r) -> updateRow i f (updateRow i g tb) = updateRow i h tb.
Proof.
  intros Hfg. apply map_eq. intros j. destruct (decide (i = j)) as [->|Hne].
  - rewrite !updateRow_same. destruct (tb !! j); simpl; [by rewrite Hfg|done].
  - by rewrite !updateRow_other.
Qed.

(** The statements of the repository that address one row by its id. *)
Inductive RowOp :=
  | OUpdate (p : UpdateTaskParams) | OStatus (s : TaskStatus) | OFailed (reason : string)
  | OBranch (b : string) | OAnalysis (a : AnalysisData) | OStories (ss : list Story)
  | OPlanning (pl : string) | OPullRequest (n : Z) (url : string)
  | OAfterAnalysis (b : string) (a : AnalysisData) (ss : list Story)
  | OMark (phase : string) (data : option string) | OPhase (phase : string)
  | OStep (step : Z) (agent : string) | OStory (k : Z) | OClearResume
  | OLog (e : ActivityEntry) | OLogs (es : list ActivityEntry) | OClearLog.

Definition execOp (now : Z) (i : string) (o : RowOp) (tb : Table) : Table :=
  match o with
  | OUpdate p => (update now i p tb).2
  | OStatus s => updateStatus now i s tb
  | OFailed reason => setFailed now i reason tb
  | OBranch b => setBranchName now i b tb
  | OAnalysis a => setAnalysis now i a tb
  | OStories ss => setStories now i ss tb
  | OPlanning pl => savePlanningResult now i pl tb
  | OPullRequest n url => setPullRequest now i n url tb
  | OAfterAnalysis b a ss => updateAfterAnalysis now i b a ss tb
  | OMark phase data => markPhaseComplete now i phase data tb
  | OPhase phase => setCurrentPhase now i phase tb
  | OStep step agent => setCurrentStep now i step agent tb
  | OStory k => setLastCompletedStoryIndex now i k tb
  | OClearResume => clearResumeState now i tb
  | OLog e => appendActivityLog now i e tb
  | OLogs es => appendActivityLogs now i es tb
  | OClearLog => clearActivityLog now i tb
  end.

(** Each of them is a transformer of its row. *)
Lemma execOp_row now i o tb : exists f, execOp now i o tb = updateRow i f tb.
Proof.
  destruct o; simpl; try (eexists; reflexivity).
  - unfold update, findById. destruct (tb !! i) as [r|] eqn:E; simpl; [eauto|].
    exists (fun r => r). unfold updateRow. symmetry. apply alter_id. by rewrite E.
  - destruct es; simpl; [|eauto]. exists (fun r => r). unfold updateRow. symmetry. by apply alter_id.
Qed.

Lemma execOp_other now i j o tb : i <> j -> execOp now i o tb !! j = tb !! j.
Proof. intros. destruct (execOp_row now i o tb) as [f ->]. by apply updateRow_other. Qed.

(** The completed phases of a task, as an array. *)
Definition history (i : string) (tb : Table) : list PhaseEntry :=
  default [] (r ← tb !! i; completed_phases r).

Definition isObject (e : PhaseEntry) : Prop :=
  match e with PhaseObject _ _ _ => True | PhaseString _ => False end.

(** What one statement does to the history: an entry of [markPhaseComplete], or
    nothing. *)
Lemma execOp_history now i o tb r :
  tb !! i = Some r ->
  history i (execOp now i o tb) = history i tb ++
    match o with OMark phase data => [PhaseObject phase now data] | _ => [] end.
Proof.
  intros Hr. unfold history.
  destruct o; simpl; rewrite ?app_nil_r;
    try (match goal with |- context [updateRow i] => idtac | _ => idtac end;
         unfold updateStatus, setFailed, setBranchName, setAnalysis, setStories,
           savePlanningResult, setPullRequest, updateAfterAnalysis, markPhaseComplete,
           setCurrentPhase, setCurrentStep, setLastCompletedStoryIndex, clearResumeState,
           appendActivityLog, clearActivityLog; rewrite updateRow_same, Hr; done).
  - unfold update, findById. rewrite Hr. simpl. by rewrite updateRow_same, Hr.
  - destruct es; simpl; [done|]. by rewrite updateRow_same, Hr.
Qed.

Lemma execOp_keeps now i o tb j : is_Some (tb !! j) -> is_Some (execOp now i o tb !! j).
Proof.
  intros [r Hr]. destruct (decide (i = j)) as [->|Hne]; [|rewrite execOp_other by done; eauto].
  destruct (execOp_row now j o tb) as [f ->]. rewrite updateRow_same, Hr. by eexists.
Qed.

(** A run of the repository: statements on any rows, each at its time. *)
Definition runOps (ops : list (Z * string * RowOp)) (tb : Table) : Table :=
  fold_left (fun tb o => execOp o.1.1 o.1.2 o.2 tb) ops tb.

(** The entries [markPhaseComplete] added to the history of [i]. *)
Definition marksOf (i : string) (o : Z * string * RowOp) : list PhaseEntry :=
  match o with
  | (now, j, OMark phase data) => if decide (j = i) then [PhaseObject phase now data] else []
  | _ => []
  end.

Lemma execOp_history_any now j o tb i :
  is_Some (tb !! i) -> history i (execOp now j o tb) = history i tb ++ marksOf i (now, j, o).
Proof.
  intros [r Hr]. destruct (decide (j = i)) as [->|Hne].
  - rewrite (execOp_history _ _ _ _ r Hr). unfold marksOf. destruct o; try done.
    by rewrite decide_True.
  - unfold history. rewrite execOp_other by done. unfold marksOf.
    destruct o; rewrite ?app_nil_r; try done. by rewrite decide_False, app_nil_r.
Qed.

Lemma runOps_history ops tb i :
  is_Some (tb !! i) ->
  is_Some (runOps ops tb !! i)
  /\ history i (runOps ops tb) = history i tb ++ (ops ≫= marksOf i).
Proof.
  unfold runOps. revert tb. induction ops as [|[[now j] o] ops IH]; intros tb Hi; simpl.
  - by rewrite app_nil_r.
  - destruct (IH (execOp now j o tb)) as [? ->]; [by apply execOp_keeps|].
    by rewrite execOp_history_any, <- app_assoc.
Qed.

(** The record of completed phases survives everything the repository does
    to a task: after any run of statements it is the old record followed by
    exactly the phases marked complete meanwhile, in order; clearing the resume
    state, failing, cancelling or restarting the task never loses it. *)
Theorem completed_phases_append_only ops tb i :
  is_Some (tb !! i) ->
  is_Some (runOps ops tb !! i)
  /\ history i (runOps ops tb) = history i tb ++ (ops ≫= marksOf i).
Proof. apply runOps_history. Qed.

Definition demoParams : CreateTaskParams :=
  {| cp_userId := "u"; cp_projectId := None; cp_repositoryId := None; cp_title := "T";
     cp_description := None; cp_status := None |}.
Definition demoTable : Table := {["t1" := newRow "t1" 0 demoParams]}.

Lemma completed_phases_append_only_witness :
  history "t1" (runOps [(1%Z, "t1", OMark "Planning" None); (2%Z, "t1", OClearResume)] demoTable)
  = [PhaseObject "Planning" 1 None].
Proof.
  apply (completed_phases_append_only
    [(1%Z, "t1", OMark "Planning" None); (2%Z, "t1", OClearResume)] demoTable "t1").
  by eexists.
Defined.

(** A phase marked complete by the repository is invisible to the test
    [completedPhases.includes(phase)] that the orchestrator uses to skip it:
    the entries written are objects and the test compares with strings. The
    resume route, which reads the [phase] field, does see it. *)
Theorem marked_phase_not_included ops tb i phase now data :
  is_Some (tb !! i) -> Forall isObject (history i tb) ->
  let tb' := runOps (ops ++ [(now, i, OMark phase data)]) tb in
  includesPhase phase (history i tb') = false
  /\ phase ∈ (entryName <$> history i tb').
Proof.
  intros Hi Hobj. cbn zeta.
  destruct (runOps_history (ops ++ [(now, i, OMark phase data)]) tb i Hi) as [_ ->].
  rewrite bind_app. cbn [mbind list_bind]. unfold marksOf at 2 4. rewrite decide_True by done.
  split; [|rewrite !fmap_app; set_solver].
  unfold includesPhase. apply not_true_iff_false. rewrite existsb_exists.
  intros (e & Hin & He). destruct e; [|done].
  assert (isObject (PhaseString phase0)); [|done].
  apply list_elem_of_In in Hin. rewrite !elem_of_app in Hin.
  destruct Hin as [Hin|[Hin|[Hin|Hin]]]; [| | |by apply not_elem_of_nil in Hin].
  - rewrite Forall_forall in Hobj. by apply Hobj, list_elem_of_In.
  - apply list_elem_of_bind in Hin as ([[? ?] o] & Hin & _). unfold marksOf in Hin.
    destruct o; try by apply not_elem_of_nil in Hin.
    case_decide; [|by apply not_elem_of_nil in Hin]. by apply list_elem_of_singleton in Hin.
  - by apply list_elem_of_singleton in Hin.
Qed.

Lemma marked_phase_not_included_witness :
  includesPhase "Planning"
    (history "t1" (runOps ([] ++ [(1%Z, "t1", OMark "Planning" None)]) demoTable)) = false.
Proof.
  apply (marked_phase_not_included [] demoTable "t1" "Planning" 1 None);
    [by eexists|by vm_compute].
Defined.

(** ** Recovery at start-up *)

Lemma withStatus_status now s fr r : status (withStatus now s fr r) = s.
Proof. done. Qed.

Lemma isStale_interrupted now fr r : isStale (withStatus now Interrupted fr r) = false.
Proof. done. Qed.

Lemma size_filter_insert (P : string * TaskRow -> Prop) `{!forall e, Decision (P e)}
    i x (tb : Table) :
  tb !! i = None ->
  size (base.filter P (<[i := x]> tb)) = (if decide (P (i, x)) then 1 else 0) + size (base.filter P tb).
Proof.
  intros Hi. case_decide.
  - rewrite map_filter_insert_True by done. apply map_size_insert_None.
    apply map_lookup_filter_None. auto.
  - rewrite map_filter_insert_False, delete_id by done. done.
Qed.

Lemma stale_count (tb : Table) :
  size (base.filter (fun e => isStale e.2 = true) tb)
  = countStatus Running tb + countStatus Paused tb.
Proof.
  unfold countStatus. induction tb as [|i r tb Hi IH] using map_ind; [done|].
  rewrite !size_filter_insert, IH by done. unfold isStale. simpl.
  generalize (size (base.filter (fun e => status e.2 = Running) tb)) as a.
  generalize (size (base.filter (fun e => status e.2 = Paused) tb)) as b. intros b a.
  destruct (status r); repeat case_bool_decide; repeat case_decide; simplify_eq/=; lia.
Qed.

Lemma no_stale_filter (tb : Table) :
  (forall i r, tb !! i = Some r -> isStale r = false) ->
  size (base.filter (fun e => isStale e.2 = true) tb) = 0.
Proof.
  intros H. apply map_size_empty_iff, map_empty_filter_2. intros i r Hr. simpl.
  by rewrite (H i r Hr).
Qed.

(** Restart recovery: exactly the tasks that were running or paused become
    interrupted, their number is reported, every other task (a queued one, one
    waiting for an approval) is left as it is, no task is left running, and a
    second recovery finds nothing to do. *)
Theorem recoverStaleTasks_correct now now' tb :
  let r := recoverStaleTasks now tb in
  (forall i row, tb !! i = Some row ->
     r.2 !! i = Some (if isStale row then withStatus now Interrupted (failure_reason row) row
                      else row))
  /\ (forall i, tb !! i = None -> r.2 !! i = None)
  /\ r.1 = countStatus Running tb + countStatus Paused tb
  /\ countStatus Running r.2 = 0
  /\ recoverStaleTasks now' r.2 = (0, r.2).
Proof.
  cbn zeta.
  assert (forall i row', (recoverStaleTasks now tb).2 !! i = Some row' -> isStale row' = false) as Hns.
  { intros i row' Hi. unfold recoverStaleTasks in Hi. cbn [snd] in Hi.
    rewrite lookup_fmap in Hi. apply fmap_Some in Hi as (row & _ & ->).
    destruct (isStale row) eqn:E; [apply isStale_interrupted|done]. }
  pose proof (no_stale_filter _ Hns) as Hz. split_and!.
  - intros i row Hi. simpl. by rewrite lookup_fmap, Hi.
  - intros i Hi. simpl. by rewrite lookup_fmap, Hi.
  - apply stale_count.
  - rewrite stale_count in Hz. lia.
  - unfold recoverStaleTasks at 1. f_equal; [exact Hz|]. apply map_eq. intros i.
    rewrite lookup_fmap. destruct (_ !! i) as [row|] eqn:E; [|done]. simpl. by rewrite (Hns i row E).
Qed.


(** ** Creating, finding, updating *)

(** A created task is found again with exactly the given data (absent and
    empty optional fields both read back as undefined), status pending unless
    another one was given, no resume state, and no other task changes. *)
Theorem create_findById newId now p tb t tb' :
  create newId now p tb = Some (t, tb') ->
  findById newId tb' = Some t
  /\ t_id t = newId /\ t_userId t = cp_userId p /\ t_title t = cp_title p
  /\ t_projectId t = JsStr.orNull (cp_projectId p)
  /\ t_description t = JsStr.orNull (cp_description p)
  /\ t_status t = default Pending (cp_status p)
  /\ t_currentPhase t = None /\ t_lastCompletedStoryIndex t = None
  /\ t_completedPhases t = Some []
  /\ forall j, j <> newId -> findById j tb' = findById j tb.
Proof.
  unfold create. destruct (tb !! newId) eqn:E; [done|]. unfold findById.
  rewrite lookup_insert_eq. cbn. intros [= <- <-].
  assert (forall o, JsStr.orNull (JsStr.orNull o) = JsStr.orNull o) as Hn by by intros [[]|].
  split; [by rewrite lookup_insert_eq|].
  unfold mapRow, newRow. cbn. rewrite !Hn. split_and!; auto.
  intros j Hj. by rewrite lookup_insert_ne.
Qed.

Lemma create_findById_witness :
  findById "t1" (<["t1" := newRow "t1" 5 demoParams]> ∅)
  = Some (mapRow (newRow "t1" 5 demoParams)).
Proof.
  apply (create_findById "t1" 5 demoParams ∅ (mapRow (newRow "t1" 5 demoParams))
    (<["t1" := newRow "t1" 5 demoParams]> ∅)). by vm_compute.
Defined.

(** [update] on a missing task reports null and writes nothing; on an
    existing one it changes the given fields and nothing else of the task's
    progress, resume state or results, and no other task. *)
Theorem update_frame now i p tb :
  match tb !! i with
  | None => update now i p tb = (None, tb)
  | Some r =>
      exists r', (update now i p tb).2 !! i = Some r'
      /\ (update now i p tb).1 = Some (mapRow r')
      /\ status r' = default (status r) (up_status p)
      /\ title r' = default (title r) (up_title p)
      /\ (up_description p = None -> description r' = description r)
      /\ (forall d, up_description p = Some d -> description r' = Some d)
      /\ resumeOf r' = resumeOf r /\ stories r' = stories r /\ analysis r' = analysis r
      /\ failure_reason r' = failure_reason r /\ activity_log r' = activity_log r
      /\ (forall j, j <> i -> (update now i p tb).2 !! j = tb !! j)
  end.
Proof.
  destruct (tb !! i) as [r|] eqn:E; unfold update, findById; rewrite E; [|done]. cbn.
  eexists. rewrite updateRow_same, E. split_and!; try reflexivity.
  - cbn. intros ->. done.
  - cbn. intros d ->. done.
  - intros j Hj. by apply updateRow_other.
Qed.

(** ** The activity log *)

Lemma getActivityLog_append now i e tb r :
  tb !! i = Some r ->
  getActivityLog i (appendActivityLog now i e tb) = getActivityLog i tb ++ [e].
Proof.
  intros Hr. unfold getActivityLog, appendActivityLog. rewrite updateRow_same, Hr. done.
Qed.

Lemma appendActivityLog_keeps now i e tb r :
  tb !! i = Some r -> exists r', appendActivityLog now i e tb !! i = Some r'.
Proof. intros Hr. unfold appendActivityLog. rewrite updateRow_same, Hr. by eexists. Qed.

(** Appending activity entries in one statement leaves the same row as
    appending them one by one at the same time, and the log of the task is the
    old log followed by the entries in order. *)
Theorem appendActivityLogs_batch now i es tb r :
  tb !! i = Some r ->
  appendActivityLogs now i es tb = fold_left (fun tb e => appendActivityLog now i e tb) es tb
  /\ getActivityLog i (appendActivityLogs now i es tb) = getActivityLog i tb ++ es.
Proof.
  intros Hr.
  assert (forall es tb r, tb !! i = Some r ->
    fold_left (fun tb e => appendActivityLog now i e tb) es tb
    = appendActivityLogs now i es tb) as Hfold.
  { clear. induction es as [|e es IH]; intros tb r Hr; [done|]. simpl.
    destruct (appendActivityLog_keeps now i e tb r Hr) as [r' Hr']. rewrite (IH _ _ Hr').
    destruct es as [|e' es']; [done|]. apply updateRow_compose. intros x. unfold withLog. cbn.
    by rewrite <- app_assoc. }
  split; [by rewrite (Hfold _ _ _ Hr)|]. destruct es as [|e es]; [by rewrite app_nil_r|].
  unfold getActivityLog, appendActivityLogs. by rewrite updateRow_same, Hr.
Qed.

Definition demoActivity : ActivityEntry :=
  {| ae_type := "info"; ae_content := "hello"; ae_timestamp := 3; ae_tool := None;
     ae_toolInput := None |}.

Lemma appendActivityLogs_batch_witness :
  getActivityLog "t1" (appendActivityLogs 4 "t1" [demoActivity; demoActivity] demoTable)
  = [] ++ [demoActivity; demoActivity].
Proof.
  apply (appendActivityLogs_batch 4 "t1" [demoActivity; demoActivity] demoTable
    (newRow "t1" 0 demoParams)). by vm_compute.
Defined.

End TaskRepoSpec.
