(* ===== verification/MergePhase.v ===== *)
(** * Merge phase (src/orchestration/phases/MergePhaseV2.ts)

    Pushes what is left, opens one pull request per repository, waits for the
    merge approval and merges. The git service runs external commands: its
    answers are parameters of the model, and every call to it is recorded. *)

From S2P Require Import Prelude TaskTypes TaskRepository.
From stdpp Require Import pretty.
From stdpp Require Import options.

Module MergePhase.
Import TaskRepository.

Record PullRequestInfo := { pr_no : Z; pr_link : string; pr_title : string }.

Record RepoPullRequestInfo := {
  rp_pr : PullRequestInfo;
  rp_repoName : string;
  rp_repoType : string;
  rp_repoPath : string;
}.

Record MergeResult := {
  mr_success : bool;
  mr_pullRequest : option PullRequestInfo;
  mr_pullRequests : list RepoPullRequestInfo;
  mr_merged : bool;
  mr_error : option string;
}.

Inductive PRState := PROpen | PRClosed | PRMerged.

#[global] Instance PRState_eq_dec : EqDecision PRState.
Proof. solve_decision. Defined.

Record PRStatus := { ps_state : PRState; ps_mergeable : bool; ps_failed : nat }.

(** The requests made to the git service. *)
Inductive GitCall :=
  | GHasChanges (path : string)
  | GCommitAndPush (path : string)
  | GCreatePR (path : string)
  | GStatus (path : string) (n : Z)
  | GMerge (path : string) (n : Z).

Inductive MergeEvent :=
  | EvPhaseStart (repositoryCount : nat)
  | EvPrCreated (pr : RepoPullRequestInfo)
  | EvApprovalRequired (prs : list RepoPullRequestInfo)
  | EvPhaseComplete (success : bool) (merged : option bool)
      (prs : list (Z * string * option bool)) (errors : option (list string))
  | EvMergeCompleted (n : Z) (success : bool).

Record World := { w_tasks : gmap string TaskRow; w_calls : list GitCall; w_events : list MergeEvent }.

Record Repo := { p_path : string; p_name : string; p_type : string }.

Record MergePhaseContext := {
  mc_task : Task;
  mc_workingDirectory : option string;
  mc_repositories : list RepositoryInfo;
  mc_branchName : string;
  mc_analysisDescription : string;
  mc_storiesCompleted : nat;
  mc_totalStories : nat;
  mc_onMergeApprovalRequired : option (PullRequestInfo -> outcome bool);
  mc_autoMerge : bool;
}.

Definition emit (e : MergeEvent) (w : World) : World :=
  {| w_tasks := w_tasks w; w_calls := w_calls w; w_events := w_events w ++ [e] |}.
Definition called (c : GitCall) (w : World) : World :=
  {| w_tasks := w_tasks w; w_calls := w_calls w ++ [c]; w_events := w_events w |}.
Definition onTasks (f : gmap string TaskRow -> gmap string TaskRow) (w : World) : World :=
  {| w_tasks := f (w_tasks w); w_calls := w_calls w; w_events := w_events w |}.

(** [repositories], or the legacy single directory, or nothing. *)
Definition reposToProcess (c : MergePhaseContext) : option (list Repo) :=
  match mc_repositories c with
  | [] =>
      match JsStr.orNull (mc_workingDirectory c) with
      | Some d => Some [{| p_path := d; p_name := "main"; p_type := "unknown" |}]
      | None => None
      end
  | rs => Some ((fun r => {| p_path := r_localPath r; p_name := r_name r; p_type := r_type r |}) <$> rs)
  end.

Definition nl : string := String "010"%char EmptyString.

Definition buildPRBody (t : Task) (analysisDescription : string) (done total : nat)
    (repoName repoType : string) : string :=
  let repoInfo :=
    if JsStr.truthy repoName && JsStr.truthy repoType
    then nl +:+ "## Repository" +:+ nl +:+ "📁 **" +:+ repoName +:+ "** (" +:+ repoType +:+ ")" +:+ nl
    else "" in
  "## Summary" +:+ nl +:+ default (t_title t) (JsStr.orNull (t_description t)) +:+ nl
  +:+ repoInfo +:+ nl
  +:+ "## Analysis" +:+ nl +:+ analysisDescription +:+ nl +:+ nl
  +:+ "## Stories Completed" +:+ nl +:+ "✅ " +:+ pretty done +:+ "/" +:+ pretty total
  +:+ " stories implemented" +:+ nl +:+ nl
  +:+ "## Checklist" +:+ nl +:+ "- [ ] Code has been reviewed" +:+ nl +:+ "- [ ] Tests pass" +:+ nl
  +:+ "- [ ] No security issues" +:+ nl +:+ "- [ ] Documentation updated (if needed)" +:+ nl +:+ nl
  +:+ "---" +:+ nl +:+ "*Generated by Open Multi-Agents*" +:+ nl.

(** An error that means "nothing to merge here". *)
Definition isNoChanges (msg : string) : bool :=
  JsStr.includes "No commits" msg || JsStr.includes "no changes" msg
  || JsStr.includes "already up to date" msg.

(** [errors.join('; ')] *)
Fixpoint join (sep : string) (l : list string) : string :=
  match l with
  | [] => ""
  | [x] => x
  | x :: l' => x +:+ sep +:+ join sep l'
  end.

Section MergePhase.

(** The answers of the git service for a repository path. *)
Variable hasChanges : string -> outcome bool.
Variable createPullRequest : string -> string -> string -> outcome PullRequestInfo.
Variable getPullRequestStatus : string -> Z -> outcome PRStatus.
Variable mergePullRequest : string -> Z -> outcome unit.
Variable now : Z.

(** STEP 1 for one repository; a failure of either command is only a warning,
    so the answer of the push is not looked at. *)
Definition pushRemaining (c : MergePhaseContext) (w : World) (r : Repo) : World :=
  let w1 := called (GHasChanges (p_path r)) w in
  match hasChanges (p_path r) with
  | Ok true => called (GCommitAndPush (p_path r)) w1
  | _ => w1
  end.

Definition prTitle (c : MergePhaseContext) (r : Repo) : string :=
  if (1 <? length (mc_repositories c)) then
    "[Task] " +:+ t_title (mc_task c) +:+ " (" +:+ p_type r +:+ ")"
  else "[Task] " +:+ t_title (mc_task c).

(** STEP 2 for one repository: the created requests, the errors, the world. *)
Definition createOne (c : MergePhaseContext)
    (acc : list RepoPullRequestInfo * list string * World) (r : Repo)
    : list RepoPullRequestInfo * list string * World :=
  let '(prs, errs, w) := acc in
  let w1 := called (GCreatePR (p_path r)) w in
  match createPullRequest (p_path r) (prTitle c r)
          (buildPRBody (mc_task c) (mc_analysisDescription c) (mc_storiesCompleted c)
             (mc_totalStories c) (p_name r) (p_type r)) with
  | Ok pr =>
      let p := {| rp_pr := pr; rp_repoName := p_name r; rp_repoType := p_type r;
                  rp_repoPath := p_path r |} in
      (prs ++ [p], errs, emit (EvPrCreated p) w1)
  | Throw msg =>
      if isNoChanges msg then (prs, errs, w1)
      else (prs, errs ++ [p_name r +:+ ": " +:+ msg], w1)
  end.

(** STEP 4 for one request: the outcome and the world. *)
Definition mergeOne (p : RepoPullRequestInfo) (w : World) : outcome unit * World :=
  let w1 := called (GStatus (rp_repoPath p) (pr_no (rp_pr p))) w in
  match getPullRequestStatus (rp_repoPath p) (pr_no (rp_pr p)) with
  | Throw m => (Throw m, w1)
  | Ok s =>
      if negb (bool_decide (ps_state s = PROpen)) then
        (Throw ("PR is already " +:+ match ps_state s with PRClosed => "closed" | PRMerged => "merged" | PROpen => "open" end), w1)
      else if negb (ps_mergeable s) then (Throw "PR has merge conflicts", w1)
      else (mergePullRequest (rp_repoPath p) (pr_no (rp_pr p)),
            called (GMerge (rp_repoPath p) (pr_no (rp_pr p))) w1)
  end.

Definition mergeStep (acc : list (RepoPullRequestInfo * outcome unit) * World)
    (p : RepoPullRequestInfo) : list (RepoPullRequestInfo * outcome unit) * World :=
  let '(res, w) := acc in
  let '(o, w') := mergeOne p w in (res ++ [(p, o)], w').

Definition isOk {A} (o : outcome A) : bool := match o with Ok _ => true | Throw _ => false end.

(** [mergeResults.find(r => r.pr.number === pr.number)?.success ?? false] *)
Definition mergedFlag (res : list (RepoPullRequestInfo * outcome unit)) (p : RepoPullRequestInfo) : bool :=
  match list_find (fun e => pr_no (rp_pr e.1) = pr_no (rp_pr p)) res with
  | Some (_, (_, o)) => isOk o
  | None => false
  end.

Definition failedMerges (res : list (RepoPullRequestInfo * outcome unit)) : list string :=
  omap (fun e => match e.2 with
                 | Throw m => Some (rp_repoName e.1 +:+ ": " +:+ m)
                 | Ok _ => None end) res.

(** The approval step: the answer (a throwing callback aborts the phase). *)
Definition askApproval (c : MergePhaseContext) (primary : RepoPullRequestInfo)
    (prs : list RepoPullRequestInfo) (w : World) : outcome bool * World :=
  if mc_autoMerge c then (Ok true, w)
  else match mc_onMergeApprovalRequired c with
       | Some ask => (ask (rp_pr primary), emit (EvApprovalRequired prs) w)
       | None => (Ok false, w)
       end.

(** No pull request was created. *)
Definition finishWithoutPRs (errs : list string) (w : World) : MergeResult * World :=
  let ok := bool_decide (errs = []) in
  let msg := "Failed to create PRs: " +:+ join "; " errs in
  ({| mr_success := ok; mr_pullRequest := None; mr_pullRequests := []; mr_merged := false;
      mr_error := if ok then None else Some msg |},
   emit (EvPhaseComplete ok None [] (if ok then None else Some [msg])) w).

(** The merge was not approved: the requests stay open. *)
Definition finishUnapproved (primary : RepoPullRequestInfo) (prs : list RepoPullRequestInfo)
    (w : World) : MergeResult * World :=
  ({| mr_success := true; mr_pullRequest := Some (rp_pr primary); mr_pullRequests := prs;
      mr_merged := false; mr_error := None |},
   emit (EvPhaseComplete true (Some false)
           ((fun p => (pr_no (rp_pr p), rp_repoName p, None)) <$> prs) None) w).

(** STEP 4 and the final report. *)
Definition mergeAll (primary : RepoPullRequestInfo) (prs : list RepoPullRequestInfo)
    (w : World) : MergeResult * World :=
  let '(res, w') := fold_left mergeStep prs ([], w) in
  let all := forallb (fun e => isOk e.2) res in
  let any := existsb (fun e => isOk e.2) res in
  let failed := failedMerges res in
  let ok := bool_decide (failed = []) in
  ({| mr_success := any; mr_pullRequest := Some (rp_pr primary); mr_pullRequests := prs;
      mr_merged := all;
      mr_error := if ok then None else Some ("Some merges failed: " +:+ join "; " failed) |},
   emit (EvPhaseComplete any (Some all)
           ((fun p => (pr_no (rp_pr p), rp_repoName p, Some (mergedFlag res p))) <$> prs)
           (if ok then None else Some failed)) w').

Definition executeMergePhase (c : MergePhaseContext) (w0 : World) : outcome MergeResult * World :=
  let tid := t_id (mc_task c) in
  let w1 := emit (EvPhaseStart (length (mc_repositories c) `max` 1)) w0 in
  match reposToProcess c with
  | None =>
      (Ok {| mr_success := false; mr_pullRequest := None; mr_pullRequests := [];
             mr_merged := false;
             mr_error := Some "No repositories or workingDirectory provided" |}, w1)
  | Some repos =>
      let w2 := fold_left (pushRemaining c) repos w1 in
      let '(prs, errs, w3) := fold_left (createOne c) repos ([], [], w2) in
      match prs with
      | [] => let '(r, w4) := finishWithoutPRs errs w3 in (Ok r, w4)
      | primary :: _ =>
          let w4 := onTasks (setPullRequest now tid (pr_no (rp_pr primary)) (pr_link (rp_pr primary))) w3 in
          match askApproval c primary prs w4 with
          | (Throw m, w5) => (Throw m, w5)
          | (Ok false, w5) => let '(r, w6) := finishUnapproved primary prs w5 in (Ok r, w6)
          | (Ok true, w5) => let '(r, w6) := mergeAll primary prs w5 in (Ok r, w6)
          end
      end
  end.

(** Manual trigger: the result reported to the caller and the frontend. *)
Definition triggerMerge (path : string) (n : Z) (w : World) : bool * World :=
  let ok := isOk (mergePullRequest path n) in
  (ok, emit (EvMergeCompleted n ok) (called (GMerge path n) w)).

Definition checkPRStatus (path : string) (n : Z) : outcome PRStatus := getPullRequestStatus path n.

End MergePhase.
End MergePhase.
