(* ===== verification/MergePhaseProofs.v ===== *)
(** * Merge phase: nothing is merged without approval, what is reported merged
    was merged *)

From S2P Require Import Prelude TaskTypes TaskRepository MergePhase.
From stdpp Require Import options.
Import TaskRepository MergePhase.

Module MergeSpec.
Section proofs.
Variable hasChanges : string -> outcome bool.
Variable createPullRequest : string -> string -> string -> outcome PullRequestInfo.
Variable getPullRequestStatus : string -> Z -> outcome PRStatus.
Variable mergePullRequest : string -> Z -> outcome unit.
Variable now : Z.

Let run := executeMergePhase hasChanges createPullRequest getPullRequestStatus mergePullRequest now.
Let create := createOne createPullRequest.

Definition isMerge (g : GitCall) : bool := match g with GMerge _ _ => true | _ => false end.

(** The merge requests sent so far. *)
Definition merges (w : World) : list GitCall := base.filter (fun g => isMerge g = true) (w_calls w).

Lemma merges_emit e w : merges (emit e w) = merges w.
Proof. done. Qed.

Lemma merges_called g w : isMerge g = false -> merges (called g w) = merges w.
Proof.
  intros Hg. unfold merges. simpl. rewrite list.filter_app, filter_cons, Hg. simpl. by rewrite app_nil_r.
Qed.

Lemma push_merges c repos w :
  merges (fold_left (pushRemaining hasChanges c) repos w) = merges w.
Proof.
  revert w. induction repos as [|r repos IH]; intros w; [done|]. simpl. rewrite IH.
  unfold pushRemaining. destruct (hasChanges _) as [[]|]; by rewrite !merges_called.
Qed.

Lemma create_merges c repos prs errs w :
  merges (fold_left (create c) repos (prs, errs, w)).2 = merges w.
Proof.
  unfold create. revert prs errs w. induction repos as [|r repos IH]; intros prs errs w; [done|].
  simpl. destruct (createPullRequest _ _ _) as [pr|m]; [|destruct (isNoChanges m)];
    rewrite IH, ?merges_emit; by apply merges_called.
Qed.

(** C9 Without auto-merge and without a positive answer to the approval request
    no merge command is ever issued, and the phase never reports the work as
    merged. *)
Theorem no_merge_without_approval c w :
  mc_autoMerge c = false ->
  (forall ask pr, mc_onMergeApprovalRequired c = Some ask -> ask pr <> Ok true) ->
  merges (run c w).2 = merges w
  /\ (forall r, (run c w).1 = Ok r -> mr_merged r = false).
Proof.
  intros Hauto Hask. unfold run, executeMergePhase.
  destruct (reposToProcess c) as [repos|]; [|by split; [|intros r [= <-]]].
  pose proof (create_merges c repos [] []
    (fold_left (pushRemaining hasChanges c) repos (emit (EvPhaseStart (length (mc_repositories c) `max` 1)) w)))
    as Hm. rewrite push_merges, merges_emit in Hm. unfold create in Hm.
  destruct (fold_left (createOne _ c) repos _) as [[prs errs] w3]. simpl in Hm.
  destruct prs as [|p prs]; [by split; [|intros r [= <-]]|].
  unfold askApproval. rewrite Hauto.
  destruct (mc_onMergeApprovalRequired c) as [ask|] eqn:Ea; [|by split; [|intros r [= <-]]].
  pose proof (Hask ask (rp_pr p) eq_refl) as Hno.
  destruct (ask (rp_pr p)) as [[]|m]; [done|by split; [|intros r [= <-]]|done].
Qed.

(** ** What is created and what is merged *)

Lemma createOne_prs c repos prs errs w :
  exists l, (fold_left (create c) repos (prs, errs, w)).1.1 = prs ++ l
    /\ Forall2 (fun p r => rp_repoPath p = p_path r /\ rp_repoName p = p_name r) l
         (base.filter (fun r => isOk (createPullRequest (p_path r) (prTitle c r)
            (buildPRBody (mc_task c) (mc_analysisDescription c) (mc_storiesCompleted c)
               (mc_totalStories c) (p_name r) (p_type r))) = true) repos).
Proof.
  unfold create. revert prs errs w. induction repos as [|r repos IH]; intros prs errs w.
  - exists []. by rewrite app_nil_r.
  - simpl. rewrite filter_cons. destruct (createPullRequest _ _ _) as [pr|m] eqn:E; simpl.
    + edestruct IH as (l & -> & Hl). eexists (_ :: l). rewrite <- app_assoc. split; [reflexivity|].
      constructor; [done|exact Hl].
    + destruct (isNoChanges m); apply IH.
Qed.

Lemma mergeStep_results prs res w :
  exists os, length os = length prs
    /\ (fold_left (mergeStep getPullRequestStatus mergePullRequest) prs (res, w)).1
       = res ++ zip prs os
    /\ Forall2 (fun p o => isOk o = true ->
         (exists s, getPullRequestStatus (rp_repoPath p) (pr_no (rp_pr p)) = Ok s
            /\ ps_state s = PROpen /\ ps_mergeable s = true)
         /\ isOk (mergePullRequest (rp_repoPath p) (pr_no (rp_pr p))) = true) prs os.
Proof.
  revert res w. induction prs as [|p prs IH]; intros res w.
  - exists []. by rewrite app_nil_r.
  - simpl. destruct (mergeOne _ _ p w) as [o w'] eqn:E.
    destruct (IH (res ++ [(p, o)]) w') as (os & Hlen & -> & Hall).
    exists (o :: os). simpl. split_and!; [by rewrite Hlen|by rewrite <- app_assoc|].
    constructor; [|done]. intros Ho. unfold mergeOne in E.
    destruct (getPullRequestStatus _ _) as [s|m]; [|by simplify_eq].
    destruct (bool_decide (ps_state s = PROpen)) eqn:Es; simpl in E; [|by simplify_eq].
    destruct (ps_mergeable s) eqn:Em; simpl in E; [|by simplify_eq].
    apply bool_decide_eq_true in Es. simplify_eq. eauto.
Qed.

Lemma forallb_zip (prs : list RepoPullRequestInfo) (os : list (outcome unit)) :
  length os = length prs -> forallb (fun e => isOk e.2) (zip prs os) = true ->
  Forall (fun o => isOk o = true) os.
Proof.
  revert os. induction prs as [|p prs IH]; intros [|o os] Hlen; try done. simpl.
  intros [??]%andb_true_iff. constructor; [done|]. apply IH; [|done]. by injection Hlen.
Qed.

(** C10 A result that says merged means it: every pull request of the result was
    opened by this run, one for each repository whose creation succeeded and in
    repository order, was found open and free of conflicts, and its merge
    command succeeded. *)
Theorem merged_means_all_merged c w repos r :
  reposToProcess c = Some repos -> (run c w).1 = Ok r -> mr_merged r = true ->
  mr_pullRequests r <> []
  /\ Forall2 (fun p q => rp_repoPath p = p_path q /\ rp_repoName p = p_name q) (mr_pullRequests r)
       (base.filter (fun q => isOk (createPullRequest (p_path q) (prTitle c q)
            (buildPRBody (mc_task c) (mc_analysisDescription c) (mc_storiesCompleted c)
               (mc_totalStories c) (p_name q) (p_type q))) = true) repos)
  /\ Forall (fun p =>
       (exists s, getPullRequestStatus (rp_repoPath p) (pr_no (rp_pr p)) = Ok s
          /\ ps_state s = PROpen /\ ps_mergeable s = true)
       /\ isOk (mergePullRequest (rp_repoPath p) (pr_no (rp_pr p))) = true) (mr_pullRequests r).
Proof.
  intros Hrepos. unfold run, executeMergePhase. rewrite Hrepos.
  set (w2 := fold_left (pushRemaining hasChanges c) repos _).
  destruct (createOne_prs c repos [] [] w2) as (l & Hl & Hf). unfold create in Hl.
  destruct (fold_left (createOne _ c) repos _) as [[prs errs] w3]. simpl in Hl. subst l.
  destruct prs as [|p prs]; [by intros [= <-]|].
  destruct (askApproval c p (p :: prs) _) as [[[]|m] w5]; [| |done]; [|by intros [= <-]].
  unfold mergeAll. destruct (mergeStep_results (p :: prs) [] w5) as (os & Hlen & Hres & Hall).
  destruct (fold_left _ (p :: prs) ([], w5)) as [res w6]. cbn [fst app] in Hres. subst res.
  intros [= <-]. cbn [mr_merged mr_pullRequests]. intros Hok.
  apply (forallb_zip (p :: prs)) in Hok; [|done]. split_and!; [done|exact Hf|].
  clear -Hall Hok. induction Hall as [|q o l os Hqo _ IH]; [done|].
  inversion Hok; subst. constructor; auto.
Qed.

End proofs.
(** ** Concrete runs *)

Definition demoTask : Task :=
  mapRow (newRow "t1" 0 {| cp_userId := "u"; cp_projectId := None; cp_repositoryId := None;
                           cp_title := "T"; cp_description := None; cp_status := None |}).
Definition demoRepo (n : string) : RepositoryInfo :=
  {| r_id := n; r_name := n; r_type := n; r_localPath := "/w/" +:+ n; r_executionOrder := None |}.
Definition demoContext (auto : bool) : MergePhaseContext :=
  {| mc_task := demoTask; mc_workingDirectory := None;
     mc_repositories := [demoRepo "api"; demoRepo "web"]; mc_branchName := "feature/x";
     mc_analysisDescription := "a"; mc_storiesCompleted := 1; mc_totalStories := 1;
     mc_onMergeApprovalRequired := None; mc_autoMerge := auto |}.
Definition demoWorld : World := {| w_tasks := ∅; w_calls := []; w_events := [] |}.

(** Both repositories number their pull requests from 7; [web] has a conflict. *)
Definition demoCreate (path title body : string) : outcome PullRequestInfo :=
  Ok {| pr_no := 7; pr_link := path +:+ "/pull/7"; pr_title := title |}.
Definition demoStatus (path : string) (n : Z) : outcome PRStatus :=
  Ok {| ps_state := PROpen; ps_mergeable := bool_decide (path = "/w/api"); ps_failed := 0 |}.
Definition demoStatusOk (path : string) (n : Z) : outcome PRStatus :=
  Ok {| ps_state := PROpen; ps_mergeable := true; ps_failed := 0 |}.
Definition demoMerge (path : string) (n : Z) : outcome unit := Ok tt.

Lemma no_merge_without_approval_witness :
  merges (executeMergePhase (fun _ => Ok false) demoCreate demoStatus demoMerge 5
            (demoContext false) demoWorld).2 = [].
Proof.
  apply (no_merge_without_approval (fun _ => Ok false) demoCreate demoStatus demoMerge 5
    (demoContext false) demoWorld eq_refl). intros ask pr Ha. discriminate.
Defined.

Lemma merged_means_all_merged_witness :
  exists r, (executeMergePhase (fun _ => Ok false) demoCreate demoStatusOk demoMerge 5
               (demoContext true) demoWorld).1 = Ok r /\ mr_pullRequests r <> [].
Proof.
  eexists. split; [vm_compute; reflexivity|].
  eapply (merged_means_all_merged (fun _ => Ok false) demoCreate demoStatusOk demoMerge 5
    (demoContext true) demoWorld); [reflexivity|vm_compute; reflexivity|reflexivity].
Defined.

(** The per-repository flags of the completion event are looked up by pull
    request number, which is only unique within one repository: with two
    repositories whose requests carry the same number, a conflict in the second
    is reported to the frontend as merged. *)
Theorem merged_flag_confuses_repositories :
  exists r e, (executeMergePhase (fun _ => Ok false) demoCreate demoStatus demoMerge 5
                 (demoContext true) demoWorld).1 = Ok r
    /\ mr_merged r = false
    /\ mr_error r = Some "Some merges failed: web: PR has merge conflicts"
    /\ w_events (executeMergePhase (fun _ => Ok false) demoCreate demoStatus demoMerge 5
                 (demoContext true) demoWorld).2 !! 3 = Some e
    /\ e = EvPhaseComplete true (Some false)
             [(7%Z, "api", Some true); (7%Z, "web", Some true)]
             (Some ["web: PR has merge conflicts"]).
Proof. do 2 eexists. split_and!; vm_compute; reflexivity. Qed.

End MergeSpec.
