(* ===== verification/GlobalScan.v ===== *)
(** * Global scan phase (src/orchestration/phases/GlobalScanPhaseV2.ts)

    The repository scan itself is a call to the agent spy; the phase turns its
    result, or its failure, into a report and never throws. *)

From S2P Require Import Prelude TaskTypes TaskRepository.
From stdpp Require Import options.

Module GlobalScan.
Import TaskRepository.

Record RepositoryScan := {
  rc_name : string; rc_path : string; rc_type : string; rc_files : nat; rc_found : nat }.

Record GlobalVulnerabilityScan := {
  gv_scannedAt : Z;
  gv_totalFilesScanned : nat;
  gv_repositoriesScanned : list RepositoryScan;
  gv_vulnerabilities : list Vulnerability;
  gv_bySeverity : Severity -> nat;
  gv_byType : gmap string nat;
  gv_byRepository : gmap string nat;
}.

Record ScanSummary := {
  su_totalRepositories : nat; su_totalFilesScanned : nat; su_totalVulnerabilities : nat;
  su_critical : nat; su_high : nat; su_medium : nat; su_low : nat }.

Record GlobalScanResult := {
  gs_success : bool; gs_scan : GlobalVulnerabilityScan; gs_summary : ScanSummary;
  gs_error : option string }.

Record GlobalScanPhaseContext := {
  gc_task : Task;
  gc_repositories : list RepositoryInfo;
  gc_sessionId : option string;
  gc_branchName : option string;
  gc_mergeSuccess : option bool;
}.

Inductive ScanEvent :=
  | ScanStart (total : nat) (branch : option string) (mergeSuccess : option bool)
  | ScanComplete (success : bool) (summary : option ScanSummary) (error : option string).

Definition createEmptyGlobalScan (now : Z) : GlobalVulnerabilityScan :=
  {| gv_scannedAt := now; gv_totalFilesScanned := 0; gv_repositoriesScanned := [];
     gv_vulnerabilities := []; gv_bySeverity := fun _ => 0; gv_byType := ∅;
     gv_byRepository := ∅ |}.

Definition summaryOf (repos : nat) (g : GlobalVulnerabilityScan) : ScanSummary :=
  {| su_totalRepositories := repos; su_totalFilesScanned := gv_totalFilesScanned g;
     su_totalVulnerabilities := length (gv_vulnerabilities g);
     su_critical := gv_bySeverity g SevCritical; su_high := gv_bySeverity g SevHigh;
     su_medium := gv_bySeverity g SevMedium; su_low := gv_bySeverity g SevLow |}.

(** [agentSpy.scanAllRepositories]: repositories, task id, session id. *)
Definition executeGlobalScanPhase
    (scanAllRepositories : list (string * string * string) -> string -> string ->
       outcome GlobalVulnerabilityScan)
    (now : Z) (c : GlobalScanPhaseContext) : GlobalScanResult * list ScanEvent :=
  let n := length (gc_repositories c) in
  let start := ScanStart n (gc_branchName c) (gc_mergeSuccess c) in
  match scanAllRepositories ((fun r => (r_name r, r_localPath r, r_type r)) <$> gc_repositories c)
          (t_id (gc_task c)) (default "global-scan" (JsStr.orNull (gc_sessionId c))) with
  | Ok g =>
      let s := summaryOf n g in
      ({| gs_success := true; gs_scan := g; gs_summary := s; gs_error := None |},
       [start; ScanComplete true (Some s) None])
  | Throw m =>
      let g := createEmptyGlobalScan now in
      ({| gs_success := false; gs_scan := g; gs_summary := summaryOf n g; gs_error := Some m |},
       [start; ScanComplete false None (Some m)])
  end.

End GlobalScan.
