(* ===== verification/AgentSpyProofs.v ===== *)
(** * Theorems on the security spy

    The counters agree with the stored vulnerabilities in every reachable
    state; the risk score is bounded and is a function of the counters; what a
    file scan and a command analysis report, said with the declarative meaning
    of the patterns; bounds of a scan; loop detection; and what is left of the
    workspace scan where [require] is not bound. *)

From S2P Require Import Prelude JsNumber Json Regex TaskTypes SpyPatterns AgentSpy TaskRepository GlobalScan.
From stdpp Require Import options.

Module SpySpec.
Import SpyPatterns AgentSpy.

#[local] Opaque DANGEROUS_COMMANDS NETWORK_ATTACKS SECRET_PATTERNS SENSITIVE_PATHS SUPPLY_CHAIN_PATTERNS
  CODE_INJECTION_PATTERNS PERSISTENCE_PATTERNS PROMPT_INJECTION_PATTERNS CONTAINER_ESCAPE_PATTERNS.

(** ** Counters and store *)

(** How many of [vs] satisfy a test. *)
Definition count (f : SpyVulnerability -> bool) (vs : list SpyVulnerability) : nat :=
  length (base.filter (fun v => f v = true) vs).

Definition hasSeverity (s : VulnerabilitySeverity) (v : SpyVulnerability) : bool :=
  bool_decide (vu_severity v = s).
Definition hasType (k : string) (v : SpyVulnerability) : bool := bool_decide (typeName (vu_type v) = k).
Definition hasCategory (k : string) (v : SpyVulnerability) : bool := bool_decide (vu_category v = k).

Definition countsOf (vs : list SpyVulnerability) : SeverityCounts :=
  {| n_low := count (hasSeverity low) vs; n_medium := count (hasSeverity medium) vs;
     n_high := count (hasSeverity high) vs; n_critical := count (hasSeverity critical) vs |}.

(** The counters of a task say what its stored vulnerabilities are. *)
Definition consistent (vs : list SpyVulnerability) (m : SpyMetrics) : Prop :=
  me_vulnerabilitiesDetected m = length vs
  /\ me_bySeverity m = countsOf vs
  /\ (forall k, default 0 (JsMap.get k (me_byType m)) = count (hasType k) vs)
  /\ (forall k, default 0 (JsMap.get k (me_byCategory m)) = count (hasCategory k) vs).

Definition wf (s : Spy) : Prop :=
  forall taskId, consistent (getVulnerabilities taskId s) (metricsOf taskId s).

Lemma count_app f vs ws : count f (vs ++ ws) = count f vs + count f ws.
Proof. unfold count. by rewrite list.filter_app, length_app. Qed.

Lemma count_one f v : count f [v] = if f v then 1 else 0.
Proof. unfold count. rewrite filter_cons. by destruct (f v). Qed.

Lemma bumpSeverity_counts vs v :
  bumpSeverity (vu_severity v) (countsOf vs) = countsOf (vs ++ [v]).
Proof.
  assert (forall x, count (hasSeverity x) [v] = if decide (vu_severity v = x) then 1 else 0) as Hx.
  { intros x. rewrite count_one. unfold hasSeverity. case_bool_decide; by case_decide. }
  unfold countsOf. rewrite !count_app, !Hx.
  destruct (vu_severity v); repeat case_decide; try done; cbn [bumpSeverity n_low n_medium n_high n_critical];
    f_equal; lia.
Qed.

Lemma bump_count (key : SpyVulnerability -> string) m vs v :
  (forall k, default 0 (JsMap.get k m) = count (fun v => bool_decide (key v = k)) vs) ->
  forall k, default 0 (JsMap.get k (bump (key v) m)) = count (fun v => bool_decide (key v = k)) (vs ++ [v]).
Proof.
  intros Hm k. rewrite count_app, count_one. unfold bump. rewrite <- Hm.
  destruct (decide (key v = k)) as [<-|Hne].
  - rewrite JsMap.get_set_eq, bool_decide_true by done. simpl. lia.
  - rewrite JsMap.get_set_ne, bool_decide_false by done. lia.
Qed.

Lemma consistent_snoc vs m v : consistent vs m -> consistent (vs ++ [v]) (countVulnerability m v).
Proof.
  intros (H1 & H2 & H3 & H4). split_and!; cbn.
  - rewrite H1, length_app. simpl. lia.
  - by rewrite H2, bumpSeverity_counts.
  - by apply (bump_count (fun v => typeName (vu_type v))).
  - by apply (bump_count vu_category).
Qed.

Lemma consistent_fold vs m ds :
  consistent vs m -> consistent (vs ++ ds) (fold_left countVulnerability ds m).
Proof.
  revert vs m. induction ds as [|d ds IH]; intros vs m Hc; simpl; [by rewrite app_nil_r|].
  rewrite cons_middle, app_assoc. by apply IH, consistent_snoc.
Qed.

Lemma consistent_init : consistent [] createInitialMetrics.
Proof. by split_and!. Qed.

Lemma wf_init : wf initSpy.
Proof. intros taskId. apply consistent_init. Qed.

Lemma wf_storeDetected taskId ds s : wf s -> wf (storeDetected taskId ds s).
Proof.
  intros Hs t. destruct ds as [|d ds]; [apply Hs|].
  unfold storeDetected, getVulnerabilities, metricsOf. cbn [sp_vulnerabilities sp_metrics].
  destruct (decide (taskId = t)) as [<-|Hne].
  - rewrite !JsMap.get_set_eq. apply consistent_fold, Hs.
  - rewrite !JsMap.get_set_ne by done. apply Hs.
Qed.

Lemma wf_useIds n s : wf s -> wf (useIds n s).
Proof. done. Qed.

Lemma wf_countEvent taskId b s : wf s -> wf (countEvent taskId b s).
Proof.
  intros Hs t. unfold countEvent, setMetrics, getVulnerabilities, metricsOf.
  cbn [sp_vulnerabilities sp_metrics]. destruct (decide (taskId = t)) as [<-|Hne].
  - rewrite JsMap.get_set_eq. apply Hs.
  - rewrite JsMap.get_set_ne by done. apply Hs.
Qed.

Lemma wf_clear taskId s : wf s -> wf (clear taskId s).
Proof.
  intros Hs t. unfold clear, getVulnerabilities, metricsOf. cbn [sp_vulnerabilities sp_metrics].
  destruct (decide (taskId = t)) as [<-|Hne].
  - rewrite !JsMap.get_delete_eq. apply consistent_init.
  - rewrite !JsMap.get_delete_ne by done. apply Hs.
Qed.

#[local] Hint Resolve wf_init wf_storeDetected wf_useIds wf_countEvent wf_clear : js.

(** Tagging changes nothing the counters look at. *)
Lemma count_tag f r vs : (forall v, f (tag r v) = f v) -> count f (tag r <$> vs) = count f vs.
Proof.
  intros Hf. unfold count. induction vs as [|v vs IH]; [done|]. cbn [fmap list_fmap].
  rewrite !filter_cons, Hf. case_decide; simpl; by rewrite IH.
Qed.

Lemma consistent_tag vs ws r m : consistent (vs ++ ws) m -> consistent (vs ++ (tag r <$> ws)) m.
Proof.
  intros (H1 & H2 & H3 & H4). split_and!.
  - by rewrite length_app, length_fmap, <- length_app.
  - rewrite H2. unfold countsOf. by rewrite !count_app, !count_tag.
  - intros k. by rewrite H3, !count_app, count_tag.
  - intros k. by rewrite H4, !count_app, count_tag.
Qed.

Lemma wf_tagStored taskId r n s : wf s -> wf (tagStored taskId r n s).
Proof.
  intros Hs t. destruct n as [|n]; [apply Hs|]. unfold tagStored. cbv zeta.
  set (l := getVulnerabilities taskId s).
  unfold getVulnerabilities at 1, metricsOf. cbn [sp_vulnerabilities sp_metrics].
  destruct (decide (taskId = t)) as [<-|Hne].
  - rewrite JsMap.get_set_eq. cbn [default from_option id]. apply consistent_tag. rewrite take_drop. apply Hs.
  - rewrite JsMap.get_set_ne by done. apply Hs.
Qed.

#[local] Hint Resolve wf_tagStored : js.

Section steps.
Context `{NodeFs}.
Variable stringify : Json.Json -> string.
Variable genId : nat -> string.

Lemma wf_eventFindings now session e s : wf s -> wf (eventFindings stringify now session e s).2.
Proof. intros Hs. destruct e; cbn; [|done..]. by destruct (analyzeToolBefore _ _ _ _). Qed.

Lemma wf_analyze now e ctx s : wf s -> wf (analyze stringify genId now e ctx s).2.
Proof.
  intros Hs. unfold analyze. pose proof (wf_eventFindings now (cx_sessionId ctx) e
    (countEvent (cx_taskId ctx) (isToolBefore e) s)) as He.
  destruct (eventFindings _ _ _ _ _) as [fs s2]. destruct (createAll _ _ _ _ _); simpl in *; auto with js.
Qed.

Lemma wf_scanWorkspace now w ctx o s : wf s -> wf (scanWorkspace genId now w ctx o s).2.
Proof. intros Hs. unfold scanWorkspace. simpl. auto with js. Qed.

Lemma wf_scanRepo now ctx st r : wf st.2 -> wf (scanRepo genId now ctx st r).2.
Proof.
  intros Hs. unfold scanRepo. pose proof (wf_scanWorkspace now (re_localPath r) ctx globalOptions st.2 Hs) as Hw.
  destruct (scanWorkspace _ _ _ _ _ _) as [vs s1]. simpl in *. auto with js.
Qed.

Lemma wf_scanAllRepositories now rs ctx s : wf s -> wf (scanAllRepositories genId now rs ctx s).2.
Proof.
  unfold scanAllRepositories. generalize (emptyReport now) as g. revert s.
  induction rs as [|r rs IH]; intros s g Hs; [done|]. simpl.
  pose proof (wf_scanRepo now ctx (g, s) r Hs) as Hr. destruct (scanRepo _ _ _ _ _) as [g' s'].
  by apply IH.
Qed.

(** The operations of the service, as transitions. *)
Inductive detStep : Spy -> Spy -> Prop :=
  | step_analyze now e ctx s : detStep s (analyze stringify genId now e ctx s).2
  | step_scanWorkspace now w ctx o s : detStep s (scanWorkspace genId now w ctx o s).2
  | step_scanAll now rs ctx s : detStep s (scanAllRepositories genId now rs ctx s).2
  | step_clear taskId s : detStep s (clear taskId s).

Inductive step : Spy -> Spy -> Prop :=
  | step_detect s s' : detStep s s' -> step s s'
  | step_external now taskId v s : step s (registerExternalVulnerability genId now taskId v s).

Lemma wf_step s s' : step s s' -> wf s -> wf s'.
Proof.
  intros [? ? [ | | | ]|] Hs; auto using wf_analyze, wf_scanWorkspace, wf_scanAllRepositories with js.
  unfold registerExternalVulnerability. auto with js.
Qed.

Lemma wf_reachable s : rtc step initSpy s -> wf s.
Proof.
  intros Hr. remember initSpy as s0 eqn:E. assert (wf s0) as H0 by (subst; auto with js). clear E.
  induction Hr; eauto using wf_step.
Qed.

End steps.

(** C22 The counters of a task agree with its stored vulnerabilities after any
    sequence of event analyses, workspace scans, repository scans (which also
    tag the stored objects), external registrations and clears: the total, the
    four severities, and every type and category. *)
Theorem spy_metrics_agree `{NodeFs} stringify genId s taskId :
  rtc (step stringify genId) initSpy s ->
  consistent (getVulnerabilities taskId s) (metricsOf taskId s).
Proof. intros Hr. by apply (wf_reachable stringify genId). Qed.

(** ** The risk score *)

Definition weighted (c : SeverityCounts) : Z :=
  (25 * Z.of_nat (n_critical c) + 15 * Z.of_nat (n_high c) + 5 * Z.of_nat (n_medium c)
   + Z.of_nat (n_low c))%Z.

Lemma weighted_bump s c : weighted (bumpSeverity s c) = (weighted c + severityWeight s)%Z.
Proof. unfold weighted. destruct s; simpl; lia. Qed.

Lemma risk_weighted vs c :
  fold_left (fun acc v => (acc + severityWeight (vu_severity v))%Z) vs (weighted c)
  = weighted (fold_left (fun c v => bumpSeverity (vu_severity v) c) vs c).
Proof. revert c. induction vs as [|v vs IH]; intros c; simpl; [done|]. by rewrite <- weighted_bump, IH. Qed.

Lemma fold_countsOf vs ws :
  fold_left (fun c v => bumpSeverity (vu_severity v) c) ws (countsOf vs) = countsOf (vs ++ ws).
Proof.
  revert vs. induction ws as [|w ws IH]; intros vs; simpl; [by rewrite app_nil_r|].
  by rewrite bumpSeverity_counts, IH, <- app_assoc.
Qed.

Lemma riskScore_counts vs : riskScore vs = Z.min 100 (weighted (countsOf vs)).
Proof.
  unfold riskScore. f_equal. change 0%Z with (weighted (countsOf [])) at 1.
  by rewrite risk_weighted, fold_countsOf.
Qed.

(** The risk score of a summary lies between 0 and 100 and is, in every
    reachable state, the weighted sum (25, 15, 5, 1) of the severity counters
    cut at 100, although it is computed from the stored vulnerabilities. *)
Theorem spy_risk_score_bounds `{NodeFs} stringify genId s taskId :
  rtc (step stringify genId) initSpy s ->
  let m := getSummary taskId s in
  (0 <= sm_riskScore m <= 100)%Z
  /\ sm_riskScore m = Z.min 100 (weighted (me_bySeverity (metricsOf taskId s))).
Proof.
  intros Hr m. subst m. unfold getSummary. cbn [sm_riskScore]. rewrite riskScore_counts.
  destruct (wf_reachable stringify genId s Hr taskId) as (_ & -> & _).
  split; [|done]. set (c := countsOf _). assert (0 <= weighted c)%Z by (unfold weighted; lia). lia.
Qed.

(** ** What a stored vulnerability looks like *)

(** Which findings ask to block: critical ones, injections from high on, and
    long loops. *)
Definition mayBlock (sev : VulnerabilitySeverity) (category : string) : Prop :=
  sev = critical \/ sev = high /\ (category = "code_injection" \/ category = "resource_exhaustion").

Definition findingOk (f : Finding) : Prop := fd_blocked f = true -> mayBlock (fd_severity f) (fd_category f).

Definition wellTyped (taskId : string) (v : SpyVulnerability) : Prop :=
  vu_taskId v = taskId
  /\ vu_owaspCategory v = Some (OWASP_MAPPINGS (vu_type v))
  /\ vu_cweId v = Some (CWE_MAPPINGS (vu_type v))
  /\ vu_recommendation v = Some (RECOMMENDATIONS (vu_type v))
  /\ (vu_blocked v = true -> mayBlock (vu_severity v) (vu_category v)).

Lemma elem_detect mk table s f :
  f ∈ detect mk table s <-> exists t p, (t, p) ∈ table /\ test p s = true /\ f = mk t p.
Proof.
  unfold detect. rewrite list_elem_of_omap. split.
  - intros ([t p] & Hin & Hf). simpl in Hf. case_match; simplify_eq. eauto.
  - intros (t & p & Hin & Ht & ->). exists (t, p). simpl. by rewrite Ht.
Qed.

Lemma isCritical_ok s c : isCritical s = true -> mayBlock s c.
Proof. intros ?%bool_decide_eq_true. by left. Qed.

Lemma isCriticalOrHigh_ok s : isCriticalOrHigh s = true -> mayBlock s "code_injection".
Proof.
  intros [?%bool_decide_eq_true|?%bool_decide_eq_true]%orb_true_iff; [by left|by right; auto].
Qed.

#[local] Hint Resolve isCritical_ok isCriticalOrHigh_ok : js.

Lemma bashFindings_ok tool c f : f ∈ bashFindings tool c -> findingOk f.
Proof.
  unfold bashFindings. rewrite !elem_of_app, !elem_detect. intros Hf Hb.
  destruct_or! Hf; destruct Hf as (t & p & _ & _ & ->); simpl in *; auto with js.
Qed.

Lemma fileFindings_ok tool a f : f ∈ fileFindings tool a -> findingOk f.
Proof.
  unfold fileFindings. cbv zeta. rewrite !elem_of_app, elem_detect.
  intros [(t & p & _ & _ & ->)|[Hf|Hf]] Hb; [by apply isCritical_ok| |].
  - match type of Hf with _ ∈ (if ?b then _ else _) => destruct b end; [|by apply not_elem_of_nil in Hf].
    by apply elem_detect in Hf as (t & p & _ & _ & ->).
  - destruct (bool_decide _); [|by apply not_elem_of_nil in Hf].
    destruct (JsStr.orNull _); [|by apply not_elem_of_nil in Hf].
    by apply elem_detect in Hf as (t & p & _ & _ & ->).
Qed.

Lemma analyzeToolBefore_ok now tool a l f : f ∈ (analyzeToolBefore now tool a l).2 -> findingOk f.
Proof.
  unfold analyzeToolBefore. destruct (loopStep now tool l) as [st fs] eqn:E. simpl.
  rewrite elem_of_app. intros [Hf|Hf].
  - unfold callFindings in Hf. apply elem_of_app in Hf as [Hf|Hf].
    + destruct (bool_decide _), (JsStr.orNull (ta_command a)); try (by apply not_elem_of_nil in Hf).
      by eapply bashFindings_ok.
    + destruct tool; [case_bool_decide|]; try (by apply not_elem_of_nil in Hf). by eapply fileFindings_ok.
  - unfold loopStep in E. repeat case_match; simplify_eq; try (by apply not_elem_of_nil in Hf).
    apply list_elem_of_singleton in Hf as ->. intros _. right. simpl. auto.
Qed.

Lemma analyzeToolAfter_ok st tool r f : f ∈ analyzeToolAfter st tool r -> findingOk f.
Proof. unfold analyzeToolAfter. case_match; [|by intros ?%not_elem_of_nil]. by intros ->%list_elem_of_singleton. Qed.

Lemma analyzeMessage_ok part f : f ∈ analyzeMessage part -> findingOk f.
Proof.
  unfold analyzeMessage. repeat case_match; try (by intros ?%not_elem_of_nil). unfold messageFindings.
  rewrite !elem_of_app, elem_detect. intros [Hf|[(ty & q & _ & _ & ->)|Hf]] Hb.
  - case_match; [|by apply not_elem_of_nil in Hf]. by apply list_elem_of_singleton in Hf as ->.
  - simpl in *. auto with js.
  - case_match; [|by apply not_elem_of_nil in Hf]. by apply list_elem_of_singleton in Hf as ->.
Qed.

Lemma elem_scanTable prefix category path table lines f :
  f ∈ scanTable prefix category path table lines <->
  exists t p i l, (t, p) ∈ table /\ firstLine p 0 lines = Some (i, l)
    /\ f = scanFinding prefix category path t p i l.
Proof.
  unfold scanTable. rewrite list_elem_of_omap. split.
  - intros ([t p] & Hin & Hf). simpl in Hf. destruct (firstLine p 0 lines) as [[i l]|] eqn:E; simplify_eq/=.
    by exists t, p, i, l.
  - intros (t & p & i & l & Hin & Hl & ->). exists (t, p). simpl. by rewrite Hl.
Qed.

Lemma scanFileContent_ok path content f : f ∈ scanFileContent path content -> findingOk f.
Proof.
  unfold scanFileContent. rewrite !elem_of_app. intros Hf. destruct_or! Hf; try case_match; try (by apply not_elem_of_nil in Hf);
    apply elem_scanTable in Hf as (t & p & i & l & _ & _ & ->); done.
Qed.

(** A property of everything stored for a task. *)
Definition stored (P : string -> SpyVulnerability -> Prop) (s : Spy) : Prop :=
  forall taskId v, v ∈ getVulnerabilities taskId s -> P taskId v.

Lemma stored_storeDetected P taskId ds s :
  stored P s -> (forall v, v ∈ ds -> P taskId v) -> stored P (storeDetected taskId ds s).
Proof.
  intros Hs Hd t v. destruct ds as [|d ds]; [apply Hs|]. unfold storeDetected, getVulnerabilities at 1.
  cbn [sp_vulnerabilities]. destruct (decide (taskId = t)) as [<-|Hne].
  - rewrite JsMap.get_set_eq. cbn [default from_option id]. rewrite elem_of_app. intros [Hv|Hv]; [by apply Hs|by apply Hd].
  - rewrite JsMap.get_set_ne by done. apply Hs.
Qed.

Lemma stored_clear P taskId s : stored P s -> stored P (clear taskId s).
Proof.
  intros Hs t v. unfold clear, getVulnerabilities. cbn [sp_vulnerabilities].
  destruct (decide (taskId = t)) as [<-|Hne].
  - rewrite JsMap.get_delete_eq. by intros ?%not_elem_of_nil.
  - rewrite JsMap.get_delete_ne by done. apply Hs.
Qed.

(** A scan of a repository tags what it has just stored, and nothing else. *)
Lemma tagStored_store taskId r n s l vs :
  getVulnerabilities taskId s = l ++ vs -> length vs = n ->
  getVulnerabilities taskId (tagStored taskId r n s) = l ++ (tag r <$> vs).
Proof.
  intros Hl <-. destruct vs as [|v vs]; [done|]. unfold tagStored. cbn [length]. cbv zeta.
  unfold getVulnerabilities at 1. cbn [sp_vulnerabilities]. rewrite JsMap.get_set_eq. cbn [default from_option id].
  rewrite Hl, length_app. cbn [length].
  replace (length l + S (length vs) - S (length vs)) with (length l) by lia.
  by rewrite take_app_length, drop_app_length.
Qed.

Lemma tagStored_other taskId t r n s :
  taskId <> t -> getVulnerabilities t (tagStored taskId r n s) = getVulnerabilities t s.
Proof.
  intros Hne. destruct n as [|n]; [done|]. unfold tagStored, getVulnerabilities at 1. cbn [sp_vulnerabilities].
  by rewrite JsMap.get_set_ne.
Qed.

Lemma storeDetected_store taskId ds s :
  getVulnerabilities taskId (storeDetected taskId ds s) = getVulnerabilities taskId s ++ ds.
Proof.
  destruct ds as [|d ds]; [by rewrite app_nil_r|]. unfold storeDetected, getVulnerabilities at 1. cbn [sp_vulnerabilities].
  by rewrite JsMap.get_set_eq.
Qed.

Lemma storeDetected_other taskId t ds s :
  taskId <> t -> getVulnerabilities t (storeDetected taskId ds s) = getVulnerabilities t s.
Proof.
  intros Hne. destruct ds as [|d ds]; [done|]. unfold storeDetected, getVulnerabilities at 1. cbn [sp_vulnerabilities].
  by rewrite JsMap.get_set_ne.
Qed.

Section enriched.
Context `{NodeFs}.
Variable stringify : Json.Json -> string.
Variable genId : nat -> string.
(** What else may be in the store. *)
Variable X : string -> SpyVulnerability -> Prop.

Definition typedOr (taskId : string) (v : SpyVulnerability) : Prop := wellTyped taskId v \/ X taskId v.

Lemma createVulnerability_typed now ctx n f v :
  createVulnerability genId now ctx n f = Ok v -> findingOk f -> wellTyped (cx_taskId ctx) v.
Proof. unfold createVulnerability. destruct (absolutePath ctx f); intros; by simplify_eq. Qed.

Lemma createAll_typed now ctx n fs vs :
  createAll genId now ctx n fs = Ok vs -> (forall f, f ∈ fs -> findingOk f) ->
  forall v, v ∈ vs -> wellTyped (cx_taskId ctx) v.
Proof.
  revert n vs. induction fs as [|f fs IH]; intros n vs Hc Hf v Hv; simpl in Hc; simplify_eq.
  { by apply not_elem_of_nil in Hv. }
  destruct (createVulnerability genId now ctx n f) as [w|] eqn:E; [|done].
  destruct (createAll genId now ctx (S n) fs) as [ws|] eqn:E'; simplify_eq.
  apply elem_of_cons in Hv as [->|Hv].
  - eapply createVulnerability_typed; [done|]. apply Hf, list_elem_of_here.
  - eapply IH; eauto. intros g Hg. by apply Hf, list_elem_of_further.
Qed.

Lemma eventFindings_ok now session e s f : f ∈ (eventFindings stringify now session e s).1 -> findingOk f.
Proof.
  destruct e as [tool args|tool result|part|]; cbn [eventFindings].
  - destruct (analyzeToolBefore _ _ _ _) as [l fs] eqn:E. simpl. intros Hf.
    apply (analyzeToolBefore_ok now tool args (JsMap.get session (sp_loops s))). by rewrite E.
  - apply analyzeToolAfter_ok.
  - apply analyzeMessage_ok.
  - by intros ?%not_elem_of_nil.
Qed.

Lemma eventFindings_store now session e s t :
  getVulnerabilities t (eventFindings stringify now session e s).2 = getVulnerabilities t s.
Proof. destruct e; cbn; [|done..]. by destruct (analyzeToolBefore _ _ _ _). Qed.

Lemma typed_analyze now e ctx s :
  stored typedOr s -> stored typedOr (analyze stringify genId now e ctx s).2.
Proof.
  intros Hs. unfold analyze.
  pose proof (eventFindings_ok now (cx_sessionId ctx) e (countEvent (cx_taskId ctx) (isToolBefore e) s)) as Hok.
  pose proof (eventFindings_store now (cx_sessionId ctx) e (countEvent (cx_taskId ctx) (isToolBefore e) s)) as Hst.
  destruct (eventFindings _ _ _ _ _) as [fs s2]. cbn [fst snd] in *.
  assert (stored typedOr s2) as Hs2 by (intros t v; rewrite Hst; apply Hs).
  destruct (createAll _ _ _ _ _) as [vs|] eqn:E; cbn [snd]; [|done].
  apply stored_storeDetected; [done|]. intros v Hv. left. eauto using createAll_typed.
Qed.

Lemma scanOne_typed now ctx size n full vs v :
  scanOne genId now ctx size n full = Some vs -> v ∈ vs -> wellTyped (cx_taskId ctx) v.
Proof.
  unfold scanOne. intros H1 Hv. destruct (statSync full) as [st|]; [|done]. simpl in H1.
  case_match; [done|]. destruct (readFileSync full) as [c|]; [|done]. simpl in H1.
  destruct (createAll _ _ _ _ _) as [ws|] eqn:E; simplify_eq.
  eapply createAll_typed; eauto using scanFileContent_ok.
Qed.

Lemma scanFiles_typed now ctx ws m size n k files v :
  v ∈ scanFiles genId now ctx ws m size n k files -> wellTyped (cx_taskId ctx) v.
Proof.
  revert n k. induction files as [|f files IH]; intros n k; simpl; [by intros ?%not_elem_of_nil|].
  case_match; [by intros ?%not_elem_of_nil|]. destruct (scanOne _ _ _ _ _ _) eqn:E; [|apply IH].
  rewrite elem_of_app. intros [Hv|Hv]; eauto using scanOne_typed.
Qed.

Lemma typed_scanWorkspace now w ctx o s :
  stored typedOr s -> stored typedOr (scanWorkspace genId now w ctx o s).2.
Proof.
  intros Hs. unfold scanWorkspace. apply stored_storeDetected; [done|]. intros v Hv. left.
  by apply scanFiles_typed in Hv.
Qed.

Lemma typed_scanRepo now ctx st r : stored typedOr st.2 -> stored typedOr (scanRepo genId now ctx st r).2.
Proof.
  intros Hs t v. unfold scanRepo, scanWorkspace. cbn [snd].
  match goal with |- context [storeDetected _ ?l ?s0] => set (vs := l); set (s1 := s0) end.
  destruct (decide (cx_taskId ctx = t)) as [<-|Hne].
  - rewrite (tagStored_store _ _ _ _ (getVulnerabilities (cx_taskId ctx) s1) vs);
      [|apply storeDetected_store|done].
    intros [Hv|(u & -> & Hu)%list_elem_of_fmap]%elem_of_app; [by apply Hs|]. left.
    by apply scanFiles_typed in Hu.
  - rewrite tagStored_other, storeDetected_other by done. apply Hs.
Qed.

Lemma typed_scanAll now rs ctx s :
  stored typedOr s -> stored typedOr (scanAllRepositories genId now rs ctx s).2.
Proof.
  unfold scanAllRepositories. generalize (emptyReport now) as g. revert s.
  induction rs as [|r rs IH]; intros s g Hs; [done|]. cbn [fold_left].
  pose proof (typed_scanRepo now ctx (g, s) r Hs) as Hr.
  destruct (scanRepo _ _ _ _ _) as [g' s']. by apply IH.
Qed.

Lemma typed_step s s' : detStep stringify genId s s' -> stored typedOr s -> stored typedOr s'.
Proof. destruct 1; auto using typed_analyze, typed_scanWorkspace, typed_scanAll, stored_clear. Qed.

End enriched.

(** The operations with the list of what was registered from outside. *)
Inductive registering `{NodeFs} (stringify : Json.Json -> string) (genId : nat -> string) :
    Spy * list (string * SpyVulnerability) -> Spy * list (string * SpyVulnerability) -> Prop :=
  | reg_detect s s' h : detStep stringify genId s s' -> registering stringify genId (s, h) (s', h)
  | reg_external now taskId v s h :
      registering stringify genId (s, h) (registerExternalVulnerability genId now taskId v s, h ++ [(taskId, v)]).

(** A registered vulnerability, with the id and the time the service gives it. *)
Definition registeredIn (h : list (string * SpyVulnerability)) (taskId : string) (v : SpyVulnerability) : Prop :=
  exists v0 id now, (taskId, v0) ∈ h /\ v = withId id now v0.

Lemma typed_registered `{NodeFs} stringify genId s h :
  rtc (registering stringify genId) (initSpy, []) (s, h) -> stored (typedOr (registeredIn h)) s.
Proof.
  intros Hr. change (stored (typedOr (registeredIn (s, h).2)) (s, h).1).
  remember (initSpy, []) as c0 eqn:E. assert (stored (typedOr (registeredIn c0.2)) c0.1) as H0.
  { subst. intros t v. by intros ?%not_elem_of_nil. }
  clear E. induction Hr as [|c1 c2 c3 Hs _ IH]; [done|]. apply IH. clear IH.
  destruct Hs as [s1 s2 h1 Hs|now taskId v s1 h1]; cbn [fst snd] in *; [by eapply typed_step|].
  intros t u. unfold registerExternalVulnerability. destruct (decide (taskId = t)) as [<-|Hne].
  - rewrite storeDetected_store. intros [Hu|Hu%list_elem_of_singleton]%elem_of_app.
    + destruct (H0 taskId u Hu) as [?|(v0 & i & n & ? & ?)]; [by left|]. right. exists v0, i, n. set_solver.
    + right. exists v, (genId (sp_ids s1)), now. set_solver.
  - rewrite storeDetected_other by done. intros Hu.
    destruct (H0 t u Hu) as [?|(v0 & i & n & ? & ?)]; [by left|]. right. exists v0, i, n. set_solver.
Qed.

(** C31: Whatever mixture of detections, scans, registrations from outside and
    clears: a stored vulnerability is either one the service detected, and then
    it is filed under its own task, carries the OWASP category, the CWE number
    and the recommendation of its type, and asks to block only when it is
    critical, or a high injection in a command, or a loop; or it was registered
    from outside for this very task, and then it is stored as it was given but
    for its id and time, with whatever type and data it came with. *)
Theorem spy_stored_well_typed `{NodeFs} stringify genId s h taskId v :
  rtc (registering stringify genId) (initSpy, []) (s, h) -> v ∈ getVulnerabilities taskId s ->
  wellTyped taskId v \/ registeredIn h taskId v.
Proof. intros Hr. by apply (typed_registered stringify genId). Qed.

(** ** What a file scan reports *)

(** The pattern matches somewhere in the text, by the meaning of its syntax. *)
Definition occurs (p : Pattern) (l : string) : Prop :=
  exists q q', q ∈ Regex.places None l /\ Regex.matches (pt_ci p) (pt_prog p) q q'.

Lemma test_occurs p l : test p l = true <-> occurs p l.
Proof. apply Regex.test_spec. Qed.

Lemma firstLine_spec p ls k i l :
  firstLine p k ls = Some (i, l) <->
  exists j, i = k + j /\ ls !! j = Some l /\ test p l = true
    /\ forall j' l', j' < j -> ls !! j' = Some l' -> test p l' = false.
Proof.
  revert k. induction ls as [|x ls IH]; intros k; simpl.
  { split; [done|]. by intros (j & _ & Hj & _). }
  destruct (test p x) eqn:Hx.
  - split.
    + intros ?. simplify_eq. exists 0. split_and!; [lia|done|done|lia].
    + intros ([|j] & -> & Hj & Hl & Hmin); simplify_eq/=; [by rewrite Nat.add_0_r|].
      specialize (Hmin 0 x ltac:(lia) eq_refl). congruence.
  - rewrite IH. split.
    + intros (j & -> & Hj & Hl & Hmin). exists (S j). split_and!; [lia|done|done|].
      intros [|j'] l' Hlt Hl'; simplify_eq/=; [done|]. by eapply (Hmin j'); [lia|].
    + intros ([|j] & -> & Hj & Hl & Hmin); simplify_eq/=; [congruence|]. exists j. split_and!; [lia|done|done|].
      intros j' l' Hlt Hl'. by apply (Hmin (S j') l'); [lia|].
Qed.

(** The tables applied to a file: prefix of the description, category, table. *)
Definition scanTables (path : string) : list (string * string * list (VulnerabilityType * Pattern)) :=
  [("Secret found in code: ", "secrets", withType secret_exposure SECRET_PATTERNS);
   ("", "code_injection", CODE_INJECTION_PATTERNS);
   ("", "file_system", withType sensitive_file_access SENSITIVE_PATHS)] ++
  (if isScript path then [("", "system_destruction", withType dangerous_command DANGEROUS_COMMANDS)] else []).

Lemma scanFileContent_tables path content f :
  f ∈ scanFileContent path content <->
  exists prefix category table, (prefix, category, table) ∈ scanTables path
    /\ f ∈ scanTable prefix category path table (splitLines content).
Proof.
  unfold scanFileContent, scanTables. rewrite !elem_of_app. split.
  - intros [Hf|[Hf|[Hf|Hf]]].
    1-3: do 3 eexists; (split; [|exact Hf]); rewrite elem_of_app; left;
      repeat first [apply list_elem_of_here|apply list_elem_of_further].
    + case_match; [|by apply not_elem_of_nil in Hf]. do 3 eexists. split; [|exact Hf].
      rewrite elem_of_app. right. apply list_elem_of_here.
  - intros (pre & cat & tb & Hin & Hf). apply elem_of_app in Hin as [Hin|Hin].
    + rewrite !elem_of_cons in Hin. destruct Hin as [Hin|[Hin|[Hin|Hin]]]; [..|by apply not_elem_of_nil in Hin];
        injection Hin as -> -> ->; [left|right; left|do 2 right; left]; exact Hf.
    + case_match; [|by apply not_elem_of_nil in Hin]. apply list_elem_of_singleton in Hin.
      injection Hin as -> -> ->. do 3 right. exact Hf.
Qed.

(** A file scan reports exactly the patterns of its tables that occur in some
    line, by the declarative meaning of regular expressions, each with the
    first such line; destructive commands are looked for in scripts only. *)
Theorem scanFileContent_correct path content f :
  f ∈ scanFileContent path content <->
  exists prefix category table t p i line,
    (prefix, category, table) ∈ scanTables path /\ (t, p) ∈ table
    /\ splitLines content !! i = Some line /\ occurs p line
    /\ (forall j l, j < i -> splitLines content !! j = Some l -> ~ occurs p l)
    /\ f = scanFinding prefix category path t p i line.
Proof.
  rewrite scanFileContent_tables. setoid_rewrite elem_scanTable. setoid_rewrite firstLine_spec.
  setoid_rewrite <- test_occurs. split.
  - intros (pre & cat & tb & Hin & t & p & i & l & Htp & (j & Hi & Hl & Ht & Hmin) & ->). simpl in Hi. subst.
    exists pre, cat, tb, t, p, j, l. split_and!; try done. intros j' l' Hlt Hl' Ho.
    specialize (Hmin j' l' Hlt Hl'). congruence.
  - intros (pre & cat & tb & t & p & i & l & Hin & Htp & Hl & Ht & Hmin & ->).
    exists pre, cat, tb. split; [done|]. exists t, p, i, l. split_and!; [done| |done]. exists i. split_and!; try done.
    intros j' l' Hlt Hl'. apply not_true_is_false. by eapply Hmin.
Qed.

(** ** Bounds of a scan *)

Lemma omap_length {A B} (f : A -> option B) l : length (omap f l) <= length l.
Proof.
  induction l as [|x l IH]; [done|].
  change (omap f (x :: l)) with (match f x with Some y => y :: omap f l | None => omap f l end).
  destruct (f x); cbn [length]; lia.
Qed.

(** The number of patterns a file is checked against. *)
Definition filePatterns : nat :=
  length SECRET_PATTERNS + length CODE_INJECTION_PATTERNS + length SENSITIVE_PATHS
  + length DANGEROUS_COMMANDS.

Lemma scanTable_length pre cat path table lines :
  length (scanTable pre cat path table lines) <= length table.
Proof. apply omap_length. Qed.

Lemma scanFileContent_length path content : length (scanFileContent path content) <= filePatterns.
Proof.
  unfold scanFileContent, filePatterns. rewrite !length_app.
  pose proof (scanTable_length "Secret found in code: " "secrets" path
    (withType secret_exposure SECRET_PATTERNS) (splitLines content)) as H1.
  pose proof (scanTable_length "" "code_injection" path CODE_INJECTION_PATTERNS (splitLines content)) as H2.
  pose proof (scanTable_length "" "file_system" path
    (withType sensitive_file_access SENSITIVE_PATHS) (splitLines content)) as H3.
  pose proof (scanTable_length "" "system_destruction" path
    (withType dangerous_command DANGEROUS_COMMANDS) (splitLines content)) as H4.
  unfold withType in *. rewrite length_fmap in H1, H3, H4.
  destruct (isScript path); [|cbn [length]]; lia.
Qed.

Section bounds.
Context `{NodeFs}.
Variable genId : nat -> string.

Lemma walkDir_length m fuel dir files :
  length files <= m -> length (walkDir m fuel dir files) <= m.
Proof.
  revert dir files. induction fuel as [|fuel IH]; intros dir files Hf; [done|]. cbn [walkDir].
  destruct (Nat.leb_spec m (length files)); [done|]. destruct (readdirSync dir) as [es|]; [|done].
  clear H0. revert files Hf. induction es as [|e es IHes]; intros files Hf; [done|].
  destruct (Nat.leb_spec m (length files)); [done|].
  destruct (en_kind e); apply IHes; [|case_match; rewrite ?length_app; simpl; lia|done].
  case_match; [by apply IH|done].
Qed.

Lemma createAll_length now ctx n fs vs : createAll genId now ctx n fs = Ok vs -> length vs = length fs.
Proof.
  revert n vs. induction fs as [|f fs IH]; intros n vs Hc; simpl in Hc; simplify_eq; [done|].
  destruct (createVulnerability genId now ctx n f); [|done].
  destruct (createAll genId now ctx (S n) fs) eqn:E; simplify_eq. simpl. f_equal. by eapply IH.
Qed.

Lemma scanOne_length now ctx size n full vs :
  scanOne genId now ctx size n full = Some vs -> length vs <= filePatterns.
Proof.
  unfold scanOne. intros H1. destruct (statSync full) as [st|]; [|done]. simpl in H1.
  case_match; [done|]. destruct (readFileSync full) as [c|]; [|done]. simpl in H1.
  destruct (createAll _ _ _ _ _) as [ws|] eqn:E; simplify_eq.
  rewrite (createAll_length _ _ _ _ _ E). apply scanFileContent_length.
Qed.

Lemma scanFiles_length now ctx ws m size n k files :
  length (scanFiles genId now ctx ws m size n k files) <= filePatterns * (m - k).
Proof.
  revert n k. induction files as [|f files IH]; intros n k; cbn [scanFiles]; [apply Nat.le_0_l|].
  destruct (Nat.leb_spec m k); [apply Nat.le_0_l|].
  destruct (scanOne _ _ _ _ _ _) as [vs|] eqn:E; [|apply IH]. rewrite length_app.
  apply scanOne_length in E. specialize (IH (n + length vs) (S k)).
  replace (m - k) with (S (m - S k)) by lia. rewrite Nat.mul_succ_r. lia.
Qed.

End bounds.

(** A workspace scan is bounded whatever the file system holds: the walk
    returns at most [maxFiles] files, from at most six levels of directories
    (so it also ends on a cyclic tree), and the scan reports at most 159
    findings for each of at most [maxFiles] files. *)
Theorem scan_bounds `{NodeFs} genId now w ctx o s :
  let m := default 100 (so_maxFiles o) in
  length (findCodeFiles w m) <= m
  /\ length (scanWorkspace genId now w ctx o s).1 <= 159 * m
  /\ countCodeFiles w <= 500.
Proof.
  intros m. split_and!.
  - unfold findCodeFiles. apply walkDir_length. simpl. lia.
  - unfold scanWorkspace. cbn [fst]. etrans; [apply scanFiles_length|]. fold m.
    replace filePatterns with 159 by (by vm_compute). lia.
  - unfold countCodeFiles, findCodeFiles. apply walkDir_length. simpl. lia.
Qed.

(** ** The scan where [require] is not bound *)

(** What node documents: a resolved path is absolute, a joined path is never
    empty. *)
Class NodeFsOk `{NodeFs} : Prop := {
  resolve_absolute p : isAbsolute (pathResolve p) = true;
  join_nonempty a b : pathJoin a b <> "";
}.

Lemma absolute_nonempty p : isAbsolute p = true -> JsStr.orNull (Some p) = Some p.
Proof. by destruct p. Qed.

Lemma scanFileContent_path path content f : f ∈ scanFileContent path content -> fd_filePath f = Some path.
Proof.
  rewrite scanFileContent_tables. intros (pre & cat & tb & _ & Hf).
  by apply elem_scanTable in Hf as (t & p & i & l & _ & _ & ->).
Qed.

Lemma useIds_0 s : useIds 0 s = s.
Proof. destruct s. unfold useIds. simpl. f_equal. lia. Qed.

(** The files counted in a list of repositories. *)
Definition filesIn `{NodeFs} (rs : list Repo) : nat :=
  foldr (fun r n => countCodeFiles (re_localPath r) + n) 0 rs.

Section blind.
#[local] Set Default Proof Using "All".
Context `{NodeFs, !NodeFsOk}.
Variable genId : nat -> string.
Hypothesis noRequire : requireDefined = false.

Lemma absoluteWorkspace_absolute w : isAbsolute (absoluteWorkspace w) = true.
Proof. unfold absoluteWorkspace. destruct (isAbsolute w) eqn:E; [done|]. apply resolve_absolute. Qed.

Lemma createAll_blind now ctx n fs vs ws path :
  cx_workspacePath ctx = Some ws -> isAbsolute ws = true -> JsStr.orNull (Some path) = Some path ->
  (forall f, f ∈ fs -> fd_filePath f = Some path) ->
  createAll genId now ctx n fs = Ok vs -> vs = [].
Proof.
  intros Hw Ha Hp Hf. destruct fs as [|f fs]; simpl; [congruence|].
  unfold createVulnerability, absolutePath. rewrite Hw, (Hf f) by apply list_elem_of_here.
  rewrite Hp, (absolute_nonempty ws Ha), noRequire. done.
Qed.

Lemma scanFiles_blind now ctx ws m size n k files :
  cx_workspacePath ctx = Some ws -> isAbsolute ws = true ->
  scanFiles genId now ctx ws m size n k files = [].
Proof.
  intros Hw Ha. revert n k. induction files as [|f files IH]; intros n k; cbn [scanFiles]; [done|].
  case_match; [done|]. set (full := if isAbsolute f then f else pathJoin ws f).
  assert (JsStr.orNull (Some full) = Some full) as Hfull.
  { unfold full. destruct (isAbsolute f) eqn:E; [by apply absolute_nonempty|].
    pose proof (join_nonempty ws f). by destruct (pathJoin ws f). }
  destruct (scanOne genId now ctx size n full) as [vs|] eqn:E; [|apply IH].
  assert (vs = []) as ->; [|by rewrite IH].
  unfold scanOne in E. destruct (statSync full) as [st|]; [|done]. simpl in E. case_match; [done|].
  destruct (readFileSync full) as [c|]; [|done]. simpl in E.
  destruct (createAll _ _ _ _ _) as [us|] eqn:E'; simplify_eq.
  eapply createAll_blind; eauto using scanFileContent_path.
Qed.

Lemma scanWorkspace_blind now w ctx o s : scanWorkspace genId now w ctx o s = ([], s).
Proof.
  unfold scanWorkspace. cbv zeta. rewrite scanFiles_blind; [|done|apply absoluteWorkspace_absolute].
  cbn [storeDetected length]. by rewrite useIds_0.
Qed.

Lemma scanAll_blind now rs ctx s :
  let r := scanAllRepositories genId now rs ctx s in
  r.2 = s /\ gr_vulnerabilities r.1 = [] /\ gr_bySeverity r.1 = noCounts
  /\ gr_totalFilesScanned r.1 = filesIn rs.
Proof.
  unfold scanAllRepositories.
  enough (forall g, gr_vulnerabilities g = [] -> gr_bySeverity g = noCounts ->
    let r := fold_left (scanRepo genId now ctx) rs (g, s) in
    r.2 = s /\ gr_vulnerabilities r.1 = [] /\ gr_bySeverity r.1 = noCounts
    /\ gr_totalFilesScanned r.1 = gr_totalFilesScanned g + filesIn rs) as Hg by (by apply Hg).
  induction rs as [|r rs IH]; intros g Hv Hs; cbn [fold_left filesIn foldr]; [split_and!; auto with arith|].
  unfold scanRepo at 2 4 6 8. cbn [fst snd]. rewrite scanWorkspace_blind. cbn [tagStored length].
  destruct (IH (reportRepo r (countCodeFiles (re_localPath r)) [] g)) as (H1 & H2 & H3 & H4).
  { cbn. by rewrite Hv. }
  { done. }
  split_and!; try done. rewrite H4. cbn [reportRepo gr_totalFilesScanned]. unfold filesIn. lia.
Qed.

End blind.

(** ** The scan as the global scan phase receives it *)

Definition severityV2 (s : VulnerabilitySeverity) : Severity :=
  match s with low => SevLow | medium => SevMedium | high => SevHigh | critical => SevCritical end.

Definition asV2 (v : SpyVulnerability) : Vulnerability :=
  {| v_id := vu_id v; v_taskId := vu_taskId v; v_sessionId := vu_sessionId v; v_phase := vu_phase v;
     v_severity := severityV2 (vu_severity v); v_type := typeName (vu_type v);
     v_blocked := vu_blocked v; v_toolUseId := vu_toolUseId v |}.

(** The fields of the report, copied one by one. *)
Definition asGlobalScan (g : GlobalScanReport) : GlobalScan.GlobalVulnerabilityScan :=
  {| GlobalScan.gv_scannedAt := gr_scannedAt g;
     GlobalScan.gv_totalFilesScanned := gr_totalFilesScanned g;
     GlobalScan.gv_repositoriesScanned :=
       (fun r => {| GlobalScan.rc_name := rs_name r; GlobalScan.rc_path := rs_path r;
                    GlobalScan.rc_type := rs_type r; GlobalScan.rc_files := rs_filesScanned r;
                    GlobalScan.rc_found := rs_vulnerabilitiesFound r |}) <$> gr_repositoriesScanned g;
     GlobalScan.gv_vulnerabilities := asV2 <$> gr_vulnerabilities g;
     GlobalScan.gv_bySeverity := fun s =>
       match s with
       | SevLow => n_low (gr_bySeverity g) | SevMedium => n_medium (gr_bySeverity g)
       | SevHigh => n_high (gr_bySeverity g) | SevCritical => n_critical (gr_bySeverity g)
       | SevOther => 0
       end;
     GlobalScan.gv_byType := list_to_map (gr_byType g);
     GlobalScan.gv_byRepository := list_to_map (gr_byRepository g) |}.

Definition scanContext (taskId sessionId : string) : SpyContext :=
  {| cx_taskId := taskId; cx_sessionId := sessionId; cx_phase := "GlobalScan"; cx_storyId := None;
     cx_workspacePath := None; cx_iteration := None; cx_toolUseId := None; cx_turnNumber := None |}.

Definition repoOf (r : string * string * string) : Repo :=
  {| re_name := r.1.1; re_localPath := r.1.2; re_type := r.2 |}.

(** The service behind the phase's call. *)
Definition spyScan `{NodeFs} (genId : nat -> string) (now : Z) (s : Spy)
    (rs : list (string * string * string)) (taskId sessionId : string)
    : outcome GlobalScan.GlobalVulnerabilityScan :=
  Ok (asGlobalScan (scanAllRepositories genId now (repoOf <$> rs) (scanContext taskId sessionId) s).1).

(** C23 Where [require] is not bound, as under node's loader for this package,
    the final security scan reports success and no vulnerability for every
    file system, every repository and every state of the spy: each finding in
    a file throws while its absolute path is built, and the file is skipped.
    The summary still counts the code files as scanned. *)
Theorem global_scan_blind `{NodeFs, !NodeFsOk} genId now s c :
  requireDefined = false ->
  let r := (GlobalScan.executeGlobalScanPhase (spyScan genId now s) now c).1 in
  GlobalScan.gs_success r = true
  /\ GlobalScan.gv_vulnerabilities (GlobalScan.gs_scan r) = []
  /\ GlobalScan.gs_summary r =
       {| GlobalScan.su_totalRepositories := length (GlobalScan.gc_repositories c);
          GlobalScan.su_totalFilesScanned :=
            filesIn ((fun r => {| re_name := r_name r; re_localPath := r_localPath r; re_type := r_type r |})
                       <$> GlobalScan.gc_repositories c);
          GlobalScan.su_totalVulnerabilities := 0; GlobalScan.su_critical := 0;
          GlobalScan.su_high := 0; GlobalScan.su_medium := 0; GlobalScan.su_low := 0 |}.
Proof.
  intros Hreq r. subst r. unfold GlobalScan.executeGlobalScanPhase, spyScan.
  rewrite <- list_fmap_compose. set (rs := (repoOf ∘ _) <$> _). set (ctx := scanContext _ _).
  destruct (scanAll_blind genId Hreq now rs ctx s) as (_ & Hv & Hs & Hf).
  cbn [fst GlobalScan.gs_success GlobalScan.gs_scan GlobalScan.gs_summary].
  unfold GlobalScan.summaryOf, asGlobalScan.
  cbn [GlobalScan.gv_vulnerabilities GlobalScan.gv_bySeverity GlobalScan.gv_totalFilesScanned].
  rewrite Hv, Hs, Hf. split_and!; [done|done|]. unfold rs. by rewrite length_nil.
Qed.

(** ** Commands *)

(** The tables a shell command is checked against, with their blocking rule. *)
Definition commandTables : list (string * (VulnerabilitySeverity -> bool) * list (VulnerabilityType * Pattern)) :=
  [("system_destruction", isCritical, withType dangerous_command DANGEROUS_COMMANDS);
   ("network_attack", isCritical, NETWORK_ATTACKS);
   ("code_injection", isCriticalOrHigh, CODE_INJECTION_PATTERNS);
   ("persistence", isCritical, PERSISTENCE_PATTERNS);
   ("supply_chain", isCritical, SUPPLY_CHAIN_PATTERNS);
   ("privilege_escalation", isCritical, CONTAINER_ESCAPE_PATTERNS)].

Lemma bashFindings_tables tool c category blocked table t p :
  (category, blocked, table) ∈ commandTables -> (t, p) ∈ table -> test p c = true ->
  commandFinding category blocked tool c t p ∈ bashFindings tool c.
Proof.
  intros Hin Htp Ht. unfold bashFindings. rewrite !elem_of_app, !elem_detect.
  unfold commandTables in Hin. rewrite !elem_of_cons in Hin.
  destruct Hin as [Hin|[Hin|[Hin|[Hin|[Hin|[Hin|Hin]]]]]]; [..|by apply not_elem_of_nil in Hin];
    injection Hin as -> -> ->;
    [left|right; left|do 2 right; left|do 3 right; left|do 4 right; left|do 5 right];
    exists t, p; (split_and!; [exact Htp|exact Ht|reflexivity]).
Qed.

Section commands.
Context `{NodeFs}.
Variable stringify : Json.Json -> string.
Variable genId : nat -> string.

Lemma createAll_total now ctx n fs :
  JsStr.orNull (cx_workspacePath ctx) = None ->
  exists vs, createAll genId now ctx n fs = Ok vs
    /\ forall f, f ∈ fs -> exists v, v ∈ vs /\ vu_blocked v = fd_blocked f /\ vu_type v = fd_type f
         /\ vu_severity v = fd_severity f /\ vu_category v = fd_category f
         /\ vu_matchedPattern v = fd_matchedPattern f.
Proof.
  intros Hw. revert n. induction fs as [|f fs IH]; intros n; cbn [createAll].
  { exists []. split; [done|]. by intros f ?%not_elem_of_nil. }
  unfold createVulnerability, absolutePath. rewrite Hw.
  destruct (IH (S n)) as (vs & -> & Hvs). eexists. split; [done|].
  intros g [->|Hg]%elem_of_cons.
  - eexists. split; [apply list_elem_of_here|]. done.
  - destruct (Hvs g Hg) as (v & Hv & ?). exists v. split; [by apply list_elem_of_further|done].
Qed.

Lemma storeDetected_in taskId ds s v : v ∈ ds -> v ∈ getVulnerabilities taskId (storeDetected taskId ds s).
Proof.
  intros Hv. destruct ds as [|d ds]; [by apply not_elem_of_nil in Hv|].
  unfold storeDetected, getVulnerabilities at 1. cbn [sp_vulnerabilities].
  rewrite JsMap.get_set_eq. cbn [default from_option id]. rewrite elem_of_app. auto.
Qed.

End commands.

(** Before a shell command runs, its analysis returns (it never throws
    without a workspace path in the context), and for every pattern of the six
    command tables that occurs in the command it returns and stores a
    vulnerability of the pattern's type and severity; a critical one is marked
    as blocking. *)
Theorem dangerous_command_reported `{NodeFs} stringify genId now ctx s args command
    category blocked table t p :
  JsStr.orNull (cx_workspacePath ctx) = None ->
  ta_command args = Some command -> command <> "" ->
  (category, blocked, table) ∈ commandTables -> (t, p) ∈ table -> occurs p command ->
  exists vs v, (analyze stringify genId now (ToolBefore (Some "bash") args) ctx s).1 = Ok vs /\ v ∈ vs
    /\ v ∈ getVulnerabilities (cx_taskId ctx)
              (analyze stringify genId now (ToolBefore (Some "bash") args) ctx s).2
    /\ vu_type v = t /\ vu_severity v = pt_severity p /\ vu_matchedPattern v = Some (toString p)
    /\ vu_blocked v = blocked (pt_severity p)
    /\ (pt_severity p = critical -> shouldBlock v = true).
Proof.
  intros Hw Hc Hne Hin Htp Hocc. apply test_occurs in Hocc.
  unfold analyze. cbn [eventFindings isToolBefore]. unfold analyzeToolBefore.
  destruct (loopStep _ _ _) as [st fs]. cbv beta iota zeta.
  set (s2 := setLoop _ _ _). set (all := callFindings _ _ ++ fs).
  assert (commandFinding category blocked (Some "bash") command t p ∈ all) as Hall.
  { unfold all. apply elem_of_app. left. unfold callFindings. apply elem_of_app. left.
    rewrite bool_decide_true, Hc by done. destruct command; [done|]. by eapply bashFindings_tables. }
  destruct (createAll_total genId now ctx (sp_ids s2) all Hw) as (vs & -> & Hvs).
  destruct (Hvs _ Hall) as (v & Hv & Hb & Ht & Hs & _ & Hm). exists vs, v. cbn [fst snd].
  split_and!; try done; [by apply storeDetected_in|].
  intros Hcrit. unfold shouldBlock. rewrite Hb. cbn [commandFinding fd_blocked]. rewrite Hcrit.
  unfold commandTables in Hin. rewrite !elem_of_cons in Hin.
  destruct Hin as [Hin|[Hin|[Hin|[Hin|[Hin|[Hin|Hin]]]]]]; [..|by apply not_elem_of_nil in Hin];
    injection Hin as -> -> ->; reflexivity.
Qed.

(** ** Loops *)

(** The state after calls of one tool at the given times. *)
Definition loopAfter (tool : option string) (times : list Z) (s : option LoopState) : option LoopState :=
  fold_left (fun st now => Some (loopStep now tool st).1) times s.

Definition otherTool (tool : option string) (s : option LoopState) : Prop :=
  match s with Some st => lo_lastTool st <> tool | None => True end.

Lemma loopAfter_state tool t0 ts s :
  otherTool tool s ->
  loopAfter tool (t0 :: ts) s
  = Some {| lo_count := S (length ts); lo_lastTool := tool; lo_timestamp := t0 |}.
Proof.
  intros Ho. unfold loopAfter. cbn [fold_left].
  assert ((loopStep t0 tool s).1 = {| lo_count := 1; lo_lastTool := tool; lo_timestamp := t0 |}) as ->.
  { unfold loopStep. destruct s as [st|]; [|done]. by rewrite bool_decide_false. }
  change 1 with (S 0) at 1. change (S (length ts)) with (S (0 + length ts)).
  generalize 0 as n. induction ts as [|t ts IH]; intros n; cbn [fold_left length]; [by rewrite Nat.add_0_r|].
  unfold loopStep at 2. cbn [lo_lastTool lo_count lo_timestamp]. rewrite bool_decide_true by done. cbn [fst].
  rewrite IH. do 2 f_equal. lia.
Qed.

(** Loop detection: in a run of calls of one tool, the first one at [t0] and
    this one, the n-th, at [t], the call is reported exactly when it is at
    least the eleventh and less than a minute has passed since the first of
    the run; from the twenty-first call on the report asks to block. *)
Theorem loop_detection_exact tool t0 ts t s :
  otherTool tool s ->
  (loopStep t tool (loopAfter tool (t0 :: ts) s)).2
  = let n := S (S (length ts)) in
    if (10 <? n) && (t - t0 <? 60000)%Z then [loopFinding tool n (t - t0)] else [].
Proof.
  intros Ho. rewrite loopAfter_state by done. unfold loopStep. cbn [lo_lastTool lo_count lo_timestamp].
  by rewrite bool_decide_true.
Qed.

(** ** Witnesses: a workspace with one file that holds a secret *)

Definition demoFs (req : bool) : NodeFs :=
  {| readdirSync d := if bool_decide (d = "/w") then Some [{| en_name := "a.ts"; en_kind := KFile |}] else None;
     statSync f := if bool_decide (f = "/w/a.ts") then Some {| st_isFile := true; st_size := 40 |} else None;
     readFileSync f := if bool_decide (f = "/w/a.ts") then Some "const password = 'hunter2hunter2'" else None;
     pathJoin a b := a +:+ "/" +:+ b; pathResolve p := "/cwd/" +:+ p; requireDefined := req |}.

Lemma demoFs_ok req : NodeFsOk (H := demoFs req).
Proof. split; [done|]. intros a b. by destruct a. Qed.

Definition demoId (n : nat) : string := "vul_" +:+ String (Ascii.ascii_of_nat (48 + n)) "".
Definition demoStringify (_ : Json.Json) : string := "{}".
Definition demoCtx : SpyContext := scanContext "t1" "s1".
Definition noArgs : ToolArgs :=
  {| ta_command := Some "sudo rm -rf /"; ta_file_path := None; ta_path := None; ta_content := None;
     ta_new_string := None; ta_old_string := None; ta_line_number := None; ta_offset := None |}.

(** An analysed command, then a scan in a module that has [require]. *)
Definition demoAnalyzed : Spy :=
  (analyze (H := demoFs true) demoStringify demoId 5 (ToolBefore (Some "bash") noArgs) demoCtx initSpy).2.
Definition demoSpy : Spy :=
  (scanAllRepositories (H := demoFs true) demoId 6
     [{| re_name := "w"; re_localPath := "/w"; re_type := "backend" |}] demoCtx demoAnalyzed).2.

Lemma demo_reachable : rtc (detStep (H := demoFs true) demoStringify demoId) initSpy demoSpy.
Proof.
  eapply rtc_l; [apply (step_analyze (H := demoFs true) demoStringify demoId 5
    (ToolBefore (Some "bash") noArgs) demoCtx)|].
  eapply rtc_l; [apply (step_scanAll (H := demoFs true) demoStringify demoId 6)|apply rtc_refl].
Qed.

(** The same, and a vulnerability registered from outside. *)
Definition demoExternal : SpyVulnerability :=
  withId "x" 0 (default (withId "x" 0 (Build_SpyVulnerability "" "" "" "" 0 low code_injection "" Json.JNull None false None "" None None
    None None None None None None None None None None None None)) (hd_error (getVulnerabilities "t1" demoSpy))).

Definition demoRegistered : Spy :=
  registerExternalVulnerability demoId 7 "t1" demoExternal demoSpy.

Lemma demo_registering : rtc (registering (H := demoFs true) demoStringify demoId) (initSpy, [])
  (demoRegistered, [("t1", demoExternal)]).
Proof.
  eapply rtc_r; [|apply (reg_external (H := demoFs true) demoStringify demoId 7 "t1" demoExternal demoSpy [])].
  apply (rtc_congruence (fun s => (s, [])) (R := detStep (H := demoFs true) demoStringify demoId)); [|exact demo_reachable].
  intros a b Hab. by apply reg_detect.
Qed.

Lemma demo_steps : rtc (step (H := demoFs true) demoStringify demoId) initSpy demoSpy.
Proof. eapply (rtc_subrel _ _ _ _ (step_detect (H := demoFs true) demoStringify demoId)), demo_reachable. Qed.

Lemma spy_metrics_agree_witness :
  consistent (getVulnerabilities "t1" demoSpy) (metricsOf "t1" demoSpy)
  /\ length (getVulnerabilities "t1" demoSpy) = 2.
Proof. split; [apply (spy_metrics_agree _ _ _ _ demo_steps)|by vm_compute]. Defined.

Lemma spy_risk_score_bounds_witness :
  (0 <= sm_riskScore (getSummary "t1" demoSpy) <= 100)%Z /\ sm_riskScore (getSummary "t1" demoSpy) = 40%Z.
Proof. split; [apply (spy_risk_score_bounds _ _ _ "t1" demo_steps)|by vm_compute]. Defined.

Lemma spy_stored_well_typed_witness :
  length (getVulnerabilities "t1" demoRegistered) = 3
  /\ exists v, getVulnerabilities "t1" demoRegistered !! 1 = Some v /\ vu_repositoryName v = Some "w"
    /\ (wellTyped "t1" v \/ registeredIn [("t1", demoExternal)] "t1" v).
Proof.
  split; [by vm_compute|]. eexists. split; [by vm_compute|]. split; [done|].
  apply (spy_stored_well_typed _ _ _ _ _ _ demo_registering). apply (list_elem_of_lookup_2 _ 1). by vm_compute.
Defined.

Definition demoScanContext : GlobalScan.GlobalScanPhaseContext :=
  {| GlobalScan.gc_task := TaskRepository.mapRow (TaskRepository.newRow "t1" 1
       {| TaskRepository.cp_userId := "u1"; TaskRepository.cp_projectId := None;
          TaskRepository.cp_repositoryId := None; TaskRepository.cp_title := "Add login";
          TaskRepository.cp_description := None; TaskRepository.cp_status := None |});
     GlobalScan.gc_repositories := [{| r_id := "r1"; r_name := "w"; r_type := "backend"; r_localPath := "/w";
       r_executionOrder := None |}];
     GlobalScan.gc_sessionId := None; GlobalScan.gc_branchName := None; GlobalScan.gc_mergeSuccess := None |}.

(** The same workspace, with and without [require]. *)
Lemma global_scan_blind_witness :
  GlobalScan.gv_vulnerabilities (GlobalScan.gs_scan (GlobalScan.executeGlobalScanPhase
    (spyScan (H := demoFs false) demoId 6 initSpy) 6 demoScanContext).1) = []
  /\ length (GlobalScan.gv_vulnerabilities (GlobalScan.gs_scan (GlobalScan.executeGlobalScanPhase
       (spyScan (H := demoFs true) demoId 6 initSpy) 6 demoScanContext).1)) = 1.
Proof.
  split; [|by vm_compute].
  apply (global_scan_blind (H := demoFs false) (H0 := demoFs_ok false) demoId 6 initSpy demoScanContext eq_refl).
Defined.

Definition demoPattern : Pattern := Eval vm_compute in pat "rm\s+-rf\s+[\/~]" "" critical "Recursive delete from root or home".

Lemma dangerous_command_reported_witness :
  exists vs v, (analyze (H := demoFs false) demoStringify demoId 5 (ToolBefore (Some "bash") noArgs) demoCtx
                  initSpy).1 = Ok vs /\ v ∈ vs /\ vu_type v = dangerous_command /\ shouldBlock v = true.
Proof.
  destruct (dangerous_command_reported (H := demoFs false) demoStringify demoId 5 demoCtx initSpy noArgs
    "sudo rm -rf /" "system_destruction" isCritical (withType dangerous_command DANGEROUS_COMMANDS)
    dangerous_command demoPattern) as (vs & v & H1 & H2 & _ & H3 & _ & _ & _ & H4).
  - reflexivity.
  - reflexivity.
  - discriminate.
  - unfold commandTables. apply list_elem_of_here.
  - unfold withType. apply list_elem_of_fmap. exists demoPattern. split; [done|].
    apply (list_elem_of_lookup_2 _ 0). by vm_compute.
  - apply test_occurs. by vm_compute.
  - exists vs, v. split_and!; auto.
Defined.

Lemma loop_detection_exact_witness :
  (loopStep 59 (Some "bash") (loopAfter (Some "bash") (0%Z :: replicate 9 5%Z) None)).2
  = [loopFinding (Some "bash") 11 59].
Proof. rewrite (loop_detection_exact (Some "bash") 0 (replicate 9 5%Z) 59 None); done. Defined.

End SpySpec.
