(* ===== verification/BuildCheck.v ===== *)
(** * Build verification (src/orchestration/phases/DeveloperPhaseV2.ts, runBuildCheck)

    Which build command belongs to a repository, from the files it contains. *)

From S2P Require Import Prelude JsNumber Json.
From stdpp Require Import options.

Module BuildCheck.
Import Json.

Record BuildCheckResult := {
  bc_success : bool;
  bc_buildSystem : string;
  bc_command : string;
  bc_error : option string;
  bc_output : option string;
}.

(** The file system below a repository: [existsSync], [readFileSync] and
    [readdirSync] of the repository itself. *)
Record RepoFs := {
  fs_exists : string -> bool;
  fs_read : string -> outcome string;
  fs_readdir : outcome (list string);
}.

(** A command that ended well, or the fields of the error of [execAsync]. *)
Inductive ExecResult :=
  | Exited (stdout stderr : string)
  | ExecFailed (stderr stdout message : string).

Definition dq : string := String "034"%char EmptyString.

Definition findPy : string := "$(find . -name " +:+ dq +:+ "*.py" +:+ dq +:+ " -type f | head -50)".

Abbreviation Build := (string * string)%type.

Section detect.
(** [JSON.parse]; [None] is a throw *)
Variable parse : string -> option Json.

Definition anyExists (fs : RepoFs) (l : list string) : bool := existsb (fs_exists fs) l.

(** 1. package.json; any error in it is ignored. *)
Definition detectNode (fs : RepoFs) : option Build :=
  if fs_exists fs "package.json" then
    match fs_read fs "package.json" with
    | Throw _ => None
    | Ok text =>
        match parse text with
        | None | Some JNull => None
        | Some pkg =>
            let hasBuild := match s ← truthyField "scripts" pkg; truthyField "build" s with
                            | Some _ => true | None => false end in
            if hasBuild then
              if anyExists fs ["vite.config.ts"; "vite.config.js"] then Some ("vite", "npm run build")
              else if anyExists fs ["next.config.js"; "next.config.mjs"; "next.config.ts"]
              then Some ("next", "npm run build")
              else if fs_exists fs "webpack.config.js" then Some ("webpack", "npm run build")
              else Some ("npm", "npm run build")
            else if fs_exists fs "tsconfig.json" then Some ("typescript", "npx tsc --noEmit")
            else None
        end
    end
  else None.

(** 2. Python *)
Definition detectPython (fs : RepoFs) : option Build :=
  if fs_exists fs "pyproject.toml" then
    Some ("python", "python -m mypy . --ignore-missing-imports 2>/dev/null || python -m ruff check . 2>/dev/null || python -m py_compile " +:+ findPy)
  else if fs_exists fs "setup.py" then
    Some ("python-setup", "python setup.py check 2>/dev/null || python -m py_compile " +:+ findPy)
  else if fs_exists fs "requirements.txt" then
    Some ("python-requirements", "python -m py_compile " +:+ findPy +:+ " 2>/dev/null || echo " +:+ dq +:+ "Python syntax check completed" +:+ dq)
  else None.

(** 3. to 5. Go, Rust, Maven *)
Definition detectSimple (fs : RepoFs) : option Build :=
  if fs_exists fs "go.mod" then Some ("go", "go build ./... && go vet ./...")
  else if fs_exists fs "Cargo.toml" then Some ("rust", "cargo check")
  else if fs_exists fs "pom.xml" then Some ("maven", "mvn compile -q")
  else None.

(** 6. Gradle, with its wrapper if there is one *)
Definition detectGradle (fs : RepoFs) : option Build :=
  if anyExists fs ["build.gradle"; "build.gradle.kts"] then
    Some ("gradle", if fs_exists fs "gradlew" then "./gradlew build -x test -q"
                    else "gradle build -x test -q")
  else None.

(** 7. .NET: reading the directory may throw *)
Definition detectDotnet (fs : RepoFs) : outcome (option Build) :=
  match fs_readdir fs with
  | Throw m => Throw m
  | Ok files =>
      Ok (if existsb (JsStr.endsWith ".csproj") files || existsb (JsStr.endsWith ".sln") files
          then Some ("dotnet", "dotnet build --no-restore -v q") else None)
  end.

(** 8. Dart and Flutter *)
Definition detectDart (fs : RepoFs) : option Build :=
  if fs_exists fs "pubspec.yaml" then
    match fs_read fs "pubspec.yaml" with
    | Ok t => if JsStr.includes "flutter:" t || JsStr.includes "flutter_test:" t
              then Some ("flutter", "flutter analyze --no-pub")
              else Some ("dart", "dart analyze")
    | Throw _ => Some ("dart", "dart analyze")
    end
  else None.

(** Each detector runs only when the earlier ones found nothing. *)
Definition detectBuild (fs : RepoFs) : outcome (option Build) :=
  match detectNode fs with
  | Some b => Ok (Some b)
  | None =>
      match detectPython fs with
      | Some b => Ok (Some b)
      | None =>
          match detectSimple fs with
          | Some b => Ok (Some b)
          | None =>
              match detectGradle fs with
              | Some b => Ok (Some b)
              | None =>
                  match detectDotnet fs with
                  | Throw m => Throw m
                  | Ok (Some b) => Ok (Some b)
                  | Ok None => Ok (detectDart fs)
                  end
              end
          end
      end
  end.

(** [a || b] on strings *)
Definition orStr (a b : string) : string := if JsStr.truthy a then a else b.

(** The result of running the detected command. *)
Definition buildResult (b : Build) (x : ExecResult) : BuildCheckResult :=
  match x with
  | Exited out err =>
      {| bc_success := true; bc_buildSystem := b.1; bc_command := b.2; bc_error := None;
         bc_output := Some (orStr out err) |}
  | ExecFailed err out msg =>
      {| bc_success := false; bc_buildSystem := b.1; bc_command := b.2;
         bc_error := Some (orStr err (orStr out msg)); bc_output := None |}
  end.

Definition noBuild : BuildCheckResult :=
  {| bc_success := true; bc_buildSystem := "none"; bc_command := "none"; bc_error := None;
     bc_output := Some "No supported build system found, skipping build check" |}.

(** [exec] runs a command in the repository and may change the world. *)
Definition runBuildCheck {E} (exec : string -> E -> ExecResult * E) (fs : RepoFs) (e : E)
    : outcome BuildCheckResult * E :=
  match detectBuild fs with
  | Throw m => (Throw m, e)
  | Ok None => (Ok noBuild, e)
  | Ok (Some b) => let '(x, e') := exec b.2 e in (Ok (buildResult b x), e')
  end.

End detect.

(** ** Properties *)

(** No detector calls its system "none". *)
Lemma detectBuild_named parse fs b : detectBuild parse fs = Ok (Some b) -> b.1 <> "none".
Proof.
  unfold detectBuild. destruct (detectNode parse fs) as [x|] eqn:E1.
  { intros [= <-]. revert E1. unfold detectNode. repeat case_match; intros [= <-]; discriminate. }
  destruct (detectPython fs) as [x|] eqn:E2.
  { intros [= <-]. revert E2. unfold detectPython. repeat case_match; intros [= <-]; discriminate. }
  destruct (detectSimple fs) as [x|] eqn:E3.
  { intros [= <-]. revert E3. unfold detectSimple. repeat case_match; intros [= <-]; discriminate. }
  destruct (detectGradle fs) as [x|] eqn:E4.
  { intros [= <-]. revert E4. unfold detectGradle. repeat case_match; intros [= <-]; discriminate. }
  destruct (detectDotnet fs) as [[x|]|m] eqn:E5; [| |done].
  { intros [= <-]. revert E5. unfold detectDotnet. destruct (fs_readdir fs); [|done].
    case_match; intros [= <-]; discriminate. }
  unfold detectDart. repeat case_match; intros [= <-]; discriminate.
Qed.

(** A build check blocks a story only for a real build failure: it fails
    exactly when a build system was recognised and its command failed, and then
    the error text shown is the standard error, else the standard output, else
    the message; without a recognised build system it passes and runs nothing. *)
Theorem runBuildCheck_fails_iff {E} parse (exec : string -> E -> ExecResult * E) fs e r e' :
  runBuildCheck parse exec fs e = (Ok r, e') ->
  (bc_success r = false <->
     exists b err out msg, detectBuild parse fs = Ok (Some b)
       /\ exec b.2 e = (ExecFailed err out msg, e')
       /\ bc_error r = Some (orStr err (orStr out msg)))
  /\ (detectBuild parse fs = Ok None -> bc_success r = true /\ e' = e)
  /\ (bc_buildSystem r = "none" -> detectBuild parse fs = Ok None).
Proof.
  unfold runBuildCheck. destruct (detectBuild parse fs) as [[b|]|m] eqn:Hd; [| |done].
  - destruct (exec b.2 e) as [[out err|err out msg] e1] eqn:Hx; intros [= <- <-]; simpl.
    + split_and!; [|done|].
      * split; [done|]. intros (b' & ? & ? & ? & Hb & Hx' & _). simplify_eq. congruence.
      * intros Hn. by destruct (detectBuild_named _ _ _ Hd).
    + split_and!; [|done|].
      * split; [|done]. intros _. exists b, err, out, msg. auto.
      * intros Hn. by destruct (detectBuild_named _ _ _ Hd).
  - intros [= <- <-]. simpl. split_and!; [|done|done].
    split; [done|]. intros (b' & ? & ? & ? & [=] & _).
Qed.

Definition demoFs : RepoFs :=
  {| fs_exists := fun f => bool_decide (f = "Cargo.toml"); fs_read := fun _ => Throw "ENOENT";
     fs_readdir := Ok ["Cargo.toml"] |}.

Lemma runBuildCheck_fails_iff_witness :
  exists r, runBuildCheck (fun _ => None) (fun _ (e : nat) => (ExecFailed "E0432" "" "code 101", S e)) demoFs 0
            = (Ok r, 1) /\ bc_success r = false /\ bc_command r = "cargo check".
Proof.
  exists (buildResult ("rust", "cargo check") (ExecFailed "E0432" "" "code 101")).
  assert (runBuildCheck (fun _ => None)
    (fun _ (e : nat) => (ExecFailed "E0432" "" "code 101", S e)) demoFs 0
    = (Ok (buildResult ("rust", "cargo check") (ExecFailed "E0432" "" "code 101")), 1)) as Hr
    by (vm_compute; reflexivity).
  split; [exact Hr|]. split; [|reflexivity].
  apply (runBuildCheck_fails_iff _ _ _ _ _ _ Hr).
  exists ("rust", "cargo check"), "E0432", "", "code 101". split_and!; vm_compute; reflexivity.
Defined.

End BuildCheck.
