(* ===== verification/DeveloperPhase.v ===== *)
(** * Developer phase (src/orchestration/phases/DeveloperPhaseV2.ts)

    One OpenCode session per story: DEV, JUDGE, SPY and FIX in at most three
    iterations, then the build check, the user's approval, commit or rollback.
    Agents, git, builds and the user are an environment [E] reached through the
    operations of [DevEnv]; nothing is assumed of them. Every call and every
    event is recorded in [trace]. *)

From S2P Require Import Prelude JsNumber Json BuildCheck Approval Sessions TaskTypes TaskRepository.
From stdpp Require Import pretty.
From stdpp Require Import options.

Module DeveloperPhase.
Import Json BuildCheck SessionRepository TaskRepository.

(** The prompts; the texts are in the source. *)
Inductive Prompt :=
  | PDeveloper (story : Story) (index total : nat)
  | PJudge (story : Story)
  | PSpy (story : Story) (files : list string)
  | PFix (issues : list Json)
  | PBuildFix (errors : string)
  | PFeedback (text : string)
  | PUser (text : string).

(** The events of an OpenCode session the phase reads. *)
Inductive OcEvent := OcText (text : string) | OcToolBefore | OcOther.

Inductive Agent := DEVELOPER | JUDGE | SPY | FIXER.

Inductive DevEvent :=
  | EvPhaseStart (total : nat)
  | EvStoryStart (i : nat) (id : string)
  | EvSessionCreated (sid storyId : string)
  | EvSessionClosed (sid storyId : string) (v : Verdict)
  | EvAgentStart (a : Agent) (storyId : string) (iteration : nat)
  | EvDeveloperDone (storyId : string) (iteration : nat)
  | EvJudgeDone (storyId : string) (iteration : nat) (v : Verdict)
  | EvSpyDone (storyId : string) (iteration vulnerabilities : nat)
  | EvFeedbackDone (storyId : string) (iteration : nat)
  | EvFeedbackRound (storyId : string) (attempt : nat)
  | EvBuildStarted (repo : string)
  | EvBuildFailed (repo : string)
  | EvBuildSuccess (repo : string)
  | EvBuildCheckStarted (storyId : string)
  | EvBuildCheckPassed (storyId : string) (attempt : nat)
  | EvBuildCheckFailed (storyId : string) (attempt : nat)
  | EvStoryBuildFailed (storyId : string) (attempts : nat)
  | EvRollback (storyId reason : string)
  | EvStoryComplete (i : nat) (storyId : string) (success : bool) (v : Verdict)
      (commitHash : option string) (vulnerabilities : nat)
  | EvPhaseComplete (success : bool) (stories totalCommits approved : nat).

Inductive Act :=
  | ACheckout (path branch : string)
  | ACreateBranch (path branch : string)
  | ACreateSession (title : string)
  | ARegister (sid : string)
  | AUnregister (sid : string)
  | APrompt (sid : string) (p : Prompt)
  | AWait (sid : string)
  | AHasChanges (path : string)
  | ABuild (path : string)
  | AApproval (phase : string) (answer : outcome ApprovalService.ApprovalResponse)
  | ACommit (path storyId : string) (ok : bool)
  | ADiscard (path : string)
  | AChangedFiles (path : string)
  | AFullDiff (path : string)
  | AEvent (e : DevEvent).

(** What the phase asks of the outside. *)
Class DevEnv (E : Type) := {
  checkout : string -> string -> E -> outcome unit * E;
  createBranch : string -> string -> E -> outcome unit * E;
  createSession : string -> E -> outcome string * E;
  sendPrompt : string -> Prompt -> E -> outcome unit * E;
  waitForIdle : string -> E -> outcome (list OcEvent) * E;
  hasChanges : string -> E -> outcome bool * E;
  files : string -> E -> RepoFs;
  exec : string -> string -> E -> ExecResult * E;
  commitAndPush : string -> string -> E -> outcome string * E;
  discardChanges : string -> E -> outcome unit * E;
  getChangedFiles : string -> E -> outcome (list string) * E;
  getFullDiff : string -> E -> outcome string * E;
  requestApproval : string -> string -> E -> outcome ApprovalService.ApprovalResponse * E;
  jsonParse : string -> option Json;
}.

Record W (E : Type) := {
  env : E;
  sessions : list Session;
  tasks : gmap string TaskRow;
  trace : list Act;
}.
Arguments env {E} _.
Arguments sessions {E} _.
Arguments tasks {E} _.
Arguments trace {E} _.
Arguments Build_W {E} _ _ _ _.

(** ** Reading the agents' answers *)

(** [part.text || output] over the text parts *)
Definition extractFinalOutput (es : list OcEvent) : string :=
  fold_left (fun out e => match e with
                          | OcText t => if JsStr.truthy t then t else out
                          | _ => out end) es "".

Definition isToolCall (e : OcEvent) : bool := match e with OcToolBefore => true | _ => false end.

Definition countToolCalls (es : list OcEvent) : nat :=
  length (base.filter (fun e => isToolCall e = true) es).

Record JudgeResult := {
  j_verdict : Verdict;
  j_score : Json;
  j_issues : Json;
  j_criteria : Json;
  j_summary : Json;
}.

Definition zeroJ : Json := JNum JsNum.zero.

Definition verdictOf (v : Json) : Verdict :=
  match v with
  | JStr s => if bool_decide (s = "approved") then VApproved
              else if bool_decide (s = "rejected") then VRejected
              else if bool_decide (s = "needs_revision") then VNeedsRevision
              else VOther
  | _ => VOther
  end.

Definition noVerdict : JudgeResult :=
  {| j_verdict := VNeedsRevision; j_score := zeroJ; j_issues := JArr []; j_criteria := JArr [];
     j_summary := JStr "" |}.

(** The block, its text parsed; a [null] document throws on its first field. *)
Definition parsedBlock (parse : string -> option Json) (output : string) : option Json :=
  t ← jsonBlock output; d ← parse t; match d with JNull => None | _ => Some d end.

Definition parseJudgeVerdict (parse : string -> option Json) (output : string) : JudgeResult :=
  match parsedBlock parse output with
  | Some d =>
      {| j_verdict := match truthyField "verdict" d with
                      | Some v => verdictOf v | None => VNeedsRevision end;
         j_score := default zeroJ (truthyField "score" d);
         j_issues := default (JArr []) (truthyField "issues" d);
         j_criteria := default (JArr []) (truthyField "criteriaStatus" d);
         j_summary := default (JStr "") (truthyField "summary" d) |}
  | None => noVerdict
  end.

(** [issues.length > 0] *)
Definition hasIssues (issues : Json) : bool :=
  match issues with
  | JArr l => negb (bool_decide (length l = 0))
  | JStr s => JsStr.truthy s
  | JObj _ => match field "length" issues with
              | Some (JNum n) => SpecFloat.SFltb JsNum.zero n
              | _ => false
              end
  | _ => false
  end.

(** [PROMPTS.fix(issues)]: [issues.map], and [issue.severity.toUpperCase()] *)
Definition fixPrompt (issues : Json) : outcome Prompt :=
  match issues with
  | JArr l =>
      if forallb (fun i => match field "severity" i with Some (JStr _) => true | _ => false end) l
      then Ok (PFix l) else Throw "TypeError: issue.severity"
  | _ => Throw "TypeError: issues.map is not a function"
  end.

(** The vulnerabilities of the SPY answer. *)
Definition spyVulnerabilities (parse : string -> option Json) (output : string) : Json :=
  match parsedBlock parse output with
  | Some d => default (JArr []) (truthyField "vulnerabilities" d)
  | None => JArr []
  end.

Definition severityOf (v : option Json) : Severity :=
  match v with
  | Some (JStr s) =>
      if bool_decide (s = "critical") then SevCritical else if bool_decide (s = "high") then SevHigh
      else if bool_decide (s = "medium") then SevMedium else if bool_decide (s = "low") then SevLow
      else SevOther
  | _ => SevOther
  end.

Definition spyVulnerability (taskId sid storyId : string) (iteration index : nat) (v : Json) : Vulnerability :=
  {| v_id := "spy-" +:+ storyId +:+ "-" +:+ pretty iteration +:+ "-" +:+ pretty index;
     v_taskId := taskId; v_sessionId := sid; v_phase := "Developer";
     v_severity := severityOf (field "severity" v);
     v_type := strField "type" "" v; v_blocked := false; v_toolUseId := None |}.

(** [.map] throws on anything but an array, the fields on a [null] element. *)
Definition convertSpyVulnerabilities (taskId sid storyId : string) (iteration : nat) (vs : Json)
    : outcome (list Vulnerability) :=
  match vs with
  | JArr l =>
      if existsb (fun v => match v with JNull => true | _ => false end) l
      then Throw "TypeError: v.severity"
      else Ok (imap (spyVulnerability taskId sid storyId iteration) l)
  | _ => Throw "TypeError: vulnerabilities.map is not a function"
  end.

Record StoryExecutionResult := {
  x_verdict : Verdict;
  x_iterations : nat;
  x_score : Json;
  x_issues : Json;
  x_vulnerabilities : list Vulnerability;
  x_toolCalls : nat;
  x_sessionId : option string;
}.

Record DeveloperPhaseContext := {
  d_task : Task;
  d_projectPath : string;
  d_workingDirectory : string;
  d_repositories : list RepositoryInfo;
  d_stories : list Story;
  d_branchName : string;
  d_autoApprove : bool;
  d_startFromStoryIndex : Z;
  d_persist : bool;
}.

Section phase.
Context {E : Type} `{!DevEnv E}.
Variable now : Z.
Variable c : DeveloperPhaseContext.

Abbreviation M := (JsM (W E)).
Abbreviation tid := (t_id (d_task c)).

(** An external call, recorded with its outcome. *)
Definition call {A} (a : outcome A -> Act) (f : E -> outcome A * E) : M A := fun w =>
  let '(r, e) := f (env w) in
  (r, {| env := e; sessions := sessions w; tasks := tasks w; trace := trace w ++ [a r] |}).

Definition record (a : Act) : M unit :=
  Js.modify (fun w => {| env := env w; sessions := sessions w; tasks := tasks w;
                         trace := trace w ++ [a] |}).

Definition emit (e : DevEvent) : M unit := record (AEvent e).

Definition onSessions (f : list Session -> list Session) : M unit :=
  Js.modify (fun w => {| env := env w; sessions := f (sessions w); tasks := tasks w;
                         trace := trace w |}).

Definition onTasks (f : gmap string TaskRow -> gmap string TaskRow) : M unit :=
  Js.modify (fun w => {| env := env w; sessions := sessions w; tasks := f (tasks w);
                         trace := trace w |}).

Definition lift {A} (o : outcome A) : M A := fun w => (o, w).

(** [try { m } catch {}] *)
Definition attempt {A} (m : M A) : M (option A) :=
  Js.try_catch (a ← m; mret (Some a)) (fun _ => mret None).

Definition prompt (sid : string) (p : Prompt) : M unit :=
  call (fun _ => APrompt sid p) (sendPrompt sid p).
Definition wait (sid : string) : M (list OcEvent) := call (fun _ => AWait sid) (waitForIdle sid).
Definition changed (r : RepositoryInfo) : M bool :=
  call (fun _ => AHasChanges (r_localPath r)) (hasChanges (r_localPath r)).

(** A loop over the repositories. *)
Fixpoint forRepos (f : RepositoryInfo -> M unit) (rs : list RepositoryInfo) : M unit :=
  match rs with
  | [] => mret tt
  | r :: rs' => f r;; forRepos f rs'
  end.

(** Checkout in every repository, creating the branch when that fails. *)
Definition checkoutAll : M unit :=
  forRepos (fun r =>
    let p := r_localPath r in
    Js.try_catch
      (call (fun _ => ACheckout p (d_branchName c)) (checkout p (d_branchName c)))
      (fun _ => attempt (call (fun _ => ACreateBranch p (d_branchName c)) (createBranch p (d_branchName c)));;
                mret tt)) (d_repositories c).

(** Does any repository have changes? Errors count as no. *)
Fixpoint anyChanges (rs : list RepositoryInfo) : M bool :=
  match rs with
  | [] => mret false
  | r :: rs' =>
      b ← attempt (changed r);
      match b with Some true => mret true | _ => anyChanges rs' end
  end.

(** [runBuildChecksOnRepos]: repository names with their results. *)
Definition buildOne (r : RepositoryInfo) : M (option (string * BuildCheckResult)) :=
  Js.try_catch
    (b ← changed r;
     if negb b then mret None
     else
       emit (EvBuildStarted (r_name r));;
       res ← call (fun _ => ABuild (r_localPath r))
               (fun e => runBuildCheck jsonParse (exec (r_localPath r)) (files (r_localPath r) e) e);
       (if bc_success res then emit (EvBuildSuccess (r_name r)) else emit (EvBuildFailed (r_name r)));;
       mret (Some (r_name r, res)))
    (fun m => mret (Some (r_name r,
       {| bc_success := false; bc_buildSystem := "error"; bc_command := "error";
          bc_error := Some m; bc_output := None |}))).

Fixpoint runBuildChecksOnRepos (rs : list RepositoryInfo) : M (list (string * BuildCheckResult)) :=
  match rs with
  | [] => mret []
  | r :: rs' =>
      x ← buildOne r;
      l ← runBuildChecksOnRepos rs';
      mret (match x with Some b => b :: l | None => l end)
  end.

Definition allPassed (l : list (string * BuildCheckResult)) : bool :=
  forallb (fun b => bc_success b.2) l.

(** The text of the failed builds. *)
Definition buildErrors (l : list (string * BuildCheckResult)) : string :=
  let nl := String "010"%char EmptyString in
  String.concat (nl +:+ nl)
    ((fun b : string * BuildCheckResult => b.1 +:+ ":" +:+ nl +:+ default "undefined" (bc_error b.2))
       <$> base.filter (fun b : string * BuildCheckResult => bc_success b.2 = false) l).

(** Discard the changes of every repository; was anything discarded? *)
Fixpoint rollbackAll (rs : list RepositoryInfo) : M bool :=
  match rs with
  | [] => mret false
  | r :: rs' =>
      x ← attempt (changed r ≫= fun b : bool =>
                   if b then call (fun _ => ADiscard (r_localPath r)) (discardChanges (r_localPath r));;
                             mret true
                   else mret false);
      any ← rollbackAll rs';
      mret (match x with Some true => true | _ => any end)
  end.

(** Commit every repository with changes: [name:hash] of each commit. *)
Fixpoint commitAll (message storyId : string) (rs : list RepositoryInfo) : M (list string) :=
  match rs with
  | [] => mret []
  | r :: rs' =>
      x ← attempt (changed r ≫= fun b : bool =>
                   if b then
                     h ← call (fun o => ACommit (r_localPath r) storyId
                                          (match o with Ok _ => true | Throw _ => false end))
                           (commitAndPush (r_localPath r) message);
                     mret (Some (r_name r +:+ ":" +:+ JsStr.take 7 h))
                   else mret None);
      l ← commitAll message storyId rs';
      mret (match x with Some (Some h) => h :: l | _ => l end)
  end.

(** ** One story: DEV, JUDGE, SPY, FIX *)

Record LoopState := {
  l_judge : JudgeResult;
  l_iterations : nat;
  l_vulnerabilities : list Vulnerability;
  l_toolCalls : nat;
}.

Definition spyFiles (story : Story) : list string :=
  default [] (s_filesToModify story) ++ default [] (s_filesToCreate story).

(** The JUDGE and the SPY on the current state of the session. *)
Definition judge (sid : string) (story : Story) (iteration : nat) : M (JudgeResult * nat) :=
  emit (EvAgentStart JUDGE (s_id story) iteration);;
  prompt sid (PJudge story);;
  es ← wait sid;
  let j := parseJudgeVerdict jsonParse (extractFinalOutput es) in
  mret (j, countToolCalls es).

Definition spy (sid : string) (story : Story) (iteration : nat) : M (list Vulnerability) :=
  emit (EvAgentStart SPY (s_id story) iteration);;
  prompt sid (PSpy story (spyFiles story));;
  es ← wait sid;
  vs ← lift (convertSpyVulnerabilities tid sid (s_id story) iteration
               (spyVulnerabilities jsonParse (extractFinalOutput es)));
  emit (EvSpyDone (s_id story) iteration (length vs));;
  mret vs.

(** At most [fuel] further iterations ([maxIterations - iterations]). *)
Fixpoint storyLoop (sid : string) (story : Story) (index total fuel : nat) (st : LoopState)
    : M LoopState :=
  match fuel with
  | 0 => mret st
  | S fuel' =>
      let k := S (l_iterations st) in
      (if bool_decide (k = 1) then
         emit (EvAgentStart DEVELOPER (s_id story) k);;
         prompt sid (PDeveloper story index total)
       else mret tt);;
      devEvents ← wait sid;
      emit (EvDeveloperDone (s_id story) k);;
      jt ← judge sid story k;
      let j := jt.1 in
      emit (EvJudgeDone (s_id story) k (j_verdict j));;
      vs ← spy sid story k;
      let st' jr := {| l_judge := jr; l_iterations := k;
                       l_vulnerabilities := l_vulnerabilities st ++ vs;
                       l_toolCalls := l_toolCalls st + countToolCalls devEvents + jt.2 |} in
      match j_verdict j with
      | VApproved | VRejected => mret (st' j)
      | _ =>
          if hasIssues (j_issues j) then
            emit (EvAgentStart FIXER (s_id story) k);;
            p ← lift (fixPrompt (j_issues j));
            prompt sid p;;
            storyLoop sid story index total fuel' (st' j)
          else
            mret (st' {| j_verdict := VApproved; j_score := j_score j; j_issues := j_issues j;
                         j_criteria := j_criteria j; j_summary := j_summary j |})
      end
  end.

Definition maxIterations : nat := 3.

Definition storyError (msg : string) (sid : option string) : StoryExecutionResult :=
  {| x_verdict := VRejected; x_iterations := 0; x_score := zeroJ;
     x_issues := JArr [JObj [("severity", JStr "critical"); ("description", JStr msg)]];
     x_vulnerabilities := []; x_toolCalls := 0; x_sessionId := sid |}.

Definition startLoop : LoopState :=
  {| l_judge := noVerdict; l_iterations := 0; l_vulnerabilities := []; l_toolCalls := 0 |}.

(** Registration of the session with the event bridge and in the database. *)
Definition openSession (sid rowId : string) (story : Story) (index : nat) : M unit :=
  record (ARegister sid);;
  onSessions (SessionRepository.create rowId now
    {| cs_sessionId := sid; cs_taskId := tid; cs_directory := d_projectPath c;
       cs_phaseName := Some ("Developer-Story" +:+ pretty (S index));
       cs_mode := Some (if d_autoApprove c then MAll else MManual);
       cs_permissions := noPermissions |});;
  emit (EvSessionCreated sid (s_id story)).

(** The story inside its session. *)
Definition storyInSession (sid rowId : string) (story : Story) (index total : nat)
    : M StoryExecutionResult :=
  openSession sid rowId story index;;
  st ← storyLoop sid story index total maxIterations startLoop;
  onSessions (updateSessionStatus now sid SCompleted);;
  record (AUnregister sid);;
  emit (EvSessionClosed sid (s_id story) (j_verdict (l_judge st)));;
  mret {| x_verdict := j_verdict (l_judge st); x_iterations := l_iterations st;
          x_score := j_score (l_judge st); x_issues := j_issues (l_judge st);
          x_vulnerabilities := l_vulnerabilities st; x_toolCalls := l_toolCalls st;
          x_sessionId := Some sid |}.

Definition sessionTitle (story : Story) (index total : nat) : string :=
  "Story " +:+ pretty (S index) +:+ "/" +:+ pretty total +:+ ": " +:+ s_title story.

(** Every error inside is turned into a rejected story. *)
Definition executeStoryWithSession (rowId : string) (story : Story) (index total : nat)
    : M StoryExecutionResult :=
  Js.try_catch
    (sid ← call (fun _ => ACreateSession (sessionTitle story index total))
             (createSession (sessionTitle story index total));
     Js.try_catch (storyInSession sid rowId story index total)
       (fun msg =>
          onSessions (updateSessionStatus now sid SError);;
          record (AUnregister sid);;
          mret (storyError msg (Some sid))))
    (fun msg => mret (storyError msg None)).

(** ** Build verification of an approved story *)

Definition notIterable : string := "TypeError: issues is not iterable".

(** [[...(issues || []), issue]]: an array, or the characters of a string;
    spreading anything else throws. *)
Definition appendIssue (issues : option Json) (i : Json) : outcome Json :=
  match issues with
  | None => Ok (JArr [i])
  | Some (JArr l) => Ok (JArr (l ++ [i]))
  | Some (JStr s) =>
      Ok (JArr (((fun a => JStr (String a EmptyString)) <$> String.list_ascii_of_string s) ++ [i]))
  | Some v => if truthy v then Throw notIterable else Ok (JArr [i])
  end.

Definition failStory (sr : StoryResult) (issues : option Json) : StoryResult :=
  {| sr_id := sr_id sr; sr_title := sr_title sr; sr_description := sr_description sr;
     sr_status := StoryFailed; sr_filesToModify := sr_filesToModify sr;
     sr_filesToCreate := sr_filesToCreate sr; sr_filesToRead := sr_filesToRead sr;
     sr_acceptanceCriteria := sr_acceptanceCriteria sr; sr_iterations := sr_iterations sr;
     sr_verdict := VRejected; sr_score := sr_score sr;
     sr_issues := issues; sr_commitHash := sr_commitHash sr; sr_vulnerabilities := sr_vulnerabilities sr |}.

Definition buildIssue (errors : string) : Json :=
  JObj [("severity", JStr "critical");
        ("description", JStr ("Build failed after 3 attempts: " +:+ JsStr.take 500 errors))].

Definition maxBuildAttempts : nat := 3.

(** The [while] over the attempts. After the last failure the story is failed,
    rolled back and pushed, and the [continue] that follows only continues this
    loop, which ends. The result is the story (an object that stays shared with
    what was pushed) and how often it was pushed. *)
Fixpoint buildLoop (sid : option string) (fuel attempts : nat) (sr : StoryResult)
    : M (StoryResult * nat) :=
  match fuel with
  | 0 => mret (sr, 0)
  | S fuel' =>
      let n := S attempts in
      l ← runBuildChecksOnRepos (d_repositories c);
      if allPassed l then emit (EvBuildCheckPassed (sr_id sr) n);; mret (sr, 0)
      else
        emit (EvBuildCheckFailed (sr_id sr) n);;
        match JsStr.orNull sid, n <? maxBuildAttempts with
        | Some s, true =>
            attempt (prompt s (PBuildFix (JsStr.take 3000 (buildErrors l)));; wait s;; mret tt);;
            buildLoop sid fuel' n sr
        | _, true => buildLoop sid fuel' n sr
        | _, false =>
            issues ← lift (appendIssue (sr_issues sr) (buildIssue (buildErrors l)));
            rollbackAll (d_repositories c);;
            emit (EvStoryBuildFailed (sr_id sr) n);;
            r ← buildLoop sid fuel' n (failStory sr (Some issues));
            mret (r.1, S r.2)
        end
  end.

(** ** The approval loop *)

Definition setResult (x : StoryExecutionResult) (j : JudgeResult) (vs : list Vulnerability)
    : StoryExecutionResult :=
  {| x_verdict := j_verdict j; x_iterations := S (x_iterations x); x_score := j_score j;
     x_issues := j_issues j; x_vulnerabilities := x_vulnerabilities x ++ vs;
     x_toolCalls := x_toolCalls x; x_sessionId := x_sessionId x |}.

Inductive Decision := Decide (approved : bool) | Again (x : StoryExecutionResult).

(** A round of feedback: FIXER, then JUDGE and SPY again. *)
Definition feedbackRound (sid text : string) (story : Story) (attemptNo : nat)
    (x : StoryExecutionResult) : M Decision :=
  emit (EvFeedbackRound (s_id story) attemptNo);;
  emit (EvAgentStart FIXER (s_id story) attemptNo);;
  prompt sid (PFeedback text);;
  wait sid;;
  emit (EvFeedbackDone (s_id story) attemptNo);;
  jt ← judge sid story (S (x_iterations x));
  emit (EvJudgeDone (s_id story) (S (x_iterations x)) (j_verdict jt.1));;
  vs ← spy sid story (S (x_iterations x));
  mret (Again (setResult x jt.1 vs)).

(** The files shown to the user: only read, errors ignored. *)
Definition gatherGitInfo : M unit :=
  forRepos (fun r => attempt (call (fun _ => AChangedFiles (r_localPath r))
                                (getChangedFiles (r_localPath r)));; mret tt) (d_repositories c);;
  attempt (call (fun _ => AFullDiff (d_workingDirectory c)) (getFullDiff (d_workingDirectory c)));;
  mret tt.

(** The critical and major issues counted by [buildImplementationSummary]. *)
Definition hasSeverity (sev : string) (i : Json) : bool :=
  match field "severity" i with Some (JStr s) => bool_decide (s = sev) | _ => false end.

Definition countSeverity (sev : string) (l : list Json) : nat :=
  length (base.filter (fun i => hasSeverity sev i = true) l).

Definition buildImplementationSummary (issues : Json) : outcome (nat * nat) :=
  if hasIssues issues then
    match issues with
    | JArr l =>
        if existsb (fun i => match i with JNull => true | _ => false end) l
        then Throw "TypeError: i.severity"
        else Ok (countSeverity "critical" l, countSeverity "major" l)
    | _ => Throw "TypeError: issues.filter is not a function"
    end
  else Ok (0, 0).

Definition storyPhase (story : Story) : string := "story-" +:+ s_id story.

Definition approvalRound (story : Story) (attemptNo : nat) (x : StoryExecutionResult) : M Decision :=
  gatherGitInfo;;
  lift (buildImplementationSummary (x_issues x));;
  a ← call (AApproval (storyPhase story)) (requestApproval tid (storyPhase story));
  match ApprovalService.action a with
  | ApprovalService.Approve => mret (Decide true)
  | ApprovalService.Reject => mret (Decide false)
  | ApprovalService.RequestChanges =>
      match JsStr.orNull (x_sessionId x), JsStr.orNull (ApprovalService.feedback a) with
      | Some sid, Some text => feedbackRound sid text story attemptNo x
      | _, _ => mret (Decide false)
      end
  end.

Definition maxApprovalAttempts : nat := 5.

Fixpoint approvalLoop (story : Story) (fuel attempts : nat) (x : StoryExecutionResult) : M bool :=
  match fuel with
  | 0 => mret false
  | S fuel' =>
      d ← Js.try_catch (approvalRound story (S attempts) x) (fun _ => mret (Decide false));
      match d with
      | Decide b => mret b
      | Again x' => approvalLoop story fuel' (S attempts) x'
      end
  end.

(** ** The phase *)

Definition skippedResult (story : Story) : StoryResult :=
  {| sr_id := s_id story; sr_title := s_title story; sr_description := s_description story;
     sr_status := StoryCompleted; sr_filesToModify := s_filesToModify story;
     sr_filesToCreate := s_filesToCreate story; sr_filesToRead := s_filesToRead story;
     sr_acceptanceCriteria := s_acceptanceCriteria story; sr_iterations := 0;
     sr_verdict := VApproved; sr_score := None; sr_issues := None; sr_commitHash := None;
     sr_vulnerabilities := [] |}.

Definition storyResultOf (story : Story) (x : StoryExecutionResult) : StoryResult :=
  {| sr_id := s_id story; sr_title := s_title story; sr_description := s_description story;
     sr_status := if bool_decide (x_verdict x = VApproved) then StoryCompleted else StoryFailed;
     sr_filesToModify := s_filesToModify story; sr_filesToCreate := s_filesToCreate story;
     sr_filesToRead := s_filesToRead story; sr_acceptanceCriteria := s_acceptanceCriteria story;
     sr_iterations := x_iterations x; sr_verdict := x_verdict x;
     sr_score := Some (x_score x); sr_issues := Some (x_issues x); sr_commitHash := None;
     sr_vulnerabilities := x_vulnerabilities x |}.

Definition withCommit (sr : StoryResult) (h : option string) : StoryResult :=
  {| sr_id := sr_id sr; sr_title := sr_title sr; sr_description := sr_description sr;
     sr_status := sr_status sr; sr_filesToModify := sr_filesToModify sr;
     sr_filesToCreate := sr_filesToCreate sr; sr_filesToRead := sr_filesToRead sr;
     sr_acceptanceCriteria := sr_acceptanceCriteria sr; sr_iterations := sr_iterations sr;
     sr_verdict := sr_verdict sr; sr_score := sr_score sr; sr_issues := sr_issues sr;
     sr_commitHash := h; sr_vulnerabilities := sr_vulnerabilities sr |}.

(** A story the judge approved: the story, earlier pushes, commits. *)
Definition settleApproved (story : Story) (i : nat) (x : StoryExecutionResult) (sr : StoryResult)
    : M (StoryResult * nat * nat) :=
  anyChanges (d_repositories c) ≫= fun any : bool =>
  if negb any then mret (sr, 0, 0)
  else
    emit (EvBuildCheckStarted (s_id story));;
    b ← buildLoop (x_sessionId x) maxBuildAttempts 0 sr;
    (if d_autoApprove c then mret true else approvalLoop story maxApprovalAttempts 0 x)
      ≫= fun ok : bool =>
    if ok then
      hs ← commitAll ("[story-" +:+ pretty (S i) +:+ "] " +:+ s_title story) (s_id story)
             (d_repositories c);
      mret (withCommit b.1 (JsStr.orNull (Some (String.concat ", " hs))), b.2, length hs)
    else
      rollbackAll (d_repositories c);;
      emit (EvRollback (s_id story) "User rejected - changes discarded");;
      mret (failStory b.1 (sr_issues b.1), b.2, 0).

(** A story the judge did not approve. *)
Definition settleRejected (story : Story) : M unit :=
  rollbackAll (d_repositories c) ≫= fun any : bool =>
  if any then emit (EvRollback (s_id story) "Judge verdict - changes discarded") else mret tt.

Record Acc := { a_results : list StoryResult; a_commits : nat; a_sessions : list string }.

(** One turn of the loop over the stories. *)
Definition processStory (rowId : string) (i total : nat) (story : Story) (acc : Acc) : M Acc :=
  emit (EvStoryStart i (s_id story));;
  x ← executeStoryWithSession rowId story i total;
  let ids := a_sessions acc ++ match JsStr.orNull (x_sessionId x) with Some s => [s] | None => [] end in
  let sr := storyResultOf story x in
  r ← (if bool_decide (x_verdict x = VApproved) then settleApproved story i x sr
       else settleRejected story;; mret (sr, 0, 0));
  let '(sr', pushes, commits) := r in
  emit (EvStoryComplete i (s_id story) (bool_decide (x_verdict x = VApproved)) (x_verdict x)
          (sr_commitHash sr') (length (sr_vulnerabilities sr')));;
  (if d_persist c then onTasks (setLastCompletedStoryIndex now tid (Z.of_nat i)) else mret tt);;
  mret {| a_results := a_results acc ++ replicate (S pushes) sr';
          a_commits := a_commits acc + commits; a_sessions := ids |}.

Fixpoint processStories (rowIds : nat -> string) (i total : nat) (stories : list Story) (acc : Acc)
    : M Acc :=
  match stories with
  | [] => mret acc
  | story :: rest =>
      acc' ← (if (Z.of_nat i <? d_startFromStoryIndex c)%Z
              then mret {| a_results := a_results acc ++ [skippedResult story];
                           a_commits := a_commits acc; a_sessions := a_sessions acc |}
              else processStory (rowIds i) i total story acc);
      processStories rowIds (S i) total rest acc'
  end.

Definition isApproved (r : StoryResult) : bool := bool_decide (sr_verdict r = VApproved).

(** [sessionIds[sessionIds.length - 1] || ''] *)
Definition lastSession (l : list string) : string :=
  match hd_error (reverse l) with Some s => s | None => "" end.

Definition executeDeveloperPhase (rowIds : nat -> string) : M DeveloperResult :=
  checkoutAll;;
  emit (EvPhaseStart (length (d_stories c)));;
  acc ← processStories rowIds 0 (length (d_stories c)) (d_stories c)
          {| a_results := []; a_commits := 0; a_sessions := [] |};
  let rs := a_results acc in
  emit (EvPhaseComplete (forallb isApproved rs) (length (d_stories c)) (a_commits acc)
          (length (base.filter (fun r => isApproved r = true) rs)));;
  mret {| dr_success := forallb isApproved rs; dr_sessionId := lastSession (a_sessions acc);
          dr_stories := rs; dr_totalCommits := a_commits acc; dr_error := None |}.

(** [sendUserMessage]: a message of the user to the developer session. *)
Definition sendUserMessage (message : string) : M bool :=
  ss ← Js.gets sessions;
  match findActiveByTaskId tid ss with
  | Some s =>
      if bool_decide (se_phaseName s = Some "Developer")
      then prompt (se_sessionId s) (PUser message);; mret true
      else mret false
  | None => mret false
  end.

End phase.
End DeveloperPhase.
