(* ===== verification/DeveloperPhaseProofs.v ===== *)
(** * Developer phase: commits are guarded, results and counters, the only
    exception, bounds, and what the agents' and the user's answers really do *)

From S2P Require Import Prelude JsNumber Json BuildCheck Approval Sessions TaskTypes TaskRepository DeveloperPhase.
From stdpp Require Import options.
Import Json BuildCheck SessionRepository TaskRepository DeveloperPhase.

Module DevSpec.

(** ** A calculus on traces

    [spec m Q]: every run of [m] appends to the trace a list [l] of acts such
    that [Q l r] holds of it and the outcome [r]. *)

Section calculus.
Context {E : Type}.
Implicit Types A B : Type.

Definition spec {A} (m : JsM (W E) A) (Q : list Act -> outcome A -> Prop) : Prop :=
  forall w, exists l, trace (m w).2 = trace w ++ l /\ Q l (m w).1.

Lemma dev_spec_weaken {A} (m : JsM (W E) A) (Q Q' : list Act -> outcome A -> Prop) :
  spec m Q -> (forall l r, Q l r -> Q' l r) -> spec m Q'.
Proof. intros Hm HQ w. destruct (Hm w) as (l & Hl & H). eauto. Qed.

Lemma dev_spec_ret {A} (a : A) (Q : list Act -> outcome A -> Prop) : Q [] (Ok a) -> spec (mret a) Q.
Proof. intros HQ w. exists []. by rewrite app_nil_r. Qed.

Lemma dev_spec_bind {A B} (m : JsM (W E) A) (k : A -> JsM (W E) B) Q Q' :
  spec m Q ->
  (forall l e, Q l (Throw e) -> Q' l (Throw e)) ->
  (forall l a, Q l (Ok a) -> spec (k a) (fun l2 r => Q' (l ++ l2) r)) ->
  spec (m ≫= k) Q'.
Proof.
  intros Hm Ht Hk w. destruct (Hm w) as (l & Hl & H). unfold mbind, jsm_bind.
  destruct (m w) as [[a|e] w1]; simpl in *; [|by eauto].
  destruct (Hk l a H w1) as (l2 & Hl2 & H2). exists (l ++ l2).
  by rewrite Hl2, Hl, app_assoc.
Qed.

Lemma dev_spec_try {A} (m : JsM (W E) A) (h : string -> JsM (W E) A) Q Q' :
  spec m Q ->
  (forall l a, Q l (Ok a) -> Q' l (Ok a)) ->
  (forall l e, Q l (Throw e) -> spec (h e) (fun l2 r => Q' (l ++ l2) r)) ->
  spec (Js.try_catch m h) Q'.
Proof.
  intros Hm Ho Hh w. destruct (Hm w) as (l & Hl & H). unfold Js.try_catch.
  destruct (m w) as [[a|e] w1]; simpl in *; [by eauto|].
  destruct (Hh l e H w1) as (l2 & Hl2 & H2). exists (l ++ l2). by rewrite Hl2, Hl, app_assoc.
Qed.

Lemma spec_and {A} (m : JsM (W E) A) Q Q' :
  spec m Q -> spec m Q' -> spec m (fun l r => Q l r /\ Q' l r).
Proof.
  intros H1 H2 w. destruct (H1 w) as (l & Hl & ?), (H2 w) as (l' & Hl' & ?). exists l. split; [done|].
  rewrite Hl in Hl'. apply app_inv_head in Hl' as ->. auto.
Qed.

(** Acts that all satisfy [P], whatever the outcome. *)
Definition acts {A} (P : Act -> Prop) (m : JsM (W E) A) : Prop := spec m (fun l _ => Forall P l).

Lemma dev_acts_ret {A} P (a : A) : acts P (mret a).
Proof. apply dev_spec_ret. constructor. Qed.

Lemma dev_acts_bind {A B} P (m : JsM (W E) A) (k : A -> JsM (W E) B) :
  acts P m -> (forall a, acts P (k a)) -> acts P (m ≫= k).
Proof.
  intros Hm Hk. eapply dev_spec_bind; [exact Hm|done|]. intros l a Hl.
  eapply dev_spec_weaken; [apply Hk|]. simpl. intros l2 _ H2. by apply Forall_app.
Qed.

Lemma dev_acts_try {A} P (m : JsM (W E) A) (h : string -> JsM (W E) A) :
  acts P m -> (forall e, acts P (h e)) -> acts P (Js.try_catch m h).
Proof.
  intros Hm Hh. eapply dev_spec_try; [exact Hm|done|]. intros l e Hl.
  eapply dev_spec_weaken; [apply Hh|]. simpl. intros l2 _ H2. by apply Forall_app.
Qed.

Lemma dev_acts_lift {A} P (o : outcome A) : acts P (lift (E := E) o).
Proof. intros w. exists []. simpl. by rewrite app_nil_r. Qed.

Lemma dev_acts_record (P : Act -> Prop) a : P a -> acts P (record (E := E) a).
Proof. intros Ha w. exists [a]. simpl. auto. Qed.

Lemma dev_acts_onSessions P f : acts P (DeveloperPhase.onSessions (E := E) f).
Proof. intros w. exists []. simpl. by rewrite app_nil_r. Qed.

Lemma dev_acts_onTasks P f : acts P (DeveloperPhase.onTasks (E := E) f).
Proof. intros w. exists []. simpl. by rewrite app_nil_r. Qed.

Lemma dev_acts_call {A} (P : Act -> Prop) (a : outcome A -> Act) (f : E -> outcome A * E) :
  (forall r, P (a r)) -> acts P (call a f).
Proof.
  intros Ha w. unfold call. destruct (f (env w)) as [r e]. exists [a r]. simpl. auto.
Qed.

Lemma dev_acts_attempt {A} P (m : JsM (W E) A) : acts P m -> acts P (attempt m).
Proof.
  intros Hm. apply dev_acts_try; [|intros; apply dev_acts_ret].
  apply dev_acts_bind; [done|]. intros; apply dev_acts_ret.
Qed.

Lemma acts_weaken {A} (P P' : Act -> Prop) (m : JsM (W E) A) :
  (forall a, P a -> P' a) -> acts P m -> acts P' m.
Proof.
  intros HP Hm. eapply dev_spec_weaken; [exact Hm|]. simpl. intros l _ Hl. by eapply Forall_impl.
Qed.
End calculus.

(** The acts of every step but a commit: not a commit, and an approval request
    only where said. *)
Definition quiet (a : Act) : Prop :=
  match a with ACommit _ _ _ | AApproval _ _ => False | _ => True end.
Definition noCommit (a : Act) : Prop := match a with ACommit _ _ _ => False | _ => True end.

Lemma quiet_noCommit a : quiet a -> noCommit a.
Proof. by destruct a. Qed.

Create HintDb acts.
Create HintDb total.
#[local] Hint Resolve dev_acts_ret dev_acts_lift dev_acts_onSessions dev_acts_onTasks dev_acts_attempt : acts.
#[local] Hint Extern 1 (acts _ (record _)) => apply dev_acts_record; exact I : acts.
#[local] Hint Extern 1 (acts _ (DeveloperPhase.emit _)) => apply dev_acts_record; exact I : acts.
#[local] Hint Extern 1 (acts _ (call _ _)) => apply dev_acts_call; intros; exact I : acts.

Ltac acts_steps :=
  repeat first
    [ progress intros
    | progress cbn zeta
    | solve [eauto with acts]
    | apply dev_acts_bind; [solve [eauto with acts]|]
    | apply dev_acts_try
    | apply dev_acts_bind
    | case_match ].

Section phase.
Context {E : Type} `{!DevEnv E}.
Variable now : Z.
Variable c : DeveloperPhaseContext.

Lemma quiet_prompt sid p : acts (E := E) quiet (prompt sid p).
Proof. unfold prompt. eauto with acts. Qed.
Lemma quiet_wait sid : acts (E := E) quiet (wait sid).
Proof. unfold wait. eauto with acts. Qed.
Lemma quiet_changed r : acts (E := E) quiet (changed r).
Proof. unfold changed. eauto with acts. Qed.

#[local] Hint Resolve quiet_prompt quiet_wait quiet_changed : acts.

Lemma quiet_forRepos f rs : (forall r, acts (E := E) quiet (f r)) -> acts (E := E) quiet (forRepos f rs).
Proof. intros Hf. induction rs as [|r rs IH]; simpl; acts_steps. Qed.

Lemma quiet_checkoutAll : acts (E := E) quiet (checkoutAll c).
Proof. unfold checkoutAll. apply quiet_forRepos. acts_steps. Qed.

Lemma quiet_anyChanges rs : acts (E := E) quiet (anyChanges rs).
Proof. induction rs as [|r rs IH]; simpl; acts_steps. Qed.

Lemma quiet_buildOne r : acts (E := E) quiet (buildOne r).
Proof. unfold buildOne. acts_steps. Qed.

#[local] Hint Resolve quiet_buildOne : acts.

Lemma quiet_runBuildChecks rs : acts (E := E) quiet (runBuildChecksOnRepos rs).
Proof. induction rs as [|r rs IH]; simpl; acts_steps. Qed.

Lemma quiet_rollbackAll rs : acts (E := E) quiet (rollbackAll rs).
Proof.
  induction rs as [|r rs IH]; simpl; [apply dev_acts_ret|].
  apply dev_acts_bind; [apply dev_acts_attempt; acts_steps|]. acts_steps.
Qed.

Lemma quiet_judge sid story k : acts (E := E) quiet (judge sid story k).
Proof. unfold judge. acts_steps. Qed.
Lemma quiet_spy sid story k : acts (E := E) quiet (spy c sid story k).
Proof. unfold spy. acts_steps. Qed.

#[local] Hint Resolve quiet_runBuildChecks quiet_rollbackAll quiet_judge quiet_spy : acts.

Lemma quiet_storyLoop sid story i n fuel st : acts (E := E) quiet (storyLoop c sid story i n fuel st).
Proof. revert st. induction fuel as [|fuel IH]; intros st; simpl; acts_steps. Qed.

Lemma quiet_openSession sid rowId story i : acts (E := E) quiet (openSession now c sid rowId story i).
Proof. unfold openSession. acts_steps. Qed.

#[local] Hint Resolve quiet_storyLoop quiet_openSession : acts.

Lemma quiet_executeStory rowId story i n : acts (E := E) quiet (executeStoryWithSession now c rowId story i n).
Proof. unfold executeStoryWithSession, storyInSession. acts_steps. Qed.

Lemma quiet_buildLoop sid fuel k sr : acts (E := E) quiet (buildLoop c sid fuel k sr).
Proof.
  revert k sr. induction fuel as [|fuel IH]; intros k sr; simpl; [apply dev_acts_ret|].
  apply dev_acts_bind; [eauto with acts|]. intros l. acts_steps.
Qed.

Lemma quiet_gatherGitInfo : acts (E := E) quiet (gatherGitInfo c).
Proof.
  unfold gatherGitInfo. apply dev_acts_bind; [|intros; acts_steps].
  apply quiet_forRepos. acts_steps.
Qed.

Lemma quiet_feedbackRound sid text story k x : acts (E := E) quiet (feedbackRound c sid text story k x).
Proof. unfold feedbackRound. acts_steps. Qed.

Lemma quiet_settleRejected story : acts (E := E) quiet (settleRejected c story).
Proof. unfold settleRejected. acts_steps. Qed.

(** ** Steps that never throw *)

Definition total {A} (m : JsM (W E) A) : Prop := spec m (fun _ r => exists a, r = Ok a).

Lemma dev_total_ret {A} (a : A) : total (mret a).
Proof. apply dev_spec_ret. eauto. Qed.
Lemma total_modify f : (forall w, trace (f w) = trace w \/ exists a, trace (f w) = trace w ++ [a]) ->
  total (Js.modify f).
Proof.
  intros Hf w. destruct (Hf w) as [H|[a H]]; [exists []|exists [a]]; simpl; rewrite H;
    rewrite ?app_nil_r; eauto.
Qed.
Lemma dev_total_record a : total (record a).
Proof. apply total_modify. simpl. eauto. Qed.
Lemma total_emit e : total (DeveloperPhase.emit e).
Proof. apply dev_total_record. Qed.
Lemma total_onSessions f : total (DeveloperPhase.onSessions f).
Proof. apply total_modify. simpl. auto. Qed.
Lemma total_onTasks f : total (DeveloperPhase.onTasks f).
Proof. apply total_modify. simpl. auto. Qed.

Lemma dev_total_bind {A B} (m : JsM (W E) A) (k : A -> JsM (W E) B) :
  total m -> (forall a, total (k a)) -> total (m ≫= k).
Proof.
  intros Hm Hk. eapply dev_spec_bind; [exact Hm| |intros; apply Hk]. intros l e [a [=]].
Qed.

(** A step that cannot throw, whose acts do not matter. *)
Lemma spec_after {A B} (m : JsM (W E) A) (k : A -> JsM (W E) B) (Q : outcome B -> Prop) :
  total m -> (forall a, spec (k a) (fun _ r => Q r)) -> spec (m ≫= k) (fun _ r => Q r).
Proof. intros Hm Hk. eapply dev_spec_bind; [exact Hm|intros l e [a [=]]|intros; apply Hk]. Qed.

Lemma dev_total_try {A} (m : JsM (W E) A) h Q : spec m Q -> (forall e, total (h e)) -> total (Js.try_catch m h).
Proof.
  intros Hm Hh. eapply dev_spec_try; [exact Hm| |].
  - intros l a _. eauto.
  - intros l e _. apply Hh.
Qed.

Lemma dev_total_attempt {A} (m : JsM (W E) A) Q : spec m Q -> total (attempt m).
Proof.
  intros Hm. eapply dev_total_try; [|intros; apply dev_total_ret].
  eapply (dev_spec_bind _ _ _ (fun _ _ => True)); [exact Hm|done|]. intros l a _. by apply dev_spec_ret.
Qed.

#[local] Hint Resolve dev_total_ret dev_total_record total_emit total_onSessions total_onTasks : total.

Ltac total_steps :=
  repeat first
    [ progress intros | progress cbn zeta
    | solve [eauto with total]
    | apply dev_total_bind | case_match ].

Lemma total_anyChanges rs : total (anyChanges rs).
Proof.
  induction rs as [|r rs IH]; simpl; [apply dev_total_ret|].
  apply dev_total_bind; [eapply dev_total_attempt, quiet_changed|]. total_steps.
Qed.

Lemma total_buildOne r : total (buildOne r).
Proof.
  unfold buildOne. eapply (dev_total_try _ _ (fun l _ => Forall quiet l)); [|total_steps].
  match goal with |- spec ?m _ => change (acts (E := E) quiet m) end. acts_steps.
Qed.

Lemma total_runBuildChecks rs : total (runBuildChecksOnRepos rs).
Proof.
  induction rs as [|r rs IH]; simpl; [apply dev_total_ret|].
  apply dev_total_bind; [apply total_buildOne|]. total_steps.
Qed.

Lemma total_rollbackAll rs : total (rollbackAll rs).
Proof.
  induction rs as [|r rs IH]; simpl; [apply dev_total_ret|]. apply dev_total_bind; [|total_steps].
  eapply (dev_total_attempt _ (fun l _ => Forall quiet l)).
  match goal with |- spec ?m _ => change (acts (E := E) quiet m) end. acts_steps.
Qed.

Lemma total_checkoutAll : total (checkoutAll c).
Proof.
  unfold checkoutAll. induction (d_repositories c) as [|r rs IH]; simpl; [apply dev_total_ret|].
  apply dev_total_bind; [|done].
  eapply (dev_total_try _ _ (fun l _ => Forall quiet l)).
  - match goal with |- spec ?m _ => change (acts (E := E) quiet m) end. acts_steps.
  - intros e. apply dev_total_bind; [|total_steps].
    eapply (dev_total_attempt _ (fun l _ => Forall quiet l)).
    match goal with |- spec ?m _ => change (acts (E := E) quiet m) end. acts_steps.
Qed.

Lemma total_executeStory rowId story i n : total (executeStoryWithSession now c rowId story i n).
Proof.
  unfold executeStoryWithSession. eapply (dev_total_try _ _ (fun l _ => Forall quiet l)); [|total_steps].
  match goal with |- spec ?m _ => change (acts (E := E) quiet m) end.
  unfold storyInSession. acts_steps.
Qed.

(** ** Approvals and commits *)

Definition count (p : Act -> bool) (l : list Act) : nat :=
  length (base.filter (fun a => p a = true) l).

Lemma dev_count_app p l k : count p (l ++ k) = count p l + count p k.
Proof. unfold count. by rewrite list.filter_app, length_app. Qed.

Lemma count_nil p : count p [] = 0.
Proof. done. Qed.

Lemma count_zero p (P : Act -> Prop) l :
  (forall a, P a -> p a = false) -> Forall P l -> count p l = 0.
Proof.
  intros HP. induction 1 as [|a l Ha _ IH]; [done|]. unfold count in *.
  rewrite filter_cons, decide_False; [done|]. by rewrite (HP a Ha).
Qed.

Definition isApproval (a : Act) : bool := match a with AApproval _ _ => true | _ => false end.
Definition isCommitOk (a : Act) : bool := match a with ACommit _ _ ok => ok | _ => false end.

Lemma quiet_counts l : Forall quiet l -> count isApproval l = 0 /\ count isCommitOk l = 0.
Proof. intros H. split; (eapply count_zero; [|exact H]); by intros []. Qed.

(** The user approved the story within these acts. *)
Definition approvedIn (story : Story) (l : list Act) : Prop :=
  exists a, AApproval (storyPhase story) (Ok a) ∈ l
    /\ ApprovalService.action a = ApprovalService.Approve.

Lemma approvedIn_app story l k : approvedIn story l -> approvedIn story (l ++ k).
Proof. intros (a & ? & ?). exists a. split; [|done]. apply elem_of_app. auto. Qed.
Lemma approvedIn_app_r story l k : approvedIn story k -> approvedIn story (l ++ k).
Proof. intros (a & ? & ?). exists a. split; [|done]. apply elem_of_app. auto. Qed.

(** What a round of the approval loop may do. *)
Definition askQ (story : Story) (n : nat) (ok : bool) (l : list Act) : Prop :=
  Forall noCommit l /\ count isApproval l <= n /\ (ok = true -> approvedIn story l).

Lemma quiet_askQ story n l : Forall quiet l -> askQ story n false l.
Proof.
  intros Hq. split_and!; [by eapply Forall_impl; [apply quiet_noCommit|]| |done].
  destruct (quiet_counts l Hq). lia.
Qed.

Lemma askQ_app story n n' b b' l k :
  askQ story n b l -> askQ story n' b' k -> askQ story (n + n') (b || b') (l ++ k).
Proof.
  intros (H1 & H2 & H3) (K1 & K2 & K3). split_and!.
  - by apply Forall_app.
  - rewrite dev_count_app. lia.
  - destruct b; [intros _; by apply approvedIn_app, H3|]. intros Hb. by apply approvedIn_app_r, K3.
Qed.

Lemma askQ_quiet_l story n b l k : Forall quiet l -> askQ story n b k -> askQ story n b (l ++ k).
Proof. intros Hl. apply (askQ_app story 0 n false b). by apply quiet_askQ. Qed.

Lemma askQ_ask story b a k :
  (b = true -> exists x, a = Ok x /\ ApprovalService.action x = ApprovalService.Approve) ->
  Forall quiet k -> askQ story 1 b (AApproval (storyPhase story) a :: k).
Proof.
  intros Hb Hk. rewrite <- (orb_false_r b).
  apply (askQ_app story 1 0 b false [AApproval (storyPhase story) a] k); [|by apply quiet_askQ]. split_and!; [by repeat constructor|done|].
  intros (x & -> & Hx)%Hb. exists x. split; [apply list_elem_of_here|done].
Qed.

Definition isYes (d : outcome Decision) : bool :=
  match d with Ok (Decide b) => b | _ => false end.

(** A round of feedback decides nothing. *)
Lemma feedbackRound_again sid text story k x w :
  isYes (feedbackRound c sid text story k x w).1 = false.
Proof.
  unfold feedbackRound.
  assert (forall A (m : JsM (W E) A) (f : A -> JsM (W E) Decision) w,
    (forall a w, isYes (f a w).1 = false) -> isYes ((m ≫= f) w).1 = false) as Hb.
  { intros A m f w0 Hf. unfold mbind, jsm_bind. destruct (m w0) as [[]]; simpl; auto. }
  by repeat (apply Hb; intros).
Qed.

Lemma approvalRound_spec story k x :
  spec (approvalRound c story k x) (fun l r => askQ story 1 (isYes r) l).
Proof.
  unfold approvalRound.
  eapply dev_spec_bind; [apply quiet_gatherGitInfo|intros l e Hq; by apply quiet_askQ|].
  simpl. intros l _ Hq. eapply dev_spec_bind; [apply (dev_acts_lift quiet)| |].
  { intros l2 e Hq2. apply quiet_askQ. by apply Forall_app. }
  simpl. intros l2 _ Hq2.
  eapply (dev_spec_bind _ _ (fun l r => l = [AApproval (storyPhase story) r])).
  { intros w. unfold call. destruct (requestApproval _ _ _) as [r e]. by exists [AApproval (storyPhase story) r]. }
  { intros l3 e ->. by apply askQ_quiet_l, askQ_quiet_l, askQ_ask. }
  simpl. intros l3 a ->.
  destruct (ApprovalService.action a) eqn:Ea;
    [apply dev_spec_ret; apply askQ_quiet_l, askQ_quiet_l, askQ_ask; by eauto..|].
  destruct (JsStr.orNull (x_sessionId x)) as [sid|];
    [|apply dev_spec_ret; by apply askQ_quiet_l, askQ_quiet_l, askQ_ask].
  destruct (JsStr.orNull (ApprovalService.feedback a)) as [text|];
    [|apply dev_spec_ret; by apply askQ_quiet_l, askQ_quiet_l, askQ_ask].
  intros w. destruct (quiet_feedbackRound sid text story k x w) as (l4 & Hl4 & Hq4).
  exists l4. split; [done|]. rewrite feedbackRound_again.
  by apply askQ_quiet_l, askQ_quiet_l, askQ_ask.
Qed.

(** The loop asks at most [fuel] times and says yes only after a yes. *)
Lemma approvalLoop_spec story fuel k x :
  spec (approvalLoop c story fuel k x)
    (fun l r => exists b, r = Ok b /\ askQ story fuel b l).
Proof.
  revert k x. induction fuel as [|fuel IH]; intros k x; simpl.
  { apply dev_spec_ret. exists false. split; [done|]. by apply quiet_askQ. }
  eapply (dev_spec_bind _ _ (fun l r => exists d, r = Ok d /\ askQ story 1 (isYes r) l)).
  - eapply dev_spec_try; [apply approvalRound_spec| |].
    + simpl. intros l d H. eauto.
    + simpl. intros l e H. apply dev_spec_ret. rewrite app_nil_r. eauto.
  - intros l e (d & [=] & _).
  - intros l d (d' & [= <-] & H). destruct d as [b|x'].
    + apply dev_spec_ret. exists b. split; [done|]. rewrite app_nil_r.
      destruct H as (H1 & H2 & H3). split_and!; [done|lia|done].
    + eapply dev_spec_weaken; [apply IH|]. simpl. intros l2 r (b & -> & Hb). exists b. split; [done|].
      by apply (askQ_app story 1 fuel false b).
Qed.

(** Commits of one story: each belongs to it, and the result counts them. *)
Definition commitQ (storyId : string) (l : list Act) : Prop :=
  Forall (fun a => match a with ACommit _ s _ => s = storyId | AApproval _ _ => False | _ => True end) l.

Lemma quiet_commitQ s l : Forall quiet l -> commitQ s l.
Proof. intros H. eapply Forall_impl; [|exact H]. by intros []. Qed.

Lemma commitAll_spec msg s rs :
  spec (commitAll msg s rs)
    (fun l r => exists hs, r = Ok hs /\ commitQ s l /\ count isCommitOk l = length hs).
Proof.
  induction rs as [|r rs IH]; simpl.
  { apply dev_spec_ret. exists []. repeat split. constructor. }
  eapply (dev_spec_bind _ _ (fun l x => exists o, x = Ok o /\ commitQ s l
    /\ count isCommitOk l = match o with Some (Some _) => 1 | _ => 0 end)).
  - eapply (dev_spec_try _ _ (fun l x => commitQ s l
      /\ count isCommitOk l = match x with Ok (Some (Some _)) => 1 | _ => 0 end)).
    + eapply dev_spec_bind; [eapply dev_spec_bind; [apply quiet_changed| |]| |].
      * instantiate (1 := fun l x => commitQ s l
          /\ count isCommitOk l = match x with Ok (Some _) => 1 | _ => 0 end).
        simpl. intros l e Hq. split; [by apply quiet_commitQ|by apply quiet_counts].
      * simpl. intros l b Hq. destruct b.
        -- eapply (dev_spec_bind _ _ (fun l x =>
             l = [ACommit (r_localPath r) s (match x with Ok _ => true | Throw _ => false end)])).
           ++ intros w. unfold call. destruct (commitAndPush _ _ _) as [x e]. by eexists [_].
           ++ intros l2 e ->. split; [apply Forall_app; split; [by apply quiet_commitQ|by repeat constructor]|].
              rewrite dev_count_app. by destruct (quiet_counts l Hq) as [_ ->].
           ++ intros l2 h ->. apply dev_spec_ret. rewrite app_nil_r.
              split; [apply Forall_app; split; [by apply quiet_commitQ|by repeat constructor]|].
              rewrite dev_count_app. by destruct (quiet_counts l Hq) as [_ ->].
        -- apply dev_spec_ret. rewrite app_nil_r. split; [by apply quiet_commitQ|by apply quiet_counts].
      * simpl. intros l e H. exact H.
      * simpl. intros l o H. apply dev_spec_ret. rewrite app_nil_r. by destruct o.
    + simpl. intros l o [H1 H2]. exists o. by destruct o as [[]|].
    + simpl. intros l e [H1 H2]. apply dev_spec_ret. rewrite app_nil_r. by exists None.
  - intros l e (o & [=] & _).
  - intros l o (o' & [= <-] & Hq & Hc). eapply dev_spec_bind; [exact IH| |].
    + intros l2 e (hs & [=] & _).
    + intros l2 hs (hs' & [= <-] & Hq2 & Hc2). apply dev_spec_ret. rewrite app_nil_r.
      eexists. split; [reflexivity|]. split; [by apply Forall_app|].
      rewrite dev_count_app, Hc, Hc2. by destruct o as [[]|].
Qed.

(** ** The build loop *)

Definition isBuildFailed (a : Act) : bool :=
  match a with AEvent (EvStoryBuildFailed _ _) => true | _ => false end.

(** The loop returns the story unchanged, or failed and pushed once (then, and
    only then, it announced the failure); it throws only on issues that cannot
    be spread. *)
Definition buildQ (sr : StoryResult) (r : outcome (StoryResult * nat)) : Prop :=
  match r with
  | Throw e => e = notIterable
  | Ok (sr', n) =>
      (n = 0 /\ sr' = sr) \/ (n = 1 /\ exists i, sr' = failStory sr (Some i))
  end.

Lemma buildLoop_spec sid fuel k sr :
  fuel + k <= maxBuildAttempts ->
  spec (buildLoop c sid fuel k sr) (fun l r => Forall quiet l /\ buildQ sr r).
Proof.
  intros Hk. apply spec_and; [apply quiet_buildLoop|].
  revert k sr Hk. induction fuel as [|fuel IH]; intros k sr Hk; simpl.
  { apply dev_spec_ret. by left. }
  apply spec_after; [apply total_runBuildChecks|]. intros bs.
  destruct (allPassed bs).
  { apply spec_after; [apply total_emit|]. intros _. apply dev_spec_ret. by left. }
  apply spec_after; [apply total_emit|]. intros _.
  assert (spec (buildLoop c sid fuel (S k) sr) (fun _ r => buildQ sr r)) as Hrec.
  { apply IH. lia. }
  destruct (S k <? maxBuildAttempts) eqn:Hlt.
  - destruct (JsStr.orNull sid) as [s0|]; [|exact Hrec].
    apply spec_after; [|intros; exact Hrec].
    eapply (dev_total_attempt _ (fun l _ => Forall quiet l)).
    match goal with |- spec ?m _ => change (acts (E := E) quiet m) end. acts_steps.
  - assert (fuel = 0) as -> by (apply Nat.ltb_ge in Hlt; unfold maxBuildAttempts in *; lia).
    assert (forall i, spec (
      rollbackAll (d_repositories c);;
      DeveloperPhase.emit (EvStoryBuildFailed (sr_id sr) (S k));;
      r ← buildLoop c sid 0 (S k) (failStory sr (Some i));
      mret (r.1, S r.2)) (fun _ r => buildQ sr r)) as Hlast.
    { intros i. apply spec_after; [apply total_rollbackAll|intros _].
      apply spec_after; [apply total_emit|intros _]. apply dev_spec_ret. right. eauto. }
    assert (spec (lift (E := E) (appendIssue (sr_issues sr) (buildIssue (buildErrors bs))))
      (fun _ r => match r with Throw e => e = notIterable | Ok _ => True end)) as Happ.
    { intros w. exists []. simpl. rewrite app_nil_r. split; [done|].
      unfold appendIssue. by repeat case_match; simplify_eq. }
    destruct (JsStr.orNull sid);
      (eapply dev_spec_bind; [exact Happ|simpl; intros l3 e He; exact He|simpl; intros l3 i _; apply Hlast]).
Qed.

(** ** A story approved by the judge *)

Definition closedApproved (story : Story) (l : list Act) : Prop :=
  exists sid, AEvent (EvSessionClosed sid (s_id story) VApproved) ∈ l.

Lemma closedApproved_app story l k : closedApproved story k -> closedApproved story (l ++ k).
Proof. intros (sid & H). exists sid. apply elem_of_app. auto. Qed.

(** Each turn of the loop is one iteration. *)
Lemma storyLoop_iterations sid story i n fuel st :
  spec (storyLoop c sid story i n fuel st)
    (fun _ r => match r with Ok st' => l_iterations st' <= l_iterations st + fuel | Throw _ => True end).
Proof.
  revert st. induction fuel as [|fuel IH]; intros st; [apply dev_spec_ret; lia|]. cbn [storyLoop]. cbn zeta.
  assert (forall A B (m : JsM (W E) A) (k : A -> JsM (W E) B) (Q : B -> Prop), acts (E := E) quiet m ->
    (forall a, spec (k a) (fun _ r => match r with Ok b => Q b | Throw _ => True end)) ->
    spec (m ≫= k) (fun _ r => match r with Ok b => Q b | Throw _ => True end)) as Hb.
  { intros A B m k Q Hm Hk. eapply dev_spec_bind; [exact Hm|done|]. intros; apply Hk. }
  apply Hb; [case_match; acts_steps|intros _]. apply Hb; [acts_steps|intros de].
  apply Hb; [acts_steps|intros _]. apply Hb; [acts_steps|intros jt].
  apply Hb; [acts_steps|intros _]. apply Hb; [acts_steps|intros vs].
  assert (forall jr, spec (E := E) (storyLoop c sid story i n fuel
     {| l_judge := jr; l_iterations := S (l_iterations st);
        l_vulnerabilities := l_vulnerabilities st ++ vs;
        l_toolCalls := l_toolCalls st + countToolCalls de + jt.2 |})
     (fun _ r => match r with Ok st' => l_iterations st' <= l_iterations st + S fuel | Throw _ => True end))
    as Hrec.
  { intros jr. eapply dev_spec_weaken; [apply IH|]. simpl. intros l [st'|]; [lia|done]. }
  assert (forall st', l_iterations st' = S (l_iterations st) -> spec (E := E) (mret st')
     (fun _ r => match r with Ok st' => l_iterations st' <= l_iterations st + S fuel | Throw _ => True end))
    as Hret.
  { intros st' Hst. apply dev_spec_ret. lia. }
  destruct (j_verdict jt.1); [by apply Hret|by apply Hret|..].
  all: destruct (hasIssues _); [|by apply Hret]; apply Hb; [acts_steps|intros _];
    apply Hb; [acts_steps|intros p]; apply Hb; [acts_steps|intros _]; apply Hrec.
Qed.

Lemma storyInSession_spec sid rowId story i n :
  spec (storyInSession now c sid rowId story i n) (fun l r =>
    match r with
    | Throw _ => True
    | Ok x => x_iterations x <= maxIterations /\ (x_verdict x = VApproved -> closedApproved story l)
    end).
Proof.
  unfold storyInSession.
  assert (forall A B (m : JsM (W E) A) (k : A -> JsM (W E) B) (P : B -> Prop) (Q : B -> list Act -> Prop) R,
    (forall b l l', Q b l' -> Q b (l ++ l')) -> spec m R ->
    (forall l a, R l (Ok a) -> spec (k a) (fun l r => match r with Throw _ => True | Ok b => P b /\ Q b l end)) ->
    spec (m ≫= k) (fun l r => match r with Throw _ => True | Ok b => P b /\ Q b l end)) as Hb.
  { intros A B m k P Q R HQ Hm Hk. eapply dev_spec_bind; [exact Hm|done|]. intros l a Ha.
    eapply dev_spec_weaken; [by eapply Hk|]. simpl. intros l2 [b|]; [|done]. intros [? ?]. auto. }
  pose proof (closedApproved_app story) as Hc.
  eapply Hb; [eauto|apply quiet_openSession|intros _ _ _].
  eapply Hb; [eauto|apply storyLoop_iterations|]. simpl. intros _ st Hst.
  eapply Hb; [eauto|apply (dev_acts_onSessions quiet)|intros _ _ _].
  eapply Hb; [eauto|by apply (dev_acts_record quiet)|intros _ _ _].
  eapply (dev_spec_bind _ _ (fun l _ => l = [AEvent (EvSessionClosed sid (s_id story) (j_verdict (l_judge st)))])).
  - intros w. by eexists [_].
  - done.
  - intros l _ ->. apply dev_spec_ret. simpl. split; [done|]. intros ->. exists sid. apply list_elem_of_here.
Qed.

Lemma executeStory_spec rowId story i n :
  spec (executeStoryWithSession now c rowId story i n)
    (fun l r => Forall quiet l /\ exists x, r = Ok x /\ x_iterations x <= maxIterations
       /\ (x_verdict x = VApproved -> closedApproved story l)).
Proof.
  apply spec_and; [apply quiet_executeStory|]. unfold executeStoryWithSession.
  eapply (dev_spec_try _ _ (fun l r => match r with Throw _ => True
    | Ok x => x_iterations x <= maxIterations /\ (x_verdict x = VApproved -> closedApproved story l) end)).
  - eapply dev_spec_bind; [apply (dev_acts_call quiet); by intros|done|]. simpl. intros l sid _.
    eapply dev_spec_try; [apply storyInSession_spec| |].
    + simpl. intros l2 x [? ?]. split; [done|]. intros. by apply closedApproved_app; auto.
    + simpl. intros l2 e _. intros w. eexists [_]. split; [reflexivity|]. simpl. split; [lia|done].
  - simpl. intros l x [? ?]. eauto.
  - simpl. intros l e _. apply dev_spec_ret. eexists. split; [reflexivity|]. simpl. split; [lia|done].
Qed.

(** ** Every commit is guarded *)

Definition commitGuard (G : string -> list Act -> Prop) (l : list Act) : Prop :=
  forall l1 p s ok l2, l = l1 ++ ACommit p s ok :: l2 -> G s l1.

Lemma guard_none G l : Forall noCommit l -> commitGuard G l.
Proof. intros Hl l1 p s ok l2 ->. by apply Forall_app in Hl as [_ Hl%Forall_inv]. Qed.

Lemma guard_app (G : string -> list Act -> Prop) l k :
  commitGuard G l -> commitGuard (fun s k1 => G s (l ++ k1)) k -> commitGuard G (l ++ k).
Proof.
  intros Hl Hk l1 p s ok l2 Heq. apply app_eq_app in Heq as (m & [[-> Hm]|[-> Hm]]).
  - destruct m as [|a m]; simpl in Hm.
    + specialize (Hk [] p s ok l2). rewrite !app_nil_r in Hk. by apply Hk.
    + injection Hm as <- ->. by eapply Hl.
  - by eapply Hk.
Qed.

(** Whose story a commit is, and that the user let it through (or is never
    asked, in automatic mode). *)
Definition settled (story : Story) (s : string) (l1 : list Act) : Prop :=
  s = s_id story /\ (d_autoApprove c = true \/ approvedIn story l1).

Definition settleQ (story : Story) (sr : StoryResult) (l : list Act)
    (r : outcome (StoryResult * nat * nat)) : Prop :=
  commitGuard (settled story) l /\ count isApproval l <= maxApprovalAttempts
  /\ match r with
     | Throw e => e = notIterable
     | Ok (sr', pushes, commits) =>
         sr_id sr' = sr_id sr /\ sr_iterations sr' = sr_iterations sr /\ pushes <= 1
         /\ commits = count isCommitOk l
     end.

Lemma settleQ_quiet_l story sr l k r : Forall quiet l -> settleQ story sr k r -> settleQ story sr (l ++ k) r.
Proof.
  intros Hl (H1 & H2 & H3). destruct (quiet_counts l Hl) as [Ha Hc]. split_and!.
  - apply guard_app; [by apply guard_none; eapply Forall_impl; [apply quiet_noCommit|]|].
    intros l1 p s ok l2 Heq. destruct (H1 l1 p s ok l2 Heq) as [-> [?|?]]; (split; [done|]);
      [by left|right; by apply approvedIn_app_r].
  - rewrite dev_count_app. lia.
  - destruct r as [[[sr' n] m]|]; [|done]. rewrite dev_count_app, Hc. exact H3.
Qed.

Lemma settleQ_quiet story sr sr' n l :
  Forall quiet l -> sr_id sr' = sr_id sr -> sr_iterations sr' = sr_iterations sr -> n <= 1 ->
  settleQ story sr l (Ok (sr', n, 0)).
Proof.
  intros Hl ???. destruct (quiet_counts l Hl) as [Ha Hc]. split_and!; [|lia|done..|lia].
  apply guard_none. by eapply Forall_impl; [apply quiet_noCommit|].
Qed.

Lemma commit_settleQ story sr sr' n la lc (hs : list string) :
  Forall noCommit la -> count isApproval la <= maxApprovalAttempts ->
  d_autoApprove c = true \/ approvedIn story la ->
  commitQ (s_id story) lc -> count isCommitOk lc = length hs ->
  sr_id sr' = sr_id sr -> sr_iterations sr' = sr_iterations sr -> n <= 1 ->
  settleQ story sr (la ++ lc) (Ok (sr', n, length hs)).
Proof.
  intros H1 H2 Hok Hq Hc ???.
  assert (count isApproval lc = 0) as Hz.
  { eapply count_zero; [|exact Hq]. by intros []. }
  split_and!; try done.
  - apply guard_app; [by apply guard_none|]. intros l1 p s ok l2 ->.
    apply Forall_app in Hq as [_ Hq%Forall_inv]. split; [done|].
    destruct Hok; [by left|right; by apply approvedIn_app].
  - rewrite dev_count_app. lia.
  - rewrite dev_count_app, <- Hc.
    rewrite (count_zero isCommitOk noCommit la); [done|by intros []|done].
Qed.

Lemma reject_settleQ story sr sr' n la lq :
  Forall noCommit la -> count isApproval la <= maxApprovalAttempts -> Forall quiet lq ->
  sr_id sr' = sr_id sr -> sr_iterations sr' = sr_iterations sr -> n <= 1 ->
  settleQ story sr (la ++ lq) (Ok (sr', n, 0)).
Proof.
  intros H1 H2 Hq ???. destruct (quiet_counts lq Hq) as [Ha Hc]. split_and!; try done.
  - apply guard_none, Forall_app. split; [done|]. by eapply Forall_impl; [apply quiet_noCommit|].
  - rewrite dev_count_app. lia.
  - rewrite dev_count_app, Hc. rewrite (count_zero isCommitOk noCommit la); [done|by intros []|done].
Qed.

Lemma settleApproved_spec story i x sr :
  spec (settleApproved c story i x sr) (settleQ story sr).
Proof.
  unfold settleApproved.
  assert (forall A (m : JsM (W E) A) (k : A -> JsM (W E) (StoryResult * nat * nat)) R,
    acts (E := E) quiet m -> spec m R ->
    (forall e l, R l (Throw e) -> e = notIterable) ->
    (forall l a, R l (Ok a) -> spec (k a) (settleQ story sr)) -> spec (m ≫= k) (settleQ story sr)) as Hb.
  { intros A m k R Hq Hm Ht Hk. eapply dev_spec_bind; [by apply spec_and; [exact Hq|exact Hm]| |].
    - intros l e [Hl He]. destruct (quiet_counts l Hl). split_and!; [|lia|by eapply Ht].
      apply guard_none. by eapply Forall_impl; [apply quiet_noCommit|].
    - intros l a [Hl Ha]. eapply dev_spec_weaken; [by eapply Hk|]. intros l2 r. by apply settleQ_quiet_l. }
  eapply Hb; [apply quiet_anyChanges|apply total_anyChanges|intros e l [a [=]]|].
  intros _ any _. destruct any; [|apply dev_spec_ret; apply settleQ_quiet; auto with lia]. cbn [negb].
  eapply Hb; [acts_steps|apply total_emit|intros e l [a [=]]|]. intros _ _ _.
  eapply Hb; [apply quiet_buildLoop|apply (buildLoop_spec _ maxBuildAttempts 0); done| |].
  { intros e l [_ He]. exact He. }
  intros _ [sr1 n] [_ Hbq]. cbn [fst snd].
  assert (sr_id sr1 = sr_id sr /\ sr_iterations sr1 = sr_iterations sr /\ n <= 1) as (Hid & Hit & Hn).
  { destruct Hbq as [[-> ->]|[-> [iss ->]]]; cbn; auto with lia. }
  eapply (dev_spec_bind _ _ (fun l r => exists b, r = Ok b /\ askQ story maxApprovalAttempts (b && negb (d_autoApprove c)) l)).
  - destruct (d_autoApprove c).
    + apply dev_spec_ret. exists true. split; [done|]. by apply quiet_askQ.
    + eapply dev_spec_weaken; [apply approvalLoop_spec|]. simpl. intros l r (b & -> & Hq).
      exists b. by rewrite andb_true_r.
  - intros l e (b & [=] & _).
  - intros la ok (b & [= <-] & Hq). destruct ok.
    + eapply dev_spec_bind; [apply commitAll_spec|intros l2 e (hs & [=] & _)|].
      intros lc hs (hs' & [= <-] & Hc & Hcount). apply dev_spec_ret. rewrite app_nil_r.
      destruct Hq as (Hq1 & Hq2 & Hq3). apply commit_settleQ; try done.
      destruct (d_autoApprove c); [by left|right; by apply Hq3].
    + destruct Hq as (Hq1 & Hq2 & _).
      eapply dev_spec_weaken.
      * apply (spec_and _ (fun l _ => Forall quiet l)
          (fun _ r => r = Ok (failStory sr1 (sr_issues sr1), n, 0))).
        -- match goal with |- spec ?m _ => change (acts (E := E) quiet m) end. acts_steps.
        -- apply spec_after; [apply total_rollbackAll|intros _].
           apply spec_after; [apply total_emit|intros _]. by apply dev_spec_ret.
      * simpl. intros l2 r [Hl2 ->]. by apply reject_settleQ.
Qed.

(** ** One story, all stories *)

(** Judge and user let the commit of this story through. *)
Definition vetted (story : Story) (s : string) (l1 : list Act) : Prop :=
  s = s_id story /\ closedApproved story l1 /\ (d_autoApprove c = true \/ approvedIn story l1).

Lemma vetted_app story s k l1 : vetted story s l1 -> vetted story s (k ++ l1).
Proof.
  intros (H1 & H2 & H3). split_and!; [done|by apply closedApproved_app|].
  destruct H3; [by left|right; by apply approvedIn_app_r].
Qed.

Lemma guard_weaken (G G' : string -> list Act -> Prop) l :
  (forall s l1, G s l1 -> G' s l1) -> commitGuard G l -> commitGuard G' l.
Proof. intros HG Hl l1 p s ok l2 Heq. apply HG. by eapply Hl. Qed.

Lemma guard_pre story l k :
  Forall quiet l -> commitGuard (vetted story) k -> commitGuard (vetted story) (l ++ k).
Proof.
  intros Hl Hk. apply guard_app.
  - apply guard_none. by eapply Forall_impl; [apply quiet_noCommit|].
  - eapply guard_weaken; [|exact Hk]. intros s l1. apply vetted_app.
Qed.

Lemma guard_post G l k : commitGuard G l -> Forall quiet k -> commitGuard G (l ++ k).
Proof.
  intros Hl Hk. apply guard_app; [done|]. apply guard_none.
  by eapply Forall_impl; [apply quiet_noCommit|].
Qed.

(** The effect of one story. *)
Definition storyQ (story : Story) (acc : Acc) (l : list Act) (r : outcome Acc) : Prop :=
  commitGuard (vetted story) l /\ count isApproval l <= maxApprovalAttempts
  /\ match r with
     | Throw e => e = notIterable
     | Ok acc' =>
         a_commits acc' = a_commits acc + count isCommitOk l
         /\ exists sr n, a_results acc' = a_results acc ++ replicate (S n) sr
              /\ sr_id sr = s_id story /\ sr_iterations sr <= maxIterations /\ n <= 1
     end.

Lemma settle_spec story i x sr :
  spec (if bool_decide (x_verdict x = VApproved) then settleApproved c story i x sr
        else settleRejected c story;; mret (sr, 0, 0))
    (fun l r => settleQ story sr l r /\ (x_verdict x <> VApproved -> Forall quiet l)).
Proof.
  case_bool_decide as Hv.
  - eapply dev_spec_weaken; [apply settleApproved_spec|]. intros l r H. split; [done|]. by intros [].
  - eapply dev_spec_weaken.
    + apply (spec_and _ (fun l _ => Forall quiet l) (fun _ r => r = Ok (sr, 0, 0))).
      * match goal with |- spec ?m _ => change (acts (E := E) quiet m) end.
        apply dev_acts_bind; [apply quiet_settleRejected|]. acts_steps.
      * apply spec_after; [|intros _; by apply dev_spec_ret].
        unfold settleRejected. apply dev_total_bind; [apply total_rollbackAll|]. total_steps.
    + intros l r [Hl ->]. split; [|done]. apply settleQ_quiet; auto with lia.
Qed.

(** The acts of a story before and during its settlement. *)
Lemma settled_vetted story x l1 l2 :
  Forall quiet l1 -> (x_verdict x = VApproved -> closedApproved story l1) ->
  commitGuard (settled story) l2 -> (x_verdict x <> VApproved -> Forall quiet l2) ->
  commitGuard (vetted story) (l1 ++ l2).
Proof.
  intros Hl1 Hcl Hg Hq.
  apply guard_app; [by apply guard_none; eapply Forall_impl; [apply quiet_noCommit|]|].
  intros k1 p s ok k2 Heq. destruct (decide (x_verdict x = VApproved)) as [Hv|Hv].
  - destruct (Hg k1 p s ok k2 Heq) as [-> Hs]. split_and!; [done| |].
    + destruct (Hcl Hv) as [sid Hin]. exists sid. apply elem_of_app. by left.
    + destruct Hs; [by left|right; by apply approvedIn_app_r].
  - specialize (Hq Hv). rewrite Heq in Hq. by apply Forall_app in Hq as [_ Hq%Forall_inv].
Qed.

Lemma processStory_spec rowId i n story acc :
  spec (processStory now c rowId i n story acc) (storyQ story acc).
Proof.
  unfold processStory.
  eapply (dev_spec_bind _ _ (fun l r => Forall quiet l /\ r = Ok tt));
    [intros w; eexists [_]; split; [reflexivity|]; split; [by repeat constructor|done]|by intros ? ? [_ [=]]|].
  intros l0 _ [Hl0 _].
  eapply dev_spec_bind; [apply executeStory_spec|intros ? ? (_ & ? & [=] & _)|].
  intros l1 x (Hl1 & x' & [= <-] & Hit & Hcl). cbn zeta.
  destruct (quiet_counts l0 Hl0) as [Ha0 Hc0], (quiet_counts l1 Hl1) as [Ha1 Hc1].
  eapply dev_spec_bind; [apply settle_spec| |].
  { intros l2 e [(Hg & Ha & He) Hq]. split_and!; [|rewrite !dev_count_app; lia|exact He].
    apply guard_pre; [done|]. by eapply settled_vetted. }
  intros l2 [[sr' n'] m] [(Hg & Ha & Hid & Hsi & Hn & ->) Hq]. eapply dev_spec_weaken.
  { apply (spec_and _ (fun l _ => Forall quiet l)
      (fun _ r => exists ids, r = Ok {| a_results := a_results acc ++ replicate (S n') sr';
          a_commits := a_commits acc + count isCommitOk l2; a_sessions := ids |})).
    - match goal with |- spec ?m _ => change (acts (E := E) quiet m) end. acts_steps.
    - apply spec_after; [apply total_emit|intros _].
      apply spec_after; [destruct (d_persist c); eauto with total|intros _].
      apply dev_spec_ret. eauto. }
  intros l3 r [Hl3 [ids ->]]. destruct (quiet_counts l3 Hl3) as [Ha3 Hc3]. split_and!.
  - apply guard_pre; [done|]. rewrite app_assoc. apply guard_post; [|done]. by eapply settled_vetted.
  - rewrite !dev_count_app. lia.
  - simpl. rewrite !dev_count_app. lia.
  - exists sr', n'. split_and!; [done|by rewrite Hid|by rewrite Hsi|done].
Qed.

(** The effect of a run over stories: how often each was pushed. *)
Definition storiesQ (ss : list Story) (acc : Acc) (l : list Act) (r : outcome Acc) : Prop :=
  commitGuard (fun s l1 => exists story, story ∈ ss /\ vetted story s l1) l
  /\ count isApproval l <= maxApprovalAttempts * length ss
  /\ match r with
     | Throw e => e = notIterable
     | Ok acc' =>
         a_commits acc' = a_commits acc + count isCommitOk l
         /\ exists rs ns, a_results acc' = a_results acc ++ rs /\ length ns = length ss
              /\ sr_id <$> rs = concat (zip_with (fun n s => replicate (S n) (s_id s)) ns ss)
              /\ Forall (fun n => n <= 1) ns /\ Forall (fun sr => sr_iterations sr <= maxIterations) rs
     end.

Lemma storiesQ_cons story ss acc l1 acc1 l2 r :
  storyQ story acc l1 (Ok acc1) -> storiesQ ss acc1 l2 r -> storiesQ (story :: ss) acc (l1 ++ l2) r.
Proof.
  intros (Hg & Ha & Hc & sr & n & Hr & Hid & Hit & Hn) (Hg2 & Ha2 & H2). split_and!.
  - apply guard_app.
    + eapply guard_weaken; [|exact Hg]. intros s k Hv. exists story. split; [apply list_elem_of_here|done].
    + eapply guard_weaken; [|exact Hg2]. intros s k (st & Hst & Hv). exists st.
      split; [by apply list_elem_of_further|]. by apply vetted_app.
  - rewrite dev_count_app. cbn [length]. lia.
  - destruct r as [acc2|e]; [|done]. destruct H2 as (Hc2 & rs & ns & Hr2 & Hlen & Hids & Hns & Hrs).
    split; [rewrite dev_count_app; lia|]. exists (replicate (S n) sr ++ rs), (n :: ns). split_and!.
    + by rewrite Hr2, Hr, app_assoc.
    + simpl. by rewrite Hlen.
    + rewrite fmap_app, fmap_replicate, Hids, Hid. done.
    + by constructor.
    + apply Forall_app. split; [|done]. by apply Forall_replicate.
Qed.

Lemma skipped_storyQ story acc :
  storyQ story acc [] (Ok {| a_results := a_results acc ++ [skippedResult story];
                             a_commits := a_commits acc; a_sessions := a_sessions acc |}).
Proof.
  split_and!; [by apply guard_none|rewrite count_nil; lia|rewrite count_nil; simpl; lia|].
  exists (skippedResult story), 0. split_and!; simpl; auto; lia.
Qed.

Lemma processStories_spec rowIds i n ss acc :
  spec (processStories now c rowIds i n ss acc) (storiesQ ss acc).
Proof.
  revert i acc. induction ss as [|story ss IH]; intros i acc; cbn [processStories].
  { apply dev_spec_ret. split_and!; [by apply guard_none|rewrite count_nil; lia|rewrite count_nil; lia|].
    exists [], []. by rewrite app_nil_r. }
  eapply (dev_spec_bind _ _ (storyQ story acc)).
  - destruct (_ <? _)%Z; [apply dev_spec_ret, skipped_storyQ|apply processStory_spec].
  - intros l e (Hg & Ha & He). split_and!; [|cbn [length]; lia|done].
    eapply guard_weaken; [|exact Hg]. intros s k Hv. exists story. split; [apply list_elem_of_here|done].
  - intros l acc1 Hq. eapply dev_spec_weaken; [apply IH|]. simpl. intros l2 r. by apply storiesQ_cons.
Qed.

(** The whole phase. *)
Definition phaseQ (l : list Act) (r : outcome DeveloperResult) : Prop :=
  commitGuard (fun s l1 => exists story, story ∈ d_stories c /\ vetted story s l1) l
  /\ count isApproval l <= maxApprovalAttempts * length (d_stories c)
  /\ match r with
     | Throw e => e = notIterable
     | Ok r =>
         dr_totalCommits r = count isCommitOk l /\ dr_success r = forallb isApproved (dr_stories r)
         /\ exists ns, length ns = length (d_stories c) /\ Forall (fun n => n <= 1) ns
              /\ sr_id <$> dr_stories r
                 = concat (zip_with (fun n s => replicate (S n) (s_id s)) ns (d_stories c))
              /\ Forall (fun sr => sr_iterations sr <= maxIterations) (dr_stories r)
     end.

Lemma phase_spec rowIds : spec (executeDeveloperPhase now c rowIds) phaseQ.
Proof.
  unfold executeDeveloperPhase.
  eapply dev_spec_bind; [apply (spec_and _ _ _ quiet_checkoutAll total_checkoutAll)|intros ? ? [_ [? [=]]]|].
  intros l0 _ [Hl0 _].
  eapply (dev_spec_bind _ _ (fun l r => Forall quiet l /\ r = Ok tt));
    [intros w; eexists [_]; split; [reflexivity|]; split; [by repeat constructor|done]|by intros ? ? [_ [=]]|].
  intros l1 _ [Hl1 _].
  destruct (quiet_counts l0 Hl0) as [Ha0 Hc0], (quiet_counts l1 Hl1) as [Ha1 Hc1].
  assert (forall k, commitGuard (fun s l1 => exists story, story ∈ d_stories c /\ vetted story s l1) k ->
    commitGuard (fun s l1 => exists story, story ∈ d_stories c /\ vetted story s l1) (l0 ++ l1 ++ k)) as Hpre.
  { intros k Hk. rewrite app_assoc. apply guard_app.
    - apply guard_none, Forall_app. split; (eapply Forall_impl; [apply quiet_noCommit|done]).
    - eapply guard_weaken; [|exact Hk]. intros s k1 (st & Hst & Hv). exists st. split; [done|].
      by apply vetted_app. }
  eapply dev_spec_bind; [apply processStories_spec| |].
  { intros l2 e (Hg & Ha & He). split_and!; [by apply Hpre|rewrite !dev_count_app; lia|done]. }
  intros l2 acc (Hg & Ha & Hc & rs & ns & Hr & Hlen & Hids & Hns & Hit). cbn [a_results a_commits app] in *.
  cbn zeta.
  eapply (dev_spec_bind _ _ (fun l r => Forall quiet l /\ r = Ok tt));
    [intros w; eexists [_]; split; [reflexivity|]; split; [by repeat constructor|done]|by intros ? ? [_ [=]]|].
  intros l3 _ [Hl3 _]. destruct (quiet_counts l3 Hl3) as [Ha3 Hc3].
  apply dev_spec_ret. rewrite app_nil_r. rewrite Hr. split_and!.
  - apply Hpre, guard_post; done.
  - rewrite !dev_count_app. lia.
  - cbn. rewrite !dev_count_app. lia.
  - done.
  - cbn. exists ns. split_and!; done.
Qed.

(** C3 Nothing is committed behind the user's back: whatever the agents, git,
    the builds and the user do, each commit of a run was made for a story of the
    phase whose session had been closed with the verdict approved, and, unless
    the phase runs in automatic mode, after the user's answer "approve" to the
    request of that very story. *)
Theorem commits_are_guarded rowIds w l :
  trace (executeDeveloperPhase now c rowIds w).2 = trace w ++ l ->
  forall l1 p s ok l2, l = l1 ++ ACommit p s ok :: l2 ->
  exists story, story ∈ d_stories c /\ s = s_id story
    /\ (exists sid, AEvent (EvSessionClosed sid (s_id story) VApproved) ∈ l1)
    /\ (d_autoApprove c = true
        \/ exists a, AApproval (storyPhase story) (Ok a) ∈ l1
             /\ ApprovalService.action a = ApprovalService.Approve).
Proof.
  intros Hl. destruct (phase_spec rowIds w) as (l' & Hl' & Hg & _). rewrite Hl in Hl'.
  apply app_inv_head in Hl' as <-. intros l1 p s ok l2 Heq.
  destruct (Hg l1 p s ok l2 Heq) as (story & Hin & Hs & Hc & Hu). exists story. auto.
Qed.

(** C6 The phase terminates with a result for every behaviour of its
    environment; the only exception it lets out is the spread of a judge's
    "issues" that is not iterable. The result lists every story of the phase in
    order, each once, or twice in a row after an exhausted build check; success
    means that every listed story is approved; the commit count is the number of
    commits made; no story took more than 3 iterations, and the user was asked at
    most 5 times per story. *)
Theorem developer_phase_returns rowIds w :
  exists l, trace (executeDeveloperPhase now c rowIds w).2 = trace w ++ l
  /\ count isApproval l <= 5 * length (d_stories c)
  /\ match (executeDeveloperPhase now c rowIds w).1 with
     | Throw e => e = notIterable
     | Ok r =>
         dr_totalCommits r = count isCommitOk l /\ dr_success r = forallb isApproved (dr_stories r)
         /\ exists ns, length ns = length (d_stories c) /\ Forall (fun n => n <= 1) ns
              /\ sr_id <$> dr_stories r
                 = concat (zip_with (fun n s => replicate (S n) (s_id s)) ns (d_stories c))
              /\ Forall (fun sr => sr_iterations sr <= 3) (dr_stories r)
     end.
Proof.
  destruct (phase_spec rowIds w) as (l & Hl & _ & Ha & Hr). exists l. auto.
Qed.

End phase.

(** ** The sessions of the phase and the user's messages *)

Section messages.
Context {E : Type} `{!DevEnv E}.

(** A message of the user never reaches a developer session: sessions are
    registered as "Developer-Story<n>" and the message is only delivered to a
    session called "Developer"; from the moment a story's session is open the
    call returns false and sends nothing. *)
Theorem user_message_dropped now c (w : W E) sid rowId story index message :
  let w1 := (openSession now c sid rowId story index w).2 in
  sendUserMessage c message w1 = (Ok false, w1).
Proof.
  cbn zeta. unfold sendUserMessage, mbind, jsm_bind. simpl.
  unfold SessionRepository.create, findActiveByTaskId.
  rewrite list.filter_app, filter_cons, decide_True.
  - rewrite reverse_app. cbn. by rewrite bool_decide_false.
  - unfold isActiveOf. simpl. by rewrite !bool_decide_true.
Qed.

End messages.
(** ** Concrete environments

    The state is whether the working tree has changes; every agent answers
    [text]; the builds end as [buildOk] says and the user answers [ans]. *)

Definition demoEnv (text : string) (buildOk : bool) (ans : ApprovalService.ApprovalAction)
    : DevEnv bool :=
  {| checkout _ _ e := (Ok tt, e); createBranch _ _ e := (Ok tt, e);
     createSession _ e := (Ok "ses", e);
     sendPrompt _ p e := (Ok tt, match p with PDeveloper _ _ _ => true | _ => e end);
     waitForIdle _ e := (Ok [OcText text], e);
     hasChanges _ e := (Ok e, e);
     files _ _ := demoFs;
     exec _ _ e := (if buildOk then Exited "ok" "" else ExecFailed "E0432" "" "code 101", e);
     commitAndPush _ _ _ := (Ok "0123456789", false);
     discardChanges _ _ := (Ok tt, false);
     getChangedFiles _ e := (Ok [], e); getFullDiff _ e := (Ok "", e);
     requestApproval _ _ e :=
       (Ok {| ApprovalService.action := ans; ApprovalService.feedback := None |}, e);
     jsonParse s := if bool_decide (s = "ok")
                    then Some (JObj [("verdict", JStr "approved"); ("score", JNum JsNum.zero)])
                    else None |}.

Definition demoStory : Story :=
  {| s_id := "s1"; s_title := "S"; s_description := ""; s_status := StoryPending;
     s_filesToModify := None; s_filesToCreate := None; s_filesToRead := None;
     s_acceptanceCriteria := None |}.

Definition demoContext (auto : bool) : DeveloperPhaseContext :=
  {| d_task := mapRow (newRow "t1" 0 {| cp_userId := "u"; cp_projectId := None;
       cp_repositoryId := None; cp_title := "T"; cp_description := None; cp_status := None |});
     d_projectPath := "/w"; d_workingDirectory := "/w/api";
     d_repositories := [{| r_id := "r"; r_name := "api"; r_type := "backend";
                           r_localPath := "/w/api"; r_executionOrder := None |}];
     d_stories := [demoStory]; d_branchName := "b"; d_autoApprove := auto;
     d_startFromStoryIndex := 0; d_persist := true |}.

Definition demoW : W bool := {| env := false; sessions := []; tasks := ∅; trace := [] |}.

Definition approvingText : string := "```json ok ```".

Definition demoRun (text : string) (auto buildOk : bool) (ans : ApprovalService.ApprovalAction)
    : outcome DeveloperResult * W bool :=
  @executeDeveloperPhase bool (demoEnv text buildOk ans) 5 (demoContext auto) (fun _ => "row") demoW.

(** The trace of the run in which the user approves, split at its commit. *)
Definition demoTrace : list Act :=
  Eval vm_compute in trace (demoRun approvingText false true ApprovalService.Approve).2.
Definition commitIndex : nat :=
  match list_find (fun a => isCommitOk a = true) demoTrace with Some (i, _) => i | None => 0 end.
Definition beforeCommit : list Act := Eval vm_compute in take commitIndex demoTrace.
Definition afterCommit : list Act := Eval vm_compute in drop (S commitIndex) demoTrace.

Lemma commits_are_guarded_witness :
  exists a, AApproval "story-s1" (Ok a) ∈ beforeCommit
    /\ ApprovalService.action a = ApprovalService.Approve.
Proof.
  destruct (@commits_are_guarded bool (demoEnv approvingText true ApprovalService.Approve) 5
    (demoContext false) (fun _ => "row") demoW
    (beforeCommit ++ ACommit "/w/api" "s1" true :: afterCommit)
    ltac:(vm_compute; reflexivity) beforeCommit "/w/api" "s1" true afterCommit eq_refl)
    as (story & Hin & Hs & _ & Ha).
  apply list_elem_of_singleton in Hin. subst story. destruct Ha as [Ha|Ha]; [discriminate Ha|exact Ha].
Defined.

(** The trace of the manual run whose builds fail, split at that failure. *)
Definition failTrace : list Act :=
  Eval vm_compute in trace (demoRun approvingText false false ApprovalService.Approve).2.
Definition failIndex : nat :=
  match list_find (fun a => isBuildFailed a = true) failTrace with Some (i, _) => i | None => 0 end.
Definition beforeFailure : list Act := Eval vm_compute in take failIndex failTrace.
Definition afterFailure : list Act := Eval vm_compute in drop (S (S failIndex)) failTrace.

(** A story whose build fails three times is reported twice: the statement
    that should skip to the next story only leaves the build loop, so the story,
    already failed, rolled back and pushed, goes on to the approval and is pushed
    again. In manual mode the user is asked to approve it after the rollback. *)
Theorem failed_build_duplicates_story :
  (exists r sr, (demoRun approvingText true false ApprovalService.Approve).1 = Ok r
     /\ dr_stories r = [sr; sr] /\ sr_id sr = "s1" /\ sr_verdict sr = VRejected)
  /\ exists r l1 l2, (demoRun approvingText false false ApprovalService.Approve).1 = Ok r
     /\ length (dr_stories r) = 2
     /\ trace (demoRun approvingText false false ApprovalService.Approve).2
        = l1 ++ AEvent (EvStoryBuildFailed "s1" 3) :: AChangedFiles "/w/api" :: l2
     /\ exists a, AApproval "story-s1" a ∈ l2.
Proof.
  split.
  - do 2 eexists. split_and!; vm_compute; reflexivity.
  - eexists _, beforeFailure, afterFailure. split_and!; [vm_compute; reflexivity..|].
    exists (Ok {| ApprovalService.action := ApprovalService.Approve; ApprovalService.feedback := None |}).
    vm_compute. repeat constructor.
Qed.

(** The completion event of a story the user rejected announces success: it
    is built from the judge's verdict, not from the final one. *)
Theorem rejected_story_announced_success :
  exists r sr, (demoRun approvingText false true ApprovalService.Reject).1 = Ok r
    /\ dr_stories r = [sr] /\ sr_verdict sr = VRejected
    /\ AEvent (EvStoryComplete 0 "s1" true VApproved None 0)
       ∈ trace (demoRun approvingText false true ApprovalService.Reject).2.
Proof.
  do 2 eexists. split_and!; [vm_compute; reflexivity..|]. vm_compute. repeat constructor.
Qed.

(** ** Answers that cannot be read *)

Section unreadable.
Context {E : Type} `{!DevEnv E}.
Variable now : Z.
Variable c : DeveloperPhaseContext.

(** Partial correctness: what holds of a normal result. *)
Definition yields {A} (P : A -> Prop) (m : JsM (W E) A) : Prop := forall w,
  match (m w).1 with Ok a => P a | Throw _ => True end.

Lemma yields_bind {A B} (P : A -> Prop) (Q : B -> Prop) (m : JsM (W E) A) (k : A -> JsM (W E) B) :
  yields P m -> (forall a, P a -> yields Q (k a)) -> yields Q (m ≫= k).
Proof.
  intros Hm Hk w. specialize (Hm w). unfold mbind, jsm_bind.
  destruct (m w) as [[a|e] w1]; simpl in *; [|done]. by apply Hk.
Qed.

Lemma yields_any {A} (m : JsM (W E) A) : yields (fun _ => True) m.
Proof. intros w. by destruct (m w) as [[]]. Qed.

Lemma yields_then {A B} (Q : B -> Prop) (m : JsM (W E) A) (k : A -> JsM (W E) B) :
  (forall a, yields Q (k a)) -> yields Q (m ≫= k).
Proof. intros Hk. eapply yields_bind; [apply yields_any|auto]. Qed.

Hypothesis unreadable : forall output, parsedBlock jsonParse output = None.

Lemma judge_unreadable sid story k : yields (fun j => j.1 = noVerdict) (judge sid story k).
Proof using unreadable.
  unfold judge. do 2 (apply yields_then; intros _). apply yields_then. intros es. cbn zeta.
  unfold parseJudgeVerdict. rewrite unreadable. by intros w.
Qed.

Lemma spy_unreadable sid story k : yields (fun vs => vs = []) (spy c sid story k).
Proof using unreadable.
  unfold spy, spyVulnerabilities. do 2 (apply yields_then; intros _). apply yields_then. intros es.
  rewrite unreadable. by intros w.
Qed.

Lemma storyLoop_unreadable sid story i n fuel :
  yields (fun st => j_verdict (l_judge st) = VApproved /\ l_iterations st = 1 /\ l_vulnerabilities st = [])
    (storyLoop c sid story i n (S fuel) startLoop).
Proof using unreadable.
  cbn [storyLoop]. cbn zeta. apply yields_then. intros _. apply yields_then. intros de.
  apply yields_then. intros _. eapply yields_bind; [apply judge_unreadable|]. simpl. intros jt Hj.
  apply yields_then. intros _. eapply yields_bind; [apply spy_unreadable|]. simpl. intros vs ->.
  rewrite Hj. by intros w.
Qed.

(** A judge whose answer cannot be read approves the story: when no answer
    contains a JSON block that parses, each story is approved in its first
    iteration, with no vulnerabilities, unless a call to the outside failed. *)
Theorem unreadable_judge_approves rowId story i n w :
  exists x, (executeStoryWithSession now c rowId story i n w).1 = Ok x
  /\ ((x_verdict x = VApproved /\ x_iterations x = 1 /\ x_vulnerabilities x = [])
      \/ (x_verdict x = VRejected /\ x_iterations x = 0)).
Proof using unreadable.
  unfold executeStoryWithSession.
  assert (forall sid, yields (fun x => x_verdict x = VApproved /\ x_iterations x = 1
    /\ x_vulnerabilities x = []) (storyInSession now c sid rowId story i n)) as Hs.
  { intros sid. unfold storyInSession. apply yields_then. intros _.
    eapply yields_bind; [apply storyLoop_unreadable|]. simpl. intros st (H1 & H2 & H3).
    do 3 (apply yields_then; intros _). by intros w0. }
  unfold Js.try_catch at 1, mbind at 1, jsm_bind at 1.
  destruct (call _ _ w) as [[sid|e] w1]; [|eexists; split; [reflexivity|]; by right].
  unfold Js.try_catch. specialize (Hs sid w1).
  destruct (storyInSession now c sid rowId story i n w1) as [[x|e] w2]; simpl in *; eauto 10.
Qed.

End unreadable.

Lemma unreadable_judge_approves_witness :
  exists x, (@executeStoryWithSession bool (demoEnv "I could not run the tests." true ApprovalService.Reject)
               5 (demoContext true) "row" demoStory 0 1 demoW).1 = Ok x /\ x_verdict x = VApproved.
Proof.
  destruct (@unreadable_judge_approves bool
    {| checkout _ _ e := (Ok tt, e); createBranch _ _ e := (Ok tt, e); createSession _ e := (Ok "ses", e);
       sendPrompt _ p e := (Ok tt, match p with PDeveloper _ _ _ => true | _ => e end);
       waitForIdle _ e := (Ok [OcText "I could not run the tests."], e);
       hasChanges _ e := (Ok e, e); files _ _ := demoFs; exec _ _ e := (Exited "ok" "", e);
       commitAndPush _ _ _ := (Ok "0123456789", false); discardChanges _ _ := (Ok tt, false);
       getChangedFiles _ e := (Ok [], e); getFullDiff _ e := (Ok "", e);
       requestApproval _ _ e := (Ok {| ApprovalService.action := ApprovalService.Reject;
                                       ApprovalService.feedback := None |}, e);
       jsonParse _ := None |} 5 (demoContext true)
    ltac:(intros o; unfold parsedBlock; by destruct (jsonBlock o)) "row" demoStory 0 1 demoW)
    as (x & Hx & [Hv|Hv]).
  - exists x. split; [|apply Hv]. rewrite <- Hx. vm_compute. reflexivity.
  - exfalso. assert (Ok (x_iterations x) = Ok 1) as Hc; [|injection Hc as Hc; destruct Hv; congruence].
    revert Hx. vm_compute. intros [= <-]. reflexivity.
Defined.

End DevSpec.
