(* ===== verification/Orchestrator.v ===== *)
(** * Orchestrator (src/orchestration/OrchestratorV2.ts)

    The pipeline Planning, Analysis, Developer, Test generation, Merge inside
    one [try], followed by the global scan and the final status. The phases are
    reached through the interface [PhaseRunners]; the [let] variables that
    outlive the [try] are part of the state, as a throw leaves them assigned. *)

From S2P Require Import Prelude JsNumber Json TaskTypes TaskRepository MergePhase GlobalScan Approval.
From stdpp Require Import options.

Module Orchestrator.
Import TaskRepository MergePhase GlobalScan.

Inductive RetryablePhase := Planning | Analysis | Developer | TestGeneration | Merge | GScan.

#[global] Instance RetryablePhase_eq_dec : EqDecision RetryablePhase.
Proof. solve_decision. Defined.

(** The phase names as the code spells them. *)
Definition phaseName (p : RetryablePhase) : string :=
  match p with
  | Planning => "Planning" | Analysis => "Analysis" | Developer => "Developer"
  | TestGeneration => "TestGeneration" | Merge => "Merge" | GScan => "GlobalScan"
  end.

Definition phaseOrder : list RetryablePhase :=
  [Planning; Analysis; Developer; TestGeneration; Merge; GScan].

Inductive ApprovalMode := Manual | Automatic.

#[global] Instance ApprovalMode_eq_dec : EqDecision ApprovalMode.
Proof. solve_decision. Defined.

(** The clarifications of a planning; questions and answers are parsed JSON. *)
Record PlanningClarifications := {
  pc_questions : Json.Json; pc_answers : Json.Json; pc_skipped : bool }.

Record ProductPlanningResult := {
  pp_success : bool;
  pp_uxFlows : option Json.Json;
  pp_plannedTasks : option Json.Json;
  pp_clarifications : option PlanningClarifications;
  pp_enrichedPrompt : option string;
  pp_durationMs : Z;
}.

Record TestGenerationResult := {
  tg_testsGenerated : nat;
  tg_edgeCasesDetected : nat;
  tg_coverageGaps : nat;
  tg_testsPassed : bool;
  tg_coverageBefore : option Json.Json;
  tg_coverageAfter : option Json.Json;
}.

Record CacheStats := { cs_hits : Z; cs_misses : Z; cs_tokensSaved : Z }.

Record OrchestrationOptions := {
  opt_projectPath : string;
  opt_repositories : list RepositoryInfo;
  opt_phaseApprovalMode : option ApprovalMode;
  opt_autoMerge : option bool;
  opt_skipPlanning : bool;
  opt_skipPlanningForSimpleTasks : option bool;
  opt_skipTestGeneration : bool;
  opt_coverageThreshold : option Z;
  opt_enableContextCache : option bool;
  opt_useEnhancedGitHub : bool;
  opt_startFromPhase : option RetryablePhase;
  opt_preserveAnalysis : bool;
  opt_onMergeApprovalRequired : option (PullRequestInfo -> outcome bool);
}.

(** The callbacks of the options, in the order they are called. *)
Inductive Callback :=
  | CbPlanning | CbAnalysis (stories : nat) | CbStory (i : nat) (id : string) (success : bool)
  | CbDeveloper (commits : nat) | CbTestGeneration | CbPullRequest (n : Z) (url : string).

Inductive OrchEvent :=
  | EvStart (phases : list string)
  | EvTaskStatus (s : TaskStatus) (phase : string)
  | EvComplete (success : bool)
  | EvCancelled.

Record OrchestrationResult := {
  or_success : bool;
  or_taskId : string;
  or_planning : option ProductPlanningResult;
  or_analysis : option AnalysisResult;
  or_developer : option DeveloperResult;
  or_testGeneration : option TestGenerationResult;
  or_merge : option MergeResult;
  or_globalScan : option GlobalScanResult;
  or_cacheStats : option CacheStats;
  or_error : option string;
}.

(** Inputs of the phases that depend on the run. *)
Record AnalysisContext := {
  ac_task : Task; ac_description : string; ac_repositories : list RepositoryInfo;
  ac_planningData : option ProductPlanningResult }.

Record DeveloperContext := {
  dc_task : Task; dc_repositories : list RepositoryInfo; dc_stories : list StoryResult;
  dc_branchName : string; dc_autoApprove : bool; dc_startFromStoryIndex : Z }.

Record TestGenerationContext := {
  tc_task : Task; tc_stories : list StoryResult; tc_autoApprove : bool;
  tc_coverageThreshold : Z; tc_maxIterations : nat }.

(** The data stored with a completed phase. *)
Inductive Payload :=
  | PlPlanning (r : ProductPlanningResult)
  | PlAnalysis (stories : list StoryResult) (branchName : string)
  | PlDeveloper (stories : list StoryResult) (totalCommits approvedCount : nat)
  | PlTests (r : TestGenerationResult)
  | PlMerge (r : MergeResult)
  | PlScan (s : ScanSummary).

(** What the orchestrator asks of the rest of the system. The phases read and
    write the [tasks] table; the approval is the promise of [requestApproval];
    the context cache and the enhanced pull request text may fail harmlessly;
    [prepare_providers] reads the project's LLM configuration and sets the
    provider keys of the OpenCode client, before the [try];
    [json_payload] is [JSON.stringify] of the stored phase data. *)
Class PhaseRunners := {
  prepare_providers : Task -> outcome unit;
  run_planning : Task -> bool -> bool -> gmap string TaskRow ->
    outcome ProductPlanningResult * gmap string TaskRow;
  run_analysis : AnalysisContext -> gmap string TaskRow ->
    outcome AnalysisResult * gmap string TaskRow;
  run_developer : DeveloperContext -> gmap string TaskRow ->
    outcome DeveloperResult * gmap string TaskRow;
  run_testGeneration : TestGenerationContext -> gmap string TaskRow ->
    outcome TestGenerationResult * gmap string TaskRow;
  run_merge : MergePhaseContext -> gmap string TaskRow ->
    outcome MergeResult * gmap string TaskRow;
  run_scan : GlobalScanPhaseContext -> GlobalScanResult;
  ask_approval : string -> string -> outcome ApprovalService.ApprovalResponse;
  cache_context : string -> outcome CacheStats;
  enhanced_description : Task -> AnalysisResult -> DeveloperResult -> option TestGenerationResult ->
    outcome string;
  json_payload : Payload -> string;
}.

(** The laws the theorems on the task's row rely on: a phase may update rows
    but does not delete the task it works for. *)
Class PhaseRunnersOk `{PR : PhaseRunners} : Prop := {
  planning_keeps t a s tb i : is_Some (tb !! i) -> is_Some ((run_planning t a s tb).2 !! i);
  analysis_keeps c tb i : is_Some (tb !! i) -> is_Some ((run_analysis c tb).2 !! i);
  developer_keeps c tb i : is_Some (tb !! i) -> is_Some ((run_developer c tb).2 !! i);
  testGeneration_keeps c tb i : is_Some (tb !! i) -> is_Some ((run_testGeneration c tb).2 !! i);
  merge_keeps c tb i : is_Some (tb !! i) -> is_Some ((run_merge c tb).2 !! i);
}.

Record S := {
  tasks : gmap string TaskRow;
  events : list OrchEvent;
  calls : list RetryablePhase;
  callbacks : list Callback;
  planningResult : option ProductPlanningResult;
  analysisResult : option AnalysisResult;
  developerResult : option DeveloperResult;
  testGenerationResult : option TestGenerationResult;
  mergeResult : option MergeResult;
  cacheStats : CacheStats;
}.

(** ** Planning the run *)

(** [phaseOrder.indexOf(startFromPhase)], 0 without one *)
Definition startPhaseIndex (o : OrchestrationOptions) : nat :=
  match opt_startFromPhase o with
  | Some p => match list_find (fun q => q = p) phaseOrder with Some (i, _) => i | None => 0 end
  | None => 0
  end.

Definition completedPhasesOf (t : Task) : list PhaseEntry := default [] (t_completedPhases t).

Definition isResuming (t : Task) : bool :=
  (0 <? length (completedPhasesOf t)) || bool_decide (is_Some (t_currentPhase t)).

Record Plan := {
  skipPlanning : bool;
  skipAnalysis : bool;
  skipDeveloper : bool;
  skipTestGeneration : bool;
  skipMerge : bool;
  resumeFromStoryIndex : Z;
}.

Definition computePlan (t : Task) (o : OrchestrationOptions) : Plan :=
  let i := startPhaseIndex o in
  let doneIs p := includesPhase (phaseName p) (completedPhasesOf t) in
  {| skipPlanning := opt_skipPlanning o || (0 <? i) || doneIs Planning;
     skipAnalysis := (1 <? i) || doneIs Analysis;
     skipDeveloper := (2 <? i) || doneIs Developer;
     skipTestGeneration := opt_skipTestGeneration o || (3 <? i) || doneIs TestGeneration;
     skipMerge := (4 <? i) || doneIs Merge;
     resumeFromStoryIndex :=
       match t_lastCompletedStoryIndex t with
       | Some k => if isResuming t then (k + 1)%Z else 0%Z
       | None => 0%Z
       end |}.

(** The phases announced to the frontend. *)
Definition announced (p : Plan) : list string :=
  (if skipPlanning p then [] else ["Planning"]) ++
  (if skipAnalysis p then [] else ["Analysis"]) ++
  (if skipDeveloper p then [] else ["Developer"]) ++
  (if skipTestGeneration p then [] else ["Test Generation"]) ++
  (if skipMerge p then [] else ["Merge"]) ++ ["Security Scan"].

(** ** State updates *)

Definition onTasks (f : gmap string TaskRow -> gmap string TaskRow) : JsM S unit :=
  Js.modify (fun s =>
    {| tasks := f (tasks s); events := events s; calls := calls s; callbacks := callbacks s;
       planningResult := planningResult s; analysisResult := analysisResult s;
       developerResult := developerResult s; testGenerationResult := testGenerationResult s;
       mergeResult := mergeResult s; cacheStats := cacheStats s |}).

Definition emit (e : OrchEvent) : JsM S unit :=
  Js.modify (fun s =>
    {| tasks := tasks s; events := events s ++ [e]; calls := calls s; callbacks := callbacks s;
       planningResult := planningResult s; analysisResult := analysisResult s;
       developerResult := developerResult s; testGenerationResult := testGenerationResult s;
       mergeResult := mergeResult s; cacheStats := cacheStats s |}).

Definition callback (c : Callback) : JsM S unit :=
  Js.modify (fun s =>
    {| tasks := tasks s; events := events s; calls := calls s; callbacks := callbacks s ++ [c];
       planningResult := planningResult s; analysisResult := analysisResult s;
       developerResult := developerResult s; testGenerationResult := testGenerationResult s;
       mergeResult := mergeResult s; cacheStats := cacheStats s |}).

(** Assignments to the variables that outlive the [try]. *)
Inductive Assign :=
  | APlanning (r : ProductPlanningResult) | AAnalysis (r : AnalysisResult)
  | ADeveloper (r : DeveloperResult) | ATestGeneration (r : TestGenerationResult)
  | AMerge (r : MergeResult) | ACache (c : CacheStats).

Definition assign (a : Assign) : JsM S unit :=
  Js.modify (fun s =>
    {| tasks := tasks s; events := events s; calls := calls s; callbacks := callbacks s;
       planningResult := match a with APlanning r => Some r | _ => planningResult s end;
       analysisResult := match a with AAnalysis r => Some r | _ => analysisResult s end;
       developerResult := match a with ADeveloper r => Some r | _ => developerResult s end;
       testGenerationResult :=
         match a with ATestGeneration r => Some r | _ => testGenerationResult s end;
       mergeResult := match a with AMerge r => Some r | _ => mergeResult s end;
       cacheStats := match a with ACache c => c | _ => cacheStats s end |}).

(** Running a phase on the table, recorded in [calls]. *)
Definition runPhase {A} (p : RetryablePhase)
    (f : gmap string TaskRow -> outcome A * gmap string TaskRow) : JsM S A := fun s =>
  let '(r, tb) := f (tasks s) in
  (r, {| tasks := tb; events := events s; calls := calls s ++ [p]; callbacks := callbacks s;
         planningResult := planningResult s; analysisResult := analysisResult s;
         developerResult := developerResult s; testGenerationResult := testGenerationResult s;
         mergeResult := mergeResult s; cacheStats := cacheStats s |}).

(** An object is truthy whatever it says: [if (!approved)] on the response of
    [requestApproval]. *)
Definition responseTruthy (r : ApprovalService.ApprovalResponse) : bool := true.

Definition lift {A} (o : outcome A) : JsM S A := fun s => (o, s).

Section execute.
Context `{PR : PhaseRunners}.
Variable now : Z.
Variable taskId : string.
Variable o : OrchestrationOptions.
Variable task : Task.

Definition mode : ApprovalMode := default Manual (opt_phaseApprovalMode o).
Definition auto : bool := bool_decide (mode = Automatic).

Definition statusParams (s : TaskStatus) : UpdateTaskParams :=
  {| up_title := None; up_description := None; up_status := Some s |}.

Definition rejectionLabel (p : RetryablePhase) : string :=
  match p with TestGeneration => "Test Generation" | _ => phaseName p end.

(** The approval step between two phases. *)
Definition waitApproval (p next : RetryablePhase) : JsM S unit :=
  onTasks (fun tb => (update now taskId (statusParams WaitingForApproval) tb).2);;
  emit (EvTaskStatus WaitingForApproval (phaseName p));;
  approved ← lift (ask_approval taskId (phaseName p));
  onTasks (fun tb => (update now taskId (statusParams Running) tb).2);;
  emit (EvTaskStatus Running (phaseName next));;
  if negb (responseTruthy approved)
  then Js.throw (rejectionLabel p +:+ " phase rejected by user") else mret tt.

(** PHASE 0 *)
Definition phasePlanning (p : Plan) : JsM S (option ProductPlanningResult) :=
  if skipPlanning p then mret None
  else
    onTasks (setCurrentPhase now taskId (phaseName Planning));;
    r ← runPhase Planning
          (run_planning task auto (default true (opt_skipPlanningForSimpleTasks o)));
    assign (APlanning r);;
    callback CbPlanning;;
    if negb (pp_success r) then Js.throw "Product Planning phase failed or was rejected"
    else
      onTasks (markPhaseComplete now taskId (phaseName Planning)
                 (Some (json_payload (PlPlanning r))));;
      onTasks (savePlanningResult now taskId (json_payload (PlPlanning r)));;
      mret (Some r).

Definition contextCaching : JsM S unit :=
  match opt_enableContextCache o with
  | Some false => mret tt
  | _ => match cache_context taskId with
         | Ok c => assign (ACache c)
         | Throw _ => mret tt
         end
  end.

(** The stories of a preserved analysis. *)
Definition preservedStory (s : Story) : StoryResult :=
  {| sr_id := s_id s; sr_title := s_title s; sr_description := s_description s;
     sr_status := s_status s; sr_filesToModify := s_filesToModify s;
     sr_filesToCreate := s_filesToCreate s; sr_filesToRead := s_filesToRead s;
     sr_acceptanceCriteria := s_acceptanceCriteria s; sr_iterations := 0;
     sr_verdict := VApproved; sr_score := None; sr_issues := None; sr_commitHash := None;
     sr_vulnerabilities := [] |}.

Definition preservedAnalysis : option AnalysisResult :=
  match t_analysis task, t_stories task with
  | Some a, Some (s :: ss) =>
      Some {| ar_success := true; ar_sessionId := "preserved";
              ar_analysis := {| an_summary := an_summary a; an_approach := an_approach a;
                                an_risks := an_risks a; an_vulnerabilities := [] |};
              ar_stories := preservedStory <$> (s :: ss);
              ar_branchName := default ("feature/task-" +:+ taskId) (JsStr.orNull (t_branchName task));
              ar_error := None |}
  | _, _ => None
  end.

(** PHASE 1 *)
Definition phaseAnalysis (p : Plan) (planning : option ProductPlanningResult) : JsM S AnalysisResult :=
  if skipAnalysis p && opt_preserveAnalysis o then
    match preservedAnalysis with
    | Some r => assign (AAnalysis r);; mret r
    | None => Js.throw "Cannot skip Analysis - no preserved analysis/stories found"
    end
  else
    onTasks (setCurrentPhase now taskId (phaseName Analysis));;
    let base := default (t_title task) (JsStr.orNull (t_description task)) in
    let desc := default base (r ← planning; JsStr.orNull (pp_enrichedPrompt r)) in
    r ← runPhase Analysis
          (run_analysis {| ac_task := task; ac_description := desc;
                           ac_repositories := opt_repositories o; ac_planningData := planning |});
    assign (AAnalysis r);;
    callback (CbAnalysis (length (ar_stories r)));;
    if negb (ar_success r) then Js.throw (default "Analysis phase failed" (JsStr.orNull (ar_error r)))
    else if bool_decide (ar_stories r = []) then Js.throw "Analysis produced no stories"
    else onTasks (markPhaseComplete now taskId (phaseName Analysis)
                    (Some (json_payload (PlAnalysis (ar_stories r) (ar_branchName r)))));;
         mret r.

(** The story callbacks: only stories known to the analysis are reported. *)
Definition storyCallbacks (an dev : list StoryResult) : list Callback :=
  omap (fun e : nat * StoryResult =>
          match list_find (fun s => sr_id s = sr_id e.2) an with
          | Some _ => Some (CbStory e.1 (sr_id e.2) (bool_decide (sr_verdict e.2 = VApproved)))
          | None => None
          end) (imap pair dev).

Definition approvedCount (ss : list StoryResult) : nat :=
  length (base.filter (fun s => sr_verdict s = VApproved) ss).

(** PHASE 2 *)
Definition phaseDeveloper (p : Plan) (an : AnalysisResult) : JsM S DeveloperResult :=
  onTasks (setCurrentPhase now taskId (phaseName Developer));;
  r ← runPhase Developer
        (run_developer {| dc_task := task; dc_repositories := opt_repositories o;
                          dc_stories := ar_stories an; dc_branchName := ar_branchName an;
                          dc_autoApprove := auto;
                          dc_startFromStoryIndex := resumeFromStoryIndex p |});
  assign (ADeveloper r);;
  callback (CbDeveloper (dr_totalCommits r));;
  foldr (fun c m => callback c;; m) (mret tt) (storyCallbacks (ar_stories an) (dr_stories r));;
  onTasks (markPhaseComplete now taskId (phaseName Developer)
             (Some (json_payload (PlDeveloper (dr_stories r) (dr_totalCommits r)
                                    (approvedCount (dr_stories r))))));;
  mret r.

(** PHASE 2.5 *)
Definition phaseTestGeneration (dev : DeveloperResult) : JsM S unit :=
  if opt_skipTestGeneration o then mret tt
  else
    onTasks (setCurrentPhase now taskId (phaseName TestGeneration));;
    r ← runPhase TestGeneration
          (run_testGeneration {| tc_task := task; tc_stories := dr_stories dev;
                                 tc_autoApprove := auto;
                                 tc_coverageThreshold := default 70%Z (opt_coverageThreshold o);
                                 tc_maxIterations := 3 |});
    assign (ATestGeneration r);;
    callback CbTestGeneration;;
    onTasks (markPhaseComplete now taskId (phaseName TestGeneration)
               (Some (json_payload (PlTests r))));;
    if bool_decide (mode = Manual) && (0 <? tg_testsGenerated r)
    then waitApproval TestGeneration Merge else mret tt.

(** [formatAnalysisDescription] *)
Definition formatAnalysisDescription (a : AnalysisData) : string :=
  "### Summary" +:+ nl +:+ an_summary a +:+ nl +:+ nl
  +:+ "### Approach" +:+ nl +:+ an_approach a +:+ nl +:+ nl
  +:+ "### Risks" +:+ nl
  +:+ default "None identified"
        (JsStr.orNull (Some (join nl ((fun r => "- " +:+ r) <$> an_risks a)))).

(** The comparator of [determineWorkingDirectory], as "a before or with b". *)
Definition repoBefore (a b : RepositoryInfo) : bool :=
  let ba := bool_decide (r_type a = "backend") in
  let bb := bool_decide (r_type b = "backend") in
  if ba && negb bb then true
  else if bb && negb ba then false
  else (default 999 (r_executionOrder a) <=? default 999 (r_executionOrder b))%Z.

(** A stable sort: a new element goes after those it does not precede. *)
Fixpoint insertRepo (a : RepositoryInfo) (l : list RepositoryInfo) : list RepositoryInfo :=
  match l with
  | [] => [a]
  | b :: l' => if repoBefore a b then a :: b :: l' else b :: insertRepo a l'
  end.

Definition sortRepos (l : list RepositoryInfo) : list RepositoryInfo := foldr insertRepo [] l.

Definition determineWorkingDirectory (rs : list RepositoryInfo) (projectPath : string) : string :=
  match sortRepos rs with
  | [] => projectPath
  | r :: _ => r_localPath r
  end.

Definition prDescription (an : AnalysisResult) (dev : DeveloperResult)
    (tg : option TestGenerationResult) : string :=
  let plain := formatAnalysisDescription (ar_analysis an) in
  if opt_useEnhancedGitHub o then
    match enhanced_description task an dev tg with Ok d => d | Throw _ => plain end
  else plain.

(** [onPullRequestCreated] for every request, or for the legacy one. *)
Definition prCallbacks (r : MergeResult) : list Callback :=
  match mr_pullRequests r with
  | [] => match mr_pullRequest r with
          | Some p => [CbPullRequest (pr_no p) (pr_link p)]
          | None => []
          end
  | prs => (fun p => CbPullRequest (pr_no (rp_pr p)) (pr_link (rp_pr p))) <$> prs
  end.

(** PHASE 3. The notification the wrapped approval callback sends while the
    phase is running belongs to the phase and is not in [callbacks]. *)
Definition phaseMerge (an : AnalysisResult) (dev : DeveloperResult) : JsM S unit :=
  onTasks (setCurrentPhase now taskId (phaseName Merge));;
  tg ← Js.gets testGenerationResult;
  r ← runPhase Merge
        (run_merge
           {| mc_task := task;
              mc_workingDirectory :=
                Some (determineWorkingDirectory (opt_repositories o) (opt_projectPath o));
              mc_repositories := opt_repositories o; mc_branchName := ar_branchName an;
              mc_analysisDescription := prDescription an dev tg;
              mc_storiesCompleted := approvedCount (dr_stories dev);
              mc_totalStories := length (ar_stories an);
              mc_onMergeApprovalRequired := opt_onMergeApprovalRequired o;
              mc_autoMerge := default false (opt_autoMerge o) |});
  assign (AMerge r);;
  foldr (fun c m => callback c;; m) (mret tt) (prCallbacks r);;
  onTasks (markPhaseComplete now taskId (phaseName Merge) (Some (json_payload (PlMerge r)))).

(** The body of the [try]. *)
Definition pipeline (p : Plan) : JsM S unit :=
  planning ← phasePlanning p;
  contextCaching;;
  an ← phaseAnalysis p planning;
  (if bool_decide (mode = Manual) then waitApproval Analysis Developer else mret tt);;
  dev ← phaseDeveloper p an;
  (if bool_decide (mode = Manual) then waitApproval Developer TestGeneration else mret tt);;
  phaseTestGeneration dev;;
  phaseMerge an dev.

Definition failureReason (m : option MergeResult) : string :=
  match m with
  | None => "Merge phase did not complete"
  | Some r =>
      match mr_pullRequest r with
      | None => "Failed to create pull request"
      | Some _ => if mr_merged r then "Unknown merge failure" else "Pull request was not merged"
      end
  end.

Definition mergeSucceeded (m : option MergeResult) : bool :=
  match m with Some r => mr_success r | None => false end.

(** What follows the [try]: the global scan, the status, the clean-up. *)
Definition finish : JsM S GlobalScanResult :=
  onTasks (setCurrentPhase now taskId (phaseName GScan));;
  s ← Js.gets (fun s => s);
  g ← runPhase GScan (fun tb =>
        (Ok (run_scan {| gc_task := task; gc_repositories := opt_repositories o;
                         gc_sessionId :=
                           match developerResult s with
                           | Some d => if JsStr.truthy (dr_sessionId d) then Some (dr_sessionId d)
                                       else ar_sessionId <$> analysisResult s
                           | None => ar_sessionId <$> analysisResult s
                           end;
                         gc_branchName := ar_branchName <$> analysisResult s;
                         gc_mergeSuccess := mr_success <$> mergeResult s |}), tb));
  onTasks (markPhaseComplete now taskId (phaseName GScan)
             (Some (json_payload (PlScan (gs_summary g)))));;
  (if mergeSucceeded (mergeResult s)
   then onTasks (updateStatus now taskId Completed)
   else onTasks (setFailed now taskId (failureReason (mergeResult s))));;
  onTasks (clearResumeState now taskId);;
  emit (EvComplete (mergeSucceeded (mergeResult s) && gs_success g));;
  mret g.

Definition initialS (tb : gmap string TaskRow) : S :=
  {| tasks := tb; events := []; calls := []; callbacks := []; planningResult := None;
     analysisResult := None; developerResult := None; testGenerationResult := None;
     mergeResult := None; cacheStats := {| cs_hits := 0; cs_misses := 0; cs_tokensSaved := 0 |} |}.

Definition resultOf (g : GlobalScanResult) (s : S) : OrchestrationResult :=
  {| or_success := mergeSucceeded (mergeResult s); or_taskId := taskId;
     or_planning := planningResult s; or_analysis := analysisResult s;
     or_developer := developerResult s; or_testGeneration := testGenerationResult s;
     or_merge := mergeResult s; or_globalScan := Some g;
     or_cacheStats := match opt_enableContextCache o with
                      | Some false => None
                      | _ => Some (cacheStats s)
                      end;
     or_error := None |}.

(** The run of a task that was found. *)
Definition runTask : JsM S GlobalScanResult :=
  let p := computePlan task o in
  onTasks (updateStatus now taskId Running);;
  lift (prepare_providers task);;
  emit (EvStart (announced p));;
  Js.try_catch (pipeline p) (fun _ => mret tt);;
  finish.

End execute.

Definition notFound (taskId : string) : OrchestrationResult :=
  {| or_success := false; or_taskId := taskId; or_planning := None; or_analysis := None;
     or_developer := None; or_testGeneration := None; or_merge := None; or_globalScan := None;
     or_cacheStats := None; or_error := Some "Task not found" |}.

Definition execute `{PR : PhaseRunners} (now : Z) (taskId : string) (o : OrchestrationOptions)
    (tb : gmap string TaskRow) : outcome OrchestrationResult * S :=
  match findById taskId tb with
  | None => (Ok (notFound taskId), initialS tb)
  | Some task =>
      match runTask now taskId o task (initialS tb) with
      | (Ok g, s) => (Ok (resultOf taskId o g s), s)
      | (Throw e, s) => (Throw e, s)
      end
  end.

(** [resume]: a check on the stored analysis, then a fresh execution. *)
Inductive ResumePoint := FromAnalysis | FromDeveloper | FromMerge.

Definition resume `{PR : PhaseRunners} (now : Z) (taskId : string) (from : ResumePoint)
    (o : OrchestrationOptions) (tb : gmap string TaskRow) : outcome OrchestrationResult * S :=
  match findById taskId tb with
  | None => (Ok (notFound taskId), initialS tb)
  | Some task =>
      let needsAnalysis := match from with FromAnalysis => false | _ => true end in
      let missing := match t_analysis task, t_stories task with
                     | Some _, Some _ => false
                     | _, _ => true
                     end in
      if needsAnalysis && missing then
        (Ok {| or_success := false; or_taskId := taskId; or_planning := None;
               or_analysis := None; or_developer := None; or_testGeneration := None;
               or_merge := None; or_globalScan := None; or_cacheStats := None;
               or_error := Some "Cannot resume: missing analysis data" |}, initialS tb)
      else execute now taskId o tb
  end.

Definition cancel (now : Z) (taskId : string) (s : S) : S :=
  (emit EvCancelled
     (onTasks (clearResumeState now taskId)
        (onTasks (updateStatus now taskId Cancelled) s).2).2).2.

End Orchestrator.
