(* ===== verification/OrchestratorProofs.v ===== *)
(** * Orchestrator: order of the phases, the final scan, the final status, and
    what a rejection or a resume really does *)

From S2P Require Import Prelude TaskTypes TaskRepository MergePhase GlobalScan Approval Orchestrator TaskRepositoryProofs MergePhaseProofs.
From stdpp Require Import options.
Import TaskRepository MergePhase GlobalScan Orchestrator.

Module OrchSpec.

(** ** A calculus for the phase log

    [follows m l]: a normal run of [m] starts exactly the phases [l], in that
    order; a run that throws started a prefix of them. *)

Definition follows {A} (m : JsM S A) (l : list RetryablePhase) : Prop := forall s,
  match m s with
  | (Ok _, s') => calls s' = calls s ++ l
  | (Throw _, s') => exists k, k `prefix_of` l /\ calls s' = calls s ++ k
  end.

Create HintDb follows.

Lemma follows_ret {A} (a : A) : follows (mret a) [].
Proof. intros s. simpl. by rewrite app_nil_r. Qed.

Lemma follows_throw {A} e l : follows (Js.throw e : JsM S A) l.
Proof. intros s. simpl. exists []. split; [apply prefix_nil|by rewrite app_nil_r]. Qed.

Lemma follows_bind {A B} (m : JsM S A) (k : A -> JsM S B) l l' :
  follows m l -> (forall a, follows (k a) l') -> follows (m ≫= k) (l ++ l').
Proof.
  intros Hm Hk s. specialize (Hm s). unfold mbind, jsm_bind.
  destruct (m s) as [[a|e] s1].
  - specialize (Hk a s1). destruct (k a s1) as [[b|e] s2].
    + by rewrite Hk, Hm, app_assoc.
    + destruct Hk as (q & Hq & ->). exists (l ++ q). split; [by apply prefix_app|].
      by rewrite Hm, app_assoc.
  - destruct Hm as (q & Hq & ->). exists q. split; [|done]. by apply prefix_app_r.
Qed.

(** A step that starts no phase, before the rest. *)
Lemma follows_bind_l {A B} (m : JsM S A) (k : A -> JsM S B) l :
  follows m [] -> (forall a, follows (k a) l) -> follows (m ≫= k) l.
Proof. apply follows_bind. Qed.

Lemma follows_modify f : (forall s, calls (f s) = calls s) -> follows (Js.modify f) [].
Proof. intros Hf s. simpl. by rewrite Hf, app_nil_r. Qed.

Lemma follows_onTasks f : follows (onTasks f) [].
Proof. by apply follows_modify. Qed.
Lemma follows_emit e : follows (emit e) [].
Proof. by apply follows_modify. Qed.
Lemma follows_callback c : follows (callback c) [].
Proof. by apply follows_modify. Qed.
Lemma follows_assign a : follows (assign a) [].
Proof. by apply follows_modify. Qed.

Lemma follows_gets {A} (f : S -> A) : follows (Js.gets f) [].
Proof. intros s. simpl. by rewrite app_nil_r. Qed.

Lemma follows_lift {A} (x : outcome A) : follows (lift x) [].
Proof. intros s. destruct x; simpl; [by rewrite app_nil_r|]. exists []. by rewrite app_nil_r. Qed.

Lemma follows_runPhase {A} p (f : gmap string TaskRow -> outcome A * gmap string TaskRow) :
  follows (runPhase p f) [p].
Proof. intros s. unfold runPhase. destruct (f (tasks s)) as [[a|e] tb]; simpl; [done|]. by exists [p]. Qed.

Lemma follows_callbacks (l : list Callback) :
  follows (foldr (fun c m => callback c;; m) (mret tt) l) [].
Proof.
  induction l as [|c l IH]; simpl; [apply follows_ret|].
  apply follows_bind_l; [apply follows_callback|done].
Qed.

#[local] Hint Resolve follows_gets follows_ret follows_throw follows_onTasks follows_emit follows_callback
  follows_assign follows_lift follows_callbacks : follows.

Ltac follows_steps :=
  repeat first
    [ progress intros
    | solve [eauto with follows]
    | apply follows_bind_l; [solve [eauto with follows]|]
    | case_match ].

(** ** What every step keeps

    [respects R m]: the state after [m], normal or not, is [R]-related to the
    state before it. *)

Definition respects {A} (R : S -> S -> Prop) (m : JsM S A) : Prop := forall s, R s (m s).2.

Section respects.
Context (R : S -> S -> Prop) `{!PreOrder R}.
#[local] Set Default Proof Using "Type*".

Lemma respects_ret {A} (a : A) : respects R (mret a).
Proof. intros s. simpl. reflexivity. Qed.

Lemma respects_throw {A} e : respects R (Js.throw e : JsM S A).
Proof. intros s. simpl. reflexivity. Qed.

Lemma respects_gets {A} (f : S -> A) : respects R (Js.gets f).
Proof. intros s. simpl. reflexivity. Qed.

Lemma respects_lift {A} (x : outcome A) : respects R (lift x).
Proof. intros s. simpl. reflexivity. Qed.

Lemma respects_bind {A B} (m : JsM S A) (k : A -> JsM S B) :
  respects R m -> (forall a, respects R (k a)) -> respects R (m ≫= k).
Proof.
  intros Hm Hk s. specialize (Hm s). unfold mbind, jsm_bind.
  destruct (m s) as [[a|e] s1]; simpl in *; [|done].
  etrans; [exact Hm|]. apply (Hk a s1).
Qed.

Lemma respects_callbacks (l : list Callback) :
  (forall c, respects R (callback c)) ->
  respects R (foldr (fun c m => callback c;; m) (mret tt) l).
Proof.
  intros Hc. induction l as [|c l IH]; simpl; [apply respects_ret|].
  apply respects_bind; [apply Hc|done].
Qed.
End respects.

Create HintDb respects.
#[local] Hint Resolve respects_gets respects_ret respects_throw respects_lift respects_callbacks
  respects_bind : respects.

Ltac respects_steps :=
  repeat first
    [ progress intros
    | progress cbn zeta
    | solve [eauto with respects typeclass_instances]
    | apply respects_bind; [apply _|solve [eauto with respects typeclass_instances]|]
    | case_match ].

(** The merge result is untouched. *)
Definition sameMerge (s s' : S) : Prop := mergeResult s' = mergeResult s.
#[local] Instance sameMerge_pre : PreOrder sameMerge.
Proof. split; [by intros s|]. intros a b c. unfold sameMerge. congruence. Qed.

(** No row of the table disappears. *)
Definition keepsRows (s s' : S) : Prop :=
  forall i, is_Some (tasks s !! i) -> is_Some (tasks s' !! i).
#[local] Instance keepsRows_pre : PreOrder keepsRows.
Proof. split; [by intros s i Hi|]. intros a b c Hab Hbc i Hi. by apply Hbc, Hab. Qed.

Lemma sameMerge_onTasks f : respects sameMerge (onTasks f).
Proof. by intros s. Qed.
Lemma sameMerge_emit e : respects sameMerge (emit e).
Proof. by intros s. Qed.
Lemma sameMerge_callback c : respects sameMerge (callback c).
Proof. by intros s. Qed.
Lemma sameMerge_assign a :
  match a with AMerge _ => False | _ => True end -> respects sameMerge (assign a).
Proof. by destruct a; intros ? s. Qed.
Lemma sameMerge_runPhase {A} p (f : gmap string TaskRow -> outcome A * gmap string TaskRow) :
  respects sameMerge (runPhase p f).
Proof. intros s. unfold runPhase. by destruct (f (tasks s)). Qed.

#[local] Hint Resolve sameMerge_onTasks sameMerge_emit sameMerge_callback sameMerge_runPhase : respects.
#[local] Hint Extern 1 (respects sameMerge (assign _)) => apply sameMerge_assign; exact I : respects.

(** A run that returns leaves a merge result satisfying [P]; one that throws
    leaves the merge result alone. *)
Definition setsMerge (P : MergeResult -> Prop) {A} (m : JsM S A) : Prop := forall s,
  match m s with
  | (Ok _, s') => exists r, mergeResult s' = Some r /\ P r
  | (Throw _, s') => sameMerge s s'
  end.

Lemma setsMerge_bind P {A B} (m : JsM S A) (k : A -> JsM S B) :
  respects sameMerge m -> (forall a, setsMerge P (k a)) -> setsMerge P (m ≫= k).
Proof.
  intros Hm Hk s. specialize (Hm s). unfold mbind, jsm_bind.
  destruct (m s) as [[a|e] s1]; [|done]. specialize (Hk a s1).
  destruct (k a s1) as [[b|e] s2]; [done|]. by etrans.
Qed.

Lemma keepsRows_emit e : respects keepsRows (emit e).
Proof. by intros s i Hi. Qed.
Lemma keepsRows_callback c : respects keepsRows (callback c).
Proof. by intros s i Hi. Qed.
Lemma keepsRows_assign a : respects keepsRows (assign a).
Proof. by intros s i Hi. Qed.
Lemma keepsRows_onTasks f :
  (forall tb i, is_Some (tb !! i) -> is_Some (f tb !! i)) -> respects keepsRows (onTasks f).
Proof. intros Hf s i. simpl. apply Hf. Qed.
Lemma keepsRows_op now i op : respects keepsRows (onTasks (TaskRepoSpec.execOp now i op)).
Proof. apply keepsRows_onTasks. intros tb j. apply TaskRepoSpec.execOp_keeps. Qed.
Lemma keepsRows_runPhase {A} p (f : gmap string TaskRow -> outcome A * gmap string TaskRow) :
  (forall tb i, is_Some (tb !! i) -> is_Some ((f tb).2 !! i)) -> respects keepsRows (runPhase p f).
Proof. intros Hf s i Hi. unfold runPhase. specialize (Hf _ _ Hi). by destruct (f (tasks s)). Qed.

Section pipeline.
Context `{PR : PhaseRunners}.
Variable now : Z.
Variable taskId : string.
Variable o : OrchestrationOptions.
Variable task : Task.

(** The phases a run of the pipeline is made of. *)
Definition planned (p : Plan) : list RetryablePhase :=
  (if skipPlanning p then [] else [Planning]) ++
  (if skipAnalysis p && opt_preserveAnalysis o then [] else [Analysis]) ++
  [Developer] ++
  (if opt_skipTestGeneration o then [] else [TestGeneration]) ++
  [Merge].

Lemma follows_waitApproval a b : follows (waitApproval now taskId a b) [].
Proof. unfold waitApproval. follows_steps. Qed.

Lemma follows_contextCaching : follows (contextCaching taskId o) [].
Proof. unfold contextCaching. follows_steps. Qed.

#[local] Hint Resolve follows_waitApproval follows_contextCaching : follows.

Lemma follows_planning p :
  follows (phasePlanning now taskId o task p) (if skipPlanning p then [] else [Planning]).
Proof.
  unfold phasePlanning. destruct (skipPlanning p); [apply follows_ret|].
  apply follows_bind_l; [eauto with follows|intros _].
  apply (follows_bind _ _ [Planning] []); [apply follows_runPhase|]. follows_steps.
Qed.

Lemma follows_analysis p pl :
  follows (phaseAnalysis now taskId o task p pl)
    (if skipAnalysis p && opt_preserveAnalysis o then [] else [Analysis]).
Proof.
  unfold phaseAnalysis. destruct (skipAnalysis p && opt_preserveAnalysis o); [follows_steps|].
  apply follows_bind_l; [eauto with follows|intros _]. cbn zeta.
  apply (follows_bind _ _ [Analysis] []); [apply follows_runPhase|]. follows_steps.
Qed.

Lemma follows_developer p an : follows (phaseDeveloper now taskId o task p an) [Developer].
Proof.
  unfold phaseDeveloper. apply follows_bind_l; [eauto with follows|intros _].
  apply (follows_bind _ _ [Developer] []); [apply follows_runPhase|]. follows_steps.
Qed.

Lemma follows_testGeneration dev :
  follows (phaseTestGeneration now taskId o task dev)
    (if opt_skipTestGeneration o then [] else [TestGeneration]).
Proof.
  unfold phaseTestGeneration. destruct (opt_skipTestGeneration o); [apply follows_ret|].
  apply follows_bind_l; [eauto with follows|intros _].
  apply (follows_bind _ _ [TestGeneration] []); [apply follows_runPhase|]. follows_steps.
Qed.

Lemma follows_merge an dev : follows (phaseMerge now taskId o task an dev) [Merge].
Proof.
  unfold phaseMerge. do 2 (apply follows_bind_l; [eauto with follows|intros ?]).
  apply (follows_bind _ _ [Merge] []); [apply follows_runPhase|]. follows_steps.
Qed.

Lemma follows_pipeline p : follows (pipeline now taskId o task p) (planned p).
Proof.
  unfold pipeline, planned. apply follows_bind; [apply follows_planning|intros pl].
  apply follows_bind_l; [apply follows_contextCaching|intros _].
  apply follows_bind; [apply follows_analysis|intros an].
  apply follows_bind_l; [follows_steps|intros _].
  apply follows_bind; [apply follows_developer|intros dev].
  apply follows_bind_l; [follows_steps|intros _].
  apply follows_bind; [apply follows_testGeneration|intros _]. apply follows_merge.
Qed.

(** ** Which steps touch the merge result *)

Lemma sameMerge_waitApproval a b : respects sameMerge (waitApproval now taskId a b).
Proof. unfold waitApproval. respects_steps. Qed.

Lemma sameMerge_contextCaching : respects sameMerge (contextCaching taskId o).
Proof. unfold contextCaching. respects_steps. Qed.

Lemma sameMerge_planning p : respects sameMerge (phasePlanning now taskId o task p).
Proof. unfold phasePlanning. respects_steps. Qed.

Lemma sameMerge_analysis p pl : respects sameMerge (phaseAnalysis now taskId o task p pl).
Proof. unfold phaseAnalysis. respects_steps. Qed.

Lemma sameMerge_developer p an : respects sameMerge (phaseDeveloper now taskId o task p an).
Proof. unfold phaseDeveloper. respects_steps. Qed.

#[local] Hint Resolve sameMerge_waitApproval : respects.

Lemma sameMerge_testGeneration dev : respects sameMerge (phaseTestGeneration now taskId o task dev).
Proof. unfold phaseTestGeneration. respects_steps. Qed.

(** The callbacks never throw. *)
Lemma callbacks_ok (l : list Callback) s :
  exists s', foldr (fun c m => callback c;; m) (mret tt) l s = (Ok tt, s') /\ sameMerge s s'.
Proof.
  revert s. induction l as [|c l IH]; intros s; [by exists s|].
  destruct (IH (callback c s).2) as (s' & E & H'). by exists s'.
Qed.

(** What the merge phase was asked and answered. *)
Definition mergeRan (m : MergeResult) : Prop := exists c tb tb',
  run_merge c tb = (Ok m, tb') /\ mc_autoMerge c = default false (opt_autoMerge o)
  /\ mc_onMergeApprovalRequired c = opt_onMergeApprovalRequired o
  /\ mc_repositories c = opt_repositories o /\ mc_task c = task.

(** The merge phase assigns its result exactly when it does not throw. *)
Lemma merge_assigns an dev : setsMerge mergeRan (phaseMerge now taskId o task an dev).
Proof.
  intros s. unfold phaseMerge. do 2 (erewrite Js.bind_ok by reflexivity). unfold mbind at 1, jsm_bind at 1.
  unfold runPhase. simpl. destruct (run_merge _ _) as [[r|e] tb] eqn:Hr; [|done].
  erewrite Js.bind_ok by reflexivity. unfold mbind at 1, jsm_bind at 1.
  match goal with |- context [foldr _ _ ?l ?s] => destruct (callbacks_ok l s) as (s' & -> & H') end.
  simpl. rewrite H'. exists r. split; [done|]. by eexists _, _, _.
Qed.

(** The result is present after the [try] exactly when nothing threw. *)
Lemma pipeline_merge p : setsMerge mergeRan (pipeline now taskId o task p).
Proof.
  unfold pipeline.
  apply setsMerge_bind; [apply sameMerge_planning|intros pl].
  apply setsMerge_bind; [apply sameMerge_contextCaching|intros []].
  apply setsMerge_bind; [apply sameMerge_analysis|intros an].
  apply setsMerge_bind; [respects_steps|intros []].
  apply setsMerge_bind; [apply sameMerge_developer|intros dev].
  apply setsMerge_bind; [respects_steps|intros []].
  apply setsMerge_bind; [apply sameMerge_testGeneration|intros []].
  apply merge_assigns.
Qed.

(** ** No step deletes a task *)

Section rows.
Context {OK : PhaseRunnersOk}.
#[local] Set Default Proof Using "Type*".

#[local] Hint Resolve keepsRows_emit keepsRows_callback keepsRows_assign : respects.
#[local] Hint Resolve planning_keeps analysis_keeps developer_keeps testGeneration_keeps
  merge_keeps : respects.
#[local] Hint Extern 2 (respects keepsRows (runPhase _ _)) => apply keepsRows_runPhase; intros : respects.

(** Each table update of the orchestrator is a statement of the repository. *)
#[local] Hint Extern 1 (respects keepsRows (onTasks (fun tb => (update ?n ?i ?p tb).2))) =>
  exact (keepsRows_op n i (TaskRepoSpec.OUpdate p)) : respects.
#[local] Hint Extern 1 (respects keepsRows (onTasks (setCurrentPhase ?n ?i ?p))) =>
  exact (keepsRows_op n i (TaskRepoSpec.OPhase p)) : respects.
#[local] Hint Extern 1 (respects keepsRows (onTasks (markPhaseComplete ?n ?i ?p ?d))) =>
  exact (keepsRows_op n i (TaskRepoSpec.OMark p d)) : respects.
#[local] Hint Extern 1 (respects keepsRows (onTasks (savePlanningResult ?n ?i ?p))) =>
  exact (keepsRows_op n i (TaskRepoSpec.OPlanning p)) : respects.
#[local] Hint Extern 1 (respects keepsRows (onTasks (updateStatus ?n ?i ?p))) =>
  exact (keepsRows_op n i (TaskRepoSpec.OStatus p)) : respects.

Lemma keepsRows_waitApproval a b : respects keepsRows (waitApproval now taskId a b).
Proof. unfold waitApproval. respects_steps. Qed.

#[local] Hint Resolve keepsRows_waitApproval : respects.

Lemma keepsRows_planning p : respects keepsRows (phasePlanning now taskId o task p).
Proof. unfold phasePlanning. respects_steps. Qed.
Lemma keepsRows_contextCaching : respects keepsRows (contextCaching taskId o).
Proof. unfold contextCaching. respects_steps. Qed.
Lemma keepsRows_analysis p pl : respects keepsRows (phaseAnalysis now taskId o task p pl).
Proof. unfold phaseAnalysis. respects_steps. Qed.
Lemma keepsRows_developer p an : respects keepsRows (phaseDeveloper now taskId o task p an).
Proof. unfold phaseDeveloper. respects_steps. Qed.
Lemma keepsRows_testGeneration dev : respects keepsRows (phaseTestGeneration now taskId o task dev).
Proof. unfold phaseTestGeneration. respects_steps. Qed.
Lemma keepsRows_merge an dev : respects keepsRows (phaseMerge now taskId o task an dev).
Proof. unfold phaseMerge. respects_steps. Qed.

#[local] Hint Resolve keepsRows_planning keepsRows_contextCaching keepsRows_analysis
  keepsRows_developer keepsRows_testGeneration keepsRows_merge : respects.

Lemma keepsRows_pipeline p : respects keepsRows (pipeline now taskId o task p).
Proof. unfold pipeline. respects_steps. Qed.

End rows.

(** ** The epilogue never throws *)

Definition reasonOrDone (s : S) (tb : gmap string TaskRow) : gmap string TaskRow :=
  if mergeSucceeded (mergeResult s) then updateStatus now taskId Completed tb
  else setFailed now taskId (failureReason (mergeResult s)) tb.

(** The table after the epilogue. *)
Definition closed (g : GlobalScanResult) (s : S) : gmap string TaskRow :=
  clearResumeState now taskId (reasonOrDone s
    (markPhaseComplete now taskId (phaseName GScan) (Some (json_payload (PlScan (gs_summary g))))
       (setCurrentPhase now taskId (phaseName GScan) (tasks s)))).

Lemma finish_run s :
  exists g s', finish now taskId o task s = (Ok g, s')
    /\ calls s' = calls s ++ [GScan] /\ mergeResult s' = mergeResult s
    /\ tasks s' = closed g s
    /\ events s' = events s ++ [EvComplete (mergeSucceeded (mergeResult s) && gs_success g)].
Proof.
  unfold finish, closed, reasonOrDone, mbind, jsm_bind, onTasks, Js.modify, Js.gets, runPhase, emit.
  cbn. destruct (mergeSucceeded (mergeResult s)); cbn; do 2 eexists; (split; [reflexivity|done]).
Qed.

(** The task's row after the epilogue. *)
Lemma closed_row g s r :
  tasks s !! taskId = Some r ->
  exists r', closed g s !! taskId = Some r'
    /\ status r' = (if mergeSucceeded (mergeResult s) then Completed else Failed)
    /\ (mergeSucceeded (mergeResult s) = false ->
         failure_reason r' = Some (failureReason (mergeResult s)))
    /\ resumeOf r' =
        {| rs_completed := Some (default [] (completed_phases r)
             ++ [PhaseObject (phaseName GScan) now (Some (json_payload (PlScan (gs_summary g))))]);
           rs_phase := None; rs_step := None; rs_agent := None; rs_story := None |}.
Proof.
  intros Hr. unfold closed, reasonOrDone, clearResumeState, updateStatus, setFailed,
    markPhaseComplete, setCurrentPhase.
  destruct (mergeSucceeded (mergeResult s));
    rewrite !TaskRepoSpec.updateRow_same, Hr; eexists; split_and!; try reflexivity.
  intros [=].
Qed.

(** The state in which the pipeline starts. *)
Definition startS (tb : gmap string TaskRow) : S :=
  (emit (EvStart (announced (computePlan task o)))
     (onTasks (updateStatus now taskId Running) (initialS tb)).2).2.

(** The state after the [try]. *)
Definition afterTry (tb : gmap string TaskRow) : S :=
  (pipeline now taskId o task (computePlan task o) (startS tb)).2.

Lemma runTask_run tb :
  runTask now taskId o task (initialS tb) =
  match prepare_providers task with
  | Ok _ => finish now taskId o task (afterTry tb)
  | Throw e => (Throw e, (onTasks (updateStatus now taskId Running) (initialS tb)).2)
  end.
Proof.
  unfold runTask, afterTry, startS, mbind, jsm_bind, Js.try_catch, lift. simpl.
  destruct (prepare_providers task) as [[]|e]; [|done]. simpl.
  destruct (pipeline _ _ _ _ _ _) as [[[]|e] s]; done.
Qed.

Lemma afterTry_calls tb :
  exists k, k `prefix_of` planned (computePlan task o) /\ calls (afterTry tb) = k
    /\ ((pipeline now taskId o task (computePlan task o) (startS tb)).1 = Ok tt ->
         k = planned (computePlan task o)).
Proof.
  pose proof (follows_pipeline (computePlan task o) (startS tb)) as H. unfold afterTry.
  destruct (pipeline _ _ _ _ _ _) as [[[]|e] s']; simpl in *.
  - exists (planned (computePlan task o)). rewrite H. split_and!; [done|done|auto].
  - destruct H as (k & Hk & ->). exists k. split_and!; [done|done|intros [=]].
Qed.

Lemma afterTry_merge tb :
  match (pipeline now taskId o task (computePlan task o) (startS tb)).1 with
  | Ok _ => exists m, mergeResult (afterTry tb) = Some m /\ mergeRan m
  | Throw _ => mergeResult (afterTry tb) = None
  end.
Proof.
  pose proof (pipeline_merge (computePlan task o) (startS tb)) as H. unfold afterTry.
  by destruct (pipeline _ _ _ _ _ _) as [[[]|e] s'].
Qed.

Lemma afterTry_row {OK : PhaseRunnersOk} tb :
  is_Some (tb !! taskId) -> is_Some (tasks (afterTry tb) !! taskId).
Proof.
  intros Hi. apply (keepsRows_pipeline (computePlan task o) (startS tb)). simpl.
  by apply (TaskRepoSpec.execOp_keeps now taskId (TaskRepoSpec.OStatus Running)).
Qed.

End pipeline.

Section execute_facts.
Context `{PR : PhaseRunners}.

Lemma execute_found now taskId o tb task :
  findById taskId tb = Some task ->
  match prepare_providers task with
  | Ok _ =>
      exists g s', execute now taskId o tb = (Ok (resultOf taskId o g s'), s')
        /\ calls s' = calls (afterTry now taskId o task tb) ++ [GScan]
        /\ mergeResult s' = mergeResult (afterTry now taskId o task tb)
        /\ tasks s' = closed now taskId g (afterTry now taskId o task tb)
  | Throw e =>
      execute now taskId o tb
      = (Throw e, (onTasks (updateStatus now taskId Running) (initialS tb)).2)
  end.
Proof.
  intros Hf. unfold execute. rewrite Hf, runTask_run.
  destruct (prepare_providers task) as [[]|e]; [|done].
  destruct (finish_run now taskId o task (afterTry now taskId o task tb))
    as (g & s' & Hr & Hc & Hm & Ht & _). rewrite Hr. eauto 10.
Qed.

(** C1 For every task that exists, whatever the phases, the approvals and the
    options do: once the providers are set up the execution returns; the phases
    are started in pipeline order (a prefix of the planned sequence, all of it
    when nothing throws), and then the global scan runs, exactly once and last;
    its result is part of the answer. A failing set-up is the only way out by an
    exception, and then no phase was started. *)
Theorem phases_in_order_then_scan now taskId o tb task :
  findById taskId tb = Some task ->
  let p := computePlan task o in
  match execute now taskId o tb with
  | (Ok r, s) =>
      exists k g, k `prefix_of` planned o p /\ calls s = k ++ [GScan]
      /\ GScan ∉ k /\ or_globalScan r = Some g
      /\ ((pipeline now taskId o task p (startS now taskId o task tb)).1 = Ok tt ->
           k = planned o p)
  | (Throw e, s) => prepare_providers task = Throw e /\ calls s = []
  end.
Proof.
  intros Hf. cbn zeta. pose proof (execute_found now taskId o tb task Hf) as He.
  destruct (prepare_providers task) as [[]|e]; [|by rewrite He].
  destruct He as (g & s' & -> & Hc & _).
  destruct (afterTry_calls now taskId o task tb) as (k & Hk & Hck & Hall).
  exists k, g. split_and!; auto; [by rewrite Hc, Hck|].
  intros Hin. apply (elem_of_prefix _ _ _ Hin) in Hk. clear -Hk. unfold planned in Hk.
  revert Hk. destruct (skipPlanning _), (skipAnalysis _ && _), (opt_skipTestGeneration o);
    by apply (bool_decide_unpack (GScan ∉ _)).
Qed.

(** The answer to an approval request between phases has no effect: with
    every promise answered, replacing any answers (approve, reject, request
    changes, with any feedback) by any others leaves the result, the database,
    the events and the phases run exactly the same. A rejection does not stop
    the pipeline. *)
Theorem approval_answer_ignored now taskId o tb (ans1 ans2 : string -> string -> ApprovalService.ApprovalResponse) :
  let withAnswers ans : PhaseRunners :=
    {| prepare_providers := prepare_providers; run_planning := run_planning; run_analysis := run_analysis;
       run_developer := run_developer; run_testGeneration := run_testGeneration;
       run_merge := run_merge; run_scan := run_scan;
       ask_approval := fun t p => Ok (ans t p); cache_context := cache_context;
       enhanced_description := enhanced_description; json_payload := json_payload |} in
  execute (PR := withAnswers ans1) now taskId o tb = execute (PR := withAnswers ans2) now taskId o tb.
Proof. reflexivity. Qed.

(** The flags computed to skip Developer and Merge only change what is
    announced: when the pipeline completes, both phases have run, also for a
    retry that starts later (the frontend was told they would not). *)
Theorem skipped_phases_still_run now taskId o tb task :
  findById taskId tb = Some task -> prepare_providers task = Ok tt ->
  let p := computePlan task o in
  (pipeline now taskId o task p (startS now taskId o task tb)).1 = Ok tt ->
  let s := (execute now taskId o tb).2 in
  Developer ∈ calls s /\ Merge ∈ calls s
  /\ (opt_skipTestGeneration o = false -> TestGeneration ∈ calls s)
  /\ (skipDeveloper p = true -> "Developer" ∉ announced p)
  /\ (skipMerge p = true -> "Merge" ∉ announced p).
Proof.
  intros Hf Hp p Hok. pose proof (execute_found now taskId o tb task Hf) as He.
  rewrite Hp in He. destruct He as (g & s' & -> & Hc & _).
  destruct (afterTry_calls now taskId o task tb) as (k & _ & Hck & Hall).
  cbn [snd]. rewrite Hc, Hck, (Hall Hok). unfold planned, announced. fold p. clearbody p.
  split_and!; intros; destruct (skipPlanning p), (skipAnalysis p), (skipDeveloper p),
    (skipTestGeneration p), (skipMerge p), (opt_preserveAnalysis o), (opt_skipTestGeneration o);
    try discriminate; by apply (bool_decide_unpack _).
Qed.

(** C2 The outcome of a run, whatever the phases do: the returned success flag
    is that of the merge phase; the task ends completed or failed accordingly
    (a throw anywhere in the pipeline fails it with "Merge phase did not
    complete", whatever was thrown), never left running; the resume columns are
    cleared and the global scan closes the record of completed phases. Only a
    failing provider set-up, before any phase, leaves the task running. *)
Theorem execution_outcome {OK : PhaseRunnersOk} now taskId o tb task :
  findById taskId tb = Some task ->
  match execute now taskId o tb with
  | (Throw e, s) =>
      prepare_providers task = Throw e
      /\ exists row, tasks s !! taskId = Some row /\ status row = Running
  | (Ok r, s) =>
    exists row, tasks s !! taskId = Some row
    /\ or_success r = mergeSucceeded (or_merge r)
    /\ status row = (if or_success r then Completed else Failed)
    /\ (or_success r = false -> failure_reason row = Some (failureReason (or_merge r)))
    /\ current_phase row = None /\ current_step row = None /\ current_agent row = None
    /\ last_completed_story_index row = None
    /\ (exists h d, completed_phases row = Some (h ++ [PhaseObject "GlobalScan" now (Some d)]))
    /\ match (pipeline now taskId o task (computePlan task o) (startS now taskId o task tb)).1 with
       | Ok _ => is_Some (or_merge r)
       | Throw _ => or_merge r = None
       end
  end.
Proof.
  intros Hf. pose proof (afterTry_merge now taskId o task tb) as Hm.
  pose proof (execute_found now taskId o tb task Hf) as He.
  apply fmap_Some in Hf as (rowB & HrowB & _).
  destruct (prepare_providers task) as [[]|e].
  2:{ rewrite He. split; [done|]. simpl. unfold updateStatus.
      rewrite TaskRepoSpec.updateRow_same, HrowB. by eexists. }
  destruct He as (g & s' & -> & _ & Hsame & Ht).
  destruct (afterTry_row now taskId o task tb) as [row0 Hrow]; [by eexists|].
  destruct (closed_row now taskId g _ _ Hrow) as (row & Hc & Hs & Hfr & Hres).
  exists row. rewrite Ht, Hc. cbn. rewrite Hsame. injection Hres as Hcp Hph Hst Hag Hsi.
  split_and!; auto; [by eexists _, _|].
  destruct (pipeline _ _ _ _ _ _).1; [destruct Hm as (m & -> & _); by eexists|done].
Qed.

(** Resuming without an explicit phase repeats everything: when the record
    of completed phases was written by [markPhaseComplete], no phase is skipped
    because of it, so every phase is announced and planned again (planning
    unless disabled, tests unless disabled). *)
Theorem resume_repeats_completed_phases task o :
  opt_startFromPhase o = None -> Forall TaskRepoSpec.isObject (completedPhasesOf task) ->
  let p := computePlan task o in
  skipPlanning p = opt_skipPlanning o /\ skipAnalysis p = false /\ skipDeveloper p = false
  /\ skipTestGeneration p = opt_skipTestGeneration o /\ skipMerge p = false
  /\ planned o p =
       (if opt_skipPlanning o then [] else [Planning]) ++ [Analysis; Developer] ++
       (if opt_skipTestGeneration o then [] else [TestGeneration]) ++ [Merge].
Proof.
  intros Hstart Hobj.
  assert (forall q, includesPhase q (completedPhasesOf task) = false) as Hno.
  { intros q. unfold includesPhase. clear -Hobj.
    induction Hobj as [|[] l He _ IH]; [done|done|exact IH]. }
  unfold planned, computePlan, startPhaseIndex. rewrite Hstart, !Hno. cbn.
  rewrite !orb_false_r. by destruct (opt_skipPlanning o), (opt_skipTestGeneration o).
Qed.

End execute_facts.

(** ** The working directory *)

Lemma repoBefore_total a b : repoBefore a b = false -> repoBefore b a = true.
Proof.
  unfold repoBefore. destruct (bool_decide (r_type a = "backend")), (bool_decide (r_type b = "backend"));
    simpl; try done; lia.
Qed.

Lemma repoBefore_trans a b c :
  repoBefore a b = true -> repoBefore b c = true -> repoBefore a c = true.
Proof.
  unfold repoBefore. destruct (bool_decide (r_type a = "backend")), (bool_decide (r_type b = "backend")),
    (bool_decide (r_type c = "backend")); simpl; try done; lia.
Qed.

(** The head of the sorted list is the first of the minimal elements. *)
Lemma sortRepos_head rs :
  match sortRepos rs with
  | [] => rs = []
  | r :: _ => exists a b, rs = a ++ r :: b
      /\ Forall (fun q => repoBefore q r = false) a /\ Forall (fun q => repoBefore r q = true) b
  end.
Proof.
  induction rs as [|x rs IH]; simpl; [done|]. destruct (sortRepos rs) as [|r l]; simpl.
  - subst rs. exists [], []. auto.
  - destruct IH as (a & b & -> & Ha & Hb). destruct (repoBefore x r) eqn:E.
    + exists [], (a ++ r :: b). split_and!; [done|done|].
      apply Forall_app. split; [|constructor; [done|]].
      * eapply Forall_impl; [|exact Ha]. intros q Hq. simpl in Hq.
        eapply repoBefore_trans; [exact E|]. by apply repoBefore_total.
      * eapply Forall_impl; [|exact Hb]. intros q Hq. by eapply repoBefore_trans.
    + exists (x :: a), b. split_and!; [done| |done]. by constructor.
Qed.

(** The directory handed to the merge phase is the project path when there
    is no repository; otherwise it is the path of the first repository that
    comes before every other one in the order "backend first, then execution
    order, 999 when there is none" (ties keep the configured order): a backend
    repository whenever one exists. *)
Theorem determineWorkingDirectory_correct rs projectPath :
  match rs with
  | [] => determineWorkingDirectory rs projectPath = projectPath
  | _ => exists a r b, rs = a ++ r :: b
      /\ determineWorkingDirectory rs projectPath = r_localPath r
      /\ Forall (fun q => repoBefore q r = false) a
      /\ Forall (fun q => repoBefore r q = true) b
      /\ (Exists (fun q => r_type q = "backend") rs -> r_type r = "backend")
  end.
Proof.
  pose proof (sortRepos_head rs) as Hh. unfold determineWorkingDirectory.
  destruct rs as [|x rs]; [done|].
  destruct (sortRepos (x :: rs)) as [|r l]; [done|].
  destruct Hh as (a & b & Hrs & Ha & Hb). exists a, r, b. split_and!; auto.
  intros (q & Hq & Hty)%list.Exists_exists. rewrite Hrs in Hq.
  assert (repoBefore r q = true) as Hle.
  { rewrite list.Forall_forall in Ha, Hb. apply elem_of_app in Hq as [Hq|Hq].
    - by apply repoBefore_total, Ha.
    - apply elem_of_cons in Hq as [->|Hq]; [|by apply Hb].
      unfold repoBefore. destruct (bool_decide (r_type _ = "backend")); simpl; lia. }
  revert Hle. unfold repoBefore. rewrite (bool_decide_eq_true_2 _ Hty).
  case_bool_decide; [done|]. done.
Qed.

(** Cancelling marks the task cancelled, clears its resume columns and keeps
    its record of completed phases; no other task changes, and one event is
    sent. *)
Theorem cancel_correct now taskId s row :
  tasks s !! taskId = Some row ->
  let s' := cancel now taskId s in
  (exists row', tasks s' !! taskId = Some row' /\ status row' = Cancelled
     /\ resumeOf row' = {| rs_completed := completed_phases row; rs_phase := None;
                           rs_step := None; rs_agent := None; rs_story := None |}
     /\ failure_reason row' = failure_reason row /\ analysis row' = analysis row
     /\ stories row' = stories row)
  /\ (forall j, j <> taskId -> tasks s' !! j = tasks s !! j)
  /\ events s' = events s ++ [EvCancelled] /\ calls s' = calls s.
Proof.
  intros Hr. cbn zeta. unfold cancel, clearResumeState, updateStatus. simpl. split_and!; [| |done|done].
  - rewrite !TaskRepoSpec.updateRow_same, Hr. eexists. by split_and!.
  - intros j Hj. by rewrite !TaskRepoSpec.updateRow_other.
Qed.

(** ** The phases modelled in this development as runners *)

Section linked.
Variable hasChanges : string -> outcome bool.
Variable createPullRequest : string -> string -> string -> outcome PullRequestInfo.
Variable getPullRequestStatus : string -> Z -> outcome PRStatus.
Variable mergePullRequest : string -> Z -> outcome unit.

(** The merge phase on the table, from a world without earlier git calls. *)
Definition mergeRunner (now : Z) (c : MergePhaseContext) (tb : gmap string TaskRow)
    : outcome MergeResult * gmap string TaskRow :=
  let '(r, w) := executeMergePhase hasChanges createPullRequest getPullRequestStatus
    mergePullRequest now c {| w_tasks := tb; w_calls := []; w_events := [] |} in (r, w_tasks w).

Lemma push_tasks c repos w :
  w_tasks (fold_left (pushRemaining hasChanges c) repos w) = w_tasks w.
Proof.
  revert w. induction repos as [|r repos IH]; intros w; [done|]. simpl. rewrite IH.
  unfold pushRemaining. by destruct (hasChanges _) as [[]|].
Qed.

Lemma create_tasks c repos prs errs w :
  w_tasks (fold_left (createOne createPullRequest c) repos (prs, errs, w)).2 = w_tasks w.
Proof.
  revert prs errs w. induction repos as [|r repos IH]; intros prs errs w; [done|].
  simpl. by destruct (createPullRequest _ _ _) as [pr|m]; [|destruct (isNoChanges m)]; rewrite IH.
Qed.

Lemma merge_tasks prs res w :
  w_tasks (fold_left (mergeStep getPullRequestStatus mergePullRequest) prs (res, w)).2 = w_tasks w.
Proof.
  revert res w. induction prs as [|p prs IH]; intros res w; [done|]. simpl. unfold mergeOne.
  destruct (getPullRequestStatus _ _) as [st|m]; [|by rewrite IH].
  destruct (negb _); [by rewrite IH|]. by destruct (negb _); rewrite IH.
Qed.

(** The merge phase discharges its law of the interface. *)
Lemma mergeRunner_keeps now c tb i :
  is_Some (tb !! i) -> is_Some ((mergeRunner now c tb).2 !! i).
Proof.
  intros Hi. unfold mergeRunner, executeMergePhase.
  destruct (reposToProcess c) as [repos|]; [|done].
  match goal with |- context [fold_left (createOne _ c) repos (_, _, ?w)] =>
    pose proof (create_tasks c repos [] [] w) as Ht; rewrite push_tasks in Ht;
    destruct (fold_left (createOne _ c) repos _) as [[prs errs] w3]
  end. cbn in Ht. destruct prs as [|p prs]; [cbn; by rewrite Ht|].
  assert (forall w, w_tasks w = w_tasks w3 ->
    is_Some (setPullRequest now (t_id (mc_task c)) (pr_no (rp_pr p)) (pr_link (rp_pr p))
               (w_tasks w) !! i)) as Hset.
  { intros w ->. rewrite Ht. by apply (TaskRepoSpec.execOp_keeps now _ (TaskRepoSpec.OPullRequest _ _)). }
  unfold askApproval. destruct (mc_autoMerge c); [|destruct (mc_onMergeApprovalRequired c) as [ask|];
    [destruct (ask (rp_pr p)) as [[]|m]|]]; try (apply Hset; done).
  all: unfold mergeAll;
    match goal with |- context [fold_left (mergeStep _ _) ?l (?r, ?w)] =>
      pose proof (merge_tasks l r w) as Hm; destruct (fold_left (mergeStep _ _) l (r, w)) as [res w6]
    end; cbn in Hm |- *; rewrite Hm; by apply Hset.
Qed.

(** The result of an unapproved merge phase: a success exactly when no error is
    reported, and never a merge. *)
Lemma unapproved_result now c tb r tb' :
  mergeRunner now c tb = (Ok r, tb') ->
  mc_autoMerge c = false -> mc_onMergeApprovalRequired c = None ->
  mr_merged r = false /\ (mr_success r = true <-> mr_error r = None).
Proof.
  unfold mergeRunner, executeMergePhase. intros Hr Ha Hn. revert Hr.
  destruct (reposToProcess c) as [repos|]; [|by intros [= <- _]].
  destruct (fold_left (createOne _ c) repos _) as [[prs errs] w3].
  destruct prs as [|p prs].
  - unfold finishWithoutPRs. intros [= <- _]. cbn. by case_bool_decide.
  - unfold askApproval. rewrite Ha, Hn. by intros [= <- _].
Qed.

Context `{PR : PhaseRunners} {OK : PhaseRunnersOk}.

(** Merging is not needed for a task to count as completed: in a run without
    auto-merge and without an approval callback, nothing is merged, and the task
    ends completed exactly when the merge phase returned without an error (its
    pull requests stay open, or there was nothing to open). *)
Lemma completed_without_merge now taskId o tb task :
  (forall c tb, run_merge c tb = mergeRunner now c tb) ->
  findById taskId tb = Some task ->
  opt_autoMerge o <> Some true -> opt_onMergeApprovalRequired o = None ->
  forall r s m, execute now taskId o tb = (Ok r, s) -> or_merge r = Some m ->
    mr_merged m = false /\ (or_success r = true <-> mr_error m = None)
    /\ exists row, tasks s !! taskId = Some row
         /\ (status row = Completed <-> mr_error m = None).
Proof using OK.
  intros Hlink Hf Hauto Hcb r s m Hex Em. pose proof (afterTry_merge now taskId o task tb) as Hm.
  pose proof (execute_found now taskId o tb task Hf) as He.
  apply fmap_Some in Hf as (rowB & HrowB & _).
  destruct (prepare_providers task) as [[]|e]; [|congruence].
  destruct He as (g & s' & He & _ & Hsame & Ht). rewrite He in Hex. injection Hex as <- <-.
  destruct (afterTry_row now taskId o task tb) as [row0 Hrow]; [by eexists|].
  destruct (closed_row now taskId g _ _ Hrow) as (row & Hc & Hs & _).
  cbn in Em. rewrite Hsame in Em. rewrite Ht, Hc. rewrite Em in Hm, Hs. cbn in Hs.
  destruct (pipeline _ _ _ _ _ _).1; [|done]. destruct Hm as (m' & [= <-] & Hran).
  destruct Hran as (c & tb0 & tb1 & Hr & Hca & Hcc & _). rewrite Hlink in Hr.
  destruct (unapproved_result _ _ _ _ _ Hr) as [Hmg Hok].
  - rewrite Hca. destruct (opt_autoMerge o) as [[]|]; done.
  - by rewrite Hcc.
  - split_and!; [done|cbn; by rewrite Hsame, Em|].
    exists row. split; [done|]. rewrite Hs, <- Hok. by destruct (mr_success m).
Qed.

End linked.

(** ** A concrete system *)

Definition demoTask : Task := MergeSpec.demoTask.
Definition demoTable : gmap string TaskRow := TaskRepoSpec.demoTable.

Definition demoStory : StoryResult :=
  {| sr_id := "s1"; sr_title := "S"; sr_description := ""; sr_status := StoryPending;
     sr_filesToModify := None; sr_filesToCreate := None; sr_filesToRead := None;
     sr_acceptanceCriteria := None; sr_iterations := 1; sr_verdict := VApproved;
     sr_score := None; sr_issues := None; sr_commitHash := None; sr_vulnerabilities := [] |}.

Definition demoScan : GlobalVulnerabilityScan := createEmptyGlobalScan 5.

#[local] Instance demoRunners : PhaseRunners :=
  {| prepare_providers _ := Ok tt;
     run_planning _ _ _ tb :=
       (Ok {| pp_success := true; pp_uxFlows := None; pp_plannedTasks := None;
              pp_clarifications := None; pp_enrichedPrompt := None; pp_durationMs := 1 |}, tb);
     run_analysis _ tb :=
       (Ok {| ar_success := true; ar_sessionId := "a";
              ar_analysis := {| an_summary := ""; an_approach := ""; an_risks := [];
                                an_vulnerabilities := [] |};
              ar_stories := [demoStory]; ar_branchName := "feature/x"; ar_error := None |}, tb);
     run_developer c tb :=
       (Ok {| dr_success := true; dr_sessionId := "d"; dr_stories := dc_stories c;
              dr_totalCommits := 1; dr_error := None |}, tb);
     run_testGeneration _ tb :=
       (Ok {| tg_testsGenerated := 0; tg_edgeCasesDetected := 0; tg_coverageGaps := 0;
              tg_testsPassed := true; tg_coverageBefore := None; tg_coverageAfter := None |}, tb);
     run_merge := mergeRunner (fun _ => Ok false) MergeSpec.demoCreate MergeSpec.demoStatusOk
                    MergeSpec.demoMerge 5;
     run_scan c := (executeGlobalScanPhase (fun _ _ _ => Ok demoScan) 5 c).1;
     ask_approval _ _ :=
       Ok {| ApprovalService.action := ApprovalService.Approve; ApprovalService.feedback := None |};
     cache_context _ := Throw "no cache";
     enhanced_description _ _ _ _ := Throw "none";
     json_payload _ := "data" |}.

#[local] Instance demoRunnersOk : PhaseRunnersOk.
Proof. split; try (intros; assumption). intros c tb i. apply mergeRunner_keeps. Qed.

Definition demoOptions : OrchestrationOptions :=
  {| opt_projectPath := "/w"; opt_repositories := [MergeSpec.demoRepo "api"];
     opt_phaseApprovalMode := None; opt_autoMerge := None; opt_skipPlanning := false;
     opt_skipPlanningForSimpleTasks := None; opt_skipTestGeneration := false;
     opt_coverageThreshold := None; opt_enableContextCache := None;
     opt_useEnhancedGitHub := false; opt_startFromPhase := Some Merge;
     opt_preserveAnalysis := false; opt_onMergeApprovalRequired := None |}.

(** The full run: every phase, then the scan. *)
Lemma phases_in_order_then_scan_witness :
  match execute 5 "t1" demoOptions demoTable with
  | (Ok r, s) =>
     exists k g, k `prefix_of` planned demoOptions (computePlan demoTask demoOptions)
       /\ calls s = k ++ [GScan] /\ GScan ∉ k /\ or_globalScan r = Some g
       /\ ((pipeline 5 "t1" demoOptions demoTask (computePlan demoTask demoOptions)
              (startS 5 "t1" demoOptions demoTask demoTable)).1 = Ok tt ->
            k = planned demoOptions (computePlan demoTask demoOptions))
  | (Throw e, s) => prepare_providers demoTask = Throw e /\ calls s = []
  end.
Proof. apply (phases_in_order_then_scan 5 "t1" demoOptions demoTable demoTask). reflexivity. Defined.

Lemma skipped_phases_still_run_witness :
  Developer ∈ calls (execute 5 "t1" demoOptions demoTable).2
  /\ "Developer" ∉ announced (computePlan demoTask demoOptions).
Proof.
  pose proof (skipped_phases_still_run (PR := demoRunners) 5 "t1" demoOptions demoTable demoTask
    (eq_refl _) (eq_refl _) ltac:(vm_compute; reflexivity)) as H.
  split; [apply H|apply H; reflexivity].
Defined.

Lemma execution_outcome_witness :
  exists r s row, execute 5 "t1" demoOptions demoTable = (Ok r, s)
    /\ tasks s !! "t1" = Some row /\ status row = Completed /\ current_phase row = None.
Proof.
  pose proof (execution_outcome (PR := demoRunners) 5 "t1" demoOptions demoTable demoTask eq_refl) as H.
  assert (exists r, (execute 5 "t1" demoOptions demoTable).1 = Ok r /\ or_success r = true)
    as (r & Er & E) by (eexists; split; vm_compute; reflexivity).
  destruct (execute 5 "t1" demoOptions demoTable) as [r' s]. cbn [fst] in Er. subst r'.
  destruct H as (row & Hr & _ & Hs & _ & Hp & _). rewrite E in Hs. eauto 10.
Defined.

Definition demoResumed : Task :=
  mapRow (default (newRow "t1" 0 TaskRepoSpec.demoParams)
    (markPhaseComplete 3 "t1" "Planning" None demoTable !! "t1")).
Definition demoFresh : OrchestrationOptions :=
  {| opt_projectPath := "/w"; opt_repositories := [MergeSpec.demoRepo "api"];
     opt_phaseApprovalMode := Some Automatic; opt_autoMerge := None; opt_skipPlanning := false;
     opt_skipPlanningForSimpleTasks := None; opt_skipTestGeneration := false;
     opt_coverageThreshold := None; opt_enableContextCache := None;
     opt_useEnhancedGitHub := false; opt_startFromPhase := None;
     opt_preserveAnalysis := false; opt_onMergeApprovalRequired := None |}.

Lemma resume_repeats_completed_phases_witness :
  "Planning" ∈ (entryName <$> completedPhasesOf demoResumed)
  /\ planned demoFresh (computePlan demoResumed demoFresh)
     = [Planning; Analysis; Developer; TestGeneration; Merge].
Proof.
  split; [by apply (bool_decide_unpack _)|].
  apply (resume_repeats_completed_phases demoResumed demoFresh); [reflexivity|].
  vm_compute. repeat constructor.
Defined.

Lemma cancel_correct_witness :
  exists row', tasks (cancel 9 "t1" (initialS demoTable)) !! "t1" = Some row'
    /\ status row' = Cancelled.
Proof.
  destruct (cancel_correct 9 "t1" (initialS demoTable) (newRow "t1" 0 TaskRepoSpec.demoParams) eq_refl)
    as [(row' & Hr & Hs & _) _]. by exists row'.
Defined.

Lemma completed_without_merge_witness :
  exists r s m row, execute 5 "t1" demoFresh demoTable = (Ok r, s) /\ or_merge r = Some m
    /\ mr_merged m = false /\ tasks s !! "t1" = Some row /\ status row = Completed.
Proof.
  pose proof (completed_without_merge (PR := demoRunners) (fun _ => Ok false) MergeSpec.demoCreate
    MergeSpec.demoStatusOk MergeSpec.demoMerge 5 "t1" demoFresh demoTable demoTask
    (fun _ _ => eq_refl) eq_refl ltac:(discriminate) eq_refl) as H.
  assert (exists r m, (execute 5 "t1" demoFresh demoTable).1 = Ok r /\ or_merge r = Some m
    /\ mr_error m = None)
    as (r & m & Er & Em & Ee) by (do 2 eexists; split_and!; vm_compute; reflexivity).
  destruct (execute 5 "t1" demoFresh demoTable) as [r' s]. cbn [fst] in Er. subst r'.
  destruct (H r s m eq_refl Em) as (Hm & _ & row & Hr & Hs). exists r, s, m, row.
  split_and!; auto. by apply Hs.
Defined.

End OrchSpec.
