(* ===== verification/AgentPhase.v ===== *)
(** * What the agent phases share

    The analysis, planning and test generation phases drive one OpenCode
    session each. This file holds what they have in common: the events of a
    session, the environment they call (class [AgentEnv], nothing is assumed of
    it), their state with the trace of every call, the language's coercions of
    parsed values, the JSON extraction they duplicate, and a small calculus on
    runs ([spec], [keeps]) with its automation. Prompts are kept as their
    arguments; their texts are in the sources. *)

From S2P Require Import Prelude JsNumber Json Regex Approval Sessions TaskTypes TaskRepository.
From stdpp Require Import options.

Module AgentPhase.
Import Json SessionRepository TaskRepository.

(** ** Values *)

(** The events of a session, by the fields the phases read. *)
Inductive OcEvent :=
  | OcPart (ty : string) (text : option string)
  | OcComplete (content : option string)
  | OcChunk (content text : option string)
  | OcPlain (content text : option string)
  | OcAgent (content : option string)
  | OcOther.

(** [output = part.text || output] over the text parts *)
Definition lastText (es : list OcEvent) : string :=
  fold_left (fun out e =>
    match e with
    | OcPart ty t => if bool_decide (ty = "text") then default out (JsStr.orNull t) else out
    | _ => out
    end) es "".

(** [v.name] where [v] may be undefined: [v?.name] *)
Definition optField (name : string) (v : option Json) : option Json := x ← v; field name x.

(** [v?.name || undefined] *)
Definition optTruthy (name : string) (v : option Json) : option Json := x ← v; truthyField name x.

Definition isNull (v : Json) : bool := match v with JNull => true | _ => false end.

(** [null] and [undefined] *)
Definition nullish (v : option Json) : bool :=
  match v with None | Some JNull => true | _ => false end.

(** [v.length > 0] *)
Definition nonEmpty (v : Json) : bool :=
  match v with
  | JArr l => negb (bool_decide (length l = 0))
  | JStr s => JsStr.truthy s
  | JObj _ => match field "length" v with
              | Some (JNum n) => SpecFloat.SFltb JsNum.zero n
              | _ => false
              end
  | _ => false
  end.

(** [v.map(f)] where [f] throws on the elements that fail [ok]; anything but
    an array has no [map]. *)
Definition mappable (ok : Json -> bool) (v : Json) : bool :=
  match v with JArr l => forallb ok l | _ => false end.

(** An element whose fields can be read. *)
Definition readable (v : Json) : bool := negb (isNull v).

(** [v?.join(s)]: absent, or an array *)
Definition joinable (v : option Json) : bool :=
  nullish v || match v with Some (JArr _) => true | _ => false end.

(** [issue.severity.toUpperCase()] on every issue *)
Definition issuesPrintable : Json -> bool :=
  mappable (fun i => match field "severity" i with Some (JStr _) => true | _ => false end).

(** ** JSON in an answer *)

(** [output.match(/.../)?.[0]] for the literals of the phases; [#] stands for
    the double quote. *)
Definition dq : Ascii.ascii := "034"%char.

Fixpoint quoted (s : string) : string :=
  match s with
  | EmptyString => EmptyString
  | String c s' => String (if bool_decide (c = "#"%char) then dq else c) (quoted s')
  end.

Definition rx (src : string) : Regex.re := default Regex.REmpty (Regex.compile (quoted src)).

(** [extractBalancedJson]: the text from the first opening brace at depth 0 to
    the brace that closes it. Strings inside are not recognised. *)
Fixpoint balanced (depth : Z) (start : option string) (taken : nat) (s : string) : option string :=
  match s with
  | EmptyString => None
  | String c s' =>
      let taken' := S taken in
      if bool_decide (c = "{"%char) then
        if (depth =? 0)%Z then balanced 1 (Some s) 1 s' else balanced (depth + 1) start taken' s'
      else if bool_decide (c = "}"%char) then
        match (depth - 1 =? 0)%Z, start with
        | true, Some t => Some (JsStr.take taken' t)
        | _, _ => balanced (depth - 1) start taken' s'
        end
      else balanced depth start taken' s'
  end.

Definition extractBalancedJson (s : string) : option string := balanced 0 None 0 s.

(** ** The environment *)

Section env.
Variable P : Type.

(** What a phase asks of the outside: OpenCode, git, the user; [JSON.parse];
    [String(v)] and [Number(v)] on parsed values. *)
Class AgentEnv (E : Type) := {
  createSession : string -> E -> outcome string * E;
  sendPrompt : string -> P -> E -> outcome unit * E;
  waitForIdle : string -> E -> outcome (list OcEvent) * E;
  abortSession : string -> E -> outcome unit * E;
  requestApproval : string -> string -> E -> outcome ApprovalService.ApprovalResponse * E;
  createBranch : string -> string -> E -> outcome string * E;
  checkout : string -> string -> E -> outcome unit * E;
  setBranchDescription : string -> string -> E -> outcome unit * E;
  hasChanges : string -> E -> outcome bool * E;
  commitAndPush : string -> string -> E -> outcome unit * E;
  jsonParse : string -> option Json;
  toText : Json -> string;
  toNumber : Json -> JsNum.t;
}.

End env.
Arguments createSession {P E _} _ _.
Arguments sendPrompt {P E _} _ _ _.
Arguments waitForIdle {P E _} _ _.
Arguments abortSession {P E _} _ _.
Arguments requestApproval {P E _} _ _ _.
Arguments createBranch {P E _} _ _ _.
Arguments checkout {P E _} _ _ _.
Arguments setBranchDescription {P E _} _ _ _.
Arguments hasChanges {P E _} _ _.
Arguments commitAndPush {P E _} _ _ _.
Arguments jsonParse P E {_} _.
Arguments toText P E {_} _.
Arguments toNumber P E {_} _.

(** The messages of the phases to the frontend. *)
Inductive PhaseEvent :=
  | EvStart (phase : string) (branch : option string)
  | EvSession (sid phase : string)
  | EvAgent (agent : string) (iteration : option nat)
  | EvProgress (step : string) (iteration : option nat)
  | EvIteration (kind : string) (iteration : nat)
  | EvVerdict (iteration : nat) (verdict score : Json)
  | EvClarification (kind : string)
  | EvFixApplied (iteration : nat)
  | EvComplete (phase : string) (success : bool)
  | EvFailed (phase error : string).

Inductive Act (P : Type) :=
  | ACreateSession (title : string)
  | ARegister (sid : string)
  | AUnregister (sid : string)
  | APrompt (sid : string) (p : P)
  | AWait (sid : string)
  | AAbort (sid : string)
  | AApproval (phase : string) (answer : outcome ApprovalService.ApprovalResponse)
  | ACreateBranch (dir : string)
  | ACheckout (dir branch : string)
  | ADescription (dir : string)
  | AHasChanges (dir : string)
  | ACommit (dir message : string)
  | AExternal (edgeCase : Json)
  | AEvent (e : PhaseEvent).
Arguments ACreateSession {P} _.
Arguments ARegister {P} _.
Arguments AUnregister {P} _.
Arguments APrompt {P} _ _.
Arguments AWait {P} _.
Arguments AAbort {P} _.
Arguments AApproval {P} _ _.
Arguments ACreateBranch {P} _.
Arguments ACheckout {P} _ _.
Arguments ADescription {P} _.
Arguments AHasChanges {P} _.
Arguments ACommit {P} _ _.
Arguments AExternal {P} _.
Arguments AEvent {P} _.

(** [counter] is a variable of the phase that outlives a throw. *)
Record W (P E : Type) := {
  env : E;
  sessions : list Session;
  tasks : gmap string TaskRow;
  trace : list (Act P);
  counter : nat;
}.
Arguments env {P E} _.
Arguments sessions {P E} _.
Arguments tasks {P E} _.
Arguments trace {P E} _.
Arguments counter {P E} _.
Arguments Build_W {P E} _ _ _ _ _.

Section ops.
Context {P E : Type} `{!AgentEnv P E}.
Abbreviation M := (JsM (W P E)).

(** An external call, recorded with its outcome. *)
Definition call {A} (a : outcome A -> Act P) (f : E -> outcome A * E) : M A := fun w =>
  let '(r, e) := f (env w) in
  (r, {| env := e; sessions := sessions w; tasks := tasks w; trace := trace w ++ [a r];
         counter := counter w |}).

Definition record (a : Act P) : M unit :=
  Js.modify (fun w => {| env := env w; sessions := sessions w; tasks := tasks w;
                         trace := trace w ++ [a]; counter := counter w |}).

Definition emit (e : PhaseEvent) : M unit := record (AEvent e).

Definition onSessions (f : list Session -> list Session) : M unit :=
  Js.modify (fun w => {| env := env w; sessions := f (sessions w); tasks := tasks w;
                         trace := trace w; counter := counter w |}).

Definition onTasks (f : gmap string TaskRow -> gmap string TaskRow) : M unit :=
  Js.modify (fun w => {| env := env w; sessions := sessions w; tasks := f (tasks w);
                         trace := trace w; counter := counter w |}).

Definition setCounter (n : nat) : M unit :=
  Js.modify (fun w => {| env := env w; sessions := sessions w; tasks := tasks w;
                         trace := trace w; counter := n |}).

Definition lift {A} (o : outcome A) : M A := fun w => (o, w).

(** A check that throws a [TypeError]. *)
Definition check (b : bool) (msg : string) : M unit :=
  if b then mret tt else Js.throw ("TypeError: " +:+ msg).

(** [try { m } catch {}] *)
Definition attempt {A} (m : M A) : M (option A) :=
  Js.try_catch (a ← m; mret (Some a)) (fun _ => mret None).

Definition prompt (sid : string) (p : P) : M unit := call (fun _ => APrompt sid p) (sendPrompt sid p).
Definition wait (sid : string) : M (list OcEvent) := call (fun _ => AWait sid) (waitForIdle sid).
Definition abort (sid : string) : M unit := call (fun _ => AAbort sid) (abortSession sid).

(** One exchange: send the prompt, wait for the session to be idle. *)
Definition ask (sid : string) (p : P) : M (list OcEvent) := prompt sid p;; wait sid.

Definition approval (taskId phase : string) : M ApprovalService.ApprovalResponse :=
  call (AApproval phase) (requestApproval taskId phase).

(** Session creation, registration and work inside one [try]; the handler
    knows the session if there is one. *)
Definition inSession {A} (title : string) (register : string -> M unit) (work : string -> M A)
    (onError : option string -> string -> M A) : M A :=
  o ← Js.try_catch (s ← call (fun _ => ACreateSession title) (createSession title); mret (inl s))
        (fun e => mret (inr e));
  match o with
  | inr e => onError None e
  | inl sid => Js.try_catch (register sid;; work sid) (onError (Some sid))
  end.

(** Session, event bridge and database row of a phase. *)
Definition openSession (now : Z) (rowId title taskId projectPath phase : string) (m : Mode) : M string :=
  sid ← call (fun _ => ACreateSession title) (createSession title);
  record (ARegister sid);;
  onSessions (SessionRepository.create rowId now
    {| cs_sessionId := sid; cs_taskId := taskId; cs_directory := projectPath;
       cs_phaseName := Some phase; cs_mode := Some m; cs_permissions := noPermissions |});;
  mret sid.

Definition step (now : Z) (taskId : string) (n : Z) (agent : string) : M unit :=
  onTasks (setCurrentStep now taskId n agent).

End ops.

(** ** A calculus on runs *)

Section calculus.
Context {P E : Type}.
Abbreviation M := (JsM (W P E)).

(** Every run of [m] appends to the trace acts [l] with [Q l r], [r] the outcome. *)
Definition spec {A} (m : M A) (Q : list (Act P) -> outcome A -> Prop) : Prop :=
  forall w, exists l, trace (m w).2 = trace w ++ l /\ Q l (m w).1.

Lemma spec_weaken {A} (m : M A) (Q Q' : list (Act P) -> outcome A -> Prop) :
  spec m Q -> (forall l r, Q l r -> Q' l r) -> spec m Q'.
Proof. intros Hm HQ w. destruct (Hm w) as (l & Hl & H). eauto. Qed.

Lemma spec_ret {A} (a : A) (Q : list (Act P) -> outcome A -> Prop) : Q [] (Ok a) -> spec (mret a) Q.
Proof. intros HQ w. exists []. by rewrite app_nil_r. Qed.

Lemma spec_bind {A B} (m : M A) (k : A -> M B) Q Q' :
  spec m Q ->
  (forall l e, Q l (Throw e) -> Q' l (Throw e)) ->
  (forall l a, Q l (Ok a) -> spec (k a) (fun l2 r => Q' (l ++ l2) r)) ->
  spec (m ≫= k) Q'.
Proof.
  intros Hm Ht Hk w. destruct (Hm w) as (l & Hl & H). unfold mbind, jsm_bind.
  destruct (m w) as [[a|e] w1]; simpl in *; [|by eauto].
  destruct (Hk l a H w1) as (l2 & Hl2 & H2). exists (l ++ l2). by rewrite Hl2, Hl, app_assoc.
Qed.

Lemma spec_try {A} (m : M A) (h : string -> M A) Q Q' :
  spec m Q ->
  (forall l a, Q l (Ok a) -> Q' l (Ok a)) ->
  (forall l e, Q l (Throw e) -> spec (h e) (fun l2 r => Q' (l ++ l2) r)) ->
  spec (Js.try_catch m h) Q'.
Proof.
  intros Hm Ho Hh w. destruct (Hm w) as (l & Hl & H). unfold Js.try_catch.
  destruct (m w) as [[a|e] w1]; simpl in *; [by eauto|].
  destruct (Hh l e H w1) as (l2 & Hl2 & H2). exists (l ++ l2). by rewrite Hl2, Hl, app_assoc.
Qed.

Lemma spec_any {A} (m : M A) R : spec m R -> spec m (fun _ _ => True).
Proof. intros Hm. eapply spec_weaken; [exact Hm|done]. Qed.

(** A first statement whose acts do not matter. *)
Lemma spec_skip {A B} (m : M A) (k : A -> M B) R Q' :
  spec m R -> (forall l e, Q' l (Throw e)) ->
  (forall l a, spec (k a) (fun l2 r => Q' (l ++ l2) r)) -> spec (m ≫= k) Q'.
Proof. intros Hm Ht Hk. eapply spec_bind; [exact (spec_any _ _ Hm)|auto|auto]. Qed.

Lemma spec_approval `{!AgentEnv P E} taskId phase :
  spec (approval taskId phase) (fun l r => l = [AApproval phase r]).
Proof. intros w. unfold approval, call. destruct (requestApproval taskId phase (env w)). by eexists. Qed.

(** Acts that all satisfy [R], whatever the outcome. *)
Definition acts {A} (R : Act P -> Prop) (m : M A) : Prop := spec m (fun l _ => Forall R l).

Lemma acts_ret {A} R (a : A) : acts R (mret a).
Proof. apply spec_ret. constructor. Qed.

Lemma acts_throw {A} R e : acts (A := A) R (Js.throw e).
Proof. intros w. exists []. simpl. by rewrite app_nil_r. Qed.

Lemma acts_bind {A B} R (m : M A) (k : A -> M B) :
  acts R m -> (forall a, acts R (k a)) -> acts R (m ≫= k).
Proof.
  intros Hm Hk. eapply spec_bind; [exact Hm|done|]. intros l a Hl.
  eapply spec_weaken; [apply Hk|]. simpl. intros l2 _ H2. by apply Forall_app.
Qed.

Lemma acts_try {A} R (m : M A) (h : string -> M A) :
  acts R m -> (forall e, acts R (h e)) -> acts R (Js.try_catch m h).
Proof.
  intros Hm Hh. eapply spec_try; [exact Hm|done|]. intros l e Hl.
  eapply spec_weaken; [apply Hh|]. simpl. intros l2 _ H2. by apply Forall_app.
Qed.

Lemma acts_lift {A} R (o : outcome A) : acts R (lift (P := P) (E := E) o).
Proof. intros w. exists []. simpl. by rewrite app_nil_r. Qed.

Lemma acts_check R b msg : acts R (check (P := P) (E := E) b msg).
Proof. destruct b; [apply acts_ret|apply acts_throw]. Qed.

Lemma acts_record (R : Act P -> Prop) a : R a -> acts R (record (E := E) a).
Proof. intros Ha w. exists [a]. simpl. auto. Qed.

Lemma acts_onSessions R f : acts R (onSessions (P := P) (E := E) f).
Proof. intros w. exists []. simpl. by rewrite app_nil_r. Qed.

Lemma acts_onTasks R f : acts R (onTasks (P := P) (E := E) f).
Proof. intros w. exists []. simpl. by rewrite app_nil_r. Qed.

Lemma acts_setCounter R n : acts R (setCounter (P := P) (E := E) n).
Proof. intros w. exists []. simpl. by rewrite app_nil_r. Qed.

Lemma acts_call {A} (R : Act P -> Prop) (a : outcome A -> Act P) (f : E -> outcome A * E) :
  (forall r, R (a r)) -> acts R (call a f).
Proof. intros Ha w. unfold call. destruct (f (env w)) as [r e]. exists [a r]. simpl. auto. Qed.

Lemma acts_attempt {A} R (m : M A) : acts R m -> acts R (attempt m).
Proof.
  intros Hm. apply acts_try; [|intros; apply acts_ret].
  apply acts_bind; [done|]. intros; apply acts_ret.
Qed.

(** [costs f n m]: the acts of a run weigh at most [n]. *)
Definition weight (f : Act P -> nat) (l : list (Act P)) : nat := foldr (fun a n => f a + n) 0 l.

Lemma weight_app f l k : weight f (l ++ k) = weight f l + weight f k.
Proof. unfold weight. induction l; simpl; lia. Qed.

Definition costs {A} (f : Act P -> nat) (n : nat) (m : M A) : Prop := spec m (fun l _ => weight f l <= n).

Lemma costs_weaken {A} f n n' (m : M A) : costs f n m -> n <= n' -> costs f n' m.
Proof. intros Hm Hn. eapply spec_weaken; [exact Hm|]. simpl. lia. Qed.

Lemma costs_ret {A} f (a : A) : costs f 0 (mret a).
Proof. by apply spec_ret. Qed.

Lemma costs_bind {A B} f n n' (m : M A) (k : A -> M B) :
  costs f n m -> (forall a, costs f n' (k a)) -> costs f (n + n') (m ≫= k).
Proof.
  intros Hm Hk. eapply spec_bind; [exact Hm|simpl; lia|]. simpl. intros l a Hl.
  eapply spec_weaken; [apply Hk|]. simpl. intros l2 _ H2. rewrite weight_app. lia.
Qed.

Lemma costs_try {A} f n n' (m : M A) (h : string -> M A) :
  costs f n m -> (forall e, costs f n' (h e)) -> costs f (n + n') (Js.try_catch m h).
Proof.
  intros Hm Hh. eapply spec_try; [exact Hm|simpl; lia|]. simpl. intros l e Hl.
  eapply spec_weaken; [apply Hh|]. simpl. intros l2 _ H2. rewrite weight_app. lia.
Qed.

(** Acts that weigh nothing cost nothing. *)
Lemma costs_acts {A} f (m : M A) : acts (fun a => f a = 0) m -> costs f 0 m.
Proof.
  intros Hm. eapply spec_weaken; [exact Hm|]. simpl. intros l _ Hl.
  induction Hl as [|a l Ha _ IH]; simpl; lia.
Qed.

Lemma costs_call {A} f n (a : outcome A -> Act P) (g : E -> outcome A * E) :
  (forall r, f (a r) <= n) -> costs f n (call a g).
Proof. intros Ha w. unfold call. destruct (g (env w)) as [r e]. exists [a r]. simpl. specialize (Ha r). split; [done|lia]. Qed.

(** The number of prompts. *)
Definition promptWeight (a : Act P) : nat := match a with APrompt _ _ => 1 | _ => 0 end.

Lemma costs_prompt `{!AgentEnv P E} sid p : costs promptWeight 1 (prompt sid p).
Proof. by apply costs_call. Qed.

Lemma costs_ask `{!AgentEnv P E} sid p : costs promptWeight 1 (ask sid p).
Proof. apply (costs_bind _ 1 0); [apply costs_prompt|]. intros _. by apply costs_call. Qed.

Lemma costs_free {A} f (m : M unit) (k : unit -> M A) n :
  acts (fun a => f a = 0) m -> costs f n (k tt) -> costs f n (m ≫= k).
Proof. intros Hm Hk. apply (costs_bind _ 0 n); [by apply costs_acts|]. by intros []. Qed.

(** [keeps R m]: every run of [m] relates the states by the preorder [R]. *)
Definition keeps {A} (R : W P E -> W P E -> Prop) (m : M A) : Prop := forall w, R w (m w).2.

Section preorder.
Variable R : W P E -> W P E -> Prop.
Context `{!PreOrder R}.
#[local] Set Default Proof Using "All".

Lemma keeps_ret {A} (a : A) : keeps R (mret a).
Proof. intros w. simpl. reflexivity. Qed.

Lemma keeps_throw {A} e : keeps (A := A) R (Js.throw e).
Proof. intros w. simpl. reflexivity. Qed.

Lemma keeps_lift {A} (o : outcome A) : keeps R (lift o).
Proof. intros w. simpl. reflexivity. Qed.

Lemma keeps_check b msg : keeps R (check b msg).
Proof. destruct b; [apply keeps_ret|apply keeps_throw]. Qed.

Lemma keeps_bind {A B} (m : M A) (k : A -> M B) :
  keeps R m -> (forall a, keeps R (k a)) -> keeps R (m ≫= k).
Proof.
  intros Hm Hk w. specialize (Hm w). unfold mbind, jsm_bind. destruct (m w) as [[a|e] w1]; [|done].
  simpl in *. etrans; [exact Hm|apply Hk].
Qed.

Lemma keeps_try {A} (m : M A) (h : string -> M A) :
  keeps R m -> (forall e, keeps R (h e)) -> keeps R (Js.try_catch m h).
Proof.
  intros Hm Hh w. specialize (Hm w). unfold Js.try_catch. destruct (m w) as [[a|e] w1]; [done|].
  simpl in *. etrans; [exact Hm|apply Hh].
Qed.

Lemma keeps_attempt {A} (m : M A) : keeps R m -> keeps R (attempt m).
Proof.
  intros Hm. apply keeps_try; [|intros; apply keeps_ret].
  apply keeps_bind; [done|]. intros; apply keeps_ret.
Qed.

End preorder.

(** A column, or any view, of every row of the task table is unchanged. *)
Definition sameView {B} (view : TaskRow -> B) (w w' : W P E) : Prop :=
  forall i, view <$> tasks w' !! i = view <$> tasks w !! i.

#[global] Instance sameView_preorder {B} (view : TaskRow -> B) : PreOrder (sameView view).
Proof. split; [by intros w i|]. intros w1 w2 w3 H1 H2 i. by rewrite H2, H1. Qed.

Lemma sameView_call {A B} (view : TaskRow -> B) (a : outcome A -> Act P) (f : E -> outcome A * E) :
  keeps (sameView view) (call a f).
Proof. intros w i. unfold call. by destruct (f (env w)). Qed.

Lemma sameView_record {B} (view : TaskRow -> B) a : keeps (sameView view) (record a).
Proof. by intros w i. Qed.

Lemma sameView_onSessions {B} (view : TaskRow -> B) f : keeps (sameView view) (onSessions f).
Proof. by intros w i. Qed.

Lemma sameView_updateRow {B} (view : TaskRow -> B) i f :
  (forall r, view (f r) = view r) -> keeps (sameView view) (onTasks (updateRow i f)).
Proof.
  intros Hf w j. unfold updateRow. simpl. destruct (decide (i = j)) as [->|].
  - rewrite lookup_alter_eq. destruct (tasks w !! j) as [x|]; [|done]. simpl. by rewrite Hf.
  - by rewrite lookup_alter_ne.
Qed.

(** The session table is unchanged. *)
Definition sameSessions (w w' : W P E) : Prop := sessions w' = sessions w.

#[global] Instance sameSessions_preorder : PreOrder sameSessions.
Proof. split; [done|]. intros w1 w2 w3. unfold sameSessions. congruence. Qed.

Lemma sameSessions_call {A} (a : outcome A -> Act P) (f : E -> outcome A * E) : keeps sameSessions (call a f).
Proof. intros w. unfold call, sameSessions. by destruct (f (env w)). Qed.

Lemma sameSessions_record a : keeps sameSessions (record a).
Proof. by intros w. Qed.

Lemma sameSessions_onTasks f : keeps sameSessions (onTasks f).
Proof. by intros w. Qed.

Lemma sameSessions_setCounter n : keeps sameSessions (setCounter n).
Proof. by intros w. Qed.

(** A statement that returns whatever happens. *)
Definition total {A} (m : M A) : Prop := forall w, exists a w', m w = (Ok a, w').

Lemma total_ret {A} (a : A) : total (mret a).
Proof. intros w. by do 2 eexists. Qed.

Lemma total_gets {A} (f : W P E -> A) : total (Js.gets f).
Proof. intros w. by do 2 eexists. Qed.

Lemma total_record a : total (record a).
Proof. intros w. by do 2 eexists. Qed.

Lemma total_bind {A B} (m : M A) (k : A -> M B) : total m -> (forall a, total (k a)) -> total (m ≫= k).
Proof. intros Hm Hk w. destruct (Hm w) as (a & w1 & H1). unfold mbind, jsm_bind. rewrite H1. apply Hk. Qed.

Lemma total_try {A} (m : M A) (h : string -> M A) : (forall e, total (h e)) -> total (Js.try_catch m h).
Proof. intros Hh w. unfold Js.try_catch. destruct (m w) as [[a|e] w1]; [by do 2 eexists|apply Hh]. Qed.

Lemma total_attempt {A} (m : M A) : total (attempt m).
Proof. apply total_try. intros; apply total_ret. Qed.

(** ** Work inside a session *)

Section inSession.
Context `{!AgentEnv P E} {A : Type}.
Variables (title : string) (register : string -> M unit) (work : string -> M A)
  (onError : option string -> string -> M A).

Lemma spec_inSession Q R :
  (forall sid, acts (fun _ => True) (register sid)) ->
  (forall sid, spec (work sid) Q) ->
  (forall l k a, Q k (Ok a) -> R (l ++ k) (Ok a)) ->
  (forall l sid e, spec (onError sid e) (fun k r => R (l ++ k) r)) ->
  spec (inSession title register work onError) R.
Proof.
  intros Hr Hw HQ He. unfold inSession.
  apply (spec_bind _ _ (fun l r => match r with Ok _ => True | Throw _ => False end)).
  - eapply spec_try with (Q := fun _ _ => True); [|done|].
    + eapply spec_any, (acts_bind (fun _ => True)); [by apply acts_call|intros; apply acts_ret].
    + intros l e _. by apply spec_ret.
  - done.
  - intros l [sid|e] _; [|apply He].
    apply (spec_try _ _ (fun k r => match r with Ok a => R (l ++ k) (Ok a) | Throw _ => True end)).
    + eapply spec_skip; [apply Hr|done|]. intros l1 []. eapply spec_weaken; [apply Hw|].
      intros l2 [a|e] H; [|done]. simpl. rewrite (assoc_L (++)). auto.
    + done.
    + intros k e _. eapply spec_weaken; [apply (He (l ++ k))|]. simpl. intros l2 r. by rewrite (assoc_L (++)).
Qed.

Lemma total_inSession : (forall sid e, total (onError sid e)) -> total (inSession title register work onError).
Proof.
  intros He. apply total_bind; [apply total_try; intros; apply total_ret|].
  intros [sid|e]; [apply total_try; intros|]; apply He.
Qed.

Lemma acts_inSession R :
  (forall r, R (ACreateSession r)) -> (forall sid, acts R (register sid)) -> (forall sid, acts R (work sid)) ->
  (forall sid e, acts R (onError sid e)) -> acts R (inSession title register work onError).
Proof.
  intros Hc Hr Hw He. apply acts_bind.
  - apply acts_try; [|intros; apply acts_ret]. apply acts_bind; [by apply acts_call|intros; apply acts_ret].
  - intros [sid|e]; [|apply He]. apply acts_try; [|apply He]. apply acts_bind; auto.
Qed.

Lemma costs_inSession f n :
  (forall r, f (ACreateSession r) = 0) -> (forall sid, acts (fun a => f a = 0) (register sid)) ->
  (forall sid, costs f n (work sid)) ->
  (forall sid e, costs f 0 (onError sid e)) -> costs f n (inSession title register work onError).
Proof.
  intros Hc Hr Hw He. apply (costs_bind _ 0 n).
  - apply costs_acts, acts_try; [|intros; apply acts_ret]. apply acts_bind; [by apply acts_call|intros; apply acts_ret].
  - intros [sid|e]; [|eapply costs_weaken; [apply He|lia]].
    replace n with (n + 0) by lia. apply costs_try; [|apply He]. by apply costs_free.
Qed.

Lemma keeps_inSession (R : W P E -> W P E -> Prop) `{!PreOrder R} :
  keeps R (call (fun _ => ACreateSession title) (createSession title)) ->
  (forall sid, keeps R (register sid)) -> (forall sid, keeps R (work sid)) ->
  (forall sid e, keeps R (onError sid e)) -> keeps R (inSession title register work onError).
Proof.
  intros Hc Hr Hw He. apply keeps_bind; [done| |].
  - apply keeps_try; [done| |intros; by apply keeps_ret]. apply keeps_bind; [done..|intros; by apply keeps_ret].
  - intros [sid|e]; [|apply He]. apply keeps_try; [done| |apply He]. by apply keeps_bind.
Qed.

(** Only the registration changes the session table. *)
Lemma sessions_inSession (f : string -> Sessions -> Sessions) w :
  (forall sid v, exists v', register sid v = (Ok tt, v') /\ sessions v' = f sid (sessions v)) ->
  (forall sid, keeps sameSessions (work sid)) -> (forall sid e, keeps sameSessions (onError sid e)) ->
  sessions (inSession title register work onError w).2 =
    match (createSession title (env w)).1 with
    | Ok sid => f sid (sessions w)
    | Throw _ => sessions w
    end.
Proof.
  intros Hr Hw He. unfold inSession, mbind, jsm_bind, Js.try_catch, call.
  destruct (createSession title (env w)) as [[sid|e] e']; cbn [fst].
  - cbv [mret jsm_ret]. cbv beta iota. set (w1 := {| env := e' |}).
    destruct (Hr sid w1) as (w2 & -> & H2). change (sessions w1) with (sessions w) in H2. rewrite <- H2.
    pose proof (Hw sid w2) as H3. unfold sameSessions in H3.
    destruct (work sid w2) as [[a|e] w3]; simpl in *; [done|]. etrans; [apply (He (Some sid) e w3)|done].
  - cbv [mret jsm_ret]. cbv beta iota. exact (He None e _).
Qed.

End inSession.

(** The rows of the task table stay. *)
Definition rowsStay (w w' : W P E) : Prop := forall i, is_Some (tasks w !! i) -> is_Some (tasks w' !! i).

#[global] Instance rowsStay_preorder : PreOrder rowsStay.
Proof. split; [by intros w i|]. intros w1 w2 w3 H1 H2 i Hi. by apply H2, H1. Qed.

Lemma rowsStay_call {A} (a : outcome A -> Act P) (f : E -> outcome A * E) : keeps rowsStay (call a f).
Proof. intros w i. unfold call. by destruct (f (env w)). Qed.

Lemma rowsStay_record a : keeps rowsStay (record a).
Proof. by intros w i. Qed.

Lemma rowsStay_setCounter n : keeps rowsStay (setCounter n).
Proof. by intros w i. Qed.

Lemma rowsStay_onSessions f : keeps rowsStay (onSessions f).
Proof. by intros w i. Qed.

Lemma rowsStay_updateRow i f : keeps rowsStay (onTasks (updateRow i f)).
Proof.
  intros w j Hj. unfold updateRow. simpl. destruct (decide (i = j)) as [->|].
  - rewrite lookup_alter_eq. destruct Hj as [x ->]. eauto.
  - by rewrite lookup_alter_ne.
Qed.

End calculus.

Create HintDb acts.
#[export] Hint Resolve acts_ret acts_throw acts_lift acts_check acts_onSessions acts_onTasks acts_setCounter acts_attempt : acts.
#[export] Hint Extern 1 (acts _ (record _)) => apply acts_record; exact I : acts.
#[export] Hint Extern 1 (acts _ (emit _)) => apply acts_record; exact I : acts.
#[export] Hint Extern 1 (acts _ (step _ _ _ _)) => apply acts_onTasks : acts.
#[export] Hint Extern 1 (acts _ (call _ _)) => apply acts_call; intros; exact I : acts.
#[export] Hint Extern 1 (acts _ (prompt _ _)) => apply acts_call; intros; exact I : acts.
#[export] Hint Extern 1 (acts _ (wait _)) => apply acts_call; intros; exact I : acts.
#[export] Hint Extern 1 (acts _ (abort _)) => apply acts_call; intros; exact I : acts.
#[export] Hint Extern 1 (acts _ (approval _ _)) => apply acts_call; intros; exact I : acts.
#[export] Hint Extern 2 (acts _ (ask _ _)) => apply acts_bind; [|intros] : acts.

(** The steps that leave every preorder. *)
Ltac keeps_base :=
  first [apply keeps_ret | apply keeps_throw | apply keeps_lift | apply keeps_check]; apply _.

Create HintDb rows.
Create HintDb view.
Create HintDb sess.
#[export] Hint Extern 0 (keeps _ _) => keeps_base : rows view sess.
#[export] Hint Resolve sameSessions_call sameSessions_record sameSessions_onTasks sameSessions_setCounter : sess.
#[export] Hint Extern 1 (keeps sameSessions (emit _)) => apply sameSessions_record : sess.
#[export] Hint Extern 1 (keeps sameSessions (step _ _ _ _)) => apply sameSessions_onTasks : sess.
#[export] Hint Extern 1 (keeps sameSessions (prompt _ _)) => apply sameSessions_call : sess.
#[export] Hint Extern 1 (keeps sameSessions (wait _)) => apply sameSessions_call : sess.
#[export] Hint Extern 1 (keeps sameSessions (abort _)) => apply sameSessions_call : sess.
#[export] Hint Extern 1 (keeps sameSessions (approval _ _)) => apply sameSessions_call : sess.
#[export] Hint Extern 2 (keeps sameSessions (ask _ _)) => apply keeps_bind; [apply _| |intros] : sess.

Lemma keeps_gets {P E A} (R : W P E -> W P E -> Prop) `{!PreOrder R} (f : W P E -> A) : keeps R (Js.gets f).
Proof. intros w. simpl. reflexivity. Qed.

Lemma acts_gets {P E A} R (f : W P E -> A) : acts R (Js.gets f).
Proof. intros w. exists []. simpl. by rewrite app_nil_r. Qed.

#[export] Hint Resolve acts_gets : acts.
#[export] Hint Extern 0 (keeps _ (Js.gets _)) => apply keeps_gets; apply _ : rows view sess.
#[export] Hint Resolve rowsStay_call rowsStay_record rowsStay_setCounter rowsStay_onSessions rowsStay_updateRow : rows.
#[export] Hint Extern 1 (keeps rowsStay (emit _)) => apply rowsStay_record : rows.
#[export] Hint Extern 1 (keeps rowsStay (step _ _ _ _)) => apply rowsStay_updateRow : rows.
#[export] Hint Extern 1 (keeps rowsStay (prompt _ _)) => apply rowsStay_call : rows.
#[export] Hint Extern 1 (keeps rowsStay (wait _)) => apply rowsStay_call : rows.
#[export] Hint Extern 1 (keeps rowsStay (abort _)) => apply rowsStay_call : rows.
#[export] Hint Extern 1 (keeps rowsStay (approval _ _)) => apply rowsStay_call : rows.
#[export] Hint Extern 2 (keeps rowsStay (ask _ _)) => apply keeps_bind; [apply _| |intros] : rows.

#[export] Hint Resolve sameView_call sameView_record sameView_onSessions : view.
#[export] Hint Extern 1 (keeps (sameView _) (emit _)) => apply sameView_record : view.
#[export] Hint Extern 1 (keeps (sameView _) (step _ _ _ _)) =>
  apply sameView_updateRow; intros; reflexivity : view.
#[export] Hint Extern 1 (keeps (sameView _) (prompt _ _)) => apply sameView_call : view.
#[export] Hint Extern 1 (keeps (sameView _) (wait _)) => apply sameView_call : view.
#[export] Hint Extern 1 (keeps (sameView _) (abort _)) => apply sameView_call : view.
#[export] Hint Extern 1 (keeps (sameView _) (approval _ _)) => apply sameView_call : view.
#[export] Hint Extern 2 (keeps (sameView _) (ask _ _)) => apply keeps_bind; [apply _| |intros] : view.

(** Walk through the binds, catches and branches of a phase. *)
Ltac acts_steps :=
  repeat first
    [ progress intros
    | progress cbn zeta
    | solve [eauto with acts]
    | apply acts_bind; [solve [eauto with acts]|]
    | apply acts_try
    | apply acts_attempt
    | apply acts_bind
    | case_match ].

Ltac rows_steps :=
  repeat first
    [ progress intros
    | progress cbn zeta
    | solve [eauto with rows]
    | apply keeps_bind; [apply _|solve [eauto with rows]|]
    | apply keeps_try; [apply _| |]
    | apply keeps_attempt; [apply _|]
    | apply keeps_bind; [apply _| |]
    | case_match ].

Ltac sess_steps :=
  repeat first
    [ progress intros
    | progress cbn zeta
    | solve [eauto with sess]
    | apply keeps_bind; [apply _|solve [eauto with sess]|]
    | apply keeps_try; [apply _| |]
    | apply keeps_attempt; [apply _|]
    | apply keeps_bind; [apply _| |]
    | case_match ].

Ltac view_steps :=
  repeat first
    [ progress intros
    | progress cbn zeta
    | solve [eauto with view]
    | apply keeps_bind; [apply _|solve [eauto with view]|]
    | apply keeps_try; [apply _| |]
    | apply keeps_attempt; [apply _|]
    | apply keeps_bind; [apply _| |]
    | case_match ].

(** Pass the steps that weigh nothing. *)
Ltac skip_free :=
  repeat (apply costs_free;
    [first [apply acts_onTasks | apply acts_record; reflexivity | apply acts_check | apply acts_onSessions
       | apply acts_setCounter]|]).

(** ** A scripted environment, for concrete runs

    The session answers with the texts of a list, in order; the user always
    gives the same answer; git succeeds and finds no changes. *)
Definition fenced (s : string) : string := "```json " +:+ s +:+ " ```".

Definition scripted (P : Type) (parse : string -> option Json)
    (answer : outcome ApprovalService.ApprovalResponse) : AgentEnv P (list string) :=
  {| createSession _ e := (Ok "s1", e);
     sendPrompt _ _ e := (Ok tt, e);
     waitForIdle _ e := match e with
                        | t :: e' => (Ok [OcPart "text" (Some t)], e')
                        | [] => (Ok [], [])
                        end;
     abortSession _ e := (Ok tt, e);
     requestApproval _ _ e := (answer, e);
     createBranch _ _ e := (Ok "task/t1", e);
     checkout _ _ e := (Ok tt, e);
     setBranchDescription _ _ e := (Ok tt, e);
     hasChanges _ e := (Ok false, e);
     commitAndPush _ _ e := (Ok tt, e);
     jsonParse := parse;
     toText _ := "";
     toNumber _ := JsNum.zero |}.

(** A document for each text of a table. *)
Definition table (l : list (string * Json)) (s : string) : option Json := JsMap.get s l.

End AgentPhase.
