(* ===== verification/EventBridge.v ===== *)
(** * The event bridge (src/services/opencode/OpenCodeEventBridge.ts)

    One event stream per working directory feeds the sessions registered there:
    events are attributed to a session, collected for the phases that wait for
    it, translated for the frontend, and logged in batches. Subscriptions are
    objects shared between the map of directories and the loops that read the
    streams, so they live in a list and are referred to by index; promises and
    reconnect timers are numbered entries. Calls of other services are recorded
    in [effects]. *)

From S2P Require Import Prelude JsNumber Json Regex AgentSpy AgentPhase.
From stdpp Require Import pretty options.

Module EventBridge.
Import Json Js.

(** ** Values that may be undefined *)

(** [v?.name] *)
Definition prop (name : string) (v : option Json) : option Json := x ← v; field name x.

(** [a || b] *)
Definition orV (a b : option Json) : option Json :=
  match a with
  | Some v => if truthy v then a else b
  | None => b
  end.

(** The first truthy property of a list of names, or the last one. *)
Fixpoint firstOf (names : list string) (v : option Json) : option Json :=
  match names with
  | [] => None
  | [n] => prop n v
  | n :: ns => orV (prop n v) (firstOf ns v)
  end.

(** An object literal; undefined fields are absent. *)
Definition obj (l : list (string * option Json)) : Json :=
  JObj (omap (fun e => (fun v => (e.1, v)) <$> e.2) l).

Definition str (s : string) : option Json := Some (JStr s).

(** [v === s] *)
Definition isText (s : string) (v : option Json) : bool :=
  match v with Some (JStr t) => bool_decide (t = s) | _ => false end.

Definition isTrue (v : option Json) : bool := match v with Some v => truthy v | None => false end.

(** [typeof v === 'object' && v !== null] *)
Definition isObject (v : Json) : bool := match v with JObj _ | JArr _ => true | _ => false end.

(** Conversions of values that are not strings: [`${v}`] and [JSON.stringify]. *)
Class JsText := { toText : Json -> string; stringify : Json -> string }.

(** ** Data *)

Record OcEv := { ev_type : string; ev_properties : option Json }.

Record TaskSession := { bs_taskId : string; bs_sessionId : string; bs_startedAt : Z; bs_directory : string }.

Record Meta := { me_agentType : option string; me_modelId : option string; me_phaseName : option string;
                 me_prompt : option string }.

Record Subscription := { su_directory : string; su_running : bool; su_shouldStop : bool; su_count : Z }.

Record LogEntry := {
  le_type : string;
  le_content : string;
  le_tool : option string;
  le_toolState : option Json;
  le_toolInput : Json;
  le_toolOutput : option Json;
}.

Inductive Effect :=
  | EfSocket (taskId type : string) (data : Json)
  | EfActivity (taskId type : string) (data : Json)
  | EfNotification (taskId type kind : string) (data : Json)
  | EfCost (taskId sid : string) (cost tokens : option Json)
  | EfAppend (taskId : string) (entries : list LogEntry)
  | EfStartExecution (taskId agentType modelId : string) (phaseName : option string) (prompt directory : string)
  | EfCompleteExecution (taskId : string)
  | EfStartTool (taskId : string) (toolUseId toolName : Json) (input : option Json)
  | EfCompleteTool (taskId : string) (toolUseId : Json) (output : option Json) (success : bool) (error : option Json)
  | EfTurn (taskId : string) (content : option Json).

(** A promise of [waitForSessionIdle]; [wt_listening] is false once its
    listeners were removed behind its back. *)
Record Waiter := { wt_id : nat; wt_session : string; wt_timeout : Z; wt_listening : bool }.

Record State := {
  activeSessions : JsMap.t TaskSession;
  directorySubscriptions : JsMap.t nat;
  subs : list Subscription;
  reconnects : list nat;
  collectedEvents : JsMap.t (list OcEv);
  pendingActivityLogs : JsMap.t (list LogEntry);
  flushTimer : bool;
  waiters : list Waiter;
  promises : nat;
  settled : list (nat * outcome (list OcEv));
  effects : list Effect;
}.

Definition init : State :=
  {| activeSessions := []; directorySubscriptions := []; subs := []; reconnects := [];
     collectedEvents := []; pendingActivityLogs := []; flushTimer := true; waiters := [];
     promises := 0; settled := []; effects := [] |}.

(** ** Updates of one field *)

Definition withSessions (m : JsMap.t TaskSession) (s : State) : State :=
  {| activeSessions := m; directorySubscriptions := directorySubscriptions s; subs := subs s;
     reconnects := reconnects s; collectedEvents := collectedEvents s;
     pendingActivityLogs := pendingActivityLogs s; flushTimer := flushTimer s; waiters := waiters s;
     promises := promises s; settled := settled s; effects := effects s |}.

Definition withSubs (d : JsMap.t nat) (l : list Subscription) (r : list nat) (s : State) : State :=
  {| activeSessions := activeSessions s; directorySubscriptions := d; subs := l; reconnects := r;
     collectedEvents := collectedEvents s; pendingActivityLogs := pendingActivityLogs s;
     flushTimer := flushTimer s; waiters := waiters s; promises := promises s; settled := settled s;
     effects := effects s |}.

Definition withCollected (m : JsMap.t (list OcEv)) (s : State) : State :=
  {| activeSessions := activeSessions s; directorySubscriptions := directorySubscriptions s; subs := subs s;
     reconnects := reconnects s; collectedEvents := m; pendingActivityLogs := pendingActivityLogs s;
     flushTimer := flushTimer s; waiters := waiters s; promises := promises s; settled := settled s;
     effects := effects s |}.

Definition withLogs (m : JsMap.t (list LogEntry)) (es : list Effect) (s : State) : State :=
  {| activeSessions := activeSessions s; directorySubscriptions := directorySubscriptions s; subs := subs s;
     reconnects := reconnects s; collectedEvents := collectedEvents s; pendingActivityLogs := m;
     flushTimer := flushTimer s; waiters := waiters s; promises := promises s; settled := settled s;
     effects := effects s ++ es |}.

Definition withWaiters (ws : list Waiter) (n : nat) (done_ : list (nat * outcome (list OcEv))) (s : State) : State :=
  {| activeSessions := activeSessions s; directorySubscriptions := directorySubscriptions s; subs := subs s;
     reconnects := reconnects s; collectedEvents := collectedEvents s;
     pendingActivityLogs := pendingActivityLogs s; flushTimer := flushTimer s; waiters := ws;
     promises := n; settled := settled s ++ done_; effects := effects s |}.

Definition effect (e : Effect) (s : State) : State := withLogs (pendingActivityLogs s) [e] s.

(** ** Activity log batches *)

Definition MAX_BATCH_SIZE : nat := 50.

Definition queueActivityLog (taskId : string) (e : LogEntry) (s : State) : State :=
  let logs := default [] (JsMap.get taskId (pendingActivityLogs s)) ++ [e] in
  if MAX_BATCH_SIZE <=? length logs
  then withLogs (JsMap.set taskId [] (pendingActivityLogs s)) [EfAppend taskId logs] s
  else withLogs (JsMap.set taskId logs (pendingActivityLogs s)) [] s.

(** The batches written by a flush, tasks without entries left out. *)
Definition batches (m : JsMap.t (list LogEntry)) : list Effect :=
  omap (fun e : string * list LogEntry =>
          match e.2 with [] => None | _ => Some (EfAppend e.1 e.2) end) m.

Definition flushAllActivityLogs (s : State) : State :=
  withLogs [] (batches (pendingActivityLogs s)) s.

(** ** Subscriptions *)

Definition sub (i : nat) (s : State) : option Subscription := subs s !! i.

Definition updateSub (i : nat) (f : Subscription -> Subscription) (s : State) : State :=
  withSubs (directorySubscriptions s) (alter f i (subs s)) (reconnects s) s.

Definition setRunning (b : bool) (x : Subscription) : Subscription :=
  {| su_directory := su_directory x; su_running := b; su_shouldStop := su_shouldStop x; su_count := su_count x |}.

Definition setStop (b : bool) (x : Subscription) : Subscription :=
  {| su_directory := su_directory x; su_running := su_running x; su_shouldStop := b; su_count := su_count x |}.

Definition addCount (n : Z) (x : Subscription) : Subscription :=
  {| su_directory := su_directory x; su_running := su_running x; su_shouldStop := su_shouldStop x;
     su_count := (su_count x + n)%Z |}.

(** The synchronous part of [startDirectoryEventLoop]. *)
Definition startDirectoryEventLoop (i : nat) (s : State) : State :=
  match sub i s with
  | Some x => if su_running x then s else updateSub i (fun x => setStop false (setRunning true x)) s
  | None => s
  end.

(** Its [finally]. *)
Definition loopEnds (i : nat) (s : State) : State :=
  let s1 := updateSub i (setRunning false) s in
  match sub i s1 with
  | Some x => if (0 <? su_count x)%Z && negb (su_shouldStop x)
              then withSubs (directorySubscriptions s1) (subs s1) (reconnects s1 ++ [i]) s1 else s1
  | None => s1
  end.

(** The timer of a reconnection fires. *)
Definition reconnect (i : nat) (s : State) : State :=
  match list_find (fun j => j = i) (reconnects s) with
  | Some (k, _) =>
      startDirectoryEventLoop i
        (withSubs (directorySubscriptions s) (subs s) (take k (reconnects s) ++ drop (S k) (reconnects s)) s)
  | None => s
  end.

Definition registerSession (now : Z) (taskId sessionId directory : string) (meta : option Meta) (s : State)
    : State :=
  if negb (JsStr.truthy directory) then s
  else
    let s1 := withSessions (JsMap.set sessionId
      {| bs_taskId := taskId; bs_sessionId := sessionId; bs_startedAt := now; bs_directory := directory |}
      (activeSessions s)) s in
    let s2 := effect (EfStartExecution taskId
                        (default "opencode" (m ← meta; JsStr.orNull (me_agentType m)))
                        (default "claude-sonnet" (m ← meta; JsStr.orNull (me_modelId m)))
                        (m ← meta; me_phaseName m)
                        (default ("Session " +:+ sessionId) (m ← meta; JsStr.orNull (me_prompt m)))
                        directory) s1 in
    match JsMap.get directory (directorySubscriptions s2) with
    | Some i => updateSub i (addCount 1) s2
    | None =>
        let i := length (subs s2) in
        startDirectoryEventLoop i
          (withSubs (JsMap.set directory i (directorySubscriptions s2))
             (subs s2 ++ [{| su_directory := directory; su_running := false; su_shouldStop := false;
                             su_count := 1 |}]) (reconnects s2) s2)
    end.

(** [removeAllListeners] for the three events of a session. *)
Definition deafen (sid : string) (w : Waiter) : Waiter :=
  if bool_decide (wt_session w = sid)
  then {| wt_id := wt_id w; wt_session := wt_session w; wt_timeout := wt_timeout w; wt_listening := false |}
  else w.

Definition unregisterSession (sid : string) (s : State) : State :=
  match JsMap.get sid (activeSessions s) with
  | None => s
  | Some x =>
      let s1 := withCollected (JsMap.delete sid (collectedEvents s))
                  (withSessions (JsMap.delete sid (activeSessions s)) s) in
      let s2 := withWaiters (deafen sid <$> waiters s1) (promises s1) [] s1 in
      let s3 := effect (EfCompleteExecution (bs_taskId x)) s2 in
      match JsMap.get (bs_directory x) (directorySubscriptions s3) with
      | None => s3
      | Some i =>
          let s4 := updateSub i (addCount (-1)) s3 in
          match sub i s4 with
          | Some y =>
              if (su_count y <=? 0)%Z then
                let s5 := updateSub i (setStop true) s4 in
                withSubs (JsMap.delete (bs_directory x) (directorySubscriptions s5)) (subs s5) (reconnects s5) s5
              else s4
          | None => s4
          end
      end
  end.

Definition sessionsOfTask (taskId : string) (s : State) : list string :=
  (base.filter (fun e => bs_taskId e.2 = taskId) (activeSessions s)).*1.

Definition unregisterTaskSessions (taskId : string) (s : State) : State :=
  fold_left (fun s sid => unregisterSession sid s) (sessionsOfTask taskId s) s.

Definition hasActiveSession (taskId : string) (s : State) : bool :=
  existsb (fun e => bool_decide (bs_taskId e.2 = taskId)) (activeSessions s).

Definition getActiveSessionsCount (s : State) : nat := JsMap.size (activeSessions s).

Definition getSessionEvents (sid : string) (s : State) : list OcEv :=
  default [] (JsMap.get sid (collectedEvents s)).

Definition clearSessionEvents (sid : string) (s : State) : State :=
  withCollected (JsMap.delete sid (collectedEvents s)) s.

(** [stop] clears the timer and starts the last flush ([stopBegins]); once the
    writes are over it drops everything else ([stopEnds]). *)
Definition stopBegins (s : State) : State :=
  let s1 := flushAllActivityLogs s in
  {| activeSessions := activeSessions s1; directorySubscriptions := directorySubscriptions s1; subs := subs s1;
     reconnects := reconnects s1; collectedEvents := collectedEvents s1;
     pendingActivityLogs := pendingActivityLogs s1; flushTimer := false; waiters := waiters s1;
     promises := promises s1; settled := settled s1; effects := effects s1 |}.

Definition stopEnds (s : State) : State :=
  withLogs [] []
    (withSessions []
       (withSubs [] (fold_left (fun l i => alter (setStop true) i l) (JsMap.values (directorySubscriptions s)) (subs s))
          (reconnects s) s)).

(** ** Waiting *)

Definition defaultTimeout : Z := 1800000.

Definition waitForSessionIdle (sid : string) (timeout : option Z) (s : State) : State :=
  let t := match timeout with Some 0%Z | None => defaultTimeout | Some t => t end in
  withWaiters (waiters s ++ [{| wt_id := promises s; wt_session := sid; wt_timeout := t; wt_listening := true |}])
    (S (promises s)) [] s.

Definition hears (sid : string) (w : Waiter) : bool := bool_decide (wt_session w = sid) && wt_listening w.

(** Settle every promise that hears the session. *)
Definition settleAll (sid : string) (o : outcome (list OcEv)) (s : State) : State :=
  withWaiters (base.filter (fun w => hears sid w = false) (waiters s)) (promises s)
    ((fun w => (wt_id w, o)) <$> base.filter (fun w => hears sid w = true) (waiters s)) s.

(** The timeout of a promise. *)
Definition timeoutFires (p : nat) (s : State) : State :=
  match list_find (fun w => wt_id w = p) (waiters s) with
  | Some (_, w) =>
      withWaiters (base.filter (fun w => wt_id w <> p) (waiters s)) (promises s)
        [(p, Throw ("Session " +:+ wt_session w +:+ " timed out after " +:+ pretty (wt_timeout w) +:+ "ms"))] s
  | None => s
  end.

Section text.
Context `{JsText}.

Definition textOf (v : Json) : string := match v with JStr s => s | _ => toText v end.
Definition shown (v : option Json) : string := match v with Some v => textOf v | None => "undefined" end.

(** The message of a session error. *)
Definition errorMessage (e : option Json) : string :=
  match e with
  | Some (JStr s) => s
  | Some v => if isObject v
              then textOf (default JNull (orV (prop "message" e) (orV (prop "error" e) (str (stringify v)))))
              else "Unknown session error"
  | None => "Unknown session error"
  end.

(** ** Translation for the frontend *)

Definition pathAfterColon : Regex.re := Eval vm_compute in AgentPhase.rx ":\s*(\/[^\s,]+)".
Definition pathInParens : Regex.re := Eval vm_compute in AgentPhase.rx "\((\/[^\s,)]+)\)".

Definition asNonEmpty (v : option Json) : option string :=
  match v with Some (JStr t) => JsStr.orNull (Some t) | _ => None end.

Definition pathNames : list string := ["file_path"; "filePath"; "path"; "file"].

(** [extractFilePath] (src/types/events.ts) of an object with these three
    fields; the empty string is its "none". *)
Definition extractFilePath (path : option Json) (input : Json) (content : option Json) : outcome string :=
  match asNonEmpty path with
  | Some t => Ok t
  | None =>
      match (if isObject input then asNonEmpty (firstOf pathNames (Some input)) else None) with
      | Some t => Ok t
      | None =>
          match content with
          | Some v =>
              if truthy v then
                match v with
                | JStr t =>
                    Ok (default "" (match (m ← Regex.match1 false pathAfterColon t; JsStr.orNull (Some m)) with
                                    | Some m => Some m
                                    | None => m ← Regex.match1 false pathInParens t; JsStr.orNull (Some m)
                                    end))
                | _ => Throw "content.match is not a function"
                end
              else Ok ""
          | None => Ok ""
          end
      end
  end.

Definition toolTypes : list string := ["tool-invocation"; "tool-result"; "tool-use"; "tool_use"; "tool"].

Definition isToolPart (part : option Json) : bool :=
  existsb (fun t => isText t (prop "type" part)) toolTypes
  || isTrue (prop "toolName" part) || isTrue (prop "tool" part).

(** The status and the input of a tool part, in both formats. *)
Definition toolStatusOf (part : option Json) : Json :=
  match prop "state" part with
  | Some v => if isObject v then default (JStr "") (orV (prop "status" (Some v)) (str ""))
              else default (JStr "") (orV (Some v) (orV (prop "status" part) (str "")))
  | None => default (JStr "") (orV (prop "status" part) (str ""))
  end.

Definition toolInputOf (part : option Json) : Json :=
  let own := orV (prop "input" part) (orV (prop "args" part) (Some (JObj []))) in
  default (JObj [])
    (match prop "state" part with
     | Some v => if isObject v then orV (prop "input" (Some v)) (orV (prop "args" (Some v)) own) else own
     | None => own
     end).

(** [{ ...v, file_path }] *)
Definition spread (v : Json) : list (string * Json) :=
  match v with
  | JObj m => m
  | JArr l => imap (fun i x => (pretty i, x)) l
  | _ => []
  end.

Definition normalizeInput (path : string) (input : Json) : Json :=
  if JsStr.truthy path && (negb (isObject input) || negb (isTrue (prop "file_path" (Some input)))) then
    if isObject input then JObj (JsMap.set "file_path" (JStr path) (spread input))
    else JObj [("file_path", JStr path); ("raw", input)]
  else input.

(** [toolInput.questions[0]?.question || 'asking...'] *)
Definition firstQuestion (v : Json) : Json :=
  let q := match v with JArr (x :: _) => Some x | JObj _ => field "0" v | _ => None end in
  default (JStr "asking...") (orV (prop "question" q) (str "asking...")).

Definition fileTool (name : Json) : outcome bool :=
  match name with
  | JStr n => Ok (bool_decide (AgentSpy.toLowerCase n ∈ ["read"; "edit"; "write"]))
  | _ => Throw "toolName.toLowerCase is not a function"
  end.

(** The first entry of the input that is worth showing. *)
Definition firstEntry (input : Json) : option (string * Json) :=
  hd_error (base.filter (fun e => e.1 <> "file_path" /\ e.1 <> "raw") (spread input)).

(** What follows the name and the status in the text of a tool call. *)
Definition toolDetail (name input : Json) (path : string) : outcome string :=
  let general :=
    if isObject input then
      let p := prop "pattern" (Some input) in
      let c := prop "command" (Some input) in
      let q := prop "questions" (Some input) in
      if (isText "glob" (Some name) || isText "grep" (Some name)) && isTrue p then Ok (": " +:+ shown p)
      else if isText "bash" (Some name) && isTrue c then
        match c with
        | Some (JStr t) => Ok (": " +:+ JsStr.take 100 t)
        | _ => Throw "toolInput.command.substring is not a function"
        end
      else if isText "question" (Some name) && isTrue q then
        Ok (": " +:+ textOf (firstQuestion (default JNull q)))
      else if negb (JsStr.truthy path) then
        match firstEntry input with
        | Some (k, v) =>
            if JsStr.truthy k
            then Ok (": " +:+ JsStr.take 100 (match v with JStr t => t | _ => stringify v end)) else Ok ""
        | None => Ok ""
        end
      else Ok ""
    else match input with
         | JStr t => if JsStr.truthy path then Ok ""
                     else Ok (": " +:+ JsStr.take 150 t +:+ (if 150 <? JsStr.length t then "..." else ""))
         | _ => Ok ""
         end in
  if JsStr.truthy path
  then match fileTool name with
       | Ok true => Ok (": " +:+ path)
       | Ok false => general
       | Throw e => Throw e
       end
  else general.

Definition toolCall (taskId : string) (part : option Json) : outcome (string * Json) :=
  let name := default (JStr "tool") (orV (firstOf ["toolName"; "tool"; "name"] part) (str "tool")) in
  let status := toolStatusOf part in
  match extractFilePath (firstOf pathNames part) (toolInputOf part) (prop "content" part) with
  | Throw e => Throw e
  | Ok path =>
      let input := normalizeInput path (toolInputOf part) in
      match toolDetail name input path with
      | Throw e => Throw e
      | Ok detail =>
          let content := "🔧 " +:+ textOf name
            +:+ (if truthy status then " (" +:+ textOf status +:+ ")" else "") +:+ detail in
          Ok ("tool_call", obj [("taskId", str taskId); ("content", str content); ("tool", Some name);
                 ("state", Some status); ("input", Some input);
                 ("file_path", JStr <$> JsStr.orNull (Some path)); ("streaming", Some (JBool true))])
      end
  end.

Definition transformPart (taskId : string) (part : option Json) : outcome (option (string * Json)) :=
  if isText "text" (prop "type" part) then
    Ok (Some ("agent_output", obj [("taskId", str taskId); ("content", orV (prop "text" part) (str ""));
                                   ("streaming", Some (JBool true))]))
  else if isToolPart part then
    match toolCall taskId part with Ok r => Ok (Some r) | Throw e => Throw e end
  else if isText "step-finish" (prop "type" part) then
    Ok (Some ("step_finish", obj [("taskId", str taskId); ("reason", prop "reason" part);
                                  ("cost", prop "cost" part); ("tokens", prop "tokens" part)]))
  else Ok None.

(** The event types with a fixed translation. *)
Definition translate (type taskId : string) (p : option Json) : option (string * list (string * option Json)) :=
  let isT t := bool_decide (type = t) in
  if isT "session.start" then
    Some ("task_update", [("status", str "running"); ("message", str "Agent started working...")])
  else if isT "session.idle" then Some ("agent_completed", [("message", str "Agent finished processing")])
  else if isT "session.error" then
    Some ("agent_failed", [("error", orV (prop "error" p) (str "Unknown error"))])
  else if isT "message.start" then
    Some ("agent_progress", [("phase", str "thinking"); ("message", str "Agent is thinking...")])
  else if isT "message.delta" || isT "message.chunk" then
    Some ("agent_output", [("content", orV (firstOf ["content"; "text"] p) (str ""));
                           ("streaming", Some (JBool true))])
  else if isT "message.complete" then
    Some ("agent_message", [("content", orV (prop "content" p) (str "")); ("role", str "assistant")])
  else if isT "tool.execute.before" || isT "tool.start" then
    Some ("tool_call", [("tool", firstOf ["tool"; "name"] p); ("status", str "running");
                        ("input", firstOf ["args"; "input"] p)])
  else if isT "tool.execute.after" || isT "tool.complete" then
    Some ("tool_result", [("tool", firstOf ["tool"; "name"] p); ("status", str "completed");
                          ("output", firstOf ["result"; "output"] p);
                          ("success", Some (JBool (match prop "success" p with
                                                   | Some (JBool false) => false | _ => true end)))])
  else if isT "tool.error" then
    Some ("tool_error", [("tool", firstOf ["tool"; "name"] p); ("error", prop "error" p)])
  else if isT "file.read" then Some ("file_activity", [("action", str "read"); ("path", prop "path" p)])
  else if isT "file.write" || isT "file.edit" then
    Some ("file_activity", [("action", orV (prop "action" p) (str "write")); ("path", prop "path" p)])
  else if isT "bash.start" || isT "command.start" then
    Some ("command_running", [("command", prop "command" p)])
  else if isT "bash.output" || isT "command.output" then
    Some ("command_output", [("output", firstOf ["output"; "stdout"] p); ("stderr", prop "stderr" p)])
  else if isT "bash.complete" || isT "command.complete" then
    Some ("command_complete", [("exitCode", firstOf ["exitCode"; "exit_code"] p)])
  else if isT "question.asked" then
    Some ("question_asked", [("questionId", firstOf ["questionId"; "id"] p);
                             ("question", firstOf ["question"; "text"] p); ("options", prop "options" p);
                             ("required", match prop "required" p with
                                          | Some JNull | None => Some (JBool true) | v => v end)])
  else if isT "question.answered" then
    Some ("question_answered", [("questionId", firstOf ["questionId"; "id"] p); ("answer", prop "answer" p)])
  else None.

Definition transformEvent (e : OcEv) (taskId : string) : outcome (option (string * Json)) :=
  if bool_decide (ev_type e = "message.part.updated")
  then transformPart taskId (prop "part" (ev_properties e))
  else Ok ((fun r => (r.1, obj (("taskId", str taskId) :: r.2))) <$> translate (ev_type e) taskId (ev_properties e)).

Definition mapToNotificationType (type : string) : string :=
  if bool_decide (type ∈ ["task_update"; "agent_completed"; "agent_failed"; "agent_progress"]) then type
  else if bool_decide (type ∈ ["agent_output"; "agent_message"]) then "agent_message"
  else if bool_decide (type = "tool_error") then "agent_failed"
  else "agent_progress".

(** ** Handling an event *)

(** [trackExecution]; [now] is the clock of the fallback id. *)
Definition trackExecution (now : Z) (taskId type : string) (data : option Json) (s : State) : State :=
  let s1 :=
    if bool_decide (type = "tool_call") then
      let name := default (JStr "unknown") (orV (prop "tool" data) (str "unknown")) in
      let state := orV (firstOf ["state"; "status"] data) (str "running") in
      let useId := default JNull (orV (firstOf ["tool_use_id"; "id"] data) (str ("tool-" +:+ pretty now))) in
      if isText "running" state || isText "started" state
      then effect (EfStartTool taskId useId name (prop "input" data)) s
      else if isText "completed" state || isText "success" state || isText "error" state
      then effect (EfCompleteTool taskId useId (firstOf ["output"; "result"] data) (negb (isText "error" state))
                     (if isText "error" state then orV (prop "error" data) (str "Unknown error") else None)) s
      else s
    else s in
  if (bool_decide (type = "agent_output") || bool_decide (type = "agent_message"))
     && negb (isTrue (prop "streaming" data))
  then effect (EfTurn taskId (prop "content" data)) s1 else s1.

(** [(v || '').toLowerCase()] *)
Definition lowerOr (v : option Json) : outcome string :=
  match orV v (str "") with
  | Some (JStr t) => Ok (AgentSpy.toLowerCase t)
  | _ => Throw "toLowerCase is not a function"
  end.

Definition entryOf (type tool : string) (data : Json) : LogEntry :=
  let d := Some data in
  let content := default JNull (orV (firstOf ["content"; "message"; "phase"] d) (str "")) in
  {| le_type := type;
     le_content := JsStr.take 5000 (match content with JStr t => t | v => stringify v end);
     le_tool := JsStr.orNull (Some tool);
     le_toolState := orV (firstOf ["state"; "status"] d) None;
     le_toolInput := default data (orV (prop "input" d) d);
     le_toolOutput := firstOf ["output"; "result"] d |}.

Definition saveForUIRecovery (now : Z) (taskId type : string) (data : Json) : JsM State unit :=
  if match prop "streaming" (Some data) with Some (JBool true) => true | _ => false end
     && bool_decide (type = "content_chunk") then mret tt
  else if bool_decide (type = "assistant_chunk") then mret tt
  else
    match lowerOr (prop "tool" (Some data)) with
    | Throw e => throw e
    | Ok tool =>
        modify (queueActivityLog taskId (entryOf type tool data));;
        modify (trackExecution now taskId type (Some data))
    end.

(** The session an event names. *)
Definition namedSession (p : option Json) : option Json :=
  let part := prop "part" p in
  let info := prop "info" p in
  orV (prop "sessionID" p) (orV (prop "sessionId" p)
    (orV (prop "sessionID" part) (orV (prop "sessionId" part) (firstOf ["sessionID"; "sessionId"] info)))).

(** The first session registered for a directory. *)
Definition sessionOfDirectory (directory : string) (s : State) : option string :=
  fst <$> hd_error (base.filter (fun e => bs_directory e.2 = directory) (activeSessions s)).

Definition sessionOf (e : OcEv) (directory : string) (s : State) : option string :=
  if isTrue (namedSession (ev_properties e))
  then match namedSession (ev_properties e) with Some (JStr t) => Some t | _ => None end
  else JsStr.orNull (sessionOfDirectory directory s).

Definition collect (sid : string) (e : OcEv) (s : State) : State :=
  withCollected (JsMap.set sid (getSessionEvents sid s ++ [e]) (collectedEvents s)) s.

(** The lifecycle events, for the promises of [waitForSessionIdle]. *)
Definition emitLifecycle (sid : string) (e : OcEv) (s : State) : State :=
  if bool_decide (ev_type e = "session.idle") then settleAll sid (Ok (getSessionEvents sid s)) s
  else if bool_decide (ev_type e = "session.error")
  then settleAll sid (Throw ("Session error: " +:+ errorMessage (prop "error" (ev_properties e)))) s
  else s.

(** The preview of the sampled debug log. *)
Definition previewable (data : Json) : bool :=
  match orV (firstOf ["content"; "tool"] (Some data)) (str "") with Some (JStr _) => true | _ => false end.

Definition emitFrontend (taskId type : string) (data : Json) (s : State) : State :=
  effect (EfNotification taskId type (mapToNotificationType type) data)
    (effect (EfActivity taskId type data) (effect (EfSocket taskId type data) s)).

(** What follows the lifecycle events; [sampled] is the outcome of the draw
    for the debug log. *)
Definition forward (now : Z) (sampled : bool) (taskId sid : string) (e : OcEv) : JsM State unit :=
  match transformEvent e taskId with
  | Throw err => throw err
  | Ok None => mret tt
  | Ok (Some (type, data)) =>
      when (bool_decide (type = "step_finish"))
        (modify (effect (EfCost taskId sid (prop "cost" (Some data)) (prop "tokens" (Some data)))));;
      when (sampled && negb (previewable data)) (throw "substring is not a function");;
      modify (emitFrontend taskId type data);;
      saveForUIRecovery now taskId type data
  end.

Definition handleEvent (now : Z) (sampled : bool) (e : OcEv) (directory : string) : JsM State unit := fun s =>
  match (sid ← sessionOf e directory s; x ← JsMap.get sid (activeSessions s); Some (sid, x)) with
  | None => (Ok tt, s)
  | Some (sid, x) =>
      forward now sampled (bs_taskId x) sid e (emitLifecycle sid e (collect sid e s))
  end.

(** One turn of the [for await] of a running loop: a stop is noticed at the
    next event, and an exception leaves the loop. *)
Definition loopEvent (now : Z) (sampled : bool) (i : nat) (e : OcEv) (s : State) : State :=
  match sub i s with
  | Some x =>
      if su_running x then
        if su_shouldStop x then loopEnds i s
        else match handleEvent now sampled e (su_directory x) s with
             | (Ok _, s') => s'
             | (Throw _, s') => loopEnds i s'
             end
      else s
  | None => s
  end.

(** ** Steps *)

(** Every callback the event loop of the process can run next. *)
Inductive step : State -> State -> Prop :=
  | St_register now taskId sid dir meta s : step s (registerSession now taskId sid dir meta s)
  | St_unregister sid s : step s (unregisterSession sid s)
  | St_unregisterTask taskId s : step s (unregisterTaskSessions taskId s)
  | St_clear sid s : step s (clearSessionEvents sid s)
  | St_wait sid timeout s : step s (waitForSessionIdle sid timeout s)
  | St_timeout p s : step s (timeoutFires p s)
  | St_event now sampled i e s : step s (loopEvent now sampled i e s)
  | St_streamEnds i x s : sub i s = Some x -> su_running x = true -> step s (loopEnds i s)
  | St_reconnect i s : step s (reconnect i s)
  | St_flush s : flushTimer s = true -> step s (flushAllActivityLogs s)
  | St_stopBegins s : step s (stopBegins s)
  | St_stopEnds s : step s (stopEnds s).

Definition reachable : State -> Prop := rtc step init.

End text.

End EventBridge.
