(* ===== verification/EventBridgeProofs.v ===== *)
(** * Properties of the event bridge

    [covered] is the invariant of the subscriptions: every registered session
    is listened to. [promisesOk] is the invariant of the promises: each settles
    at most once. The theorems on waiting, on the activity log and on the loops
    that outlive their subscription follow. *)

From S2P Require Import Prelude JsNumber Json Regex AgentSpy AgentPhase EventBridge.
From stdpp Require Import pretty options.

Module EventBridgeProofs.
Import Json Js EventBridge.

(** ** Sums over maps *)

Lemma sumZ_delete {V} (f : V -> Z) k (m : JsMap.t V) :
  JsMap.wf m ->
  sumZ f (JsMap.values (JsMap.delete k m)) = (sumZ f (JsMap.values m) - from_option f 0%Z (JsMap.get k m))%Z.
Proof.
  unfold JsMap.values, JsMap.wf. induction m as [|[k' v] m IH]; csimpl; [lia|].
  intros [Hk Hm]%NoDup_cons. unfold JsMap.delete in *. rewrite list.filter_cons. csimpl.
  destruct (decide (k' = k)) as [->|Hne].
  - rewrite decide_False by naive_solver. rewrite (IH Hm).
    assert (JsMap.get k m = None) as -> by (by apply JsMap.get_None_keys). simpl. lia.
  - rewrite decide_True by done. csimpl. rewrite (IH Hm). lia.
Qed.

Lemma NoDup_fst_inj {A B} (l : list (A * B)) a b b' : NoDup l.*1 -> (a, b) ∈ l -> (a, b') ∈ l -> b = b'.
Proof.
  induction l as [|[a0 b0] l IH]; csimpl; [set_solver|]. intros [Ha Hl]%NoDup_cons.
  assert (forall y, (a0, y) ∉ l) as Hno.
  { intros y Hy. apply Ha, list_elem_of_fmap. by exists (a0, y). }
  intros [[= <- <-]|H1]%elem_of_cons [H2|H2]%elem_of_cons; simplify_eq; naive_solver.
Qed.

Section bridge.
Context `{JsText}.

(** ** What an event leaves alone *)

(** The registrations and the subscriptions. *)
Definition core (s : State) := (activeSessions s, directorySubscriptions s, subs s, reconnects s).

(** A run that ends, normally or not, in a related state. *)
Definition leaves {S A B} (f : S -> B) (m : JsM S A) : Prop := forall s, f (m s).2 = f s.

Lemma leaves_bind {S A B C} (f : S -> C) (m : JsM S A) (k : A -> JsM S B) :
  leaves f m -> (forall a, leaves f (k a)) -> leaves f (a ← m; k a).
Proof.
  intros Hm Hk s. specialize (Hm s). unfold mbind, jsm_bind. destruct (m s) as [[a|e] s1]; simpl in *; [|done].
  by rewrite Hk.
Qed.

Lemma leaves_ret {S A B} (f : S -> B) (a : A) : leaves f (mret (M := JsM S) a).
Proof. done. Qed.

Lemma leaves_throw {S A B} (f : S -> B) e : leaves f (throw (S := S) (A := A) e).
Proof. done. Qed.

Lemma leaves_modify {S B} (f : S -> B) g : (forall s, f (g s) = f s) -> leaves f (modify g).
Proof. intros Hg s. apply Hg. Qed.

Lemma leaves_when {S B} (f : S -> B) b (m : JsM S unit) : leaves f m -> leaves f (when b m).
Proof. by destruct b. Qed.

Ltac leaves := repeat match goal with
  | |- leaves _ (mret _) => apply leaves_ret
  | |- leaves _ (throw _) => apply leaves_throw
  | |- leaves _ (when _ _) => apply leaves_when
  | |- leaves _ (modify _) => apply leaves_modify; intros ?
  | |- leaves _ (mbind _ _) => apply leaves_bind; [|intros ?]
  | |- leaves _ (match ?x with _ => _ end) => destruct x
  end.

Lemma queue_core taskId e s : core (queueActivityLog taskId e s) = core s.
Proof. unfold queueActivityLog. by case_match. Qed.

(** What tracking and logging change: the log and the effects. *)
Definition heard (s : State) := (collectedEvents s, waiters s, promises s, settled s).

Lemma queue_heard taskId e s : heard (queueActivityLog taskId e s) = heard s.
Proof. unfold queueActivityLog. by case_match. Qed.

Lemma track_core now taskId type data s : core (trackExecution now taskId type data s) = core s.
Proof. unfold trackExecution. by repeat case_match. Qed.

Lemma track_heard now taskId type data s : heard (trackExecution now taskId type data s) = heard s.
Proof. unfold trackExecution. by repeat case_match. Qed.

Lemma forward_leaves {B} (f : State -> B) now b taskId sid e :
  (forall x s, f (effect x s) = f s) ->
  (forall x s, f (queueActivityLog taskId x s) = f s) ->
  (forall type data s, f (trackExecution now taskId type data s) = f s) ->
  leaves f (forward now b taskId sid e).
Proof.
  intros He Hq Ht. unfold forward. destruct (transformEvent e taskId) as [[[type data]|]|]; [|leaves..].
  unfold saveForUIRecovery, emitFrontend. leaves; rewrite ?He; auto.
Qed.

Lemma forward_core now b taskId sid e : leaves core (forward now b taskId sid e).
Proof. apply forward_leaves; [done|intros; apply queue_core|intros; apply track_core]. Qed.

Lemma forward_heard now b taskId sid e : leaves heard (forward now b taskId sid e).
Proof. apply forward_leaves; [done|intros; apply queue_heard|intros; apply track_heard]. Qed.

Lemma lifecycle_core sid e s : core (emitLifecycle sid e (collect sid e s)) = core s.
Proof. unfold emitLifecycle. by repeat case_match. Qed.

Lemma handleEvent_core now b e dir : leaves core (handleEvent now b e dir).
Proof.
  intros s. unfold handleEvent. destruct (_ ≫= _) as [[sid x]|]; [|done].
  by rewrite forward_core, lifecycle_core.
Qed.

(** ** Every registered session is listened to *)

(** How many of the registered sessions live in a directory. *)
Definition inDir (d : string) (x : TaskSession) : Z := if bool_decide (bs_directory x = d) then 1 else 0.
Definition sessionsIn (d : string) (m : JsMap.t TaskSession) : Z := sumZ (inDir d) (JsMap.values m).

(** The subscription of a directory in the map. *)
Definition subscribed (m : JsMap.t TaskSession) (l : list Subscription) (r : list nat) (d : string) (i : nat) : Prop :=
  exists x, l !! i = Some x /\ su_directory x = d /\ su_shouldStop x = false
    /\ (su_running x = true \/ i ∈ r)
    /\ (1 <= su_count x)%Z /\ (sessionsIn d m <= su_count x)%Z.

Record coveredBy (m : JsMap.t TaskSession) (ds : JsMap.t nat) (l : list Subscription) (r : list nat) : Prop := {
  cv_wf : JsMap.wf m;
  cv_subs : forall d i, JsMap.get d ds = Some i -> subscribed m l r d i;
  cv_sessions : forall sid x, JsMap.get sid m = Some x -> is_Some (JsMap.get (bs_directory x) ds);
}.

Definition covered (s : State) : Prop :=
  coveredBy (activeSessions s) (directorySubscriptions s) (subs s) (reconnects s).

Lemma covered_core s s' : core s' = core s -> covered s -> covered s'.
Proof. unfold core, covered. by intros [= -> -> -> ->]. Qed.

Lemma covered_init : covered init.
Proof. split; [apply NoDup_nil_2|done|done]. Qed.

Lemma inDir_nonneg d m (x : TaskSession) : x ∈ JsMap.values m -> (0 <= inDir d x)%Z.
Proof. intros _. unfold inDir. case_bool_decide; lia. Qed.

Lemma sessionsIn_none d m : (forall sid x, (sid, x) ∈ m -> bs_directory x <> d) -> sessionsIn d m = 0%Z.
Proof.
  unfold sessionsIn, JsMap.values. induction m as [|[sid x] m IH]; intros Hm; csimpl; [done|].
  rewrite IH by (intros ???; eapply Hm; by right).
  unfold inDir. rewrite bool_decide_eq_false_2; [done|]. eapply Hm. by left.
Qed.

Lemma subscribed_mono m m' l r d i :
  (sessionsIn d m' <= sessionsIn d m)%Z -> subscribed m l r d i -> subscribed m' l r d i.
Proof. intros Hle (x & Hx & Hd & Hs & Hr & H1 & Hc). exists x. repeat split; auto. lia. Qed.

(** A subscription is not touched by the update of another one. *)
Lemma subscribed_alter_ne m l r f i d j :
  i <> j -> subscribed m l r d j -> subscribed m (alter f i l) r d j.
Proof.
  intros Hne (x & Hx & Hrest). exists x. split; [|done]. by rewrite list_lookup_alter_ne.
Qed.

Lemma subscribed_fun m l r d d' i : subscribed m l r d i -> subscribed m l r d' i -> d = d'.
Proof. intros (x & Hx & <- & _) (y & Hy & <- & _). by simplify_eq. Qed.

(** Both halves of the invariant after an update of one subscription. *)
Lemma subscribed_alter m l r' f i d x :
  l !! i = Some x -> su_directory (f x) = d -> su_shouldStop (f x) = false ->
  (su_running (f x) = true \/ i ∈ r') -> (1 <= su_count (f x))%Z -> (sessionsIn d m <= su_count (f x))%Z ->
  subscribed m (alter f i l) r' d i.
Proof.
  intros Hx Hd Hs Hr H1 Hc. exists (f x). split; [|done]. by rewrite list_lookup_alter_eq, Hx.
Qed.

Lemma subscribed_pending m l r r' d i : r ⊆ r' -> subscribed m l r d i -> subscribed m l r' d i.
Proof. intros Hr (x & Hx & Hd & Hs & [?|?] & H1 & Hc); exists x; repeat split; set_solver. Qed.

Lemma loopEnds_covered i s : covered s -> covered (loopEnds i s).
Proof.
  intros [Hwf Hsubs Hsess]. unfold loopEnds.
  assert (forall r' d j, JsMap.get d (directorySubscriptions s) = Some j ->
            reconnects s ⊆ r' -> (j = i -> i ∈ r') ->
            subscribed (activeSessions s) (alter (setRunning false) i (subs s)) r' d j) as Hall.
  { intros r' d j Hj Hr Hi. destruct (Hsubs _ _ Hj) as (x & Hx & Hd & Hs & _ & H1 & Hc).
    destruct (decide (j = i)) as [->|Hne].
    - eapply subscribed_alter; eauto.
    - apply subscribed_alter_ne; [done|]. eapply subscribed_pending; eauto. }
  unfold sub, updateSub. simpl. rewrite list_lookup_alter_eq.
  destruct (subs s !! i) as [x|] eqn:Hx; simpl.
  - destruct (_ && _) eqn:Hgo; split; simpl; auto; intros d j Hj; apply Hall; auto; try set_solver.
    intros ->. destruct (Hsubs _ _ Hj) as (y & Hy & _ & Hs & _ & H1 & _). simplify_eq.
    rewrite Hs in Hgo. apply andb_false_iff in Hgo as [?|?]; [lia|done].
  - split; simpl; auto. intros d j Hj. apply Hall; auto.
    intros ->. destruct (Hsubs _ _ Hj) as (y & Hy & _). congruence.
Qed.

Lemma start_covered i s : covered s -> covered (startDirectoryEventLoop i s).
Proof.
  intros [Hwf Hsubs Hsess]. unfold startDirectoryEventLoop, sub.
  destruct (subs s !! i) as [x|] eqn:Hx; [|done]. destruct (su_running x) eqn:Hr; [done|].
  split; simpl; auto. intros d j Hj. destruct (Hsubs _ _ Hj) as (y & Hy & Hd & Hs & Hrun & H1 & Hc).
  destruct (decide (j = i)) as [->|Hne].
  - simplify_eq. eapply subscribed_alter; eauto.
  - apply subscribed_alter_ne; [done|]. by exists y.
Qed.

Lemma list_remove_at {A} (l : list A) k x y :
  l !! k = Some y -> x ∈ l -> x <> y -> x ∈ take k l ++ drop (S k) l.
Proof. intros Hk Hx Hne. rewrite <- (take_drop_middle _ _ _ Hk) in Hx. set_solver. Qed.

(** A fired reconnection leaves its loop running. *)
Lemma reconnect_covered i s : covered s -> covered (reconnect i s).
Proof.
  intros [Hwf Hsubs Hsess]. unfold reconnect.
  destruct (list_find _ _) as [[k j]|] eqn:Hf; [|by split].
  apply list_find_Some in Hf as (Hk & -> & _).
  unfold startDirectoryEventLoop, sub. simpl. destruct (subs s !! i) as [x|] eqn:Hx.
  - destruct (su_running x) eqn:Hr; split; simpl; auto; intros d j Hj;
      destruct (Hsubs _ _ Hj) as (y & Hy & Hd & Hs & Hrun & H1 & Hc);
      (destruct (decide (j = i)) as [->|Hne];
       [simplify_eq|]).
    + exists x. repeat split; auto.
    + exists y. repeat split; auto. destruct Hrun; [auto|right; by eapply list_remove_at].
    + eapply subscribed_alter; eauto.
    + apply subscribed_alter_ne; [done|]. exists y. repeat split; auto.
      destruct Hrun; [auto|right; by eapply list_remove_at].
  - split; simpl; auto. intros d j Hj. destruct (Hsubs _ _ Hj) as (y & Hy & Hd & Hs & Hrun & H1 & Hc).
    exists y. repeat split; auto. destruct Hrun as [|Hr]; [auto|right].
    eapply list_remove_at; eauto. intros ->. congruence.
Qed.

Lemma sessionsIn_set d sid x m :
  sessionsIn d (JsMap.set sid x m) = (sessionsIn d m + inDir d x - from_option (inDir d) 0 (JsMap.get sid m))%Z.
Proof. apply sumZ_set. Qed.

Lemma inDir_bounds d x : (0 <= inDir d x <= 1)%Z.
Proof. unfold inDir. case_bool_decide; lia. Qed.

Lemma inDir_opt d (o : option TaskSession) : (0 <= from_option (inDir d) 0 o)%Z.
Proof. destruct o as [x|]; simpl; [|lia]. pose proof (inDir_bounds d x). lia. Qed.

Lemma inDir_ne d x : bs_directory x <> d -> inDir d x = 0%Z.
Proof. intros ?. unfold inDir. by rewrite bool_decide_eq_false_2. Qed.

(** One more session in a directory: the others have no more than before. *)
Record oneMore (dir : string) (m0 m : JsMap.t TaskSession) (ds : JsMap.t nat) : Prop := {
  om_wf : JsMap.wf m;
  om_dir : (sessionsIn dir m <= sessionsIn dir m0 + 1)%Z;
  om_ne : forall d, d <> dir -> (sessionsIn d m <= sessionsIn d m0)%Z;
  om_get : forall sid x, JsMap.get sid m = Some x -> bs_directory x = dir \/ is_Some (JsMap.get (bs_directory x) ds);
}.

Lemma oneMore_set sid x s :
  covered s ->
  oneMore (bs_directory x) (activeSessions s) (JsMap.set sid x (activeSessions s)) (directorySubscriptions s).
Proof.
  intros [Hwf _ Hsess]. split; [by apply JsMap.wf_set|..].
  - rewrite sessionsIn_set. pose proof (inDir_opt (bs_directory x) (JsMap.get sid (activeSessions s))).
    pose proof (inDir_bounds (bs_directory x) x). lia.
  - intros d Hd. rewrite sessionsIn_set, (inDir_ne d x) by done.
    pose proof (inDir_opt d (JsMap.get sid (activeSessions s))). lia.
  - intros sid' y Hy. destruct (decide (sid = sid')) as [->|Hk].
    + rewrite JsMap.get_set_eq in Hy. left. congruence.
    + rewrite JsMap.get_set_ne in Hy by done. eauto.
Qed.

Lemma coveredBy_shared m0 m ds l r dir i :
  coveredBy m0 ds l r -> oneMore dir m0 m ds -> JsMap.get dir ds = Some i ->
  coveredBy m ds (alter (addCount 1) i l) r.
Proof.
  intros [Hwf0 Hsubs _] [Hwf Hdirm Hne Hget] Hdir. split; [done| |].
  - intros d j Hj. destruct (decide (i = j)) as [<-|Hji].
    + destruct (Hsubs _ _ Hdir) as (y & Hy & Hyd & Hs & Hr & H1 & Hc).
      assert (d = dir) as -> by (eapply subscribed_fun; eauto).
      eapply subscribed_alter; eauto; simpl; lia.
    + apply subscribed_alter_ne; [done|]. eapply subscribed_mono; [|by apply Hsubs].
      apply Hne. intros ->. congruence.
  - intros sid y Hy. destruct (Hget _ _ Hy) as [->|?]; [by eexists|done].
Qed.

Lemma coveredBy_new m0 m ds l r dir y :
  coveredBy m0 ds l r -> oneMore dir m0 m ds -> JsMap.get dir ds = None ->
  su_directory y = dir -> su_shouldStop y = false -> su_running y = true -> su_count y = 1%Z ->
  coveredBy m (JsMap.set dir (length l) ds) (l ++ [y]) r.
Proof.
  intros [Hwf0 Hsubs Hsess] [Hwf Hdirm Hne Hget] Hdir Hyd Hys Hyr Hyc. split; [done| |].
  - intros d j Hj. destruct (decide (dir = d)) as [<-|Hd].
    + rewrite JsMap.get_set_eq in Hj. simplify_eq. exists y. rewrite list_lookup_middle by done.
      repeat split; auto; [lia|]. rewrite (sessionsIn_none _ m0) in Hdirm; [lia|].
      intros sid x Hx Hxd. destruct (Hsess sid x) as [i Hi]; [by apply JsMap.elem_get|congruence].
    + rewrite JsMap.get_set_ne in Hj by done. destruct (Hsubs _ _ Hj) as (z & Hz & Hrest).
      eapply subscribed_mono; [by apply Hne|]. exists z. split; [|done]. by apply lookup_app_l_Some.
  - intros sid x Hx. destruct (decide (dir = bs_directory x)) as [<-|Hd]; [rewrite JsMap.get_set_eq; by eexists|].
    rewrite JsMap.get_set_ne by done. destruct (Hget _ _ Hx); [congruence|done].
Qed.

(** Starting the loop of a fresh subscription. *)
Lemma start_fresh d l y r s :
  su_running y = false ->
  startDirectoryEventLoop (length l) (withSubs d (l ++ [y]) r s)
  = withSubs d (l ++ [setStop false (setRunning true y)]) r s.
Proof.
  intros Hy. unfold startDirectoryEventLoop, sub. simpl. rewrite list_lookup_middle by done.
  rewrite Hy. unfold updateSub. simpl. by rewrite alter_app_r_alt, Nat.sub_diag.
Qed.

Lemma registerSession_covered now taskId sid dir meta s :
  covered s -> covered (registerSession now taskId sid dir meta s).
Proof.
  intros Hcov. unfold registerSession. destruct (JsStr.truthy dir); [simpl|done].
  pose proof (oneMore_set sid {| bs_taskId := taskId; bs_sessionId := sid; bs_startedAt := now;
                                 bs_directory := dir |} s Hcov) as Hone.
  destruct (JsMap.get dir (directorySubscriptions s)) as [i|] eqn:Hdir.
  - by eapply coveredBy_shared.
  - unfold covered. rewrite start_fresh by done. by eapply coveredBy_new.
Qed.

Lemma unregisterSession_covered sid s : covered s -> covered (unregisterSession sid s).
Proof.
  intros [Hwf Hsubs Hsess]. unfold unregisterSession.
  destruct (JsMap.get sid (activeSessions s)) as [x|] eqn:Hx; [simpl|by split].
  set (m := JsMap.delete sid (activeSessions s)).
  assert (forall d, sessionsIn d m = sessionsIn d (activeSessions s) - inDir d x)%Z as Hm.
  { intros d. unfold m, sessionsIn. rewrite sumZ_delete by done. by rewrite Hx. }
  assert (JsMap.wf m) as Hwfm by (by apply JsMap.wf_delete).
  assert (forall sid' y, JsMap.get sid' m = Some y -> JsMap.get sid' (activeSessions s) = Some y) as Hsub.
  { intros sid' y. unfold m. destruct (decide (sid = sid')) as [->|].
    - by rewrite JsMap.get_delete_eq.
    - by rewrite JsMap.get_delete_ne. }
  destruct (Hsess _ _ Hx) as [i Hi]. rewrite Hi.
  destruct (Hsubs _ _ Hi) as (y & Hy & Hyd & Hys & Hyr & H1 & Hc).
  unfold sub, updateSub. simpl. rewrite list_lookup_alter_eq, Hy. simpl.
  assert (inDir (bs_directory x) x = 1%Z) as Hone by (unfold inDir; by rewrite bool_decide_eq_true_2).
  assert (forall d j, JsMap.get d (directorySubscriptions s) = Some j -> j <> i ->
            subscribed m (subs s) (reconnects s) d j) as Hother.
  { intros d j Hj Hji. eapply subscribed_mono; [|by apply Hsubs].
    rewrite Hm. pose proof (inDir_bounds d x). lia. }
  case_match eqn:Hzero; split; simpl; try done.
  - intros d j Hj. destruct (decide (bs_directory x = d)) as [<-|Hd]; [by rewrite JsMap.get_delete_eq in Hj|].
    rewrite JsMap.get_delete_ne in Hj by done.
    assert (j <> i) by (intros ->; by destruct Hd; eapply subscribed_fun; eauto).
    by apply subscribed_alter_ne, subscribed_alter_ne, Hother.
  - intros sid' z Hz. pose proof (Hsess _ _ (Hsub _ _ Hz)) as Hd.
    destruct (decide (bs_directory x = bs_directory z)) as [Heq|]; [|by rewrite JsMap.get_delete_ne].
    exfalso. assert (1 <= sessionsIn (bs_directory x) m)%Z as Hge; [|rewrite Hm in Hge; lia].
    transitivity (inDir (bs_directory x) z); [unfold inDir; by rewrite bool_decide_eq_true_2|].
    apply sumZ_elem; [intros; eapply inDir_nonneg; eauto|]. eapply JsMap.get_Some_values; eauto.
  - intros d j Hj. destruct (decide (i = j)) as [<-|Hji].
    + assert (d = bs_directory x) as -> by (eapply subscribed_fun; eauto).
      eapply subscribed_alter; eauto; simpl; rewrite ?Hm; lia.
    + apply subscribed_alter_ne; auto.
  - intros sid' z Hz. eauto.
Qed.

Lemma unregisterTask_ind (P : State -> Prop) taskId s :
  (forall sid s, P s -> P (unregisterSession sid s)) -> P s -> P (unregisterTaskSessions taskId s).
Proof.
  intros Hstep. unfold unregisterTaskSessions. generalize (sessionsOfTask taskId s) as l.
  intros l. revert s. induction l as [|sid l IH]; intros s Hs; simpl; [done|]. apply IH, Hstep, Hs.
Qed.

Lemma loopEvent_ind (P : State -> Prop) now b i e s :
  (forall dir s, P s -> P (handleEvent now b e dir s).2) -> (forall s, P s -> P (loopEnds i s)) ->
  P s -> P (loopEvent now b i e s).
Proof.
  intros He Hl Hs. unfold loopEvent. destruct (sub i s) as [x|]; [|done].
  destruct (su_running x); [|done]. destruct (su_shouldStop x); [auto|].
  specialize (He (su_directory x) s Hs). destruct (handleEvent _ _ _ _ _) as [[]]; auto.
Qed.

Lemma step_covered s s' : step s s' -> covered s -> covered s'.
Proof.
  intros Hstep Hc. destruct Hstep; try (by eapply covered_core; [|done]).
  - by apply registerSession_covered.
  - by apply unregisterSession_covered.
  - apply unregisterTask_ind; [apply unregisterSession_covered|done].
  - unfold timeoutFires. destruct (list_find _ _) as [[]|]; done.
  - apply loopEvent_ind; [|apply loopEnds_covered|done].
    intros dir s1 Hs1. eapply covered_core; [apply handleEvent_core|done].
  - by apply loopEnds_covered.
  - by apply reconnect_covered.
  - split; simpl; [apply NoDup_nil_2|done|done].
Qed.

Lemma reachable_ind (P : State -> Prop) s :
  P init -> (forall s s', step s s' -> P s -> P s') -> reachable s -> P s.
Proof.
  intros H0 Hstep. unfold reachable. generalize dependent init. intros s0 H0. induction 1; eauto.
Qed.

(** ** Promises settle at most once *)

Definition ids (s : State) : list nat := (wt_id <$> waiters s) ++ (settled s).*1.

Record promisesOk (s : State) : Prop := {
  po_once : NoDup (ids s);
  po_known : forall p, p ∈ ids s -> p < promises s;
}.

Lemma promisesOk_init : promisesOk init.
Proof. split; [apply NoDup_nil_2|]. intros p Hp. by apply elem_of_nil in Hp. Qed.

Definition pledged (s : State) := (waiters s, promises s, settled s).

Lemma promisesOk_same s s' : pledged s' = pledged s -> promisesOk s -> promisesOk s'.
Proof. unfold pledged. intros [= Hw Hp Hs] [H1 H2]. split; unfold ids; by rewrite ?Hw, ?Hp, ?Hs. Qed.

Lemma promisesOk_perm s s' :
  ids s' ≡ₚ ids s -> promises s' = promises s -> promisesOk s -> promisesOk s'.
Proof. intros Hids Hp [H1 H2]. split; [by rewrite Hids|]. intros p. rewrite Hids, Hp. apply H2. Qed.

Lemma settle_ids (Q : Waiter -> Prop) `{!forall w, Decision (Q w)} (o : outcome (list OcEv)) s s' :
  waiters s' = base.filter (fun w => ~ Q w) (waiters s) ->
  settled s' = settled s ++ ((fun w => (wt_id w, o)) <$> base.filter Q (waiters s)) ->
  ids s' ≡ₚ ids s.
Proof.
  intros Hw Hs. unfold ids. rewrite Hw, Hs, fmap_app, <- list_fmap_compose. simpl.
  rewrite (Permutation_app_comm (settled s).*1), (assoc_L (++)), <- fmap_app.
  apply Permutation_app_tail, fmap_Permutation. rewrite Permutation_app_comm. apply filter_app_complement.
Qed.

Lemma settleAll_ids sid o s : ids (settleAll sid o s) ≡ₚ ids s.
Proof.
  eapply (settle_ids (fun w => hears sid w = true)); [|done]. simpl.
  apply list_filter_iff. intros w. by destruct (hears sid w).
Qed.

Lemma deafen_ids sid (ws : list Waiter) : wt_id <$> (deafen sid <$> ws) = wt_id <$> ws.
Proof. rewrite <- list_fmap_compose. apply list_fmap_ext. intros ? w _. simpl. unfold deafen. by case_bool_decide. Qed.

Lemma one_waiter p k w ws :
  NoDup (wt_id <$> ws) -> list_find (fun w => wt_id w = p) ws = Some (k, w) ->
  base.filter (fun w => wt_id w = p) ws = [w].
Proof.
  revert k. induction ws as [|v ws IH]; intros k; csimpl; [done|]. intros [Hv Hws]%NoDup_cons.
  rewrite list.filter_cons. case_decide as Hp.
  - intros [= <- <-]. f_equal. apply elem_of_nil_inv. intros u [Hup Hu]%list_elem_of_filter.
    apply Hv, list_elem_of_fmap. exists u. split; [congruence|done].
  - intros ([n v']&Hf&[= -> ->])%fmap_Some. by apply (IH n).
Qed.

Lemma unregister_promises sid s : promisesOk s -> promisesOk (unregisterSession sid s).
Proof.
  intros Hp. unfold unregisterSession. destruct (JsMap.get sid (activeSessions s)); [|done].
  apply (promisesOk_perm s); [|repeat case_match; done|done].
  assert (forall s', waiters s' = deafen sid <$> waiters s -> settled s' = settled s -> ids s' ≡ₚ ids s) as Hids.
  { intros s' Hw Hs. unfold ids. by rewrite Hw, Hs, deafen_ids. }
  repeat case_match; apply Hids; simpl; by rewrite ?app_nil_r.
Qed.

Lemma timeout_promises p s : promisesOk s -> promisesOk (timeoutFires p s).
Proof.
  intros Hp. unfold timeoutFires. destruct (list_find _ _) as [[k w]|] eqn:Hf; [|done].
  apply (promisesOk_perm s); [|done|done].
  eapply (settle_ids (fun w => wt_id w = p)); simpl; [done|]. f_equal.
  rewrite (one_waiter p k w); [| |done].
  - apply list_find_Some in Hf as (_ & <- & _). done.
  - destruct Hp as [Hnd _]. by apply NoDup_app in Hnd as [? _].
Qed.

Lemma handle_promises now b e dir s : promisesOk s -> promisesOk (handleEvent now b e dir s).2.
Proof.
  intros Hp. unfold handleEvent. destruct (_ ≫= _) as [[sid x]|]; [|done].
  eapply promisesOk_same.
  { pose proof (forward_heard now b (bs_taskId x) sid e (emitLifecycle sid e (collect sid e s))) as Hh.
    unfold heard in Hh. injection Hh as _ Hw Hn Hs. unfold pledged. by rewrite Hw, Hn, Hs. }
  assert (promisesOk (collect sid e s)) by (by apply (promisesOk_same s)).
  unfold emitLifecycle. repeat case_bool_decide; [..|done]; (eapply promisesOk_perm; [apply settleAll_ids|done..]).
Qed.

Lemma loopEnds_pledged i s : pledged (loopEnds i s) = pledged s.
Proof. unfold loopEnds. by repeat case_match. Qed.

Lemma start_pledged i s : pledged (startDirectoryEventLoop i s) = pledged s.
Proof. unfold startDirectoryEventLoop. by repeat case_match. Qed.

Lemma register_pledged now taskId sid dir meta s : pledged (registerSession now taskId sid dir meta s) = pledged s.
Proof. unfold registerSession. repeat case_match; rewrite ?start_pledged; unfold pledged; simpl; by rewrite ?app_nil_r. Qed.

Lemma reconnect_pledged i s : pledged (reconnect i s) = pledged s.
Proof. unfold reconnect. case_match; [|done]. case_match. by rewrite start_pledged. Qed.

Lemma wait_promises sid timeout s : promisesOk s -> promisesOk (waitForSessionIdle sid timeout s).
Proof.
  intros [Hnd Hlt]. assert (ids (waitForSessionIdle sid timeout s) ≡ₚ promises s :: ids s) as Hids.
  { unfold ids. simpl. rewrite app_nil_r, fmap_app. simpl. rewrite <- (assoc_L (++)). symmetry. apply Permutation_middle. }
  split; [rewrite Hids|intros p; rewrite Hids; simpl].
  - apply NoDup_cons. split; [|done]. intros Hin%Hlt. lia.
  - intros [->|Hin%Hlt]%elem_of_cons; lia.
Qed.

Lemma step_promises s s' : step s s' -> promisesOk s -> promisesOk s'.
Proof.
  intros Hstep Hp. destruct Hstep; try (by eapply promisesOk_same; [|done]).
  - eapply promisesOk_same; [apply register_pledged|done].
  - by apply unregister_promises.
  - apply unregisterTask_ind; [apply unregister_promises|done].
  - by apply wait_promises.
  - by apply timeout_promises.
  - apply loopEvent_ind; [intros; by apply handle_promises| |done].
    intros s1 Hs1. eapply promisesOk_same; [apply loopEnds_pledged|done].
  - eapply promisesOk_same; [apply loopEnds_pledged|done].
  - eapply promisesOk_same; [apply reconnect_pledged|done].
Qed.

(** C15 A registered session is always listened to: in every reachable state
    its directory has a subscription that was not told to stop, counts at
    least the sessions registered there, and whose loop is either reading the
    stream or has a reconnection scheduled. Losing the stream, a malformed
    event or the end of another session of the directory never leaves it deaf. *)
Theorem registered_session_heard s sid x :
  reachable s -> JsMap.get sid (activeSessions s) = Some x ->
  exists i, JsMap.get (bs_directory x) (directorySubscriptions s) = Some i
    /\ subscribed (activeSessions s) (subs s) (reconnects s) (bs_directory x) i.
Proof.
  intros Hr Hx. assert (covered s) as [_ Hsubs Hsess].
  { eapply reachable_ind; eauto using covered_init, step_covered. }
  destruct (Hsess _ _ Hx) as [i Hi]. eauto.
Qed.

(** ** Waiting for a session *)

(** Deliveries: the clock, the draw of the debug log, the event and the
    directory of the stream it came from. *)
Record Delivery := { dl_now : Z; dl_sampled : bool; dl_event : OcEv; dl_dir : string }.

Definition deliver (s : State) (d : Delivery) : State :=
  (handleEvent (dl_now d) (dl_sampled d) (dl_event d) (dl_dir d) s).2.

Definition feed (l : list Delivery) (s : State) : State := fold_left deliver l s.

(** The session a delivery is for. *)
Definition target (s : State) (d : Delivery) : option string := sessionOf (dl_event d) (dl_dir d) s.

Definition ends (e : OcEv) : bool := bool_decide (ev_type e ∈ ["session.idle"; "session.error"]).

(** What a waiter is told by the event that ends its wait. *)
Definition verdict (events : list OcEv) (e : OcEv) : outcome (list OcEv) :=
  if bool_decide (ev_type e = "session.idle") then Ok events
  else Throw ("Session error: " +:+ errorMessage (prop "error" (ev_properties e))).

Lemma sessionOf_core e dir s s' : core s' = core s -> sessionOf e dir s' = sessionOf e dir s.
Proof. unfold core, sessionOf, sessionOfDirectory. by intros [= -> _ _ _]. Qed.

Lemma deliver_core s d : core (deliver s d) = core s.
Proof. apply handleEvent_core. Qed.

(** A delivery for an active session. *)
Lemma deliver_heard s d sid x :
  target s d = Some sid -> JsMap.get sid (activeSessions s) = Some x ->
  heard (deliver s d) = heard (emitLifecycle sid (dl_event d) (collect sid (dl_event d) s)).
Proof.
  intros Ht Hx. unfold deliver, handleEvent. unfold target in Ht. rewrite Ht. simpl. rewrite Hx. simpl.
  apply forward_heard.
Qed.

Lemma lifecycle_collected sid e s : collectedEvents (emitLifecycle sid e s) = collectedEvents s.
Proof. unfold emitLifecycle. by repeat case_bool_decide. Qed.

Lemma getSessionEvents_collect sid e s : getSessionEvents sid (collect sid e s) = getSessionEvents sid s ++ [e].
Proof. unfold getSessionEvents. simpl. by rewrite JsMap.get_set_eq. Qed.

Lemma getSessionEvents_collect_ne sid sid' e s :
  sid <> sid' -> getSessionEvents sid' (collect sid e s) = getSessionEvents sid' s.
Proof. intros Hne. unfold getSessionEvents. simpl. by rewrite JsMap.get_set_ne. Qed.

Lemma lifecycle_other sid sid' e s :
  sid' <> sid -> getSessionEvents sid (emitLifecycle sid' e (collect sid' e s)) = getSessionEvents sid s.
Proof.
  intros Hne. transitivity (getSessionEvents sid (collect sid' e s)); [|by apply getSessionEvents_collect_ne].
  unfold getSessionEvents. by rewrite lifecycle_collected.
Qed.

Lemma getSessionEvents_heard sid s s' : heard s' = heard s -> getSessionEvents sid s' = getSessionEvents sid s.
Proof. unfold heard, getSessionEvents. by intros [= -> _ _ _]. Qed.

Lemma deliver_collected s d sid x :
  JsMap.get sid (activeSessions s) = Some x ->
  getSessionEvents sid (deliver s d)
  = getSessionEvents sid s ++ (if bool_decide (target s d = Some sid) then [dl_event d] else []).
Proof.
  intros Hx. case_bool_decide as Ht.
  - rewrite (getSessionEvents_heard _ _ _ (deliver_heard _ _ _ _ Ht Hx)), <- getSessionEvents_collect.
    unfold getSessionEvents. by rewrite lifecycle_collected.
  - rewrite app_nil_r. destruct (target s d) as [sid'|] eqn:Ht'.
    + destruct (JsMap.get sid' (activeSessions s)) as [y|] eqn:Hy.
      * rewrite (getSessionEvents_heard _ _ _ (deliver_heard _ _ _ _ Ht' Hy)).
        apply lifecycle_other. congruence.
      * unfold deliver, handleEvent. unfold target in Ht'. by rewrite Ht'; simpl; rewrite Hy.
    + unfold deliver, handleEvent. unfold target in Ht'. by rewrite Ht'.
Qed.

(** The collected events of any session only grow. *)
Lemma deliver_grows s d sid : getSessionEvents sid s `prefix_of` getSessionEvents sid (deliver s d).
Proof.
  destruct (JsMap.get sid (activeSessions s)) as [x|] eqn:Hx; [rewrite (deliver_collected _ _ _ _ Hx); by eexists|].
  unfold deliver, handleEvent. fold (target s d). destruct (target s d) as [sid'|] eqn:Ht; simpl; [|done].
  destruct (JsMap.get sid' (activeSessions s)) as [y|] eqn:Hy; simpl; [|done].
  rewrite (getSessionEvents_heard _ _ _ (forward_heard _ _ _ _ _ _)).
  assert (sid' <> sid) by congruence.
  by rewrite lifecycle_other.
Qed.

(** A waiter keeps waiting through what does not end its session. *)
Lemma deliver_waits s d w :
  w ∈ waiters s ->
  (target s d = Some (wt_session w) -> is_Some (JsMap.get (wt_session w) (activeSessions s)) ->
   ends (dl_event d) = false) ->
  w ∈ waiters (deliver s d).
Proof.
  intros Hw Hends. destruct (target s d) as [sid|] eqn:Ht.
  2:{ unfold deliver, handleEvent. unfold target in Ht. by rewrite Ht. }
  destruct (JsMap.get sid (activeSessions s)) as [x|] eqn:Hx.
  2:{ unfold deliver, handleEvent. unfold target in Ht. by rewrite Ht; simpl; rewrite Hx. }
  pose proof (deliver_heard _ _ _ _ Ht Hx) as Hh. unfold heard in Hh. injection Hh as _ -> _ _.
  unfold emitLifecycle.
  assert (forall o s', waiters s' = waiters s -> sid <> wt_session w -> w ∈ waiters (settleAll sid o s')) as Hkeep.
  { intros o s' Hs' Hne. simpl. apply list_elem_of_filter. rewrite Hs'. split; [|done].
    unfold hears. by rewrite bool_decide_eq_false_2. }
  destruct (decide (sid = wt_session w)) as [->|Hne]; [|repeat case_bool_decide; auto].
  specialize (Hends eq_refl ltac:(by eexists)). unfold ends in Hends. apply bool_decide_eq_false in Hends.
  rewrite !bool_decide_eq_false_2 by set_solver. done.
Qed.

Lemma settleAll_settled sid o w s : w ∈ waiters s -> hears sid w = true -> (wt_id w, o) ∈ settled (settleAll sid o s).
Proof.
  intros Hw Hh. simpl. apply elem_of_app. right. apply list_elem_of_fmap. exists w. split; [done|].
  by apply list_elem_of_filter.
Qed.

Lemma deliver_settles s d w x :
  w ∈ waiters s -> wt_listening w = true -> JsMap.get (wt_session w) (activeSessions s) = Some x ->
  target s d = Some (wt_session w) -> ends (dl_event d) = true ->
  (wt_id w, verdict (getSessionEvents (wt_session w) s ++ [dl_event d]) (dl_event d)) ∈ settled (deliver s d).
Proof.
  intros Hw Hl Hx Ht He. pose proof (deliver_heard _ _ _ _ Ht Hx) as Hh. unfold heard in Hh.
  injection Hh as _ _ _ ->. unfold emitLifecycle, verdict. rewrite getSessionEvents_collect.
  assert (hears (wt_session w) w = true) as Hhears by (unfold hears; by rewrite bool_decide_eq_true_2, Hl).
  case_bool_decide; [by apply settleAll_settled|]. unfold ends in He. apply bool_decide_eq_true in He.
  rewrite bool_decide_eq_true_2 by set_solver. by apply settleAll_settled.
Qed.

(** The deliveries for a session, in order. *)
Definition eventsFor (s : State) (sid : string) (l : list Delivery) : list OcEv :=
  dl_event <$> base.filter (fun d => target s d = Some sid) l.

Lemma feed_waits l s w x :
  w ∈ waiters s -> promisesOk s -> JsMap.get (wt_session w) (activeSessions s) = Some x ->
  (forall d, d ∈ l -> target s d = Some (wt_session w) -> ends (dl_event d) = false) ->
  w ∈ waiters (feed l s) /\ promisesOk (feed l s) /\ core (feed l s) = core s
  /\ getSessionEvents (wt_session w) (feed l s) = getSessionEvents (wt_session w) s ++ eventsFor s (wt_session w) l.
Proof.
  revert s. induction l as [|d l IH]; intros s Hw Hp Hx Hl; simpl.
  { unfold eventsFor. simpl. by rewrite app_nil_r. }
  pose proof (deliver_core s d) as Hcore.
  assert (forall d', target (deliver s d) d' = target s d') as Ht by (intros; by apply sessionOf_core).
  destruct (IH (deliver s d)) as (? & ? & Hc & Hev).
  - apply deliver_waits; [done|]. intros Htd _. apply Hl; [by left|done].
  - by apply handle_promises.
  - unfold core in Hcore. by injection Hcore as -> _ _ _.
  - intros d' Hd'. rewrite Ht. apply Hl. by right.
  - split_and!; [done|done|by rewrite Hc|]. rewrite Hev, (deliver_collected _ _ _ _ Hx), <- (assoc_L (++)). f_equal.
    unfold eventsFor. rewrite list.filter_cons.
    rewrite (list_filter_iff _ (fun d => target s d = Some (wt_session w))) by (intros; by rewrite Ht).
    case_decide; [by rewrite bool_decide_eq_true_2|by rewrite bool_decide_eq_false_2].
Qed.

(** Waiting for a session: a promise of [waitForSessionIdle] is not settled
    by anything but the first event that ends its session. It is then settled
    once and for all: by a resolution with every event collected for the
    session since it was registered (so also those of earlier waits, in the
    order of arrival, whatever arrived for other sessions in between), or by a
    rejection with the message of the error. *)
Theorem wait_settles_at_end s sid x timeout l d :
  reachable s -> JsMap.get sid (activeSessions s) = Some x ->
  (forall d', d' ∈ l -> target s d' = Some sid -> ends (dl_event d') = false) ->
  target s d = Some sid -> ends (dl_event d) = true ->
  let p := promises s in
  let s1 := feed l (waitForSessionIdle sid timeout s) in
  let o := verdict (getSessionEvents sid s ++ eventsFor s sid l ++ [dl_event d]) (dl_event d) in
  p ∉ (settled s1).*1
  /\ forall o', (p, o') ∈ settled (deliver s1 d) <-> o' = o.
Proof.
  intros Hr Hx Hl Ht He p s1 o.
  assert (promisesOk (waitForSessionIdle sid timeout s)) as Hok.
  { apply wait_promises. eapply reachable_ind; eauto using promisesOk_init, step_promises. }
  set (w := {| wt_id := p; wt_session := sid;
               wt_timeout := match timeout with Some 0%Z | None => defaultTimeout | Some t => t end;
               wt_listening := true |}).
  destruct (feed_waits l (waitForSessionIdle sid timeout s) w x) as (Hw & Hp1 & Hc & Hev); try done.
  { simpl. set_solver. }
  split.
  - destruct Hp1 as [Hnd _]. unfold ids in Hnd. apply NoDup_app in Hnd as (_ & Hdis & _).
    apply Hdis, list_elem_of_fmap. by exists w.
  - assert ((p, o) ∈ settled (deliver s1 d)) as Hset.
    { unfold o. rewrite (assoc_L (++)).
      replace (getSessionEvents sid s ++ eventsFor s sid l) with (getSessionEvents (wt_session w) s1) by done.
      apply (deliver_settles s1 d w x); [done|done| |by unfold target; rewrite (sessionOf_core _ _ _ _ Hc)|done].
      unfold core in Hc. injection Hc as Ha _ _ _. unfold s1. by rewrite Ha. }
    assert (promisesOk (deliver s1 d)) as [Hnd _] by (by apply handle_promises).
    unfold ids in Hnd. apply NoDup_app in Hnd as (_ & _ & Hnd).
    intros o'. split; [|by intros ->]. intros Ho'.
    by eapply NoDup_fst_inj.
Qed.

(** ** Unregistering under a waiter *)

Definition waitTimedOut (w : Waiter) : outcome (list OcEv) :=
  Throw ("Session " +:+ wt_session w +:+ " timed out after " +:+ pretty (wt_timeout w) +:+ "ms").

(** A promise without listeners: it waits, or it has timed out. *)
Definition deaf (w : Waiter) (s : State) : Prop :=
  promisesOk s /\ (w ∈ waiters s \/ (wt_id w, waitTimedOut w) ∈ settled s).

Lemma deaf_same w s s' : pledged s' = pledged s -> deaf w s -> deaf w s'.
Proof.
  intros Hp [Hok Hw]. split; [by eapply promisesOk_same|].
  unfold pledged in Hp. injection Hp as Hw' _ Hs'. by rewrite Hw', Hs'.
Qed.

Lemma deaf_unregister w sid s : wt_listening w = false -> deaf w s -> deaf w (unregisterSession sid s).
Proof.
  intros Hl [Hok Hw]. split; [by apply unregister_promises|].
  assert (deafen sid w = w) as Hd by (unfold deafen; case_bool_decide; [|done]; destruct w; simpl in *; by subst).
  assert (w ∈ waiters s -> w ∈ deafen sid <$> waiters s) as Hin by (intros; apply list_elem_of_fmap; by exists w).
  unfold unregisterSession. repeat case_match; simpl; rewrite ?app_nil_r; tauto.
Qed.

Lemma deaf_settleAll w sid o s : wt_listening w = false -> w ∈ waiters s -> w ∈ waiters (settleAll sid o s).
Proof.
  intros Hl Hw. simpl. apply list_elem_of_filter. split; [|done]. unfold hears. by rewrite Hl, andb_false_r.
Qed.

Lemma deaf_deliver w s now b e dir : wt_listening w = false -> deaf w s -> deaf w (handleEvent now b e dir s).2.
Proof.
  intros Hl [Hok Hw]. split; [by apply handle_promises|].
  unfold handleEvent. destruct (_ ≫= _) as [[sid x]|]; [|done].
  pose proof (forward_heard now b (bs_taskId x) sid e (emitLifecycle sid e (collect sid e s))) as Hh.
  unfold heard in Hh. injection Hh as _ -> _ ->. unfold emitLifecycle.
  repeat case_bool_decide; [..|done];
    (destruct Hw; [left; by apply deaf_settleAll|right; simpl; apply elem_of_app; by left]).
Qed.

Lemma deaf_timeout w p s : deaf w s -> deaf w (timeoutFires p s).
Proof.
  intros [Hok Hw]. split; [by apply timeout_promises|]. unfold timeoutFires.
  destruct (list_find _ _) as [[k v]|] eqn:Hf; [|done]. simpl.
  destruct Hw as [Hw|Hw]; [|right; apply elem_of_app; by left].
  destruct (decide (wt_id w = p)) as [Hp|Hp].
  - right. apply elem_of_app. right. destruct Hok as [Hnd _]. apply NoDup_app in Hnd as [Hnd _].
    assert (w ∈ [v]) as ->%list_elem_of_singleton.
    { rewrite <- (one_waiter _ _ _ _ Hnd Hf). by apply list_elem_of_filter. }
    subst p. by left.
  - left. by apply list_elem_of_filter.
Qed.

Lemma step_deaf w s s' : wt_listening w = false -> step s s' -> deaf w s -> deaf w s'.
Proof.
  intros Hl Hstep Hd. destruct Hstep; try (by eapply deaf_same; [|done]).
  - eapply deaf_same; [apply register_pledged|done].
  - by apply deaf_unregister.
  - apply unregisterTask_ind; [intros; by apply deaf_unregister|done].
  - destruct Hd as [Hok Hw]. split; [by apply wait_promises|]. simpl. rewrite app_nil_r. set_solver.
  - by apply deaf_timeout.
  - apply loopEvent_ind; [intros; by apply deaf_deliver| |done].
    intros s1 Hs1. eapply deaf_same; [apply loopEnds_pledged|done].
  - eapply deaf_same; [apply loopEnds_pledged|done].
  - eapply deaf_same; [apply reconnect_pledged|done].
Qed.

(** Unregistering a session under a waiting phase removes the listeners of
    its promise but not the promise: from then on, whatever happens (the idle
    or error event of the session, a new registration of it, the shutdown of
    the bridge), the promise can only be rejected by its own timeout, half an
    hour by default. *)
Theorem unregistered_wait_only_times_out s s' w x o :
  reachable s -> w ∈ waiters s -> JsMap.get (wt_session w) (activeSessions s) = Some x ->
  rtc step (unregisterSession (wt_session w) s) s' ->
  (wt_id w, o) ∈ settled s' -> o = waitTimedOut w.
Proof.
  intros Hr Hw Hx Hsteps Ho.
  set (v := {| wt_id := wt_id w; wt_session := wt_session w; wt_timeout := wt_timeout w; wt_listening := false |}).
  assert (deaf v (unregisterSession (wt_session w) s)) as Hd.
  { split; [apply unregister_promises; eapply reachable_ind; eauto using promisesOk_init, step_promises|].
    left. assert (v ∈ deafen (wt_session w) <$> waiters s) as Hv.
    { apply list_elem_of_fmap. exists w. split; [|done]. unfold deafen. by rewrite bool_decide_eq_true_2. }
    unfold unregisterSession. rewrite Hx. by repeat case_match. }
  assert (deaf v s') as [[Hnd _] Hv].
  { clear Ho. induction Hsteps as [|s1 s2 s3 H1 _ IH]; [done|]. apply IH. by eapply step_deaf. }
  unfold ids in Hnd. apply NoDup_app in Hnd as (_ & Hdis & Hnd). destruct Hv as [Hv|Hv].
  - exfalso. apply (Hdis (wt_id w)); apply list_elem_of_fmap; [by exists v|by exists (wt_id w, o)].
  - by eapply (NoDup_fst_inj (settled s') (wt_id w)).
Qed.

(** ** A loop that outlives its subscription *)

(** A loop that will handle the next event of its stream. *)
Definition listening (i : nat) (dir : string) (s : State) : Prop :=
  exists x, sub i s = Some x /\ su_running x = true /\ su_shouldStop x = false /\ su_directory x = dir.

(** The reconnection timer is not cancelled when the last session of a
    directory goes: it revives the loop of a subscription that is no longer in
    the map, by resetting its stop flag. The next registration in the directory
    then opens a second loop, and both are listening: every event of the
    stream is handled twice. *)
Theorem stale_reconnect_doubles_loop s sid x i y now taskId sid' meta :
  JsMap.get sid (activeSessions s) = Some x ->
  JsMap.get (bs_directory x) (directorySubscriptions s) = Some i ->
  sub i s = Some y -> su_directory y = bs_directory x -> su_running y = false -> (su_count y <= 1)%Z ->
  i ∈ reconnects s -> JsStr.truthy (bs_directory x) = true ->
  let s' := registerSession now taskId sid' (bs_directory x) meta (reconnect i (unregisterSession sid s)) in
  exists j, JsMap.get (bs_directory x) (directorySubscriptions s') = Some j /\ i <> j
    /\ listening i (bs_directory x) s' /\ listening j (bs_directory x) s'.
Proof.
  intros Hx Hi Hy Hdir Hrun Hcount Hrec Htr. unfold sub in Hy.
  unfold unregisterSession. rewrite Hx. simpl. rewrite Hi. unfold sub, updateSub. simpl.
  rewrite list_lookup_alter_eq, Hy. simpl. rewrite (proj2 (Z.leb_le _ 0)) by lia.
  unfold reconnect. simpl.
  destruct (list_find (fun j => j = i) (reconnects s)) as [[k j]|] eqn:Hf.
  2:{ apply list_find_None in Hf. rewrite list.Forall_forall in Hf. by destruct (Hf i). }
  unfold startDirectoryEventLoop, sub. simpl. rewrite list_lookup_alter_eq, list_lookup_alter_eq, Hy. simpl. rewrite Hrun.
  unfold registerSession. rewrite Htr. simpl. rewrite JsMap.get_delete_eq. rewrite start_fresh by done.
  exists (length (alter (fun x => setStop false (setRunning true x)) i
            (alter (setStop true) i (alter (addCount (-1)) i (subs s))))). simpl.
  assert (i < length (subs s)) as Hlt by (by eapply lookup_lt_Some).
  rewrite JsMap.get_set_eq, !length_alter. split; [done|]. split; [lia|]. split.
  - eexists. unfold sub. simpl. rewrite lookup_app_l by (by rewrite !length_alter).
    rewrite !list_lookup_alter_eq, Hy. done.
  - eexists. unfold sub. simpl. rewrite lookup_app_r by (by rewrite !length_alter).
    rewrite !length_alter, Nat.sub_diag. done.
Qed.

(** ** The activity log *)

Inductive LogOp := LQueue (taskId : string) (e : LogEntry) | LFlush.

Definition runLog (s : State) (op : LogOp) : State :=
  match op with
  | LQueue taskId e => queueActivityLog taskId e s
  | LFlush => flushAllActivityLogs s
  end.

(** The entries queued for a task. *)
Definition queuedFor (taskId : string) (op : LogOp) : option LogEntry :=
  match op with LQueue t e => if decide (t = taskId) then Some e else None | LFlush => None end.

(** The entries handed to the repository for a task, batch by batch. *)
Definition batchFor (taskId : string) (x : Effect) : option (list LogEntry) :=
  match x with EfAppend t es => if decide (t = taskId) then Some es else None | _ => None end.

Definition written (taskId : string) (s : State) : list LogEntry := concat (omap (batchFor taskId) (effects s)).

Definition pendingFor (taskId : string) (s : State) : list LogEntry :=
  default [] (JsMap.get taskId (pendingActivityLogs s)).

(** The bounds of the pending lists and of the batches. *)
Record logOk (s : State) : Prop := {
  lo_wf : JsMap.wf (pendingActivityLogs s);
  lo_pending : forall t es, JsMap.get t (pendingActivityLogs s) = Some es -> length es < MAX_BATCH_SIZE;
  lo_batch : forall t es, EfAppend t es ∈ effects s -> 1 <= length es <= MAX_BATCH_SIZE;
}.

Lemma omap_batch t k es l :
  concat (omap (batchFor t) (EfAppend k es :: l)) = (if decide (k = t) then es else []) ++ concat (omap (batchFor t) l).
Proof. simpl. by destruct (decide (k = t)). Qed.

Lemma batches_for t m : JsMap.wf m -> concat (omap (batchFor t) (batches m)) = default [] (JsMap.get t m).
Proof.
  unfold JsMap.wf. induction m as [|[k es] m IH]; [done|]. csimpl. intros [Hk Hm]%NoDup_cons. specialize (IH Hm).
  assert (k = t -> JsMap.get t m = None) as Hnone by (intros <-; by apply JsMap.get_None_keys).
  destruct es as [|e l].
  - change (batches ((k, []) :: m)) with (batches m). rewrite IH. case_decide; [by rewrite Hnone|done].
  - change (batches ((k, e :: l) :: m)) with (EfAppend k (e :: l) :: batches m).
    rewrite omap_batch, IH. case_decide; [rewrite Hnone by done; by rewrite app_nil_r|done].
Qed.

Lemma batches_bounds m t es :
  (forall t es, JsMap.get t m = Some es -> length es < MAX_BATCH_SIZE) -> JsMap.wf m ->
  EfAppend t es ∈ batches m -> 1 <= length es <= MAX_BATCH_SIZE.
Proof.
  intros Hm Hwf Hin. unfold batches in Hin. apply list_elem_of_omap in Hin as ([k [|e l]] & Hkl & He); simplify_eq/=.
  apply JsMap.elem_get, Hm in Hkl; [simpl in *; lia|done].
Qed.

Lemma runLog_ok s op : logOk s -> logOk (runLog s op).
Proof.
  intros [Hwf Hp Hb]. destruct op as [t e|]; simpl.
  - unfold queueActivityLog. set (logs := default [] _ ++ [e]).
    assert (length logs <= MAX_BATCH_SIZE) as Hlen.
    { unfold logs. rewrite length_app. simpl. destruct (JsMap.get t _) as [es|] eqn:Hes; simpl.
      - specialize (Hp _ _ Hes). lia.
      - unfold MAX_BATCH_SIZE. lia. }
    assert (1 <= length logs) as Hlen1 by (unfold logs; rewrite length_app; simpl; lia).
    destruct (Nat.leb_spec MAX_BATCH_SIZE (length logs)); split; simpl; auto using JsMap.wf_set.
    + intros t' es. destruct (decide (t = t')) as [->|]; [rewrite JsMap.get_set_eq|rewrite JsMap.get_set_ne by done; eauto].
      intros [= <-]. unfold MAX_BATCH_SIZE. simpl. lia.
    + intros t' es [?|[= -> ->]%list_elem_of_singleton]%elem_of_app; eauto.
    + intros t' es. destruct (decide (t = t')) as [->|]; [rewrite JsMap.get_set_eq|rewrite JsMap.get_set_ne by done; eauto].
      by intros [= <-].
    + rewrite app_nil_r. eauto.
  - split; simpl; [apply NoDup_nil_2|done|].
    intros t es [?|?]%elem_of_app; [eauto|by eapply batches_bounds].
Qed.

Lemma runLog_kept t s op :
  logOk s ->
  written t (runLog s op) ++ pendingFor t (runLog s op)
  = written t s ++ pendingFor t s ++ option_list (queuedFor t op).
Proof.
  intros [Hwf _ _]. destruct op as [t' e|]; simpl.
  - assert (forall logs, written t (withLogs (pendingActivityLogs s) [EfAppend t' logs] s)
      = written t s ++ (if decide (t' = t) then logs else [])) as Hw.
    { intros logs. unfold written. simpl. rewrite omap_app, concat_app. f_equal. simpl.
      destruct (decide (t' = t)); simpl; by rewrite ?app_nil_r. }
    unfold queueActivityLog, pendingFor. destruct (MAX_BATCH_SIZE <=? _).
    + change (written t (withLogs ?m ?es s)) with (written t (withLogs (pendingActivityLogs s) es s)).
      rewrite Hw. simpl. destruct (decide (t' = t)) as [->|Hne].
      * rewrite JsMap.get_set_eq. simpl. by rewrite app_nil_r.
      * rewrite JsMap.get_set_ne by done. simpl. by rewrite !app_nil_r.
    + unfold written. simpl. rewrite app_nil_r. destruct (decide (t' = t)) as [->|Hne].
      * by rewrite JsMap.get_set_eq.
      * rewrite JsMap.get_set_ne by done. simpl. by rewrite app_nil_r.
  - unfold written, pendingFor. simpl. by rewrite omap_app, concat_app, batches_for, !app_nil_r.
Qed.

(** C32 The batched activity log loses nothing before it reaches the
    repository: whatever entries are queued and whenever the timer flushes, for
    every task the entries written followed by those still pending are exactly
    the entries queued for it, in order; fewer than 50 are ever pending, and
    every batch written holds between 1 and 50 entries. *)
Theorem activity_log_conserved ops taskId :
  let s := fold_left runLog ops init in
  written taskId s ++ pendingFor taskId s = omap (queuedFor taskId) ops
  /\ length (pendingFor taskId s) < MAX_BATCH_SIZE
  /\ (forall t es, EfAppend t es ∈ effects s -> 1 <= length es <= MAX_BATCH_SIZE).
Proof.
  assert (logOk init) as H0 by (split; [apply NoDup_nil_2|done|intros ?? Hin; by apply elem_of_nil in Hin]).
  assert (forall l s, logOk s -> logOk (fold_left runLog l s)
    /\ written taskId (fold_left runLog l s) ++ pendingFor taskId (fold_left runLog l s)
       = written taskId s ++ pendingFor taskId s ++ omap (queuedFor taskId) l) as Hgen.
  { induction l as [|op l IH]; intros s Hs; simpl; [by rewrite app_nil_r|].
    destruct (IH (runLog s op)) as [Hok Heq]; [by apply runLog_ok|]. split; [done|].
    rewrite Heq, (assoc_L (++)), runLog_kept by done. destruct (queuedFor taskId op); simpl; by rewrite <- !(assoc_L (++)). }
  intros s. destruct (Hgen ops init H0) as [[Hwf Hp Hb] Heq]. split_and!; [exact Heq| |exact Hb].
  unfold pendingFor. destruct (JsMap.get taskId _) as [es|] eqn:He; simpl; [eauto|unfold MAX_BATCH_SIZE; lia].
Qed.

(** ** The ids of tool calls *)

(** A run that only adds effects with [Q]. *)
Definition emits {A} (Q : Effect -> Prop) (m : JsM State A) : Prop :=
  forall s, exists l, effects (m s).2 = effects s ++ l /\ Forall Q l.

Lemma emits_nothing {A} Q (m : JsM State A) : leaves effects m -> emits Q m.
Proof. intros Hm s. exists []. by rewrite Hm, app_nil_r. Qed.

Lemma emits_bind {A B} Q (m : JsM State A) (k : A -> JsM State B) :
  emits Q m -> (forall a, emits Q (k a)) -> emits Q (m ≫= k).
Proof.
  intros Hm Hk s. destruct (Hm s) as (l & Hl & HQ). unfold mbind, jsm_bind.
  destruct (m s) as [[a|e] s1]; simpl in *; [|by eauto].
  destruct (Hk a s1) as (l' & Hl' & HQ'). exists (l ++ l'). rewrite Hl', Hl, (assoc_L (++)).
  split; [done|]. by apply Forall_app.
Qed.

Lemma emits_modify Q f : (forall s, exists l, effects (f s) = effects s ++ l /\ Forall Q l) -> emits Q (modify f).
Proof. intros Hf s. apply Hf. Qed.

(** The id of a tool effect is made from the clock. *)
Definition clockId (now : Z) : Json := JStr ("tool-" +:+ pretty now).

Definition toolId (x : Effect) : option Json :=
  match x with EfStartTool _ id _ _ | EfCompleteTool _ id _ _ _ => Some id | _ => None end.

Definition clocked (now : Z) (x : Effect) : Prop := forall id, toolId x = Some id -> id = clockId now.

Definition anonymous (data : Json) : Prop :=
  prop "tool_use_id" (Some data) = None /\ prop "id" (Some data) = None.

Lemma obj_absent k l : k ∉ l.*1 -> prop k (Some (obj l)) = None.
Proof.
  intros Hk. unfold prop, obj, field. cbn [mbind option_bind].
  rewrite (elem_of_nil_inv (base.filter _ _)); [done|].
  intros [k' v] [Hk' Hin]%list_elem_of_filter. simpl in Hk'. subst k'. apply Hk.
  rewrite elem_of_reverse in Hin. apply list_elem_of_omap in Hin as ([k' [v'|]] & Hin & [=]). subst.
  apply list_elem_of_fmap. by exists (k, Some v).
Qed.

Lemma transformEvent_anonymous e taskId type data : transformEvent e taskId = Ok (Some (type, data)) -> anonymous data.
Proof.
  unfold transformEvent. case_bool_decide.
  - unfold transformPart. case_match; [intros [= <- <-]; split; apply obj_absent; set_solver|].
    case_match; [|case_match; [intros [= <- <-]; split; apply obj_absent; set_solver|done]].
    unfold toolCall. destruct (extractFilePath _ _ _) as [path|]; [|done].
    destruct (toolDetail _ _ _) as [detail|]; [|done]. intros [= <- <-]. split; apply obj_absent; set_solver.
  - unfold translate. intros [= Ht]. repeat case_match; simplify_eq/=; split; apply obj_absent; simpl; set_solver.
Qed.

Lemma effect_emits (Q : Effect -> Prop) x s : Q x -> exists l, effects (effect x s) = effects s ++ l /\ Forall Q l.
Proof. intros Hx. exists [x]. split; [done|]. by constructor. Qed.

Lemma same_emits (Q : Effect -> Prop) s : exists l, effects s = effects s ++ l /\ Forall Q l.
Proof. exists []. by rewrite app_nil_r. Qed.

Lemma trackExecution_clocked now taskId type data s :
  anonymous data ->
  exists l, effects (trackExecution now taskId type (Some data) s) = effects s ++ l /\ Forall (clocked now) l.
Proof.
  intros [H1 H2]. unfold trackExecution. cbn [firstOf]. rewrite H1, H2.
  assert (forall s1, (exists l, effects s1 = effects s ++ l /\ Forall (clocked now) l) ->
    exists l, effects (if (bool_decide (type = "agent_output") || bool_decide (type = "agent_message"))
                          && negb (isTrue (prop "streaming" (Some data)))
                       then effect (EfTurn taskId (prop "content" (Some data))) s1 else s1)
              = effects s ++ l /\ Forall (clocked now) l) as Hturn.
  { intros s1 (l & Hl & HQ). case_match; [|eauto]. exists (l ++ [EfTurn taskId (prop "content" (Some data))]).
    simpl. rewrite Hl, (assoc_L (++)). split; [done|]. apply Forall_app. split; [done|]. by constructor. }
  apply Hturn. repeat case_match; try apply same_emits; apply effect_emits; intros id [= <-]; reflexivity.
Qed.

Lemma queue_clocked now taskId e s :
  exists l, effects (queueActivityLog taskId e s) = effects s ++ l /\ Forall (clocked now) l.
Proof. unfold queueActivityLog. case_match; eexists; (split; [done|]); by repeat constructor. Qed.

Lemma forward_clocked now b taskId sid e : emits (clocked now) (forward now b taskId sid e).
Proof.
  unfold forward. destruct (transformEvent e taskId) as [[[type data]|]|] eqn:Ht; try (by apply emits_nothing).
  apply transformEvent_anonymous in Ht.
  assert (forall x, toolId x = None -> clocked now x) as Hno by (intros x Hx id; by rewrite Hx).
  apply emits_bind; [|intros _; apply emits_bind; [|intros _; apply emits_bind; [|intros _]]].
  - destruct (bool_decide _); [|by apply emits_nothing]. apply emits_modify. intros s. by apply effect_emits, Hno.
  - apply emits_nothing, leaves_when, leaves_throw.
  - apply emits_modify. intros s. unfold emitFrontend. eexists [_; _; _]. split; [simpl; by rewrite <- !(assoc_L (++))|].
    repeat constructor; by apply Hno.
  - unfold saveForUIRecovery.
    do 2 (match goal with |- emits _ (if ?c then _ else _) => destruct c end; [by apply emits_nothing|]).
    destruct (lowerOr _) as [tool|]; [|by apply emits_nothing].
    apply emits_bind; [apply emits_modify, queue_clocked|intros _].
    apply emits_modify. intros s. by apply trackExecution_clocked.
Qed.

Lemma lifecycle_effects sid e s : effects (emitLifecycle sid e (collect sid e s)) = effects s ++ [].
Proof. unfold emitLifecycle. repeat case_bool_decide; simpl; by rewrite ?app_nil_r. Qed.

(** The effects of one delivery. *)
Definition added (s : State) (d : Delivery) : list Effect := drop (length (effects s)) (effects (deliver s d)).

Lemma added_clocked s d : Forall (clocked (dl_now d)) (added s d).
Proof.
  assert (exists l, effects (deliver s d) = effects s ++ l /\ Forall (clocked (dl_now d)) l) as (l & Hl & HQ).
  { unfold deliver, handleEvent. destruct (_ ≫= _) as [[sid x]|]; [|apply same_emits].
    destruct (forward_clocked (dl_now d) (dl_sampled d) (bs_taskId x) sid (dl_event d)
                (emitLifecycle sid (dl_event d) (collect sid (dl_event d) s))) as (l & Hl & HQ).
    exists l. rewrite Hl, lifecycle_effects, app_nil_r. done. }
  unfold added. by rewrite Hl, drop_app_length.
Qed.

(** The bridge gives the execution tracker no id of its own for a tool
    call: whatever the events carry, the id of a start and of a completion is
    made from the clock when the event is handled. A completion therefore
    carries the id of a recorded start only if both were handled in the same
    millisecond. *)
Theorem tool_ids_match_by_clock s1 d1 s2 d2 x1 x2 id :
  x1 ∈ added s1 d1 -> x2 ∈ added s2 d2 -> toolId x1 = Some id -> toolId x2 = Some id ->
  id = clockId (dl_now d1) /\ dl_now d1 = dl_now d2.
Proof.
  intros H1 H2 Hi1 Hi2.
  pose proof (proj1 (list.Forall_forall _ _) (added_clocked s1 d1) x1 H1 id Hi1) as E1.
  pose proof (proj1 (list.Forall_forall _ _) (added_clocked s2 d2) x2 H2 id Hi2) as E2.
  split; [done|]. rewrite E1 in E2. unfold clockId in E2. injection E2 as E2.
  by apply (inj pretty).
Qed.

End bridge.
(** ** Witnesses *)

Definition demoText : JsText := {| toText _ := "[object Object]"; stringify _ := "{}" |}.

Definition demoRegistered : State := registerSession 0 "t" "s" "/d" None init.

Lemma demoRegistered_reachable : reachable (H := demoText) demoRegistered.
Proof. apply rtc_once. constructor. Defined.

Lemma registered_session_heard_witness :
  exists i, JsMap.get "/d" (directorySubscriptions demoRegistered) = Some i
    /\ subscribed (activeSessions demoRegistered) (subs demoRegistered) (reconnects demoRegistered) "/d" i.
Proof.
  exact (registered_session_heard (H := demoText) demoRegistered "s"
    {| bs_taskId := "t"; bs_sessionId := "s"; bs_startedAt := 0; bs_directory := "/d" |}
    demoRegistered_reachable ltac:(reflexivity)).
Defined.

(** An event of a session, in the form the stream sends it. *)
Definition demoDelivery (type sid : string) : Delivery :=
  {| dl_now := 0; dl_sampled := false; dl_dir := "/d";
     dl_event := {| ev_type := type; ev_properties := Some (JObj [("sessionID", JStr sid)]) |} |}.

Lemma wait_settles_at_end_witness :
  let l := [demoDelivery "session.idle" "other"; demoDelivery "message.start" "s"] in
  let d := demoDelivery "session.idle" "s" in
  let s1 := feed (H := demoText) l (waitForSessionIdle "s" None demoRegistered) in
  0 ∉ (settled s1).*1
  /\ forall o', (0, o') ∈ settled (deliver (H := demoText) s1 d)
       <-> o' = Ok [dl_event (demoDelivery "message.start" "s"); dl_event d].
Proof.
  refine (wait_settles_at_end (H := demoText) demoRegistered "s"
    {| bs_taskId := "t"; bs_sessionId := "s"; bs_startedAt := 0; bs_directory := "/d" |} None
    [demoDelivery "session.idle" "other"; demoDelivery "message.start" "s"] (demoDelivery "session.idle" "s")
    demoRegistered_reachable ltac:(reflexivity) _ ltac:(reflexivity) ltac:(reflexivity)).
  intros d' [->|[->|Hd]%elem_of_cons]%elem_of_cons; [discriminate|reflexivity|by apply elem_of_nil in Hd].
Defined.

Definition demoWaiter : Waiter := {| wt_id := 0; wt_session := "s"; wt_timeout := defaultTimeout; wt_listening := true |}.

(** The session is cancelled, becomes idle, and half an hour passes. *)
Lemma unregistered_wait_only_times_out_witness :
  let s := waitForSessionIdle "s" None demoRegistered in
  let s1 := deliver (H := demoText) (unregisterSession "s" s) (demoDelivery "session.idle" "s") in
  settled s1 = [] /\ settled (timeoutFires 0 (unregisterSession "s" s)) = [(0, waitTimedOut demoWaiter)]
  /\ Throw "Session s timed out after 1800000ms" = waitTimedOut demoWaiter.
Proof.
  split; [reflexivity|]. split; [reflexivity|].
  refine (unregistered_wait_only_times_out (H := demoText) (waitForSessionIdle "s" None demoRegistered)
    (timeoutFires 0 (unregisterSession "s" (waitForSessionIdle "s" None demoRegistered))) demoWaiter
    {| bs_taskId := "t"; bs_sessionId := "s"; bs_startedAt := 0; bs_directory := "/d" |} _
    ltac:(eapply rtc_r; [exact demoRegistered_reachable|constructor]) ltac:(by left) ltac:(reflexivity)
    ltac:(apply rtc_once; constructor) ltac:(by left)).
Defined.

Definition demoCost : OcEv :=
  {| ev_type := "message.part.updated";
     ev_properties := Some (JObj [("part", JObj [("type", JStr "step-finish"); ("sessionID", JStr "s2");
                                                ("cost", JNum JsNum.zero)])]) |}.

Definition isCost (x : Effect) : bool := match x with EfCost _ _ _ _ => true | _ => false end.

(** The stream drops, the session ends, the timer fires, a second session
    starts: its cost event is recorded twice. *)
Lemma stale_reconnect_doubles_loop_witness :
  let s := loopEnds 0 demoRegistered in
  let s' := registerSession 0 "t" "s2" "/d" None (reconnect 0 (unregisterSession "s" s)) in
  (exists j, JsMap.get "/d" (directorySubscriptions s') = Some j /\ 0 <> j
     /\ listening 0 "/d" s' /\ listening j "/d" s')
  /\ List.filter isCost (effects (loopEvent (H := demoText) 0 false 1 demoCost
                                    (loopEvent (H := demoText) 0 false 0 demoCost s')))
     = [EfCost "t" "s2" (Some (JNum JsNum.zero)) None; EfCost "t" "s2" (Some (JNum JsNum.zero)) None].
Proof.
  split; [|vm_compute; reflexivity].
  exact (stale_reconnect_doubles_loop (loopEnds 0 demoRegistered) "s"
    {| bs_taskId := "t"; bs_sessionId := "s"; bs_startedAt := 0; bs_directory := "/d" |} 0
    {| su_directory := "/d"; su_running := false; su_shouldStop := false; su_count := 1 |} 0 "t" "s2" None
    ltac:(reflexivity) ltac:(reflexivity) ltac:(reflexivity) ltac:(reflexivity) ltac:(reflexivity)
    ltac:(vm_compute; discriminate) ltac:(by left) ltac:(reflexivity)).
Defined.

(** A tool that starts at 5 ms and is done at 9 ms, and one that takes no
    time. *)
Definition demoTool (now : Z) (status : string) : Delivery :=
  {| dl_now := now; dl_sampled := false; dl_dir := "/d";
     dl_event := {| ev_type := "message.part.updated";
       ev_properties := Some (JObj [("part", JObj [("type", JStr "tool"); ("sessionID", JStr "s");
         ("tool", JStr "bash"); ("callID", JStr "call_1"); ("id", JStr "prt_1");
         ("state", JObj [("status", JStr status); ("input", JObj [("command", JStr "ls")])])])]) |} |}.

Lemma tool_ids_match_by_clock_witness :
  (omap toolId (added (H := demoText) demoRegistered (demoTool 5 "running")) = [JStr "tool-5"]
   /\ omap toolId (added (H := demoText) demoRegistered (demoTool 9 "completed")) = [JStr "tool-9"])
  /\ clockId 5 = clockId (dl_now (demoTool 5 "running")) /\ dl_now (demoTool 5 "running") = dl_now (demoTool 5 "completed").
Proof.
  split; [split; vm_compute; reflexivity|].
  exact (tool_ids_match_by_clock (H := demoText) demoRegistered (demoTool 5 "running") demoRegistered
    (demoTool 5 "completed")
    (EfStartTool "t" (clockId 5) (JStr "bash") (Some (JObj [("command", JStr "ls")])))
    (EfCompleteTool "t" (clockId 5) None true None) (clockId 5)
    ltac:(apply list_elem_of_lookup; exists 3; vm_compute; reflexivity)
    ltac:(apply list_elem_of_lookup; exists 3; vm_compute; reflexivity) ltac:(reflexivity) ltac:(reflexivity)).
Defined.

End EventBridgeProofs.
