(* ===== verification/AnalysisPhase.v ===== *)
(** * Analysis phase (src/orchestration/phases/AnalysisPhaseV2.ts)

    Branch, session, clarifying questions (answered by the user, or by the
    agent itself in autopilot), then ANALYST, JUDGE, SPY and FIX in at most
    three iterations, commit, and the stories stored on approval. What the
    agents answer is kept as parsed JSON until it leaves the phase, so that
    every shape the code cannot handle is an error of the model too; the record
    that leaves is the typed view the rest of the program has of it. *)

From S2P Require Import Prelude JsNumber Json Regex Approval Sessions TaskTypes TaskRepository Orchestrator AgentPhase.
From stdpp Require Import pretty.
From stdpp Require Import options.

Module AnalysisPhase.
Import Json SessionRepository TaskRepository AgentPhase.

(** ** Data *)

(** The clarifications put into the analyst's prompt, by their origin. *)
Inductive Clarifications :=
  | ClNone
  | ClUser (text : string)
  | ClAssumed (assumptions : list Json)
  | ClSelf (answers : list Json).

Record PlanningData := {
  pd_uxFlows : option Json;
  pd_plannedTasks : option Json;
  pd_answers : option Json;
}.

(** A story as parsed: every field is what the agent wrote, or its default. *)
Record ParsedStory := {
  ps_id : Json; ps_title : Json; ps_description : Json;
  ps_filesToModify : Json; ps_filesToCreate : Json; ps_filesToRead : Json;
  ps_acceptanceCriteria : Json;
}.

Inductive Prompt :=
  | PClarifier (pd : option PlanningData)
  | PSelfAnswer (questions : list Json)
  | PAnalyst (c : Clarifications) (pd : option PlanningData)
  | PJudge
  | PSpy (analysis : option Json) (stories : list ParsedStory)
  | PFix (issues : list Json).

Record AnalysisPhaseContext := {
  a_task : Task;
  a_projectPath : string;
  a_repositories : list RepositoryInfo;
  a_autoApprove : bool;
  a_planningData : option PlanningData;
}.

Record JudgeVerdict := { jv_verdict : Json; jv_score : Json; jv_issues : Json; jv_summary : Json }.

Record SpyResult := { sy_vulnerabilities : Json; sy_summary : Json; sy_riskLevel : Json }.

(** ** Prompts that read parsed data *)

(** [planningData?.plannedTasks && planningData.plannedTasks.length > 0] *)
Definition hasPlanned (pd : option PlanningData) : bool :=
  match pd ≫= pd_plannedTasks with Some v => truthy v && nonEmpty v | None => false end.

(** [t.description.substring(...)] on every planned task *)
Definition describable (t : Json) : bool :=
  match field "description" t with Some (JStr _) => true | _ => false end.

Definition clarifierPrintable (pd : option PlanningData) : bool :=
  if hasPlanned pd
  then match pd ≫= pd_plannedTasks with Some v => mappable describable v | None => true end
  else true.

(** The fields of a planned task and of a flow the analyst's prompt prints. *)
Definition plannedPrintable (t : Json) : bool :=
  readable t
  && match field "acceptanceCriteria" t with Some (JArr _) => true | _ => false end
  && joinable (field "affectedAreas" t) && joinable (field "dependencies" t).

Definition flowPrintable (f : Json) : bool :=
  readable f
  && (nullish (field "steps" f)
      || match field "steps" f with Some v => mappable readable v | None => false end)
  && joinable (field "edgeCases" f) && joinable (field "errorHandling" f).

Definition analystPrintable (pd : option PlanningData) : bool :=
  if hasPlanned pd then
    match pd ≫= pd_plannedTasks with Some v => mappable plannedPrintable v | None => true end
    && match pd ≫= pd_uxFlows with
       | Some v => if truthy v && nonEmpty v then mappable flowPrintable v else true
       | None => true
       end
  else true.

Definition isArray (v : Json) : bool := match v with JArr _ => true | _ => false end.

(** [s.filesToModify?.join(', ')] and [s.filesToCreate?.join(', ')] *)
Definition storiesPrintable (ss : list ParsedStory) : bool :=
  forallb (fun s => isArray (ps_filesToModify s) && isArray (ps_filesToCreate s)) ss.

Definition elements (v : Json) : list Json := match v with JArr l => l | _ => [] end.

(** ** Reading the answers *)

Section parse.
Variable parse : string -> option Json.

(** The block parsed; [null] has no fields to read. *)
Definition blockDoc (output : string) : option (option Json) :=
  match jsonBlock output with
  | Some t => Some (d ← parse t; if isNull d then None else Some d)
  | None => None
  end.

(** A raw object found with a regular expression, when there is no block. *)
Definition rawDoc (r : Regex.re) (output : string) : option (option Json) :=
  match Regex.match0 false r output with
  | Some t => Some (d ← parse t; if isNull d then None else Some d)
  | None => None
  end.

Definition extractSpyResult (output : string) : SpyResult :=
  match blockDoc output with
  | Some (Some d) =>
      {| sy_vulnerabilities := default (JArr []) (truthyField "vulnerabilities" d);
         sy_summary := default (JStr "") (truthyField "summary" d);
         sy_riskLevel := default (JStr "safe") (truthyField "riskLevel" d) |}
  | _ => {| sy_vulnerabilities := JArr []; sy_summary := JStr "Failed to parse"; sy_riskLevel := JStr "safe" |}
  end.

(** Questions and assumptions. *)
Definition parseClarifierOutput (output : string) : option (Json * Json) :=
  match blockDoc output with
  | Some (Some d) => Some (default (JArr []) (truthyField "questions" d),
                           default (JArr []) (truthyField "assumptionsIfSkipped" d))
  | _ => None
  end.

Definition selfAnswersOf (d : Json) : Json * Json :=
  (default (JArr []) (truthyField "selfAnswers" d),
   match truthyField "technicalDecisionSummary" d with
   | Some v => v
   | None => default (JStr "") (truthyField "decisionSummary" d)
   end).

Definition rawSelfAnswers : Regex.re := Eval vm_compute in rx "\{[\s\S]*?#selfAnswers#[\s\S]*\}".

Definition parseSelfAnswerOutput (output : string) : option (Json * Json) :=
  match blockDoc output with
  | Some (Some d) => Some (selfAnswersOf d)
  | Some None => None
  | None => match rawDoc rawSelfAnswers output with
            | Some (Some d) => Some (selfAnswersOf d)
            | _ => None
            end
  end.

Definition storyOf (i : nat) (s : Json) : ParsedStory :=
  {| ps_id := default (JStr ("story-" +:+ pretty (S i))) (truthyField "id" s);
     ps_title := default (JStr ("Story " +:+ pretty (S i))) (truthyField "title" s);
     ps_description := default (JStr "") (truthyField "description" s);
     ps_filesToModify := default (JArr []) (truthyField "filesToModify" s);
     ps_filesToCreate := default (JArr []) (truthyField "filesToCreate" s);
     ps_filesToRead := default (JArr []) (truthyField "filesToRead" s);
     ps_acceptanceCriteria := default (JArr []) (truthyField "acceptanceCriteria" s) |}.

Definition rawAnalysis : Regex.re :=
  Eval vm_compute in rx "\{[\s\S]*?#(?:analysis|stories)#[\s\S]*\}".

(** The analysis, which may be undefined, and the stories; a [null] story
    throws in the conversion, and the whole answer is lost. *)
Definition analysisOf (d : Json) : option (option Json * list ParsedStory) :=
  match field "stories" d with
  | Some (JArr l) =>
      if forallb readable l then Some (field "analysis" d, imap storyOf l) else None
  | _ => None
  end.

Definition parseAnalysisJSON (output : string) : option (option Json * list ParsedStory) :=
  if JsStr.truthy output then
    match blockDoc output with
    | Some o => d ← o; analysisOf d
    | None => o ← rawDoc rawAnalysis output; d ← o; analysisOf d
    end
  else None.

Definition rawVerdict : Regex.re := Eval vm_compute in rx "\{[\s\S]*?#verdict#[\s\S]*\}".

Definition defaultVerdict (summary : string) : JudgeVerdict :=
  {| jv_verdict := JStr "needs_revision"; jv_score := JNum JsNum.zero; jv_issues := JArr [];
     jv_summary := JStr summary |}.

Definition verdictOfDoc (d : Json) : JudgeVerdict :=
  {| jv_verdict := default (JStr "needs_revision") (truthyField "verdict" d);
     jv_score := default (JNum JsNum.zero) (truthyField "score" d);
     jv_issues := default (JArr []) (truthyField "issues" d);
     jv_summary := default (JStr "") (truthyField "summary" d) |}.

Definition parseJudgeVerdict (output : string) : JudgeVerdict :=
  if JsStr.truthy output then
    match blockDoc output with
    | Some (Some d) => verdictOfDoc d
    | Some None => defaultVerdict "Failed to parse judge output"
    | None => match rawDoc rawVerdict output with
              | Some (Some d) => verdictOfDoc d
              | _ => defaultVerdict "Failed to parse judge output"
              end
    end
  else defaultVerdict "No judge output received".

End parse.

Definition severityOf (v : option Json) : Severity :=
  match v with
  | Some (JStr s) =>
      if bool_decide (s = "critical") then SevCritical else if bool_decide (s = "high") then SevHigh
      else if bool_decide (s = "medium") then SevMedium else if bool_decide (s = "low") then SevLow
      else SevOther
  | _ => SevOther
  end.

Definition convertSpyVulnerabilities (taskId sid : string) (iteration : nat) (l : list Json)
    : list Vulnerability :=
  imap (fun index v =>
    {| v_id := "spy-analysis-" +:+ pretty iteration +:+ "-" +:+ pretty index;
       v_taskId := taskId; v_sessionId := sid; v_phase := "Analysis";
       v_severity := severityOf (field "severity" v); v_type := strField "type" "" v;
       v_blocked := false; v_toolUseId := None |}) l.

(** [verdict.verdict === 'approved'] *)
Definition isApprovedJ (v : Json) : bool :=
  match v with JStr s => bool_decide (s = "approved") | _ => false end.

Definition createErrorResult (e : string) : AnalysisResult :=
  {| ar_success := false; ar_sessionId := "";
     ar_analysis := {| an_summary := ""; an_approach := ""; an_risks := []; an_vulnerabilities := [] |};
     ar_stories := []; ar_branchName := ""; ar_error := Some e |}.

(** ** The phase *)

Section phase.
Context {E : Type} `{!AgentEnv Prompt E}.
Variable now : Z.
Variable c : AnalysisPhaseContext.

Abbreviation M := (JsM (W Prompt E)).
Abbreviation tid := (t_id (a_task c)).

(** [verdict.score >= 50], with the language's coercion *)
Definition scoreOk (v : Json) : bool :=
  SpecFloat.SFleb (JsNum.ofZ 50) (match v with JNum n => n | _ => toNumber Prompt E v end).

(** The branch: created, or checked out when that fails. *)
Definition branch (dir : string) : M (string + string) :=
  Js.try_catch
    (b ← call (fun _ => ACreateBranch dir) (createBranch tid dir); mret (inl b))
    (fun e =>
       let name := "task/" +:+ tid in
       Js.try_catch
         (call (fun _ => ACheckout dir name) (checkout dir name);; mret (inl name))
         (fun _ => mret (inr ("Failed to create/checkout branch: " +:+ e)))).

(** [assumptionsIfSkipped.map(...)] *)
Definition assumed (assumptions : Json) : M Clarifications :=
  check (isArray assumptions) "assumptionsIfSkipped.map is not a function";;
  mret (ClAssumed (elements assumptions)).

(** Autopilot: the agent answers its own questions. *)
Definition selfAnswer (sid : string) (questions assumptions : Json) : M Clarifications :=
  step now tid 2 "SELF_ANSWERER";;
  emit (EvAgent "SELF_ANSWERER" None);;
  check (mappable readable questions) "questions.map";;
  es ← ask sid (PSelfAnswer (elements questions));
  match parseSelfAnswerOutput (jsonParse Prompt E) (lastText es) with
  | Some (answers, _) =>
      if nonEmpty answers then
        check (mappable readable answers) "selfAnswers.map";;
        emit (EvClarification "self-answered");;
        mret (ClSelf (elements answers))
      else assumed assumptions
  | None => assumed assumptions
  end.

(** Manual mode: the user answers, or the assumptions are used. *)
Definition askUser (assumptions : Json) : M Clarifications :=
  Js.try_catch
    (r ← approval tid "clarification";
     match ApprovalService.action r, JsStr.orNull (ApprovalService.feedback r) with
     | ApprovalService.Approve, Some text =>
         emit (EvClarification "received");; mret (ClUser text)
     | _, _ =>
         a ← assumed assumptions;
         emit (EvClarification "skipped");; mret a
     end)
    (fun _ => assumed assumptions).

(** STEP 2.5 *)
Definition clarify (sid : string) : M Clarifications :=
  step now tid 1 "CLARIFIER";;
  emit (EvAgent "CLARIFIER" None);;
  check (clarifierPrintable (a_planningData c)) "t.description.substring";;
  es ← ask sid (PClarifier (a_planningData c));
  match parseClarifierOutput (jsonParse Prompt E) (lastText es) with
  | Some (questions, assumptions) =>
      if nonEmpty questions then
        if a_autoApprove c then selfAnswer sid questions assumptions else askUser assumptions
      else mret ClNone
  | None => mret ClNone
  end.

(** What the loop carries: the last analysis and stories, the findings. *)
Record LoopState := {
  l_analysis : option Json;
  l_stories : list ParsedStory;
  l_vulnerabilities : list Vulnerability;
}.

Definition startLoop : LoopState := {| l_analysis := None; l_stories := []; l_vulnerabilities := [] |}.

Definition analyst (sid : string) (cl : Clarifications) (k : nat) (st : LoopState)
    : M (option Json * list ParsedStory) :=
  (if k =? 1 then
     step now tid 3 "ANALYST";;
     emit (EvAgent "ANALYST" (Some k));;
     check (analystPrintable (a_planningData c)) "planned tasks";;
     prompt sid (PAnalyst cl (a_planningData c))
   else mret tt);;
  es ← wait sid;
  let r := match parseAnalysisJSON (jsonParse Prompt E) (lastText es) with
           | Some r => r
           | None => (l_analysis st, l_stories st)
           end in
  emit (EvIteration "analyst" k);;
  mret r.

Definition judge (sid : string) (k : nat) : M JudgeVerdict :=
  step now tid 4 "JUDGE";;
  emit (EvAgent "JUDGE" (Some k));;
  es ← ask sid PJudge;
  let v := parseJudgeVerdict (jsonParse Prompt E) (lastText es) in
  emit (EvVerdict k (jv_verdict v) (jv_score v));;
  mret v.

Definition spy (sid : string) (k : nat) (a : option Json) (ss : list ParsedStory) : M (list Vulnerability) :=
  step now tid 5 "SPY";;
  emit (EvAgent "SPY" (Some k));;
  check (storiesPrintable ss) "filesToModify.join is not a function";;
  es ← ask sid (PSpy a ss);
  let r := extractSpyResult (jsonParse Prompt E) (lastText es) in
  check (mappable readable (sy_vulnerabilities r)) "vulnerabilities.map";;
  emit (EvIteration "spy" k);;
  mret (convertSpyVulnerabilities tid sid k (elements (sy_vulnerabilities r))).

Definition maxIterations : nat := 3.

Definition syntheticIssue : Json :=
  JObj [("severity", JStr "critical"); ("description", JStr "The analysis did not produce valid stories");
        ("suggestion", JStr "Please analyze the task again and break it down into specific, implementable stories with clear acceptance criteria")].

(** The end of an iteration: approved, or not, after a FIX prompt whose answer
    the next iteration waits for. *)
Definition decide_ (sid : string) (k : nat) (v : JudgeVerdict) (ss : list ParsedStory) : M bool :=
  if isApprovedJ (jv_verdict v) then mret true
  else if nonEmpty (jv_issues v) then
    step now tid 5 "FIXER";;
    emit (EvAgent "FIXER" (Some k));;
    check (issuesPrintable (jv_issues v)) "issue.severity.toUpperCase";;
    prompt sid (PFix (elements (jv_issues v)));;
    mret false
  else if negb (bool_decide (length ss = 0)) && scoreOk (jv_score v) then mret true
  else if k <? maxIterations then
    emit (EvAgent "FIXER" (Some k));;
    prompt sid (PFix [syntheticIssue]);;
    mret false
  else mret false.

(** STEP 3: the iterations; [k] have been made. *)
Fixpoint analysisLoop (sid : string) (cl : Clarifications) (fuel k : nat) (st : LoopState)
    : M (bool * LoopState) :=
  match fuel with
  | 0 => mret (false, st)
  | S fuel' =>
      let k' := S k in
      r ← analyst sid cl k' st;
      v ← judge sid k';
      vs ← spy sid k' r.1 r.2;
      let st' := {| l_analysis := r.1; l_stories := r.2; l_vulnerabilities := l_vulnerabilities st ++ vs |} in
      decide_ sid k' v r.2 ≫= fun ok : bool =>
      if ok then mret (true, st') else analysisLoop sid cl fuel' k' st'
  end.

(** ** The typed view of what was parsed *)

Definition textOf (v : Json) : string := match v with JStr s => s | _ => toText Prompt E v end.

Definition textsOf (v : Json) : list string :=
  match v with JArr l => textOf <$> l | _ => [textOf v] end.

Definition asStory (s : ParsedStory) : Story :=
  {| s_id := textOf (ps_id s); s_title := textOf (ps_title s); s_description := textOf (ps_description s);
     s_status := StoryPending; s_filesToModify := Some (textsOf (ps_filesToModify s));
     s_filesToCreate := Some (textsOf (ps_filesToCreate s));
     s_filesToRead := Some (textsOf (ps_filesToRead s));
     s_acceptanceCriteria := Some (textsOf (ps_acceptanceCriteria s)) |}.

(** [analysisData?.summary || ''], [... .risks || []] *)
Definition asAnalysis (a : option Json) (vs : list Vulnerability) : AnalysisData :=
  {| an_summary := default "" (textOf <$> optTruthy "summary" a);
     an_approach := default "" (textOf <$> optTruthy "approach" a);
     an_risks := default [] (textsOf <$> optTruthy "risks" a); an_vulnerabilities := vs |}.

(** A story of the result: no verdict yet, no vulnerabilities. *)
Definition storyV2 (s : Story) : StoryResult :=
  {| sr_id := s_id s; sr_title := s_title s; sr_description := s_description s;
     sr_status := s_status s; sr_filesToModify := s_filesToModify s;
     sr_filesToCreate := s_filesToCreate s; sr_filesToRead := s_filesToRead s;
     sr_acceptanceCriteria := s_acceptanceCriteria s; sr_iterations := 0;
     sr_verdict := VNeedsRevision; sr_score := None; sr_issues := None; sr_commitHash := None;
     sr_vulnerabilities := [] |}.

Definition isTruthy (v : option Json) : bool := match v with Some v => truthy v | None => false end.

Definition nl : string := String "010"%char EmptyString.

(** [`${v}`] on a value that may be undefined *)
Definition shown (v : option Json) : string := match v with Some v => textOf v | None => "undefined" end.

Definition branchDescription (a : option Json) : string :=
  "# " +:+ t_title (a_task c) +:+ nl +:+ nl +:+ "## Summary" +:+ nl +:+ shown (optField "summary" a)
  +:+ nl +:+ nl +:+ "## Approach" +:+ nl +:+ shown (optField "approach" a)
  +:+ nl +:+ nl +:+ "## Risks" +:+ nl
  +:+ default "None identified"
        (v ← optField "risks" a;
         JsStr.orNull (Some (String.concat nl ((fun r => "- " +:+ textOf r) <$> elements v)))).

(** STEP 4: [analysisData.risks?.map(...)] *)
Definition describe (dir : string) (a : option Json) : M unit :=
  if isTruthy a then
    check (nullish (optField "risks" a) || match optField "risks" a with Some v => isArray v | None => false end)
      "analysisData.risks.map is not a function";;
    attempt (call (fun _ => ADescription dir) (setBranchDescription dir (branchDescription a)));;
    mret tt
  else mret tt.

(** STEPS 5 and 6: commit, close the session, store. *)
Definition conclude (dir sid branchName : string) (approved : bool) (st : LoopState) : M unit :=
  ch ← call (fun _ => AHasChanges dir) (hasChanges dir);
  let message := "[Analysis] " +:+ t_title (a_task c) +:+ nl +:+ nl +:+ "Generated "
                 +:+ pretty (length (l_stories st)) +:+ " stories." in
  (if ch : bool then call (fun _ => ACommit dir message) (commitAndPush dir message) else mret tt);;
  onSessions (updateSessionStatus now sid SCompleted);;
  record (AUnregister sid);;
  (if approved && isTruthy (l_analysis st) then
     onTasks (updateAfterAnalysis now tid branchName (asAnalysis (l_analysis st) [])
                (asStory <$> l_stories st))
   else mret tt).

Definition workingDirectory : string :=
  Orchestrator.determineWorkingDirectory (a_repositories c) (a_projectPath c).

(** Everything from the branch on. *)
Definition analyse (rowId dir branchName : string) : M AnalysisResult :=
  emit (EvStart "Analysis" (Some branchName));;
  sid ← openSession now rowId ("Analysis: " +:+ t_title (a_task c)) tid (a_projectPath c) "Analysis"
          (if a_autoApprove c then MAll else MManual);
  emit (EvSession sid "Analysis");;
  cl ← clarify sid;
  r ← analysisLoop sid cl maxIterations 0 startLoop;
  describe dir (l_analysis r.2);;
  conclude dir sid branchName r.1 r.2;;
  emit (EvComplete "Analysis" r.1);;
  mret {| ar_success := r.1; ar_sessionId := sid;
          ar_analysis := asAnalysis (l_analysis r.2) (l_vulnerabilities r.2);
          ar_stories := storyV2 ∘ asStory <$> l_stories r.2; ar_branchName := branchName;
          ar_error := None |}.

Definition executeAnalysisPhase (rowId : string) : M AnalysisResult :=
  b ← branch workingDirectory;
  match b with
  | inr e => mret (createErrorResult e)
  | inl name => analyse rowId workingDirectory name
  end.

End phase.
End AnalysisPhase.
