(* ===== verification/AnalysisPhaseProofs.v ===== *)
(** * Theorems on the analysis phase

    What is stored and when; the number of prompts; that in autopilot nobody is
    asked; and the law the orchestrator needs of the phase. *)

From S2P Require Import Prelude JsNumber Json Regex Approval Sessions TaskTypes TaskRepository Orchestrator AgentPhase AnalysisPhase.
From stdpp Require Import options.

Module AnalysisSpec.
Import Json TaskRepository AgentPhase AnalysisPhase.

Section phase.
Context {E : Type} `{!AgentEnv Prompt E}.
Variable now : Z.
Variable c : AnalysisPhaseContext.

(** ** The rows of the task table *)

Lemma rows_branch dir : keeps (E := E) rowsStay (branch c dir).
Proof. unfold branch. rows_steps. Qed.

Lemma rows_assumed a : keeps (E := E) rowsStay (assumed a).
Proof. unfold assumed. rows_steps. Qed.

#[local] Hint Resolve rows_assumed : rows.

Lemma rows_clarification sid : keeps (E := E) rowsStay (clarify now c sid).
Proof. unfold clarify, selfAnswer, askUser. rows_steps. Qed.

Lemma rows_analyst sid cl k st : keeps (E := E) rowsStay (analyst now c sid cl k st).
Proof. unfold analyst. rows_steps. Qed.

Lemma rows_judge sid k : keeps (E := E) rowsStay (judge now c sid k).
Proof. unfold judge. rows_steps. Qed.

Lemma rows_spy sid k a ss : keeps (E := E) rowsStay (spy now c sid k a ss).
Proof. unfold spy. rows_steps. Qed.

Lemma rows_decide sid k v ss : keeps (E := E) rowsStay (decide_ now c sid k v ss).
Proof. unfold decide_. rows_steps. Qed.

#[local] Hint Resolve rows_clarification rows_analyst rows_judge rows_spy rows_decide : rows.

Lemma rows_loop sid cl fuel k st : keeps (E := E) rowsStay (analysisLoop now c sid cl fuel k st).
Proof. revert k st. induction fuel as [|fuel IH]; intros k st; simpl; rows_steps. Qed.

#[local] Hint Resolve rows_loop : rows.

Lemma rows_describe dir a : keeps (E := E) rowsStay (describe c dir a).
Proof. unfold describe. rows_steps. Qed.

Lemma rows_conclude dir sid b ok st : keeps (E := E) rowsStay (conclude now c dir sid b ok st).
Proof. unfold conclude. rows_steps; apply rowsStay_updateRow. Qed.

#[local] Hint Resolve rows_branch rows_describe rows_conclude : rows.

Lemma rows_openSession rowId t i p ph m :
  keeps (E := E) (P := Prompt) rowsStay (openSession now rowId t i p ph m).
Proof. unfold openSession. rows_steps. Qed.

#[local] Hint Resolve rows_openSession : rows.

Lemma rows_execute rowId : keeps (E := E) rowsStay (executeAnalysisPhase now c rowId).
Proof. unfold executeAnalysisPhase, analyse. rows_steps. Qed.

(** ** The columns an analysis fills *)

Definition filled (r : TaskRow) : option string * option AnalysisData * option (list Story) :=
  (branch_name r, analysis r, stories r).

Lemma view_branch dir : keeps (E := E) (sameView filled) (branch c dir).
Proof. unfold branch. view_steps. Qed.

Lemma view_assumed a : keeps (E := E) (sameView filled) (assumed a).
Proof. unfold assumed. view_steps. Qed.

#[local] Hint Resolve view_assumed : view.

Lemma view_clarify sid : keeps (E := E) (sameView filled) (clarify now c sid).
Proof. unfold clarify, selfAnswer, askUser. view_steps. Qed.

Lemma view_loop sid cl fuel k st : keeps (E := E) (sameView filled) (analysisLoop now c sid cl fuel k st).
Proof.
  revert k st. induction fuel as [|fuel IH]; intros k st; simpl; [apply keeps_ret, _|].
  unfold analyst, judge, spy, decide_. view_steps.
Qed.

Lemma view_describe dir a : keeps (E := E) (sameView filled) (describe c dir a).
Proof. unfold describe. view_steps. Qed.

Lemma view_openSession rowId t i p ph m :
  keeps (E := E) (P := Prompt) (sameView filled) (openSession now rowId t i p ph m).
Proof. unfold openSession. view_steps. Qed.

(** The last step: what [conclude] leaves in the rows. *)
Lemma conclude_view dir sid b ok st w w' :
  conclude (E := E) now c dir sid b ok st w = (Ok tt, w') ->
  forall i, filled <$> tasks w' !! i =
    if ok && isTruthy (l_analysis st) && bool_decide (i = t_id (a_task c))
    then (fun _ => (Some b, Some (asAnalysis (E := E) (l_analysis st) []), Some (asStory (E := E) <$> l_stories st)))
           <$> tasks w !! i
    else filled <$> tasks w !! i.
Proof.
  unfold conclude. intros H i.
  apply Js.bind_inv in H as (ch & w1 & H1 & H). apply Js.bind_inv in H as ([] & w2 & H2 & H).
  apply Js.bind_inv in H as ([] & w3 & H3 & H). apply Js.bind_inv in H as ([] & w4 & H4 & H).
  assert (sameView filled w w4) as Hv.
  { assert (sameView filled w w1) as V1 by (change w1 with ((Ok ch, w1).2); rewrite <- H1; apply sameView_call).
    assert (sameView filled w1 w2) as V2.
    { change w2 with ((Ok tt, w2).2). rewrite <- H2. destruct ch; [apply sameView_call|apply keeps_ret, _]. }
    assert (sameView filled w2 w3) as V3 by (change w3 with ((Ok tt, w3).2); rewrite <- H3; apply sameView_onSessions).
    assert (sameView filled w3 w4) as V4 by (change w4 with ((Ok tt, w4).2); rewrite <- H4; apply sameView_record).
    etrans; [exact V1|]. etrans; [exact V2|]. by etrans. }
  destruct (ok && isTruthy (l_analysis st)); simpl; [|injection H as <-; apply Hv].
  injection H as <-. cbn [tasks]. unfold updateAfterAnalysis, updateRow. case_bool_decide as Hi.
  - subst i. rewrite lookup_alter_eq. specialize (Hv (t_id (a_task c))).
    destruct (tasks w4 !! t_id (a_task c)), (tasks w !! t_id (a_task c)); naive_solver.
  - rewrite lookup_alter_ne by done. apply Hv.
Qed.

Lemma view_of {A} (m : JsM (W Prompt E) A) w (a : A) w' :
  keeps (sameView filled) m -> m w = (Ok a, w') -> sameView filled w w'.
Proof. intros Hm H. specialize (Hm w). by rewrite H in Hm. Qed.

(** The work of the agents: everything from the start event to the end of the
    iterations. *)
Definition iterations (rowId b : string) : JsM (W Prompt E) (string * (bool * LoopState)) :=
  emit (EvStart "Analysis" (Some b));;
  sid ← openSession now rowId ("Analysis: " +:+ t_title (a_task c)) (t_id (a_task c)) (a_projectPath c) "Analysis"
          (if a_autoApprove c then SessionRepository.MAll else SessionRepository.MManual);
  emit (EvSession sid "Analysis");;
  cl ← clarify now c sid;
  r ← analysisLoop now c sid cl maxIterations 0 startLoop;
  mret (sid, r).

Lemma analyse_view rowId dir b w r w' :
  analyse (E := E) now c rowId dir b w = (Ok r, w') ->
  exists ok st w1, iterations rowId b w = (Ok (ar_sessionId r, (ok, st)), w1)
    /\ ar_success r = ok /\ ar_branchName r = b
    /\ ar_stories r = storyV2 ∘ asStory (E := E) <$> l_stories st
    /\ ar_analysis r = asAnalysis (E := E) (l_analysis st) (l_vulnerabilities st)
    /\ forall i, filled <$> tasks w' !! i =
         if ok && isTruthy (l_analysis st) && bool_decide (i = t_id (a_task c))
         then (fun _ => (Some b, Some (asAnalysis (E := E) (l_analysis st) []),
                         Some (asStory (E := E) <$> l_stories st))) <$> tasks w !! i
         else filled <$> tasks w !! i.
Proof.
  unfold analyse. intros H.
  apply Js.bind_inv in H as ([] & w1 & H1 & H). apply Js.bind_inv in H as (sid & w2 & H2 & H).
  apply Js.bind_inv in H as ([] & w3 & H3 & H). apply Js.bind_inv in H as (cl & w4 & H4 & H).
  apply Js.bind_inv in H as ([ok st] & w5 & H5 & H). apply Js.bind_inv in H as ([] & w6 & H6 & H).
  apply Js.bind_inv in H as ([] & w7 & H7 & H). apply Js.bind_inv in H as ([] & w8 & H8 & H).
  injection H as <- <-. exists ok, st, w5. split_and!; try done.
  { unfold iterations. rewrite (Js.bind_ok _ _ _ _ _ H1), (Js.bind_ok _ _ _ _ _ H2), (Js.bind_ok _ _ _ _ _ H3),
      (Js.bind_ok _ _ _ _ _ H4), (Js.bind_ok _ _ _ _ _ H5). reflexivity. }
  intros i.
  assert (sameView filled w w6) as Hv.
  { apply (view_of _ _ _ _ (sameView_record filled _)) in H1.
    apply (view_of _ _ _ _ (view_openSession _ _ _ _ _ _)) in H2.
    apply (view_of _ _ _ _ (sameView_record filled _)) in H3.
    apply (view_of _ _ _ _ (view_clarify _)) in H4.
    apply (view_of _ _ _ _ (view_loop _ _ _ _ _)) in H5.
    apply (view_of _ _ _ _ (view_describe _ _)) in H6.
    etrans; [exact H1|]. etrans; [exact H2|]. etrans; [exact H3|]. etrans; [exact H4|]. by etrans. }
  injection H8 as <-. cbn [tasks]. rewrite (conclude_view _ _ _ _ _ _ _ H7). cbn [fst snd].
  specialize (Hv i). destruct (ok && _ && _); [|exact Hv].
  destruct (tasks w6 !! i), (tasks w !! i); naive_solver.
Qed.

(** ** The judge *)

(** The reasons for which an analysis is accepted. *)
Definition judgedOk (l : list (Act Prompt)) (ss : list ParsedStory) : Prop :=
  exists k v score, AEvent (EvVerdict k v score) ∈ l
    /\ (isApprovedJ v = true \/ ss <> [] /\ scoreOk (E := E) score = true).

Lemma spec_true {A} (m : JsM (W Prompt E) A) R : acts R m -> spec m (fun _ _ => True).
Proof. intros Hm. eapply spec_weaken; [exact Hm|done]. Qed.

Lemma acts_any {A} (m : JsM (W Prompt E) A) : acts (fun _ => True) m -> spec m (fun _ _ => True).
Proof. apply spec_true. Qed.

Lemma any_analyst sid cl k st : acts (E := E) (fun _ => True) (analyst now c sid cl k st).
Proof. unfold analyst. acts_steps. Qed.

Lemma any_spy sid k a ss : acts (E := E) (fun _ => True) (spy now c sid k a ss).
Proof. unfold spy. acts_steps. Qed.

Lemma any_clarification sid : acts (E := E) (fun _ => True) (clarify now c sid).
Proof. unfold clarify, selfAnswer, askUser, assumed. acts_steps. Qed.

Lemma spec_judge sid k :
  spec (judge (E := E) now c sid k) (fun l r =>
    match r with Ok v => AEvent (EvVerdict k (jv_verdict v) (jv_score v)) ∈ l | Throw _ => True end).
Proof.
  unfold judge.
  apply (spec_bind _ _ (fun _ _ => True)); [apply acts_any; eauto with acts|done|]. intros l1 [] _.
  apply (spec_bind _ _ (fun _ _ => True)); [apply acts_any; eauto with acts|done|]. intros l2 [] _.
  apply (spec_bind _ _ (fun _ _ => True)); [apply acts_any; acts_steps|done|]. intros l3 es _.
  cbv zeta. set (v := parseJudgeVerdict _ _).
  apply (spec_bind _ _ (fun l _ => l = [AEvent (EvVerdict k (jv_verdict v) (jv_score v))])).
  { intros w. eexists. split; [reflexivity|done]. }
  { done. }
  intros l4 [] ->. apply spec_ret. rewrite !elem_of_app. do 3 right. left. apply list_elem_of_here.
Qed.

Lemma spec_decide sid k v ss :
  spec (decide_ (E := E) now c sid k v ss) (fun _ r =>
    r = Ok true -> isApprovedJ (jv_verdict v) = true \/ ss <> [] /\ scoreOk (E := E) (jv_score v) = true).
Proof.
  unfold decide_. destruct (isApprovedJ (jv_verdict v)) eqn:Ha; [apply spec_ret; auto|].
  assert (forall m : JsM (W Prompt E) unit, acts (fun _ => True) m ->
    spec (m;; mret false) (fun _ r => r = Ok true -> false = true \/ ss <> [] /\ scoreOk (E := E) (jv_score v) = true)) as Hf.
  { intros m Hm. eapply spec_bind; [exact Hm|done|]. intros l [] _. by apply spec_ret. }
  destruct (nonEmpty (jv_issues v)).
  { intros w. rewrite <- !Js.bind_assoc. revert w. apply Hf. acts_steps. }
  destruct (negb _ && _) eqn:Hs.
  { apply spec_ret. intros _. right. apply andb_true_iff in Hs as [H1 H2].
    apply negb_true_iff, bool_decide_eq_false in H1. by destruct ss. }
  destruct (k <? maxIterations); [|by apply spec_ret].
  intros w. rewrite <- !Js.bind_assoc. revert w. apply Hf. acts_steps.
Qed.

Lemma spec_loop sid cl fuel k st :
  spec (analysisLoop (E := E) now c sid cl fuel k st) (fun l r =>
    match r with Ok (true, st') => judgedOk l (l_stories st') | _ => True end).
Proof.
  revert k st. induction fuel as [|fuel IH]; intros k st; simpl; [by apply spec_ret|].
  apply (spec_bind _ _ (fun _ _ => True)); [apply acts_any, any_analyst|done|]. intros l1 r _.
  eapply spec_bind; [apply spec_judge|done|]. intros l2 v Hv.
  apply (spec_bind _ _ (fun _ _ => True)); [apply acts_any, any_spy|done|]. intros l3 vs _.
  eapply spec_bind; [apply spec_decide|done|]. intros l4 ok Hok. destruct ok.
  - apply spec_ret. simpl. exists (S k), (jv_verdict v), (jv_score v). split; [|auto]. set_solver.
  - eapply spec_weaken; [apply IH|]. simpl. intros l5 o Ho. destruct o as [[[] st']|]; try done.
    destruct Ho as (k' & v' & s' & Hin & H). exists k', v', s'. split; [|done]. set_solver.
Qed.

Lemma spec_analyse rowId dir b :
  spec (analyse (E := E) now c rowId dir b) (fun l r =>
    match r with
    | Ok r => ar_success r = true -> exists ss,
        ar_stories r = storyV2 ∘ asStory (E := E) <$> ss /\ judgedOk l ss
    | Throw _ => True
    end).
Proof.
  unfold analyse, openSession, describe, conclude.
  apply (spec_bind _ _ (fun _ _ => True)); [apply acts_any; acts_steps|done|]. intros l1 [] _.
  apply (spec_bind _ _ (fun _ _ => True)); [apply acts_any; acts_steps|done|]. intros l2 sid _.
  apply (spec_bind _ _ (fun _ _ => True)); [apply acts_any; acts_steps|done|]. intros l3 [] _.
  apply (spec_bind _ _ (fun _ _ => True)); [apply acts_any, any_clarification|done|]. intros l4 cl _.
  eapply spec_bind; [apply spec_loop|done|]. intros l5 [ok st] Hloop. cbn [fst snd].
  apply (spec_bind _ _ (fun _ _ => True)); [apply acts_any; acts_steps|done|]. intros l6 [] _.
  apply (spec_bind _ _ (fun _ _ => True)); [apply acts_any; acts_steps|done|]. intros l7 [] _.
  apply (spec_bind _ _ (fun _ _ => True)); [apply acts_any; acts_steps|done|]. intros l8 [] _.
  apply spec_ret. cbn [ar_success ar_stories]. intros ->. exists (l_stories st). split; [done|].
  destruct Hloop as (k & v & s & Hin & H). exists k, v, s. split; [|done]. set_solver.
Qed.

(** ** Prompts and questions *)

Lemma costs_assumed a : costs (E := E) promptWeight 0 (assumed a).
Proof. unfold assumed. skip_free. apply costs_ret. Qed.

Lemma costs_clarification sid : costs (E := E) promptWeight 2 (clarify now c sid).
Proof.
  unfold clarify. skip_free. apply (costs_bind _ 1 1); [apply costs_ask|]. intros es.
  destruct (parseClarifierOutput _ _) as [[q a]|]; [|eapply costs_weaken; [apply costs_ret|lia]].
  destruct (nonEmpty q); [|eapply costs_weaken; [apply costs_ret|lia]]. destruct (a_autoApprove c).
  - unfold selfAnswer. skip_free. apply (costs_bind _ 1 0); [apply costs_ask|]. intros es'.
    destruct (parseSelfAnswerOutput _ _) as [[an ?]|]; [|apply costs_assumed].
    destruct (nonEmpty an); [|apply costs_assumed]. skip_free. apply costs_ret.
  - eapply costs_weaken; [apply (costs_try _ 0 0)|lia]; [|intros; apply costs_assumed].
    apply (costs_bind _ 0 0); [by apply costs_call|]. intros r. destruct (ApprovalService.action r), (JsStr.orNull (ApprovalService.feedback r));
      try (apply (costs_bind _ 0 0); [apply costs_assumed|intros]); skip_free; apply costs_ret.
Qed.

Lemma costs_analyst sid cl k st :
  costs (E := E) promptWeight (if k =? 1 then 1 else 0) (analyst now c sid cl k st).
Proof.
  unfold analyst. rewrite <- (Nat.add_0_r (if k =? 1 then 1 else 0)). apply costs_bind.
  - destruct (k =? 1); [|apply costs_ret]. skip_free. apply costs_prompt.
  - intros []. apply (costs_bind _ 0 0); [by apply costs_call|]. intros es. cbv zeta. skip_free. apply costs_ret.
Qed.

Lemma costs_judge sid k : costs (E := E) promptWeight 1 (judge now c sid k).
Proof.
  unfold judge. skip_free. apply (costs_bind _ 1 0); [apply costs_ask|]. intros es. cbv zeta. skip_free. apply costs_ret.
Qed.

Lemma costs_spy sid k a ss : costs (E := E) promptWeight 1 (spy now c sid k a ss).
Proof.
  unfold spy. skip_free. apply (costs_bind _ 1 0); [apply costs_ask|]. intros es. cbv zeta. skip_free. apply costs_ret.
Qed.

Lemma costs_decide sid k v ss : costs (E := E) promptWeight 1 (decide_ now c sid k v ss).
Proof.
  unfold decide_. repeat case_match; try (eapply costs_weaken; [apply costs_ret|lia]); skip_free;
    (apply (costs_bind _ 1 0); [apply costs_prompt|]; intros []; apply costs_ret).
Qed.

Lemma costs_loop sid cl fuel k st :
  costs (E := E) promptWeight ((if k =? 0 then 1 else 0) + 3 * fuel) (analysisLoop now c sid cl fuel k st).
Proof.
  revert k st. induction fuel as [|fuel IH]; intros k st; [eapply costs_weaken; [apply costs_ret|lia]|].
  cbn [analysisLoop]. cbv zeta. eapply costs_weaken.
  - eapply costs_bind; [apply costs_analyst|]. intros r. eapply costs_bind; [apply costs_judge|]. intros v.
    eapply costs_bind; [apply costs_spy|]. intros vs. eapply costs_bind; [apply costs_decide|]. intros [].
    + eapply costs_weaken; [apply costs_ret|]. apply (Nat.le_0_l (3 * fuel)).
    + eapply costs_weaken; [apply IH|]. simpl. lia.
  - destruct k as [|[|k]]; simpl; lia.
Qed.

Lemma costs_rest dir sid b ok st a :
  costs (E := E) promptWeight 0 (describe c dir a;; conclude now c dir sid b ok st).
Proof.
  apply costs_acts. apply acts_bind; [|intros []].
  - unfold describe. case_match; [|apply acts_ret]. apply acts_bind; [apply acts_check|intros []].
    apply acts_bind; [by apply acts_attempt, acts_call|intros; apply acts_ret].
  - unfold conclude. apply acts_bind; [by apply acts_call|]. intros ch. cbv zeta.
    apply acts_bind; [destruct ch; [by apply acts_call|apply acts_ret]|intros []].
    apply acts_bind; [apply acts_onSessions|intros []]. apply acts_bind; [by apply acts_record|intros []].
    case_match; [apply acts_onTasks|apply acts_ret].
Qed.

Lemma costs_execute rowId : costs (E := E) promptWeight 12 (executeAnalysisPhase now c rowId).
Proof.
  unfold executeAnalysisPhase. apply (costs_bind _ 0 12).
  { apply costs_acts. unfold branch. apply acts_try.
    - apply acts_bind; [by apply acts_call|intros; apply acts_ret].
    - intros e. apply acts_try; [|intros; apply acts_ret].
      apply acts_bind; [by apply acts_call|intros; apply acts_ret]. }
  intros [name|e]; [|eapply costs_weaken; [apply costs_ret|lia]]. unfold analyse. skip_free.
  apply (costs_bind _ 0 12).
  { unfold openSession. apply (costs_bind _ 0 0); [by apply costs_call|]. intros. skip_free. apply costs_ret. }
  intros sid. skip_free. apply (costs_bind _ 2 10); [apply costs_clarification|]. intros cl.
  apply (costs_bind _ 10 0); [apply (costs_loop sid cl maxIterations 0)|]. intros r.
  intros w. rewrite <- Js.bind_assoc. revert w.
  apply (costs_bind _ 0 0); [apply costs_rest|]. intros []. skip_free. apply costs_ret.
Qed.

(** No question to the user. *)
Definition notAsked (a : Act Prompt) : Prop := match a with AApproval _ _ => False | _ => True end.

Lemma notAsked_loop sid cl fuel k st : acts (E := E) notAsked (analysisLoop now c sid cl fuel k st).
Proof.
  revert k st. induction fuel as [|fuel IH]; intros k st; cbn [analysisLoop]; [apply acts_ret|].
  unfold analyst, judge, spy, decide_. acts_steps.
Qed.

Lemma notAsked_execute rowId :
  a_autoApprove c = true -> acts (E := E) notAsked (executeAnalysisPhase now c rowId).
Proof.
  intros Ha. unfold executeAnalysisPhase, branch, analyse, openSession, clarify, selfAnswer, assumed, describe, conclude.
  rewrite Ha. pose proof notAsked_loop. acts_steps.
Qed.

End phase.

(** C25: What an analysis that returns leaves in the database. When the branch
    could not be had, the result is the error and the branch, analysis and
    stories of no task change. Otherwise let [st] be what the iterations of the
    agents end with, and [ok] whether they accepted it: the result reports
    [ok], the branch, the analysis and stories of [st]; the task row gets
    exactly that branch, analysis and stories if it was accepted and the answer
    had an analysis object, and keeps its columns otherwise; no other row
    changes in these columns. Accepted means that the judge said approved, or
    that there were stories and a score of at least 50. *)
Theorem analysis_stored_iff_approved {E} `{!AgentEnv Prompt E} now c rowId w r w' :
  executeAnalysisPhase (E := E) now c rowId w = (Ok r, w') ->
  match branch (E := E) c (workingDirectory c) w with
  | (Ok (inl b), w1) =>
      exists ok st w2 l, iterations (E := E) now c rowId b w1 = (Ok (ar_sessionId r, (ok, st)), w2)
      /\ ar_success r = ok /\ ar_branchName r = b
      /\ ar_stories r = storyV2 ∘ asStory (E := E) <$> l_stories st
      /\ ar_analysis r = asAnalysis (E := E) (l_analysis st) (l_vulnerabilities st)
      /\ (forall i, filled <$> tasks w' !! i =
           if ok && isTruthy (l_analysis st) && bool_decide (i = t_id (a_task c))
           then (fun _ => (Some b, Some (asAnalysis (E := E) (l_analysis st) []),
                           Some (asStory (E := E) <$> l_stories st))) <$> tasks w !! i
           else filled <$> tasks w !! i)
      /\ trace w' = trace w ++ l /\ (ok = true -> judgedOk (E := E) l (l_stories st))
  | (Ok (inr e), _) => r = createErrorResult e /\ forall i, filled <$> tasks w' !! i = filled <$> tasks w !! i
  | (Throw _, _) => False
  end.
Proof.
  intros H. unfold executeAnalysisPhase in H. apply Js.bind_inv in H as (b & w1 & H1 & H). rewrite H1.
  pose proof (view_of _ _ _ _ (view_branch c _) H1) as Hv.
  assert (spec (branch (E := E) c (workingDirectory c)) (fun _ _ => True)) as Hb.
  { apply acts_any. unfold branch. acts_steps. }
  destruct (Hb w) as (l1 & Hl1 & _). rewrite H1 in Hl1. simpl in Hl1. destruct b as [name|e].
  - destruct (analyse_view _ _ _ _ _ _ _ _ H) as (ok & st & w2 & Hit & Hok & Hbr & Hss & Han & Hcols).
    destruct (spec_analyse now c rowId (workingDirectory c) name w1) as (l2 & Hl2 & Hj).
    rewrite H in Hl2, Hj. simpl in *.
    exists ok, st, w2, (l1 ++ l2). split_and!; try done; [|by rewrite Hl2, Hl1, app_assoc|].
    + intros i. rewrite Hcols. specialize (Hv i). destruct (_ && _ && _); [|exact Hv].
      destruct (tasks w1 !! i), (tasks w !! i); naive_solver.
    + intros ->. destruct (Hj Hok) as (ss' & Hss' & k & v & s & Hin & Hor).
      exists k, v, s. split; [set_solver|]. destruct Hor as [?|[Hne ?]]; [by left|right]. split; [|done].
      intros Hnil. rewrite Hnil in Hss. rewrite Hss in Hss'. destruct ss'; [done|discriminate].
  - injection H as <- <-. split; [done|exact Hv].
Qed.

(** An analysis sends at most twelve prompts whatever the agents answer (two
    for the questions, one to the analyst, three iterations of judge, spy and
    fix), and with automatic approval, which is how the orchestrator always
    calls it, it never asks the user anything. *)
Theorem analysis_bounded_and_unattended {E} `{!AgentEnv Prompt E} now c rowId w :
  let w' := (executeAnalysisPhase (E := E) now c rowId w).2 in
  exists l, trace w' = trace w ++ l /\ weight promptWeight l <= 12
    /\ (a_autoApprove c = true -> forall phase answer, AApproval phase answer ∉ l).
Proof.
  intros w'. subst w'. destruct (costs_execute now c rowId w) as (l & Hl & Hw). exists l. split_and!; [done|done|].
  intros Ha phase answer Hin. destruct (notAsked_execute now c rowId Ha w) as (l' & Hl' & Hn).
  rewrite Hl in Hl'. apply app_inv_head in Hl' as <-. rewrite list.Forall_forall in Hn. by apply Hn in Hin.
Qed.

(** ** A concrete run *)

Definition demoDocs : list (string * Json) :=
  [("Q", JObj [("questions", JArr [])]);
   ("A", JObj [("analysis", JObj [("summary", JStr "S"); ("approach", JStr "P")]);
               ("stories", JArr [JObj [("title", JStr "T")]])]);
   ("J", JObj [("verdict", JStr "approved"); ("score", JNum (JsNum.ofZ 90))]);
   ("V", JObj [("vulnerabilities", JArr [])])].

#[local] Instance demoEnv : AgentEnv Prompt (list string) :=
  scripted Prompt (table demoDocs) (Throw "closed").

Definition demoRow : TaskRow := newRow "t1" 0
  {| cp_userId := "u"; cp_projectId := None; cp_repositoryId := None; cp_title := "Add login";
     cp_description := None; cp_status := None |}.

Definition demoCtx : AnalysisPhaseContext :=
  {| a_task := mapRow demoRow; a_projectPath := "/w"; a_repositories := []; a_autoApprove := true;
     a_planningData := None |}.

Definition demoW : W Prompt (list string) :=
  {| env := fenced <$> ["Q"; "A"; "J"; "V"]; sessions := []; tasks := {[ "t1" := demoRow ]}; trace := []; counter := 0 |}.

Definition demoResult : AnalysisResult :=
  Eval vm_compute in match (executeAnalysisPhase 5 demoCtx "row1" demoW).1 with
                     | Ok r => r | Throw e => createErrorResult e end.

Definition demoAnalysis : option Json := Some (JObj [("summary", JStr "S"); ("approach", JStr "P")]).

Definition demoBranchW : W Prompt (list string) :=
  (branch demoCtx (workingDirectory demoCtx) demoW).2.

Lemma analysis_stored_iff_approved_witness :
  ar_success demoResult = true /\ isTruthy demoAnalysis = true
  /\ exists ss, ar_stories demoResult = storyV2 ∘ asStory (E := list string) <$> ss
    /\ filled <$> tasks (executeAnalysisPhase 5 demoCtx "row1" demoW).2 !! "t1"
       = Some (Some "task/t1", Some (asAnalysis (E := list string) demoAnalysis []), Some (asStory (E := list string) <$> ss)).
Proof.
  split; [reflexivity|]. split; [reflexivity|].
  assert ((executeAnalysisPhase 5 demoCtx "row1" demoW).1 = Ok demoResult) as E0 by (by vm_compute).
  pose proof (surjective_pairing (executeAnalysisPhase 5 demoCtx "row1" demoW)) as E. rewrite E0 in E.
  pose proof (analysis_stored_iff_approved 5 demoCtx "row1" demoW _ _ E) as H.
  assert ((branch demoCtx (workingDirectory demoCtx) demoW).1 = Ok (inl "task/t1")) as E1 by (by vm_compute).
  pose proof (surjective_pairing (branch demoCtx (workingDirectory demoCtx) demoW)) as E2. rewrite E1 in E2.
  rewrite E2 in H. fold demoBranchW in H.
  destruct H as (ok & st & w2 & l & Hit & Hok & _ & Hss & _ & Hcols & _).
  assert (ok = true) as -> by (rewrite <- Hok; reflexivity).
  assert (match (iterations 5 demoCtx "row1" "task/t1" demoBranchW).1 with
          | Ok r => l_analysis r.2.2 | Throw _ => None end = demoAnalysis) as Ha by (by vm_compute).
  rewrite Hit in Ha. cbn [fst snd] in Ha.
  exists (l_stories st). split; [exact Hss|]. rewrite (Hcols "t1"), Ha. reflexivity.
Defined.

End AnalysisSpec.
