(* ===== verification/PlanningPhase.v ===== *)
(** * Product planning phase (src/orchestration/phases/ProductPlanningPhase.ts)

    One session: complexity, clarifying questions, UX flows, task breakdown,
    prompt enrichment, a judge with at most three iterations, the user's
    approval. Everything runs inside one [try] whose handler turns any error
    into an unsuccessful result. *)

From S2P Require Import Prelude JsNumber Json Regex Approval Sessions TaskTypes TaskRepository Orchestrator AgentPhase.
From stdpp Require Import options.

Module PlanningPhase.
Import Json SessionRepository TaskRepository AgentPhase.

(** The clarifications put into the prompts. *)
Inductive Clarifications :=
  | ClAssumed (assumptions : list Json)
  | ClAnswers (answers : Json).

Record PlanningView := {
  pv_questions : Json; pv_uxFlows : Json; pv_tasks : Json; pv_enriched : option Json }.

Inductive Prompt :=
  | PComplexity
  | PQuestions
  | PSelfAnswer (questions : list Json)
  | PFlows (cl : Clarifications)
  | PBreakdown (flows : Json) (cl : Clarifications)
  | PEnrich (cl : Clarifications) (flows tasks : Json)
  | PJudge (v : PlanningView)
  | PFix (issues : list Json).

Record ProductPlanningContext := {
  p_task : Task;
  p_projectPath : string;
  p_repositories : list RepositoryInfo;
  p_autoApprove : bool;
  p_skipForSimpleTasks : bool;
}.

(** The result of the phase: the part the orchestrator reads, the session and
    the prompt the planning started from. *)
Record PlanningOutcome := {
  po_result : Orchestrator.ProductPlanningResult;
  po_sessionId : string;
  po_originalPrompt : string;
}.

(** ** JSON in an answer *)

Definition rawJsonPatterns : list Regex.re := Eval vm_compute in
  rx <$> ["\{[\s\S]*?#tasks#\s*:\s*\[[\s\S]*\]";
          "\{[\s\S]*?#flows#\s*:\s*\[[\s\S]*\]";
          "\{[\s\S]*?#questions#\s*:\s*\[[\s\S]*\]";
          "\{[\s\S]*?#enrichedPrompt#\s*:[\s\S]*\}";
          "\{[\s\S]*?#complexity#\s*:[\s\S]*\}";
          "\{[\s\S]*?#verdict#\s*:[\s\S]*\}"].

Definition anyJson : Regex.re := Eval vm_compute in rx "\{[^{}]*(?:\{[^{}]*\}[^{}]*)*\}".

(** [sort((a, b) => b.length - a.length)], a stable sort *)
Fixpoint insertLonger (a : string) (l : list string) : list string :=
  match l with
  | [] => [a]
  | b :: l' => if JsStr.length b <=? JsStr.length a then a :: l else b :: insertLonger a l'
  end.

Definition longestFirst (l : list string) : list string := foldr insertLonger [] l.

Definition expectedKeys : list string :=
  ["tasks"; "flows"; "questions"; "enrichedPrompt"; "complexity"; "verdict"].

Definition expected (d : Json) : bool :=
  existsb (fun k => match truthyField k d with Some _ => true | None => false end) expectedKeys.

Section extract.
Variable parse : string -> option Json.

(** The first pattern whose balanced text parses. *)
Fixpoint fromPatterns (ps : list Regex.re) (output : string) : option Json :=
  match ps with
  | [] => None
  | p :: ps' =>
      match (m ← Regex.match0 false p output; s ← extractBalancedJson m; parse s) with
      | Some d => Some d
      | None => fromPatterns ps' output
      end
  end.

(** The first candidate that parses and has an expected field. *)
Fixpoint fromCandidates (l : list string) : option Json :=
  match l with
  | [] => None
  | s :: l' =>
      match parse s with
      | Some d => if expected d then Some d else fromCandidates l'
      | None => fromCandidates l'
      end
  end.

(** A parsed [null] and no result at all are the same to the callers. *)
Definition notNull (d : Json) : option Json := if isNull d then None else Some d.

Definition extractJsonFromOutput (output : string) : option Json :=
  if JsStr.truthy output then
    match (t ← jsonBlock output; parse t) with
    | Some d => notNull d
    | None =>
        match fromPatterns rawJsonPatterns output with
        | Some d => notNull d
        | None => fromCandidates (longestFirst (Regex.matchAll false anyJson output))
        end
    end
  else None.

End extract.

(** A field of a result that a fix may assign: assigning throws unless the
    result is an object or an array. *)
Record Slot := { sl_value : option Json; sl_assignable : bool }.

Definition slotOf (name : string) (d : option Json) : Slot :=
  {| sl_value := optField name d;
     sl_assignable := match d with Some (JObj _) | Some (JArr _) => true | _ => false end |}.

(** [slot || []] *)
Definition orEmpty (v : option Json) : Json :=
  match v with Some v => if truthy v then v else JArr [] | None => JArr [] end.

(** [q.options ? q.options.join(', ') : ''] *)
Definition questionPrintable (q : Json) : bool :=
  readable q && match truthyField "options" q with Some (JArr _) | None => true | _ => false end.

(** What the judge's prompt prints. *)
Definition viewPrintable (v : PlanningView) : bool :=
  mappable readable (pv_questions v) && mappable readable (pv_uxFlows v)
  && mappable readable (pv_tasks v)
  && (nullish (pv_enriched v) || match pv_enriched v with Some (JStr _) => true | _ => false end).

Definition elements (v : Json) : list Json := match v with JArr l => l | _ => [] end.

(** [for (const x of v)]: an array, or the characters of a string *)
Definition iterable (v : Json) : option (list Json) :=
  match v with
  | JArr l => Some l
  | JStr s => Some ((fun a => JStr (String a EmptyString)) <$> String.list_ascii_of_string s)
  | _ => None
  end.

(** [JSON verdict === s] *)
Definition isStr (s : string) (v : Json) : bool :=
  match v with JStr t => bool_decide (t = s) | _ => false end.

Section phase.
Context {E : Type} `{!AgentEnv Prompt E}.
Variable now : Z.
Variable finished : Z.
Variable c : ProductPlanningContext.

Abbreviation M := (JsM (W Prompt E)).
Abbreviation tid := (t_id (p_task c)).
Abbreviation extract := (extractJsonFromOutput (jsonParse Prompt E)).

Definition textOf (v : Json) : string := match v with JStr s => s | _ => toText Prompt E v end.
Definition shown (v : option Json) : string := match v with Some v => textOf v | None => "undefined" end.

(** [task.description || task.title] *)
Definition basePrompt : string := default (t_title (p_task c)) (JsStr.orNull (t_description (p_task c))).

(** One agent: step, message, prompt, answer. *)
Definition agent (sid : string) (n : Z) (name : string) (k : option nat) (p : Prompt) : M (option Json) :=
  step now tid n name;;
  emit (EvAgent name k);;
  es ← ask sid p;
  mret (extract (lastText es)).

(** [userAnswers[sa.question] = ...] for each self-answer *)
Fixpoint selfAnswers (l : list Json) (acc : list (string * Json)) : list (string * Json) :=
  match l with
  | [] => acc
  | sa :: l' =>
      selfAnswers l' (JsMap.set (shown (field "question" sa))
        (JStr ("[AUTOPILOT] " +:+ shown (field "answer" sa) +:+ " (Reasoning: "
               +:+ shown (field "reasoning" sa) +:+ ")")) acc)
  end.

(** Answers and whether they were skipped. *)
Definition selfAnswer (sid : string) (questions : Json) : M (Json * bool) :=
  step now tid 3 "SELF_ANSWERER";;
  emit (EvAgent "SELF_ANSWERER" None);;
  check (mappable questionPrintable questions) "questions.map";;
  es ← ask sid (PSelfAnswer (elements questions));
  match optTruthy "selfAnswers" (extract (lastText es)) with
  | Some v =>
      check (match iterable v with Some l => forallb readable l | None => false end) "selfAnswers";;
      emit (EvClarification "self-answered");;
      mret (JObj (selfAnswers (default [] (iterable v)) []), false)
  | None => mret (JObj [], true)
  end.

Definition askUser : M (Json * bool) :=
  r ← approval tid "clarification";
  match ApprovalService.action r, JsStr.orNull (ApprovalService.feedback r) with
  | ApprovalService.Approve, Some text =>
      mret (match jsonParse Prompt E text with
            | Some v => v
            | None => JObj [("freeform", JStr text)]
            end, false)
  | _, _ => mret (JObj [], true)
  end.

(** STEP 2: the questions, the answers, whether they were skipped, and the
    text for the prompts. *)
Definition clarify (sid : string) : M (option Json * Json * bool * Clarifications) :=
  d ← agent sid 2 "CLARIFIER" None PQuestions;
  let questions := optField "questions" d in
  r ← match questions with
      | Some q =>
          if nonEmpty q then (if p_autoApprove c then selfAnswer sid q else askUser)
          else mret (JObj [], false)
      | None => mret (JObj [], false)
      end;
  (if r.2 : bool then
     let a := orEmpty (optField "defaultAssumptions" d) in
     check (match a with JArr _ => true | _ => false end) "defaultAssumptions.map";;
     mret (ClAssumed (elements a))
   else
     check (readable r.1) "Cannot convert null to object";;
     mret (ClAnswers r.1)) ≫= fun cl =>
  mret (questions, r.1, r.2, cl).

Record Draft := { dr_flows : Slot; dr_tasks : Slot; dr_enriched : option Json }.

(** [verdict === 'approved' || score >= 80], after [score || 80] *)
Definition scoreOk (v : Json) : bool :=
  SpecFloat.SFleb (JsNum.ofZ 80) (match v with JNum n => n | _ => toNumber Prompt E v end).

(** [slot.field = v] when the fix has the field *)
Definition assignField (v : option Json) (s : Slot) : M Slot :=
  match v with
  | None => mret s
  | Some v =>
      check (sl_assignable s) "Cannot set properties of null";;
      mret {| sl_value := Some v; sl_assignable := true |}
  end.

(** The FIX step of an iteration. *)
Definition fix_ (sid : string) (k : nat) (issues : Json) (dr : Draft) : M Draft :=
  step now tid 7 "FIXER";;
  emit (EvAgent "FIXER" (Some k));;
  check (issuesPrintable issues) "issue.severity.toUpperCase";;
  es ← ask sid (PFix (elements issues));
  let f := extract (lastText es) in
  match f with
  | Some d =>
      if truthy d then
        let enriched := match truthyField "enrichedPrompt" d with Some v => Some v | None => dr_enriched dr end in
        tasks ← assignField (truthyField "tasks" d) (dr_tasks dr);
        flows ← assignField (truthyField "flows" d) (dr_flows dr);
        mret {| dr_flows := flows; dr_tasks := tasks; dr_enriched := enriched |}
      else mret dr
  | None => mret dr
  end.

Definition maxJudgeIterations : nat := 3.

(** STEP 6: was the planning approved, and the draft. *)
Fixpoint judgeLoop (sid : string) (questions : option Json) (fuel k : nat) (dr : Draft) : M (bool * Draft) :=
  match fuel with
  | 0 => mret (false, dr)
  | S fuel' =>
      let k' := S k in
      let v := {| pv_questions := orEmpty questions; pv_uxFlows := orEmpty (sl_value (dr_flows dr));
                  pv_tasks := orEmpty (sl_value (dr_tasks dr)); pv_enriched := dr_enriched dr |} in
      step now tid 7 "JUDGE";;
      emit (EvAgent "JUDGE" (Some k'));;
      check (viewPrintable v) "planningData";;
      es ← ask sid (PJudge v);
      let j := extract (lastText es) in
      let verdict := default (JStr "approved") (optTruthy "verdict" j) in
      let score := default (JNum (JsNum.ofZ 80)) (optTruthy "score" j) in
      let issues := default (JArr []) (optTruthy "issues" j) in
      emit (EvVerdict k' verdict score);;
      if isStr "approved" verdict || scoreOk score then mret (true, dr)
      else if isStr "rejected" verdict then mret (false, dr)
      else if nonEmpty issues then
        dr' ← fix_ sid k' issues dr;
        judgeLoop sid questions fuel' k' dr'
      else mret (true, dr)
  end.

Definition outcomeOf (success : bool) (sid : string) (flows tasks : option Json)
    (cl : option Orchestrator.PlanningClarifications) (enriched : option string) : PlanningOutcome :=
  {| po_result :=
       {| Orchestrator.pp_success := success; Orchestrator.pp_uxFlows := flows;
          Orchestrator.pp_plannedTasks := tasks; Orchestrator.pp_clarifications := cl;
          Orchestrator.pp_enrichedPrompt := enriched; Orchestrator.pp_durationMs := (finished - now)%Z |};
     po_sessionId := sid; po_originalPrompt := basePrompt |}.

Definition failed (sid : string) : PlanningOutcome := outcomeOf false sid None None None None.

(** Steps 3 to 7, for a task that is planned in detail. *)
Definition planInDetail (sid : string) : M PlanningOutcome :=
  q ← clarify sid;
  let '(questions, answers, skipped, cl) := q in
  ux ← agent sid 4 "UX_DESIGNER" None (PFlows cl);
  let flows := slotOf "flows" ux in
  bd ← agent sid 5 "TASK_PLANNER" None (PBreakdown (orEmpty (sl_value flows)) cl);
  let tasks := slotOf "tasks" bd in
  en ← agent sid 6 "PROMPT_ENRICHER" None
         (PEnrich cl (orEmpty (sl_value flows)) (orEmpty (sl_value tasks)));
  r ← judgeLoop sid questions maxJudgeIterations 0
        {| dr_flows := flows; dr_tasks := tasks; dr_enriched := optField "enrichedPrompt" en |};
  let dr := r.2 in
  (if p_autoApprove c then mret true
   else
     a ← approval tid "ProductPlanning";
     mret (negb (bool_decide (ApprovalService.action a = ApprovalService.Reject)))) ≫= fun ok : bool =>
  abort sid;;
  if ok then
    let res := outcomeOf true sid (Some (orEmpty (sl_value (dr_flows dr))))
      (Some (orEmpty (sl_value (dr_tasks dr))))
      (Some {| Orchestrator.pc_questions := orEmpty questions; Orchestrator.pc_answers := answers;
               Orchestrator.pc_skipped := skipped |})
      (Some (match dr_enriched dr with
             | Some v => if truthy v then textOf v else basePrompt
             | None => basePrompt
             end)) in
    emit (EvComplete "ProductPlanning" true);;
    mret res
  else mret (failed sid).

(** The phase inside its session. *)
Definition planInSession (sid : string) : M PlanningOutcome :=
  d ← agent sid 1 "COMPLEXITY_ASSESSOR" None PComplexity;
  if match optField "complexity" d with Some v => isStr "simple" v | None => false end
     && p_skipForSimpleTasks c
  then mret (outcomeOf true sid None None None (Some basePrompt))
  else planInDetail sid.

(** The handler: the failure is announced, the session aborted if there is one. *)
Definition onError (sid : option string) (msg : string) : M PlanningOutcome :=
  emit (EvFailed "ProductPlanning" msg);;
  match JsStr.orNull sid with
  | Some s => attempt (abort s);; mret (failed s)
  | None => mret (failed "error-no-session")
  end.

(** Registration, once the session exists. *)
Definition register (rowId sid : string) : M unit :=
  record (ARegister sid);;
  onSessions (SessionRepository.create rowId now
    {| cs_sessionId := sid; cs_taskId := tid; cs_directory := p_projectPath c;
       cs_phaseName := Some "ProductPlanning";
       cs_mode := Some (if p_autoApprove c then MAll else MManual); cs_permissions := noPermissions |}).

Definition runProductPlanningPhase (rowId : string) : M PlanningOutcome :=
  emit (EvStart "ProductPlanning" None);;
  inSession ("Planning: " +:+ t_title (p_task c)) (register rowId) planInSession onError.

End phase.
End PlanningPhase.
