(* ===== verification/PlanningPhaseProofs.v ===== *)
(** * Theorems on the planning phase

    It always returns and sends a bounded number of prompts; the only reasons
    for which it is unsuccessful; what it leaves in the session table; and the
    law the orchestrator needs of it. *)

From S2P Require Import Prelude JsNumber Json Regex Approval Sessions SessionsProofs TaskTypes TaskRepository Orchestrator AgentPhase PlanningPhase.
From stdpp Require Import options.

Module PlanningSpec.
Import Json SessionRepository TaskRepository AgentPhase PlanningPhase.

Section phase.
Context {E : Type} `{!AgentEnv Prompt E}.
Variables (now finished : Z) (c : ProductPlanningContext).

Lemma rows_agent sid n name k p : keeps (E := E) rowsStay (agent now c sid n name k p).
Proof. unfold agent. rows_steps. Qed.
Lemma sess_agent sid n name k p : keeps (E := E) sameSessions (agent now c sid n name k p).
Proof. unfold agent. sess_steps. Qed.

#[local] Hint Resolve rows_agent : rows.
#[local] Hint Resolve sess_agent : sess.

Lemma rows_clarify sid : keeps (E := E) rowsStay (clarify now c sid).
Proof. unfold clarify, selfAnswer, askUser. rows_steps. Qed.
Lemma sess_clarify sid : keeps (E := E) sameSessions (clarify now c sid).
Proof. unfold clarify, selfAnswer, askUser. sess_steps. Qed.

Lemma rows_assignField v s : keeps (E := E) rowsStay (assignField v s).
Proof. unfold assignField. rows_steps. Qed.
Lemma sess_assignField v s : keeps (E := E) sameSessions (assignField v s).
Proof. unfold assignField. sess_steps. Qed.

#[local] Hint Resolve rows_clarify rows_assignField : rows.
#[local] Hint Resolve sess_clarify sess_assignField : sess.

Lemma rows_fix sid k i dr : keeps (E := E) rowsStay (fix_ now c sid k i dr).
Proof. unfold fix_. rows_steps. Qed.
Lemma sess_fix sid k i dr : keeps (E := E) sameSessions (fix_ now c sid k i dr).
Proof. unfold fix_. sess_steps. Qed.

#[local] Hint Resolve rows_fix : rows.
#[local] Hint Resolve sess_fix : sess.

Lemma rows_judgeLoop sid q fuel k dr : keeps (E := E) rowsStay (judgeLoop now c sid q fuel k dr).
Proof. revert k dr. induction fuel as [|fuel IH]; intros k dr; cbn [judgeLoop]; rows_steps. Qed.
Lemma sess_judgeLoop sid q fuel k dr : keeps (E := E) sameSessions (judgeLoop now c sid q fuel k dr).
Proof. revert k dr. induction fuel as [|fuel IH]; intros k dr; cbn [judgeLoop]; sess_steps. Qed.

#[local] Hint Resolve rows_judgeLoop : rows.
#[local] Hint Resolve sess_judgeLoop : sess.

Lemma rows_planInSession sid : keeps (E := E) rowsStay (planInSession now finished c sid).
Proof. unfold planInSession, planInDetail. rows_steps. Qed.
Lemma sess_planInSession sid : keeps (E := E) sameSessions (planInSession now finished c sid).
Proof. unfold planInSession, planInDetail. sess_steps. Qed.

Lemma rows_planningError sid m : keeps (E := E) rowsStay (onError now finished c sid m).
Proof. unfold onError. rows_steps. Qed.
Lemma sess_planningError sid m : keeps (E := E) sameSessions (onError now finished c sid m).
Proof. unfold onError. sess_steps. Qed.

#[local] Hint Resolve rows_planInSession rows_planningError : rows.

Lemma rows_planning rowId : keeps (E := E) rowsStay (runProductPlanningPhase now finished c rowId).
Proof.
  apply keeps_bind; [apply _|apply rowsStay_record|intros _].
  apply keeps_inSession; [apply _|apply rowsStay_call|unfold register; rows_steps|apply rows_planInSession|apply rows_planningError].
Qed.

(** ** The phase returns *)

Lemma total_planningError sid m : total (E := E) (onError now finished c sid m).
Proof.
  unfold onError. apply total_bind; [apply total_record|]. intros [].
  destruct (JsStr.orNull sid); [|apply total_ret].
  apply total_bind; [apply total_attempt|intros; apply total_ret].
Qed.

Lemma total_planning rowId : total (E := E) (runProductPlanningPhase now finished c rowId).
Proof. apply total_bind; [apply total_record|]. intros _. apply total_inSession, total_planningError. Qed.

(** ** Prompts *)

Lemma costs_agent sid n name k p : costs (E := E) promptWeight 1 (agent now c sid n name k p).
Proof. unfold agent. skip_free. apply (costs_bind _ 1 0); [apply costs_ask|]. intros. apply costs_ret. Qed.

Lemma costs_clarify sid : costs (E := E) promptWeight 2 (clarify now c sid).
Proof.
  unfold clarify. apply (costs_bind _ 1 1); [apply costs_agent|]. intros d. cbv zeta.
  apply (costs_bind _ 1 0).
  - destruct (optField "questions" d) as [q|]; [|eapply costs_weaken; [apply costs_ret|lia]].
    destruct (nonEmpty q); [|eapply costs_weaken; [apply costs_ret|lia]]. destruct (p_autoApprove c).
    + unfold selfAnswer. skip_free. apply (costs_bind _ 1 0); [apply costs_ask|]. intros es.
      destruct (optTruthy _ _); [skip_free|]; apply costs_ret.
    + unfold askUser. eapply costs_weaken; [apply (costs_bind _ 0 0); [by apply costs_call|]|lia].
      intros r. destruct (ApprovalService.action r), (JsStr.orNull (ApprovalService.feedback r)); apply costs_ret.
  - intros r. apply (costs_bind _ 0 0); [destruct (r.2); skip_free; apply costs_ret|intros; apply costs_ret].
Qed.

Lemma costs_assignField v s : costs (E := E) promptWeight 0 (assignField v s).
Proof. unfold assignField. destruct v; [skip_free|]; apply costs_ret. Qed.

Lemma costs_fix sid k i dr : costs (E := E) promptWeight 1 (fix_ now c sid k i dr).
Proof.
  unfold fix_. skip_free. apply (costs_bind _ 1 0); [apply costs_ask|]. intros es. cbv zeta.
  destruct (extractJsonFromOutput _ _) as [d|]; [|apply costs_ret]. destruct (truthy d); [|apply costs_ret].
  apply (costs_bind _ 0 0); [apply costs_assignField|]. intros.
  apply (costs_bind _ 0 0); [apply costs_assignField|]. intros. apply costs_ret.
Qed.

Lemma costs_judgeLoop sid q fuel k dr :
  costs (E := E) promptWeight (2 * fuel) (judgeLoop now c sid q fuel k dr).
Proof.
  revert k dr. induction fuel as [|fuel IH]; intros k dr; cbn [judgeLoop]; [apply costs_ret|]. cbv zeta.
  replace (2 * S fuel) with (1 + (1 + 2 * fuel)) by lia. skip_free.
  apply (costs_bind _ 1 (1 + 2 * fuel)); [apply costs_ask|]. intros es. skip_free.
  destruct (isStr _ _ || scoreOk _); [eapply costs_weaken; [apply costs_ret|lia]|].
  destruct (isStr _ _); [eapply costs_weaken; [apply costs_ret|lia]|].
  destruct (nonEmpty _); [|eapply costs_weaken; [apply costs_ret|lia]].
  apply (costs_bind _ 1 (2 * fuel)); [apply costs_fix|]. intros. apply IH.
Qed.

Lemma costs_planInSession sid : costs (E := E) promptWeight 12 (planInSession now finished c sid).
Proof.
  unfold planInSession. apply (costs_bind _ 1 11); [apply costs_agent|]. intros d.
  destruct (_ && _); [eapply costs_weaken; [apply costs_ret|lia]|]. unfold planInDetail.
  apply (costs_bind _ 2 9); [apply costs_clarify|]. intros [[[q a] sk] cl].
  apply (costs_bind _ 1 8); [apply costs_agent|]. intros ux. cbv zeta.
  apply (costs_bind _ 1 7); [apply costs_agent|]. intros bd. cbv zeta.
  apply (costs_bind _ 1 6); [apply costs_agent|]. intros en. cbv zeta.
  apply (costs_bind _ 6 0); [apply (costs_judgeLoop sid q maxJudgeIterations)|]. intros r.
  apply (costs_bind _ 0 0).
  - destruct (p_autoApprove c); [apply costs_ret|]. apply (costs_bind _ 0 0); [by apply costs_call|].
    intros. apply costs_ret.
  - intros ok. apply (costs_bind _ 0 0); [by apply costs_call|]. intros []. destruct ok; [|apply costs_ret].
    cbv zeta. skip_free. apply costs_ret.
Qed.

Lemma costs_planning rowId : costs (E := E) promptWeight 12 (runProductPlanningPhase now finished c rowId).
Proof.
  unfold runProductPlanningPhase. apply costs_free; [by apply acts_record|].
  apply costs_inSession; [done| |apply costs_planInSession|].
  - intros sid. apply acts_bind; [by apply acts_record|intros; apply acts_onSessions].
  - intros sid m. unfold onError. skip_free. destruct (JsStr.orNull sid); [|apply costs_ret].
    apply (costs_bind _ 0 0); [apply costs_acts, acts_attempt; by apply acts_call|intros; apply costs_ret].
Qed.

(** ** Why a planning fails *)

Definition rejectedIn (l : list (Act Prompt)) : Prop :=
  exists a, AApproval "ProductPlanning" (Ok a) ∈ l /\ ApprovalService.action a = ApprovalService.Reject.

Definition failedIn (l : list (Act Prompt)) : Prop := exists m, AEvent (EvFailed "ProductPlanning" m) ∈ l.

Lemma any_agent sid n name k p : acts (E := E) (fun _ => True) (agent now c sid n name k p).
Proof. unfold agent. acts_steps. Qed.

Lemma any_clarify sid : acts (E := E) (fun _ => True) (clarify now c sid).
Proof. unfold clarify, selfAnswer, askUser, agent. acts_steps. Qed.

Lemma any_judgeLoop sid q fuel k dr : acts (E := E) (fun _ => True) (judgeLoop now c sid q fuel k dr).
Proof.
  revert k dr. induction fuel as [|fuel IH]; intros k dr; cbn [judgeLoop]; [apply acts_ret|].
  unfold fix_, assignField. acts_steps.
Qed.

Definition successful (o : PlanningOutcome) : bool := Orchestrator.pp_success (po_result o).

Lemma spec_planInSession sid :
  spec (planInSession (E := E) now finished c sid) (fun l r =>
    match r with
    | Ok o => successful o = false -> p_autoApprove c = false /\ rejectedIn l
    | Throw _ => True
    end).
Proof.
  unfold planInSession. eapply spec_skip; [apply any_agent|done|]. intros l1 d.
  destruct (_ && _); [by apply spec_ret|]. unfold planInDetail.
  eapply spec_skip; [apply any_clarify|done|]. intros l2 [[[q a] sk] cl].
  eapply spec_skip; [apply any_agent|done|]. intros l3 ux. cbv zeta.
  eapply spec_skip; [apply any_agent|done|]. intros l4 bd. cbv zeta.
  eapply spec_skip; [apply any_agent|done|]. intros l5 en. cbv zeta.
  eapply spec_skip; [apply any_judgeLoop|done|]. intros l6 r.
  apply (spec_bind _ _ (fun l r => match r with
    | Ok false => p_autoApprove c = false /\ rejectedIn l | _ => True end)).
  - destruct (p_autoApprove c); [by apply spec_ret|].
    eapply spec_bind; [apply spec_approval|done|]. intros l ans ->. apply spec_ret. rewrite app_nil_r.
    case_bool_decide; [|done]. split; [done|]. exists ans. split; [apply list_elem_of_here|done].
  - done.
  - intros l7 ok Hok. eapply spec_skip; [by apply (acts_call (fun _ => True))|done|]. intros l8 [].
    destruct ok.
    + eapply spec_skip; [apply (acts_record (fun _ => True)); done|done|]. intros l9 []. by apply spec_ret.
    + apply spec_ret. intros _. destruct Hok as [? (ans & Hin & ?)]. split; [done|]. exists ans. set_solver.
Qed.

Lemma spec_onError sid m : spec (onError (E := E) now finished c sid m) (fun l _ => failedIn l).
Proof.
  unfold onError. apply (spec_bind _ _ (fun l _ => l = [AEvent (EvFailed "ProductPlanning" m)])).
  - intros w. by eexists.
  - intros l e ->. exists m. apply list_elem_of_here.
  - intros l [] ->. assert (forall l2, failedIn ([AEvent (EvFailed "ProductPlanning" m)] ++ l2)) as Hf.
    { intros l2. exists m. apply list_elem_of_here. }
    destruct (JsStr.orNull sid); [|by apply spec_ret].
    eapply spec_skip; [by apply (acts_attempt (fun _ => True)), acts_call|done|]. intros. apply spec_ret. apply Hf.
Qed.

Lemma failedIn_app l k : failedIn k -> failedIn (l ++ k).
Proof. intros [m Hm]. exists m. apply elem_of_app. auto. Qed.

Lemma spec_run rowId :
  spec (runProductPlanningPhase (E := E) now finished c rowId) (fun l r =>
    match r with
    | Ok o => successful o = false -> failedIn l \/ p_autoApprove c = false /\ rejectedIn l
    | Throw _ => True
    end).
Proof.
  unfold runProductPlanningPhase. eapply spec_skip; [apply (acts_record (fun _ => True)); done|done|].
  intros l1 []. apply (spec_inSession _ _ _ _ (fun l r => match r with
    | Ok o => successful o = false -> p_autoApprove c = false /\ rejectedIn l | Throw _ => True end)).
  - intros sid. unfold register. acts_steps.
  - apply spec_planInSession.
  - intros l k o Ho Hs. right. destruct (Ho Hs) as [? (a & ? & ?)]. split; [done|]. exists a. set_solver.
  - intros l sid e. eapply spec_weaken; [apply spec_onError|]. simpl. intros k r Hf. destruct r; [|done].
    intros _. left. by do 2 apply failedIn_app.
Qed.

(** ** The session *)

Definition notUnregistered (a : Act Prompt) : Prop := match a with AUnregister _ => False | _ => True end.

Lemma kept_run rowId : acts (E := E) notUnregistered (runProductPlanningPhase now finished c rowId).
Proof.
  assert (forall sid q fuel k dr, acts (E := E) notUnregistered (judgeLoop now c sid q fuel k dr)) as Hj.
  { intros sid q fuel. induction fuel as [|fuel IH]; intros k dr; cbn [judgeLoop]; [apply acts_ret|].
    unfold fix_, assignField. acts_steps. }
  unfold runProductPlanningPhase, register, planInSession, planInDetail, clarify, selfAnswer, askUser, agent, onError.
  acts_steps.
Qed.

Definition planningSession (sid : string) : CreateSession :=
  {| cs_sessionId := sid; cs_taskId := t_id (p_task c); cs_directory := p_projectPath c;
     cs_phaseName := Some "ProductPlanning";
     cs_mode := Some (if p_autoApprove c then MAll else MManual); cs_permissions := noPermissions |}.

Lemma sessions_run rowId w :
  sessions (runProductPlanningPhase (E := E) now finished c rowId w).2 =
    match (createSession (P := Prompt) ("Planning: " +:+ t_title (p_task c)) (env w)).1 with
    | Ok sid => SessionRepository.create rowId now (planningSession sid) (sessions w)
    | Throw _ => sessions w
    end.
Proof.
  apply (sessions_inSession _ _ _ _ (fun sid => SessionRepository.create rowId now (planningSession sid))
    (record (P := Prompt) (AEvent (EvStart "ProductPlanning" None)) w).2).
  - intros sid v. by eexists.
  - apply sess_planInSession.
  - apply sess_planningError.
Qed.

End phase.

(** C24 Planning always returns, whatever the agents, the user and OpenCode do,
    after at most twelve prompts. It is unsuccessful only if an error was
    announced or, outside the automatic mode, the user rejected it; so neither
    the judge's verdict (a rejection included), nor three failed iterations,
    nor a request for changes makes it fail. *)
Theorem planning_outcome {E} `{!AgentEnv Prompt E} now finished c rowId w :
  exists o w' l, runProductPlanningPhase (E := E) now finished c rowId w = (Ok o, w')
    /\ trace w' = trace w ++ l /\ weight promptWeight l <= 12
    /\ (successful o = false -> failedIn l \/ p_autoApprove c = false /\ rejectedIn l).
Proof.
  destruct (total_planning now finished c rowId w) as (o & w' & Hr).
  destruct (costs_planning now finished c rowId w) as (l & Hl & Hw).
  destruct (spec_run now finished c rowId w) as (l' & Hl' & Hs). rewrite Hr in *. simpl in *.
  rewrite Hl in Hl'. apply app_inv_head in Hl' as <-. eauto 10.
Qed.

(** The session of a planning stays open in the bookkeeping: once it was
    created, the phase ends with its row still active, and the latest active
    one of the task, and the phase never unregisters it from the event bridge,
    on success, rejection and error alike; it stays registered until the run
    of the orchestrator is over. *)
Theorem planning_session_left_active {E} `{!AgentEnv Prompt E} now finished c rowId w sid :
  (createSession (P := Prompt) ("Planning: " +:+ t_title (p_task c)) (env w)).1 = Ok sid ->
  let w' := (runProductPlanningPhase (E := E) now finished c rowId w).2 in
  (exists s, findActiveByTaskId (t_id (p_task c)) (sessions w') = Some s
     /\ se_sessionId s = sid /\ se_status s = Active)
  /\ exists l, trace w' = trace w ++ l /\ forall s, AUnregister s ∉ l.
Proof.
  intros Hc w'. subst w'. pose proof (sessions_run now finished c rowId w) as Hs. rewrite Hc in Hs.
  split.
  - rewrite Hs, ModeSpec.findActive_create by done. eauto.
  - destruct (kept_run now finished c rowId w) as (l & Hl & Hn). exists l. split; [done|].
    intros s Hin. rewrite list.Forall_forall in Hn. by apply Hn in Hin.
Qed.

(** ** Concrete runs *)

Definition demoDocs : list (string * Json) :=
  [("C", JObj [("complexity", JStr "complex")]);
   ("Q", JObj [("questions", JArr [])]);
   ("F", JObj [("flows", JArr [])]);
   ("T", JObj [("tasks", JArr [JObj [("title", JStr "t"); ("description", JStr "d"); ("acceptanceCriteria", JArr [])]])]);
   ("P", JObj [("enrichedPrompt", JStr "do it well")]);
   ("R", JObj [("verdict", JStr "rejected"); ("score", JNum (JsNum.ofZ 10))])].

#[local] Instance demoEnv : AgentEnv Prompt (list string) := scripted Prompt (table demoDocs) (Throw "closed").

Definition demoCtx : ProductPlanningContext :=
  {| p_task := mapRow (newRow "t1" 0 {| cp_userId := "u"; cp_projectId := None; cp_repositoryId := None;
       cp_title := "Add login"; cp_description := None; cp_status := None |});
     p_projectPath := "/w"; p_repositories := []; p_autoApprove := true; p_skipForSimpleTasks := true |}.

Definition demoW : W Prompt (list string) :=
  {| env := fenced <$> ["C"; "Q"; "F"; "T"; "P"; "R"]; sessions := []; tasks := ∅; trace := []; counter := 0 |}.

(** The judge rejects; the planning succeeds all the same. *)
Example rejected_by_judge :
  (successful <$> match (runProductPlanningPhase 5 9 demoCtx "row1" demoW).1 with Ok o => Some o | _ => None end)
  = Some true.
Proof. by vm_compute. Qed.

Lemma planning_session_left_active_witness :
  exists s, findActiveByTaskId (t_id (p_task demoCtx))
      (sessions (runProductPlanningPhase 5 9 demoCtx "row1" demoW).2) = Some s
    /\ se_sessionId s = "s1".
Proof.
  destruct (planning_session_left_active (AgentEnv0 := demoEnv) 5 9 demoCtx "row1" demoW "s1" ltac:(reflexivity))
    as [(s & H1 & H2 & _) _].
  exists s. split; [exact H1|exact H2].
Defined.

End PlanningSpec.
