(* ===== verification/TestGenerationPhase.v ===== *)
(** * Test generation phase (src/orchestration/phases/TestGenerationPhase.ts)

    Analysis of the gaps, generation, then test runs with a fixer in between,
    at most [maxIterations] of them, and the user's approval. Everything runs
    inside one [try]; the iteration count of a failed run is the value the
    variable had at the throw. *)

From S2P Require Import Prelude JsNumber Json Regex Approval Sessions TaskTypes SpyPatterns AgentSpy TaskRepository Orchestrator AgentPhase.
From stdpp Require Import options.

Module TestGenerationPhase.
Import Json SessionRepository TaskRepository AgentPhase.

Inductive Prompt :=
  | PAnalyze (stories : list StoryResult)
  | PGenerate (gaps edgeCases : list Json) (framework : Json)
  | PRun (files : list (option Json)) (framework : Json)
  | PFixTests (failed : list Json) (iteration : nat).

Record TestContext := {
  g_task : Task;
  g_projectPath : string;
  g_stories : list StoryResult;
  g_autoApprove : bool;
  g_maxIterations : nat;
}.

Record FixAttempt := {
  fa_iteration : nat;
  fa_failedTests : list Json;
  fa_fixesApplied : Json;
  fa_testsPassedAfter : JsNum.t;
  fa_testsFailedAfter : Json;
  fa_success : bool;
}.

Record TestOutcome := {
  to_success : bool;
  to_sessionId : string;
  to_testsGenerated : list Json;
  to_edgeCases : Json;
  to_coverageGaps : Json;
  to_testsPassed : bool;
  to_testsRun : Json;
  to_testsFailed : Json;
  to_coverageAfter : option Json;
  to_iterations : nat;
  to_fixAttempts : list FixAttempt;
  to_error : option string;
}.

(** ** JSON in an answer *)

Definition rawJsonPatterns : list Regex.re := Eval vm_compute in
  rx <$> ["\{[\s\S]*?#tests#\s*:\s*\[[\s\S]*\]";
          "\{[\s\S]*?#testFramework#\s*:[\s\S]*\}";
          "\{[\s\S]*?#coverageGaps#\s*:\s*\[[\s\S]*\]";
          "\{[\s\S]*?#edgeCases#\s*:\s*\[[\s\S]*\]";
          "\{[\s\S]*?#success#\s*:[\s\S]*\}";
          "\{[\s\S]*?#fixesApplied#\s*:\s*\[[\s\S]*\]"].

Section extract.
Variable parse : string -> option Json.

Fixpoint fromPatterns (ps : list Regex.re) (output : string) : option Json :=
  match ps with
  | [] => None
  | p :: ps' =>
      match (m ← Regex.match0 false p output; s ← extractBalancedJson m; parse s) with
      | Some d => Some d
      | None => fromPatterns ps' output
      end
  end.

Definition notNull (d : Json) : option Json := if isNull d then None else Some d.

(** Block, patterns, the whole output, any balanced object. *)
Definition extractJsonFromOutput (output : string) : option Json :=
  if JsStr.truthy output then
    match (t ← jsonBlock output; parse t) with
    | Some d => notNull d
    | None =>
        match fromPatterns rawJsonPatterns output with
        | Some d => notNull d
        | None =>
            match parse output with
            | Some d => notNull d
            | None => s ← extractBalancedJson output; d ← parse s; notNull d
            end
        end
    end
  else None.

End extract.

(** The text of an event, if it has one. *)
Definition textOfEvent (e : OcEvent) : option string :=
  match e with
  | OcPart ty t => if bool_decide (ty = "text") then JsStr.orNull t else None
  | OcComplete c => JsStr.orNull c
  | OcChunk c t | OcPlain c t => match JsStr.orNull c with Some s => Some s | None => JsStr.orNull t end
  | OcAgent c => JsStr.orNull c
  | OcOther => None
  end.

(** All the texts, joined: parts that were updated several times appear as
    often. *)
Definition extractFinalOutput (es : list OcEvent) : string := String.concat "" (omap textOfEvent es).

(** [v.length === 0] *)
Definition lengthZero (v : Json) : bool :=
  match v with
  | JArr [] => true
  | JStr s => bool_decide (s = "")
  | JObj _ => match field "length" v with Some (JNum n) => JsNum.eqb n JsNum.zero | _ => false end
  | _ => false
  end.

Definition elements (v : Json) : list Json := match v with JArr l => l | _ => [] end.

Definition isSecurity (e : Json) : bool :=
  match field "type" e with Some (JStr s) => bool_decide (s = "security") | _ => false end.

(** [for (const x of v)] where the body reads fields of [x] *)
Definition loopable (v : Json) : bool :=
  match v with JArr l => forallb readable l | JStr _ => true | _ => false end.

(** The vulnerability registered for a security edge case. *)
Definition edgeSeverity (e : Json) : SpyPatterns.VulnerabilitySeverity :=
  match field "priority" e with
  | Some (JStr s) => if bool_decide (s = "high") then SpyPatterns.high
                     else if bool_decide (s = "medium") then SpyPatterns.medium else SpyPatterns.low
  | _ => SpyPatterns.low
  end.

Section phase.
Context {E : Type} `{!AgentEnv Prompt E}.
Variable now : Z.
Variable c : TestContext.

Abbreviation M := (JsM (W Prompt E)).
Abbreviation tid := (t_id (g_task c)).
Abbreviation extract := (extractJsonFromOutput (jsonParse Prompt E)).

Definition textOf (v : Json) : string := match v with JStr s => s | _ => toText Prompt E v end.
Definition shown (v : option Json) : string := match v with Some v => textOf v | None => "undefined" end.
Definition numberOf (v : Json) : JsNum.t := match v with JNum n => n | _ => toNumber Prompt E v end.

Definition edgeVulnerability (sid : string) (e : Json) : AgentSpy.SpyVulnerability :=
  {| AgentSpy.vu_id := ""; AgentSpy.vu_taskId := tid; AgentSpy.vu_sessionId := sid;
     AgentSpy.vu_phase := "TestGeneration"; AgentSpy.vu_timestamp := now;
     AgentSpy.vu_severity := edgeSeverity e; AgentSpy.vu_type := SpyPatterns.code_injection;
     AgentSpy.vu_description := "Security edge case: " +:+ shown (field "description" e);
     AgentSpy.vu_evidence := JObj (omap (fun k => (fun v => (k.1, v)) <$> field k.2 e)
       [("targetFile", "targetFile"); ("targetFunction", "targetFunction");
        ("suggestedTest", "suggestedTest"); ("edgeCaseId", "id")]);
     AgentSpy.vu_toolName := None; AgentSpy.vu_blocked := false; AgentSpy.vu_matchedPattern := None;
     AgentSpy.vu_category := "security_edge_case"; AgentSpy.vu_toolUseId := None;
     AgentSpy.vu_turnNumber := None; AgentSpy.vu_owaspCategory := Some "A03:2021-Injection";
     AgentSpy.vu_cweId := Some "CWE-20"; AgentSpy.vu_filePath := textOf <$> field "targetFile" e;
     AgentSpy.vu_lineNumber := None; AgentSpy.vu_codeSnippet := None;
     AgentSpy.vu_recommendation := textOf <$> field "suggestedTest" e;
     AgentSpy.vu_workspacePath := None; AgentSpy.vu_absoluteFilePath := None;
     AgentSpy.vu_storyId := None; AgentSpy.vu_iteration := None; AgentSpy.vu_repositoryName := None;
     AgentSpy.vu_repositoryType := None |}.

Definition exchange (sid : string) (p : Prompt) : M (option Json) :=
  es ← ask sid p; mret (extract (extractFinalOutput es)).

(** Each security edge case is handed to the spy. *)
Fixpoint registerAll (es : list Json) : M unit :=
  match es with
  | [] => mret tt
  | e :: es' => record (AExternal e);; registerAll es'
  end.

(** ** The runs *)

Record RunState := {
  r_passed : bool;
  r_run : Json;
  r_failed : Json;
  r_coverage : Json;
  r_attempts : list FixAttempt;
}.

Definition zeroJ : Json := JNum JsNum.zero.

Definition startRuns : RunState :=
  {| r_passed := false; r_run := zeroJ; r_failed := zeroJ; r_coverage := zeroJ; r_attempts := [] |}.

(** One fixer exchange. *)
Definition fixTests (sid : string) (k : nat) (failed : Json) : M FixAttempt :=
  emit (EvProgress "fixing" (Some k));;
  check (mappable readable failed) "failedTests.map";;
  d ← exchange sid (PFixTests (elements failed) k);
  let fixes := optField "fixesApplied" d in
  check (match fixes with
         | Some v => if negb (isNull v) && nonEmpty v then loopable v else true
         | None => true end) "fixesApplied is not iterable";;
  emit (EvFixApplied k);;
  mret {| fa_iteration := k; fa_failedTests := elements failed;
          fa_fixesApplied := default (JArr []) (optTruthy "fixesApplied" d);
          fa_testsPassedAfter := JsNum.zero; fa_testsFailedAfter := zeroJ; fa_success := false |}.

(** [while (!testsPassed && iteration < maxIterations)]: [fuel] iterations are
    left, [k] were made. *)
Fixpoint runLoop (sid : string) (files : list (option Json)) (framework : Json) (fuel k : nat) (st : RunState)
    : M RunState :=
  match fuel with
  | 0 => mret st
  | S fuel' =>
      let k' := S k in
      setCounter k';;
      emit (EvProgress "running" (Some k'));;
      d ← exchange sid (PRun files framework);
      let st' := {| r_passed := match optTruthy "testsFailed" d with None => true | Some _ => false end;
                    r_run := default zeroJ (optTruthy "testsRun" d);
                    r_failed := default zeroJ (optTruthy "testsFailed" d);
                    r_coverage := default zeroJ (optTruthy "coveragePercent" d);
                    r_attempts := r_attempts st |} in
      if r_passed st' then mret st'
      else if k' <? g_maxIterations c then
        a ← fixTests sid k' (default (JArr []) (optTruthy "failedTests" d));
        runLoop sid files framework fuel' k'
          {| r_passed := false; r_run := r_run st'; r_failed := r_failed st';
             r_coverage := r_coverage st'; r_attempts := r_attempts st ++ [a] |}
      else runLoop sid files framework fuel' k' st'
  end.

(** The last fix attempt gets the final numbers. *)
Definition closeAttempts (st : RunState) : list FixAttempt :=
  match reverse (r_attempts st) with
  | [] => []
  | a :: earlier =>
      reverse earlier ++
      [{| fa_iteration := fa_iteration a; fa_failedTests := fa_failedTests a;
          fa_fixesApplied := fa_fixesApplied a;
          fa_testsPassedAfter := JsNum.sub (numberOf (r_run st)) (numberOf (r_failed st));
          fa_testsFailedAfter := r_failed st; fa_success := r_passed st |}]
  end.

Definition failed (sid : string) (k : nat) (e : string) : TestOutcome :=
  {| to_success := false; to_sessionId := sid; to_testsGenerated := []; to_edgeCases := JArr [];
     to_coverageGaps := JArr []; to_testsPassed := false; to_testsRun := zeroJ; to_testsFailed := zeroJ;
     to_coverageAfter := None; to_iterations := k; to_fixAttempts := []; to_error := Some e |}.

Definition nothingToTest (sid : string) : TestOutcome :=
  {| to_success := true; to_sessionId := sid; to_testsGenerated := []; to_edgeCases := JArr [];
     to_coverageGaps := JArr []; to_testsPassed := true; to_testsRun := zeroJ; to_testsFailed := zeroJ;
     to_coverageAfter := None; to_iterations := 0; to_fixAttempts := []; to_error := None |}.

(** STEPS 2 to 4. *)
Definition generateAndRun (sid : string) (gaps edgeCases framework : Json) : M TestOutcome :=
  emit (EvProgress "generating" None);;
  check (mappable readable gaps) "gaps.map";;
  d ← exchange sid (PGenerate (elements gaps) (elements edgeCases) framework);
  let tests := default (JArr []) (optTruthy "tests" d) in
  check (mappable readable tests) "testsGenerated.map";;
  st ← runLoop sid (field "file" <$> elements tests) framework (g_maxIterations c) 0 startRuns;
  let attempts := closeAttempts st in
  (if g_autoApprove c then mret true
   else
     a ← approval tid "TestGeneration";
     mret (negb (bool_decide (ApprovalService.action a = ApprovalService.Reject)))) ≫= fun ok : bool =>
  abort sid;;
  k ← Js.gets counter;
  (if ok then emit (EvComplete "TestGeneration" (r_passed st)) else mret tt);;
  mret {| to_success := ok && r_passed st; to_sessionId := sid; to_testsGenerated := elements tests;
          to_edgeCases := edgeCases; to_coverageGaps := gaps; to_testsPassed := ok && r_passed st;
          to_testsRun := r_run st; to_testsFailed := r_failed st; to_coverageAfter := Some (r_coverage st);
          to_iterations := k; to_fixAttempts := attempts;
          to_error := if ok then None else Some "Rejected by user" |}.

(** [stories.map(s => [...(s.filesToModify || []), ...])] is total on stories. *)
Definition testsInSession (sid : string) : M TestOutcome :=
  emit (EvProgress "analyzing" None);;
  d ← exchange sid (PAnalyze (g_stories c));
  match (v ← d; if truthy v then Some v else None) with
  | None => Js.throw "Failed to analyze code for tests"
  | Some a =>
      let framework := default (JStr "jest") (truthyField "testFramework" a) in
      let gaps := default (JArr []) (truthyField "coverageGaps" a) in
      let edgeCases := default (JArr []) (truthyField "edgeCases" a) in
      check (mappable readable edgeCases) "edgeCases.filter";;
      registerAll (base.filter (fun e => isSecurity e = true) (elements edgeCases));;
      if lengthZero gaps && lengthZero edgeCases then abort sid;; mret (nothingToTest sid)
      else generateAndRun sid gaps edgeCases framework
  end.

Definition onError (sid : option string) (msg : string) : M TestOutcome :=
  emit (EvFailed "TestGeneration" msg);;
  k ← Js.gets counter;
  match JsStr.orNull sid with
  | Some s => attempt (abort s);; mret (failed s k msg)
  | None => mret (failed "error-no-session" k msg)
  end.

Definition register (rowId sid : string) : M unit :=
  record (ARegister sid);;
  onSessions (SessionRepository.create rowId now
    {| cs_sessionId := sid; cs_taskId := tid; cs_directory := g_projectPath c;
       cs_phaseName := Some "TestGeneration"; cs_mode := Some MAll; cs_permissions := noPermissions |}).

Definition runTestGenerationPhase (rowId : string) : M TestOutcome :=
  setCounter 0;;
  emit (EvStart "TestGeneration" None);;
  inSession ("Tests: " +:+ t_title (g_task c)) (register rowId) testsInSession onError.

End phase.
End TestGenerationPhase.
