(* ===== verification/TestGenerationPhaseProofs.v ===== *)
(** * Theorems on the test generation phase

    It always returns, within its iteration limit and a bounded number of
    prompts; what counts as a passing run; what it leaves in the session table;
    and the law the orchestrator needs of it. *)

From S2P Require Import Prelude JsNumber Json Regex Approval Sessions SessionsProofs TaskTypes SpyPatterns AgentSpy TaskRepository Orchestrator AgentPhase TestGenerationPhase.
From stdpp Require Import options.

Module TestSpec.
Import Json SessionRepository TaskRepository AgentPhase TestGenerationPhase.

Section phase.
Context {E : Type} `{!AgentEnv Prompt E}.
Variables (now : Z) (c : TestContext).

Lemma rows_exchange sid p : keeps (E := E) rowsStay (exchange sid p).
Proof. unfold exchange. rows_steps. Qed.
Lemma sess_exchange sid p : keeps (E := E) sameSessions (exchange sid p).
Proof. unfold exchange. sess_steps. Qed.

#[local] Hint Resolve rows_exchange : rows.
#[local] Hint Resolve sess_exchange : sess.

Lemma rows_fixTests sid k v : keeps (E := E) rowsStay (fixTests sid k v).
Proof. unfold fixTests. rows_steps. Qed.
Lemma sess_fixTests sid k v : keeps (E := E) sameSessions (fixTests sid k v).
Proof. unfold fixTests. sess_steps. Qed.

Lemma rows_registerAll es : keeps (E := E) rowsStay (registerAll es).
Proof. induction es; cbn [registerAll]; rows_steps. Qed.
Lemma sess_registerAll es : keeps (E := E) sameSessions (registerAll es).
Proof. induction es; cbn [registerAll]; sess_steps. Qed.

#[local] Hint Resolve rows_fixTests rows_registerAll : rows.
#[local] Hint Resolve sess_fixTests sess_registerAll : sess.

Lemma rows_runLoop sid files fw fuel k st : keeps (E := E) rowsStay (runLoop c sid files fw fuel k st).
Proof. revert k st. induction fuel as [|fuel IH]; intros k st; cbn [runLoop]; rows_steps. Qed.
Lemma sess_runLoop sid files fw fuel k st : keeps (E := E) sameSessions (runLoop c sid files fw fuel k st).
Proof. revert k st. induction fuel as [|fuel IH]; intros k st; cbn [runLoop]; sess_steps. Qed.

#[local] Hint Resolve rows_runLoop : rows.
#[local] Hint Resolve sess_runLoop : sess.

Lemma rows_testsInSession sid : keeps (E := E) rowsStay (testsInSession c sid).
Proof. unfold testsInSession, generateAndRun. rows_steps. Qed.
Lemma sess_testsInSession sid : keeps (E := E) sameSessions (testsInSession c sid).
Proof. unfold testsInSession, generateAndRun. sess_steps. Qed.

Lemma rows_testError sid m : keeps (E := E) rowsStay (onError sid m).
Proof. unfold onError. rows_steps. Qed.
Lemma sess_testError sid m : keeps (E := E) sameSessions (onError sid m).
Proof. unfold onError. sess_steps. Qed.

Lemma rows_tests rowId : keeps (E := E) rowsStay (runTestGenerationPhase now c rowId).
Proof.
  do 2 (apply keeps_bind; [apply _|first [apply rowsStay_setCounter|apply rowsStay_record]|intros _]).
  apply keeps_inSession; [apply _|apply rowsStay_call|unfold register; rows_steps
    |apply rows_testsInSession|apply rows_testError].
Qed.

(** ** The phase returns *)

Lemma total_testError sid m : total (E := E) (onError sid m).
Proof.
  apply total_bind; [apply total_record|]. intros _. apply total_bind; [apply total_gets|]. intros k.
  destruct (JsStr.orNull sid); [|apply total_ret].
  apply total_bind; [apply total_attempt|intros; apply total_ret].
Qed.

Lemma total_tests rowId : total (E := E) (runTestGenerationPhase now c rowId).
Proof.
  apply total_bind; [intros w; by do 2 eexists|]. intros _. apply total_bind; [apply total_record|]. intros _.
  apply total_inSession, total_testError.
Qed.

(** ** Prompts *)

Lemma costs_exchange sid p : costs (E := E) promptWeight 1 (exchange sid p).
Proof. apply (costs_bind _ 1 0); [apply costs_ask|intros; apply costs_ret]. Qed.

Lemma costs_fixTests sid k v : costs (E := E) promptWeight 1 (fixTests sid k v).
Proof.
  unfold fixTests. skip_free. apply (costs_bind _ 1 0); [apply costs_exchange|]. intros d. cbv zeta. skip_free.
  apply costs_ret.
Qed.

Lemma costs_runLoop sid files fw fuel k st :
  costs (E := E) promptWeight (2 * fuel) (runLoop c sid files fw fuel k st).
Proof.
  revert k st. induction fuel as [|fuel IH]; intros k st; cbn [runLoop]; [apply costs_ret|]. cbv zeta.
  replace (2 * S fuel) with (1 + (1 + 2 * fuel)) by lia. skip_free.
  apply (costs_bind _ 1 (1 + 2 * fuel)); [apply costs_exchange|]. intros d.
  destruct (r_passed _); [eapply costs_weaken; [apply costs_ret|lia]|].
  destruct (_ <? _); [|eapply costs_weaken; [apply IH|lia]].
  apply (costs_bind _ 1 (2 * fuel)); [apply costs_fixTests|]. intros. apply IH.
Qed.

Lemma free_registerAll es : acts (E := E) (fun a => promptWeight a = 0) (registerAll es).
Proof. induction es; cbn [registerAll]; [apply acts_ret|]. apply acts_bind; [by apply acts_record|done]. Qed.

Lemma costs_testsInSession sid :
  costs (E := E) promptWeight (2 + 2 * g_maxIterations c) (testsInSession c sid).
Proof.
  unfold testsInSession. skip_free. apply (costs_bind _ 1 (1 + 2 * g_maxIterations c)); [apply costs_exchange|].
  intros d. destruct (_ ≫= _) as [a|].
  2: { apply costs_weaken with 0; [apply costs_acts, acts_throw|lia]. }
  cbv zeta. skip_free. apply costs_free; [apply free_registerAll|].
  destruct (_ && _).
  { apply costs_weaken with 0; [|lia]. apply costs_free; [by apply acts_call|apply costs_ret]. }
  unfold generateAndRun. skip_free. apply (costs_bind _ 1 (2 * g_maxIterations c)); [apply costs_exchange|].
  intros d2. cbv zeta. skip_free. replace (2 * g_maxIterations c) with (2 * g_maxIterations c + 0) by lia.
  apply costs_bind; [apply costs_runLoop|]. intros st. apply (costs_bind _ 0 0).
  { destruct (g_autoApprove c); [apply costs_ret|].
    apply (costs_bind _ 0 0); [by apply costs_call|intros; apply costs_ret]. }
  intros ok. apply costs_free; [by apply acts_call|].
  apply (costs_bind _ 0 0); [apply costs_acts, acts_gets|]. intros k.
  apply costs_free; [destruct ok; [by apply acts_record|apply acts_ret]|apply costs_ret].
Qed.

Lemma costs_onError sid m : costs (E := E) promptWeight 0 (onError sid m).
Proof.
  unfold onError. skip_free. apply (costs_bind _ 0 0); [apply costs_acts, acts_gets|]. intros k.
  destruct (JsStr.orNull sid); [|apply costs_ret].
  apply (costs_bind _ 0 0); [apply costs_acts, acts_attempt; by apply acts_call|intros; apply costs_ret].
Qed.

Lemma costs_tests rowId :
  costs (E := E) promptWeight (2 + 2 * g_maxIterations c) (runTestGenerationPhase now c rowId).
Proof.
  unfold runTestGenerationPhase. apply costs_free; [apply acts_setCounter|].
  apply costs_free; [by apply acts_record|].
  apply costs_inSession; [done| |apply costs_testsInSession|apply costs_onError].
  intros sid. apply acts_bind; [by apply acts_record|intros; apply acts_onSessions].
Qed.

(** ** The iteration count *)

(** From a count within the limit, [m] ends within it, and its value satisfies
    [Q]. *)
Definition within {A} (m : JsM (W Prompt E) A) (Q : A -> Prop) : Prop :=
  forall w, counter w <= g_maxIterations c ->
    counter (m w).2 <= g_maxIterations c /\ forall a, (m w).1 = Ok a -> Q a.

Lemma within_weaken {A} (m : JsM (W Prompt E) A) (Q Q' : A -> Prop) :
  within m Q -> (forall a, Q a -> Q' a) -> within m Q'.
Proof. intros Hm HQ w Hw. destruct (Hm w Hw). auto. Qed.

Lemma within_ret {A} (a : A) (Q : A -> Prop) : Q a -> within (mret a) Q.
Proof. intros Ha w Hw. split; [done|]. by intros ? [= <-]. Qed.

Lemma within_bind {A B} (m : JsM (W Prompt E) A) (k : A -> JsM (W Prompt E) B) Q Q' :
  within m Q -> (forall a, Q a -> within (k a) Q') -> within (m ≫= k) Q'.
Proof.
  intros Hm Hk w Hw. destruct (Hm w Hw) as [H1 H2]. unfold mbind, jsm_bind.
  destruct (m w) as [[a|e] w1]; simpl in *; [by apply Hk; auto|]. split; [done|]. intros a [=].
Qed.

Lemma within_then {A B} (m : JsM (W Prompt E) A) (k : A -> JsM (W Prompt E) B) Q' :
  within m (fun _ => True) -> (forall a, within (k a) Q') -> within (m ≫= k) Q'.
Proof. intros Hm Hk. by eapply within_bind; [exact Hm|auto]. Qed.

Lemma within_try {A} (m : JsM (W Prompt E) A) h (Q : A -> Prop) :
  within m Q -> (forall e, within (h e) Q) -> within (Js.try_catch m h) Q.
Proof.
  intros Hm Hh w Hw. destruct (Hm w Hw) as [H1 H2]. unfold Js.try_catch.
  destruct (m w) as [[a|e] w1]; simpl in *; [by auto|]. by apply Hh.
Qed.

Lemma within_call {A} a (f : E -> outcome A * E) : within (call a f) (fun _ => True).
Proof. intros w Hw. unfold call. by destruct (f (env w)). Qed.

Lemma within_record a : within (record a) (fun _ => True).
Proof. by intros w Hw. Qed.

Lemma within_onSessions f : within (onSessions f) (fun _ => True).
Proof. by intros w Hw. Qed.

Lemma within_setCounter k : k <= g_maxIterations c -> within (setCounter k) (fun _ => True).
Proof. by intros Hk w Hw. Qed.

Lemma within_check b m : within (check b m) (fun _ => True).
Proof. intros w Hw. by destruct b. Qed.

Lemma within_counter : within (Js.gets counter) (fun k => k <= g_maxIterations c).
Proof. intros w Hw. split; [done|]. by intros ? [= <-]. Qed.

Lemma within_exchange sid p : within (exchange sid p) (fun _ => True).
Proof.
  apply within_then; [|intros; by apply within_ret]. apply within_then; [apply within_call|].
  intros. apply within_call.
Qed.

Lemma within_fixTests sid k v : within (fixTests sid k v) (fun _ => True).
Proof.
  unfold fixTests. apply within_then; [apply within_record|intros _]. apply within_then; [apply within_check|intros _].
  apply within_then; [apply within_exchange|intros d]. apply within_then; [apply within_check|intros _].
  apply within_then; [apply within_record|intros _]. by apply within_ret.
Qed.

Lemma within_registerAll es : within (registerAll es) (fun _ => True).
Proof.
  induction es; cbn [registerAll]; [by apply within_ret|]. by apply within_then; [apply within_record|].
Qed.

Lemma within_runLoop sid files fw fuel k st :
  k + fuel <= g_maxIterations c -> within (runLoop c sid files fw fuel k st) (fun _ => True).
Proof.
  revert k st. induction fuel as [|fuel IH]; intros k st Hk; cbn [runLoop]; [by apply within_ret|]. cbv zeta.
  apply within_then; [apply within_setCounter; lia|intros _]. apply within_then; [apply within_record|intros _].
  apply within_then; [apply within_exchange|intros d]. destruct (r_passed _); [by apply within_ret|].
  destruct (_ <? _); [|apply IH; lia]. apply within_then; [apply within_fixTests|]. intros a. apply IH. lia.
Qed.

Lemma within_testsInSession sid : within (testsInSession c sid) (fun o => to_iterations o <= g_maxIterations c).
Proof.
  unfold testsInSession. apply within_then; [apply within_record|intros _].
  apply within_then; [apply within_exchange|intros d]. destruct (_ ≫= _) as [a|]; [|by intros w Hw].
  cbv zeta. apply within_then; [apply within_check|intros _]. apply within_then; [apply within_registerAll|intros _].
  destruct (_ && _).
  { apply within_then; [apply within_call|intros _]. apply within_ret. simpl. lia. }
  unfold generateAndRun. apply within_then; [apply within_record|intros _].
  apply within_then; [apply within_check|intros _]. apply within_then; [apply within_exchange|intros d2].
  cbv zeta. apply within_then; [apply within_check|intros _]. apply within_then; [by apply within_runLoop|intros st].
  apply within_then.
  { destruct (g_autoApprove c); [by apply within_ret|].
    apply within_then; [apply within_call|intros; by apply within_ret]. }
  intros ok. apply within_then; [apply within_call|intros _]. eapply within_bind; [apply within_counter|].
  intros k Hk. apply within_then; [destruct ok; [apply within_record|by apply within_ret]|].
  intros _. by apply within_ret.
Qed.

Lemma within_onError sid m : within (onError sid m) (fun o => to_iterations o <= g_maxIterations c).
Proof.
  unfold onError. apply within_then; [apply within_record|intros _]. eapply within_bind; [apply within_counter|].
  intros k Hk. destruct (JsStr.orNull sid); [|by apply within_ret].
  apply within_then; [|intros; by apply within_ret]. apply within_try; [|intros; by apply within_ret].
  apply within_then; [apply within_call|intros; by apply within_ret].
Qed.

Lemma within_run rowId w o w' :
  runTestGenerationPhase (E := E) now c rowId w = (Ok o, w') -> to_iterations o <= g_maxIterations c.
Proof.
  intros Hr. unfold runTestGenerationPhase, mbind, jsm_bind in Hr. cbn -[inSession] in Hr.
  revert Hr. set (w0 := {| counter := 0 |}). intros Hr.
  assert (within (inSession ("Tests: " +:+ t_title (g_task c)) (register now c rowId) (testsInSession c) onError)
    (fun o => to_iterations o <= g_maxIterations c)) as Hin.
  { eapply within_then; [apply within_try; [|intros; by apply within_ret]|].
    - apply within_then; [apply within_call|intros; by apply within_ret].
    - intros [sid|e]; [|apply within_onError]. apply within_try; [|apply within_onError].
      apply within_then; [|intros; apply within_testsInSession].
      apply within_then; [apply within_record|intros; apply within_onSessions]. }
  destruct (Hin w0 ltac:(simpl; lia)) as [_ H]. apply H. by rewrite Hr.
Qed.

End phase.

(** C26 Test generation always returns, whatever the agents, the user and
    OpenCode do: after at most two prompts and two for each iteration, and with
    at most [maxIterations] test runs counted. *)
Theorem test_generation_bounded {E} `{!AgentEnv Prompt E} now c rowId w :
  exists o w' l, runTestGenerationPhase (E := E) now c rowId w = (Ok o, w')
    /\ to_iterations o <= g_maxIterations c
    /\ trace w' = trace w ++ l /\ weight promptWeight l <= 2 + 2 * g_maxIterations c.
Proof.
  destruct (total_tests now c rowId w) as (o & w' & Hr).
  destruct (costs_tests now c rowId w) as (l & Hl & Hw). rewrite Hr in Hl.
  exists o, w', l. split; [done|]. split; [by eapply within_run|done].
Qed.

(** A test run whose output holds no JSON counts as a run in which every
    test passed: the loop stops there, reporting no test run and none failed,
    and the fixer is not asked. *)
Theorem unreadable_run_passes {E} `{!AgentEnv Prompt E} c sid files fw fuel k st w es w1 :
  ask (E := E) sid (PRun files fw) ((setCounter (S k);; emit (EvProgress "running" (Some (S k)))) w).2 = (Ok es, w1) ->
  extractJsonFromOutput (jsonParse Prompt E) (extractFinalOutput es) = None ->
  runLoop c sid files fw (S fuel) k st w =
    (Ok {| r_passed := true; r_run := zeroJ; r_failed := zeroJ; r_coverage := zeroJ; r_attempts := r_attempts st |}, w1).
Proof.
  intros Ha Hx. cbn [runLoop]. cbv zeta. unfold exchange, mbind, jsm_bind in *. cbn -[ask] in *.
  rewrite Ha. unfold mret, jsm_ret. by rewrite Hx.
Qed.

(** ** A concrete run *)

Definition demoDocs : list (string * Json) :=
  [("A", JObj [("testFramework", JStr "vitest"); ("coverageGaps", JArr [JObj [("file", JStr "a.ts")]])]);
   ("T", JObj [("tests", JArr [JObj [("file", JStr "a.test.ts")]])]);
   ("F", JObj [("testsRun", JNum (JsNum.ofZ 3)); ("testsFailed", JNum (JsNum.ofZ 1))]);
   ("X", JObj [("fixesApplied", JArr [])])].

#[local] Instance demoEnv : AgentEnv Prompt (list string) := scripted Prompt (table demoDocs) (Throw "closed").

Definition demoCtx : TestContext :=
  {| g_task := mapRow (newRow "t1" 0 {| cp_userId := "u"; cp_projectId := None; cp_repositoryId := None;
       cp_title := "Add login"; cp_description := None; cp_status := None |});
     g_projectPath := "/w"; g_stories := []; g_autoApprove := true; g_maxIterations := 3 |}.

Definition demoW (answers : list string) : W Prompt (list string) :=
  {| env := answers; sessions := []; tasks := ∅; trace := []; counter := 0 |}.

Definition outcomeOf (answers : list string) : option (bool * nat * nat) :=
  match (runTestGenerationPhase 5 demoCtx "row1" (demoW answers)).1 with
  | Ok o => Some (to_success o, to_iterations o, length (to_fixAttempts o))
  | Throw _ => None
  end.

(** One failed run, a fix, then an answer without JSON: the phase succeeds. *)
Example fixed_then_unreadable : outcomeOf ((fenced <$> ["A"; "T"; "F"; "X"]) ++ ["all good"]) = Some (true, 2, 1).
Proof. by vm_compute. Qed.

(** Three failed runs: the phase fails after two fixes. *)
Example never_fixed : outcomeOf (fenced <$> ["A"; "T"; "F"; "X"; "F"; "X"; "F"]) = Some (false, 3, 2).
Proof. by vm_compute. Qed.

Lemma unreadable_run_passes_witness :
  r_passed <$> match (runLoop demoCtx "s1" [] (JStr "jest") 3 0 startRuns (demoW ["2 failed"])).1 with
               | Ok r => Some r | Throw _ => None end = Some true.
Proof.
  rewrite (unreadable_run_passes (AgentEnv0 := demoEnv) demoCtx "s1" [] (JStr "jest") 2 0 startRuns (demoW ["2 failed"])
    [OcPart "text" (Some "2 failed")]
    (ask (P := Prompt) "s1" (PRun [] (JStr "jest"))
      ((setCounter 1;; emit (EvProgress "running" (Some 1))) (demoW ["2 failed"])).2).2);
    [reflexivity|by vm_compute|by vm_compute].
Defined.

End TestSpec.
