(* ===== verification/PhaseLinks.v ===== *)
(** * The phases behind the orchestrator

    The orchestrator's theorems are proved against the interface
    [PhaseRunners]. Here the five phase models are made into an instance of it:
    each phase runs from an arbitrary state of the agents, the user and git and
    an arbitrary session table, on the orchestrator's task table. The laws of
    the interface follow from the phases' own lemmas, and the composition shows
    what a run of the whole pipeline can and cannot do. *)

From S2P Require Import Prelude JsNumber Json Approval Sessions TaskTypes TaskRepository TaskRepositoryProofs MergePhase GlobalScan BuildCheck DeveloperPhase DeveloperPhaseProofs MergePhaseProofs Orchestrator OrchestratorProofs AgentPhase AnalysisPhase AnalysisPhaseProofs PlanningPhase PlanningPhaseProofs TestGenerationPhase TestGenerationPhaseProofs.
From stdpp Require Import options.

Module PhaseLinks.
Import TaskTypes TaskRepository.

(** ** The developer phase deletes no task *)

Section developer.
Context {E : Type} `{!DeveloperPhase.DevEnv E}.

Definition kept {A} (m : JsM (DeveloperPhase.W E) A) : Prop :=
  forall w i, is_Some (DeveloperPhase.tasks w !! i) -> is_Some (DeveloperPhase.tasks (m w).2 !! i).

Lemma kept_ret {A} (a : A) : kept (mret a).
Proof. by intros w i. Qed.

Lemma kept_throw {A} e : kept (A := A) (Js.throw e).
Proof. by intros w i. Qed.

Lemma kept_lift {A} (o : outcome A) : kept (DeveloperPhase.lift o).
Proof. by intros w i. Qed.

Lemma kept_record a : kept (DeveloperPhase.record a).
Proof. by intros w i. Qed.

Lemma kept_onSessions f : kept (DeveloperPhase.onSessions f).
Proof. by intros w i. Qed.

Lemma kept_call {A} a (f : E -> outcome A * E) : kept (DeveloperPhase.call a f).
Proof. intros w i. unfold DeveloperPhase.call. by destruct (f (DeveloperPhase.env w)). Qed.

Lemma kept_index now t k : kept (DeveloperPhase.onTasks (setLastCompletedStoryIndex now t k)).
Proof. intros w i Hi. simpl. by apply (TaskRepoSpec.execOp_keeps now t (TaskRepoSpec.OStory k)). Qed.

Lemma kept_bind {A B} (m : JsM (DeveloperPhase.W E) A) (k : A -> JsM (DeveloperPhase.W E) B) :
  kept m -> (forall a, kept (k a)) -> kept (m ≫= k).
Proof.
  intros Hm Hk w i Hi. specialize (Hm w i Hi). unfold mbind, jsm_bind.
  destruct (m w) as [[a|e] w1]; [by apply Hk|done].
Qed.

Lemma kept_try {A} (m : JsM (DeveloperPhase.W E) A) h :
  kept m -> (forall e, kept (h e)) -> kept (Js.try_catch m h).
Proof.
  intros Hm Hh w i Hi. specialize (Hm w i Hi). unfold Js.try_catch.
  destruct (m w) as [[a|e] w1]; [done|by apply Hh].
Qed.

End developer.

Create HintDb kept.
#[export] Hint Resolve kept_ret kept_throw kept_lift kept_record kept_onSessions kept_call kept_index : kept.
#[export] Hint Extern 1 (kept (DeveloperPhase.emit _)) => apply kept_record : kept.
#[export] Hint Extern 1 (kept (DeveloperPhase.prompt _ _)) => apply kept_call : kept.
#[export] Hint Extern 1 (kept (DeveloperPhase.wait _)) => apply kept_call : kept.
#[export] Hint Extern 1 (kept (DeveloperPhase.changed _)) => apply kept_call : kept.

Ltac kept_steps :=
  repeat first
    [ progress intros
    | progress cbn zeta
    | solve [eauto with kept]
    | apply kept_bind
    | apply kept_try
    | case_match ].

Section developer_rows.
Import DeveloperPhase.
Context {E : Type} `{!DevEnv E}.
Variables (now : Z) (c : DeveloperPhaseContext).

Lemma kept_forRepos f rs : (forall r, kept (E := E) (f r)) -> kept (forRepos f rs).
Proof. intros Hf. induction rs as [|r rs IH]; simpl; kept_steps. Qed.

Lemma kept_checkoutAll : kept (E := E) (checkoutAll c).
Proof. unfold checkoutAll. apply kept_forRepos. unfold attempt. kept_steps. Qed.

Lemma kept_anyChanges rs : kept (E := E) (anyChanges rs).
Proof. induction rs as [|r rs IH]; simpl; unfold attempt; kept_steps. Qed.

Lemma kept_buildOne r : kept (E := E) (buildOne r).
Proof. unfold buildOne, attempt. kept_steps. Qed.

#[local] Hint Resolve kept_checkoutAll kept_anyChanges kept_buildOne : kept.

Lemma kept_builds rs : kept (E := E) (runBuildChecksOnRepos rs).
Proof. induction rs as [|r rs IH]; simpl; kept_steps. Qed.

Lemma kept_rollbackAll rs : kept (E := E) (rollbackAll rs).
Proof. induction rs as [|r rs IH]; simpl; unfold attempt; kept_steps. Qed.

Lemma kept_commitAll m s rs : kept (E := E) (commitAll m s rs).
Proof. induction rs as [|r rs IH]; simpl; unfold attempt; kept_steps. Qed.

#[local] Hint Resolve kept_builds kept_rollbackAll kept_commitAll : kept.

Lemma kept_storyLoop sid story i n fuel st : kept (E := E) (storyLoop c sid story i n fuel st).
Proof.
  revert st. induction fuel as [|fuel IH]; intros st; simpl; unfold judge, spy, attempt; kept_steps.
Qed.

#[local] Hint Resolve kept_storyLoop : kept.

Lemma kept_executeStory rowId story i n : kept (E := E) (executeStoryWithSession now c rowId story i n).
Proof. unfold executeStoryWithSession, storyInSession, openSession, attempt. kept_steps. Qed.

Lemma kept_buildLoop sid fuel k sr : kept (E := E) (buildLoop c sid fuel k sr).
Proof. revert k sr. induction fuel as [|fuel IH]; intros k sr; simpl; unfold attempt; kept_steps. Qed.

Lemma kept_gatherGitInfo : kept (E := E) (gatherGitInfo c).
Proof.
  unfold gatherGitInfo, attempt. apply kept_bind; [|kept_steps]. apply kept_forRepos. kept_steps.
Qed.

#[local] Hint Resolve kept_executeStory kept_buildLoop kept_gatherGitInfo : kept.

Lemma kept_approvalLoop story fuel k x : kept (E := E) (approvalLoop c story fuel k x).
Proof.
  revert k x. induction fuel as [|fuel IH]; intros k x; simpl; [apply kept_ret|].
  apply kept_bind; [unfold approvalRound, feedbackRound, judge, spy, attempt; kept_steps|]. kept_steps.
Qed.

#[local] Hint Resolve kept_approvalLoop : kept.

Lemma kept_processStory rowId i n story acc : kept (E := E) (processStory now c rowId i n story acc).
Proof. unfold processStory, settleApproved, settleRejected. kept_steps. Qed.

#[local] Hint Resolve kept_processStory : kept.

Lemma kept_processStories ids i n l acc : kept (E := E) (processStories now c ids i n l acc).
Proof. revert i acc. induction l as [|story l IH]; intros i acc; simpl; kept_steps. Qed.

#[local] Hint Resolve kept_processStories : kept.

Lemma kept_executeDeveloperPhase ids : kept (E := E) (executeDeveloperPhase now c ids).
Proof. unfold executeDeveloperPhase. kept_steps. Qed.

End developer_rows.

(** ** A developed task reaches the merge *)

Section merge_follows.
Import Orchestrator.
Context `{PR : PhaseRunners}.
Variables (now : Z) (taskId : string) (o : OrchestrationOptions) (task : Task).
Hypothesis answered : forall p, exists a, ask_approval taskId p = Ok a.
Hypothesis tests_return : forall c tb, exists r, (run_testGeneration c tb).1 = Ok r.
#[local] Set Default Proof Using "Type".

(** Before the developer phase has returned. *)
Definition undeveloped (s s' : S) : Prop := developerResult s = None -> developerResult s' = None.

#[local] Instance undeveloped_pre : PreOrder undeveloped.
Proof. split; [by intros s ?|]. intros a b c Hab Hbc Ha. auto. Qed.

Lemma undeveloped_onTasks f : OrchSpec.respects undeveloped (onTasks f).
Proof. by intros s ?. Qed.

Lemma undeveloped_emit e : OrchSpec.respects undeveloped (emit e).
Proof. by intros s ?. Qed.

Lemma undeveloped_callback c : OrchSpec.respects undeveloped (callback c).
Proof. by intros s ?. Qed.

Lemma undeveloped_assign a :
  match a with ADeveloper _ => False | _ => True end -> OrchSpec.respects undeveloped (assign a).
Proof. by destruct a; intros ? s ?. Qed.

Lemma undeveloped_runPhase {A} p (f : gmap string TaskRow -> outcome A * gmap string TaskRow) :
  OrchSpec.respects undeveloped (runPhase p f).
Proof. intros s ?. unfold runPhase. by destruct (f (tasks s)). Qed.

#[local] Hint Resolve OrchSpec.respects_gets OrchSpec.respects_ret OrchSpec.respects_throw OrchSpec.respects_lift
  OrchSpec.respects_callbacks undeveloped_onTasks undeveloped_emit undeveloped_callback undeveloped_runPhase : respects.
#[local] Hint Extern 1 (OrchSpec.respects undeveloped (assign _)) => apply undeveloped_assign; exact I : respects.

Lemma undeveloped_planning p : OrchSpec.respects undeveloped (phasePlanning now taskId o task p).
Proof. unfold phasePlanning. OrchSpec.respects_steps. Qed.

Lemma undeveloped_caching : OrchSpec.respects undeveloped (contextCaching taskId o).
Proof. unfold contextCaching. OrchSpec.respects_steps. Qed.

Lemma undeveloped_analysis p pl : OrchSpec.respects undeveloped (phaseAnalysis now taskId o task p pl).
Proof. unfold phaseAnalysis. OrchSpec.respects_steps. Qed.

(** A statement that can only return. *)
Definition returns {A} (m : JsM S A) : Prop := forall s, exists a s', m s = (Ok a, s').

Lemma returns_ret {A} (a : A) : returns (mret a).
Proof. intros s. by do 2 eexists. Qed.

Lemma returns_bind {A B} (m : JsM S A) (k : A -> JsM S B) : returns m -> (forall a, returns (k a)) -> returns (m ≫= k).
Proof. intros Hm Hk s. destruct (Hm s) as (a & s1 & H1). unfold mbind, jsm_bind. rewrite H1. apply Hk. Qed.

Lemma returns_then {B} (m : JsM S unit) (k : JsM S B) : returns m -> returns k -> returns (m;; k).
Proof. intros Hm Hk. by apply returns_bind. Qed.

Lemma returns_set (f : S -> S) : returns (Js.modify f).
Proof. intros s. by do 2 eexists. Qed.

Lemma returns_wait p q : returns (waitApproval now taskId p q).
Proof using answered.
  unfold waitApproval. do 2 (apply returns_then; [apply returns_set|]). apply returns_bind.
  - intros s. unfold lift. destruct (answered (phaseName p)) as [a ->]. by do 2 eexists.
  - intros a. do 2 (apply returns_then; [apply returns_set|]). apply returns_ret.
Qed.

Lemma returns_tests dev : returns (phaseTestGeneration now taskId o task dev).
Proof using answered tests_return.
  unfold phaseTestGeneration. destruct (opt_skipTestGeneration o); [apply returns_ret|].
  apply returns_then; [apply returns_set|]. apply returns_bind.
  - intros s. unfold runPhase. match goal with |- context [run_testGeneration ?c] =>
      destruct (tests_return c (tasks s)) as [r Hr]; destruct (run_testGeneration c (tasks s)) as [x tb] end.
    simpl in Hr. subst x. by do 2 eexists.
  - intros r. do 3 (apply returns_then; [apply returns_set|]).
    destruct (_ && _); [apply returns_wait|apply returns_ret].
Qed.

(** The phases started stay recorded. *)
Definition grows (s s' : S) : Prop := forall p, p ∈ calls s -> p ∈ calls s'.

#[local] Instance grows_pre : PreOrder grows.
Proof. split; [by intros s p|]. intros a b c Hab Hbc p Hp. auto. Qed.

Lemma merge_called an dev s : Merge ∈ calls (phaseMerge now taskId o task an dev s).2.
Proof.
  unfold phaseMerge. unfold mbind at 1, jsm_bind at 1. cbn [onTasks Js.modify].
  unfold mbind at 1, jsm_bind at 1, Js.gets at 1. cbv beta iota.
  unfold mbind at 1, jsm_bind at 1, runPhase at 1. cbv beta.
  match goal with |- context [run_merge ?c ?t] => destruct (run_merge c t) as [[r|e] tb] end;
    [|simpl; apply elem_of_app; right; apply list_elem_of_here].
  match goal with |- Merge ∈ calls (?m ?s1).2 => assert (grows s1 (m s1).2) as Hg end.
  { revert r. intros r. eapply (OrchSpec.respects_bind grows); [by intros s1 q|intros _].
    eapply (OrchSpec.respects_bind grows); [|intros _; by intros s1 q].
    apply OrchSpec.respects_callbacks; [apply _|]. by intros cb s1 q. }
  apply Hg. simpl. apply elem_of_app. right. apply list_elem_of_here.
Qed.

Lemma returns_callbacks (l : list Callback) : returns (foldr (fun c m => callback c;; m) (mret tt) l).
Proof. induction l; simpl; [apply returns_ret|]. by apply returns_then; [apply returns_set|]. Qed.

(** The developer phase throws before its result is assigned or not at all. *)
Lemma developer_throws p an s e s' :
  phaseDeveloper now taskId o task p an s = (Throw e, s') -> developerResult s = None -> developerResult s' = None.
Proof.
  unfold phaseDeveloper. unfold mbind at 1, jsm_bind at 1. cbn [onTasks Js.modify].
  unfold mbind at 1, jsm_bind at 1, runPhase at 1. cbv beta.
  match goal with |- context [run_developer ?c ?t] => destruct (run_developer c t) as [[r|m] tb] end.
  - intros Hr. exfalso. match type of Hr with ?m ?s1 = _ => assert (returns m) as Hm; [|destruct (Hm s1) as (? & ? & ?); congruence] end.
    do 2 (apply returns_then; [apply returns_set|]). apply returns_then; [apply returns_callbacks|].
    apply returns_then; [apply returns_set|apply returns_ret].
  - by intros [= <- <-].
Qed.

(** Once the developer phase has returned, the merge phase is started. *)
Lemma pipeline_merges p s :
  developerResult s = None ->
  is_Some (developerResult (pipeline now taskId o task p s).2) ->
  Merge ∈ calls (pipeline now taskId o task p s).2.
Proof using answered tests_return.
  intros H0. unfold pipeline.
  assert (forall {A B} (m : JsM S A) (k : A -> JsM S B) s, OrchSpec.respects undeveloped m ->
    developerResult s = None ->
    (forall a s', developerResult s' = None -> is_Some (developerResult (k a s').2) -> Merge ∈ calls (k a s').2) ->
    is_Some (developerResult ((m ≫= k) s).2) -> Merge ∈ calls ((m ≫= k) s).2) as Hpre.
  { intros A B m k s1 Hm Hs Hk. unfold mbind, jsm_bind. specialize (Hm s1 Hs).
    destruct (m s1) as [[a|e] s2]; simpl in *; [by apply Hk|]. rewrite Hm. by intros []. }
  assert (forall {A B} (m : JsM S A) (k : A -> JsM S B) s, returns m ->
    (forall a s', Merge ∈ calls (k a s').2) -> Merge ∈ calls ((m ≫= k) s).2) as Hpost.
  { intros A B m k s1 Hm Hk. destruct (Hm s1) as (a & s2 & H2). unfold mbind, jsm_bind. by rewrite H2. }
  apply Hpre; [apply undeveloped_planning|done|]. intros pl s1 H1.
  apply Hpre; [apply undeveloped_caching|done|]. intros [] s2 H2.
  apply Hpre; [apply undeveloped_analysis|done|]. intros an s3 H3.
  apply Hpre; [destruct (bool_decide _); [unfold waitApproval; OrchSpec.respects_steps|by intros ? ?]|done|].
  intros [] s4 H4. unfold mbind at 1 4, jsm_bind at 1 4.
  destruct (phaseDeveloper now taskId o task p an s4) as [[dev|e] s5] eqn:Hd.
  2: { simpl. rewrite (developer_throws _ _ _ _ _ Hd H4). by intros []. }
  intros _. apply Hpost; [destruct (bool_decide _); [apply returns_wait|apply returns_ret]|]. intros [] s6.
  apply Hpost; [apply returns_tests|]. intros [] s7. apply merge_called.
Qed.

Lemma undeveloped_finish : OrchSpec.respects undeveloped (finish now taskId o task).
Proof. unfold finish. OrchSpec.respects_steps. Qed.

Lemma execute_merges tb r s :
  findById taskId tb = Some task -> execute now taskId o tb = (Ok r, s) ->
  is_Some (or_developer r) -> Merge ∈ calls s.
Proof using answered tests_return.
  intros Hf He Hd. pose proof (OrchSpec.execute_found now taskId o tb task Hf) as Hx.
  unfold execute in He. rewrite Hf, OrchSpec.runTask_run in He.
  destruct (prepare_providers task) as [[]|e]; [|discriminate].
  destruct Hx as (g & s' & Hx & Hc & _). unfold execute in Hx. rewrite Hf, OrchSpec.runTask_run in Hx.
  destruct (prepare_providers task) as [[]|]; [|discriminate].
  pose proof (undeveloped_finish (OrchSpec.afterTry now taskId o task tb)) as Hu.
  destruct (finish _ _ _ _ _) as [[g'|] s1]; [|discriminate]. assert (s1 = s') as -> by congruence. injection He as <- <-.
  rewrite Hc. apply elem_of_app. left. apply pipeline_merges; [done|].
  fold (OrchSpec.afterTry now taskId o task tb). simpl in Hd. destruct (developerResult (OrchSpec.afterTry _ _ _ _ _)) eqn:E.
  - by eexists.
  - simpl in Hu. unfold undeveloped in Hu. rewrite Hu in Hd by done. by destruct Hd.
Qed.

End merge_follows.

(** ** The runners *)

(** The stories of a phase result, as the next phase reads them. *)
Definition asPlain (s : StoryResult) : Story :=
  {| s_id := sr_id s; s_title := sr_title s; s_description := sr_description s; s_status := sr_status s;
     s_filesToModify := sr_filesToModify s; s_filesToCreate := sr_filesToCreate s;
     s_filesToRead := sr_filesToRead s; s_acceptanceCriteria := sr_acceptanceCriteria s |}.

(** [{ ...task, description }] *)
Definition withDescription (t : Task) (d : string) : Task :=
  {| t_id := t_id t; t_userId := t_userId t; t_projectId := t_projectId t; t_repositoryId := t_repositoryId t;
     t_title := t_title t; t_description := Some d; t_status := t_status t; t_branchName := t_branchName t;
     t_analysis := t_analysis t; t_stories := t_stories t; t_prNumber := t_prNumber t; t_prUrl := t_prUrl t;
     t_createdAt := t_createdAt t; t_updatedAt := t_updatedAt t; t_completedPhases := t_completedPhases t;
     t_currentPhase := t_currentPhase t; t_currentStep := t_currentStep t; t_currentAgent := t_currentAgent t;
     t_lastCompletedStoryIndex := t_lastCompletedStoryIndex t; t_planningResult := t_planningResult t;
     t_failureReason := t_failureReason t |}.

Definition planningData (r : Orchestrator.ProductPlanningResult) : AnalysisPhase.PlanningData :=
  {| AnalysisPhase.pd_uxFlows := Orchestrator.pp_uxFlows r;
     AnalysisPhase.pd_plannedTasks := Orchestrator.pp_plannedTasks r;
     AnalysisPhase.pd_answers := Orchestrator.pc_answers <$> Orchestrator.pp_clarifications r |}.

Definition testResult (r : TestGenerationPhase.TestOutcome) : Orchestrator.TestGenerationResult :=
  {| Orchestrator.tg_testsGenerated := length (TestGenerationPhase.to_testsGenerated r);
     Orchestrator.tg_edgeCasesDetected := length (TestGenerationPhase.elements (TestGenerationPhase.to_edgeCases r));
     Orchestrator.tg_coverageGaps := length (TestGenerationPhase.elements (TestGenerationPhase.to_coverageGaps r));
     Orchestrator.tg_testsPassed := TestGenerationPhase.to_testsPassed r;
     Orchestrator.tg_coverageBefore := None;
     Orchestrator.tg_coverageAfter := TestGenerationPhase.to_coverageAfter r |}.

Definition mapOutcome {A B} (f : A -> B) (o : outcome A) : outcome B :=
  match o with Ok a => Ok (f a) | Throw e => Throw e end.

(** Run a phase on the table, from the given environment and sessions. *)
Definition onTable {P E A B} (f : A -> B) (m : JsM (AgentPhase.W P E) A) (e : E) (ss : list SessionRepository.Session)
    (tb : gmap string TaskRow) : outcome B * gmap string TaskRow :=
  let '(r, w) := m {| AgentPhase.env := e; AgentPhase.sessions := ss; AgentPhase.tasks := tb;
                      AgentPhase.trace := []; AgentPhase.counter := 0 |} in
  (mapOutcome f r, AgentPhase.tasks w).

Lemma onTable_keeps {P E A B} (f : A -> B) (m : JsM (AgentPhase.W P E) A) e ss tb i :
  AgentPhase.keeps AgentPhase.rowsStay m -> is_Some (tb !! i) -> is_Some ((onTable f m e ss tb).2 !! i).
Proof.
  intros Hm Hi. unfold onTable. set (w0 := {| AgentPhase.env := e |}).
  pose proof (Hm w0 i Hi) as H. by destruct (m w0) as [r w].
Qed.

Lemma onTable_total {P E A B} (f : A -> B) (m : JsM (AgentPhase.W P E) A) e ss tb :
  AgentPhase.total m -> exists a, (onTable f m e ss tb).1 = Ok a.
Proof.
  intros Hm. unfold onTable. destruct (Hm {| AgentPhase.env := e; AgentPhase.sessions := ss;
    AgentPhase.tasks := tb; AgentPhase.trace := []; AgentPhase.counter := 0 |}) as (a & w & ->). by eexists.
Qed.

(** The state of the world when a phase begins. *)
Record Start (E : Type) := { st_env : E; st_sessions : list SessionRepository.Session; st_rowId : string }.
Arguments st_env {E} _.
Arguments st_sessions {E} _.
Arguments st_rowId {E} _.

Section runners.
Context {Ep Ea Et Ed : Type}.
Context `{!AgentPhase.AgentEnv PlanningPhase.Prompt Ep, !AgentPhase.AgentEnv AnalysisPhase.Prompt Ea,
  !AgentPhase.AgentEnv TestGenerationPhase.Prompt Et, !DeveloperPhase.DevEnv Ed}.
Variables (sp : Start Ep) (sa : Start Ea) (st : Start Et) (sd : Start Ed) (storyRows : nat -> string).
Variables (now finished : Z) (projectPath : string) (repositories : list RepositoryInfo).
Variable hasChanges : string -> outcome bool.
Variable createPullRequest : string -> string -> string -> outcome MergePhase.PullRequestInfo.
Variable getPullRequestStatus : string -> Z -> outcome MergePhase.PRStatus.
Variable mergePullRequest : string -> Z -> outcome unit.
Variable rest : Orchestrator.PhaseRunners.

Definition planningRunner (t : Task) (auto skipSimple : bool) :=
  onTable PlanningPhase.po_result
    (PlanningPhase.runProductPlanningPhase now finished
       {| PlanningPhase.p_task := t; PlanningPhase.p_projectPath := projectPath;
          PlanningPhase.p_repositories := repositories; PlanningPhase.p_autoApprove := auto;
          PlanningPhase.p_skipForSimpleTasks := skipSimple |} (st_rowId sp))
    (st_env sp) (st_sessions sp).

Definition analysisRunner (c : Orchestrator.AnalysisContext) :=
  onTable (fun r => r)
    (AnalysisPhase.executeAnalysisPhase now
       {| AnalysisPhase.a_task := withDescription (Orchestrator.ac_task c) (Orchestrator.ac_description c);
          AnalysisPhase.a_projectPath := projectPath;
          AnalysisPhase.a_repositories := Orchestrator.ac_repositories c; AnalysisPhase.a_autoApprove := true;
          AnalysisPhase.a_planningData := planningData <$> Orchestrator.ac_planningData c |} (st_rowId sa))
    (st_env sa) (st_sessions sa).

Definition testRunner (c : Orchestrator.TestGenerationContext) :=
  onTable testResult
    (TestGenerationPhase.runTestGenerationPhase now
       {| TestGenerationPhase.g_task := Orchestrator.tc_task c; TestGenerationPhase.g_projectPath := projectPath;
          TestGenerationPhase.g_stories := Orchestrator.tc_stories c;
          TestGenerationPhase.g_autoApprove := Orchestrator.tc_autoApprove c;
          TestGenerationPhase.g_maxIterations := Orchestrator.tc_maxIterations c |} (st_rowId st))
    (st_env st) (st_sessions st).

Definition developerRunner (c : Orchestrator.DeveloperContext) (tb : gmap string TaskRow)
    : outcome DeveloperResult * gmap string TaskRow :=
  let '(r, w) := DeveloperPhase.executeDeveloperPhase now
    {| DeveloperPhase.d_task := Orchestrator.dc_task c; DeveloperPhase.d_projectPath := projectPath;
       DeveloperPhase.d_workingDirectory :=
         Orchestrator.determineWorkingDirectory (Orchestrator.dc_repositories c) projectPath;
       DeveloperPhase.d_repositories := Orchestrator.dc_repositories c;
       DeveloperPhase.d_stories := asPlain <$> Orchestrator.dc_stories c;
       DeveloperPhase.d_branchName := Orchestrator.dc_branchName c;
       DeveloperPhase.d_autoApprove := Orchestrator.dc_autoApprove c;
       DeveloperPhase.d_startFromStoryIndex := Orchestrator.dc_startFromStoryIndex c;
       DeveloperPhase.d_persist := true |} storyRows
    {| DeveloperPhase.env := st_env sd; DeveloperPhase.sessions := st_sessions sd;
       DeveloperPhase.tasks := tb; DeveloperPhase.trace := [] |} in
  (r, DeveloperPhase.tasks w).

Definition linkedRunners : Orchestrator.PhaseRunners :=
  {| Orchestrator.prepare_providers := @Orchestrator.prepare_providers rest;
     Orchestrator.run_planning := planningRunner;
     Orchestrator.run_analysis := analysisRunner;
     Orchestrator.run_developer := developerRunner;
     Orchestrator.run_testGeneration := testRunner;
     Orchestrator.run_merge :=
       OrchSpec.mergeRunner hasChanges createPullRequest getPullRequestStatus mergePullRequest now;
     Orchestrator.run_scan := @Orchestrator.run_scan rest;
     Orchestrator.ask_approval := @Orchestrator.ask_approval rest;
     Orchestrator.cache_context := @Orchestrator.cache_context rest;
     Orchestrator.enhanced_description := @Orchestrator.enhanced_description rest;
     Orchestrator.json_payload := @Orchestrator.json_payload rest |}.

(** The models satisfy the laws the orchestrator's theorems assume. *)
#[local] Instance linkedRunnersOk : @Orchestrator.PhaseRunnersOk linkedRunners.
Proof.
  split; simpl.
  - intros t a s tb i. apply onTable_keeps, PlanningSpec.rows_planning.
  - intros c tb i. apply onTable_keeps, AnalysisSpec.rows_execute.
  - intros c tb i Hi. unfold developerRunner.
    match goal with |- context [DeveloperPhase.executeDeveloperPhase ?n ?d ?r ?w] =>
      pose proof (kept_executeDeveloperPhase n d r w i Hi) as Hk; by destruct (DeveloperPhase.executeDeveloperPhase n d r w)
    end.
  - intros c tb i. apply onTable_keeps, TestSpec.rows_tests.
  - intros c tb i. apply OrchSpec.mergeRunner_keeps.
Qed.

(** C8 The whole pipeline, every phase being the model of its own file, started
    from any state of the agents, the user, git and GitHub: once the providers
    are set up the execution returns, and the task is then completed or failed,
    never running. When every approval request is answered, a task whose
    developer phase returned also has its merge phase started: neither failing
    tests, nor an error in the test generation, nor a rejection of the tests by
    the user (inside the phase or after it) prevents that. *)
Theorem linked_execution_settles now0 taskId o tb task :
  findById taskId tb = Some task ->
  @Orchestrator.prepare_providers rest task = Ok tt ->
  exists r s row, Orchestrator.execute (PR := linkedRunners) now0 taskId o tb = (Ok r, s)
    /\ Orchestrator.tasks s !! taskId = Some row
    /\ (status row = Completed \/ status row = Failed)
    /\ ((forall p, exists a, @Orchestrator.ask_approval rest taskId p = Ok a) ->
        is_Some (Orchestrator.or_developer r) -> Orchestrator.Merge ∈ Orchestrator.calls s).
Proof.
  intros Hf Hp. pose proof (OrchSpec.execute_found (PR := linkedRunners) now0 taskId o tb task Hf) as Hx.
  change (@Orchestrator.prepare_providers linkedRunners task) with (@Orchestrator.prepare_providers rest task) in Hx.
  rewrite Hp in Hx. destruct Hx as (g & s & Hx & _ & _ & Ht).
  pose proof Hf as Hrow. apply fmap_Some in Hrow as (row0 & Hrow0 & _).
  destruct (OrchSpec.afterTry_row (PR := linkedRunners) now0 taskId o task tb) as [row1 Hrow1]; [by eexists|].
  destruct (OrchSpec.closed_row (PR := linkedRunners) now0 taskId g _ _ Hrow1) as (row & Hc & Hs & _).
  eexists _, s, row. split; [exact Hx|]. rewrite Ht. split; [exact Hc|]. split.
  - rewrite Hs. destruct (Orchestrator.mergeSucceeded _); auto.
  - intros Ha Hd. eapply (execute_merges (PR := linkedRunners) now0 taskId o task); [exact Ha| |exact Hf|exact Hx|exact Hd].
    intros c tb'. apply onTable_total, TestSpec.total_tests.
Qed.

End runners.

(** ** A concrete run of all five phases *)

Definition startOf {E} (e : E) : Start E := {| st_env := e; st_sessions := []; st_rowId := "row" |}.

(** The planning is rejected by its judge, the tests always fail. *)
Definition demoLinked : Orchestrator.PhaseRunners :=
  @linkedRunners (list string) (list string) (list string) bool
    PlanningSpec.demoEnv AnalysisSpec.demoEnv TestSpec.demoEnv
    (DevSpec.demoEnv DevSpec.approvingText true ApprovalService.Approve)
    (startOf (AgentPhase.env PlanningSpec.demoW)) (startOf (AgentPhase.env AnalysisSpec.demoW))
    (startOf (AgentPhase.fenced <$> ["A"; "T"; "F"; "X"; "F"; "X"; "F"])) (startOf false) (fun _ => "row")
    5 9 "/w" [MergeSpec.demoRepo "api"] (fun _ => Ok false) MergeSpec.demoCreate MergeSpec.demoStatusOk
    MergeSpec.demoMerge OrchSpec.demoRunners.

Definition summary (r : outcome Orchestrator.OrchestrationResult) : option (bool * option bool) :=
  match r with
  | Ok r => Some (bool_decide (is_Some (Orchestrator.or_developer r)),
                  Orchestrator.tg_testsPassed <$> Orchestrator.or_testGeneration r)
  | Throw _ => None
  end.

Lemma linked_execution_settles_witness :
  exists r s, Orchestrator.execute (PR := demoLinked) 5 "t1" OrchSpec.demoFresh OrchSpec.demoTable = (Ok r, s)
    /\ Orchestrator.Merge ∈ Orchestrator.calls s
    /\ (Orchestrator.tg_testsPassed <$> Orchestrator.or_testGeneration r) = Some false.
Proof.
  destruct (@linked_execution_settles (list string) (list string) (list string) bool
    PlanningSpec.demoEnv AnalysisSpec.demoEnv TestSpec.demoEnv
    (DevSpec.demoEnv DevSpec.approvingText true ApprovalService.Approve)
    (startOf (AgentPhase.env PlanningSpec.demoW)) (startOf (AgentPhase.env AnalysisSpec.demoW))
    (startOf (AgentPhase.fenced <$> ["A"; "T"; "F"; "X"; "F"; "X"; "F"])) (startOf false) (fun _ => "row")
    5 9 "/w" [MergeSpec.demoRepo "api"] (fun _ => Ok false) MergeSpec.demoCreate MergeSpec.demoStatusOk
    MergeSpec.demoMerge OrchSpec.demoRunners 5 "t1" OrchSpec.demoFresh OrchSpec.demoTable OrchSpec.demoTask
    eq_refl eq_refl) as (r & s & row & He & _ & _ & Hm).
  change (Orchestrator.execute (PR := demoLinked) 5 "t1" OrchSpec.demoFresh OrchSpec.demoTable = (Ok r, s)) in He.
  assert (summary (Orchestrator.execute (PR := demoLinked) 5 "t1" OrchSpec.demoFresh OrchSpec.demoTable).1
    = Some (true, Some false)) as Hs by (vm_compute; reflexivity).
  rewrite He in Hs. injection Hs as Hd Ht. exists r, s. split; [exact He|]. split; [|exact Ht].
  apply bool_decide_eq_true in Hd.
  apply Hm; [|exact Hd]. intros p. eexists. reflexivity.
Defined.

End PhaseLinks.
