(* ===== verification/BridgeLinks.v ===== *)
(** * The event bridge under the phases

    [CumulativeWaits] states what the bridge promises to a phase that waits
    for its session more than once: each wait returns everything collected for
    the session so far. The test generation phase is run against it, and the
    bridge of [EventBridge] discharges it ([bridged]). *)

From S2P Require Import Prelude JsNumber Json Regex AgentSpy AgentPhase EventBridge EventBridgeProofs TestGenerationPhase TestGenerationPhaseProofs.
From stdpp Require Import options.

Module BridgeLinks.
Import Json AgentPhase TestGenerationPhase.

(** ** The interface *)

Class CumulativeWaits (P E : Type) `{AgentEnv P E} := {
  okEnv : E -> Prop;
  collected : string -> E -> list OcEvent;
  prompt_ok : forall sid p e, okEnv e -> okEnv (sendPrompt sid p e).2;
  prompt_grows : forall sid p e, okEnv e -> collected sid e `prefix_of` collected sid (sendPrompt sid p e).2;
  wait_ok : forall sid e, okEnv e -> okEnv (waitForIdle sid e).2;
  wait_grows : forall sid e, okEnv e -> collected sid e `prefix_of` collected sid (waitForIdle sid e).2;
  wait_all : forall sid e es, okEnv e -> (waitForIdle sid e).1 = Ok es -> es = collected sid (waitForIdle sid e).2;
}.

(** ** Triples on the environment of a run *)

Section triples.
Context {P E : Type}.
Abbreviation M := (JsM (W P E)).

Definition triple {A} (Q : E -> Prop) (m : M A) (R : outcome A -> E -> Prop) : Prop :=
  forall w, Q (env w) -> R (m w).1 (env (m w).2).

Lemma triple_bind {A B} Q (m : M A) (k : A -> M B) R R' :
  triple Q m R -> (forall a, triple (R (Ok a)) (k a) R') -> (forall e x, R (Throw e) x -> R' (Throw e) x) ->
  triple Q (m ≫= k) R'.
Proof.
  intros Hm Hk Ht w Hw. specialize (Hm w Hw). unfold mbind, jsm_bind.
  destruct (m w) as [[a|e] w1]; simpl in *; [by apply Hk|by apply Ht].
Qed.

Lemma triple_weaken {A} (Q Q' : E -> Prop) (m : M A) (R R' : outcome A -> E -> Prop) :
  triple Q m R -> (forall e, Q' e -> Q e) -> (forall r e, R r e -> R' r e) -> triple Q' m R'.
Proof. intros Hm HQ HR w Hw. by apply HR, Hm, HQ. Qed.

(** A statement with a fact about its value. *)
Lemma triple_value {A B} Q Q' (m : M A) (k : A -> M B) (F : A -> Prop) R :
  triple Q m (fun r e => Q' e /\ forall a, r = Ok a -> F a) ->
  (forall e x, R (Throw e) x) -> (forall a, F a -> triple Q' (k a) R) -> triple Q (m ≫= k) R.
Proof.
  intros Hm Ht Hk. eapply triple_bind; [exact Hm| |by intros].
  intros a w [Hw Hf]. apply (Hk a); auto.
Qed.

(** A statement that does not touch the environment. *)
Definition pureEnv {A} (m : M A) : Prop := forall w, env (m w).2 = env w.

Lemma triple_pure {A B} Q (m : M A) (k : A -> M B) R :
  pureEnv m -> (forall e x, R (Throw e) x) -> (forall a, triple Q (k a) R) -> triple Q (m ≫= k) R.
Proof.
  intros Hm Ht Hk. eapply (triple_bind Q m k (fun _ e => Q e)); [|done|by intros].
  intros w Hw. by rewrite Hm.
Qed.

Lemma pure_record a : pureEnv (record a).
Proof. done. Qed.

Lemma pure_emit e : pureEnv (emit e).
Proof. done. Qed.

Lemma pure_setCounter n : pureEnv (setCounter n).
Proof. done. Qed.

Lemma pure_check b msg : pureEnv (check b msg).
Proof. by destruct b. Qed.

Lemma pure_gets {A} (f : W P E -> A) : pureEnv (Js.gets f).
Proof. done. Qed.

End triples.

Create HintDb bridge.
#[export] Hint Resolve pure_record pure_emit pure_setCounter pure_check pure_gets : bridge.

(** ** Test generation over cumulative waits *)

Section tests.
Context {E : Type} `{CW : CumulativeWaits Prompt E}.
Variable c : TestContext.
Variable sid : string.
Variable a : Json.

(** The collected events answer [a]. *)
Definition answered (e : E) : Prop :=
  okEnv e /\ exists t, jsonBlock (extractFinalOutput (collected sid e)) = Some t /\ jsonParse Prompt E t = Some a.

Lemma finalOutput_app es es' :
  extractFinalOutput (es ++ es') = extractFinalOutput es +:+ extractFinalOutput es'.
Proof.
  unfold extractFinalOutput. rewrite omap_app. induction (omap textOfEvent es) as [|t l IH]; [done|].
  assert (forall t l, String.concat "" (t :: l) = t +:+ String.concat "" l) as Hc.
  { intros t' [|u l']; simpl; [by rewrite JsStr.append_nil|done]. }
  change ((t :: l) ++ omap textOfEvent es') with (t :: (l ++ omap textOfEvent es')).
  by rewrite !Hc, IH, JsStr.append_assoc.
Qed.

Lemma answered_grows e e' :
  answered e -> okEnv e' -> collected sid e `prefix_of` collected sid e' -> answered e'.
Proof.
  intros [_ (t & Ht & Hp)] Hok [l Hl]. split; [done|]. exists t. split; [|done].
  rewrite Hl, finalOutput_app. by apply jsonBlock_app.
Qed.

Lemma extract_answered e :
  answered e -> extractJsonFromOutput (jsonParse Prompt E) (extractFinalOutput (collected sid e)) = notNull a.
Proof.
  intros [_ (t & Ht & Hp)]. unfold extractJsonFromOutput.
  assert (JsStr.truthy (extractFinalOutput (collected sid e)) = true) as ->.
  { unfold JsStr.truthy. rewrite bool_decide_eq_false_2; [done|]. intros He. by rewrite He in Ht. }
  rewrite Ht. simpl. by rewrite Hp.
Qed.

(** Once the session has answered, every later exchange reads that answer. *)
Lemma exchange_answered p :
  triple answered (exchange sid p) (fun r e => answered e /\ forall d, r = Ok d -> d = notNull a).
Proof.
  unfold exchange, ask. intros w Hw. unfold mbind, jsm_bind, prompt, wait, call.
  pose proof (proj1 Hw) as Hok.
  pose proof (prompt_ok sid p _ Hok) as Hok1. pose proof (prompt_grows sid p _ Hok) as Hg1.
  destruct (sendPrompt sid p (env w)) as [[[]|err] e1]; simpl in *; [|by split; [eapply answered_grows|]].
  pose proof (wait_ok sid _ Hok1) as Hok2. pose proof (wait_grows sid _ Hok1) as Hg2.
  pose proof (wait_all sid e1) as Hall.
  assert (answered (waitForIdle sid e1).2) as Hans.
  { eapply answered_grows; [exact Hw|done|]. by transitivity (collected sid e1). }
  destruct (waitForIdle sid e1) as [[es|err] e2]; simpl in *; [|by split].
  split; [done|]. intros d [= <-]. rewrite (Hall es) by done. by apply extract_answered.
Qed.

Hypothesis Ha : isNull a = false.
Hypothesis Hpassed : truthyField "testsFailed" a = None.
Hypothesis Hiter : 0 < g_maxIterations c.

Lemma notNull_a : notNull a = Some a.
Proof using Ha. unfold notNull. by rewrite Ha. Qed.

(** The state after the run that reads [a]. *)
Definition readRuns : RunState :=
  {| r_passed := true; r_run := default zeroJ (truthyField "testsRun" a); r_failed := zeroJ;
     r_coverage := default zeroJ (truthyField "coveragePercent" a); r_attempts := [] |}.

Lemma runLoop_answered files framework :
  triple answered (runLoop c sid files framework (g_maxIterations c) 0 startRuns)
    (fun r _ => True /\ forall st, r = Ok st -> st = readRuns).
Proof using Ha Hpassed Hiter.
  destruct (g_maxIterations c) as [|n]; [lia|]. cbn [runLoop].
  apply triple_pure; [auto with bridge|done|intros _].
  apply triple_pure; [auto with bridge|done|intros _].
  eapply triple_value; [apply exchange_answered|done|].
  intros d ->. rewrite notNull_a. unfold optTruthy. simpl. rewrite Hpassed. simpl.
  intros w _. split; [done|]. by intros st [= <-].
Qed.

(** What the phase reports when it believes the answer [a]. *)
Definition reports (o : TestOutcome) : Prop :=
  to_error o = None ->
  to_success o = true /\ to_testsPassed o = true /\ to_testsRun o = default zeroJ (truthyField "testsRun" a)
  /\ to_testsGenerated o = elements (default (JArr []) (truthyField "tests" a)) /\ to_fixAttempts o = [].

(** A last part whose outcome does not depend on the environment. *)
Lemma triple_end {A B} (m : JsM (W Prompt E) A) (k : A -> JsM (W Prompt E) B) (R : outcome B -> E -> Prop) :
  (forall e x, R (Throw e) x) -> (forall x, triple (fun _ => True) (k x) R) -> triple (fun _ => True) (m ≫= k) R.
Proof. intros Ht Hk. by eapply (triple_bind _ m k (fun _ _ => True)). Qed.

Lemma generate_answered gaps edgeCases framework :
  triple answered (generateAndRun c sid gaps edgeCases framework)
    (fun r _ => forall o, r = Ok o -> reports o).
Proof using Ha Hpassed Hiter.
  unfold generateAndRun.
  apply triple_pure; [auto with bridge|done|intros _].
  apply triple_pure; [auto with bridge|done|intros _].
  eapply triple_value; [apply exchange_answered|done|].
  intros d ->. rewrite notNull_a.
  apply triple_pure; [auto with bridge|done|intros _].
  eapply triple_value; [apply runLoop_answered|done|]. intros st ->.
  do 4 (apply triple_end; [done|intros ?]).
  intros w _ o [= <-]. intros Herr. simpl in *. by destruct x.
Qed.

Lemma pure_registerAll l : pureEnv (registerAll (E := E) l).
Proof using.
  intros w. revert w. induction l as [|e l IH]; intros w; [done|]. cbn [registerAll].
  erewrite Js.bind_ok by reflexivity. by rewrite IH.
Qed.

Lemma ask_all p w es w1 :
  okEnv (env w) -> ask sid p w = (Ok es, w1) -> okEnv (env w1) /\ es = collected sid (env w1).
Proof using.
  unfold ask, mbind, jsm_bind, prompt, wait, call. intros Hok.
  pose proof (prompt_ok sid p _ Hok) as Hok1. destruct (sendPrompt sid p (env w)) as [[]e1]; [|done]. simpl in *.
  pose proof (wait_ok sid _ Hok1) as Hok2. pose proof (wait_all sid e1) as Hall.
  destruct (waitForIdle sid e1) as [r e2]. simpl in *. intros [= -> <-]. auto.
Qed.

(** C33 The test generation phase over the bridge's waits. Each wait returns
    everything the session said since it was registered, and the phase reads
    the first fenced block of it: once the analysis was answered with such a
    block, the generation, every test run and every fix are read from that
    same answer. Unless it happens to mention failed tests, the phase then
    ends after one run with no fix, and reports as passed the tests of the
    analysis, whatever the agent answered later. *)
Theorem first_answer_decides w w1 es t o :
  ask sid (PAnalyze (g_stories c)) (emit (EvProgress "analyzing" None) w).2 = (Ok es, w1) ->
  okEnv (env w) -> jsonBlock (extractFinalOutput es) = Some t -> jsonParse Prompt E t = Some a ->
  truthy a = true ->
  lengthZero (default (JArr []) (truthyField "coverageGaps" a)) = false ->
  (testsInSession c sid w).1 = Ok o -> reports o.
Proof using Ha Hpassed Hiter.
  intros Hask Hok Ht Hp Htr Hlen.
  destruct (ask_all _ (emit (EvProgress "analyzing" None) w).2 _ _ Hok Hask) as [Hok1 Hes].
  assert (answered (env w1)) as Hans by (split; [done|exists t; by rewrite <- Hes]).
  assert (exchange sid (PAnalyze (g_stories c)) (emit (EvProgress "analyzing" None) w).2 = (Ok (Some a), w1)) as Hex.
  { unfold exchange. erewrite Js.bind_ok by exact Hask. unfold mret, jsm_ret. by rewrite Hes, extract_answered, notNull_a. }
  unfold testsInSession. erewrite Js.bind_ok by reflexivity. erewrite Js.bind_ok by exact Hex.
  cbn [mbind option_bind]. rewrite Htr. cbn zeta. rewrite Hlen. cbn [andb].
  match goal with |- (?m w1).1 = _ -> _ =>
    assert (triple answered m (fun r _ => forall o, r = Ok o -> reports o)) as HT; [|exact (HT w1 Hans o)] end.
  apply triple_pure; [auto with bridge|done|intros _].
  apply triple_pure; [apply pure_registerAll|done|intros _].
  apply generate_answered.
Qed.

End tests.

(** ** The bridge discharges the interface *)

Section bridged.
Import EventBridge EventBridgeProofs.
Context `{JsText}.

(** An event as the phases read it. *)
Definition asText (v : option Json) : option string := match v with Some (JStr t) => Some t | _ => None end.

Definition readEvent (e : OcEv) : OcEvent :=
  let p := ev_properties e in
  if bool_decide (ev_type e = "message.part.updated")
  then OcPart (default "" (asText (prop "type" (prop "part" p)))) (asText (prop "text" (prop "part" p)))
  else if bool_decide (ev_type e = "message.complete") then OcComplete (asText (prop "content" p))
  else if bool_decide (ev_type e ∈ ["message.delta"; "message.chunk"])
  then OcChunk (asText (prop "content" p)) (asText (prop "text" p))
  else OcOther.

(** The value of a promise. *)
Definition settledAs (p : nat) (s : State) : option (outcome (list OcEv)) :=
  snd <$> hd_error (base.filter (fun e => e.1 = p) (settled s)).

(** The events delivered while a promise is awaited; when the stream has
    nothing more to say, its timeout fires. *)
Fixpoint pump (p : nat) (ds : list Delivery) (s : State) : State :=
  match ds with
  | [] => timeoutFires p s
  | d :: ds' => let s' := deliver s d in
                match settledAs p s' with Some _ => s' | None => pump p ds' s' end
  end.

(** [openCodeClient.waitForIdle] over the bridge. *)
Definition bridgedWait (sid : string) (ds : list Delivery) (s : State) : outcome (list OcEvent) * State :=
  let s' := pump (promises s) ds (waitForSessionIdle sid None s) in
  (match settledAs (promises s) s' with
   | Some (Ok es) => Ok (readEvent <$> es)
   | Some (Throw e) => Throw e
   | None => Throw "never settled"
   end, s').

Lemma settledAs_waiting w s : promisesOk s -> w ∈ waiters s -> settledAs (wt_id w) s = None.
Proof.
  intros [Hnd _] Hw. unfold settledAs. unfold ids in Hnd. apply list.NoDup_app in Hnd as (_ & Hdis & _).
  destruct (base.filter _ (settled s)) as [|[p o] l] eqn:Hf; [done|]. exfalso.
  assert ((p, o) ∈ base.filter (fun e => e.1 = wt_id w) (settled s)) as [Hp Hin]%list_elem_of_filter
    by (rewrite Hf; by left). simpl in Hp. subst p.
  apply (Hdis (wt_id w)); apply list_elem_of_fmap; [by exists w|by exists (wt_id w, o)].
Qed.

Lemma settledAs_elem p o s : promisesOk s -> (p, o) ∈ settled s -> settledAs p s = Some o.
Proof.
  intros [Hnd _] Hin. unfold settledAs. unfold ids in Hnd. apply list.NoDup_app in Hnd as (_ & _ & Hnd).
  assert ((p, o) ∈ base.filter (fun e => e.1 = p) (settled s)) as Hf by (by apply list_elem_of_filter).
  destruct (base.filter _ (settled s)) as [|[p' o'] l] eqn:Hl; [by apply elem_of_nil in Hf|]. simpl. f_equal.
  assert ((p', o') ∈ base.filter (fun e => e.1 = p) (settled s)) as [Hp Hin']%list_elem_of_filter
    by (rewrite Hl; by left). simpl in Hp. subst p'. by eapply NoDup_fst_inj.
Qed.

(** A delivery leaves a waiter waiting, or settles it with all that was
    collected. *)
Lemma deliver_cases w s d :
  promisesOk s -> w ∈ waiters s -> wt_listening w = true ->
  w ∈ waiters (deliver s d)
  \/ exists o, settledAs (wt_id w) (deliver s d) = Some o
       /\ forall es, o = Ok es -> es = getSessionEvents (wt_session w) (deliver s d).
Proof.
  intros Hok Hw Hl.
  destruct (JsMap.get (wt_session w) (activeSessions s)) as [x|] eqn:Hx.
  2:{ left. apply deliver_waits; [done|]. rewrite Hx. by intros _ [? ?]. }
  destruct (decide (target s d = Some (wt_session w))) as [Ht|Ht]; [|left; apply deliver_waits; [done|by intros ?]].
  destruct (ends (dl_event d)) eqn:He; [|left; apply deliver_waits; [done|by intros ?]].
  right. eexists. split; [apply settledAs_elem; [by apply handle_promises|by eapply deliver_settles]|].
  intros es. unfold verdict. rewrite (deliver_collected _ _ _ _ Hx), (bool_decide_eq_true_2 _ Ht).
  case_bool_decide; [by intros [= <-]|done].
Qed.

Lemma pump_spec w ds s :
  promisesOk s -> w ∈ waiters s -> wt_listening w = true ->
  let s' := pump (wt_id w) ds s in
  promisesOk s'
  /\ (forall sid, getSessionEvents sid s `prefix_of` getSessionEvents sid s')
  /\ exists o, settledAs (wt_id w) s' = Some o
       /\ forall es, o = Ok es -> es = getSessionEvents (wt_session w) s'.
Proof.
  revert s. induction ds as [|d ds IH]; intros s Hok Hw Hl; simpl.
  - split; [by apply timeout_promises|]. split.
    { intros sid. unfold timeoutFires. by destruct (list_find _ _) as [[]|]. }
    assert (deaf w (timeoutFires (wt_id w) s)) as Hd by (apply deaf_timeout; split; auto).
    exists (waitTimedOut w). split; [|done]. apply settledAs_elem; [by destruct Hd|].
    destruct Hd as [_ [Hw'|?]]; [exfalso|done]. revert Hw'. unfold timeoutFires.
    destruct (list_find _ _) as [[k v]|] eqn:Hf; simpl.
    + by intros [? _]%list_elem_of_filter.
    + intros _. apply list_find_None in Hf. rewrite list.Forall_forall in Hf. by destruct (Hf w).
  - assert (promisesOk (deliver s d)) as Hok' by (by apply handle_promises).
    destruct (deliver_cases w s d Hok Hw Hl) as [Hw'|(o & Ho & Hes)].
    + rewrite settledAs_waiting by done. destruct (IH _ Hok' Hw' Hl) as (H1 & H2 & H3).
      split_and!; [done| |done]. intros sid. etransitivity; [apply deliver_grows|apply H2].
    + rewrite Ho. split_and!; [done|intros; apply deliver_grows|]. eauto.
Qed.

Lemma bridgedWait_spec sid ds s :
  promisesOk s ->
  let r := bridgedWait sid ds s in
  promisesOk r.2
  /\ (forall sid', getSessionEvents sid' s `prefix_of` getSessionEvents sid' r.2)
  /\ (forall es, r.1 = Ok es -> es = readEvent <$> getSessionEvents sid r.2).
Proof.
  intros Hok r. unfold r, bridgedWait.
  destruct (pump_spec {| wt_id := promises s; wt_session := sid; wt_timeout := defaultTimeout; wt_listening := true |}
              ds (waitForSessionIdle sid None s)) as (H1 & H2 & o & Ho & Hes); [by apply wait_promises| |done|].
  { simpl. apply elem_of_app. right. by left. }
  simpl in *. split_and!; [done|intros sid'; apply H2|]. rewrite Ho. destruct o as [es'|]; [|done].
  intros es [= <-]. by rewrite <- (Hes es' eq_refl).
Qed.

(** Another environment, with the waits of a bridge: each call of the phase is
    given the deliveries that arrive meanwhile. *)
Definition bridged {P E} (base : AgentEnv P E) : AgentEnv P (E * (State * list (list Delivery))) :=
  {| createSession title e := let '(r, x) := createSession title e.1 in (r, (x, e.2));
     sendPrompt sid p e :=
       let '(r, x) := sendPrompt sid p e.1 in
       (r, (x, (feed (default [] (head e.2.2)) e.2.1, tail e.2.2)));
     waitForIdle sid e :=
       let r := bridgedWait sid (default [] (head e.2.2)) e.2.1 in (r.1, (e.1, (r.2, tail e.2.2)));
     abortSession sid e := let '(r, x) := abortSession sid e.1 in (r, (x, e.2));
     requestApproval t p e := let '(r, x) := requestApproval t p e.1 in (r, (x, e.2));
     createBranch d b e := let '(r, x) := createBranch d b e.1 in (r, (x, e.2));
     checkout d b e := let '(r, x) := checkout d b e.1 in (r, (x, e.2));
     setBranchDescription d t e := let '(r, x) := setBranchDescription d t e.1 in (r, (x, e.2));
     hasChanges d e := let '(r, x) := hasChanges d e.1 in (r, (x, e.2));
     commitAndPush d m e := let '(r, x) := commitAndPush d m e.1 in (r, (x, e.2));
     jsonParse := jsonParse P E;
     AgentPhase.toText := AgentPhase.toText P E;
     toNumber := toNumber P E |}.

Lemma feed_ok ds s : promisesOk s -> promisesOk (feed ds s).
Proof. revert s. induction ds as [|d ds IH]; intros s Hs; simpl; [done|]. apply IH. by apply handle_promises. Qed.

Lemma feed_grows ds s sid : getSessionEvents sid s `prefix_of` getSessionEvents sid (feed ds s).
Proof.
  revert s. induction ds as [|d ds IH]; intros s; simpl; [done|]. etransitivity; [apply deliver_grows|apply IH].
Qed.

Lemma prefix_fmap {A B} (f : A -> B) l k : l `prefix_of` k -> f <$> l `prefix_of` f <$> k.
Proof. intros [m ->]. rewrite fmap_app. by eexists. Qed.

(** The bridge keeps its promise to the phases. *)
#[refine] Instance bridged_cumulative {P E} (base : AgentEnv P E) :
    CumulativeWaits P (E * (State * list (list Delivery))) (H := bridged base) :=
  {| okEnv e := promisesOk e.2.1; collected sid e := readEvent <$> getSessionEvents sid e.2.1 |}.
Proof.
  - intros sid p [x [s ds]] Hok. simpl in *. destruct (sendPrompt sid p x). by apply feed_ok.
  - intros sid p [x [s ds]] Hok. simpl in *. destruct (sendPrompt sid p x). apply prefix_fmap, feed_grows.
  - intros sid [x [s ds]] Hok. apply (bridgedWait_spec sid (default [] (head ds)) s Hok).
  - intros sid [x [s ds]] Hok. apply prefix_fmap, (bridgedWait_spec sid (default [] (head ds)) s Hok).
  - intros sid [x [s ds]] es Hok. apply (bridgedWait_spec sid (default [] (head ds)) s Hok).
Defined.

End bridged.
(** ** A run over the bridge

    The agent finds a gap, writes one test and reports three failures. *)
Section demo.
Import EventBridge EventBridgeProofs.

Definition threeFailed : Json := JObj [("testsRun", JStr "3"); ("testsFailed", JStr "3")].
Definition oneTest : Json := JObj [("tests", JArr [JObj [("file", JStr "a.test.ts")]])].
Definition oneGap : Json := JObj [("coverageGaps", JArr [JObj [("file", JStr "a.ts")]])].

Definition says (t : string) : Delivery :=
  {| dl_now := 0; dl_sampled := false; dl_dir := "/d";
     dl_event := {| ev_type := "message.part.updated";
                    ev_properties := Some (JObj [("part", JObj [("type", JStr "text"); ("sessionID", JStr "s");
                                                                ("text", JStr t)])]) |} |}.

Definition answerChunk (t : string) : list Delivery := [says (fenced t); demoDelivery "session.idle" "s"].

Definition demoBase : AgentEnv Prompt (list string) :=
  scripted Prompt (table [("gap", oneGap); ("test", oneTest); ("run", threeFailed)]) (Throw "closed").

Definition demoBridge : AgentEnv Prompt (list string * (State * list (list Delivery))) :=
  bridged (H := demoText) demoBase.

Definition demoWorld : W Prompt (list string * (State * list (list Delivery))) :=
  {| env := ([], (demoRegistered, [[]; answerChunk "gap"; []; answerChunk "test"; []; answerChunk "run"]));
     sessions := []; tasks := ∅; trace := []; counter := 0 |}.

Definition demoCtx : TestContext := TestSpec.demoCtx.

Lemma demoRegistered_ok : promisesOk demoRegistered.
Proof. eapply promisesOk_same; [apply register_pledged|apply promisesOk_init]. Qed.

Definition demoFirst := ask (AgentEnv0 := demoBridge) "s" (PAnalyze (g_stories demoCtx))
  (emit (EvProgress "analyzing" None) demoWorld).2.

Lemma demoFirst_ok : demoFirst.1 = Ok (readEvent <$> (dl_event <$> answerChunk "gap")).
Proof. by vm_compute. Qed.

Definition demoOutcome : TestOutcome := Eval vm_compute in
  match (testsInSession (AgentEnv0 := demoBridge) demoCtx "s" demoWorld).1 with
  | Ok o => o
  | Throw e => failed "s" 0 e
  end.

Lemma first_answer_decides_witness :
  (testsInSession (AgentEnv0 := demoBridge) demoCtx "s" demoWorld).1 = Ok demoOutcome
  /\ to_success demoOutcome = true /\ to_testsPassed demoOutcome = true /\ to_testsRun demoOutcome = zeroJ
  /\ to_testsGenerated demoOutcome = [] /\ to_fixAttempts demoOutcome = [].
Proof.
  split; [vm_compute; reflexivity|].
  exact (first_answer_decides (H := demoBridge) (CW := bridged_cumulative (H := demoText) demoBase) demoCtx "s" oneGap
    ltac:(reflexivity) ltac:(reflexivity) ltac:(apply Nat.lt_0_succ) demoWorld demoFirst.2
    (readEvent <$> (dl_event <$> answerChunk "gap")) "gap" demoOutcome
    ltac:(rewrite <- demoFirst_ok; apply surjective_pairing) ltac:(exact demoRegistered_ok) ltac:(vm_compute; reflexivity)
    ltac:(vm_compute; reflexivity) ltac:(reflexivity) ltac:(vm_compute; reflexivity)
    ltac:(vm_compute; reflexivity) ltac:(reflexivity)).
Defined.

End demo.

End BridgeLinks.
