(* ===== verification/Schema.v ===== *)
(** * The database schema (src/database/postgres/schema.ts)

    The tables [initializeSchema] creates, by the columns a statement may name
    and the columns an insertion has to give, and the part of PostgreSQL's
    analysis of a statement the repositories depend on: an unknown table or
    column and a missing value for a NOT NULL column without default are
    errors. Types, keys and indexes are not modelled. *)

From S2P Require Import Prelude.
From stdpp Require Import options.

Module Schema.

Record Column := { c_name : string; c_notNull : bool; c_default : bool }.

Definition pk (n : string) : Column := {| c_name := n; c_notNull := true; c_default := false |}.
Definition notNull (n : string) : Column := {| c_name := n; c_notNull := true; c_default := false |}.
Definition notNullDefault (n : string) : Column := {| c_name := n; c_notNull := true; c_default := true |}.
Definition withDefault (n : string) : Column := {| c_name := n; c_notNull := false; c_default := true |}.
Definition nullable (n : string) : Column := {| c_name := n; c_notNull := false; c_default := false |}.

Abbreviation Table := (list Column) (only parsing).

(** ** The tables *)

Definition users : Table :=
  [pk "id"; notNull "github_id"; notNull "username"; nullable "email"; nullable "avatar_url";
   notNull "access_token"; nullable "refresh_token"; nullable "token_expiry"; nullable "default_api_key";
   notNullDefault "created_at"; notNullDefault "updated_at"].

Definition oauth_states : Table := [pk "id"; notNull "state"; notNullDefault "created_at"].

Definition projects : Table :=
  [pk "id"; notNull "name"; nullable "description"; withDefault "type"; withDefault "status"; notNull "user_id";
   nullable "api_key"; withDefault "settings"; withDefault "is_active"; notNullDefault "created_at";
   notNullDefault "updated_at"].

Definition repositories : Table :=
  [pk "id"; notNull "name"; nullable "description"; notNull "project_id"; notNull "github_repo_url";
   notNull "github_repo_name"; withDefault "github_branch"; withDefault "type"; withDefault "path_patterns";
   withDefault "execution_order"; withDefault "dependencies"; withDefault "env_variables"; withDefault "is_active";
   nullable "last_synced_at"; notNullDefault "created_at"; notNullDefault "updated_at"].

Definition tasksCreated : Table :=
  [pk "id"; notNull "user_id"; nullable "project_id"; nullable "repository_id"; notNull "title";
   nullable "description"; withDefault "status"; withDefault "priority"; nullable "queue_position";
   nullable "started_at"; nullable "completed_at"; nullable "error_message"; nullable "result";
   notNullDefault "created_at"; notNullDefault "updated_at"].

Definition tasksAdded : Table :=
  [nullable "branch_name"; nullable "analysis"; nullable "stories"; nullable "pr_number"; nullable "pr_url";
   withDefault "total_cost"; withDefault "total_input_tokens"; withDefault "total_output_tokens";
   withDefault "completed_phases"; nullable "current_phase"; nullable "current_step"; nullable "current_agent";
   nullable "last_completed_story_index"; withDefault "activity_log"; nullable "planning_result";
   nullable "failure_reason"].

Definition executionsCreated : Table :=
  [pk "id"; notNull "task_id"; notNull "agent_type"; nullable "model_id"; nullable "phase_name"; nullable "prompt";
   nullable "final_output"; withDefault "input_tokens"; withDefault "output_tokens"; withDefault "cost_usd";
   nullable "duration_ms"; withDefault "status"; nullable "error_type"; nullable "error_message";
   notNullDefault "created_at"; notNullDefault "updated_at"].

Definition executionsAdded : Table := [nullable "started_at"; nullable "completed_at"; withDefault "turns_completed"].

Definition agent_turns : Table :=
  [pk "id"; notNull "execution_id"; notNull "task_id"; notNull "turn_number"; notNull "role"; nullable "content";
   withDefault "input_tokens"; withDefault "output_tokens"; withDefault "tool_calls_count";
   notNullDefault "created_at"].

Definition tool_calls : Table :=
  [pk "id"; notNull "execution_id"; notNull "turn_id"; notNull "task_id"; notNull "tool_name";
   nullable "tool_use_id"; nullable "tool_input"; nullable "tool_input_summary"; nullable "tool_output";
   withDefault "tool_success"; nullable "tool_error"; nullable "file_path"; nullable "bash_command";
   nullable "bash_exit_code"; nullable "duration_ms"; withDefault "call_order"; withDefault "started_at";
   nullable "completed_at"].

Definition ml_security_signals : Table :=
  [pk "id"; notNull "task_id"; nullable "execution_id"; notNull "signal_type"; notNull "severity";
   notNull "description"; withDefault "details"; notNullDefault "detected_at"].

Definition sentinental_training_data : Table :=
  [pk "id"; notNull "task_id"; notNull "session_id"; notNull "phase"; withDefault "schema_version";
   withDefault "source"; withDefault "trace_level"; nullable "agent_type"; nullable "model_id";
   withDefault "vulnerabilities"; withDefault "vulnerabilities_count"; withDefault "execution_context";
   nullable "project_context"; nullable "code_context"; nullable "cvss_like"; nullable "task_history";
   withDefault "summary"; withDefault "risk_score"; nullable "avg_cvss_score"; withDefault "blocked_count";
   withDefault "sent_to_sentinental"; nullable "sent_at"; withDefault "send_attempts"; nullable "last_error";
   notNullDefault "created_at"; notNullDefault "updated_at"].

Definition opencode_sessions : Table :=
  [pk "id"; notNull "session_id"; notNull "task_id"; notNull "directory"; nullable "phase_name";
   withDefault "approval_mode"; withDefault "permissions"; withDefault "status"; nullable "pending_permission_id";
   nullable "pending_permission_data"; notNullDefault "created_at"; notNullDefault "updated_at"].

Definition queue_jobs : Table :=
  [pk "id"; notNull "queue_name"; notNull "job_id"; nullable "task_id"; withDefault "status"; withDefault "priority";
   withDefault "attempts"; withDefault "max_attempts"; withDefault "data"; nullable "result"; nullable "error";
   nullable "started_at"; nullable "completed_at"; notNullDefault "created_at"].

Definition approval_logs : Table :=
  [notNullDefault "id"; notNull "task_id"; notNull "phase"; notNull "action"; nullable "user_id";
   nullable "client_id"; nullable "metadata"; withDefault "created_at"].

Definition initializeSchema : JsMap.t Table :=
  [("users", users); ("oauth_states", oauth_states); ("projects", projects); ("repositories", repositories);
   ("tasks", tasksCreated ++ tasksAdded); ("agent_executions", executionsCreated ++ executionsAdded);
   ("agent_turns", agent_turns); ("tool_calls", tool_calls); ("ml_security_signals", ml_security_signals);
   ("sentinental_training_data", sentinental_training_data); ("opencode_sessions", opencode_sessions);
   ("queue_jobs", queue_jobs); ("approval_logs", approval_logs)].

(** ** Statements *)

(** A statement, by its table and the columns it names: those an INSERT gives
    values for; those an UPDATE sets, and those it reads; those a SELECT or a
    DELETE reads. *)
Inductive Stmt :=
  | Insert (table : string) (columns : list string)
  | Update (table : string) (sets reads : list string)
  | Read (table : string) (reads : list string)
  | Delete (table : string) (reads : list string).

Definition tableOf (q : Stmt) : string :=
  match q with Insert t _ | Update t _ _ | Read t _ | Delete t _ => t end.

Definition named (q : Stmt) : list string :=
  match q with Insert _ cs | Read _ cs | Delete _ cs => cs | Update _ ss rs => ss ++ rs end.

Definition unknown (t : Table) (q : Stmt) : list string :=
  base.filter (fun c => c ∉ c_name <$> t) (named q).

Definition missing (t : Table) (q : Stmt) : list string :=
  match q with
  | Insert _ cs => c_name <$> base.filter (fun c => c_notNull c = true /\ c_default c = false /\ c_name c ∉ cs) t
  | _ => []
  end.

(** The error a statement is rejected with, whatever its values. *)
Definition rejected (sch : JsMap.t Table) (q : Stmt) : option string :=
  match JsMap.get (tableOf q) sch with
  | None => Some ("relation " +:+ tableOf q +:+ " does not exist")
  | Some t =>
      match unknown t q, missing t q with
      | c :: _, _ => Some ("column " +:+ c +:+ " of relation " +:+ tableOf q +:+ " does not exist")
      | [], c :: _ => Some ("null value in column " +:+ c +:+ " violates not-null constraint")
      | [], [] => None
      end
  end.

(** [postgresService.query] before the values matter. *)
Definition query {S} (sch : JsMap.t Table) (q : Stmt) : JsM S unit :=
  match rejected sch q with Some e => Js.throw e | None => mret tt end.

Lemma query_ok {S} sch q (s : S) : rejected sch q = None -> query sch q s = (Ok tt, s).
Proof. unfold query. by intros ->. Qed.

Lemma query_throws {S} sch q e (s : S) : rejected sch q = Some e -> query sch q s = (Throw e, s).
Proof. unfold query. by intros ->. Qed.

End Schema.
