(* ===== verification/ExecutionTracker.v ===== *)
(** * Execution tracking (src/services/training/ExecutionTracker.ts and the
      repositories of executions, turns and tool calls)

    The rows the bridge asks for: an execution per registered session, a turn
    per complete message, a call per tool. Statements are checked against a
    schema, a parameter: the one of schema.ts is [Schema.initializeSchema].
    Ids and clocks are arguments. Every operation runs to its end before the
    next one; calls of the analyser are recorded. Module [Rows] has the lemmas on
    tables that are lists of rows. *)

From S2P Require Import Prelude JsNumber Json Regex AgentPhase EventBridge Schema.
From stdpp Require Import list pretty options.

Module TrainingRows.
Import Json Js Schema.

(** ** Rows *)

Record ExecRow := {
  x_id : string;
  x_task_id : string;
  x_agent_type : string;
  x_model_id : string;
  x_phase_name : option string;
  x_prompt : string;
  x_final_output : option string;
  x_status : string;
  x_input_tokens : Z;
  x_output_tokens : Z;
  x_cost_usd : JsNum.t;
  x_turns_completed : Z;
  x_duration_ms : option Z;
  x_error_message : option string;
  x_error_type : option string;
  x_started_at : option Z;
  x_completed_at : option Z;
}.

Inductive TurnType := user | assistant | tool_result.

Record TurnRow := {
  u_id : string;
  u_execution_id : string;
  u_task_id : string;
  u_turn_number : Z;
  u_turn_type : TurnType;
  u_message_content : option string;
  u_has_tool_calls : bool;
  u_tool_calls_count : Z;
  u_input_tokens : Z;
  u_output_tokens : Z;
  u_completed_at : option Z;
}.

Record CallRow := {
  k_id : string;
  k_execution_id : string;
  k_turn_id : string;
  k_task_id : string;
  k_tool_name : Json;
  k_tool_use_id : option string;
  k_tool_input : string;
  k_tool_input_summary : string;
  k_tool_output : option string;
  k_tool_success : bool;
  k_tool_error : option Json;
  k_file_path : option Json;
  k_bash_command : option Json;
  k_bash_exit_code : option Z;
  k_duration_ms : option Z;
  k_call_order : Z;
  k_started_at : Z;
  k_completed_at : option Z;
}.

Record Db := { executions : list ExecRow; turns : list TurnRow; toolCalls : list CallRow }.

Definition onExecutions (f : list ExecRow -> list ExecRow) (d : Db) : Db :=
  {| executions := f (executions d); turns := turns d; toolCalls := toolCalls d |}.
Definition onTurns (f : list TurnRow -> list TurnRow) (d : Db) : Db :=
  {| executions := executions d; turns := f (turns d); toolCalls := toolCalls d |}.
Definition onCalls (f : list CallRow -> list CallRow) (d : Db) : Db :=
  {| executions := executions d; turns := turns d; toolCalls := f (toolCalls d) |}.

(** [UPDATE ... WHERE id = $n] *)
Definition updateWhere {A} (key : A -> string) (id : string) (f : A -> A) (l : list A) : list A :=
  (fun r => if bool_decide (key r = id) then f r else r) <$> l.

Definition findRow {A} (key : A -> string) (id : string) (l : list A) : option A :=
  hd_error (base.filter (fun r => key r = id) l).

(** [v || null] of a number *)
Definition orNullZ (v : option Z) : option Z := match v with Some 0%Z => None | _ => v end.

(** A reference to a row of another table. *)
Definition foreignKey {S} (b : bool) : JsM S unit :=
  if b then mret tt else throw "insert violates foreign key constraint".

End TrainingRows.

(** ** Executions (AgentExecutionRepository.ts) *)

Module AgentExecutionRepository.
Import Json Js Schema TrainingRows.

(** [mapRow]; absent and empty values are undefined. *)
Record IAgentExecution := {
  ie_id : string;
  ie_taskId : string;
  ie_agentType : string;
  ie_modelId : string;
  ie_phaseName : option string;
  ie_prompt : string;
  ie_finalOutput : option string;
  ie_status : string;
  ie_inputTokens : Z;
  ie_outputTokens : Z;
  ie_costUsd : JsNum.t;
  ie_turnsCompleted : Z;
  ie_durationMs : option Z;
  ie_errorMessage : option string;
  ie_errorType : option string;
  ie_startedAt : option Z;
  ie_completedAt : option Z;
}.

Definition mapRow (r : ExecRow) : IAgentExecution :=
  {| ie_id := x_id r; ie_taskId := x_task_id r; ie_agentType := x_agent_type r; ie_modelId := x_model_id r;
     ie_phaseName := JsStr.orNull (x_phase_name r); ie_prompt := x_prompt r;
     ie_finalOutput := JsStr.orNull (x_final_output r); ie_status := x_status r;
     ie_inputTokens := x_input_tokens r; ie_outputTokens := x_output_tokens r;
     ie_costUsd := if JsNum.truthy (x_cost_usd r) then x_cost_usd r else JsNum.zero;
     ie_turnsCompleted := x_turns_completed r; ie_durationMs := orNullZ (x_duration_ms r);
     ie_errorMessage := JsStr.orNull (x_error_message r); ie_errorType := JsStr.orNull (x_error_type r);
     ie_startedAt := x_started_at r; ie_completedAt := x_completed_at r |}.

Section sql.
Variable sch : JsMap.t (list Column).
Variable knownTask : string -> bool.
Abbreviation M := (JsM Db).

Definition findById (id : string) : M (option IAgentExecution) :=
  query sch (Read "agent_executions" ["id"]);;
  gets (fun d => mapRow <$> findRow x_id id (executions d)).

(** The columns that are not given take their defaults. *)
Definition newRow (id taskId agentType modelId : string) (phaseName : option string) (prompt : string) : ExecRow :=
  {| x_id := id; x_task_id := taskId; x_agent_type := agentType; x_model_id := modelId;
     x_phase_name := JsStr.orNull phaseName; x_prompt := prompt; x_final_output := None; x_status := "pending";
     x_input_tokens := 0; x_output_tokens := 0; x_cost_usd := JsNum.zero; x_turns_completed := 0;
     x_duration_ms := None; x_error_message := None; x_error_type := None; x_started_at := None;
     x_completed_at := None |}.

Definition create (id taskId agentType modelId : string) (phaseName : option string) (prompt : string)
    : M (option IAgentExecution) :=
  query sch (Insert "agent_executions" ["id"; "task_id"; "agent_type"; "model_id"; "phase_name"; "prompt"]);;
  foreignKey (knownTask taskId);;
  modify (onExecutions (fun l => l ++ [newRow id taskId agentType modelId phaseName prompt]));;
  findById id.

Definition completed (now : Z) (output : option string) (inputTokens outputTokens : Z) (cost : JsNum.t)
    (turnsCompleted : Z) (duration : option Z) (r : ExecRow) : ExecRow :=
  {| x_id := x_id r; x_task_id := x_task_id r; x_agent_type := x_agent_type r; x_model_id := x_model_id r;
     x_phase_name := x_phase_name r; x_prompt := x_prompt r; x_final_output := JsStr.orNull output;
     x_status := "completed"; x_input_tokens := inputTokens; x_output_tokens := outputTokens; x_cost_usd := cost;
     x_turns_completed := turnsCompleted; x_duration_ms := orNullZ duration; x_error_message := x_error_message r;
     x_error_type := x_error_type r; x_started_at := x_started_at r; x_completed_at := Some now |}.

Definition complete (now : Z) (id : string) (output : option string) (inputTokens outputTokens : Z) (cost : JsNum.t)
    (turnsCompleted : Z) : M unit :=
  existing ← findById id;
  let duration := e ← existing; t ← ie_startedAt e; Some (now - t)%Z in
  query sch (Update "agent_executions"
    ["final_output"; "status"; "input_tokens"; "output_tokens"; "cost_usd"; "turns_completed"; "duration_ms";
     "completed_at"] ["id"]);;
  modify (onExecutions (updateWhere x_id id
    (completed now output inputTokens outputTokens cost turnsCompleted duration))).

Definition failed (now : Z) (msg : string) (ty : option string) (r : ExecRow) : ExecRow :=
  {| x_id := x_id r; x_task_id := x_task_id r; x_agent_type := x_agent_type r; x_model_id := x_model_id r;
     x_phase_name := x_phase_name r; x_prompt := x_prompt r; x_final_output := x_final_output r;
     x_status := "failed"; x_input_tokens := x_input_tokens r; x_output_tokens := x_output_tokens r;
     x_cost_usd := x_cost_usd r; x_turns_completed := x_turns_completed r; x_duration_ms := x_duration_ms r;
     x_error_message := Some msg; x_error_type := JsStr.orNull ty; x_started_at := x_started_at r;
     x_completed_at := Some now |}.

Definition fail (now : Z) (id msg : string) (ty : option string) : M unit :=
  query sch (Update "agent_executions" ["status"; "error_message"; "error_type"; "completed_at"] ["id"]);;
  modify (onExecutions (updateWhere x_id id (failed now msg ty))).

Definition progressed (n : Z) (r : ExecRow) : ExecRow :=
  {| x_id := x_id r; x_task_id := x_task_id r; x_agent_type := x_agent_type r; x_model_id := x_model_id r;
     x_phase_name := x_phase_name r; x_prompt := x_prompt r; x_final_output := x_final_output r;
     x_status := x_status r; x_input_tokens := x_input_tokens r; x_output_tokens := x_output_tokens r;
     x_cost_usd := x_cost_usd r; x_turns_completed := n; x_duration_ms := x_duration_ms r;
     x_error_message := x_error_message r; x_error_type := x_error_type r; x_started_at := x_started_at r;
     x_completed_at := x_completed_at r |}.

Definition updateProgress (id : string) (n : Z) : M unit :=
  query sch (Update "agent_executions" ["turns_completed"] ["id"]);;
  modify (onExecutions (updateWhere x_id id (progressed n))).

Record ExecStats := { es_total : nat; es_completed : nat; es_failed : nat; es_tokens : Z }.

(** The counts of [getStats]; the sum of the costs is left out. *)
Definition getStats (taskId : string) : M ExecStats :=
  query sch (Read "agent_executions" ["status"; "cost_usd"; "input_tokens"; "output_tokens"; "task_id"]);;
  gets (fun d =>
    let rows := base.filter (fun r => x_task_id r = taskId) (executions d) in
    {| es_total := length rows;
       es_completed := length (base.filter (fun r => x_status r = "completed") rows);
       es_failed := length (base.filter (fun r => x_status r = "failed") rows);
       es_tokens := sumZ (fun r => x_input_tokens r + x_output_tokens r)%Z rows |}).

End sql.
End AgentExecutionRepository.

(** ** Turns (AgentTurnRepository.ts) *)

Module AgentTurnRepository.
Import Json Js Schema TrainingRows.

Section sql.
Variable sch : JsMap.t (list Column).
Variable knownTask : string -> bool.
Abbreviation M := (JsM Db).

Definition findById (id : string) : M (option TurnRow) :=
  query sch (Read "agent_turns" ["id"]);; gets (fun d => findRow u_id id (turns d)).

Definition create (id executionId taskId : string) (n : Z) (ty : option TurnType) : M (option TurnRow) :=
  query sch (Insert "agent_turns" ["id"; "execution_id"; "task_id"; "turn_number"; "turn_type"]);;
  d ← gets (fun d => d);
  foreignKey (knownTask taskId && existsb (fun r => bool_decide (x_id r = executionId)) (executions d));;
  modify (onTurns (fun l => l ++ [
    {| u_id := id; u_execution_id := executionId; u_task_id := taskId; u_turn_number := n;
       u_turn_type := default assistant ty; u_message_content := None; u_has_tool_calls := false;
       u_tool_calls_count := 0; u_input_tokens := 0; u_output_tokens := 0; u_completed_at := None |}]));;
  findById id.

Definition updateContent (now : Z) (id content : string) (tokens : option (Z * Z)) : M unit :=
  query sch (Update "agent_turns" ["message_content"; "input_tokens"; "output_tokens"; "completed_at"] ["id"]);;
  modify (onTurns (updateWhere u_id id (fun r =>
    {| u_id := u_id r; u_execution_id := u_execution_id r; u_task_id := u_task_id r;
       u_turn_number := u_turn_number r; u_turn_type := u_turn_type r; u_message_content := Some content;
       u_has_tool_calls := u_has_tool_calls r; u_tool_calls_count := u_tool_calls_count r;
       u_input_tokens := default 0%Z (fst <$> tokens); u_output_tokens := default 0%Z (snd <$> tokens);
       u_completed_at := Some now |}))).

Definition updateToolCalls (id : string) (count : Z) : M unit :=
  query sch (Update "agent_turns" ["has_tool_calls"; "tool_calls_count"] ["id"]);;
  modify (onTurns (updateWhere u_id id (fun r =>
    {| u_id := u_id r; u_execution_id := u_execution_id r; u_task_id := u_task_id r;
       u_turn_number := u_turn_number r; u_turn_type := u_turn_type r; u_message_content := u_message_content r;
       u_has_tool_calls := (0 <? count)%Z; u_tool_calls_count := count; u_input_tokens := u_input_tokens r;
       u_output_tokens := u_output_tokens r; u_completed_at := u_completed_at r |}))).

(** The rows of a task; the order of the rows is left out. *)
Definition findByTaskId (taskId : string) : M (list TurnRow) :=
  query sch (Read "agent_turns" ["task_id"; "started_at"]);;
  gets (fun d => base.filter (fun r => u_task_id r = taskId) (turns d)).

End sql.
End AgentTurnRepository.

(** ** Tool calls (ToolCallRepository.ts) *)

Module ToolCallRepository.
Import Json Js Schema TrainingRows EventBridge.

Section sql.
Variable sch : JsMap.t (list Column).
Variable knownTask : string -> bool.
Context `{JsText}.
Abbreviation M := (JsM Db).

Definition findById (id : string) : M (option CallRow) :=
  query sch (Read "tool_calls" ["id"]);; gets (fun d => findRow k_id id (toolCalls d)).

(** [MAX(call_order)] over the calls of a turn, or 0, plus 1 *)
Definition nextOrder (turnId : string) (l : list CallRow) : Z :=
  (foldr Z.max 0 (k_call_order <$> base.filter (fun r => k_turn_id r = turnId) l) + 1)%Z.

Definition getNextCallOrder (turnId : string) : M Z :=
  query sch (Read "tool_calls" ["call_order"; "turn_id"]);; gets (fun d => nextOrder turnId (toolCalls d)).

Definition summary (s : string) : string := if 500 <? JsStr.length s then JsStr.take 500 s +:+ "..." else s.

(** [v || null] *)
Definition orNullJ (v : option Json) : option Json := match v with Some x => if truthy x then v else None | None => None end.

Definition create (now : Z) (id executionId turnId taskId : string) (toolName : Json) (toolUseId : string)
    (input : option Json) (order : Z) : M (option CallRow) :=
  text ← match input with
         | Some v => mret (stringify v)
         | None => throw "TypeError: Cannot read properties of undefined (reading 'length')"
         end;
  query sch (Insert "tool_calls"
    ["id"; "execution_id"; "turn_id"; "task_id"; "tool_name"; "tool_use_id"; "tool_input"; "tool_input_summary";
     "file_path"; "bash_command"; "call_order"]);;
  d ← gets (fun d => d);
  foreignKey (knownTask taskId && existsb (fun r => bool_decide (x_id r = executionId)) (executions d)
              && existsb (fun r => bool_decide (u_id r = turnId)) (turns d));;
  modify (onCalls (fun l => l ++ [
    {| k_id := id; k_execution_id := executionId; k_turn_id := turnId; k_task_id := taskId; k_tool_name := toolName;
       k_tool_use_id := JsStr.orNull (Some toolUseId); k_tool_input := text; k_tool_input_summary := summary text;
       k_tool_output := None; k_tool_success := true; k_tool_error := None;
       k_file_path := orNullJ (firstOf ["file_path"; "path"] input);
       k_bash_command := if isText "Bash" (Some toolName) then prop "command" input else None;
       k_bash_exit_code := None; k_duration_ms := None; k_call_order := order; k_started_at := now;
       k_completed_at := None |}]));;
  findById id.

Definition MAX_OUTPUT_LENGTH : nat := Z.to_nat 100000.

(** [toolOutput?.substring(0, MAX_OUTPUT_LENGTH) || null] *)
Definition outputText (v : option Json) : outcome (option string) :=
  match v with
  | None | Some JNull => Ok None
  | Some (JStr s) => Ok (JsStr.orNull (Some (JsStr.take MAX_OUTPUT_LENGTH s)))
  | Some _ => Throw "TypeError: params.toolOutput?.substring is not a function"
  end.

Definition finished (now : Z) (output : option string) (success : bool) (error : option Json)
    (exitCode duration : option Z) (r : CallRow) : CallRow :=
  {| k_id := k_id r; k_execution_id := k_execution_id r; k_turn_id := k_turn_id r; k_task_id := k_task_id r;
     k_tool_name := k_tool_name r; k_tool_use_id := k_tool_use_id r; k_tool_input := k_tool_input r;
     k_tool_input_summary := k_tool_input_summary r; k_tool_output := output; k_tool_success := success;
     k_tool_error := orNullJ error; k_file_path := k_file_path r; k_bash_command := k_bash_command r;
     k_bash_exit_code := orNullZ exitCode; k_duration_ms := orNullZ duration; k_call_order := k_call_order r;
     k_started_at := k_started_at r; k_completed_at := Some now |}.

Definition complete (now : Z) (id : string) (output : option Json) (success : bool) (error : option Json)
    (exitCode : option Z) : M unit :=
  existing ← findById id;
  let duration := (fun r => now - k_started_at r)%Z <$> existing in
  match outputText output with
  | Throw e => throw e
  | Ok text =>
      query sch (Update "tool_calls"
        ["tool_output"; "tool_success"; "tool_error"; "bash_exit_code"; "duration_ms"; "completed_at"] ["id"]);;
      modify (onCalls (updateWhere k_id id (finished now text success error exitCode duration)))
  end.

(** The rows of a turn; the order of the rows is left out. *)
Definition findByTurnId (turnId : string) : M (list CallRow) :=
  query sch (Read "tool_calls" ["turn_id"; "call_order"]);;
  gets (fun d => base.filter (fun r => k_turn_id r = turnId) (toolCalls d)).

Definition findByTaskId (taskId : string) : M (list CallRow) :=
  query sch (Read "tool_calls" ["task_id"; "started_at"; "call_order"]);;
  gets (fun d => base.filter (fun r => k_task_id r = taskId) (toolCalls d)).

End sql.
End ToolCallRepository.

(** ** The tracker (ExecutionTracker.ts) *)

Module ExecutionTracker.
Import Json Js Schema TrainingRows EventBridge.

Record Active := {
  a_executionId : string;
  a_taskId : string;
  a_currentTurnId : option string;
  a_currentTurnNumber : Z;
  a_pendingToolCalls : JsMap.t string;
  a_workspacePath : option string;
  a_agentType : option string;
  a_lastError : option Json;
  a_lastErrorType : option string;
}.

(** What the analyser is asked. *)
Inductive MlCall :=
  | MlContext (taskId executionId prompt : string) (workspace : option string)
  | MlTool (taskId executionId : string) (name : Json) (input : option Json)
  | MlRecovery (taskId executionId : string) (error : Json) (errorType action tool : string)
  | MlClear (executionId : string).

Record T := { db : Db; activeExecutions : JsMap.t Active; mlCalls : list MlCall }.

Definition init : T := {| db := {| executions := []; turns := []; toolCalls := [] |}; activeExecutions := []; mlCalls := [] |}.

Definition onActive (f : JsMap.t Active -> JsMap.t Active) (t : T) : T :=
  {| db := db t; activeExecutions := f (activeExecutions t); mlCalls := mlCalls t |}.
Definition ml (c : MlCall) : JsM T unit :=
  modify (fun t => {| db := db t; activeExecutions := activeExecutions t; mlCalls := mlCalls t ++ [c] |}).

(** A call of a repository. *)
Definition repo {A} (m : JsM Db A) : JsM T A := fun t =>
  let '(r, d) := m (db t) in (r, {| db := d; activeExecutions := activeExecutions t; mlCalls := mlCalls t |}).

(** Updates of the object [active]. *)
Definition setTurn (id : option string) (n : Z) (a : Active) : Active :=
  {| a_executionId := a_executionId a; a_taskId := a_taskId a; a_currentTurnId := id; a_currentTurnNumber := n;
     a_pendingToolCalls := a_pendingToolCalls a; a_workspacePath := a_workspacePath a;
     a_agentType := a_agentType a; a_lastError := a_lastError a; a_lastErrorType := a_lastErrorType a |}.
Definition setPending (p : JsMap.t string) (a : Active) : Active :=
  {| a_executionId := a_executionId a; a_taskId := a_taskId a; a_currentTurnId := a_currentTurnId a;
     a_currentTurnNumber := a_currentTurnNumber a; a_pendingToolCalls := p;
     a_workspacePath := a_workspacePath a; a_agentType := a_agentType a; a_lastError := a_lastError a;
     a_lastErrorType := a_lastErrorType a |}.
Definition setError (e : option Json) (ty : option string) (a : Active) : Active :=
  {| a_executionId := a_executionId a; a_taskId := a_taskId a; a_currentTurnId := a_currentTurnId a;
     a_currentTurnNumber := a_currentTurnNumber a; a_pendingToolCalls := a_pendingToolCalls a;
     a_workspacePath := a_workspacePath a; a_agentType := a_agentType a; a_lastError := e;
     a_lastErrorType := ty |}.

Definition updateActive (taskId : string) (f : Active -> Active) : JsM T unit :=
  modify (onActive (fun m => match JsMap.get taskId m with Some a => JsMap.set taskId (f a) m | None => m end)).

Section tracker.
Variable sch : JsMap.t (list Column).
Variable knownTask : string -> bool.
Context `{JsText}.
Abbreviation M := (JsM T).

Definition getActive (taskId : string) : M (option Active) := gets (fun t => JsMap.get taskId (activeExecutions t)).

(** A property of a row that was just written: [turn!.id]. *)
Definition present {A} (o : option A) : M A :=
  match o with Some a => mret a | None => throw "TypeError: Cannot read properties of null" end.

Definition startExecution (id taskId agentType modelId : string) (phaseName : option string) (prompt : string)
    (workspacePath : option string) : M string :=
  r ← repo (AgentExecutionRepository.create sch knownTask id taskId agentType modelId phaseName prompt);
  e ← present r;
  modify (onActive (JsMap.set taskId
    {| a_executionId := AgentExecutionRepository.ie_id e; a_taskId := taskId; a_currentTurnId := None;
       a_currentTurnNumber := 0; a_pendingToolCalls := []; a_workspacePath := workspacePath;
       a_agentType := Some agentType; a_lastError := None; a_lastErrorType := None |}));;
  ml (MlContext taskId (AgentExecutionRepository.ie_id e) prompt (JsStr.orNull workspacePath));;
  mret (AgentExecutionRepository.ie_id e).

(** The number of the turn is advanced before its row is written. *)
Definition startTurn (id taskId : string) (ty : TurnType) : M (option string) :=
  o ← getActive taskId;
  match o with
  | None => mret None
  | Some a =>
      let n := (a_currentTurnNumber a + 1)%Z in
      updateActive taskId (setTurn (a_currentTurnId a) n);;
      r ← repo (AgentTurnRepository.create sch knownTask id (a_executionId a) taskId n (Some ty));
      turn ← present r;
      updateActive taskId (setTurn (Some (u_id turn)) n);;
      repo (AgentExecutionRepository.updateProgress sch (a_executionId a) n);;
      mret (Some (u_id turn))
  end.

Definition currentTurn (a : option Active) : option string := x ← a; JsStr.orNull (a_currentTurnId x).

Definition updateTurnContent (now : Z) (taskId content : string) (tokens : option (Z * Z)) : M unit :=
  o ← getActive taskId;
  match currentTurn o with
  | None => mret tt
  | Some t => repo (AgentTurnRepository.updateContent sch now t content tokens)
  end.

Definition startToolCall (now : Z) (id taskId toolUseId : string) (toolName : Json) (input : option Json)
    : M (option string) :=
  o ← getActive taskId;
  match o, currentTurn o with
  | Some a, Some turn =>
      order ← repo (ToolCallRepository.getNextCallOrder sch turn);
      r ← repo (ToolCallRepository.create sch knownTask now id (a_executionId a) turn taskId toolName toolUseId
                  input order);
      call ← present r;
      let pending := JsMap.set toolUseId (k_id call) (a_pendingToolCalls a) in
      updateActive taskId (setPending pending);;
      repo (AgentTurnRepository.updateToolCalls sch turn (Z.of_nat (JsMap.size pending)));;
      ml (MlTool taskId (a_executionId a) toolName input);;
      mret (Some (k_id call))
  | _, _ => mret None
  end.

Definition completeToolCall (now : Z) (taskId toolUseId : string) (toolName : option string) (output : option Json)
    (success : bool) (error : option Json) (exitCode : option Z) : M unit :=
  o ← getActive taskId;
  match o with
  | None => mret tt
  | Some a =>
      match JsStr.orNull (JsMap.get toolUseId (a_pendingToolCalls a)) with
      | None => mret tt
      | Some callId =>
          repo (ToolCallRepository.complete sch now callId output success error exitCode);;
          when (negb success && match error with Some e => truthy e | None => false end)
            (updateActive taskId (setError error (Some (default "unknown" (JsStr.orNull toolName)))));;
          updateActive taskId (fun a => setPending (JsMap.delete toolUseId (a_pendingToolCalls a)) a)
      end
  end.

(** /(?:let me|I'll|I will)\s+(?:try|use|run)\s+(\w+)/i *)
Definition recoveryPattern : Regex.re :=
  Eval vm_compute in AgentPhase.rx "(?:let me|I'll|I will)\s+(?:try|use|run)\s+(\w+)".

Definition updateTurnContentWithRecovery (now : Z) (taskId content : string) (tokens : option (Z * Z)) : M unit :=
  o ← getActive taskId;
  match o, currentTurn o with
  | Some a, Some turn =>
      repo (AgentTurnRepository.updateContent sch now turn content tokens);;
      match ToolCallRepository.orNullJ (a_lastError a) with
      | Some e =>
          if JsStr.truthy content then
            ml (MlRecovery taskId (a_executionId a) e (default "unknown" (JsStr.orNull (a_lastErrorType a)))
                  (JsStr.take 200 content) (default "text_response" (Regex.match1 true recoveryPattern content)));;
            updateActive taskId (setError None None)
          else mret tt
      | None => mret tt
      end
  | _, _ => mret tt
  end.

Definition completeExecution (now : Z) (taskId : string) (output : option string) (inputTokens outputTokens : Z)
    (cost : JsNum.t) : M unit :=
  o ← getActive taskId;
  match o with
  | None => mret tt
  | Some a =>
      repo (AgentExecutionRepository.complete sch now (a_executionId a) output inputTokens outputTokens cost
              (a_currentTurnNumber a));;
      ml (MlClear (a_executionId a));;
      modify (onActive (JsMap.delete taskId))
  end.

Definition failExecution (now : Z) (taskId msg : string) (ty : option string) : M unit :=
  o ← getActive taskId;
  match o with
  | None => mret tt
  | Some a =>
      repo (AgentExecutionRepository.fail sch now (a_executionId a) msg ty);;
      ml (MlClear (a_executionId a));;
      modify (onActive (JsMap.delete taskId))
  end.

Definition cancelExecution (now : Z) (taskId : string) : M unit :=
  o ← getActive taskId;
  match o with
  | None => mret tt
  | Some a =>
      repo (AgentExecutionRepository.fail sch now (a_executionId a) "Execution cancelled" (Some "cancelled"));;
      modify (onActive (JsMap.delete taskId))
  end.

Definition getExecutionId (taskId : string) (t : T) : option string :=
  a ← JsMap.get taskId (activeExecutions t); JsStr.orNull (Some (a_executionId a)).
Definition getCurrentTurnId (taskId : string) (t : T) : option string :=
  currentTurn (JsMap.get taskId (activeExecutions t)).
Definition hasActiveExecution (taskId : string) (t : T) : bool := JsMap.has taskId (activeExecutions t).

(** ** What the bridge asks of it

    Every call is made without waiting for it, and its rejection is ignored;
    [id] is the id a new row would get. *)
Definition serve (now : Z) (id : string) (x : Effect) : M unit :=
  match x with
  | EfStartExecution taskId agentType modelId phase prompt dir =>
      startExecution id taskId agentType modelId phase prompt (Some dir);; mret tt
  | EfCompleteExecution taskId => completeExecution now taskId None 0 0 JsNum.zero
  | EfStartTool taskId (JStr useId) name input => startToolCall now id taskId useId name input;; mret tt
  | EfCompleteTool taskId (JStr useId) output success error =>
      completeToolCall now taskId useId None output success error None
  | EfTurn taskId content =>
      turn ← startTurn id taskId assistant;
      match JsStr.orNull turn with
      | Some _ =>
          match content with
          | None | Some JNull => updateTurnContent now taskId "" None
          | Some (JStr s) => updateTurnContent now taskId (JsStr.take 10000 s) None
          | Some _ => throw "TypeError: data?.content?.substring is not a function"
          end
      | None => mret tt
      end
  | _ => mret tt
  end.

Record Asked := { q_now : Z; q_id : string; q_effect : Effect }.

Definition ask (t : T) (q : Asked) : T := (serve (q_now q) (q_id q) (q_effect q) t).2.
Definition asked (l : list Asked) (t : T) : T := fold_left ask l t.

End tracker.
End ExecutionTracker.

(** * Tables as lists of rows

    Lemmas on finding and updating rows by key and on restricting a table to
    some of its rows, shared by the proofs about the repositories. *)

Module Rows.
Import TrainingRows.

Lemma filter_ext {A} (P Q : A -> Prop) `{!forall x, Decision (P x)} `{!forall x, Decision (Q x)} (l : list A) :
  (forall x, x ∈ l -> P x <-> Q x) -> base.filter P l = base.filter Q l.
Proof.
  induction l as [|x l IH]; intros Hl; [done|]. rewrite !list.filter_cons.
  rewrite IH by (intros y Hy; apply Hl; by right). specialize (Hl x ltac:(by left)).
  destruct (decide (P x)), (decide (Q x)); tauto.
Qed.

Lemma filter_all {A} (P : A -> Prop) `{!forall x, Decision (P x)} (l : list A) :
  (forall x, x ∈ l -> P x) -> base.filter P l = l.
Proof.
  induction l as [|x l IH]; intros Hl; [done|]. rewrite list.filter_cons, decide_True by (apply Hl; by left).
  f_equal. apply IH. intros y Hy. apply Hl. by right.
Qed.

Lemma filter_none {A} (P : A -> Prop) `{!forall x, Decision (P x)} (l : list A) :
  (forall x, x ∈ l -> ~ P x) -> base.filter P l = [].
Proof.
  induction l as [|x l IH]; intros Hl; [done|]. rewrite list.filter_cons, decide_False by (apply Hl; by left).
  apply IH. intros y Hy. apply Hl. by right.
Qed.

(** Rows with a unique key are determined by it. *)
Lemma NoDup_key {A B} (f : A -> B) (l : list A) x y : NoDup (f <$> l) -> x ∈ l -> y ∈ l -> f x = f y -> x = y.
Proof.
  induction l as [|z l IH]; [set_solver|]. csimpl. intros [Hz Hl]%NoDup_cons Hx Hy Hf.
  apply elem_of_cons in Hx as [->|Hx], Hy as [->|Hy]; [done| | |by apply IH]; exfalso; apply Hz;
    apply list_elem_of_fmap; eauto.
Qed.

Section rows.
Context {A : Type} (key : A -> string).
Implicit Types (l : list A) (id : string) (f : A -> A).

Lemma findRow_Some id l x : findRow key id l = Some x -> x ∈ l /\ key x = id.
Proof.
  unfold findRow. intros Hh.
  assert (Hx : x ∈ base.filter (fun r => key r = id) l).
  { destruct (base.filter _ l); [done|]. simpl in Hh. simplify_eq. by left. }
  by apply list_elem_of_filter in Hx as [? ?].
Qed.

Lemma findRow_None id l : findRow key id l = None <-> forall x, x ∈ l -> key x <> id.
Proof.
  unfold findRow. split.
  - intros Hh x Hx Hk. assert (Hf : x ∈ base.filter (fun r => key r = id) l) by by apply list_elem_of_filter.
    by destruct (base.filter _ l); [apply elem_of_nil in Hf|].
  - intros Hl. by rewrite filter_none.
Qed.

Lemma findRow_elem id l x : NoDup (key <$> l) -> x ∈ l -> key x = id -> findRow key id l = Some x.
Proof.
  intros Hd Hx Hk. destruct (findRow key id l) as [y|] eqn:Hf.
  - apply findRow_Some in Hf as [Hy Hky]. f_equal. eapply NoDup_key; [exact Hd| | |congruence]; done.
  - by apply (proj1 (findRow_None _ _) Hf) in Hx.
Qed.

(** Restricting a table does not change what is found in the part that stays. *)
Lemma findRow_filter (P : A -> Prop) `{!forall x, Decision (P x)} id l :
  (forall x, x ∈ l -> key x = id -> P x) -> findRow key id (base.filter P l) = findRow key id l.
Proof.
  intros Hl. unfold findRow. rewrite list_filter_filter. f_equal. apply filter_ext.
  intros x Hx. split; [tauto|]. intros Hk. split; [done|]. by apply Hl.
Qed.

Lemma updateWhere_id id f l : (forall x, x ∈ l -> key x <> id) -> updateWhere key id f l = l.
Proof.
  intros Hl. unfold updateWhere. rewrite <- (list_fmap_id l) at 2. apply list_fmap_ext. intros i x Hx.
  rewrite bool_decide_eq_false_2; [done|]. eapply Hl, list_elem_of_lookup_2, Hx.
Qed.

Lemma updateWhere_keys id f l {B} (g : A -> B) :
  (forall x, g (f x) = g x) -> g <$> updateWhere key id f l = g <$> l.
Proof.
  intros Hf. unfold updateWhere. rewrite <- list_fmap_compose. apply list_fmap_ext. intros i x _. simpl.
  by case_bool_decide.
Qed.

Lemma filter_updateWhere (P : A -> Prop) `{!forall x, Decision (P x)} id f l :
  (forall x, P (f x) <-> P x) -> base.filter P (updateWhere key id f l) = updateWhere key id f (base.filter P l).
Proof.
  intros Hf. induction l as [|x l IH]; [done|].
  change (updateWhere key id f (x :: l)) with ((if bool_decide (key x = id) then f x else x) :: updateWhere key id f l).
  rewrite !list.filter_cons, IH. specialize (Hf x).
  destruct (bool_decide_reflect (key x = id)) as [Hk|Hk], (decide (P x)) as [Hp|Hp];
    rewrite ?decide_True, ?decide_False by tauto; unfold updateWhere; csimpl;
    rewrite ?bool_decide_eq_true_2, ?bool_decide_eq_false_2 by done; done.
Qed.

Lemma elem_of_updateWhere id f l y :
  y ∈ updateWhere key id f l <-> exists x, x ∈ l /\ y = if decide (key x = id) then f x else x.
Proof.
  unfold updateWhere. rewrite list_elem_of_fmap.
  split; intros (x & H1 & H2); exists x; [subst y|]; split; try done; by repeat case_decide || case_bool_decide.
Qed.

Lemma existsb_key id l : existsb (fun r => bool_decide (key r = id)) l = bool_decide (id ∈ key <$> l).
Proof.
  induction l as [|x l IH]; [done|]. csimpl. rewrite IH.
  destruct (bool_decide_reflect (key x = id)), (bool_decide_reflect (id ∈ key <$> l)); simpl; symmetry;
    rewrite ?bool_decide_eq_true, ?bool_decide_eq_false, elem_of_cons; intuition congruence.
Qed.

End rows.
End Rows.
