(* ===== verification/ExecutionTrackerProofs.v ===== *)
(** * Properties of execution tracking

    What is recorded under any schema, under the schema the program creates,
    and what becomes of the execution of a session when another session of the
    same task is registered. *)

From S2P Require Import Prelude JsNumber Json Regex AgentPhase EventBridge EventBridgeProofs Schema ExecutionTracker.
From stdpp Require Import pretty options.

Module TrackerSpec.
Import Json Js Schema TrainingRows EventBridge ExecutionTracker.

(** ** Invariants of effectful code *)

Definition preserves {S A} (I : S -> Prop) (m : JsM S A) : Prop := forall s, I s -> I (m s).2.

Lemma preserves_ret {S A} (I : S -> Prop) (a : A) : preserves I (mret (M := JsM S) a).
Proof. by intros s Hs. Qed.

Lemma preserves_throw {S A} (I : S -> Prop) e : preserves I (throw (S := S) (A := A) e).
Proof. by intros s Hs. Qed.

Lemma preserves_gets {S A} (I : S -> Prop) (f : S -> A) : preserves I (gets f).
Proof. by intros s Hs. Qed.

Lemma preserves_bind {S A B} (I : S -> Prop) (m : JsM S A) (k : A -> JsM S B) :
  preserves I m -> (forall a, preserves I (k a)) -> preserves I (m ≫= k).
Proof.
  intros Hm Hk s Hs. specialize (Hm s Hs). unfold mbind, jsm_bind.
  destruct (m s) as [[a|e] s1]; simpl in *; [by apply Hk|done].
Qed.

Lemma preserves_modify {S} (I : S -> Prop) f : (forall s, I s -> I (f s)) -> preserves I (modify f).
Proof. intros Hf s Hs. by apply Hf. Qed.

Lemma preserves_when {S} (I : S -> Prop) b (m : JsM S unit) : preserves I m -> preserves I (when b m).
Proof. destruct b; [auto|by intros _ s Hs]. Qed.

(** Code after a throw does not run. *)
Lemma preserves_bind_throw {S A B} (I : S -> Prop) e (m : JsM S A) (k : A -> JsM S B) :
  (forall s, m s = (Throw e, s)) -> preserves I (m ≫= k).
Proof. intros Hm s Hs. unfold mbind, jsm_bind. by rewrite Hm. Qed.

Lemma preserves_query {S} (I : S -> Prop) sch q : preserves I (query sch q).
Proof. unfold query. intros s Hs. by destruct (rejected sch q). Qed.

Lemma preserves_fk {S} (I : S -> Prop) b : preserves I (foreignKey b).
Proof. intros s Hs. by destruct b. Qed.

Create HintDb tracker.
#[local] Hint Resolve preserves_ret preserves_throw preserves_gets preserves_query preserves_fk : tracker.

Ltac preserve := repeat first
  [ solve [auto with tracker]
  | apply preserves_when
  | match goal with
    | |- preserves _ (modify _) => apply preserves_modify; intros ??
    | |- preserves _ (mbind _ _) => apply preserves_bind; [|intros ?]
    | |- preserves _ (match ?x with _ => _ end) => destruct x
    end ].

(** ** Operations seen from the database *)

(** A repository call changes the database only. *)
Lemma repo_db {A} (m : JsM Db A) t : db (repo m t).2 = (m (db t)).2.
Proof. unfold repo. by destruct (m (db t)). Qed.

Lemma repo_active {A} (m : JsM Db A) t : activeExecutions (repo m t).2 = activeExecutions t.
Proof. unfold repo. by destruct (m (db t)). Qed.

Lemma repo_throws {A} (m : JsM Db A) e t : m (db t) = (Throw e, db t) -> repo m t = (Throw e, t).
Proof. unfold repo. intros ->. by destruct t. Qed.

(** A predicate on the database and one on the active executions. *)
Definition both (D : Db -> Prop) (X : JsMap.t Active -> Prop) (t : T) : Prop := D (db t) /\ X (activeExecutions t).

Lemma preserves_repo {A} D X (m : JsM Db A) : preserves D m -> preserves (both D X) (repo m).
Proof. intros Hm t [Hd Hx]. split; [rewrite repo_db; by apply Hm|by rewrite repo_active]. Qed.

Lemma preserves_ml D X c : preserves (both D X) (ml c).
Proof. intros t [Hd Hx]. by split. Qed.

Lemma preserves_active D X f : (forall m, X m -> X (f m)) -> preserves (both D X) (modify (onActive f)).
Proof. intros Hf t [Hd Hx]. split; [done|]. by apply Hf. Qed.

(** A property of each active execution. *)
Definition allActive (P : string -> Active -> Prop) (m : JsMap.t Active) : Prop :=
  forall taskId a, JsMap.get taskId m = Some a -> P taskId a.

Lemma allActive_set P taskId a m : P taskId a -> allActive P m -> allActive P (JsMap.set taskId a m).
Proof.
  intros Ha Hm k b. destruct (decide (taskId = k)) as [<-|Hne].
  - rewrite JsMap.get_set_eq. by intros [= <-].
  - rewrite JsMap.get_set_ne by done. apply Hm.
Qed.

Lemma allActive_delete P taskId m : allActive P m -> allActive P (JsMap.delete taskId m).
Proof.
  intros Hm k b. destruct (decide (taskId = k)) as [<-|Hne].
  - by rewrite JsMap.get_delete_eq.
  - rewrite JsMap.get_delete_ne by done. apply Hm.
Qed.

Lemma preserves_updateActive D P taskId f :
  (forall a, P taskId a -> P taskId (f a)) -> preserves (both D (allActive P)) (updateActive taskId f).
Proof.
  intros Hf. apply preserves_active. intros m Hm. destruct (JsMap.get taskId m) as [a|] eqn:Ha; [|done].
  apply allActive_set; [|done]. apply Hf, Hm, Ha.
Qed.

Lemma preserves_asked `{JsText} sch known (I : T -> Prop) l t :
  (forall q, q ∈ l -> preserves I (serve sch known (q_now q) (q_id q) (q_effect q))) ->
  I t -> I (asked sch known l t).
Proof.
  revert t. induction l as [|q l IH]; intros t Hl Ht; simpl; [done|].
  apply IH; [intros q' Hq'; apply Hl; by right|]. apply Hl; [by left|done].
Qed.

(** ** Under the schema of the program *)

Section schema.
Context `{JsText}.
Variable known : string -> bool.

(** No turn, no call, and no current turn to hang a call on. *)
Definition noRows (d : Db) : Prop := turns d = [] /\ toolCalls d = [].
Definition noTurn (taskId : string) (a : Active) : Prop := a_currentTurnId a = None.
Abbreviation blank := (both noRows (allActive noTurn)).

Lemma turn_rejected :
  exists e, rejected initializeSchema
    (Insert "agent_turns" ["id"; "execution_id"; "task_id"; "turn_number"; "turn_type"]) = Some e.
Proof. eexists. vm_compute. reflexivity. Qed.

Lemma startExecution_blank id taskId agentType modelId phase prompt dir :
  preserves blank (startExecution initializeSchema known id taskId agentType modelId phase prompt dir).
Proof.
  unfold startExecution, present. preserve; [| |by apply preserves_ml].
  - apply preserves_repo. unfold AgentExecutionRepository.create, AgentExecutionRepository.findById. by preserve.
  - destruct H0. split; [done|]. by apply allActive_set.
Qed.

Lemma startTurn_blank id taskId ty : preserves blank (startTurn initializeSchema known id taskId ty).
Proof.
  destruct turn_rejected as [e He]. unfold startTurn, getActive.
  intros t Ht. unfold mbind at 1, jsm_bind at 1, gets at 1.
  destruct (JsMap.get taskId (activeExecutions t)) as [a|] eqn:Ha; [|done].
  assert (noTurn taskId a) as Hn by (by apply Ht in Ha).
  revert t Ht Ha. intros t Ht _. revert t Ht.
  match goal with |- forall t, _ -> _ (?m t).2 => change (preserves blank m) end.
  apply preserves_bind; [by apply preserves_updateActive|intros _].
  apply preserves_bind_throw with e. intros t. apply repo_throws. unfold AgentTurnRepository.create.
  apply bind_throw. by apply query_throws.
Qed.

Lemma startToolCall_blank now id taskId useId name input :
  preserves blank (startToolCall initializeSchema known now id taskId useId name input).
Proof.
  intros t Ht. unfold startToolCall, getActive, mbind at 1, jsm_bind at 1, gets at 1.
  destruct (JsMap.get taskId (activeExecutions t)) as [a|] eqn:Ha; [|done].
  assert (noTurn taskId a) as Hn by (by apply Ht in Ha). simpl. by rewrite Hn.
Qed.

Lemma updateTurnContent_blank now taskId content tokens :
  preserves blank (updateTurnContent initializeSchema now taskId content tokens).
Proof.
  intros t Ht. unfold updateTurnContent, getActive, mbind at 1, jsm_bind at 1, gets at 1.
  destruct (JsMap.get taskId (activeExecutions t)) as [a|] eqn:Ha; [|done].
  assert (noTurn taskId a) as Hn by (by apply Ht in Ha). simpl. by rewrite Hn.
Qed.

Lemma complete_noRows now id output success error exitCode :
  preserves noRows (ToolCallRepository.complete initializeSchema now id output success error exitCode).
Proof.
  unfold ToolCallRepository.complete, ToolCallRepository.findById. preserve.
  destruct H0 as [? Hc]. split; [done|]. simpl. by rewrite Hc.
Qed.

Lemma completeToolCall_blank now taskId useId name output success error exitCode :
  preserves blank (completeToolCall initializeSchema now taskId useId name output success error exitCode).
Proof.
  unfold completeToolCall, getActive. preserve; try (by apply preserves_updateActive).
  apply preserves_repo, complete_noRows.
Qed.

Lemma completeExecution_blank now taskId output i o cost :
  preserves blank (completeExecution initializeSchema now taskId output i o cost).
Proof.
  unfold completeExecution, getActive. preserve; [|by apply preserves_ml|].
  - apply preserves_repo. unfold AgentExecutionRepository.complete, AgentExecutionRepository.findById. by preserve.
  - destruct H0. split; [done|]. by apply allActive_delete.
Qed.

#[local] Hint Resolve startExecution_blank startTurn_blank startToolCall_blank updateTurnContent_blank
  completeToolCall_blank completeExecution_blank : tracker.

(** C34 Under the schema the program creates, the tracker never records a turn
    nor a tool call, whatever the bridge asks: every insertion into agent_turns
    names a column that does not exist, so no execution ever has a current
    turn, and tool calls are only recorded under one. *)
Theorem no_turn_ever_recorded l :
  let t := asked initializeSchema known l init in
  turns (db t) = [] /\ toolCalls (db t) = [].
Proof.
  intros t. assert (blank t) as [Hd _]; [|done]. apply preserves_asked.
  - intros q _. unfold serve. destruct (q_effect q); preserve.
  - split; [done|]. intros k a Ha. done.
Qed.

End schema.

(** ** Two sessions of one task *)

Lemma findRow_app {A} (key : A -> string) id (l : list A) r x :
  findRow key id l = Some r -> findRow key id (l ++ [x]) = Some r.
Proof.
  unfold findRow. rewrite list.filter_app. by destruct (base.filter _ l) as [|y k].
Qed.

Lemma findRow_update_ne {A} (key : A -> string) id id' f (l : list A) :
  id <> id' -> (forall r, key (f r) = key r) -> findRow key id (updateWhere key id' f l) = findRow key id l.
Proof.
  intros Hne Hf. unfold findRow. f_equal. induction l as [|x l IH]; [done|].
  unfold updateWhere in *. csimpl. rewrite !list.filter_cons, IH.
  assert (key (if bool_decide (key x = id') then f x else x) = key x) as -> by (by case_bool_decide).
  case_decide as Hk; [|done]. rewrite bool_decide_eq_false_2 by congruence. done.
Qed.

Section abandoned.
Context `{JsText}.
Variable sch : JsMap.t (list Column).
Variable known : string -> bool.
Variable old : string.
Variable r : ExecRow.

Definition keptRow (d : Db) : Prop := findRow x_id old (executions d) = Some r.
Definition elsewhere (taskId : string) (a : Active) : Prop := a_executionId a <> old.
Abbreviation orphan := (both keptRow (allActive elsewhere)).

(** The active execution of a task, where it matters. *)
Lemma preserves_getActive {B} taskId (k : option Active -> JsM T B) :
  (forall o, (forall a, o = Some a -> elsewhere taskId a) -> preserves orphan (k o)) ->
  preserves orphan (getActive taskId ≫= k).
Proof.
  intros Hk t Ht. unfold getActive, mbind, jsm_bind, gets. apply Hk; [|done].
  intros a Ha. destruct Ht as [_ Hx]. by eapply Hx.
Qed.

Lemma findById_kept id : preserves keptRow (AgentExecutionRepository.findById sch id).
Proof. unfold AgentExecutionRepository.findById. preserve. Qed.

Lemma updateExec_kept id f d :
  id <> old -> (forall x, x_id (f x) = x_id x) -> keptRow d -> keptRow (onExecutions (updateWhere x_id id f) d).
Proof. intros Hid Hf. unfold keptRow. simpl. by rewrite findRow_update_ne. Qed.

Lemma createExec_kept id taskId agentType modelId phase prompt :
  preserves keptRow (AgentExecutionRepository.create sch known id taskId agentType modelId phase prompt).
Proof.
  unfold AgentExecutionRepository.create. preserve; [|apply findById_kept]. by apply findRow_app.
Qed.

(** The row that was created is found under its id. *)
Lemma createExec_id id taskId agentType modelId phase prompt d e d' :
  AgentExecutionRepository.create sch known id taskId agentType modelId phase prompt d = (Ok (Some e), d') ->
  AgentExecutionRepository.ie_id e = id.
Proof.
  unfold AgentExecutionRepository.create, AgentExecutionRepository.findById.
  intros ([] & s1 & _ & H1)%bind_inv. apply bind_inv in H1 as ([] & s2 & _ & H2).
  apply bind_inv in H2 as ([] & s3 & _ & H3). apply bind_inv in H3 as ([] & s4 & _ & H4).
  unfold gets in H4. injection H4 as H4 _. apply fmap_Some in H4 as (x & Hx & ->). simpl.
  unfold findRow in Hx. destruct (base.filter _ _) as [|y l] eqn:Hf; [done|]. injection Hx as ->.
  assert (x ∈ base.filter (fun r => x_id r = id) (executions s4)) as [Hid _]%list_elem_of_filter
    by (rewrite Hf; by left). done.
Qed.

Lemma startExecution_orphan id taskId agentType modelId phase prompt dir :
  id <> old -> preserves orphan (startExecution sch known id taskId agentType modelId phase prompt dir).
Proof.
  intros Hid t [Hd Hx]. unfold startExecution, mbind at 1, jsm_bind at 1, repo.
  pose proof (createExec_kept id taskId agentType modelId phase prompt (db t) Hd) as Hk.
  destruct (AgentExecutionRepository.create _ _ _ _ _ _ _ _ _) as [[[e|]|] d] eqn:Hc; try (by split).
  apply createExec_id in Hc. split; simpl; [done|]. apply allActive_set; [|done].
  unfold elsewhere. simpl. congruence.
Qed.

Lemma startTurn_orphan id taskId ty : preserves orphan (startTurn sch known id taskId ty).
Proof.
  apply preserves_getActive. intros [a|] Ha; [|preserve]. specialize (Ha a eq_refl).
  unfold present. preserve; try (by apply preserves_updateActive).
  - apply preserves_repo. unfold AgentTurnRepository.create, AgentTurnRepository.findById. by preserve.
  - apply preserves_repo. unfold AgentExecutionRepository.updateProgress. preserve. by apply updateExec_kept.
Qed.

Lemma updateTurnContent_orphan now taskId content tokens :
  preserves orphan (updateTurnContent sch now taskId content tokens).
Proof.
  apply preserves_getActive. intros o _. preserve. apply preserves_repo.
  unfold AgentTurnRepository.updateContent. by preserve.
Qed.

Lemma startToolCall_orphan now id taskId useId name input :
  preserves orphan (startToolCall sch known now id taskId useId name input).
Proof.
  apply preserves_getActive. intros [a|] Ha; [|preserve]. specialize (Ha a eq_refl).
  unfold present. preserve; try (by apply preserves_updateActive); try apply preserves_ml; apply preserves_repo.
  - unfold ToolCallRepository.getNextCallOrder. preserve.
  - unfold ToolCallRepository.create, ToolCallRepository.findById. by preserve.
  - unfold AgentTurnRepository.updateToolCalls. by preserve.
Qed.

Lemma completeToolCall_orphan now taskId useId name output success error exitCode :
  preserves orphan (completeToolCall sch now taskId useId name output success error exitCode).
Proof.
  apply preserves_getActive. intros [a|] Ha; [|preserve]. specialize (Ha a eq_refl).
  preserve; try (by apply preserves_updateActive). apply preserves_repo.
  unfold ToolCallRepository.complete, ToolCallRepository.findById. by preserve.
Qed.

Lemma completeExecution_orphan now taskId output i o cost :
  preserves orphan (completeExecution sch now taskId output i o cost).
Proof.
  apply preserves_getActive. intros [a|] Ha; [|preserve]. specialize (Ha a eq_refl).
  preserve; [|apply preserves_ml|].
  - apply preserves_repo. unfold AgentExecutionRepository.complete. preserve; [apply findById_kept|].
    by apply updateExec_kept.
  - destruct H0. split; [done|]. by apply allActive_delete.
Qed.

#[local] Hint Resolve startExecution_orphan startTurn_orphan startToolCall_orphan updateTurnContent_orphan
  completeToolCall_orphan completeExecution_orphan : tracker.

Lemma serve_orphan now id x : id <> old -> preserves orphan (serve sch known now id x).
Proof. intros Hid. unfold serve. destruct x; preserve. Qed.

End abandoned.

(** A registration that is recorded. *)
Lemma createExec_ok known id taskId agentType modelId phase prompt d :
  known taskId = true ->
  let row := AgentExecutionRepository.newRow id taskId agentType modelId phase prompt in
  exists e, AgentExecutionRepository.create initializeSchema known id taskId agentType modelId phase prompt d
              = (Ok (Some e), onExecutions (fun l => l ++ [row]) d)
    /\ AgentExecutionRepository.ie_id e = id.
Proof.
  intros Hk row.
  assert (exists y, findRow x_id id (executions d ++ [row]) = Some y) as [y Hy].
  { unfold findRow. rewrite list.filter_app, list.filter_cons, decide_True by done.
    destruct (base.filter _ _) as [|z l]; by eexists. }
  exists (AgentExecutionRepository.mapRow y).
  assert (AgentExecutionRepository.create initializeSchema known id taskId agentType modelId phase prompt d
    = (Ok (Some (AgentExecutionRepository.mapRow y)), onExecutions (fun l => l ++ [row]) d)) as Hc.
  { unfold AgentExecutionRepository.create, AgentExecutionRepository.findById.
    erewrite bind_ok by (by apply query_ok). rewrite Hk. erewrite bind_ok by reflexivity.
    erewrite bind_ok by reflexivity. erewrite bind_ok by (by apply query_ok).
    unfold gets. simpl. fold row. by rewrite Hy. }
  split; [done|]. by eapply createExec_id.
Qed.

Lemma startExecution_replaces `{JsText} known id taskId agentType modelId phase prompt dir t :
  known taskId = true ->
  let t' := (startExecution initializeSchema known id taskId agentType modelId phase prompt dir t).2 in
  exists x, executions (db t') = executions (db t) ++ [x] /\ x_id x = id
    /\ exists a, activeExecutions t' = JsMap.set taskId a (activeExecutions t) /\ a_executionId a = id.
Proof.
  intros Hk t'. unfold t', startExecution.
  destruct (createExec_ok known id taskId agentType modelId phase prompt (db t) Hk) as (e & Hc & He).
  erewrite bind_ok by (unfold repo; rewrite Hc; reflexivity). erewrite bind_ok by reflexivity.
  eexists. split; [reflexivity|]. split; [done|]. eexists. split; [reflexivity|exact He].
Qed.

(** A task with two sessions at once: registering the second one replaces
    the active execution of the task, and from then on the row of the first
    one is never written again. Whatever the bridge asks later (completions
    included), it keeps the status it was created with. *)
Theorem replaced_execution_abandoned `{JsText} known t taskId a agentType modelId phase prompt dir now id l r :
  JsMap.get taskId (activeExecutions t) = Some a ->
  (forall k b, JsMap.get k (activeExecutions t) = Some b -> k <> taskId -> a_executionId b <> a_executionId a) ->
  known taskId = true -> findRow x_id (a_executionId a) (executions (db t)) = Some r ->
  id <> a_executionId a -> (forall q, q ∈ l -> q_id q <> a_executionId a) ->
  let q := {| q_now := now; q_id := id; q_effect := EfStartExecution taskId agentType modelId phase prompt dir |} in
  findRow x_id (a_executionId a) (executions (db (asked initializeSchema known (q :: l) t))) = Some r.
Proof.
  intros Ha Hne Hk Hr Hid Hl q.
  change (asked initializeSchema known (q :: l) t)
    with (asked initializeSchema known l (ask initializeSchema known t q)).
  apply (preserves_asked initializeSchema known (both (keptRow (a_executionId a) r) (allActive (elsewhere (a_executionId a))))).
  - intros q' Hq'. apply serve_orphan. by apply Hl.
  - destruct (startExecution_replaces known id taskId agentType modelId phase prompt (Some dir) t Hk)
      as (x & Hx & Hxid & b & Hb & Hbid).
    unfold ask, serve. simpl. unfold mbind at 1, jsm_bind at 1.
    destruct (startExecution _ _ _ _ _ _ _ _ _ _) as [[] t']; simpl in *;
      (split; [unfold keptRow; rewrite Hx; by apply findRow_app|]; rewrite Hb; intros k c;
       destruct (decide (taskId = k)) as [<-|Hkne];
       [rewrite JsMap.get_set_eq; intros [= <-]; unfold elsewhere; congruence
       |rewrite JsMap.get_set_ne by done; intros Hc; unfold elsewhere; by eapply Hne]).
Qed.

(** ** Witness *)

Definition demoStart (id : string) : Asked :=
  {| q_now := 1; q_id := id; q_effect := EfStartExecution "t" "opencode" "claude-sonnet" None "Session s" "/d" |}.
Definition demoEnd : Asked := {| q_now := 2; q_id := "unused"; q_effect := EfCompleteExecution "t" |}.

Definition demoOne : T :=
  asked (H := EventBridgeProofs.demoText) initializeSchema (fun _ => true) [demoStart "e1"] init.

(** Two registrations, two completions: the first row stays as created. *)
Lemma replaced_execution_abandoned_witness :
  let t := asked (H := EventBridgeProofs.demoText) initializeSchema (fun _ => true)
             [demoStart "e2"; demoEnd; demoEnd] demoOne in
  findRow x_id "e1" (executions (db t))
    = Some (AgentExecutionRepository.newRow "e1" "t" "opencode" "claude-sonnet" None "Session s")
  /\ (x_status <$> executions (db t)) = ["pending"; "completed"].
Proof.
  split; [|vm_compute; reflexivity].
  refine (replaced_execution_abandoned (H := EventBridgeProofs.demoText) (fun _ => true) demoOne "t" _
    "opencode" "claude-sonnet" None "Session s" "/d" 1 "e2" [demoEnd; demoEnd] _
    ltac:(vm_compute; reflexivity) _ ltac:(reflexivity) ltac:(vm_compute; reflexivity) ltac:(discriminate) _).
  - intros k b Hb Hk. exfalso. revert Hb. unfold demoOne.
    change (activeExecutions _) with (JsMap.set "t" (default (setTurn None 0 (Build_Active "" "" None 0 [] None None None None)) (JsMap.get "t" (activeExecutions demoOne))) []).
    rewrite JsMap.get_set_ne by done. discriminate.
  - intros q [->|[->|Hq]%elem_of_cons]%elem_of_cons; [discriminate|discriminate|by apply elem_of_nil in Hq].
Defined.

End TrackerSpec.
