(* ===== verification/Crypto.v ===== *)
(** * Encryption at rest (src/services/security/CryptoService.ts)

    The format of encrypted values, over AES-256-GCM (class [Aead], a parameter
    with its documented law). Strings are lists of bytes; random bytes are
    arguments; the environment variables are a record. *)

From S2P Require Import Prelude Json.
From stdpp Require Import options.

(** ** Hexadecimal ([Buffer.toString('hex')], [Buffer.from(s, 'hex')]) *)

Module Hex.

Definition digit (n : nat) : Ascii.ascii := Ascii.ascii_of_nat (if n <? 10 then 48 + n else 87 + n).

Definition value (c : Ascii.ascii) : option nat :=
  let n := Ascii.nat_of_ascii c in
  if (48 <=? n) && (n <=? 57) then Some (n - 48)
  else if (97 <=? n) && (n <=? 102) then Some (n - 87)
  else if (65 <=? n) && (n <=? 70) then Some (n - 55)
  else None.

Fixpoint encode (s : string) : string :=
  match s with
  | EmptyString => EmptyString
  | String c s' => let n := Ascii.nat_of_ascii c in String (digit (n / 16)) (String (digit (n mod 16)) (encode s'))
  end.

(** Decoding stops at the first pair that is not hexadecimal. *)
Fixpoint decode (s : string) : string :=
  match s with
  | String a (String b s') =>
      match value a, value b with
      | Some x, Some y => String (Ascii.ascii_of_nat (16 * x + y)) (decode s')
      | _, _ => EmptyString
      end
  | _ => EmptyString
  end.

Lemma value_digit n : n < 16 -> value (digit n) = Some n.
Proof. intros Hn. do 16 (destruct n as [|n]; [reflexivity|]). lia. Qed.

Lemma decode_encode s : decode (encode s) = s.
Proof.
  induction s as [|c s IH]; [done|]. cbn [encode decode].
  pose proof (Ascii.nat_ascii_bounded c) as Hc.
  rewrite !value_digit by (apply Nat.Div0.div_lt_upper_bound || apply Nat.mod_upper_bound; lia).
  rewrite IH. f_equal. rewrite <- Nat.div_mod_eq. apply Ascii.ascii_nat_embedding.
Qed.

(** No character of an encoding is [c]. *)
Definition avoids (c : Ascii.ascii) (s : string) : Prop := c ∉ String.list_ascii_of_string s.

Lemma digit_avoids c n : n < 16 -> value c = None -> digit n <> c.
Proof. intros Hn Hc <-. by rewrite value_digit in Hc. Qed.

Lemma encode_avoids c s : value c = None -> avoids c (encode s).
Proof.
  intros Hc. unfold avoids. induction s as [|x s IH]; cbn [encode String.list_ascii_of_string]; [apply not_elem_of_nil|].
  pose proof (Ascii.nat_ascii_bounded x) as Hx.
  rewrite !not_elem_of_cons. split_and!; [..|done]; apply not_eq_sym, digit_avoids; try done.
  - apply Nat.Div0.div_lt_upper_bound. lia.
  - apply Nat.mod_upper_bound. lia.
Qed.

End Hex.

(** ** The service *)

Module CryptoService.
Import Js.

(** The cipher: [seal key iv plaintext] is the ciphertext and its tag. *)
Class Aead := {
  seal : string -> string -> string -> string * string;
  open : string -> string -> string -> string -> option string;
}.

Class AeadOk `{Aead} : Prop :=
  open_seal : forall key iv p, open key iv (seal key iv p).1 (seal key iv p).2 = Some p.

Record Env := { ENV_ENCRYPTION_KEY : option string; production : bool }.

Definition ENCRYPTED_PREFIX : string := "enc:".

Section service.
Context `{Aead}.
Variables (fromBase64 : string -> string) (devKey : string).
Variable env : Env.

Definition getEncryptionKey : outcome string :=
  match JsStr.orNull (ENV_ENCRYPTION_KEY env) with
  | Some k => Ok (fromBase64 k)
  | None => if production env then Throw "ENV_ENCRYPTION_KEY is required in production!" else Ok devKey
  end.

(** [createCipheriv] and [createDecipheriv] refuse a key of another length. *)
Definition cipherKey : outcome string :=
  match getEncryptionKey with
  | Ok k => if JsStr.length k =? 32 then Ok k else Throw "Invalid key length"
  | Throw e => Throw e
  end.

Definition isEncrypted (v : string) : bool := JsStr.startsWith ENCRYPTED_PREFIX v.

(** [iv] is random. *)
Definition encrypt (iv plaintext : string) : outcome string :=
  if negb (JsStr.truthy plaintext) then Ok plaintext
  else if isEncrypted plaintext then Ok plaintext
  else
    match cipherKey with
    | Throw e => Throw e
    | Ok key =>
        let '(ct, tag) := seal key iv plaintext in
        Ok (ENCRYPTED_PREFIX +:+ Hex.encode iv +:+ ":" +:+ Hex.encode tag +:+ ":" +:+ Hex.encode ct)
    end.

(** [s.split(':')] *)
Fixpoint split (s : string) : list string :=
  match s with
  | EmptyString => [EmptyString]
  | String c s' =>
      if bool_decide (c = ":"%char) then EmptyString :: split s'
      else match split s' with
           | x :: l => String c x :: l
           | [] => [String c EmptyString]
           end
  end.

Definition decrypt (value : string) : outcome string :=
  if negb (JsStr.truthy value) then Ok value
  else if negb (isEncrypted value) then Ok value
  else
    let failed := Throw "Failed to decrypt value. Check ENV_ENCRYPTION_KEY." in
    match split (JsStr.drop (JsStr.length ENCRYPTED_PREFIX) value) with
    | [ivHex; authTagHex; ciphertext] =>
        match cipherKey with
        | Throw _ => failed
        | Ok key =>
            match open key (Hex.decode ivHex) (Hex.decode ciphertext) (Hex.decode authTagHex) with
            | Some p => Ok p
            | None => failed
            end
        end
    | _ => failed
    end.

(** [encryptFields] and [decryptFields]; each field has its own random bytes. *)
Fixpoint mapFields (f : string -> string -> outcome string) (ivs : string -> string) (fields : list string)
    (obj : JsMap.t Json.Json) : outcome (JsMap.t Json.Json) :=
  match fields with
  | [] => Ok obj
  | k :: ks =>
      match JsMap.get k obj with
      | Some (Json.JStr v) =>
          if JsStr.truthy v then
            match f (ivs k) v with
            | Ok v' => mapFields f ivs ks (JsMap.set k (Json.JStr v') obj)
            | Throw e => Throw e
            end
          else mapFields f ivs ks obj
      | _ => mapFields f ivs ks obj
      end
  end.

Definition encryptFields (ivs : string -> string) : list string -> JsMap.t Json.Json -> outcome (JsMap.t Json.Json) :=
  mapFields encrypt ivs.
Definition decryptFields : list string -> JsMap.t Json.Json -> outcome (JsMap.t Json.Json) :=
  mapFields (fun _ => decrypt) (fun _ => "").

(** [bytes] are [length] random bytes. *)
Definition generateToken (bytes prefix : string) : string := prefix +:+ Hex.encode bytes.

End service.
End CryptoService.

(** ** Environment files (src/services/env/EnvService.ts) *)

Module EnvService.
Import CryptoService.

Record IEnvVariable := { v_key : string; v_value : option string; v_isSecret : bool; v_description : option string }.

Section service.
Context `{Aead}.
Variables (fromBase64 : string -> string) (devKey : string).
Variable env : Env.

(** [encrypt] and [decrypt] of a value that may be undefined; null values are
    not told apart from it. *)
Definition encryptValue (iv : string) (v : option string) : outcome (option string) :=
  match v with
  | None => Ok None
  | Some p => match encrypt fromBase64 devKey env iv p with Ok e => Ok (Some e) | Throw e => Throw e end
  end.

Definition decryptValue (v : option string) : outcome (option string) :=
  match v with
  | None => Ok None
  | Some p => match decrypt fromBase64 devKey env p with Ok e => Ok (Some e) | Throw e => Throw e end
  end.

Definition newline : string := String "010"%char EmptyString.

Definition described (v : IEnvVariable) : option string := JsStr.orNull (v_description v).

(** The lines of one variable. *)
Definition entry (v : IEnvVariable) (value : option string) : string :=
  (match described v with Some d => "# " +:+ d +:+ newline | None => "" end)
  +:+ v_key v +:+ "=" +:+ default "undefined" value +:+ newline
  +:+ (match described v with Some _ => newline | None => "" end).

Fixpoint entries (vs : list IEnvVariable) : outcome string :=
  match vs with
  | [] => Ok ""
  | v :: vs' =>
      match (if v_isSecret v then decryptValue (v_value v) else Ok (v_value v)) with
      | Throw e => Throw e
      | Ok value => match entries vs' with Ok s => Ok (entry v value +:+ s) | Throw e => Throw e end
      end
  end.

Definition heading : string :=
  "# Environment Variables" +:+ newline +:+ "# Generated automatically by Multi-Agent Platform" +:+ newline
  +:+ "# DO NOT COMMIT THIS FILE" +:+ newline +:+ newline.

Definition generateEnvFileContent (vs : list IEnvVariable) : outcome string :=
  match vs with
  | [] => Ok ("# No environment variables configured for this repository" +:+ newline)
  | _ => match entries vs with Ok s => Ok (heading +:+ s) | Throw e => Throw e end
  end.

(** [write] is [fs.writeFile] of the .env file of the repository; [None] means
    that nothing was written. *)
Definition writeEnvFile (write : string -> outcome unit) (vs : list IEnvVariable) : outcome (option string) :=
  match vs with
  | [] => Ok None
  | _ =>
      match generateEnvFileContent vs with
      | Ok content =>
          match write content with
          | Ok _ => Ok (Some content)
          | Throw e => Throw ("Failed to create .env file: " +:+ e)
          end
      | Throw e => Throw ("Failed to create .env file: " +:+ e)
      end
  end.

Definition isUpper (c : Ascii.ascii) : bool := let n := Ascii.nat_of_ascii c in (65 <=? n) && (n <=? 90).
Definition isDigit (c : Ascii.ascii) : bool := let n := Ascii.nat_of_ascii c in (48 <=? n) && (n <=? 57).

(** /^[A-Z][A-Z0-9_]*$/ *)
Definition isValidEnvKey (key : string) : bool :=
  match String.list_ascii_of_string key with
  | c :: l => isUpper c && forallb (fun x => isUpper x || isDigit x || bool_decide (x = "_"%char)) l
  | [] => false
  end.

Definition errorsOf (v : IEnvVariable) : list string :=
  if negb (JsStr.truthy (v_key v)) then ["Environment variable key cannot be empty"]
  else
    (if isValidEnvKey (v_key v) then []
     else ["Invalid key format: " +:+ v_key v +:+ " (must be uppercase alphanumeric with underscores)"])
    ++ (match v_value v with None => ["Value for " +:+ v_key v +:+ " cannot be empty"] | Some _ => [] end).

Definition validateEnvVariables (vs : list IEnvVariable) : bool * list string :=
  let errors := concat (errorsOf <$> vs) in (bool_decide (errors = []), errors).

Definition withValue (v : IEnvVariable) (x : option string) : IEnvVariable :=
  {| v_key := v_key v; v_value := x; v_isSecret := v_isSecret v; v_description := v_description v |}.

(** [ivs] are the random bytes of each encryption. *)
Fixpoint prepareForStorage (ivs : list string) (vs : list IEnvVariable) : outcome (list IEnvVariable) :=
  match vs with
  | [] => Ok []
  | v :: vs' =>
      match (if v_isSecret v then encryptValue (default "" (hd_error ivs)) (v_value v) else Ok (v_value v)) with
      | Throw e => Throw e
      | Ok x =>
          match prepareForStorage (tail ivs) vs' with
          | Ok l => Ok (withValue v x :: l)
          | Throw e => Throw e
          end
      end
  end.

End service.
End EnvService.
