(* ===== verification/CryptoProofs.v ===== *)
(** * Properties of encryption at rest

    Round trips of encrypted values and of environment files, and the values
    that are not protected. *)

From S2P Require Import Prelude Json Crypto.
From stdpp Require Import list options.

Module CryptoSpec.
Import CryptoService EnvService.

Section service.
Context `{AOk : AeadOk}.
Variables (fromBase64 : string -> string) (devKey : string).
Variable env : Env.
Abbreviation enc := (encrypt fromBase64 devKey env).
Abbreviation dec := (decrypt fromBase64 devKey env).

Lemma split_whole s : Hex.avoids ":"%char s -> split s = [s].
Proof.
  unfold Hex.avoids. induction s as [|c s IH]; [done|]. simpl. intros [Hc Hs]%not_elem_of_cons.
  rewrite bool_decide_eq_false_2 by (intros Heq; by apply Hc). by rewrite IH.
Qed.

Lemma split_cons s t : Hex.avoids ":"%char s -> split (s +:+ ":" +:+ t) = s :: split t.
Proof.
  unfold Hex.avoids. induction s as [|c s IH]; [done|]. simpl. intros [Hc Hs]%not_elem_of_cons.
  rewrite bool_decide_eq_false_2 by (intros Heq; by apply Hc).
  by rewrite IH.
Qed.

(** An encrypted value, read back part by part. *)
Lemma split_sealed iv tag ct :
  split (Hex.encode iv +:+ ":" +:+ Hex.encode tag +:+ ":" +:+ Hex.encode ct)
  = [Hex.encode iv; Hex.encode tag; Hex.encode ct].
Proof. rewrite !split_cons, split_whole; auto using Hex.encode_avoids. Qed.

Lemma decrypt_encrypt iv p e : isEncrypted p = false -> enc iv p = Ok e -> dec e = Ok p.
Proof using AOk.
  intros Hp. unfold encrypt. rewrite Hp. destruct (JsStr.truthy p) eqn:Ht; simpl.
  - destruct (cipherKey _ _ _) as [key|] eqn:Hk; [|done].
    pose proof (open_seal key iv p) as Hopen. destruct (seal key iv p) as [ct tag]. intros [= <-].
    unfold decrypt. change (JsStr.truthy (ENCRYPTED_PREFIX +:+ ?t)) with true.
    change (isEncrypted (ENCRYPTED_PREFIX +:+ ?t)) with true.
    change (JsStr.drop (JsStr.length ENCRYPTED_PREFIX) (ENCRYPTED_PREFIX +:+ ?t)) with t.
    cbn [negb]. rewrite split_sealed, Hk, !Hex.decode_encode. simpl in Hopen. by rewrite Hopen.
  - intros [= <-]. unfold decrypt. by rewrite Ht.
Qed.

(** The text of the variables in clear. *)
Definition plainEntries (vs : list IEnvVariable) : string :=
  foldr (fun v s => entry v (v_value v) +:+ s) "" vs.

Lemma entries_prepared ivs vs st :
  prepareForStorage fromBase64 devKey env ivs vs = Ok st ->
  (forall v p, v ∈ vs -> v_isSecret v = true -> v_value v = Some p -> isEncrypted p = false) ->
  entries fromBase64 devKey env st = Ok (plainEntries vs).
Proof using AOk.
  revert ivs st. induction vs as [|v vs IH]; intros ivs st Hst Hvs; simpl in Hst; [by simplify_eq|].
  destruct (if v_isSecret v then _ else _) as [x|] eqn:Hx; [|done].
  destruct (prepareForStorage _ _ _ _ vs) as [l|] eqn:Hl; [|done]. injection Hst as <-. cbn [entries].
  assert ((if v_isSecret (withValue v x) then decryptValue fromBase64 devKey env (v_value (withValue v x))
           else Ok (v_value (withValue v x))) = Ok (v_value v)) as ->.
  { simpl. destruct (v_isSecret v) eqn:Hs; [|congruence]. destruct (v_value v) as [p|] eqn:Hv.
    - unfold encryptValue in Hx. destruct (encrypt _ _ _ _ p) as [e|] eqn:He; [|done]. injection Hx as <-.
      simpl. rewrite (decrypt_encrypt _ p e (Hvs v p ltac:(by left) Hs Hv) He). done.
    - simpl in Hx. by simplify_eq. }
  rewrite (IH _ _ Hl); [done|]. intros v' p Hv'. apply Hvs. by right.
Qed.

(** Secrets survive storage: whatever variables are prepared for storage,
    the .env file written from what was stored holds their values in clear,
    with the same keys and comments in the same order, provided that no
    secret starts with the marker of encrypted values. *)
Theorem env_file_roundtrip ivs vs st :
  prepareForStorage fromBase64 devKey env ivs vs = Ok st ->
  (forall v p, v ∈ vs -> v_isSecret v = true -> v_value v = Some p -> isEncrypted p = false) ->
  vs <> [] ->
  generateEnvFileContent fromBase64 devKey env st = Ok (heading +:+ plainEntries vs).
Proof using AOk.
  intros Hst Hvs Hne. pose proof (entries_prepared _ _ _ Hst Hvs) as He.
  unfold generateEnvFileContent. rewrite He. destruct st; [|done].
  destruct vs as [|v vs]; [done|]. simpl in Hst. by repeat case_match.
Qed.

(** A secret that starts with the marker is taken for an encrypted one: it
    is stored in clear, and the .env file of its repository cannot be written
    any more unless it happens to have the three parts of an encrypted
    value. *)
Theorem marked_secret_stored_in_clear iv ivs v p vs st :
  v_isSecret v = true -> v_value v = Some p -> isEncrypted p = true ->
  length (split (JsStr.drop (JsStr.length ENCRYPTED_PREFIX) p)) <> 3 ->
  prepareForStorage fromBase64 devKey env (iv :: ivs) (v :: vs) = Ok st ->
  (v_value <$> hd_error st) = Some (Some p)
  /\ generateEnvFileContent fromBase64 devKey env st = Throw "Failed to decrypt value. Check ENV_ENCRYPTION_KEY.".
Proof.
  intros Hs Hv Hp Hlen Hst. assert (JsStr.truthy p = true) as Ht by (by destruct p).
  assert (forall i, enc i p = Ok p) as Henc by (intros i; unfold encrypt; by rewrite Ht, Hp).
  assert (dec p = Throw "Failed to decrypt value. Check ENV_ENCRYPTION_KEY.") as Hdec.
  { unfold decrypt. rewrite Ht, Hp. simpl. destruct (split _) as [|? [|? [|? [|]]]]; done. }
  cbn [prepareForStorage] in Hst. rewrite Hs, Hv in Hst. simpl in Hst. rewrite Henc in Hst.
  destruct (prepareForStorage _ _ _ _ vs) as [l|]; [|done]. injection Hst as <-. split; [done|].
  unfold generateEnvFileContent. simpl. rewrite Hs. simpl. by rewrite Hdec.
Qed.

End service.

(** ** Witnesses: a cipher that keeps the plaintext and a tag *)

Definition demoAead : Aead :=
  {| seal _ _ p := (p, "tag"); open _ _ c t := if bool_decide (t = "tag") then Some c else None |}.

Lemma demoAead_ok : AeadOk (H := demoAead).
Proof. intros key iv p. reflexivity. Qed.

Definition demoKeys : Env := {| ENV_ENCRYPTION_KEY := Some "0123456789abcdef0123456789abcdef"; production := true |}.

Definition demoVars : list IEnvVariable :=
  [{| v_key := "DB_PASSWORD"; v_value := Some "s3cret"; v_isSecret := true; v_description := Some "database" |};
   {| v_key := "PORT"; v_value := Some "80"; v_isSecret := false; v_description := None |}].

Definition demoStored : list IEnvVariable := Eval vm_compute in
  match prepareForStorage (H := demoAead) (fun s => s) "" demoKeys ["0123456789abcdef"] demoVars with
  | Ok l => l
  | Throw _ => []
  end.

Lemma env_file_roundtrip_witness :
  (v_value <$> demoStored) <> (v_value <$> demoVars)
  /\ generateEnvFileContent (H := demoAead) (fun s => s) "" demoKeys demoStored = Ok (heading +:+ plainEntries demoVars).
Proof.
  split; [discriminate|].
  refine (env_file_roundtrip (AOk := demoAead_ok) (fun s => s) "" demoKeys ["0123456789abcdef"] demoVars demoStored
    ltac:(vm_compute; reflexivity) _ ltac:(discriminate)).
  intros v p [->|[->|Hv]%elem_of_cons]%elem_of_cons Hs Hp; [|discriminate|by apply elem_of_nil in Hv].
  injection Hp as <-. reflexivity.
Defined.

Definition demoMarked : IEnvVariable :=
  {| v_key := "TOKEN"; v_value := Some "enc:abc"; v_isSecret := true; v_description := None |}.

Lemma marked_secret_stored_in_clear_witness :
  (v_value <$> hd_error [demoMarked]) = Some (Some "enc:abc")
  /\ generateEnvFileContent (H := demoAead) (fun s => s) "" demoKeys [demoMarked]
     = Throw "Failed to decrypt value. Check ENV_ENCRYPTION_KEY.".
Proof.
  exact (marked_secret_stored_in_clear (H := demoAead) (fun s => s) "" demoKeys "iv" [] demoMarked "enc:abc" []
    [demoMarked] ltac:(reflexivity) ltac:(reflexivity) ltac:(reflexivity) ltac:(vm_compute; discriminate)
    ltac:(vm_compute; reflexivity)).
Defined.

End CryptoSpec.
