(* ===== verification/Accounts.v ===== *)
(** * Accounts: OAuth states, users and the authentication routes
      (src/database/repositories/OAuthStateRepository.ts, UserRepository.ts,
      src/api/routes/auth.ts)

    The two tables of a login, the handlers that use them and the middleware of
    the protected routes. GitHub's answers and the token library (class [Jwt])
    are parameters; clocks are in milliseconds, ids and random states are
    arguments. *)

From S2P Require Import Prelude JsNumber Json AgentPhase EventBridge Schema ExecutionTracker.
From stdpp Require Import options.

Module AccountRows.

Record OAuthRow := { o_id : string; o_state : string; o_created_at : Z }.

Record UserRow := {
  w_id : string;
  w_github_id : string;
  w_username : string;
  w_email : option string;
  w_avatar_url : option string;
  w_access_token : string;
  w_refresh_token : option string;
  w_token_expiry : option Z;
  w_default_api_key : option string;
  w_created_at : Z;
  w_updated_at : Z;
}.

Record Db := { oauth : list OAuthRow; users : list UserRow }.

Definition onOauth (f : list OAuthRow -> list OAuthRow) (d : Db) : Db := {| oauth := f (oauth d); users := users d |}.
Definition onUsers (f : list UserRow -> list UserRow) (d : Db) : Db := {| oauth := oauth d; users := f (users d) |}.

(** A UNIQUE column. *)
Definition unique {S} (b : bool) : JsM S unit :=
  if b then mret tt else Js.throw "duplicate key value violates unique constraint".

(** A NOT NULL column. *)
Definition given {S A} (v : option A) : JsM S A :=
  match v with Some a => mret a | None => Js.throw "null value violates not-null constraint" end.

End AccountRows.

(** ** OAuth states *)

Module OAuthStateRepository.
Import Js Schema AccountRows.

Section sql.
Variable sch : JsMap.t (list Column).
Abbreviation M := (JsM Db).

(** [INTERVAL '24 hours'] *)
Definition lifetime : Z := 86400000.

(** The clock of the returned object is Node's; the row gets the database's. *)
Definition create (now : Z) (id state : string) : M unit :=
  query sch (Insert "oauth_states" ["id"; "state"]);;
  d ← gets (fun d => d);
  unique (negb (existsb (fun r => bool_decide (o_state r = state) || bool_decide (o_id r = id)) (oauth d)));;
  modify (onOauth (fun l => l ++ [{| o_id := id; o_state := state; o_created_at := now |}])).

Definition findByState (state : string) : M (option OAuthRow) :=
  query sch (Read "oauth_states" ["state"]);;
  gets (fun d => hd_error (base.filter (fun r => o_state r = state) (oauth d))).

Definition deleteByState (state : string) : M bool :=
  query sch (Delete "oauth_states" ["state"]);;
  d ← gets (fun d => d);
  modify (onOauth (base.filter (fun r => o_state r <> state)));;
  mret (existsb (fun r => bool_decide (o_state r = state)) (oauth d)).

(** [created_at < NOW() - lifetime] *)
Definition expired (now : Z) (r : OAuthRow) : bool := (o_created_at r <? now - lifetime)%Z.

Definition cleanupExpired (now : Z) : M nat :=
  query sch (Delete "oauth_states" ["created_at"]);;
  d ← gets (fun d => d);
  modify (onOauth (base.filter (fun r => expired now r = false)));;
  mret (length (base.filter (fun r => expired now r = true) (oauth d))).

(** [state = $1 AND created_at > NOW() - lifetime] *)
Definition valid (now : Z) (state : string) (r : OAuthRow) : bool :=
  bool_decide (o_state r = state) && (now - lifetime <? o_created_at r)%Z.

Definition verifyAndConsume (now : Z) (state : string) : M bool :=
  query sch (Delete "oauth_states" ["state"; "created_at"]);;
  d ← gets (fun d => d);
  modify (onOauth (base.filter (fun r => valid now state r = false)));;
  if existsb (valid now state) (oauth d) then mret true
  else
    query sch (Delete "oauth_states" ["state"]);;
    modify (onOauth (base.filter (fun r => o_state r <> state)));;
    mret false.

End sql.
End OAuthStateRepository.

(** ** Users *)

Module UserRepository.
Import Js Schema TrainingRows AccountRows.

Record IUser := {
  us_id : string;
  us_githubId : string;
  us_username : string;
  us_email : option string;
  us_avatarUrl : option string;
  us_accessToken : string;
  us_refreshToken : option string;
  us_tokenExpiry : option Z;
  us_defaultApiKey : option string;
  us_createdAt : Z;
  us_updatedAt : Z;
}.

Definition rowToUser (r : UserRow) (includeSecrets : bool) : IUser :=
  {| us_id := w_id r; us_githubId := w_github_id r; us_username := w_username r;
     us_email := JsStr.orNull (w_email r); us_avatarUrl := JsStr.orNull (w_avatar_url r);
     us_accessToken := if includeSecrets then w_access_token r else "";
     us_refreshToken := if includeSecrets then JsStr.orNull (w_refresh_token r) else None;
     us_tokenExpiry := w_token_expiry r;
     us_defaultApiKey := if includeSecrets then JsStr.orNull (w_default_api_key r) else None;
     us_createdAt := w_created_at r; us_updatedAt := w_updated_at r |}.

(** The data of [create], [update] and [findOrCreate]; absent is undefined. *)
Record UserData := {
  ud_username : option string;
  ud_email : option string;
  ud_avatarUrl : option string;
  ud_accessToken : option string;
  ud_refreshToken : option string;
  ud_tokenExpiry : option Z;
  ud_defaultApiKey : option string;
}.

Section sql.
Variable sch : JsMap.t (list Column).
Abbreviation M := (JsM Db).

Definition findById (id : string) (includeSecrets : bool) : M (option IUser) :=
  query sch (Read "users" ["id"]);;
  gets (fun d => (fun r => rowToUser r includeSecrets) <$> findRow w_id id (users d)).

Definition findByGithubId (githubId : string) (includeSecrets : bool) : M (option IUser) :=
  query sch (Read "users" ["github_id"]);;
  gets (fun d => (fun r => rowToUser r includeSecrets) <$> findRow w_github_id githubId (users d)).

Definition findByEmail (email : string) (includeSecrets : bool) : M (option IUser) :=
  query sch (Read "users" ["email"]);;
  gets (fun d => (fun r => rowToUser r includeSecrets)
                   <$> hd_error (base.filter (fun r => w_email r = Some email) (users d))).

(** [user!] *)
Definition found {A} (o : option A) : M A :=
  match o with Some a => mret a | None => throw "TypeError: Cannot read properties of null" end.

Definition create (now : Z) (id githubId : string) (u : UserData) : M (option IUser) :=
  query sch (Insert "users" ["id"; "github_id"; "username"; "email"; "avatar_url"; "access_token"; "refresh_token";
                             "token_expiry"; "default_api_key"]);;
  name ← given (ud_username u);
  token ← given (ud_accessToken u);
  l ← gets users;
  unique (negb (existsb (fun r => bool_decide (w_id r = id) || bool_decide (w_github_id r = githubId)) l));;
  modify (onUsers (fun l => l ++ [
    {| w_id := id; w_github_id := githubId; w_username := name; w_email := JsStr.orNull (ud_email u);
       w_avatar_url := JsStr.orNull (ud_avatarUrl u); w_access_token := token;
       w_refresh_token := JsStr.orNull (ud_refreshToken u); w_token_expiry := ud_tokenExpiry u;
       w_default_api_key := JsStr.orNull (ud_defaultApiKey u); w_created_at := now; w_updated_at := now |}]));;
  findById id true.

(** [COALESCE($n, column)] of [v || null] *)
Definition coalesce (v : option string) (old : option string) : option string :=
  match JsStr.orNull v with Some x => Some x | None => old end.

Definition updated (now : Z) (u : UserData) (r : UserRow) : UserRow :=
  {| w_id := w_id r; w_github_id := w_github_id r;
     w_username := default (w_username r) (JsStr.orNull (ud_username u));
     w_email := coalesce (ud_email u) (w_email r); w_avatar_url := coalesce (ud_avatarUrl u) (w_avatar_url r);
     w_access_token := default (w_access_token r) (JsStr.orNull (ud_accessToken u));
     w_refresh_token := coalesce (ud_refreshToken u) (w_refresh_token r);
     w_token_expiry := match ud_tokenExpiry u with Some t => Some t | None => w_token_expiry r end;
     w_default_api_key := coalesce (ud_defaultApiKey u) (w_default_api_key r);
     w_created_at := w_created_at r; w_updated_at := now |}.

Definition update (now : Z) (id : string) (u : UserData) : M (option IUser) :=
  existing ← findById id true;
  match existing with
  | None => mret None
  | Some _ =>
      query sch (Update "users" ["username"; "email"; "avatar_url"; "access_token"; "refresh_token"; "token_expiry";
                                 "default_api_key"; "updated_at"] ["id"]);;
      modify (onUsers (updateWhere w_id id (updated now u)));;
      findById id true
  end.

(** The default API key is not among the data of a login. *)
Definition findOrCreate (now : Z) (id githubId : string) (u : UserData) : M IUser :=
  existing ← findByGithubId githubId true;
  match existing with
  | Some x =>
      r ← update now (us_id x)
            {| ud_username := ud_username u; ud_email := ud_email u; ud_avatarUrl := ud_avatarUrl u;
               ud_accessToken := ud_accessToken u; ud_refreshToken := ud_refreshToken u;
               ud_tokenExpiry := ud_tokenExpiry u; ud_defaultApiKey := None |};
      found r
  | None => r ← create now id githubId u; found r
  end.

Definition delete (id : string) : M bool :=
  query sch (Delete "users" ["id"]);;
  l ← gets users;
  modify (onUsers (base.filter (fun r => w_id r <> id)));;
  mret (existsb (fun r => bool_decide (w_id r = id)) l).

Definition getAccessToken (id : string) : M (option string) :=
  query sch (Read "users" ["access_token"; "id"]);; gets (fun d => w_access_token <$> findRow w_id id (users d)).

Definition getDecryptedApiKey (id : string) : M (option string) :=
  query sch (Read "users" ["default_api_key"; "id"]);;
  gets (fun d => r ← findRow w_id id (users d); JsStr.orNull (w_default_api_key r)).

End sql.
End UserRepository.

(** ** The authentication routes *)

Module AuthRoutes.
Import Json Js Schema AccountRows UserRepository EventBridge.

(** The token library, with the server's secret: what a token says when it is
    accepted at a time. *)
Class Jwt := {
  sign : string -> string -> Z -> string;
  verify : string -> Z -> option (option string);
}.

(** [expiresIn: '7d'] *)
Definition week : Z := 604800000.

(** Documented behaviour: a signed token is accepted with its payload until it
    expires; it is a non-empty text without spaces. *)
Class JwtOk `{Jwt} : Prop := {
  verify_sign : forall u g t now, (t <= now < t + week)%Z -> verify (sign u g t) now = Some (Some u);
  sign_text : forall u g t, sign u g t <> EmptyString /\ " "%char ∉ String.list_ascii_of_string (sign u g t);
}.

Inductive Response :=
  | RedirectError (error : string)
  | RedirectToken (token : string)
  | Answer (status : Z) (body : Json)
  | Next (userId : string) (user : IUser).

Definition refuse (status : Z) (error : string) : Response := Answer status (JObj [("error", JStr error)]).

Section routes.
Context `{JsText} `{Jwt}.
Variable sch : JsMap.t (list Column).
Variable authorizeUrl : string -> string.
Variables (fetchToken : Json -> outcome Json) (fetchUser fetchEmails : option Json -> outcome Json).
Abbreviation M := (JsM Db).

Definition lift {A} (o : outcome A) : M A := fun d => (o, d).

Definition generateToken (now : Z) (userId githubId : string) : string := sign userId githubId now.

(** A value as a text column receives it; null and undefined are NULL. *)
Definition dbText (v : option Json) : option string :=
  match v with None | Some JNull => None | Some (JStr s) => Some s | Some x => Some (toText x) end.

(** The same of [v || null]. *)
Definition dbTruthy (v : option Json) : option string := dbText (orV v None).

(** [emails.find(e => e.primary)] *)
Fixpoint primary (l : list Json) : outcome (option Json) :=
  match l with
  | [] => Ok None
  | JNull :: _ => Throw "TypeError: Cannot read properties of null (reading 'primary')"
  | e :: l' => if isTrue (field "primary" e) then Ok (Some e) else primary l'
  end.

Definition pickEmail (emails : Json) : outcome (option Json) :=
  match emails with
  | JArr l =>
      match primary l with
      | Ok p => Ok (orV (prop "email" p) (prop "email" (hd_error l)))
      | Throw e => Throw e
      end
  | _ => Throw "TypeError: emails.find is not a function"
  end.

(** [githubUser.id.toString()] *)
Definition githubIdOf (u : Json) : outcome string :=
  match field "id" u with
  | None | Some JNull => Throw "TypeError: Cannot read properties of undefined (reading 'toString')"
  | Some (JStr s) => Ok s
  | Some v => Ok (toText v)
  end.

Definition loginData (user tokenData : Json) (email : option Json) : UserData :=
  {| ud_username := dbText (field "login" user); ud_email := dbTruthy email;
     ud_avatarUrl := dbTruthy (field "avatar_url" user); ud_accessToken := dbText (field "access_token" tokenData);
     ud_refreshToken := dbTruthy (field "refresh_token" tokenData); ud_tokenExpiry := None;
     ud_defaultApiKey := None |}.

(** GET /github-auth/url; [state] is random, [authorizeUrl] depends on the
    configuration. *)
Definition githubAuthUrl (now : Z) (id state : string) : M Response :=
  try_catch
    (OAuthStateRepository.create sch now id state;;
     mret (Answer 200 (JObj [("success", JBool true); ("url", JStr (authorizeUrl state)); ("state", JStr state)])))
    (fun _ => mret (Answer 500 (JObj [("success", JBool false); ("message", JStr "Failed to generate auth URL")]))).

(** GET /github/callback; [id] is the id of a new user. *)
Definition getCallback (now : Z) (id : string) (code : option Json) (state error : option string) : M Response :=
  match JsStr.orNull error, JsStr.orNull state with
  | Some e, _ => mret (RedirectError e)
  | None, None => mret (RedirectError "invalid_state")
  | None, Some st =>
      ok ← OAuthStateRepository.verifyAndConsume sch now st;
      if negb ok then mret (RedirectError "invalid_state")
      else
        match code with
        | Some (JStr c) =>
            if negb (JsStr.truthy c) then mret (RedirectError "no_code")
            else
              try_catch
                (tokenData ← lift (fetchToken (JStr c));
                 if isTrue (field "error" tokenData)
                 then mret (RedirectError (default "" (dbText (field "error" tokenData))))
                 else
                   user ← lift (fetchUser (field "access_token" tokenData));
                   email ← (if isTrue (field "email" user) then mret (field "email" user)
                            else emails ← lift (fetchEmails (field "access_token" tokenData)); lift (pickEmail emails));
                   ghId ← lift (githubIdOf user);
                   u ← findOrCreate sch now id ghId (loginData user tokenData email);
                   mret (RedirectToken (generateToken now (us_id u) (us_githubId u))))
                (fun _ => mret (RedirectError "server_error"))
        | _ => mret (RedirectError "no_code")
        end
  end.

(** POST /github/callback *)
Definition postCallback (now : Z) (id : string) (code : option Json) : M Response :=
  if negb (isTrue code) then mret (refuse 400 "Code required")
  else
    try_catch
      (tokenData ← lift (fetchToken (default JNull code));
       if isTrue (field "error" tokenData)
       then mret (Answer 400 (obj [("error", field "error_description" tokenData)]))
       else
         user ← lift (fetchUser (field "access_token" tokenData));
         ghId ← lift (githubIdOf user);
         u ← findOrCreate sch now id ghId (loginData user tokenData (field "email" user));
         mret (Answer 200 (JObj [("success", JBool true);
           ("data", JObj [("accessToken", JStr (generateToken now (us_id u) (us_githubId u)));
             ("user", obj [("id", str (us_id u)); ("name", str (us_username u)); ("email", JStr <$> us_email u);
                           ("avatar", JStr <$> us_avatarUrl u)])])])))
      (fun _ => mret (refuse 500 "GitHub authentication failed")).

(** [header.split(' ')[1]] of a header that starts with [Bearer ]. *)
Fixpoint untilSpace (s : string) : string :=
  match s with
  | EmptyString => EmptyString
  | String c s' => if bool_decide (c = " "%char) then EmptyString else String c (untilSpace s')
  end.

Definition bearer (header : option string) : option string :=
  match header with
  | Some h => if JsStr.startsWith "Bearer " h then Some (untilSpace (JsStr.drop 7 h)) else None
  | None => None
  end.

(** [jwt.verify] and the look-up the protected handlers share. *)
Definition findDecoded (token : string) (now : Z) (includeSecrets : bool) : M (option (string * IUser)) :=
  match verify token now with
  | None => throw "JsonWebTokenError"
  | Some u =>
      r ← findById sch (default "" u) includeSecrets;
      mret (match u, r with Some uid, Some x => Some (uid, x) | _, _ => None end)
  end.

Definition authenticated (header : option string) (now : Z) (k : string -> IUser -> M Response) : M Response :=
  match bearer header with
  | None => mret (refuse 401 "Unauthorized")
  | Some token =>
      try_catch
        (r ← findDecoded token now true;
         match r with
         | None => mret (refuse 401 "User not found")
         | Some (uid, u) => k uid u
         end)
        (fun _ => mret (refuse 401 "Invalid token"))
  end.

(** GET /me *)
Definition me (header : option string) (now : Z) : M Response :=
  authenticated header now (fun _ u =>
    mret (Answer 200 (JObj [("success", JBool true);
      ("data", obj [("id", str (us_id u)); ("githubId", str (us_githubId u)); ("name", str (us_username u));
        ("username", str (us_username u)); ("email", JStr <$> us_email u); ("avatar", JStr <$> us_avatarUrl u);
        ("avatarUrl", JStr <$> us_avatarUrl u);
        ("hasGithubConnected", Some (JBool (JsStr.truthy (us_accessToken u))))])]))).

(** GET /me/api-key *)
Definition meApiKey (header : option string) (now : Z) : M Response :=
  authenticated header now (fun uid u =>
    key ← getDecryptedApiKey sch uid;
    mret (Answer 200 (JObj [("success", JBool true);
      ("data", JObj [("hasApiKey", JBool (bool_decide (is_Some key)));
        ("maskedKey", match key with Some k => JStr ("sk-ant-..." +:+ JsStr.takeLast 4 k) | None => JNull end);
        ("provider", JStr "anthropic")])]))).

(** POST /refresh *)
Definition refresh (refreshToken : option string) (now : Z) : M Response :=
  match JsStr.orNull refreshToken with
  | None => mret (refuse 400 "Refresh token required")
  | Some token =>
      try_catch
        (r ← findDecoded token now false;
         match r with
         | None => mret (refuse 401 "User not found")
         | Some (_, u) =>
             mret (Answer 200 (JObj [("success", JBool true);
               ("data", JObj [("accessToken", JStr (generateToken now (us_id u) (us_githubId u)))])]))
         end)
        (fun _ => mret (refuse 401 "Invalid refresh token"))
  end.

(** POST /logout *)
Definition logout : M Response :=
  mret (Answer 200 (JObj [("success", JBool true); ("message", JStr "Logged out successfully")])).

Definition authMiddleware (header : option string) (now : Z) : M Response :=
  authenticated header now (fun uid u => mret (Next uid u)).

Definition getUserGitHubToken (userId : string) : M (option string) := getAccessToken sch userId.

End routes.
End AuthRoutes.
