(* ===== verification/AccountsProofs.v ===== *)
(** * Properties of the accounts

    States are consumed by their first use, the login that does not ask for
    one, what a login stores, and how long a token can be kept alive. *)

From S2P Require Import Prelude JsNumber Json AgentPhase EventBridge EventBridgeProofs Schema ExecutionTracker Crypto Accounts.
From stdpp Require Import list options.

Module AccountsSpec.
Import Json Js Schema TrainingRows Rows AccountRows UserRepository AuthRoutes EventBridge.
Abbreviation schema := initializeSchema.

(** ** OAuth states *)

(** The states of the table are distinct. *)
Definition statesOk (d : Db) : Prop := NoDup (o_state <$> oauth d).

(** Verifying a state: whether it is there and fresh, and that it is gone. *)
Lemma verify_eq now st d :
  statesOk d ->
  OAuthStateRepository.verifyAndConsume schema now st d
  = (Ok (existsb (OAuthStateRepository.valid now st) (oauth d)), onOauth (base.filter (fun r => o_state r <> st)) d).
Proof.
  intros Hok. unfold OAuthStateRepository.verifyAndConsume.
  erewrite bind_ok by (by apply query_ok). erewrite bind_ok by reflexivity. erewrite bind_ok by reflexivity.
  destruct (existsb _ (oauth d)) eqn:He.
  - unfold mret, jsm_ret, onOauth. simpl. do 2 f_equal. apply filter_ext. intros r Hr.
    apply existsb_exists in He as (x & Hx%list_elem_of_In & Hv). split; [intros Hr' Hst|intros Hne].
    + subst st. pose proof Hv as Hv'. unfold OAuthStateRepository.valid in Hv'.
      apply andb_true_iff in Hv' as [Hs%bool_decide_eq_true _].
      rewrite (NoDup_key o_state _ _ _ Hok Hx Hr Hs) in Hv. congruence.
    + unfold OAuthStateRepository.valid. by rewrite bool_decide_eq_false_2.
  - erewrite bind_ok by (by apply query_ok). erewrite bind_ok by reflexivity.
    unfold mret, jsm_ret, onOauth. simpl. do 2 f_equal. rewrite list_filter_filter. apply filter_ext.
    intros r Hr. split; [tauto|]. intros Hne. split; [done|].
    unfold OAuthStateRepository.valid. by rewrite bool_decide_eq_false_2.
Qed.

Lemma statesOk_filter (P : OAuthRow -> Prop) `{!forall r, Decision (P r)} d :
  statesOk d -> statesOk (onOauth (base.filter P) d).
Proof.
  unfold statesOk. simpl. intros Hd. eapply sublist_NoDup; [exact Hd|]. apply fmap_sublist, sublist_filter.
Qed.

Lemma create_eq now id st d :
  OAuthStateRepository.create schema now id st d
  = (if existsb (fun r => bool_decide (o_state r = st) || bool_decide (o_id r = id)) (oauth d)
     then (Throw "duplicate key value violates unique constraint", d)
     else (Ok tt, onOauth (fun l => l ++ [{| o_id := id; o_state := st; o_created_at := now |}]) d)).
Proof.
  unfold OAuthStateRepository.create. erewrite bind_ok by (by apply query_ok). erewrite bind_ok by reflexivity.
  unfold unique. by destruct (existsb _ _).
Qed.

Lemma cleanup_eq now d :
  OAuthStateRepository.cleanupExpired schema now d
  = (Ok (length (base.filter (fun r => OAuthStateRepository.expired now r = true) (oauth d))),
     onOauth (base.filter (fun r => OAuthStateRepository.expired now r = false)) d).
Proof.
  unfold OAuthStateRepository.cleanupExpired. by erewrite bind_ok by (by apply query_ok).
Qed.

(** *** Requests that leave the states alone *)

Definition keeps {A} (m : JsM Db A) : Prop := forall d, oauth (m d).2 = oauth d.

Lemma statesKept_bind {A B} (m : JsM Db A) (k : A -> JsM Db B) :
  keeps m -> (forall a, keeps (k a)) -> keeps (m ≫= k).
Proof.
  intros Hm Hk d. specialize (Hm d). unfold mbind, jsm_bind.
  destruct (m d) as [[a|e] d1]; simpl in *; [by rewrite Hk|done].
Qed.

Lemma statesKept_try {A} (m : JsM Db A) (h : string -> JsM Db A) :
  keeps m -> (forall e, keeps (h e)) -> keeps (try_catch m h).
Proof.
  intros Hm Hh d. specialize (Hm d). unfold try_catch.
  destruct (m d) as [[a|e] d1]; simpl in *; [done|by rewrite Hh].
Qed.

Lemma statesKept_ret {A} (a : A) : keeps (mret (M := JsM Db) a).
Proof. by intros d. Qed.
Lemma statesKept_throw {A} e : keeps (throw (S := Db) (A := A) e).
Proof. by intros d. Qed.
Lemma statesKept_lift {A} (o : outcome A) : keeps (AuthRoutes.lift o).
Proof. by intros d. Qed.
Lemma statesKept_query q : keeps (query schema q).
Proof. intros d. unfold query. by destruct (rejected schema q). Qed.
Lemma statesKept_gets {A} (f : Db -> A) : keeps (gets f).
Proof. by intros d. Qed.
Lemma statesKept_users f : keeps (modify (onUsers f)).
Proof. by intros d. Qed.

Create HintDb states.
#[local] Hint Resolve statesKept_ret statesKept_throw statesKept_lift statesKept_query statesKept_gets statesKept_users : states.

Ltac keeps := repeat first
  [ solve [auto with states]
  | match goal with
    | |- keeps (mbind _ _) => apply statesKept_bind; [|intros ?]
    | |- keeps (try_catch _ _) => apply statesKept_try; [|intros ?]
    | |- keeps (match ?x with _ => _ end) => destruct x
    end ].

Lemma statesKept_findById id b : keeps (UserRepository.findById schema id b).
Proof. unfold UserRepository.findById. keeps. Qed.
#[local] Hint Resolve statesKept_findById : states.

Lemma statesKept_findOrCreate now id gh u : keeps (UserRepository.findOrCreate schema now id gh u).
Proof.
  unfold UserRepository.findOrCreate, UserRepository.findByGithubId, UserRepository.update, UserRepository.create,
    UserRepository.found, given, unique.
  keeps.
Qed.
#[local] Hint Resolve statesKept_findOrCreate : states.

(** *** The requests of the authentication routes *)

(** Whether a state is in the table. *)
Definition present (st : string) (d : Db) : bool := existsb (fun r => bool_decide (o_state r = st)) (oauth d).

Lemma present_iff st d : present st d = true <-> exists r, r ∈ oauth d /\ o_state r = st.
Proof.
  unfold present. rewrite existsb_exists. setoid_rewrite bool_decide_eq_true.
  by setoid_rewrite <- list_elem_of_In.
Qed.

Lemma present_filter st st' d :
  present st (onOauth (base.filter (fun r => o_state r <> st')) d)
  = if decide (st = st') then false else present st d.
Proof.
  apply eq_true_iff_eq. rewrite present_iff. simpl. setoid_rewrite list_elem_of_filter.
  case_decide as E; [|rewrite present_iff]; naive_solver.
Qed.

Section requests.
Context `{JsText} `{Jwt}.
Variable authorizeUrl : string -> string.
Variables (fetchToken : Json -> outcome Json) (fetchUser fetchEmails : option Json -> outcome Json).
#[local] Set Default Proof Using "Type".

(** The requests, with their times and the ids and random states they draw,
    and the clean-up of expired states. *)
Inductive Request :=
  | RUrl (now : Z) (id st : string)
  | RGet (now : Z) (id : string) (code : option Json) (state error : option string)
  | RPost (now : Z) (id : string) (code : option Json)
  | RMe (header : option string) (now : Z)
  | RMeApiKey (header : option string) (now : Z)
  | RRefresh (token : option string) (now : Z)
  | RLogout
  | RMiddleware (header : option string) (now : Z)
  | RCleanup (now : Z).

Definition serve (r : Request) : JsM Db Response :=
  match r with
  | RUrl now id st => githubAuthUrl schema authorizeUrl now id st
  | RGet now id code state error => getCallback schema fetchToken fetchUser fetchEmails now id code state error
  | RPost now id code => postCallback schema fetchToken fetchUser now id code
  | RMe header now => me schema header now
  | RMeApiKey header now => meApiKey schema header now
  | RRefresh token now => refresh schema token now
  | RLogout => logout
  | RMiddleware header now => authMiddleware schema header now
  | RCleanup now => OAuthStateRepository.cleanupExpired schema now;; mret (Answer 204 JNull)
  end.

(** Requests one after another, with their answers. *)
Fixpoint serveAll (l : list Request) (d : Db) : list (Request * outcome Response) * Db :=
  match l with
  | [] => ([], d)
  | r :: l' => let '(a, d1) := serve r d in let '(log, d2) := serveAll l' d1 in ((r, a) :: log, d2)
  end.

Definition noAccounts : Db := {| oauth := []; users := [] |}.

(** A GET callback that comes with the state [st], and no error. *)
Definition carries (st : string) (r : Request) : bool :=
  match r with
  | RGet _ _ _ state error =>
      bool_decide (JsStr.orNull error = None) && bool_decide (JsStr.orNull state = Some st)
  | _ => false
  end.

Definition refusedState : outcome Response := Ok (RedirectError "invalid_state").

(** A GET callback with the state that ended with a token. *)
Definition loggedIn (st : string) (e : Request * outcome Response) : bool :=
  carries st e.1 && match e.2 with Ok (RedirectToken _) => true | _ => false end.

(** A request for a login address that handed the state out. *)
Definition handedOut (st : string) (e : Request * outcome Response) : bool :=
  match e with (RUrl _ _ st', Ok (Answer 200 _)) => bool_decide (st' = st) | _ => false end.

Definition creates (st : string) (r : Request) : bool :=
  match r with RUrl _ _ st' => bool_decide (st' = st) | _ => false end.

(** The callback: it asks for the state, which is then gone, and what follows
    leaves the states alone. *)
Lemma getCallback_split now id code state error st :
  carries st (RGet now id code state error) = true ->
  exists m, keeps m /\ forall d, statesOk d ->
    getCallback schema fetchToken fetchUser fetchEmails now id code state error d
    = if existsb (OAuthStateRepository.valid now st) (oauth d)
      then m (onOauth (base.filter (fun r => o_state r <> st)) d)
      else (refusedState, onOauth (base.filter (fun r => o_state r <> st)) d).
Proof.
  simpl. intros [He%bool_decide_eq_true Hs%bool_decide_eq_true]%andb_true_iff.
  eexists. split; cycle 1.
  - intros d Hd. unfold getCallback. rewrite He, Hs. erewrite bind_ok by (by apply verify_eq).
    destruct (existsb _ (oauth d)); cbn [negb]; reflexivity.
  - keeps.
Qed.

Lemma getCallback_none now id code state error d :
  (forall st, carries st (RGet now id code state error) = false) ->
  exists e, getCallback schema fetchToken fetchUser fetchEmails now id code state error d = (Ok (RedirectError e), d).
Proof.
  intros Hc. unfold getCallback. destruct (JsStr.orNull error) as [e|] eqn:He; [by exists e|].
  destruct (JsStr.orNull state) as [st|] eqn:Hs; [|by eexists].
  specialize (Hc st). simpl in Hc. by rewrite He, Hs, !bool_decide_eq_true_2 in Hc.
Qed.

Lemma statesKept_authenticated header now k :
  (forall u x, keeps (k u x)) -> keeps (authenticated schema header now k).
Proof. intros Hk. unfold authenticated, findDecoded. keeps. Qed.

(** The other requests neither hand out a state nor use one. *)
Lemma serve_keeps r :
  (forall now id st, r <> RUrl now id st) -> (forall now id c s e, r <> RGet now id c s e) ->
  (forall now, r <> RCleanup now) -> keeps (serve r).
Proof.
  intros Hu Hg Hc. destruct r as [?|?|now id code|header now|header now|token now| |header now|now]; cbn [serve].
  - by destruct (Hu now id st).
  - by destruct (Hg now id code state error).
  - unfold postCallback. keeps.
  - apply statesKept_authenticated. intros u x. keeps.
  - apply statesKept_authenticated. intros u x. unfold UserRepository.getDecryptedApiKey. keeps.
  - unfold refresh, findDecoded. keeps.
  - unfold logout. keeps.
  - apply statesKept_authenticated. intros u x. keeps.
  - by destruct (Hc now).
Qed.

(** A request on a table of states. *)
Lemma serve_url now id st d :
  (present st d = false /\ handedOut st (RUrl now id st, (serve (RUrl now id st) d).1) = true
     /\ (serve (RUrl now id st) d).2 = onOauth (fun l => l ++ [{| o_id := id; o_state := st; o_created_at := now |}]) d)
  \/ (serve (RUrl now id st) d).2 = d.
Proof.
  cbn [serve]. unfold githubAuthUrl, try_catch, mbind, jsm_bind. rewrite create_eq.
  destruct (existsb _ (oauth d)) eqn:E; [by right|]. left. cbn. rewrite bool_decide_eq_true_2 by done.
  split; [|done]. apply not_true_is_false. intros (r & Hr & Hs)%present_iff.
  apply not_true_iff_false in E. apply E, existsb_exists. exists r.
  split; [by apply list_elem_of_In|]. by rewrite (bool_decide_eq_true_2 (o_state r = st)).
Qed.

(** The three kinds of requests. *)
Lemma serve_cases r d : statesOk d ->
  (exists now id st, r = RUrl now id st)
  \/ (exists st now id c s e m, r = RGet now id c s e /\ carries st r = true /\ keeps m
      /\ serve r d = (if existsb (OAuthStateRepository.valid now st) (oauth d)
                      then m (onOauth (base.filter (fun r => o_state r <> st)) d)
                      else (refusedState, onOauth (base.filter (fun r => o_state r <> st)) d)))
  \/ ((forall st, carries st r = false)
      /\ exists P (D : forall x, Decision (P x)), oauth (serve r d).2 = base.filter P (oauth d)).
Proof.
  intros Hd.
  assert (oauth (serve r d).2 = oauth d ->
    exists P (D : forall x, Decision (P x)), oauth (serve r d).2 = base.filter P (oauth d)) as Hsame.
  { intros ->. exists (fun _ => True), (fun _ => left I).
    induction (oauth d) as [|x l IH]; [done|]. by rewrite filter_cons, decide_True, <- IH by done. }
  destruct r as [now id st|now id c s e|now id code|header now|header now|token now| |header now|now]; [by left; eauto|..].
  2-7: right; right; (split; [done|]); apply Hsame, serve_keeps; done.
  - right. destruct (bool_decide (JsStr.orNull e = None)) eqn:He.
    2:{ right. assert (forall st, carries st (RGet now id c s e) = false) as Hc by (intros st; simpl; by rewrite He).
        split; [done|]. destruct (getCallback_none now id c s e d Hc) as [x Hx]. apply Hsame. cbn [serve]. by rewrite Hx. }
    destruct (JsStr.orNull s) as [st|] eqn:Hs.
    + left. assert (carries st (RGet now id c s e) = true) as Hc by (simpl; by rewrite He, Hs, bool_decide_eq_true_2).
      destruct (getCallback_split now id c s e st Hc) as (m & Hm & Heq).
      exists st, now, id, c, s, e, m. split_and!; [done..|]. by apply Heq.
    + right. assert (forall st, carries st (RGet now id c s e) = false) as Hc.
      { intros st. simpl. rewrite Hs, (bool_decide_eq_false_2 (None = Some st)) by done. by rewrite andb_false_r. }
      split; [done|]. destruct (getCallback_none now id c s e d Hc) as [x Hx]. apply Hsame. cbn [serve]. by rewrite Hx.
  - right. right. split; [done|]. cbn [serve]. unfold mbind, jsm_bind. rewrite cleanup_eq. eauto.
Qed.

Lemma statesOk_serve r d : statesOk d -> statesOk (serve r d).2.
Proof.
  intros Hd. destruct (serve_cases r d Hd) as [(now & id & st & ->)|[(st & now & id & c & s & e & m & _ & _ & Hm & ->)|(_ & P & D & E)]].
  - destruct (serve_url now id st d) as [(Hp & _ & ->)| ->]; [|done].
    unfold statesOk. simpl. rewrite fmap_app. apply NoDup_app. split; [done|]. split; [|apply NoDup_singleton].
    intros x (r & -> & Hr)%list_elem_of_fmap Hx%list_elem_of_singleton. simpl in Hx.
    apply not_true_iff_false in Hp. apply Hp, present_iff. by exists r.
  - case_match; [unfold statesOk; rewrite Hm|]; by apply statesOk_filter.
  - unfold statesOk. rewrite E. by apply (statesOk_filter P).
Qed.

Lemma statesOk_serveAll l d : statesOk d -> statesOk (serveAll l d).2.
Proof.
  revert d. induction l as [|r l IH]; intros d Hd; [done|]. simpl. specialize (IH _ (statesOk_serve r d Hd)).
  destruct (serve r d) as [a d1]. simpl in IH. by destruct (serveAll l d1).
Qed.

Lemma serveAll_snoc l r d : (serveAll (l ++ [r]) d).2 = (serve r (serveAll l d).2).2.
Proof.
  revert d. induction l as [|x l IH]; intros d; simpl; [by destruct (serve r d)|].
  destruct (serve x d) as [a d1]. specialize (IH d1). destruct (serveAll (l ++ [r]) d1), (serveAll l d1). exact IH.
Qed.

Lemma serveAll_app l l' d : (serveAll (l ++ l') d).2 = (serveAll l' (serveAll l d).2).2.
Proof.
  revert d. induction l as [|x l IH]; intros d; simpl; [done|].
  destruct (serve x d) as [a d1]. specialize (IH d1). destruct (serveAll (l ++ l') d1), (serveAll l d1). exact IH.
Qed.

(** What one request does to one state: it is counted when it is handed out,
    and used up by the callback that brings it. *)
Lemma present_serve st r d : statesOk d ->
  let a := (serve r d).1 in let d1 := (serve r d).2 in
  (if loggedIn st (r, a) then 1 else 0) + (if present st d1 then 1 else 0)
    <= (if handedOut st (r, a) then 1 else 0) + (if present st d then 1 else 0)
  /\ (carries st r = true -> present st d1 = false /\ (present st d = false -> a = refusedState))
  /\ (creates st r = false -> present st d = false -> present st d1 = false).
Proof.
  intros Hd a d1.
  destruct (serve_cases r d Hd) as [(now & id & st' & ->)|[(st' & now & id & c & s & e & m & -> & Hc & Hm & E)|(Hc & P & D & E)]].
  - subst a d1. destruct (serve_url now id st' d) as [(Hp & Ha & ->)| ->].
    + assert (present st (onOauth (fun l => l ++ [{| o_id := id; o_state := st'; o_created_at := now |}]) d)
              = present st d || bool_decide (st' = st)) as ->.
      { unfold present. simpl. rewrite existsb_app. simpl. by rewrite orb_false_r. }
      split_and!; [|done|].
      * cbn [loggedIn carries fst andb]. destruct (decide (st' = st)) as [->|Hne].
        { rewrite Ha, Hp, bool_decide_eq_true_2 by done. done. }
        rewrite (bool_decide_eq_false_2 (st' = st)), orb_false_r by done. case_match; lia.
      * cbn [creates]. intros -> ->. done.
    + split_and!; [|done|done]. cbn [loggedIn carries fst andb]. lia.
  - assert (present st d1 = if decide (st = st') then false else present st d) as Hp1.
    { subst d1. rewrite E. case_match; [unfold present; rewrite Hm|]; apply present_filter. }
    assert (forall x, carries x (RGet now id c s e) = true -> x = st') as Huniq.
    { cbn [carries] in Hc |- *. intros x. rewrite !andb_true_iff, !bool_decide_eq_true in *. naive_solver congruence. }
    assert (present st' d = false -> a = refusedState) as Hno.
    { intros Hp. subst a. rewrite E. destruct (existsb _ (oauth d)) eqn:Ev; [|done].
      apply existsb_exists in Ev as (r & Hr%list_elem_of_In & Hv). unfold OAuthStateRepository.valid in Hv.
      apply andb_true_iff in Hv as [Hv%bool_decide_eq_true _]. apply not_true_iff_false in Hp.
      destruct Hp. apply present_iff. eauto. }
    rewrite Hp1. split_and!.
    + unfold loggedIn. cbn [fst snd]. destruct (carries st (RGet now id c s e)) eqn:Hcs.
      * apply Huniq in Hcs as ->. rewrite decide_True by done. destruct (present st' d); [|by rewrite Hno].
        cbn [andb]. repeat case_match; lia.
      * cbn [andb]. repeat case_match; simpl in *; (lia || congruence).
    + intros ->%Huniq. by rewrite decide_True.
    + by case_decide.
  - assert (present st d1 = true -> present st d = true) as Hp1.
    { unfold d1. rewrite !present_iff, E. intros (x & [_ Hx]%list_elem_of_filter & ?). eauto. }
    assert (loggedIn st (r, a) = false) as -> by (unfold loggedIn; cbn [fst]; by rewrite Hc).
    split_and!; [|by rewrite Hc|].
    + destruct (present st d1); [rewrite Hp1 by done|]; lia.
    + destruct (present st d1); [by rewrite Hp1 by done|done].
Qed.

Lemma logged_in_bound st l d : statesOk d ->
  let '(log, d') := serveAll l d in
  length (base.filter (fun e => loggedIn st e = true) log) + (if present st d' then 1 else 0)
    <= length (base.filter (fun e => handedOut st e = true) log) + (if present st d then 1 else 0).
Proof.
  revert d. induction l as [|r l IH]; intros d Hd; simpl; [lia|].
  destruct (present_serve st r d Hd) as (H1 & _). pose proof (statesOk_serve r d Hd) as Hd1.
  destruct (serve r d) as [a d1]. cbn [fst snd] in *. specialize (IH d1 Hd1).
  destruct (serveAll l d1) as [log d2]. rewrite !filter_cons.
  destruct (loggedIn st (r, a)), (handedOut st (r, a)); repeat case_decide; try done; cbn [length] in *; lia.
Qed.

Lemma absent_serveAll st l d : statesOk d ->
  (forall r, r ∈ l -> creates st r = false) -> present st d = false -> present st (serveAll l d).2 = false.
Proof.
  revert d. induction l as [|r l IH]; intros d Hd Hl Hp; [done|]. simpl.
  destruct (present_serve st r d Hd) as (_ & _ & H3). specialize (H3 (Hl r (list_elem_of_here _ _)) Hp).
  pose proof (statesOk_serve r d Hd) as Hd1. destruct (serve r d) as [a d1]. cbn [fst snd] in *.
  specialize (IH d1 Hd1 (fun x Hx => Hl x (list_elem_of_further _ _ _ Hx)) H3). by destruct (serveAll l d1).
Qed.

(** Every row comes from a request for a login address. *)
Lemma rows_handed_out l x : x ∈ oauth (serveAll l noAccounts).2 -> RUrl (o_created_at x) (o_id x) (o_state x) ∈ l.
Proof.
  induction l as [|r l IH] using rev_ind; [by intros ?%not_elem_of_nil|]. rewrite serveAll_snoc, elem_of_app.
  set (d := (serveAll l noAccounts).2) in *. assert (statesOk d) as Hd by apply statesOk_serveAll, NoDup_nil_2.
  destruct (serve_cases r d Hd) as [(now & id & st & ->)|[(st & now & id & c & s & e & m & _ & _ & Hm & ->)|(_ & P & D & ->)]].
  - destruct (serve_url now id st d) as [(_ & _ & ->)| ->]; [|auto].
    simpl. intros [?| ->%list_elem_of_singleton]%elem_of_app; [auto|]. right. set_solver.
  - case_match; [rewrite Hm|]; simpl; intros [_ ?]%list_elem_of_filter; auto.
  - intros [_ ?]%list_elem_of_filter. auto.
Qed.

(** C19: An OAuth state is good for one login. Requests of all kinds come one
    after another, starting with no state stored, in any number and order (a
    callback asks for its state first, in one statement, and nothing it does
    later touches the table, so this is the order of the checks). Then for
    every state: GET callbacks that bring it end with a token at most as often
    as the state was handed out; a callback that brings it is let in only when it was
    handed out less than 24 hours before; and once a callback has brought it,
    with whatever answer, every further one is refused, and stores nothing of any
    user, until the state is handed out again. *)
Theorem oauth_state_single_use st :
  (forall l, let log := (serveAll l noAccounts).1 in
     length (base.filter (fun e => loggedIn st e = true) log)
     <= length (base.filter (fun e => handedOut st e = true) log))
  /\ (forall l now id c s e, carries st (RGet now id c s e) = true ->
        (serve (RGet now id c s e) (serveAll l noAccounts).2).1 <> refusedState ->
        exists t i, RUrl t i st ∈ l /\ (now - t < OAuthStateRepository.lifetime)%Z)
  /\ (forall l r mid r', carries st r = true -> carries st r' = true ->
        (forall x, x ∈ mid -> creates st x = false) ->
        let d := (serveAll (l ++ r :: mid) noAccounts).2 in
        (serve r' d).1 = refusedState /\ users (serve r' d).2 = users d).
Proof.
  assert (statesOk noAccounts) as Hempty by apply NoDup_nil_2. split_and!.
  - intros l. pose proof (logged_in_bound st l noAccounts Hempty) as Hb. destruct (serveAll l noAccounts) as [log d]. cbn in *. lia.
  - intros l now id c s e Hc Hne. destruct (getCallback_split now id c s e st Hc) as (m & _ & Heq).
    cbn [serve] in Hne. rewrite Heq in Hne by (by apply statesOk_serveAll).
    destruct (existsb _ _) eqn:Ev; [|done]. apply existsb_exists in Ev as (x & Hx%list_elem_of_In & Hv).
    unfold OAuthStateRepository.valid in Hv. apply andb_true_iff in Hv as [Hs%bool_decide_eq_true Ht%Z.ltb_lt].
    apply rows_handed_out in Hx. rewrite Hs in Hx. exists (o_created_at x), (o_id x). split; [done|lia].
  - intros l r mid r' Hc Hc' Hmid d.
    assert (statesOk d) as Hd by (by apply statesOk_serveAll).
    assert (present st d = false) as Hp.
    { unfold d. rewrite serveAll_app. cbn [serveAll].
      pose proof (statesOk_serveAll l noAccounts Hempty) as Hl. set (dl := (serveAll l noAccounts).2) in *.
      destruct (present_serve st r dl Hl) as (_ & H2 & _). destruct (H2 Hc) as [Hp _].
      pose proof (statesOk_serve r dl Hl) as Hd1. destruct (serve r dl) as [a d1]. cbn [fst snd] in *.
      pose proof (absent_serveAll st mid d1 Hd1 Hmid Hp). by destruct (serveAll mid d1). }
    destruct (present_serve st r' d Hd) as (_ & H2 & _). split; [by apply H2|].
    destruct r' as [?|now id c s e|?|?|?|?| |?|?]; try done.
    destruct (getCallback_split now id c s e st Hc') as (m & _ & Heq). cbn [serve]. rewrite Heq by done.
    destruct (existsb _ (oauth d)) eqn:Ev; [|done]. apply existsb_exists in Ev as (x & Hx%list_elem_of_In & Hv).
    unfold OAuthStateRepository.valid in Hv. apply andb_true_iff in Hv as [Hs%bool_decide_eq_true _].
    apply not_true_iff_false in Hp. destruct Hp. apply present_iff. eauto.
Qed.

End requests.

(** ** A login without a state *)

(** A run that does not depend on the states. *)
Definition stateless {A} (m : JsM Db A) : Prop :=
  forall d d', users d = users d' -> (m d).1 = (m d').1 /\ users (m d).2 = users (m d').2.

Lemma stateless_bind {A B} (m : JsM Db A) (k : A -> JsM Db B) :
  stateless m -> (forall a, stateless (k a)) -> stateless (m ≫= k).
Proof.
  intros Hm Hk d d' Hd. destruct (Hm d d' Hd) as [H1 H2]. unfold mbind, jsm_bind.
  destruct (m d) as [r e], (m d') as [r' e']. simpl in *. subst r'. destruct r; [by apply Hk|done].
Qed.

Lemma stateless_try {A} (m : JsM Db A) (h : string -> JsM Db A) :
  stateless m -> (forall e, stateless (h e)) -> stateless (try_catch m h).
Proof.
  intros Hm Hh d d' Hd. destruct (Hm d d' Hd) as [H1 H2]. unfold try_catch.
  destruct (m d) as [r e], (m d') as [r' e']. simpl in *. subst r'. destruct r; [done|by apply Hh].
Qed.

Lemma stateless_ret {A} (a : A) : stateless (mret (M := JsM Db) a).
Proof. by intros d d' Hd. Qed.

Lemma stateless_throw {A} e : stateless (throw (S := Db) (A := A) e).
Proof. by intros d d' Hd. Qed.

Lemma stateless_lift {A} (o : outcome A) : stateless (AuthRoutes.lift o).
Proof. by intros d d' Hd. Qed.

Lemma stateless_query q : stateless (query schema q).
Proof. intros d d' Hd. unfold query. by destruct (rejected schema q). Qed.

Lemma stateless_gets {A} (f : list UserRow -> A) : stateless (gets (fun d => f (users d))).
Proof. intros d d' Hd. simpl. by rewrite Hd. Qed.

Lemma stateless_users f : stateless (modify (onUsers f)).
Proof. intros d d' Hd. simpl. by rewrite Hd. Qed.

Create HintDb accounts.
#[local] Hint Resolve stateless_ret stateless_throw stateless_lift stateless_query stateless_users : accounts.

Ltac stateless := repeat first
  [ solve [auto with accounts]
  | match goal with
    | |- stateless (mbind _ _) => apply stateless_bind; [|intros ?]
    | |- stateless (try_catch _ _) => apply stateless_try; [|intros ?]
    | |- stateless (match ?x with _ => _ end) => destruct x
    end ].

Lemma findById_stateless id b : stateless (UserRepository.findById schema id b).
Proof.
  unfold UserRepository.findById. stateless.
  apply (stateless_gets (fun l => (fun r => rowToUser r b) <$> findRow w_id id l)).
Qed.

#[local] Hint Resolve findById_stateless : accounts.

Lemma findOrCreate_stateless now id gh u : stateless (UserRepository.findOrCreate schema now id gh u).
Proof.
  unfold UserRepository.findOrCreate, UserRepository.findByGithubId, UserRepository.update, UserRepository.create,
    UserRepository.found, given.
  stateless.
  - apply (stateless_gets (fun l => (fun r => rowToUser r true) <$> findRow w_github_id gh l)).
  - apply (stateless_gets (fun l => l)).
  - unfold unique. stateless.
Qed.

#[local] Hint Resolve findOrCreate_stateless : accounts.

Section login.
Context `{JsText} `{Jwt}.
Variables (fetchToken : Json -> outcome Json) (fetchUser fetchEmails : option Json -> outcome Json).

(** The login of POST /github/callback does not ask for the state that
    protects the one of GET /github/callback: with no state stored at all the
    GET callback refuses every request, while the POST callback answers (and
    stores the user) exactly as it would with any table of states. *)
Theorem post_login_skips_state now id code d st :
  JsStr.truthy st = true ->
  let d0 := {| oauth := []; users := users d |} in
  (getCallback schema fetchToken fetchUser fetchEmails now id code (Some st) None d0).1 = Ok (RedirectError "invalid_state")
  /\ (postCallback schema fetchToken fetchUser now id code d0).1 = (postCallback schema fetchToken fetchUser now id code d).1
  /\ users (postCallback schema fetchToken fetchUser now id code d0).2 = users (postCallback schema fetchToken fetchUser now id code d).2.
Proof.
  intros Hst d0. split.
  - destruct st as [|x st]; [done|]. unfold getCallback. cbn [JsStr.orNull].
    erewrite bind_ok by (apply verify_eq; apply NoDup_nil_2). done.
  - assert (stateless (postCallback schema fetchToken fetchUser now id code)) as Hs; [|by apply Hs].
    unfold postCallback. stateless.
Qed.

(** What a login stores. *)
Record usersOk (d : Db) : Prop := { uo_ids : NoDup (w_id <$> users d); uo_github : NoDup (w_github_id <$> users d) }.

Lemma findById_eq id b d :
  UserRepository.findById schema id b d = (Ok ((fun r => rowToUser r b) <$> findRow w_id id (users d)), d).
Proof. unfold UserRepository.findById. by erewrite bind_ok by (by apply query_ok). Qed.

Lemma findByGithubId_eq gh b d :
  UserRepository.findByGithubId schema gh b d
  = (Ok ((fun r => rowToUser r b) <$> findRow w_github_id gh (users d)), d).
Proof. unfold UserRepository.findByGithubId. by erewrite bind_ok by (by apply query_ok). Qed.

Lemma update_elem id now u l r :
  r ∈ updateWhere w_id id (updated now u) l <-> exists r0, r0 ∈ l /\ r = if bool_decide (w_id r0 = id) then updated now u r0 else r0.
Proof. unfold updateWhere. rewrite list_elem_of_fmap. naive_solver. Qed.

(** What is stored of a user who logs in. *)
Record stored (now : Z) (gh : string) (u : UserData) (d d' : Db) (x : IUser) : Prop := {
  st_ok : usersOk d';
  st_states : oauth d' = oauth d;
  st_row : exists r, findRow w_github_id gh (users d') = Some r /\ x = rowToUser r true
    /\ (forall t, ud_accessToken u = Some t -> t <> EmptyString -> w_access_token r = t)
    /\ w_default_api_key r = match findRow w_github_id gh (users d) with
                             | Some r0 => w_default_api_key r0 | None => JsStr.orNull (ud_defaultApiKey u) end;
  st_others : forall r, w_github_id r <> gh -> r ∈ users d' <-> r ∈ users d;
}.

Lemma login_existing now gh u d r0 :
  usersOk d -> findRow w_github_id gh (users d) = Some r0 -> ud_defaultApiKey u = None ->
  exists x d', UserRepository.update schema now (w_id r0) u d = (Ok (Some x), d') /\ stored now gh u d d' x.
Proof.
  intros [Hids Hgh] Hr0 Hkey. destruct (findRow_Some _ _ _ _ Hr0) as [Hin Hg].
  unfold UserRepository.update. erewrite bind_ok by apply findById_eq.
  rewrite (findRow_elem w_id (w_id r0) (users d) r0) by done. cbn [fmap option_fmap option_map].
  erewrite bind_ok by (by apply query_ok). erewrite bind_ok by reflexivity. rewrite findById_eq.
  cbn [users onUsers]. set (l := updateWhere w_id (w_id r0) (updated now u) (users d)).
  assert (NoDup (w_id <$> l) /\ NoDup (w_github_id <$> l)) as [Hids' Hgh'].
  { unfold l. by rewrite !updateWhere_keys. }
  assert (updated now u r0 ∈ l) as Hnew.
  { apply update_elem. exists r0. by rewrite bool_decide_eq_true_2. }
  rewrite (findRow_elem w_id (w_id r0) l (updated now u r0)) by done.
  eexists _, _. split; [reflexivity|]. split; [done|done| |].
  - exists (updated now u r0). split_and!; [by apply findRow_elem|done| |].
    + intros t Ht Hne. simpl. rewrite Ht. by destruct t.
    + simpl. rewrite Hr0. unfold coalesce. by rewrite Hkey.
  - intros r Hr. simpl. unfold l. rewrite update_elem. split.
    + intros (r1 & Hr1 & ->). case_bool_decide as Hid; [|done]. exfalso. apply Hr. simpl.
      by rewrite (NoDup_key w_id _ _ _ Hids Hr1 Hin Hid).
    + intros Hr1. exists r. split; [done|]. rewrite bool_decide_eq_false_2; [done|]. intros Hid.
      apply Hr. by rewrite (NoDup_key w_id _ _ _ Hids Hr1 Hin Hid).
Qed.

Lemma NoDup_snoc_key {A} (key : A -> string) l (r : A) :
  NoDup (key <$> l) -> (forall x, x ∈ l -> key x <> key r) -> NoDup (key <$> l ++ [r]).
Proof.
  intros Hl Hr. rewrite fmap_app. apply NoDup_app. split_and!; [done| |apply NoDup_singleton].
  intros k (x & -> & Hx)%list_elem_of_fmap Hk%list_elem_of_singleton. by apply (Hr x).
Qed.

Lemma login_new now id gh u d x d' :
  usersOk d -> findRow w_github_id gh (users d) = None ->
  UserRepository.create schema now id gh u d = (Ok (Some x), d') -> stored now gh u d d' x.
Proof.
  intros [Hids Hgh] Hnone. unfold UserRepository.create, given.
  erewrite bind_ok by (by apply query_ok).
  destruct (ud_username u) as [name|] eqn:Hname; [erewrite bind_ok by reflexivity|done].
  destruct (ud_accessToken u) as [token|] eqn:Htoken; [erewrite bind_ok by reflexivity|done].
  erewrite bind_ok by reflexivity. unfold unique. destruct (existsb _ (users d)) eqn:He; [done|].
  erewrite bind_ok by reflexivity. erewrite bind_ok by reflexivity. rewrite findById_eq. cbn [users onUsers].
  match goal with |- context [users d ++ [?row]] => set (r := row) end.
  assert (forall y, y ∈ users d -> w_id y <> id) as Hid.
  { intros y Hy Hyid. apply not_true_iff_false in He. apply He, existsb_exists. exists y.
    split; [by apply list_elem_of_In|]. by rewrite bool_decide_eq_true_2. }
  assert (NoDup (w_id <$> users d ++ [r])) as Hids' by (by apply NoDup_snoc_key).
  assert (NoDup (w_github_id <$> users d ++ [r])) as Hgh'.
  { apply NoDup_snoc_key; [done|]. by apply (proj1 (findRow_None _ _ _)). }
  assert (r ∈ users d ++ [r]) as Hr by set_solver.
  rewrite (findRow_elem w_id id _ r) by done. intros [= <- <-]. split; [done|done| |].
  - exists r. rewrite Hnone. split_and!; [by apply findRow_elem|done| |done]. intros t. rewrite Htoken. by intros [= <-].
  - intros y Hy. simpl. rewrite elem_of_app, list_elem_of_singleton. split; [|by left].
    intros [?| ->]; [done|by destruct Hy].
Qed.

(** A login: when it returns, the table holds exactly one row for the
    GitHub account, with the new access token and, for a user who was known,
    the API key as it was; every other user is untouched, and the user returned
    is the one a later look-up finds. *)
Theorem login_stores_user now id gh u d x d' :
  usersOk d -> ud_defaultApiKey u = None ->
  UserRepository.findOrCreate schema now id gh u d = (Ok x, d') -> stored now gh u d d' x.
Proof.
  intros Hd Hkey. unfold UserRepository.findOrCreate. erewrite bind_ok by apply findByGithubId_eq.
  destruct (findRow w_github_id gh (users d)) as [r0|] eqn:Hr0; cbn [fmap option_fmap option_map].
  - assert ({| ud_username := ud_username u; ud_email := ud_email u; ud_avatarUrl := ud_avatarUrl u;
               ud_accessToken := ud_accessToken u; ud_refreshToken := ud_refreshToken u;
               ud_tokenExpiry := ud_tokenExpiry u; ud_defaultApiKey := None |} = u) as -> by (destruct u; by simpl in *; subst).
    destruct (login_existing now gh u d r0 Hd Hr0 Hkey) as (y & d1 & Hup & Hst).
    change (us_id (rowToUser r0 true)) with (w_id r0). erewrite bind_ok by exact Hup. by intros [= <- <-].
  - destruct (UserRepository.create schema now id gh u d) as [[[y|]|e] d1] eqn:Hc.
    + erewrite bind_ok by exact Hc. intros [= <- <-]. by eapply login_new.
    + by erewrite bind_ok by exact Hc.
    + by erewrite bind_throw by exact Hc.
Qed.

(** ** How long a token lasts *)

Context `{JOk : !JwtOk}.

(** The access token of an answer. *)
Definition tokenOf (r : Response) : option string :=
  match r with Answer 200 b => match prop "accessToken" (prop "data" (Some b)) with Some (JStr t) => Some t | _ => None end
             | _ => None end.

(** Refresh a token at each of the given times. *)
Fixpoint renew (token : string) (times : list Z) (d : Db) : option string :=
  match times with
  | [] => Some token
  | t :: ts =>
      match (refresh schema (Some token) t d).1 with
      | Ok r => tok ← tokenOf r; renew tok ts d
      | Throw _ => None
      end
  end.

(** Each time lies less than a week after the one before it. *)
Fixpoint weekly (t : Z) (times : list Z) : Prop :=
  match times with [] => True | t' :: ts => (t <= t' < t + week)%Z /\ weekly t' ts end.

Lemma refresh_ok uid g t now d r :
  findRow w_id uid (users d) = Some r -> (t <= now < t + week)%Z ->
  refresh schema (Some (sign uid g t)) now d
  = (Ok (Answer 200 (JObj [("success", JBool true);
           ("data", JObj [("accessToken", JStr (sign uid (w_github_id r) now))])])), d).
Proof using JOk.
  intros Hr Ht. unfold refresh. destruct (sign_text uid g t) as [Hne _].
  assert (JsStr.orNull (Some (sign uid g t)) = Some (sign uid g t)) as -> by (by destruct (sign uid g t)).
  unfold try_catch, findDecoded. rewrite (verify_sign uid g t now Ht). cbn [default from_option id].
  unfold mbind, jsm_bind. rewrite findById_eq, Hr. cbn [fmap option_fmap option_map mret jsm_ret].
  unfold generateToken. change (us_id (rowToUser r false)) with (w_id r). by rewrite (proj2 (findRow_Some _ _ _ _ Hr)).
Qed.

Lemma untilSpace_whole s : " "%char ∉ String.list_ascii_of_string s -> untilSpace s = s.
Proof.
  induction s as [|c s IH]; [done|]. simpl. intros [Hc Hs]%not_elem_of_cons.
  rewrite bool_decide_eq_false_2 by (intros Heq; by apply Hc). by rewrite IH.
Qed.

(** The refresh route takes any valid token, access tokens included, and
    issues one for another week: whoever holds one token of an existing user
    can keep it alive for ever, by refreshing it once a week, and the last
    token obtained opens every protected route. Logging out has no part in
    it. *)
Theorem token_renewable_forever uid g t times d r now :
  findRow w_id uid (users d) = Some r -> weekly t times ->
  let last := fold_left (fun _ x => x) times t in
  (last <= now < last + week)%Z ->
  exists token, renew (sign uid g t) times d = Some token
    /\ (authMiddleware schema (Some ("Bearer " +:+ token)) now d).1 = Ok (Next uid (rowToUser r true)).
Proof using JOk.
  intros Hr. revert g t. induction times as [|t' ts IH]; intros g t Hw last Hnow.
  - exists (sign uid g t). split; [done|]. unfold authMiddleware, authenticated, bearer.
    rewrite JsStr.startsWith_append. change (JsStr.drop 7 ("Bearer " +:+ ?s)) with s.
    rewrite untilSpace_whole by apply sign_text. unfold try_catch, findDecoded.
    rewrite (verify_sign uid g t now Hnow). unfold mbind, jsm_bind. cbn [default from_option id].
    by rewrite findById_eq, Hr.
  - destruct Hw as [Ht Hw]. cbn [renew]. rewrite (refresh_ok uid g t t' d r Hr Ht). cbn.
    exact (IH (w_github_id r) t' Hw Hnow).
Qed.

End login.

(** ** Witnesses *)

Definition demoText := EventBridgeProofs.demoText.

(** A library whose tokens never expire. *)
Definition demoJwt : Jwt :=
  {| sign u _ _ := "j" +:+ Hex.encode u;
     verify token _ := match token with String _ h => Some (Some (Hex.decode h)) | EmptyString => None end |}.

Lemma demoJwt_ok : JwtOk (H := demoJwt).
Proof.
  split.
  - intros u g t now _. change (Some (Some (Hex.decode (Hex.encode u))) = Some (Some u)). by rewrite Hex.decode_encode.
  - intros u g t. split; [done|]. simpl. apply not_elem_of_cons. split; [discriminate|]. by apply Hex.encode_avoids.
Qed.

(** A login, and an attempt to use its state again. *)
Definition demoToken : Json -> outcome Json := fun _ => Ok (JObj [("access_token", JStr "t")]).
Definition demoGithub : option Json -> outcome Json :=
  fun _ => Ok (JObj [("id", JStr "7"); ("login", JStr "ada"); ("email", JStr "a@b")]).

Definition demoGet (now : Z) : Request := RGet now "u1" (Some (JStr "code")) (Some "xyz") None.

Lemma oauth_state_single_use_witness :
  let run := serveAll (H := demoText) (H0 := demoJwt) (fun s => s) demoToken demoGithub demoGithub in
  let log := (run [RUrl 1000 "1" "xyz"; demoGet 2000; RMe None 2500; demoGet 3000] noAccounts).1 in
  snd <$> log = [Ok (Answer 200 (JObj [("success", JBool true); ("url", JStr "xyz"); ("state", JStr "xyz")]));
                 Ok (RedirectToken (sign (Jwt := demoJwt) "u1" "7" 2000)); Ok (refuse 401 "Unauthorized"); refusedState]
  /\ length (base.filter (fun e => loggedIn "xyz" e = true) log) <= 1
  /\ (serve (H := demoText) (H0 := demoJwt) (fun s => s) demoToken demoGithub demoGithub (demoGet 3000)
       (run ([RUrl 1000 "1" "xyz"] ++ demoGet 2000 :: [RMe None 2500]) noAccounts).2).1 = refusedState.
Proof.
  pose proof (oauth_state_single_use (H := demoText) (H0 := demoJwt) (fun s => s) demoToken demoGithub demoGithub "xyz")
    as (H1 & _ & H3).
  split; [vm_compute; reflexivity|]. split.
  - exact (H1 [RUrl 1000 "1" "xyz"; demoGet 2000; RMe None 2500; demoGet 3000]).
  - apply (H3 [RUrl 1000 "1" "xyz"] (demoGet 2000) [RMe None 2500] (demoGet 3000)); [vm_compute; reflexivity..|].
    intros x Hx. apply list_elem_of_singleton in Hx as ->. reflexivity.
Defined.

Definition demoUser : UserRow :=
  {| w_id := "u1"; w_github_id := "7"; w_username := "ada"; w_email := None; w_avatar_url := None;
     w_access_token := "old"; w_refresh_token := None; w_token_expiry := None; w_default_api_key := Some "key";
     w_created_at := 0; w_updated_at := 0 |}.

Definition demoFetchToken (code : Json) : outcome Json := Ok (JObj [("access_token", JStr "gh")]).
Definition demoFetchUser (token : option Json) : outcome Json :=
  Ok (JObj [("id", JStr "7"); ("login", JStr "ada"); ("email", JStr "a@b.c")]).

(** The stored token of the user is replaced, without a state. *)
Lemma post_login_skips_state_witness :
  let d := {| oauth := []; users := [demoUser] |} in
  let post := postCallback (H := demoText) (H0 := demoJwt) schema demoFetchToken demoFetchUser 5 "u2" (Some (JStr "c")) in
  (getCallback (H := demoText) (H0 := demoJwt) schema demoFetchToken demoFetchUser demoFetchUser 5 "u2" (Some (JStr "c"))
     (Some "forged") None d).1 = Ok (RedirectError "invalid_state")
  /\ (post d).1 = (post d).1 /\ (w_access_token <$> users (post d).2) = ["gh"].
Proof.
  destruct (post_login_skips_state (H := demoText) (H0 := demoJwt) demoFetchToken demoFetchUser demoFetchUser 5 "u2"
    (Some (JStr "c")) {| oauth := []; users := [demoUser] |} "forged" ltac:(reflexivity)) as (H1 & H2 & H3).
  split; [exact H1|]. split; [exact H2|]. vm_compute. reflexivity.
Defined.

Definition demoData : UserData :=
  {| ud_username := Some "ada"; ud_email := None; ud_avatarUrl := None; ud_accessToken := Some "gh";
     ud_refreshToken := None; ud_tokenExpiry := None; ud_defaultApiKey := None |}.

Definition demoLogin := UserRepository.findOrCreate schema 5 "u2" "7" demoData {| oauth := []; users := [demoUser] |}.

Lemma login_stores_user_witness :
  stored 5 "7" demoData {| oauth := []; users := [demoUser] |} demoLogin.2 (rowToUser (updated 5 demoData demoUser) true).
Proof.
  refine (login_stores_user 5 "u2" "7" demoData {| oauth := []; users := [demoUser] |} _ demoLogin.2 _
    ltac:(reflexivity) ltac:(vm_compute; reflexivity)).
  split; apply NoDup_singleton.
Defined.

Lemma token_renewable_forever_witness :
  exists token, renew (H0 := demoJwt) (sign (Jwt := demoJwt) "u1" "7" 0) [6 * 86400000; 12 * 86400000; 18 * 86400000]%Z
                  {| oauth := []; users := [demoUser] |} = Some token
    /\ (authMiddleware (H0 := demoJwt) schema (Some ("Bearer " +:+ token)) (24 * 86400000)%Z
          {| oauth := []; users := [demoUser] |}).1 = Ok (Next "u1" (rowToUser demoUser true)).
Proof.
  exact (token_renewable_forever (H0 := demoJwt) (JOk := demoJwt_ok) "u1" "7" 0
    [6 * 86400000; 12 * 86400000; 18 * 86400000]%Z {| oauth := []; users := [demoUser] |} demoUser (24 * 86400000)%Z
    ltac:(reflexivity) ltac:(vm_compute; repeat split; discriminate || reflexivity)
    ltac:(vm_compute; split; [discriminate|reflexivity])).
Defined.

End AccountsSpec.
