(* ===== verification/Projects.v ===== *)
(** * Projects and repositories
      (src/database/repositories/ProjectRepository.ts, RepositoryRepository.ts)

    The two tables with their primary and foreign keys, and the operations of
    the two repository classes as the effects of their statements. Rows with
    equal sort keys keep their order of insertion. *)

From S2P Require Import Prelude JsNumber Json EventBridge Schema ExecutionTracker Crypto Accounts.
From stdpp Require Import sorting list options.

Module ProjectRows.
Import Json EnvService.

Record ProjectRow := {
  p_id : string;
  p_name : string;
  p_description : option string;
  p_type : string;
  p_status : string;
  p_user_id : string;
  p_api_key : option string;
  p_settings : option Json;
  p_is_active : bool;
  p_created_at : Z;
  p_updated_at : Z;
}.

Record RepoRow := {
  g_id : string;
  g_name : string;
  g_description : option string;
  g_project_id : string;
  g_github_repo_url : string;
  g_github_repo_name : string;
  g_github_branch : string;
  g_type : string;
  g_path_patterns : option (list string);
  g_execution_order : option Z;
  g_dependencies : option (list string);
  g_env_variables : option (list IEnvVariable);
  g_is_active : bool;
  g_last_synced_at : option Z;
  g_created_at : Z;
  g_updated_at : Z;
}.

Record Db := { projects : list ProjectRow; repos : list RepoRow }.

Definition onProjects (f : list ProjectRow -> list ProjectRow) (d : Db) : Db :=
  {| projects := f (projects d); repos := repos d |}.
Definition onRepos (f : list RepoRow -> list RepoRow) (d : Db) : Db :=
  {| projects := projects d; repos := f (repos d) |}.

(** [COALESCE($n, column)] *)
Definition coalesce {A} (v old : option A) : option A := match v with Some x => Some x | None => old end.

(** [row!] *)
Definition found {A} (o : option A) : JsM Db A :=
  match o with Some a => mret a | None => Js.throw "TypeError: Cannot read properties of null" end.

(** A primary key refuses a second row with the same id. *)
Definition primaryKey {S} (fresh : bool) : JsM S unit :=
  if fresh then mret tt else Js.throw "duplicate key value violates unique constraint".

(** [ORDER BY execution_order, created_at]: ascending, nulls last. *)
Definition nullsLast (a b : option Z) : comparison :=
  match a, b with
  | Some x, Some y => Z.compare x y
  | Some _, None => Lt
  | None, Some _ => Gt
  | None, None => Eq
  end.

Definition byOrder (a b : RepoRow) : bool :=
  match nullsLast (g_execution_order a) (g_execution_order b) with
  | Lt => true
  | Gt => false
  | Eq => (g_created_at a <=? g_created_at b)%Z
  end.

(** [ORDER BY updated_at DESC] *)
Definition byRecency (a b : ProjectRow) : bool := (p_updated_at b <=? p_updated_at a)%Z.

Definition sortBy {A} (le : A -> A -> bool) : list A -> list A :=
  @merge_sort A (fun a b => le a b = true) (fun a b => bool_eq_dec (le a b) true).

End ProjectRows.

(** ** Projects *)

Module ProjectRepository.
Import Json Js Schema TrainingRows ProjectRows.

Record IProject := {
  ip_id : string;
  ip_name : string;
  ip_description : option string;
  ip_type : string;
  ip_status : string;
  ip_userId : string;
  ip_apiKey : option string;
  ip_settings : option Json;
  ip_isActive : bool;
  ip_createdAt : Z;
  ip_updatedAt : Z;
}.

Definition rowToProject (r : ProjectRow) : IProject :=
  {| ip_id := p_id r; ip_name := p_name r; ip_description := JsStr.orNull (p_description r); ip_type := p_type r;
     ip_status := p_status r; ip_userId := p_user_id r; ip_apiKey := JsStr.orNull (p_api_key r);
     ip_settings := v ← p_settings r; (if truthy v then Some v else None); ip_isActive := p_is_active r;
     ip_createdAt := p_created_at r; ip_updatedAt := p_updated_at r |}.

(** [delete project.apiKey] *)
Definition withoutKey (p : IProject) : IProject :=
  {| ip_id := ip_id p; ip_name := ip_name p; ip_description := ip_description p; ip_type := ip_type p;
     ip_status := ip_status p; ip_userId := ip_userId p; ip_apiKey := None; ip_settings := ip_settings p;
     ip_isActive := ip_isActive p; ip_createdAt := ip_createdAt p; ip_updatedAt := ip_updatedAt p |}.

(** The data of [update]; absent is undefined. *)
Record ProjectData := {
  pd_name : option string;
  pd_description : option string;
  pd_type : option string;
  pd_status : option string;
  pd_apiKey : option string;
  pd_settings : option Json;
  pd_isActive : option bool;
}.

Definition noData : ProjectData :=
  {| pd_name := None; pd_description := None; pd_type := None; pd_status := None; pd_apiKey := None;
     pd_settings := None; pd_isActive := None |}.

Section sql.
Variable sch : JsMap.t (list Column).
Variable knownUser : string -> bool.
Abbreviation M := (JsM Db).

Definition findById (id : string) (includeApiKey : bool) : M (option IProject) :=
  query sch (Read "projects" ["id"]);;
  gets (fun d => (fun r => let p := rowToProject r in if includeApiKey then p else withoutKey p)
                   <$> findRow p_id id (projects d)).

Definition findByUserId (userId : string) : M (list IProject) :=
  query sch (Read "projects" ["user_id"; "is_active"; "updated_at"]);;
  gets (fun d => rowToProject
    <$> sortBy byRecency (base.filter (fun r => p_user_id r = userId /\ p_is_active r = true) (projects d))).

Definition create (now : Z) (id name : string) (description type : option string) (userId : string)
    (apiKey : option string) (settings : option Json) : M IProject :=
  query sch (Insert "projects" ["id"; "name"; "description"; "type"; "status"; "user_id"; "api_key"; "settings";
                                "is_active"]);;
  foreignKey (knownUser userId);;
  l ← gets projects;
  primaryKey (negb (existsb (fun r => bool_decide (p_id r = id)) l));;
  modify (onProjects (fun l => l ++ [
    {| p_id := id; p_name := name; p_description := JsStr.orNull description;
       p_type := default "web-app" (JsStr.orNull type); p_status := "planning"; p_user_id := userId;
       p_api_key := JsStr.orNull apiKey; p_settings := Some (default (JObj []) settings); p_is_active := true;
       p_created_at := now; p_updated_at := now |}]));;
  r ← findById id false;
  found r.

Definition updated (now : Z) (u : ProjectData) (r : ProjectRow) : ProjectRow :=
  {| p_id := p_id r; p_name := default (p_name r) (JsStr.orNull (pd_name u));
     p_description := coalesce (JsStr.orNull (pd_description u)) (p_description r);
     p_type := default (p_type r) (JsStr.orNull (pd_type u));
     p_status := default (p_status r) (JsStr.orNull (pd_status u)); p_user_id := p_user_id r;
     p_api_key := coalesce (JsStr.orNull (pd_apiKey u)) (p_api_key r);
     p_settings := coalesce (pd_settings u) (p_settings r);
     p_is_active := default (p_is_active r) (pd_isActive u); p_created_at := p_created_at r; p_updated_at := now |}.

Definition update (now : Z) (id : string) (u : ProjectData) : M (option IProject) :=
  existing ← findById id false;
  match existing with
  | None => mret None
  | Some _ =>
      query sch (Update "projects" ["name"; "description"; "type"; "status"; "api_key"; "settings"; "is_active";
                                    "updated_at"] ["id"]);;
      modify (onProjects (updateWhere p_id id (updated now u)));;
      findById id false
  end.

(** Soft delete. *)
Definition delete (now : Z) (id : string) : M bool :=
  query sch (Update "projects" ["is_active"; "updated_at"] ["id"]);;
  l ← gets projects;
  modify (onProjects (updateWhere p_id id (updated now
    {| pd_name := None; pd_description := None; pd_type := None; pd_status := None; pd_apiKey := None;
       pd_settings := None; pd_isActive := Some false |})));;
  mret (existsb (fun r => bool_decide (p_id r = id)) l).

Definition hardDelete (id : string) : M bool :=
  query sch (Delete "projects" ["id"]);;
  d ← gets (fun d => d);
  modify (fun d => {| projects := base.filter (fun r => p_id r <> id) (projects d);
                      repos := base.filter (fun r => g_project_id r <> id) (repos d) |});;
  mret (existsb (fun r => bool_decide (p_id r = id)) (projects d)).

Definition getSettings (id : string) : M (option Json) := p ← findById id false; mret (x ← p; ip_settings x).

(** [{ ...a, ...b }] *)
Definition merge (a : option Json) (b : Json) : Json :=
  JObj (fold_left (fun m e => JsMap.set e.1 e.2 m) (EventBridge.spread b) (default [] (EventBridge.spread <$> a))).

Definition updateSettings (now : Z) (id : string) (settings : Json) : M (option IProject) :=
  p ← findById id false;
  match p with
  | None => mret None
  | Some x => update now id {| pd_name := None; pd_description := None; pd_type := None; pd_status := None;
                               pd_apiKey := None; pd_settings := Some (merge (ip_settings x) settings);
                               pd_isActive := None |}
  end.

End sql.
End ProjectRepository.

(** ** Repositories *)

Module RepositoryRepository.
Import Json Js Schema TrainingRows ProjectRows EnvService CryptoService.

Record IRepository := {
  ir_id : string;
  ir_name : string;
  ir_description : option string;
  ir_projectId : string;
  ir_githubRepoUrl : string;
  ir_githubRepoName : string;
  ir_githubBranch : string;
  ir_type : string;
  ir_pathPatterns : list string;
  ir_executionOrder : option Z;
  ir_dependencies : option (list string);
  ir_envVariables : list IEnvVariable;
  ir_isActive : bool;
  ir_lastSyncedAt : option Z;
  ir_createdAt : Z;
  ir_updatedAt : Z;
}.

Definition rowToRepository (r : RepoRow) : IRepository :=
  {| ir_id := g_id r; ir_name := g_name r; ir_description := JsStr.orNull (g_description r);
     ir_projectId := g_project_id r; ir_githubRepoUrl := g_github_repo_url r;
     ir_githubRepoName := g_github_repo_name r; ir_githubBranch := g_github_branch r; ir_type := g_type r;
     ir_pathPatterns := default [] (g_path_patterns r); ir_executionOrder := orNullZ (g_execution_order r);
     ir_dependencies := g_dependencies r; ir_envVariables := default [] (g_env_variables r);
     ir_isActive := g_is_active r; ir_lastSyncedAt := g_last_synced_at r; ir_createdAt := g_created_at r;
     ir_updatedAt := g_updated_at r |}.

(** Patterns and order by type; an unknown type counts as a backend. *)
Definition getRepositoryConfig (type repoName : string) : list string * Z :=
  let own := repoName +:+ "/**/*" in
  if bool_decide (type = "frontend") then
    ([own; "src/components/**/*"; "src/views/**/*"; "src/pages/**/*"; "src/hooks/**/*"; "src/contexts/**/*";
      "src/services/**/*"; "src/styles/**/*"; "public/**/*"], 2%Z)
  else if bool_decide (type = "mobile") then ([own; "src/**/*"; "ios/**/*"; "android/**/*"], 3%Z)
  else if bool_decide (type = "shared") then (["shared/**/*"; "lib/**/*"; "types/**/*"; "common/**/*"], 0%Z)
  else
    (["backend/**/*"; "src/models/**/*"; "src/routes/**/*"; "src/services/**/*"; "src/middleware/**/*";
      "src/utils/**/*"; "src/app.js"; "src/app.ts"; "server.js"; "server.ts"], 1%Z).

Record RepoInput := {
  rn_name : string;
  rn_description : option string;
  rn_projectId : string;
  rn_githubRepoUrl : string;
  rn_githubRepoName : string;
  rn_githubBranch : option string;
  rn_type : string;
  rn_pathPatterns : option (list string);
  rn_executionOrder : option Z;
  rn_dependencies : option (list string);
  rn_envVariables : option (list IEnvVariable);
}.

(** The data of [update]; absent is undefined. *)
Record RepoData := {
  rd_name : option string;
  rd_description : option string;
  rd_githubRepoUrl : option string;
  rd_githubRepoName : option string;
  rd_githubBranch : option string;
  rd_type : option string;
  rd_pathPatterns : option (list string);
  rd_executionOrder : option Z;
  rd_dependencies : option (list string);
  rd_envVariables : option (list IEnvVariable);
  rd_isActive : option bool;
  rd_lastSyncedAt : option Z;
}.

Definition onlyEnv (vs : list IEnvVariable) : RepoData :=
  {| rd_name := None; rd_description := None; rd_githubRepoUrl := None; rd_githubRepoName := None;
     rd_githubBranch := None; rd_type := None; rd_pathPatterns := None; rd_executionOrder := None;
     rd_dependencies := None; rd_envVariables := Some vs; rd_isActive := None; rd_lastSyncedAt := None |}.

Section sql.
Variable sch : JsMap.t (list Column).
Abbreviation M := (JsM Db).

Definition findById (id : string) : M (option IRepository) :=
  query sch (Read "repositories" ["id"]);; gets (fun d => rowToRepository <$> findRow g_id id (repos d)).

Definition findByProjectId (projectId : string) : M (list IRepository) :=
  query sch (Read "repositories" ["project_id"; "is_active"; "execution_order"; "created_at"]);;
  gets (fun d => rowToRepository
    <$> sortBy byOrder (base.filter (fun r => g_project_id r = projectId /\ g_is_active r = true) (repos d))).

Definition findByGithubRepoName (projectId name : string) : M (option IRepository) :=
  query sch (Read "repositories" ["project_id"; "github_repo_name"]);;
  gets (fun d => rowToRepository <$> hd_error
    (base.filter (fun r => g_project_id r = projectId /\ g_github_repo_name r = name) (repos d))).

Definition newRow (now : Z) (id : string) (n : RepoInput) : RepoRow :=
  let cfg := getRepositoryConfig (rn_type n) (rn_name n) in
  {| g_id := id; g_name := rn_name n; g_description := JsStr.orNull (rn_description n);
     g_project_id := rn_projectId n; g_github_repo_url := rn_githubRepoUrl n;
     g_github_repo_name := rn_githubRepoName n;
     g_github_branch := default "main" (JsStr.orNull (rn_githubBranch n)); g_type := rn_type n;
     g_path_patterns := Some (default cfg.1 (rn_pathPatterns n));
     g_execution_order := Some (default cfg.2 (rn_executionOrder n));
     g_dependencies := Some (default [] (rn_dependencies n));
     g_env_variables := Some (default [] (rn_envVariables n)); g_is_active := true; g_last_synced_at := None;
     g_created_at := now; g_updated_at := now |}.

Definition create (now : Z) (id : string) (n : RepoInput) : M IRepository :=
  query sch (Insert "repositories" ["id"; "name"; "description"; "project_id"; "github_repo_url"; "github_repo_name";
    "github_branch"; "type"; "path_patterns"; "execution_order"; "dependencies"; "env_variables"; "is_active"]);;
  d ← gets (fun d => d);
  foreignKey (existsb (fun r => bool_decide (p_id r = rn_projectId n)) (projects d));;
  primaryKey (negb (existsb (fun r => bool_decide (g_id r = id)) (repos d)));;
  modify (onRepos (fun l => l ++ [newRow now id n]));;
  r ← findById id;
  found r.

Definition updated (now : Z) (u : RepoData) (r : RepoRow) : RepoRow :=
  {| g_id := g_id r; g_name := default (g_name r) (JsStr.orNull (rd_name u));
     g_description := coalesce (JsStr.orNull (rd_description u)) (g_description r); g_project_id := g_project_id r;
     g_github_repo_url := default (g_github_repo_url r) (JsStr.orNull (rd_githubRepoUrl u));
     g_github_repo_name := default (g_github_repo_name r) (JsStr.orNull (rd_githubRepoName u));
     g_github_branch := default (g_github_branch r) (JsStr.orNull (rd_githubBranch u));
     g_type := default (g_type r) (JsStr.orNull (rd_type u));
     g_path_patterns := coalesce (rd_pathPatterns u) (g_path_patterns r);
     g_execution_order := coalesce (rd_executionOrder u) (g_execution_order r);
     g_dependencies := coalesce (rd_dependencies u) (g_dependencies r);
     g_env_variables := coalesce (rd_envVariables u) (g_env_variables r);
     g_is_active := default (g_is_active r) (rd_isActive u);
     g_last_synced_at := coalesce (rd_lastSyncedAt u) (g_last_synced_at r); g_created_at := g_created_at r;
     g_updated_at := now |}.

Definition update (now : Z) (id : string) (u : RepoData) : M (option IRepository) :=
  existing ← findById id;
  match existing with
  | None => mret None
  | Some _ =>
      query sch (Update "repositories" ["name"; "description"; "github_repo_url"; "github_repo_name"; "github_branch";
        "type"; "path_patterns"; "execution_order"; "dependencies"; "env_variables"; "is_active"; "last_synced_at";
        "updated_at"] ["id"]);;
      modify (onRepos (updateWhere g_id id (updated now u)));;
      findById id
  end.

Definition changed (now : Z) (active : option bool) (synced : option Z) (r : RepoRow) : RepoRow :=
  updated now {| rd_name := None; rd_description := None; rd_githubRepoUrl := None; rd_githubRepoName := None;
    rd_githubBranch := None; rd_type := None; rd_pathPatterns := None; rd_executionOrder := None;
    rd_dependencies := None; rd_envVariables := None; rd_isActive := active; rd_lastSyncedAt := synced |} r.

(** Soft delete. *)
Definition delete (now : Z) (id : string) : M bool :=
  query sch (Update "repositories" ["is_active"; "updated_at"] ["id"]);;
  l ← gets repos;
  modify (onRepos (updateWhere g_id id (changed now (Some false) None)));;
  mret (existsb (fun r => bool_decide (g_id r = id)) l).

Definition hardDelete (id : string) : M bool :=
  query sch (Schema.Delete "repositories" ["id"]);;
  l ← gets repos;
  modify (onRepos (base.filter (fun r => g_id r <> id)));;
  mret (existsb (fun r => bool_decide (g_id r = id)) l).

Definition updateLastSynced (now : Z) (id : string) : M unit :=
  query sch (Update "repositories" ["last_synced_at"; "updated_at"] ["id"]);;
  modify (onRepos (updateWhere g_id id (changed now None (Some now)))).

Definition countByProject (projectId : string) : M nat :=
  query sch (Read "repositories" ["project_id"; "is_active"]);;
  gets (fun d => length (base.filter (fun r => g_project_id r = projectId /\ g_is_active r = true) (repos d))).

Definition findByIds (ids : list string) : M (list IRepository) :=
  match ids with
  | [] => mret []
  | _ =>
      query sch (Read "repositories" ["id"; "is_active"]);;
      gets (fun d => rowToRepository <$> base.filter (fun r => g_id r ∈ ids /\ g_is_active r = true) (repos d))
  end.

Section env.
Context `{Aead}.
Variables (fromBase64 : string -> string) (devKey : string) (env : Env).

Fixpoint decryptAll (vs : list IEnvVariable) : outcome (list IEnvVariable) :=
  match vs with
  | [] => Ok []
  | v :: vs' =>
      match (match v_isSecret v, JsStr.orNull (v_value v) with
             | true, Some x => match decrypt fromBase64 devKey env x with Ok p => Ok (withValue v (Some p)) | Throw e => Throw e end
             | _, _ => Ok v
             end) with
      | Ok v' => match decryptAll vs' with Ok l => Ok (v' :: l) | Throw e => Throw e end
      | Throw e => Throw e
      end
  end.

Definition lift {A} (o : outcome A) : M A := fun d => (o, d).

Definition getDecryptedEnvVariables (id : string) : M (list IEnvVariable) :=
  r ← findById id;
  match r with
  | None => mret []
  | Some x => lift (decryptAll (ir_envVariables x))
  end.

End env.
End sql.
End RepositoryRepository.
