(* ===== verification/LlmConfig.v ===== *)
(** * The language models of a project
      (src/config/llmProviders.ts; validateLLMConfig, getProjectLLMConfig and
      getFullProjectLLMConfig of src/api/routes/projects.ts; the provider
      set-up of OrchestratorV2.ts)

    The table of providers, the choice of a configuration per phase and its
    validation. Stored configurations are the JSON values of the settings
    column, which other routes can write, so every access that throws on a
    value of another shape is kept. *)

From S2P Require Import Prelude JsNumber Json EventBridge.
From stdpp Require Import list options.

Module LlmConfig.
Import Json EventBridge.

(** ** The table *)

Record LLMModel := {
  lm_id : string;
  lm_name : string;
  lm_contextWindow : Z;
  lm_description : string;
  lm_recommended : bool;
}.

Record LLMProvider := {
  lp_name : string;
  lp_description : string;
  lp_requiresApiKey : bool;
  lp_apiKeyPrefix : option string;
  lp_apiKeyPlaceholder : option string;
  lp_models : list LLMModel;
  lp_defaultModel : string;
}.

Definition model (id name : string) (window : Z) (description : string) (recommended : bool) : LLMModel :=
  {| lm_id := id; lm_name := name; lm_contextWindow := window; lm_description := description;
     lm_recommended := recommended |}.

Definition local : LLMProvider :=
  {| lp_name := "Local (Gratuito)";
     lp_description := "Modelos open source ejecutados en DGX. Sin coste adicional.";
     lp_requiresApiKey := false; lp_apiKeyPrefix := None; lp_apiKeyPlaceholder := None;
     lp_models :=
       [model "kimi-dev-72b" "Kimi-Dev 72B" 131072 "Optimizado para coding agentic. SWE-bench 60.4%" true;
        model "glm-4.7" "GLM 4.7" 131072 "Excelente para análisis de código. SWE-bench 73.8%" false;
        model "deepseek-r1" "DeepSeek R1" 65536 "Modelo de razonamiento con chain-of-thought" false;
        model "llama-3.3-70b" "Llama 3.3 70B" 131072 "Meta's latest instruction-tuned model" false];
     lp_defaultModel := "kimi-dev-72b" |}.

Definition anthropic : LLMProvider :=
  {| lp_name := "Claude (Anthropic)"; lp_description := "Modelos Claude de Anthropic. Requiere API key.";
     lp_requiresApiKey := true; lp_apiKeyPrefix := Some "sk-ant-"; lp_apiKeyPlaceholder := Some "sk-ant-api03-...";
     lp_models :=
       [model "claude-opus-4-5-20251101" "Claude Opus 4.5" 200000 "El más potente. Ideal para tareas complejas." true;
        model "claude-sonnet-4-5-20250929" "Claude Sonnet 4.5" 200000 "Balance entre velocidad y capacidad." false;
        model "claude-haiku-4-5-20251001" "Claude Haiku 4.5" 200000 "Más rápido y económico." false];
     lp_defaultModel := "claude-sonnet-4-5-20250929" |}.

Definition openai : LLMProvider :=
  {| lp_name := "GPT (OpenAI)"; lp_description := "Modelos GPT de OpenAI. Requiere API key.";
     lp_requiresApiKey := true; lp_apiKeyPrefix := Some "sk-"; lp_apiKeyPlaceholder := Some "sk-proj-...";
     lp_models :=
       [model "gpt-4o" "GPT-4o" 128000 "Multimodal, rápido y capaz." true;
        model "gpt-4-turbo" "GPT-4 Turbo" 128000 "Versión optimizada de GPT-4." false;
        model "o1" "o1 (Reasoning)" 128000 "Especializado en razonamiento complejo." false;
        model "o1-mini" "o1 Mini" 128000 "Razonamiento rápido y económico." false];
     lp_defaultModel := "gpt-4o" |}.

Definition google : LLMProvider :=
  {| lp_name := "Gemini (Google)"; lp_description := "Modelos Gemini de Google. Requiere API key.";
     lp_requiresApiKey := true; lp_apiKeyPrefix := Some "AIza"; lp_apiKeyPlaceholder := Some "AIza...";
     lp_models :=
       [model "gemini-2.0-flash" "Gemini 2.0 Flash" 1000000 "Muy rápido con contexto masivo." true;
        model "gemini-1.5-pro" "Gemini 1.5 Pro" 2000000 "2M de contexto. Ideal para proyectos grandes." false;
        model "gemini-1.5-flash" "Gemini 1.5 Flash" 1000000 "Balance entre velocidad y capacidad." false];
     lp_defaultModel := "gemini-2.0-flash" |}.

Definition LLM_PROVIDERS : JsMap.t LLMProvider :=
  [("local", local); ("anthropic", anthropic); ("openai", openai); ("google", google)].

(** Names an object literal inherits: indexing the table with one of them
    gives a truthy value without models. *)
Definition inherited : list string :=
  ["constructor"; "__defineGetter__"; "__defineSetter__"; "hasOwnProperty"; "__lookupGetter__"; "__lookupSetter__";
   "isPrototypeOf"; "propertyIsEnumerable"; "toString"; "valueOf"; "__proto__"; "toLocaleString"].

Definition findModel (p : LLMProvider) (id : string) : option LLMModel :=
  hd_error (base.filter (fun m => lm_id m = id) (lp_models p)).

Definition getModelInfo (provider id : string) : option LLMModel :=
  p ← JsMap.get provider LLM_PROVIDERS; findModel p id.

Inductive PhaseType := analysis | developer | merge | security.

Definition phaseKey (p : PhaseType) : string :=
  match p with analysis => "analysis" | developer => "developer" | merge => "merge" | security => "security" end.

(** ** Configurations *)

(** [v.name]; null and undefined have no properties. *)
Definition access (name : string) (v : option Json) : outcome (option Json) :=
  match v with
  | None | Some JNull => Throw ("TypeError: Cannot read properties of undefined (reading '" +:+ name +:+ "')")
  | Some x => Ok (field name x)
  end.

(** [name in v] *)
Definition hasIn (name : string) (v : Json) : outcome bool :=
  match v with
  | JObj m => Ok (JsMap.has name m)
  | JArr _ => Ok false
  | _ => Throw ("TypeError: Cannot use 'in' operator to search for '" +:+ name +:+ "'")
  end.

(** [a === b]; objects read from a row are never the same object. *)
Definition strictEq (a b : option Json) : bool :=
  match a, b with
  | None, None | Some JNull, Some JNull => true
  | Some (JBool x), Some (JBool y) => Bool.eqb x y
  | Some (JNum x), Some (JNum y) => JsNum.eqb x y
  | Some (JStr x), Some (JStr y) => bool_decide (x = y)
  | _, _ => false
  end.

(** [{ ...m, k: v }] *)
Definition setKey (k : string) (v : Json) (m : list (string * Json)) : list (string * Json) :=
  if JsMap.has k m then (fun e => if decide (e.1 = k) then (k, v) else e) <$> m else m ++ [(k, v)].

(** The same with a value that may be undefined, which hides an older one. *)
Definition setOptKey (k : string) (v : option Json) (m : list (string * Json)) : list (string * Json) :=
  match v with Some x => setKey k x m | None => JsMap.delete k m end.

Definition getDefaultLLMConfig : Json :=
  JObj [("default", JObj [("provider", JStr "local"); ("model", JStr "kimi-dev-72b")])].

Definition getPhaseConfig (config : Json) (phase : PhaseType) : outcome (option Json) :=
  let pc := prop (phaseKey phase) (prop "phases" (Some config)) in
  match pc with
  | Some c =>
      if truthy c then
        if isTrue (field "apiKey" c) then Ok (Some c)
        else
          match access "provider" (field "default" config) with
          | Throw e => Throw e
          | Ok p =>
              if strictEq (field "provider" c) p
              then Ok (Some (JObj (setOptKey "apiKey" (prop "apiKey" (field "default" config)) (spread c))))
              else Ok (Some c)
          end
      else Ok (field "default" config)
  | None => Ok (field "default" config)
  end.

Definition migrateLegacyConfig (legacy : Json) : Json :=
  JObj [("default", obj [("provider", field "provider" legacy); ("model", field "model" legacy);
                         ("apiKey", field "apiKey" legacy)])].

Definition hasPhaseOverrides (config : Json) : bool :=
  match field "phases" config with
  | Some (JStr s) => JsStr.truthy s
  | Some v => truthy v && negb (bool_decide (spread v = []))
  | None => false
  end.

Definition validateApiKey (p : LLMProvider) (apiKey : string) : bool :=
  if negb (lp_requiresApiKey p) then true
  else if JsStr.length apiKey <? 10 then false
  else match lp_apiKeyPrefix p with Some pre => JsStr.startsWith pre apiKey | None => true end.

Definition toOpenCodeProvider (provider : option Json) : string :=
  if isText "anthropic" provider then "anthropic"
  else if isText "openai" provider then "openai"
  else if isText "google" provider then "google"
  else "dgx-spark".

(** [project.settings?.llm], with the old format translated. *)
Definition storedConfig (settings : option Json) : outcome (option Json) :=
  match prop "llm" settings with
  | Some c =>
      if truthy c then
        match hasIn "provider" c with
        | Throw e => Throw e
        | Ok false => Ok (Some c)
        | Ok true =>
            match hasIn "default" c with
            | Throw e => Throw e
            | Ok d => Ok (Some (if d then c else migrateLegacyConfig c))
            end
        end
      else Ok None
  | None => Ok None
  end.

(** ** Validation *)

(** A configuration of a request: the declared type. *)
Record LlmInput := { li_provider : option string; li_model : option string; li_apiKey : option string }.

Fixpoint joinIds (l : list LLMModel) : string :=
  match l with
  | [] => EmptyString
  | [m] => lm_id m
  | m :: l' => lm_id m +:+ ", " +:+ joinIds l'
  end.

Inductive Validation := Valid (p : LLMProvider) (m : LLMModel) | Invalid (error : string).

Definition validateLLMConfig (c : LlmInput) (existingApiKey : option Json) : outcome Validation :=
  match JsStr.orNull (li_provider c) with
  | None => Ok (Invalid "Invalid provider. Valid options: local, anthropic, openai, google")
  | Some provider =>
      match JsMap.get provider LLM_PROVIDERS with
      | None =>
          if bool_decide (provider ∈ inherited)
          then Throw "TypeError: Cannot read properties of undefined (reading 'find')"
          else Ok (Invalid "Invalid provider. Valid options: local, anthropic, openai, google")
      | Some p =>
          match li_model c ≫= findModel p with
          | None => Ok (Invalid ("Invalid model for " +:+ provider +:+ ". Valid options: " +:+ joinIds (lp_models p)))
          | Some m =>
              match JsStr.orNull (li_apiKey c) with
              | None =>
                  if lp_requiresApiKey p && negb (isTrue existingApiKey)
                  then Ok (Invalid ("API key required for " +:+ lp_name p))
                  else Ok (Valid p m)
              | Some k =>
                  if validateApiKey p k then Ok (Valid p m)
                  else Ok (Invalid ("Invalid API key format for " +:+ lp_name p +:+ ". Expected prefix: "
                                    +:+ default "undefined" (lp_apiKeyPrefix p)))
              end
          end
      end
  end.

(** ** What a run uses *)

(** [settings] is [None] when the project does not exist, else its column. *)
Definition getFullProjectLLMConfig (project : option (option Json)) : outcome Json :=
  match project with
  | None => Ok getDefaultLLMConfig
  | Some settings =>
      match storedConfig settings with Ok c => Ok (default getDefaultLLMConfig c) | Throw e => Throw e end
  end.

Record Choice := { ch_providerID : string; ch_modelID : option Json; ch_apiKey : option Json }.

Definition choiceOf (config : option Json) : outcome Choice :=
  match access "provider" config with
  | Throw e => Throw e
  | Ok p =>
      Ok {| ch_providerID := toOpenCodeProvider p; ch_modelID := prop "model" config;
            ch_apiKey := k ← prop "apiKey" config; if truthy k then Some k else None |}
  end.

Definition getProjectLLMConfig (project : option (option Json)) (phase : option PhaseType) : outcome Choice :=
  match project with
  | None => Ok {| ch_providerID := "dgx-spark"; ch_modelID := Some (JStr "kimi-dev-72b"); ch_apiKey := None |}
  | Some _ =>
      match getFullProjectLLMConfig project with
      | Throw e => Throw e
      | Ok c =>
          match (match phase with Some p => getPhaseConfig c p | None => Ok (field "default" c) end) with
          | Throw e => Throw e
          | Ok config => choiceOf config
          end
      end
  end.

(** The configurations whose keys the orchestrator hands to the client; those
    of the phases only when they are truthy. *)
Definition uniqueConfigs (c : Json) : list (option Json) :=
  field "default" c ::
  base.filter (fun x => isTrue x = true) ((fun p => prop (phaseKey p) (prop "phases" (Some c))) <$> [analysis; developer; security]).

(** One key per provider, the first one: the calls of [configureProjectAuth]. *)
Fixpoint authCalls (done_ : list string) (cs : list (option Json)) : outcome (list (string * Json)) :=
  match cs with
  | [] => Ok []
  | c :: cs' =>
      match access "apiKey" c with
      | Throw e => Throw e
      | Ok k =>
          match k with
          | Some key =>
              let provider := toOpenCodeProvider (prop "provider" c) in
              if truthy key && negb (bool_decide (provider ∈ done_)) then
                match authCalls (done_ ++ [provider]) cs' with Ok l => Ok ((provider, key) :: l) | Throw e => Throw e end
              else authCalls done_ cs'
          | None => authCalls done_ cs'
          end
      end
  end.

(** The provider set-up at the start of a run, before its [try]; a refused
    key stops it. *)
Definition prepareProviders (configureAuth : string -> Json -> outcome unit) (projectId : option string)
    (project : option (option Json)) : outcome unit :=
  let full := match JsStr.orNull projectId with
              | Some _ => getFullProjectLLMConfig project
              | None => Ok getDefaultLLMConfig
              end in
  match full with
  | Throw e => Throw e
  | Ok c =>
      let phase p := match JsStr.orNull projectId with
                     | Some _ => match getProjectLLMConfig project (Some p) with Ok _ => Ok tt | Throw e => Throw e end
                     | None => Ok tt
                     end in
      match phase analysis, phase developer, phase security with
      | Ok _, Ok _, Ok _ =>
          match access "provider" (field "default" c) with
          | Throw e => Throw e
          | Ok _ =>
              match authCalls [] (uniqueConfigs c) with
              | Throw e => Throw e
              | Ok calls =>
                  fold_left (fun r call => match r with Ok _ => configureAuth call.1 call.2 | Throw e => Throw e end)
                    calls (Ok tt)
              end
          end
      | Throw e, _, _ | _, Throw e, _ | _, _, Throw e => Throw e
      end
  end.

End LlmConfig.
