(* ===== verification/RepositoryRoutes.v ===== *)
(** * The repository routes (src/api/routes/repositories.ts)

    Every handler of the router behind the authentication middleware, so each
    gets the id of a user. Requests are served one at a time; bodies have the
    declared types; dates are sent as numbers. Listing the repositories of a
    GitHub account ([GET /github]) only relays an answer and is left out. *)

From S2P Require Import Prelude JsNumber Json EventBridge Schema Crypto Accounts Projects.
From stdpp Require Import list pretty options.

Module RepositoryRoutes.
Import Json Js Schema ProjectRows EventBridge EnvService.
Import RepositoryRepository.

Record Reply := { status : Z; body : Json }.

Definition refuse (code : Z) (error : string) : Reply :=
  {| status := code; body := JObj [("success", JBool false); ("error", JStr error)] |}.

Definition notFound (what : string) : Reply := refuse 404 (what +:+ " not found").
Definition denied : Reply := refuse 403 "Access denied".

Definition succeed (l : list (string * option Json)) : Reply :=
  {| status := 200; body := obj (("success", Some (JBool true)) :: l) |}.

(** [res.status(201).json(...)] *)
Definition created (l : list (string * option Json)) : Reply :=
  {| status := 201; body := obj (("success", Some (JBool true)) :: l) |}.

Definition num (z : Z) : Json := JNum (JsNum.ofZ z).
(** [l.length] *)
Definition count {A} (l : list A) : Json := num (Z.of_nat (length l)).
Definition texts (l : list string) : Json := JArr (JStr <$> l).

Definition envJson (v : IEnvVariable) : Json :=
  obj [("key", str (v_key v)); ("value", JStr <$> v_value v); ("isSecret", Some (JBool (v_isSecret v)));
       ("description", JStr <$> v_description v)].

(** The fields every answer about a repository starts with. *)
Definition repoHead (r : IRepository) : list (string * option Json) :=
  [("_id", str (ir_id r)); ("name", str (ir_name r)); ("description", JStr <$> ir_description r)].

Definition repoGithub (r : IRepository) : list (string * option Json) :=
  [("githubRepoUrl", str (ir_githubRepoUrl r)); ("githubRepoName", str (ir_githubRepoName r));
   ("githubBranch", str (ir_githubBranch r)); ("type", str (ir_type r))].

Definition repoPlan (r : IRepository) : list (string * option Json) :=
  [("pathPatterns", Some (texts (ir_pathPatterns r))); ("executionOrder", num <$> ir_executionOrder r)].

Definition repoTimes (r : IRepository) : list (string * option Json) :=
  [("createdAt", Some (num (ir_createdAt r))); ("updatedAt", Some (num (ir_updatedAt r)))].

Definition listItem (r : IRepository) : Json :=
  obj (repoHead r ++ repoGithub r ++ repoPlan r
       ++ [("dependencies", texts <$> ir_dependencies r); ("isActive", Some (JBool (ir_isActive r)));
           ("lastSyncedAt", num <$> ir_lastSyncedAt r)] ++ repoTimes r).

Section routes.
Context `{CryptoService.Aead}.
Variable sch : JsMap.t (list Column).
Variables (fromBase64 : string -> string) (devKey : string) (env : CryptoService.Env).
(** Whether GitHub grants access to a repository with a token. *)
Variable fetchRepo : string -> string -> outcome bool.
Abbreviation M := (JsM Db).

(** The guard of the project routes: the project exists and is the user's. *)
Definition withProject (user id : string) (includeApiKey : bool) (failed : string)
    (k : ProjectRepository.IProject -> M Reply) : M Reply :=
  try_catch
    (p ← ProjectRepository.findById sch id includeApiKey;
     match p with
     | Some x => if decide (ProjectRepository.ip_userId x = user) then k x else mret (notFound "Project")
     | None => mret (notFound "Project")
     end)
    (fun _ => mret (refuse 500 failed)).

(** The guard of the repository routes: the repository exists and its project
    is the user's. *)
Definition withRepo (user id : string) (other : Reply) (failed : string) (k : IRepository -> M Reply) : M Reply :=
  try_catch
    (r ← RepositoryRepository.findById sch id;
     match r with
     | None => mret (notFound "Repository")
     | Some x =>
         p ← ProjectRepository.findById sch (ir_projectId x) false;
         match p with
         | Some y => if decide (ProjectRepository.ip_userId y = user) then k x else mret other
         | None => mret other
         end
     end)
    (fun _ => mret (refuse 500 failed)).

(** GET /project/:projectId *)
Definition listByProject (user projectId : string) : M Reply :=
  withProject user projectId false "Failed to fetch repositories" (fun _ =>
    rs ← RepositoryRepository.findByProjectId sch projectId;
    mret (succeed [("data", Some (JArr (listItem <$> rs))); ("count", Some (count rs))])).

Record AddBody := {
  ab_name : option string;
  ab_description : option string;
  ab_githubRepoUrl : option string;
  ab_githubRepoName : option string;
  ab_githubBranch : option string;
  ab_type : option string;
  ab_pathPatterns : option (list string);
  ab_executionOrder : option Z;
  ab_dependencies : option (list string);
}.

Definition addInput (projectId name url repoName : string) (b : AddBody) : RepoInput :=
  let type := default "backend" (JsStr.orNull (ab_type b)) in
  let cfg := getRepositoryConfig type name in
  {| rn_name := name; rn_description := Some (default ("Repository " +:+ name) (JsStr.orNull (ab_description b)));
     rn_projectId := projectId; rn_githubRepoUrl := url; rn_githubRepoName := repoName;
     rn_githubBranch := Some (default "main" (JsStr.orNull (ab_githubBranch b))); rn_type := type;
     rn_pathPatterns := Some (default cfg.1 (ab_pathPatterns b));
     rn_executionOrder := Some (default cfg.2 (ab_executionOrder b));
     rn_dependencies := Some (default [] (ab_dependencies b)); rn_envVariables := None |}.

(** POST /project/:projectId; [id] is the generated one *)
Definition addRepository (now : Z) (id user projectId : string) (b : AddBody) : M Reply :=
  withProject user projectId false "Failed to create repository" (fun _ =>
    match JsStr.orNull (ab_name b), JsStr.orNull (ab_githubRepoUrl b), JsStr.orNull (ab_githubRepoName b) with
    | Some name, Some url, Some repoName =>
        r ← RepositoryRepository.create sch now id (addInput projectId name url repoName b);
        mret (created [("data", Some (obj (repoHead r ++ repoGithub r ++ repoPlan r
                ++ [("isActive", Some (JBool (ir_isActive r)))] ++ repoTimes r)));
              ("message", str "Repository added successfully")])
    | _, _, _ => mret (refuse 400 "name, githubRepoUrl, and githubRepoName are required")
    end).

(** GET /:id *)
Definition getRepository (user id : string) : M Reply :=
  withRepo user id (notFound "Repository") "Failed to fetch repository" (fun r =>
    mret (succeed [("data", Some (obj (repoHead r ++ [("projectId", str (ir_projectId r))] ++ repoGithub r
      ++ repoPlan r ++ [("dependencies", texts <$> ir_dependencies r);
                        ("envVariables", Some (JArr (envJson <$> ir_envVariables r)));
                        ("isActive", Some (JBool (ir_isActive r))); ("lastSyncedAt", num <$> ir_lastSyncedAt r)]
      ++ repoTimes r)))])).

(** What PUT /:id takes from the body: not the address of the repository. *)
Definition fromBody (b : RepoData) : RepoData :=
  {| rd_name := rd_name b; rd_description := rd_description b; rd_githubRepoUrl := None; rd_githubRepoName := None;
     rd_githubBranch := rd_githubBranch b; rd_type := rd_type b; rd_pathPatterns := rd_pathPatterns b;
     rd_executionOrder := rd_executionOrder b; rd_dependencies := rd_dependencies b;
     rd_envVariables := rd_envVariables b; rd_isActive := rd_isActive b; rd_lastSyncedAt := None |}.

(** PUT /:id *)
Definition putRepository (now : Z) (user id : string) (b : RepoData) : M Reply :=
  withRepo user id (notFound "Repository") "Failed to update repository" (fun _ =>
    u ← RepositoryRepository.update sch now id (fromBody b);
    r ← found u;
    mret (succeed [("data", Some (obj (repoHead r ++ repoGithub r ++ repoPlan r
      ++ [("dependencies", texts <$> ir_dependencies r); ("isActive", Some (JBool (ir_isActive r)));
          ("updatedAt", Some (num (ir_updatedAt r)))])));
      ("message", str "Repository updated successfully")])).

(** DELETE /:id *)
Definition deleteRepository (now : Z) (user id : string) : M Reply :=
  withRepo user id (notFound "Repository") "Failed to delete repository" (fun _ =>
    RepositoryRepository.delete sch now id;;
    mret (succeed [("message", str "Repository deleted successfully")])).

(** POST /:id/reconnect; the token is read before the [try]. *)
Definition reconnect (accounts : AccountRows.Db) (now : Z) (user id : string) : M Reply :=
  token ← lift (AuthRoutes.getUserGitHubToken sch user accounts).1;
  withRepo user id (notFound "Repository") "Connection test failed" (fun r =>
    match JsStr.orNull token with
    | None => mret (refuse 401 "GitHub not connected")
    | Some t =>
        ok ← lift (fetchRepo (ir_githubRepoName r) t);
        if ok : bool then
          RepositoryRepository.updateLastSynced sch now (ir_id r);;
          mret (succeed [("data", Some (JObj [("connected", JBool true);
            ("repository", obj [("_id", str (ir_id r)); ("name", str (ir_name r));
                                ("githubRepoName", str (ir_githubRepoName r))])]))])
        else mret (refuse 403 "Cannot access repository")
    end).

(** GET /:id/env *)
Definition getEnv (user id : string) : M Reply :=
  withRepo user id denied "Failed to get environment variables" (fun _ =>
    vs ← RepositoryRepository.getDecryptedEnvVariables sch fromBase64 devKey env id;
    mret (succeed [("data", Some (JObj [("envVariables", JArr (envJson <$> vs)); ("count", count vs)]))])).

(** PUT /:id/env; [ivs] are the random vectors of the encryption *)
Definition putEnv (now : Z) (ivs : list string) (user id : string) (vars : option (list IEnvVariable)) : M Reply :=
  withRepo user id denied "Failed to update environment variables" (fun _ =>
    let vs := default [] vars in
    let v := validateEnvVariables vs in
    if negb v.1 then
      mret {| status := 400; body := JObj [("success", JBool false); ("message", JStr "Invalid environment variables");
                                           ("errors", texts v.2)] |}
    else
      prepared ← lift (prepareForStorage fromBase64 devKey env ivs vs);
      RepositoryRepository.update sch now id (onlyEnv prepared);;
      mret (succeed [("message", str ("Updated " +:+ pretty (length prepared) +:+ " environment variable(s)"));
                     ("data", Some (JObj [("count", count prepared)]))])).

(** DELETE /:id/env *)
Definition deleteEnv (now : Z) (user id : string) : M Reply :=
  withRepo user id denied "Failed to clear environment variables" (fun _ =>
    RepositoryRepository.update sch now id (onlyEnv []);;
    mret (succeed [("message", str "Environment variables cleared")])).

End routes.
End RepositoryRoutes.
