(* ===== verification/ProjectRoutes.v ===== *)
(** * The project routes (src/api/routes/projects.ts)

    The handlers that read and write projects, their settings and their
    language models, behind the authentication middleware. Requests are served
    one at a time; bodies have the declared types; dates are sent as numbers.
    Scaffolding, the detection of a stack and the choice of specialists are
    parameters: they touch neither table. POST /:id/scaffold and POST
    /specialists/contextual are in [ProjectTools]; the routes that only list
    templates, providers and specialists are left out. *)

From S2P Require Import Prelude JsNumber Json EventBridge Schema Crypto Accounts Projects LlmConfig RepositoryRoutes.
From stdpp Require Import list pretty options.

Module ProjectRoutes.
Import Json Js Schema ProjectRows EventBridge RepositoryRoutes ProjectRepository LlmConfig.
Module RR := RepositoryRepository.

(** The data of [update] when only one field is given. *)
Definition onlySettings (s : Json) : ProjectData :=
  {| pd_name := None; pd_description := None; pd_type := None; pd_status := None; pd_apiKey := None;
     pd_settings := Some s; pd_isActive := None |}.

Definition onlyApiKey (k : option string) : ProjectData :=
  {| pd_name := None; pd_description := None; pd_type := None; pd_status := None; pd_apiKey := k;
     pd_settings := None; pd_isActive := None |}.

(** [project.settings || {}] *)
Definition settingsOf (p : IProject) : list (string * Json) := default [] (spread <$> ip_settings p).

Definition projectHead (p : IProject) : list (string * option Json) :=
  [("_id", str (ip_id p)); ("name", str (ip_name p)); ("description", JStr <$> ip_description p);
   ("type", str (ip_type p)); ("status", str (ip_status p))].

Definition projectTimes (p : IProject) : list (string * option Json) :=
  [("isActive", Some (JBool (ip_isActive p))); ("createdAt", Some (num (ip_createdAt p)));
   ("updatedAt", Some (num (ip_updatedAt p)))].

Definition projectJson (p : IProject) (repositories : list Json) : Json :=
  obj (projectHead p ++ [("userId", str (ip_userId p)); ("settings", ip_settings p)] ++ projectTimes p
       ++ [("repositories", Some (JArr repositories))]).

Definition shortRepo (r : RR.IRepository) : Json := obj (repoHead r ++ repoGithub r).

Definition fullRepo (r : RR.IRepository) : Json :=
  obj (repoHead r ++ repoGithub r ++ repoPlan r ++ [("isActive", Some (JBool (RR.ir_isActive r)))]).

(** ** Stacks *)

Record DetectedStack := {
  st_frontend : option string;
  st_backend : option string;
  st_database : option string;
  st_infrastructure : option string;
  st_additionalTech : option (list string);
}.

Definition nub (l : list string) : list string :=
  fold_left (fun acc x => if decide (x ∈ acc) then acc else acc ++ [x]) l [].

(** The first truthy value wins. *)
Definition firstTruthy (f : DetectedStack -> option string) (l : list DetectedStack) : option string :=
  head (omap (fun s => JsStr.orNull (f s)) l).

Definition mergeStacks (l : list DetectedStack) : DetectedStack :=
  {| st_frontend := firstTruthy st_frontend l; st_backend := firstTruthy st_backend l;
     st_database := firstTruthy st_database l; st_infrastructure := firstTruthy st_infrastructure l;
     st_additionalTech := Some (nub (concat (default [] ∘ st_additionalTech <$> l))) |}.

Definition stackJson (s : DetectedStack) : Json :=
  obj [("frontend", JStr <$> st_frontend s); ("backend", JStr <$> st_backend s);
       ("database", JStr <$> st_database s); ("infrastructure", JStr <$> st_infrastructure s);
       ("additionalTech", texts <$> st_additionalTech s)].

Fixpoint joinWith (sep : string) (l : list string) : string :=
  match l with
  | [] => EmptyString
  | [x] => x
  | x :: l' => x +:+ sep +:+ joinWith sep l'
  end.

Definition summaryParts (s : DetectedStack) : list string :=
  let part label v := match JsStr.orNull v with Some x => [label +:+ ": " +:+ x] | None => [] end in
  part "Frontend" (st_frontend s) ++ part "Backend" (st_backend s) ++ part "Database" (st_database s)
  ++ part "Infrastructure" (st_infrastructure s)
  ++ match st_additionalTech s with Some (x :: l) => ["Additional: " +:+ joinWith ", " (x :: l)] | _ => [] end.

Definition buildStackSummary (s : DetectedStack) : string :=
  match summaryParts s with [] => "No specific stack detected" | l => joinWith " | " l end.

(** The standard specialists, all switched on. *)
Definition standard : Json :=
  JObj ((fun k => (k, JBool true)) <$>
    ["contextManager"; "taskDecomposition"; "codeArchitect"; "debugger"; "testEngineer"; "securityAuditor";
     "gitFlowManager"]).

Definition withStack (settings : list (string * Json)) (stack : Json) : Json :=
  JObj (setKey "specialists"
    (JObj (setKey "standard" standard (setKey "stack" stack (default [] (spread <$> field "specialists" (JObj settings))))))
    settings).

(** ** The language models of a project *)

(** [LLM_PROVIDERS[v]?.models.find(m => m.id === model)], with the provider *)
Definition providerInfo (config : option Json) : outcome (option LLMProvider * option LLMModel) :=
  match prop "provider" config with
  | Some (JStr s) =>
      match JsMap.get s LLM_PROVIDERS with
      | Some p =>
          Ok (Some p, match prop "model" config with Some (JStr m) => findModel p m | _ => None end)
      | None =>
          if bool_decide (s ∈ inherited)
          then Throw "TypeError: Cannot read properties of undefined (reading 'find')" else Ok (None, None)
      end
  | _ => Ok (None, None)
  end.

Definition orNullJson (o : option Json) : Json := default JNull o.

Definition modelJson (m : LLMModel) (described : bool) : Json :=
  obj ([("name", str (lm_name m)); ("contextWindow", Some (num (lm_contextWindow m)))]
       ++ if described then [("description", str (lm_description m))] else []).

(** [{ provider, model, hasApiKey }] *)
Definition configJson (c : option Json) : list (string * option Json) :=
  [("provider", prop "provider" c); ("model", prop "model" c);
   ("hasApiKey", Some (JBool (isTrue (prop "apiKey" c))))].

Definition phaseInfo (c : Json) : outcome Json :=
  match providerInfo (Some c) with
  | Throw e => Throw e
  | Ok (p, m) =>
      Ok (obj (configJson (Some c) ++
        [("providerInfo", Some (orNullJson ((fun p => obj [("name", str (lp_name p));
                                   ("requiresApiKey", Some (JBool (lp_requiresApiKey p)))]) <$> p)));
         ("modelInfo", Some (orNullJson ((fun m => modelJson m false) <$> m)))]))
  end.

Definition phaseTypes : list PhaseType := [analysis; developer; merge; security].

Fixpoint phasesInfo (config : Json) (ps : list PhaseType) : outcome (list (string * Json)) :=
  match ps with
  | [] => Ok []
  | p :: ps' =>
      match prop (phaseKey p) (prop "phases" (Some config)) with
      | Some c =>
          if truthy c then
            match phaseInfo c with
            | Throw e => Throw e
            | Ok j => match phasesInfo config ps' with Ok l => Ok ((phaseKey p, j) :: l) | Throw e => Throw e end
            end
          else phasesInfo config ps'
      | None => phasesInfo config ps'
      end
  end.

(** The answer of GET /:id/llm-config *)
Definition llmAnswer (settings : option Json) : outcome Reply :=
  match storedConfig settings with
  | Throw e => Throw e
  | Ok stored =>
      let config := default getDefaultLLMConfig stored in
      let d := field "default" config in
      match access "provider" d, providerInfo d, phasesInfo config phaseTypes with
      | Ok _, Ok (p, m), Ok ps =>
          Ok (succeed [("data", Some (obj
            [("config", Some (obj (configJson d)));
             ("providerInfo", Some (orNullJson ((fun p => obj [("name", str (lp_name p));
                ("description", str (lp_description p)); ("requiresApiKey", Some (JBool (lp_requiresApiKey p)))]) <$> p)));
             ("modelInfo", Some (orNullJson ((fun m => modelJson m true) <$> m)));
             ("phases", Some (if decide (ps = []) then JNull else JObj ps));
             ("hasPhaseOverrides", Some (JBool (hasPhaseOverrides config)));
             ("isDefault", Some (JBool (negb (isTrue (prop "llm" settings)))))]))])
      | Throw e, _, _ | _, Throw e, _ | _, _, Throw e => Throw e
      end
  end.

(** The body of PUT /:id/llm-config *)
Record LlmBody := { lb_default : LlmInput; lb_phases : option (PhaseType -> option LlmInput) }.

(** [...(apiKey ? { apiKey } : existing ? { apiKey: existing } : {})] *)
Definition keptKey (apiKey : option string) (existing : option Json) : option Json :=
  match JsStr.orNull apiKey with
  | Some k => Some (JStr k)
  | None => e ← existing; if truthy e then Some e else None
  end.

Definition configOf (c : LlmInput) (existing : option Json) : Json :=
  obj [("provider", JStr <$> li_provider c); ("model", JStr <$> li_model c); ("apiKey", keptKey (li_apiKey c) existing)].

(** The loop over the phases: the configurations to store, or the error of
    the first invalid one. *)
Fixpoint phaseConfigs (existing : option Json) (provider : option string) (defaultKey : option Json)
    (input : PhaseType -> option LlmInput) (ps : list PhaseType) : outcome (string + list (string * Json)) :=
  match ps with
  | [] => Ok (inr [])
  | p :: ps' =>
      let rest := phaseConfigs existing provider defaultKey input ps' in
      match input p with
      | Some c =>
          if JsStr.truthy (default "" (li_provider c)) && JsStr.truthy (default "" (li_model c)) then
            let old := prop "apiKey" (prop (phaseKey p) (prop "phases" existing)) in
            let usable := orV old (if decide (li_provider c = provider) then defaultKey else None) in
            match validateLLMConfig c usable with
            | Throw e => Throw e
            | Ok (Invalid e) => Ok (inl (phaseKey p +:+ " phase: " +:+ e))
            | Ok (Valid _ _) =>
                match rest with
                | Ok (inr l) => Ok (inr ((phaseKey p, configOf c old) :: l))
                | r => r
                end
            end
          else rest
      | None => rest
      end
  end.

Definition llmConfigOf (d : Json) (phases : list (string * Json)) : Json :=
  JObj (("default", d) :: if decide (phases = []) then [] else [("phases", JObj phases)]).

(** [Object.entries(phaseConfigs).map(...)] of the answer *)
Definition phasesAnswer (phases : list (string * Json)) : Json :=
  if decide (phases = []) then JNull else JObj ((fun e => (e.1, obj (configJson (Some e.2)))) <$> phases).

Section routes.
Variable sch : JsMap.t (list Column).
(** Whether a row of [users] has this id. *)
Variable knownUser : string -> bool.
(** [scaffoldProject] of a project id, a type and a body; the specialists a
    stack activates; the stack of a repository at an address and branch. *)
Variable scaffold : string -> string -> Json -> outcome Json.
Variable activeSpecialists : Json -> Json.
Variable detectStackFromRepo : string -> string -> outcome DetectedStack.
Abbreviation M := (JsM Db).

Fixpoint mapM_ {A B} (f : A -> M B) (l : list A) : M (list B) :=
  match l with
  | [] => mret []
  | x :: l' => y ← f x; ys ← mapM_ f l'; mret (y :: ys)
  end.

(** GET / *)
Definition listProjects (user : string) : M Reply :=
  try_catch
    (ps ← findByUserId sch user;
     l ← mapM_ (fun p => rs ← RR.findByProjectId sch (ip_id p); mret (projectJson p (shortRepo <$> rs))) ps;
     mret (succeed [("data", Some (JObj [("projects", JArr l);
              ("pagination", JObj [("total", count l); ("page", num 1); ("limit", num 50)])]));
            ("count", Some (count l))]))
    (fun _ => mret (refuse 500 "Failed to list projects")).

Record NewRepo := {
  nr_name : option string;
  nr_description : option string;
  nr_clone_url : option string;
  nr_html_url : option string;
  nr_full_name : option string;
  nr_default_branch : option string;
  nr_type : option string;
}.

Record NewProject := {
  np_name : option string;
  np_description : option string;
  np_type : option string;
  np_repositories : list NewRepo;
  np_scaffold : option bool;
  np_options : Json;
}.

Definition repoInput (projectId name fullName : string) (b : NewRepo) : RR.RepoInput :=
  let type := default "backend" (JsStr.orNull (nr_type b)) in
  let cfg := RR.getRepositoryConfig type name in
  {| RR.rn_name := name;
     RR.rn_description := Some (default ("Repository " +:+ name) (JsStr.orNull (nr_description b)));
     RR.rn_projectId := projectId;
     RR.rn_githubRepoUrl :=
       match JsStr.orNull (nr_clone_url b), JsStr.orNull (nr_html_url b) with
       | Some u, _ => u
       | None, Some u => u
       | None, None => "https://github.com/" +:+ fullName
       end;
     RR.rn_githubRepoName := fullName; RR.rn_githubBranch := Some (default "main" (JsStr.orNull (nr_default_branch b)));
     RR.rn_type := type; RR.rn_pathPatterns := Some cfg.1; RR.rn_executionOrder := Some cfg.2;
     RR.rn_dependencies := None; RR.rn_envVariables := None |}.

(** A repository without a name or full name is refused by the table. *)
Fixpoint createRepos (now : Z) (newId : nat -> string) (projectId : string) (i : nat) (l : list NewRepo) : M (list RR.IRepository) :=
  match l with
  | [] => mret []
  | b :: l' =>
      name ← AccountRows.given (nr_name b);
      fullName ← AccountRows.given (nr_full_name b);
      r ← RR.create sch now (newId i) (repoInput projectId name fullName b);
      rs ← createRepos now newId projectId (S i) l';
      mret (r :: rs)
  end.

(** POST /; [newId] gives the generated ids: the project's first. *)
Definition postProject (now : Z) (newId : nat -> string) (user : string) (b : NewProject) : M Reply :=
  match JsStr.orNull (np_name b) with
  | None => mret (refuse 400 "Name required")
  | Some name =>
      try_catch
        (p ← create sch knownUser now (newId 0) name (np_description b)
               (Some (default "web-app" (JsStr.orNull (np_type b)))) user None
               (Some (JObj [("approvalMode", JStr "manual"); ("defaultPipeline", JStr "full")]));
         rs ← createRepos now newId (ip_id p) 1 (np_repositories b);
         let wanted := match np_scaffold b with Some x => x | None => bool_decide (rs = []) end in
         let scaffolded :=
           if wanted then
             match scaffold (ip_id p) (default "web-app" (JsStr.orNull (np_type b))) (np_options b) with
             | Ok j => j
             | Throw _ => JNull
             end
           else JNull in
         mret (created [("data", Some (JObj
                [("project", obj (projectHead p ++ [("userId", str (ip_userId p))] ++ projectTimes p
                    ++ [("repositories", Some (JArr (shortRepo <$> rs)))]));
                 ("scaffolding", scaffolded)]));
               ("message", str ("Project created successfully with " +:+ pretty (length rs) +:+ " repositories!"))]))
        (fun _ => mret (refuse 500 "Failed to create project"))
  end.

(** GET /:id *)
Definition getProject (user id : string) : M Reply :=
  withProject sch user id false "Failed to get project" (fun p =>
    rs ← RR.findByProjectId sch (ip_id p);
    mret (succeed [("data", Some (projectJson p (fullRepo <$> rs)))])).

(** PUT /:id *)
Definition putProject (now : Z) (user id : string) (name description type status : option string)
    (isActive : option bool) : M Reply :=
  withProject sch user id false "Failed to update project" (fun _ =>
    u ← update sch now id {| pd_name := name; pd_description := description; pd_type := type; pd_status := status;
                             pd_apiKey := None; pd_settings := None; pd_isActive := isActive |};
    p ← found u;
    mret (succeed [("data", Some (obj (projectHead p ++ projectTimes p)));
                   ("message", str "Project updated successfully")])).

Fixpoint deleteAll (now : Z) (rs : list RR.IRepository) : M unit :=
  match rs with
  | [] => mret tt
  | r :: rs' => RR.delete sch now (RR.ir_id r);; deleteAll now rs'
  end.

(** DELETE /:id *)
Definition deleteProject (now : Z) (user id : string) : M Reply :=
  withProject sch user id false "Failed to delete project" (fun p =>
    rs ← RR.findByProjectId sch (ip_id p);
    deleteAll now rs;;
    delete sch now id;;
    mret (succeed [("message", str "Project and all its repositories deleted successfully");
                   ("deletedRepositories", Some (count rs))])).

(** GET /:id/api-key *)
Definition getApiKey (user id : string) : M Reply :=
  withProject sch user id true "Failed to get API key" (fun p =>
    let key := JsStr.orNull (ip_apiKey p) in
    mret (succeed [("data", Some (JObj [("hasApiKey", JBool (bool_decide (is_Some key)));
      ("maskedKey", match key with Some k => JStr ("sk-ant-..." +:+ JsStr.takeLast 4 k) | None => JNull end);
      ("source", JStr (if bool_decide (is_Some key) then "project" else "environment"))]))])).

(** PUT /:id/api-key *)
Definition putApiKey (now : Z) (user id : string) (apiKey : option string) : M Reply :=
  withProject sch user id false "Failed to update API key" (fun _ =>
    let key := JsStr.orNull apiKey in
    if match key with Some k => JsStr.startsWith "sk-ant-" k | None => true end then
      update sch now id (onlyApiKey key);;
      mret (succeed [("message", str "Project API key updated successfully");
                     ("data", Some (JObj [("hasApiKey", JBool (bool_decide (is_Some key)))]))])
    else mret (refuse 400 "Invalid Anthropic API key format")).

Definition defaultSettings : Json :=
  JObj [("defaultBranch", JStr "main"); ("autoDeployment", JBool false); ("autoRecoveryEnabled", JBool true);
        ("autoMergeEnabled", JBool false); ("requiredReviews", num 0)].

(** GET /:projectId/settings *)
Definition getProjectSettings (user id : string) : M Reply :=
  withProject sch user id false "Failed to get settings" (fun p =>
    mret (succeed [("data", Some (JObj [("settings", default defaultSettings (ip_settings p))]))])).

(** PATCH /:projectId/settings: the whole body is merged. *)
Definition patchSettings (now : Z) (user id : string) (b : Json) : M Reply :=
  withProject sch user id false "Failed to update settings" (fun _ =>
    u ← updateSettings sch now id b;
    mret (succeed [("message", str "Project settings updated successfully");
                   ("data", Some (obj [("settings", x ← u; ip_settings x)]))])).

(** GET /:id/llm-config *)
Definition getLlmConfig (user id : string) : M Reply :=
  withProject sch user id false "Failed to get LLM config" (fun p => RR.lift (llmAnswer (ip_settings p))).

(** PUT /:id/llm-config *)
Definition putLlmConfig (now : Z) (user id : string) (b : LlmBody) : M Reply :=
  withProject sch user id true "Failed to update LLM config" (fun p =>
    let existing := prop "llm" (ip_settings p) in
    let oldKey := orV (prop "apiKey" (prop "default" existing)) (prop "apiKey" existing) in
    v ← RR.lift (validateLLMConfig (lb_default b) oldKey);
    match v with
    | Invalid e => mret (refuse 400 e)
    | Valid provider m =>
        let d := configOf (lb_default b) oldKey in
        r ← RR.lift (match lb_phases b with
                     | Some f => phaseConfigs existing (li_provider (lb_default b)) oldKey f phaseTypes
                     | None => Ok (inr [])
                     end);
        match r with
        | inl e => mret (refuse 400 e)
        | inr phases =>
            update sch now id (onlySettings (JObj (setKey "llm" (llmConfigOf d phases) (settingsOf p))));;
            mret (succeed [("message", str "LLM configuration updated successfully");
              ("data", Some (JObj
                [("config", obj (configJson (Some d)));
                 ("providerInfo", obj [("name", str (lp_name provider)); ("description", str (lp_description provider))]);
                 ("modelInfo", modelJson m true); ("phases", phasesAnswer phases);
                 ("hasPhaseOverrides", JBool (negb (bool_decide (phases = []))))]))])
        end
    end).

(** DELETE /:id/llm-config *)
Definition deleteLlmConfig (now : Z) (user id : string) : M Reply :=
  withProject sch user id false "Failed to reset LLM config" (fun p =>
    update sch now id (onlySettings (JObj (JsMap.delete "llm" (settingsOf p))));;
    mret (succeed [("message", str "LLM configuration reset to default (local/free)");
                   ("data", Some (JObj [("config", getDefaultLLMConfig)]))])).

(** POST /:id/detect-stack: the project need not be the user's. *)
Definition detectStack (now : Z) (id : string) : M Reply :=
  try_catch
    (p ← findById sch id false;
     match p with
     | None => mret (notFound "Project")
     | Some x =>
         rs ← RR.findByProjectId sch id;
         match rs with
         | [] => mret (refuse 400 "No repositories found for this project. Add repositories first.")
         | _ =>
             let found_ := omap (fun r =>
               match JsStr.orNull (Some (RR.ir_githubRepoUrl r)) with
               | None => None
               | Some url =>
                   match detectStackFromRepo url (default "main" (JsStr.orNull (Some (RR.ir_githubBranch r)))) with
                   | Ok s => Some (RR.ir_name r, s)
                   | Throw _ => None
                   end
               end) rs in
             match found_ with
             | [] => mret (refuse 400 "Could not detect stack from any repository")
             | _ =>
                 let s := mergeStacks found_.*2 in
                 updateSettings sch now id (withStack (settingsOf x) (stackJson s));;
                 mret (succeed [("data", Some (JObj
                   [("stack", stackJson s); ("specialists", activeSpecialists (stackJson s));
                    ("summary", JStr (buildStackSummary s));
                    ("detectedFromRepos", JArr ((fun e => obj [("name", str e.1);
                       ("summary", str (buildStackSummary e.2))]) <$> found_))]))])
             end
         end
     end)
    (fun _ => mret (refuse 500 "Failed to auto-detect stack")).

End routes.
End ProjectRoutes.
