(* ===== verification/ActivityStream.v ===== *)
(** * Activity stream (src/services/realtime/ActivityStreamService.ts)

    What the front end sees of a running task: activities are throttled,
    kept in a history, persisted, and sent at once or in batches. Messages to
    the room of a task and writes to its activity log are recorded; a pending
    timer is an entry of [batchTimers]. *)

From S2P Require Import Prelude JsNumber Json EventBridge.
From stdpp Require Import list pretty options.

Module ActivityStream.
Import Json EventBridge.

Inductive ActivityType :=
  | phase_start | phase_complete | phase_failed | story_start | story_complete | story_failed | tool_call | tool_result
  | file_read | file_write | file_edit | command_run | thinking | output | approval_required | approval_received
  | error | warning | info.

#[export] Instance ActivityType_eq_dec : EqDecision ActivityType.
Proof. solve_decision. Defined.

Definition typeName (t : ActivityType) : string :=
  match t with
  | phase_start => "phase_start" | phase_complete => "phase_complete" | phase_failed => "phase_failed"
  | story_start => "story_start" | story_complete => "story_complete" | story_failed => "story_failed"
  | tool_call => "tool_call" | tool_result => "tool_result" | file_read => "file_read" | file_write => "file_write"
  | file_edit => "file_edit" | command_run => "command_run" | thinking => "thinking" | output => "output"
  | approval_required => "approval_required" | approval_received => "approval_received" | error => "error"
  | warning => "warning" | info => "info"
  end.

Record Activity := {
  ac_id : string;
  ac_taskId : string;
  ac_type : ActivityType;
  ac_phase : option string;
  ac_storyId : option string;
  ac_content : string;
  ac_details : option Json;
  ac_timestamp : Z;
}.

Record Options := { op_phase : option string; op_storyId : option string; op_details : option Json; op_immediate : bool }.

Definition MAX_BATCH_SIZE : nat := 50.
Definition HISTORY_BUFFER_SIZE : nat := 200.
Definition HIGH_FREQ_THROTTLE_MS : Z := 50.

(** An entry handed to [TaskRepository.appendActivityLog]. *)
Record LogWrite := {
  lw_type : string;
  lw_content : string;
  lw_timestamp : Z;
  lw_tool : option Json;
  lw_toolInput : option Json;
}.

Record State := {
  pendingActivities : JsMap.t (list Activity);
  batchTimers : JsMap.t unit;
  historyBuffer : JsMap.t (list Activity);
  lastEmitTime : JsMap.t Z;
  activityCounter : nat;
  batches : list (string * list Activity);
  persisted : list (string * LogWrite);
}.

Definition init : State :=
  {| pendingActivities := []; batchTimers := []; historyBuffer := []; lastEmitTime := []; activityCounter := 0;
     batches := []; persisted := [] |}.

Definition withPending (m : JsMap.t (list Activity)) (timers : JsMap.t unit) (s : State) : State :=
  {| pendingActivities := m; batchTimers := timers; historyBuffer := historyBuffer s; lastEmitTime := lastEmitTime s;
     activityCounter := activityCounter s; batches := batches s; persisted := persisted s |}.

Definition pendingOf (taskId : string) (s : State) : list Activity :=
  default [] (JsMap.get taskId (pendingActivities s)).

Definition historyOf (taskId : string) (s : State) : list Activity :=
  default [] (JsMap.get taskId (historyBuffer s)).

(** ** Private methods *)

Definition highFreqTypes : list ActivityType := [tool_call; thinking; output].

Definition throttleKey (taskId : string) (t : ActivityType) : string := taskId +:+ ":" +:+ typeName t.

(** [true]: the activity is dropped; otherwise its time is noted. *)
Definition shouldThrottle (now : Z) (taskId : string) (t : ActivityType) (s : State) : bool * State :=
  if negb (bool_decide (t ∈ highFreqTypes)) then (false, s)
  else
    let last := default 0%Z (JsMap.get (throttleKey taskId t) (lastEmitTime s)) in
    if (now - last <? HIGH_FREQ_THROTTLE_MS)%Z then (true, s)
    else
      (false,
       {| pendingActivities := pendingActivities s; batchTimers := batchTimers s; historyBuffer := historyBuffer s;
          lastEmitTime := JsMap.set (throttleKey taskId t) now (lastEmitTime s); activityCounter := activityCounter s;
          batches := batches s; persisted := persisted s |}).

Definition isHighPriorityEvent (t : ActivityType) : bool :=
  bool_decide (t ∈ [phase_start; phase_complete; phase_failed; story_start; story_complete; story_failed;
                    approval_required; approval_received; error]).

Definition logWrite (a : Activity) : LogWrite :=
  {| lw_type := typeName (ac_type a); lw_content := JsStr.take (Z.to_nat 5000) (ac_content a);
     lw_timestamp := ac_timestamp a; lw_tool := prop "toolName" (ac_details a); lw_toolInput := ac_details a |}.

(** The oldest entries go when the buffer is full. *)
Definition addToHistory (taskId : string) (a : Activity) (s : State) : State :=
  let history := historyOf taskId s ++ [a] in
  {| pendingActivities := pendingActivities s; batchTimers := batchTimers s;
     historyBuffer := JsMap.set taskId (drop (length history - HISTORY_BUFFER_SIZE) history) (historyBuffer s);
     lastEmitTime := lastEmitTime s; activityCounter := activityCounter s; batches := batches s;
     persisted := persisted s ++ [(taskId, logWrite a)] |}.

Definition emitActivities (taskId : string) (l : list Activity) (s : State) : State :=
  match l with
  | [] => s
  | _ =>
      {| pendingActivities := pendingActivities s; batchTimers := batchTimers s; historyBuffer := historyBuffer s;
         lastEmitTime := lastEmitTime s; activityCounter := activityCounter s; batches := batches s ++ [(taskId, l)];
         persisted := persisted s |}
  end.

Definition scheduleBatchFlush (taskId : string) (s : State) : State :=
  if JsMap.has taskId (batchTimers s) then s
  else withPending (pendingActivities s) (JsMap.set taskId tt (batchTimers s)) s.

(** [while (pending.length > 0) emit(pending.splice(0, n))]; each round takes
    at least one entry, so the length is fuel enough. *)
Fixpoint chunks (fuel : nat) (taskId : string) (l : list Activity) (s : State) : State :=
  match fuel, l with
  | _, [] | 0, _ => s
  | S fuel', _ => chunks fuel' taskId (drop MAX_BATCH_SIZE l) (emitActivities taskId (take MAX_BATCH_SIZE l) s)
  end.

(** The batch timer of a task fires, if it is still pending. *)
Definition timerFires (taskId : string) (s : State) : State :=
  if JsMap.has taskId (batchTimers s) then
    let pending := pendingOf taskId s in
    let m := match JsMap.get taskId (pendingActivities s) with
             | Some _ => JsMap.set taskId [] (pendingActivities s)
             | None => pendingActivities s
             end in
    chunks (length pending) taskId pending (withPending m (JsMap.delete taskId (batchTimers s)) s)
  else s.

(** ** Public methods *)

Definition nextId (s : State) : State :=
  {| pendingActivities := pendingActivities s; batchTimers := batchTimers s; historyBuffer := historyBuffer s;
     lastEmitTime := lastEmitTime s; activityCounter := S (activityCounter s); batches := batches s;
     persisted := persisted s |}.

Definition activity (now : Z) (taskId : string) (t : ActivityType) (content : string) (o : Options) (n : nat) : Activity :=
  {| ac_id := "act-" +:+ pretty now +:+ "-" +:+ pretty n; ac_taskId := taskId; ac_type := t; ac_phase := op_phase o;
     ac_storyId := op_storyId o; ac_content := content; ac_details := op_details o; ac_timestamp := now |}.

Definition stream (now : Z) (taskId : string) (t : ActivityType) (content : string) (o : Options) (s : State) : State :=
  let s1 := nextId s in
  let a := activity now taskId t content o (activityCounter s1) in
  let '(dropped, s2) := shouldThrottle now taskId t s1 in
  if dropped : bool then s2
  else
    let s3 := addToHistory taskId a s2 in
    if op_immediate o || isHighPriorityEvent t then emitActivities taskId [a] s3
    else
      scheduleBatchFlush taskId
        (withPending (JsMap.set taskId (pendingOf taskId s3 ++ [a]) (pendingActivities s3)) (batchTimers s3) s3).

Definition options (phase : option string) (details : option Json) (immediate : bool) : Options :=
  {| op_phase := phase; op_storyId := None; op_details := details; op_immediate := immediate |}.

Definition phaseStart (now : Z) (taskId phase : string) (details : option Json) : State -> State :=
  stream now taskId phase_start ("Starting " +:+ phase +:+ " phase") (options (Some phase) details true).

Definition phaseComplete (now : Z) (taskId phase : string) (result : option Json) : State -> State :=
  stream now taskId phase_complete (phase +:+ " phase completed") (options (Some phase) result true).

Definition phaseFailed (now : Z) (taskId phase err : string) : State -> State :=
  stream now taskId phase_failed (phase +:+ " phase failed: " +:+ err)
    (options (Some phase) (Some (JObj [("error", JStr err)])) true).

Inductive StoryStatus := SStart | SComplete | SFailed.

Definition storyProgress (now : Z) (taskId storyId title : string) (st : StoryStatus) (details : option Json)
    : State -> State :=
  let type := match st with SStart => story_start | SComplete => story_complete | SFailed => story_failed end in
  let name := match st with SStart => "start" | SComplete => "complete" | SFailed => "failed" end in
  let fields := fold_left (fun m e => JsMap.set e.1 e.2 m) (default [] (spread <$> details))
                  [("storyTitle", JStr title); ("status", JStr name)] in
  stream now taskId type ("Story: " +:+ title)
    {| op_phase := Some "Developer"; op_storyId := Some storyId; op_details := Some (JObj fields); op_immediate := true |}.

Definition toolCall (now : Z) (taskId tool : string) (phase : option string) : State -> State :=
  stream now taskId tool_call ("Calling " +:+ tool) (options phase (Some (JObj [("toolName", JStr tool)])) false).

Definition toolResult (now : Z) (taskId tool : string) (ok : bool) (phase : option string) : State -> State :=
  stream now taskId tool_result (tool +:+ ": " +:+ if ok then "success" else "failed")
    (options phase (Some (JObj [("toolName", JStr tool); ("success", JBool ok)])) false).

(** [.slice(-2).join('/')] *)
Definition shortPath (path : string) : string :=
  let l := JsStr.splitSlash path in
  match drop (length l - 2) l with
  | [a; b] => a +:+ "/" +:+ b
  | [a] => a
  | _ => EmptyString
  end.

Inductive FileOp := FRead | FWrite | FEdit.

Definition fileOperation (now : Z) (taskId : string) (op : FileOp) (path : string) (phase : option string)
    : State -> State :=
  let name := match op with FRead => "read" | FWrite => "write" | FEdit => "edit" end in
  let type := match op with FRead => file_read | FWrite => file_write | FEdit => file_edit end in
  stream now taskId type (name +:+ ": " +:+ shortPath path)
    (options phase (Some (JObj [("operation", JStr name); ("filePath", JStr path)])) false).

Definition commandRun (now : Z) (taskId command : string) (phase : option string) : State -> State :=
  let short := if 50 <? JsStr.length command then JsStr.take 47 command +:+ "..." else command in
  stream now taskId command_run ("Running: " +:+ short) (options phase (Some (JObj [("command", JStr command)])) false).

Definition think (now : Z) (taskId content : string) (phase : option string) : State -> State :=
  stream now taskId thinking (JsStr.take 200 content) (options phase (Some (JObj [("fullContent", JStr content)])) false).

Definition outputs (now : Z) (taskId content : string) (phase : option string) : State -> State :=
  stream now taskId output content (options phase None false).

Definition errors (now : Z) (taskId err : string) (phase : option string) : State -> State :=
  stream now taskId error err (options phase None true).

Definition warns (now : Z) (taskId message : string) (phase : option string) : State -> State :=
  stream now taskId warning message (options phase None false).

Definition infos (now : Z) (taskId message : string) (phase : option string) : State -> State :=
  stream now taskId info message (options phase None false).

(** A limit of 0 counts as none. *)
Definition getHistory (taskId : string) (limit : option nat) (s : State) : list Activity :=
  let history := historyOf taskId s in
  match limit with
  | Some (S n) => drop (length history - S n) history
  | _ => history
  end.

Definition clearHistory (taskId : string) (s : State) : State :=
  {| pendingActivities := JsMap.delete taskId (pendingActivities s); batchTimers := JsMap.delete taskId (batchTimers s);
     historyBuffer := JsMap.delete taskId (historyBuffer s); lastEmitTime := lastEmitTime s;
     activityCounter := activityCounter s; batches := batches s; persisted := persisted s |}.

Definition flush (taskId : string) (s : State) : State :=
  match pendingOf taskId s with
  | [] => s
  | pending =>
      let s1 := emitActivities taskId pending s in
      withPending (JsMap.set taskId [] (pendingActivities s1)) (batchTimers s1) s1
  end.

(** ** Steps *)

Inductive Step :=
  | TStream (now : Z) (taskId : string) (t : ActivityType) (content : string) (o : Options)
  | TTimer (taskId : string)
  | TFlush (taskId : string)
  | TClear (taskId : string).

Definition step (x : Step) (s : State) : State :=
  match x with
  | TStream now taskId t content o => stream now taskId t content o s
  | TTimer taskId => timerFires taskId s
  | TFlush taskId => flush taskId s
  | TClear taskId => clearHistory taskId s
  end.

Definition run (l : list Step) (s : State) : State := fold_left (fun s x => step x s) l s.

End ActivityStream.
