(* ===== verification/ActivityStreamProofs.v ===== *)
(** * Properties of the activity stream

    Nothing that passes the throttle is lost: it is logged, in the history and
    sent, at once or by the timer that is then pending. *)

From S2P Require Import Prelude JsNumber Json ActivityStream.
From stdpp Require Import list options.

Module StreamSpec.
Import Json ActivityStream.

(** What was sent to the room of a task, and what was logged. *)
Definition emittedOf (t : string) (s : State) : list Activity :=
  concat (snd <$> base.filter (fun e => e.1 = t) (batches s)).

Definition persistedOf (t : string) (s : State) : list LogWrite :=
  snd <$> base.filter (fun e => e.1 = t) (persisted s).

(** [l] when the tasks are the same. *)
Definition onTask {A} (t t' : string) (l : list A) : list A := if decide (t' = t) then l else [].

Lemma emitted_emit t t' l s : emittedOf t (emitActivities t' l s) = emittedOf t s ++ onTask t t' l.
Proof.
  destruct l as [|a l]; [unfold onTask; case_decide; by rewrite app_nil_r|].
  unfold emittedOf. cbn [emitActivities batches]. rewrite list.filter_app, fmap_app, concat_app. f_equal.
  rewrite list.filter_cons. unfold onTask. cbn [fst]. case_decide; [|done]. cbn. by rewrite app_nil_r.
Qed.

(** Sending changes nothing else. *)
Record sameBut (s s' : State) : Prop := {
  sb_pending : pendingActivities s' = pendingActivities s;
  sb_timers : batchTimers s' = batchTimers s;
  sb_history : historyBuffer s' = historyBuffer s;
  sb_times : lastEmitTime s' = lastEmitTime s;
  sb_persisted : persisted s' = persisted s;
}.

Lemma emit_same t l s : sameBut s (emitActivities t l s).
Proof. by destruct l. Qed.

Lemma chunks_same fuel t l s : sameBut s (chunks fuel t l s).
Proof.
  revert l s. induction fuel as [|fuel IH]; intros [|a l] s; try done. cbn [chunks].
  destruct (IH (drop MAX_BATCH_SIZE (a :: l)) (emitActivities t (take MAX_BATCH_SIZE (a :: l)) s)).
  destruct (emit_same t (take MAX_BATCH_SIZE (a :: l)) s). constructor; congruence.
Qed.

Lemma emitted_chunks t fuel t' l s :
  length l <= fuel -> emittedOf t (chunks fuel t' l s) = emittedOf t s ++ onTask t t' l.
Proof.
  revert l s. induction fuel as [|fuel IH]; intros [|a l] s Hf; try (cbn in Hf; lia);
    try (unfold onTask; case_decide; cbn; by rewrite app_nil_r).
  cbn [chunks]. rewrite IH by (rewrite length_drop; cbn [length] in *; unfold MAX_BATCH_SIZE; lia).
  rewrite emitted_emit, <- app_assoc. f_equal. unfold onTask. case_decide; [|done]. apply take_drop.
Qed.

(** ** The invariant of a task *)

Definition lastOnes {A} (l : list A) : list A := drop (length l - HISTORY_BUFFER_SIZE) l.

Record delivered (t : string) (s : State) : Prop := {
  dl_timer : pendingOf t s <> [] -> JsMap.has t (batchTimers s) = true;
  dl_sent : logWrite <$> (emittedOf t s ++ pendingOf t s) ≡ₚ persistedOf t s;
  dl_history : logWrite <$> historyOf t s = lastOnes (persistedOf t s);
}.

Lemma lastOnes_snoc {A} (l : list A) x : lastOnes (lastOnes l ++ [x]) = lastOnes (l ++ [x]).
Proof.
  unfold lastOnes, HISTORY_BUFFER_SIZE. rewrite !length_app, length_drop. cbn [length].
  rewrite !drop_app, drop_drop, length_drop. f_equal; f_equal; lia.
Qed.

(** What is observed of a task. *)
Definition view (t : string) (s : State) :=
  (pendingOf t s, emittedOf t s, persistedOf t s, historyOf t s, JsMap.has t (batchTimers s)).

Lemma delivered_view t s s' : view t s' = view t s -> delivered t s -> delivered t s'.
Proof. unfold view. intros [= H1 H2 H3 H4 H5] [D1 D2 D3]. constructor; by rewrite ?H1, ?H2, ?H3, ?H4, ?H5. Qed.

Lemma throttle_view now t t' ty s : view t (shouldThrottle now t' ty s).2 = view t s.
Proof. unfold shouldThrottle. destruct (negb _); [done|]. by destruct (_ <? _)%Z. Qed.

Lemma has_set_ne {V} k k' (v : V) m : k <> k' -> JsMap.has k' (JsMap.set k v m) = JsMap.has k' m.
Proof. intros Hne. unfold JsMap.has. by rewrite JsMap.get_set_ne. Qed.

Lemma has_delete_ne {V} k k' (m : JsMap.t V) : k <> k' -> JsMap.has k' (JsMap.delete k m) = JsMap.has k' m.
Proof. intros Hne. unfold JsMap.has. by rewrite JsMap.get_delete_ne. Qed.

Lemma get_default_ne {V} k k' (v : list V) m : k <> k' -> default [] (JsMap.get k' (JsMap.set k v m)) = default [] (JsMap.get k' m).
Proof. intros Hne. by rewrite JsMap.get_set_ne. Qed.

Lemma persisted_add t t' a s : persistedOf t (addToHistory t' a s) = persistedOf t s ++ onTask t t' [logWrite a].
Proof.
  unfold persistedOf. cbn [addToHistory persisted]. rewrite list.filter_app, fmap_app. f_equal.
  rewrite list.filter_cons. unfold onTask. cbn [fst]. by case_decide.
Qed.

Lemma history_add t t' a s :
  historyOf t (addToHistory t' a s) = if decide (t' = t) then lastOnes (historyOf t s ++ [a]) else historyOf t s.
Proof.
  unfold historyOf at 1. cbn [addToHistory historyBuffer]. case_decide as Ht; [subst; by rewrite JsMap.get_set_eq|].
  by rewrite JsMap.get_set_ne.
Qed.

(** The history after an activity was added. *)
Lemma history_kept t t' a s :
  logWrite <$> historyOf t s = lastOnes (persistedOf t s) ->
  logWrite <$> historyOf t (addToHistory t' a s) = lastOnes (persistedOf t (addToHistory t' a s)).
Proof.
  intros Hh. rewrite history_add, persisted_add. unfold onTask. case_decide; [|by rewrite app_nil_r].
  rewrite <- (lastOnes_snoc (persistedOf t s)), <- Hh. unfold lastOnes. by rewrite fmap_drop, fmap_app, !length_app, !length_fmap.
Qed.

Lemma stream_delivered now t' ty c o t s : delivered t s -> delivered t (stream now t' ty c o s).
Proof.
  intros Hd. unfold stream. set (a := activity _ _ _ _ _ _).
  assert (Hd2 : delivered t (shouldThrottle now t' ty (nextId s)).2).
  { eapply delivered_view; [apply throttle_view|]. by apply (delivered_view t s). }
  destruct (shouldThrottle now t' ty (nextId s)) as [[] s2]; [done|]. cbn [snd] in Hd2. destruct Hd2 as [D1 D2 D3].
  pose proof (history_kept t t' a s2 D3) as Hh. destruct (op_immediate o || isHighPriorityEvent ty).
  - set (s3 := addToHistory t' a s2) in *. destruct (emit_same t' [a] s3) as [E1 E2 E3 _ E5]. constructor.
    + unfold pendingOf. rewrite E1, E2. exact D1.
    + rewrite emitted_emit.
      replace (pendingOf t (emitActivities t' [a] s3)) with (pendingOf t s2) by (unfold pendingOf; by rewrite E1).
      replace (persistedOf t (emitActivities t' [a] s3)) with (persistedOf t s3) by (unfold persistedOf; by rewrite E5).
      unfold s3 at 2. rewrite persisted_add, <- D2. change (emittedOf t s3) with (emittedOf t s2).
      unfold onTask. case_decide; [|by rewrite !app_nil_r].
      rewrite !fmap_app. cbn. solve_Permutation.
    + unfold historyOf, persistedOf. rewrite E3, E5. exact Hh.
  - set (s3 := addToHistory t' a s2) in *.
    set (s4 := withPending (JsMap.set t' (pendingOf t' s3 ++ [a]) (pendingActivities s3)) (batchTimers s3) s3).
    assert (Hp : pendingOf t s4 = pendingOf t s2 ++ onTask t t' [a]).
    { unfold pendingOf at 1. cbn [s4 withPending pendingActivities]. unfold onTask. case_decide as Ht.
      - subst t'. by rewrite JsMap.get_set_eq.
      - rewrite JsMap.get_set_ne by done. by rewrite app_nil_r. }
    assert (Hsent : logWrite <$> (emittedOf t s4 ++ pendingOf t s4) ≡ₚ persistedOf t s4).
    { change (emittedOf t s4) with (emittedOf t s2). change (persistedOf t s4) with (persistedOf t s3).
      rewrite Hp. unfold s3. rewrite persisted_add, <- D2. unfold onTask. case_decide; [|by rewrite !app_nil_r].
      by rewrite app_assoc, !fmap_app. }
    assert (Ht : forall s', batchTimers s' = batchTimers s4 \/ batchTimers s' = JsMap.set t' tt (batchTimers s4) ->
                 (t' = t -> JsMap.has t (batchTimers s') = true) -> pendingOf t s' = pendingOf t s4 ->
                 pendingOf t s' <> [] -> JsMap.has t (batchTimers s') = true).
    { intros s' Hb Hs Hps Hne. destruct (decide (t' = t)) as [|Hn]; [auto|]. rewrite Hps, Hp in Hne. unfold onTask in Hne.
      rewrite decide_False, app_nil_r in Hne by done. specialize (D1 Hne). destruct Hb as [->| ->]; [done|].
      by rewrite has_set_ne. }
    unfold scheduleBatchFlush. destruct (JsMap.has t' (batchTimers s4)) eqn:Hh4.
    + constructor; [apply Ht; [by left|by intros <-|done]|done|exact Hh].
    + constructor; [apply Ht; [by right| |done]|done|exact Hh]. intros <-. cbn [withPending batchTimers].
      apply JsMap.has_spec. rewrite JsMap.get_set_eq. eauto.
Qed.

Lemma timer_delivered t' t s : delivered t s -> delivered t (timerFires t' s).
Proof.
  intros Hd. unfold timerFires. destruct (JsMap.has t' (batchTimers s)) eqn:Hb; [|done].
  set (m := match JsMap.get t' (pendingActivities s) with Some _ => _ | None => _ end).
  set (s1 := withPending m _ s). destruct Hd as [D1 D2 D3].
  assert (Hm : default [] (JsMap.get t m) = if decide (t' = t) then [] else pendingOf t s).
  { unfold m, pendingOf. destruct (JsMap.get t' (pendingActivities s)) eqn:Hg; case_decide; subst; try done.
    - by rewrite JsMap.get_set_eq.
    - by rewrite JsMap.get_set_ne.
    - by rewrite Hg. }
  assert (Hs : emittedOf t (chunks (length (pendingOf t' s)) t' (pendingOf t' s) s1) =
               emittedOf t s ++ onTask t t' (pendingOf t' s)) by exact (emitted_chunks t _ t' _ s1 (le_n _)).
  destruct (chunks_same (length (pendingOf t' s)) t' (pendingOf t' s) s1) as [E1 E2 E3 _ E5].
  set (s2 := chunks _ _ _ _) in *.
  assert (Hp : pendingOf t s2 = if decide (t' = t) then [] else pendingOf t s) by (unfold pendingOf at 1; by rewrite E1).
  assert (Hq : persistedOf t s2 = persistedOf t s) by (unfold persistedOf; by rewrite E5).
  constructor.
  - rewrite Hp, E2. cbn [s1 withPending batchTimers]. case_decide as Ht; [done|]. rewrite has_delete_ne by done. exact D1.
  - rewrite Hs, Hp, Hq, <- D2. unfold onTask.
    case_decide; [subst|]; by rewrite app_nil_r.
  - unfold historyOf, persistedOf. rewrite E3, E5. exact D3.
Qed.

Lemma flush_delivered t' t s : delivered t s -> delivered t (flush t' s).
Proof.
  intros Hd. unfold flush. destruct (pendingOf t' s) as [|a l] eqn:Hp; [done|]. rewrite <- Hp.
  set (pending := pendingOf t' s). set (s1 := emitActivities t' pending s). destruct Hd as [D1 D2 D3].
  destruct (emit_same t' pending s) as [E1 E2 E3 _ E5]. fold s1 in E1, E2, E3, E5. set (s2 := withPending _ _ s1).
  assert (Hm : pendingOf t s2 = if decide (t' = t) then [] else pendingOf t s).
  { unfold pendingOf at 1. cbn [s2 withPending pendingActivities]. rewrite E1. case_decide; subst;
      [by rewrite JsMap.get_set_eq|by rewrite JsMap.get_set_ne]. }
  constructor.
  - rewrite Hm. cbn [s2 withPending batchTimers]. rewrite E2. by case_decide.
  - rewrite Hm. change (emittedOf t s2) with (emittedOf t s1). change (persistedOf t s2) with (persistedOf t s1).
    unfold persistedOf. rewrite E5. fold (persistedOf t s). rewrite <- D2. unfold s1. rewrite emitted_emit. unfold onTask.
    case_decide; [subst; by rewrite app_nil_r|by rewrite app_nil_r].
  - unfold historyOf, persistedOf. cbn [s2 withPending historyBuffer persisted]. rewrite E3, E5. exact D3.
Qed.

Lemma clear_delivered t' t s : t' <> t -> delivered t s -> delivered t (clearHistory t' s).
Proof.
  intros Hne. apply delivered_view. unfold view, pendingOf, historyOf, emittedOf, persistedOf. cbn.
  by rewrite !JsMap.get_delete_ne, has_delete_ne by done.
Qed.

Lemma run_delivered t l s : TClear t ∉ l -> delivered t s -> delivered t (run l s).
Proof.
  revert s. induction l as [|x l IH]; intros s Hl Hd; [done|]. apply not_elem_of_cons in Hl as [Hx Hl]. cbn [run fold_left].
  apply IH; [done|]. destruct x; cbn [step];
    [by apply stream_delivered|by apply timer_delivered|by apply flush_delivered|].
  apply clear_delivered; [congruence|done].
Qed.

Lemma init_delivered t : delivered t init.
Proof. by constructor. Qed.

Lemma timer_drains t s : delivered t s -> pendingOf t (timerFires t s) = [].
Proof.
  intros [D1 _ _]. unfold timerFires. destruct (JsMap.has t (batchTimers s)) eqn:Hb.
  - unfold pendingOf at 1. rewrite (sb_pending _ _ (chunks_same _ _ _ _)). cbn [withPending pendingActivities].
    destruct (JsMap.get t (pendingActivities s)) eqn:Hg; [by rewrite JsMap.get_set_eq|by rewrite Hg].
  - destruct (pendingOf t s); [done|]. by assert (false = true) by by apply D1.
Qed.

Lemma timer_persisted t t' s : persistedOf t (timerFires t' s) = persistedOf t s.
Proof.
  unfold timerFires. destruct (JsMap.has t' (batchTimers s)); [|done].
  unfold persistedOf. by rewrite (sb_persisted _ _ (chunks_same _ _ _ _)).
Qed.

Lemma emit_persisted t t' l s : persistedOf t (emitActivities t' l s) = persistedOf t s.
Proof. unfold persistedOf. by rewrite (sb_persisted _ _ (emit_same _ _ _)). Qed.

Lemma schedule_persisted t t' s : persistedOf t (scheduleBatchFlush t' s) = persistedOf t s.
Proof. unfold scheduleBatchFlush. by destruct (JsMap.has _ _). Qed.

(** The time the throttle remembers for a task and a type. *)
Definition lastTime (t : string) (ty : ActivityType) (s : State) : Z :=
  default 0%Z (JsMap.get (throttleKey t ty) (lastEmitTime s)).

Definition throttled (now : Z) (t : string) (ty : ActivityType) (s : State) : bool :=
  bool_decide (ty ∈ highFreqTypes) && (now - lastTime t ty s <? HIGH_FREQ_THROTTLE_MS)%Z.

Lemma shouldThrottle_fst now t ty s : (shouldThrottle now t ty s).1 = throttled now t ty s.
Proof.
  unfold shouldThrottle, throttled, lastTime. destruct (bool_decide (ty ∈ highFreqTypes)); [cbn|done].
  by destruct (_ <? _)%Z.
Qed.

(** What an activity leaves in the log: an entry unless it was throttled. *)
Lemma stream_logs now t ty c o s :
  persistedOf t (stream now t ty c o s) =
    persistedOf t s ++ if throttled now t ty s then [] else [logWrite (activity now t ty c o (S (activityCounter s)))].
Proof.
  unfold stream. pose proof (shouldThrottle_fst now t ty (nextId s)) as Hf.
  pose proof (throttle_view now t t ty (nextId s)) as Hv.
  change (throttled now t ty (nextId s)) with (throttled now t ty s) in Hf.
  destruct (shouldThrottle now t ty (nextId s)) as [b s2]. cbn [fst snd] in *. subst b. unfold view in Hv.
  injection Hv as _ _ Hp _ _. change (persistedOf t (nextId s)) with (persistedOf t s) in Hp.
  destruct (throttled now t ty s); [by rewrite app_nil_r|]. cbn [activityCounter nextId].
  set (a := activity _ _ _ _ _ _). assert (Ha : persistedOf t (addToHistory t a s2) = persistedOf t s ++ [logWrite a]).
  { rewrite persisted_add, Hp. unfold onTask. by rewrite decide_True. }
  destruct (_ || _); [by rewrite emit_persisted|by rewrite schedule_persisted].
Qed.

(** C20 Activity stream: whatever sequence of activities, timers and flushes a
    task has seen, and whatever happened to the other tasks in between (only
    clearing the task itself is excluded): the activities sent to the room
    together with those still waiting are, up to order, exactly the ones
    logged; when something waits a timer is pending, and once it fires
    everything logged has been sent; the history for reconnecting clients is
    the last 200 of the log; and a new activity is logged exactly when it is
    not a high frequency one within 50 ms of the last of its kind. *)
Theorem activity_stream_delivers t l s now ty c o :
  s = run l init ->
  TClear t ∉ l ->
  logWrite <$> (emittedOf t s ++ pendingOf t s) ≡ₚ persistedOf t s /\
  (pendingOf t s <> [] -> JsMap.has t (batchTimers s) = true) /\
  pendingOf t (timerFires t s) = [] /\
  logWrite <$> emittedOf t (timerFires t s) ≡ₚ persistedOf t s /\
  logWrite <$> getHistory t None s = lastOnes (persistedOf t s) /\
  persistedOf t (stream now t ty c o s) =
    persistedOf t s ++ if throttled now t ty s then [] else [logWrite (activity now t ty c o (S (activityCounter s)))].
Proof.
  intros -> Hl. pose proof (run_delivered t l init Hl (init_delivered t)) as Hd.
  pose proof (timer_delivered t t _ Hd) as Ht. pose proof (timer_drains t _ Hd) as Hz.
  pose proof (dl_sent _ _ Ht) as Hs. rewrite Hz, app_nil_r, timer_persisted in Hs.
  destruct Hd as [D1 D2 D3]. repeat split; auto. apply stream_logs.
Qed.

Definition quiet : Options := options None None false.

Definition busy : list Step :=
  [TStream 1000 "t" info "a" quiet; TStream 1001 "u" info "b" quiet; TStream 1002 "t" phase_start "c" quiet;
   TStream 1003 "t" output "d" quiet; TClear "u"; TStream 1020 "t" output "e" quiet; TFlush "t";
   TStream 1100 "t" output "f" quiet].

Lemma activity_stream_delivers_witness :
  (ac_content <$> emittedOf "t" (run busy init)) = ["c"; "a"; "d"] /\
  (ac_content <$> pendingOf "t" (run busy init)) = ["f"] /\
  length (persistedOf "t" (stream 1120 "t" output "g" quiet (run busy init))) = 4 /\
  length (persistedOf "t" (stream 1150 "t" output "g" quiet (run busy init))) = 5.
Proof.
  assert (Hl : TClear "t" ∉ busy) by (unfold busy; rewrite !elem_of_cons, elem_of_nil; naive_solver).
  split; [vm_compute; reflexivity|]. split; [vm_compute; reflexivity|].
  destruct (activity_stream_delivers "t" busy (run busy init) 1120 output "g" quiet eq_refl Hl) as (_&_&_&_&_&->).
  destruct (activity_stream_delivers "t" busy (run busy init) 1150 output "g" quiet eq_refl Hl) as (_&_&_&_&_&->).
  split; vm_compute; reflexivity.
Defined.

End StreamSpec.
