(* ===== verification/ContextCache.v ===== *)
(** * Context cache (src/services/context/ContextCacheService.ts)

    The cached files of a project, the scan that builds them, the comparison
    with the file system that refreshes them in the background, and eviction.
    Contexts are mutable objects the callers keep a reference to: they live in
    a heap, and the cache holds references. The file system is a tree, given
    anew to every step; a root path is absolute and normalised, so that
    [path.relative(root, path.join(dir, name))] is the path below the root. *)

From S2P Require Import Prelude AgentSpy.
From Stdlib Require Import QArith.
From stdpp Require Import list sorting options.

Module ContextCache.

(** ** File system *)

Record Stats := { st_size : Z; st_mtimeMs : Z }.

(** [None]: the call throws. A directory that cannot be listed can still be
    walked through by a path. *)
Inductive Node :=
  | NFile (st : option Stats) (content : option string)
  | NDir (readable : bool) (entries : list (string * Node))
  | NOther (st : option Stats) (content : option string).

Definition childOf (name : string) (entries : list (string * Node)) : option Node :=
  snd <$> List.find (fun e => bool_decide (e.1 = name)) entries.

Fixpoint nodeAt (path : list string) (n : Node) : option Node :=
  match path, n with
  | [], _ => Some n
  | name :: path', NDir _ entries => x ← childOf name entries; nodeAt path' x
  | _ :: _, _ => None
  end.

(** [fs.stat] then [fs.readFile] of a node: both must succeed. *)
Definition readNode (n : Node) : option (Stats * string) :=
  match n with
  | NFile st c | NOther st c => s ← st; x ← c; Some (s, x)
  | NDir _ _ => None
  end.

Definition readAt (relativePath : string) (fs : Node) : option (Stats * string) :=
  nodeAt (JsStr.splitSlash relativePath) fs ≫= readNode.

(** The path of an entry below the root, and in full. *)
Definition relative (dir name : string) : string := if JsStr.truthy dir then dir +:+ "/" +:+ name else name.
Definition join (rootPath relativePath : string) : string := rootPath +:+ "/" +:+ relativePath.

(** ** Types and constants *)

Record CachedFile := {
  cf_path : string;
  cf_relativePath : string;
  cf_hash : string;
  cf_content : string;
  cf_size : Z;
  cf_lastModified : Z;
  cf_cachedAt : Z;
}.

Inductive FileTreeNode :=
  | TFile (name path : string) (size : Z) (hash : string)
  | TDirectory (name path : string) (children : list FileTreeNode).

Record ProjectContext := {
  pc_projectId : string;
  pc_taskId : string;
  pc_rootPath : string;
  pc_files : JsMap.t CachedFile;
  pc_fileTree : list FileTreeNode;
  pc_totalSize : Z;
  pc_totalFiles : nat;
  pc_lastUpdated : Z;
  pc_ttlMs : Z;
}.

Record ContextDiff := {
  df_added : list string;
  df_modified : list string;
  df_deleted : list string;
  df_unchanged : list string;
}.

Record CacheStats := {
  cs_totalCaches : nat;
  cs_totalFiles : nat;
  cs_totalSizeBytes : Z;
  cs_hitRate : Q;
  cs_missRate : Q;
  cs_evictions : nat;
}.

Definition DEFAULT_TTL_MS : Z := 30 * 60 * 1000.
Definition MAX_CACHE_SIZE_MB : Z := 100.
Definition MAX_FILE_SIZE_KB : Z := 500.

Definition IGNORE_PATTERNS : list string :=
  ["node_modules"; ".git"; "dist"; "build"; ".next"; "__pycache__"; ".cache"; "coverage"; ".env"; ".env.local";
   "*.log"; "*.lock"; "package-lock.json"; "yarn.lock"; "pnpm-lock.yaml"].

Definition INCLUDE_EXTENSIONS : list string :=
  [".ts"; ".tsx"; ".js"; ".jsx"; ".mjs"; ".cjs"; ".py"; ".pyw"; ".go"; ".rs"; ".java"; ".kt"; ".cs"; ".rb"; ".php";
   ".swift"; ".c"; ".cpp"; ".h"; ".hpp"; ".json"; ".yaml"; ".yml"; ".toml"; ".md"; ".mdx"; ".sql"; ".graphql"; ".gql";
   ".prisma"; ".css"; ".scss"; ".sass"; ".less"; ".html"; ".htm"; ".vue"; ".svelte"].

Definition ignores (name relativePath pattern : string) : bool :=
  if JsStr.startsWith "*" pattern then JsStr.endsWith (JsStr.drop 1 pattern) name
  else bool_decide (name = pattern) || JsStr.includes pattern relativePath.

Definition shouldIgnore (name relativePath : string) : bool := existsb (ignores name relativePath) IGNORE_PATTERNS.

Definition included (name : string) : bool := bool_decide (AgentSpy.toLowerCase (AgentSpy.extname name) ∈ INCLUDE_EXTENSIONS).

(** The file of a scan: [stat], the size limit, then [readFile]. *)
Definition scannable (st : option Stats) (content : option string) : option (Stats * string) :=
  s ← st;
  if (MAX_FILE_SIZE_KB * 1024 <? st_size s)%Z then None else c ← content; Some (s, c).

Section WithHash.
(** [createHash('md5').update(content).digest('hex')] *)
Context (md5 : string -> string).

Definition hashContent (content : string) : string := JsStr.take 12 (md5 content).

Definition cachedFile (now : Z) (rootPath relativePath : string) (f : Stats * string) : CachedFile :=
  {| cf_path := join rootPath relativePath; cf_relativePath := relativePath; cf_hash := hashContent f.2;
     cf_content := f.2; cf_size := st_size f.1; cf_lastModified := st_mtimeMs f.1; cf_cachedAt := now |}.

(** ** Scans *)

Fixpoint scanDirectory (now : Z) (rootPath dir : string) (n : Node) (files : JsMap.t CachedFile)
    (tree : list FileTreeNode) {struct n} : JsMap.t CachedFile * list FileTreeNode :=
  match n with
  | NDir true entries =>
      (fix go (l : list (string * Node)) (files : JsMap.t CachedFile) (tree : list FileTreeNode) :=
         match l with
         | [] => (files, tree)
         | (name, x) :: l' =>
             let relativePath := relative dir name in
             if shouldIgnore name relativePath then go l' files tree
             else
               match x with
               | NDir _ _ =>
                   let '(files', children) := scanDirectory now rootPath relativePath x files [] in
                   go l' files' (tree ++ [TDirectory name relativePath children])
               | NFile st c =>
                   if negb (included name) then go l' files tree
                   else
                     match scannable st c with
                     | None => go l' files tree
                     | Some f =>
                         go l' (JsMap.set relativePath (cachedFile now rootPath relativePath f) files)
                           (tree ++ [TFile name relativePath (st_size f.1) (hashContent f.2)])
                     end
               | NOther _ _ => go l' files tree
               end
         end) entries files tree
  | _ => (files, tree)
  end.

Fixpoint scanForChanges (dir : string) (n : Node) (files : JsMap.t (string * Z)) {struct n} : JsMap.t (string * Z) :=
  match n with
  | NDir true entries =>
      (fix go (l : list (string * Node)) (files : JsMap.t (string * Z)) :=
         match l with
         | [] => files
         | (name, x) :: l' =>
             let relativePath := relative dir name in
             if shouldIgnore name relativePath then go l' files
             else
               match x with
               | NDir _ _ => go l' (scanForChanges relativePath x files)
               | NFile st c =>
                   if negb (included name) then go l' files
                   else
                     match scannable st c with
                     | None => go l' files
                     | Some f => go l' (JsMap.set relativePath (hashContent f.2, st_mtimeMs f.1) files)
                     end
               | NOther _ _ => go l' files
               end
         end) entries files
  | _ => files
  end.

Definition sumSizes (files : JsMap.t CachedFile) : Z :=
  fold_left (fun total f => (total + cf_size f)%Z) (JsMap.values files) 0%Z.

Definition buildContext (now : Z) (projectId taskId rootPath : string) (fs : Node) : ProjectContext :=
  let '(files, tree) := scanDirectory now rootPath EmptyString fs [] [] in
  {| pc_projectId := projectId; pc_taskId := taskId; pc_rootPath := rootPath; pc_files := files; pc_fileTree := tree;
     pc_totalSize := sumSizes files; pc_totalFiles := JsMap.size files; pc_lastUpdated := now; pc_ttlMs := DEFAULT_TTL_MS |}.

(** ** Changes *)

(** One cached file against the current ones, which lose it. *)
Definition compare (acc : ContextDiff * JsMap.t (string * Z)) (e : string * CachedFile)
    : ContextDiff * JsMap.t (string * Z) :=
  let '(d, current) := acc in
  let d' :=
    match JsMap.get e.1 current with
    | None => {| df_added := df_added d; df_modified := df_modified d; df_deleted := df_deleted d ++ [e.1];
                 df_unchanged := df_unchanged d |}
    | Some c =>
        if negb (bool_decide (c.1 = cf_hash e.2))
        then {| df_added := df_added d; df_modified := df_modified d ++ [e.1]; df_deleted := df_deleted d;
                df_unchanged := df_unchanged d |}
        else {| df_added := df_added d; df_modified := df_modified d; df_deleted := df_deleted d;
                df_unchanged := df_unchanged d ++ [e.1] |}
    end in
  (d', JsMap.delete e.1 current).

Definition detectChanges (files : JsMap.t CachedFile) (fs : Node) : ContextDiff :=
  let '(d, current) :=
    fold_left compare files
      ({| df_added := []; df_modified := []; df_deleted := []; df_unchanged := [] |}, scanForChanges EmptyString fs []) in
  {| df_added := df_added d ++ JsMap.keys current; df_modified := df_modified d; df_deleted := df_deleted d;
     df_unchanged := df_unchanged d |}.

Definition changed (d : ContextDiff) : bool :=
  match df_added d, df_modified d, df_deleted d with [], [], [] => false | _, _, _ => true end.

(** A file that cannot be read is left as it is. *)
Definition reread (now : Z) (rootPath : string) (fs : Node) (files : JsMap.t CachedFile) (relativePath : string)
    : JsMap.t CachedFile :=
  match readAt relativePath fs with
  | Some f => JsMap.set relativePath (cachedFile now rootPath relativePath f) files
  | None => files
  end.

Definition applyDiff (now : Z) (rootPath : string) (fs : Node) (d : ContextDiff) (c : ProjectContext) : ProjectContext :=
  let files := fold_left (fun m k => JsMap.delete k m) (df_deleted d) (pc_files c) in
  let files' := fold_left (reread now rootPath fs) (df_modified d ++ df_added d) files in
  {| pc_projectId := pc_projectId c; pc_taskId := pc_taskId c; pc_rootPath := pc_rootPath c; pc_files := files';
     pc_fileTree := pc_fileTree c; pc_totalSize := sumSizes files'; pc_totalFiles := JsMap.size files';
     pc_lastUpdated := now; pc_ttlMs := pc_ttlMs c |}.

(** ** The service *)

(** A background refresh: started, or about to apply what it found. *)
Inductive Job :=
  | JDetect (ref : nat) (rootPath : string)
  | JApply (ref : nat) (rootPath : string) (d : ContextDiff).

Record State := {
  heap : list ProjectContext;
  caches : JsMap.t nat;
  hits : nat;
  misses : nat;
  evictions : nat;
  jobs : list Job;
}.

Definition init : State := {| heap := []; caches := []; hits := 0; misses := 0; evictions := 0; jobs := [] |}.

Definition cacheKey (projectId taskId : string) : string := projectId +:+ ":" +:+ taskId.

(** A reference of the cache with its object. *)
Definition entries (s : State) : list (string * ProjectContext) :=
  omap (fun e => (fun c => (e.1, c)) <$> heap s !! e.2) (caches s).

Definition sizeOf (l : list (string * ProjectContext)) : Z :=
  fold_left (fun total e => (total + pc_totalSize e.2)%Z) l 0%Z.

Definition maxSizeBytes : Z := MAX_CACHE_SIZE_MB * 1024 * 1024.

(** [maxSizeBytes * 0.8], which is exact. *)
Definition keptSizeBytes : Z := 83886080.

Definition older (a b : string * ProjectContext) : Prop := (pc_lastUpdated a.2 <= pc_lastUpdated b.2)%Z.

#[export] Instance older_dec a b : Decision (older a b).
Proof. unfold older. apply _. Defined.

Fixpoint evictLoop (total : Z) (sorted : list (string * ProjectContext)) (m : JsMap.t nat) (evicted : nat)
    : JsMap.t nat * nat :=
  match sorted with
  | e :: sorted' =>
      if (keptSizeBytes <? total)%Z
      then evictLoop (total - pc_totalSize e.2) sorted' (JsMap.delete e.1 m) (S evicted)
      else (m, evicted)
  | [] => (m, evicted)
  end.

Definition evictIfNeeded (s : State) : State :=
  let totalSize := sizeOf (entries s) in
  if (maxSizeBytes <? totalSize)%Z then
    let '(m, n) := evictLoop totalSize (merge_sort older (entries s)) (caches s) (evictions s) in
    {| heap := heap s; caches := m; hits := hits s; misses := misses s; evictions := n; jobs := jobs s |}
  else s.

(** The entry of a key, when it may be used. *)
Definition usable (now : Z) (key : string) (forceRefresh : bool) (s : State) : option nat :=
  ref ← JsMap.get key (caches s);
  c ← heap s !! ref;
  if negb forceRefresh && negb (pc_ttlMs c <? now - pc_lastUpdated c)%Z then Some ref else None.

(** Returns the reference handed to the caller. *)
Definition getContext (now : Z) (projectId taskId rootPath : string) (forceRefresh : bool) (fs : Node) (s : State)
    : nat * State :=
  let key := cacheKey projectId taskId in
  match usable now key forceRefresh s with
  | Some ref =>
      (ref, {| heap := heap s; caches := caches s; hits := S (hits s); misses := misses s; evictions := evictions s;
               jobs := jobs s ++ [JDetect ref rootPath] |})
  | None =>
      let ref := length (heap s) in
      (ref, evictIfNeeded
              {| heap := heap s ++ [buildContext now projectId taskId rootPath fs]; caches := JsMap.set key ref (caches s);
                 hits := hits s; misses := S (misses s); evictions := evictions s; jobs := jobs s |})
  end.

Definition withJobs (h : list ProjectContext) (l : list Job) (s : State) : State :=
  {| heap := h; caches := caches s; hits := hits s; misses := misses s; evictions := evictions s; jobs := l |}.

(** The [i]-th background job goes on. *)
Definition runJob (now : Z) (i : nat) (fs : Node) (s : State) : State :=
  match jobs s !! i with
  | Some (JDetect ref rootPath) =>
      match heap s !! ref with
      | Some c =>
          let d := detectChanges (pc_files c) fs in
          if changed d then withJobs (heap s) (<[i := JApply ref rootPath d]> (jobs s)) s
          else withJobs (heap s) (delete i (jobs s)) s
      | None => s
      end
  | Some (JApply ref rootPath d) =>
      withJobs (alter (applyDiff now rootPath fs d) ref (heap s)) (delete i (jobs s)) s
  | None => s
  end.

Definition invalidate (projectId : string) (taskId : option string) (s : State) : State :=
  let m := match JsStr.orNull taskId with
           | Some t => JsMap.delete (cacheKey projectId t) (caches s)
           | None => JsMap.deleteWhere (fun k _ => JsStr.startsWith (projectId +:+ ":") k) (caches s)
           end in
  {| heap := heap s; caches := m; hits := hits s; misses := misses s; evictions := evictions s; jobs := jobs s |}.

Definition rate (n total : nat) : Q := if 0 <? total then (Z.of_nat n # Pos.of_nat total)%Q else 0%Q.

Definition getStats (s : State) : CacheStats :=
  {| cs_totalCaches := JsMap.size (caches s);
     cs_totalFiles := fold_left (fun n e => n + pc_totalFiles e.2) (entries s) 0;
     cs_totalSizeBytes := sizeOf (entries s); cs_hitRate := rate (hits s) (hits s + misses s);
     cs_missRate := rate (misses s) (hits s + misses s); cs_evictions := evictions s |}.

Definition clear (s : State) : State :=
  {| heap := heap s; caches := []; hits := 0; misses := 0; evictions := 0; jobs := jobs s |}.

(** ** Views of a context *)

Inductive ContextPhase := PAnalysis | PDeveloper | PTest | PReview.

Definition isTest (path : string) : bool :=
  JsStr.includes ".test." path || JsStr.includes ".spec." path || JsStr.includes "__tests__" path.

Definition forPhase (phase : ContextPhase) (path : string) : bool :=
  match phase with
  | PAnalysis | PReview => true
  | PDeveloper => negb (isTest path)
  | PTest => isTest path || JsStr.endsWith ".ts" path || JsStr.endsWith ".js" path || JsStr.endsWith ".py" path
  end.

Definition getContextForPhase (c : ProjectContext) (phase : ContextPhase) : JsMap.t CachedFile :=
  fold_left (fun m e => if forPhase phase e.1 then JsMap.set e.1 e.2 m else m) (pc_files c) [].

(** ** Steps *)

Inductive Step :=
  | CGet (now : Z) (projectId taskId rootPath : string) (forceRefresh : bool) (fs : Node)
  | CJob (now : Z) (i : nat) (fs : Node)
  | CInvalidate (projectId : string) (taskId : option string)
  | CClear.

Definition step (x : Step) (s : State) : State :=
  match x with
  | CGet now projectId taskId rootPath force fs => (getContext now projectId taskId rootPath force fs s).2
  | CJob now i fs => runJob now i fs s
  | CInvalidate projectId taskId => invalidate projectId taskId s
  | CClear => clear s
  end.

Definition run (l : list Step) (s : State) : State := fold_left (fun s x => step x s) l s.

End WithHash.
End ContextCache.
