(* ===== verification/ContextCacheProofs.v ===== *)
(** * Properties of the context cache

    A background refresh brings a context to what a new scan would find, and
    the cache stays within its limit. *)

From S2P Require Import Prelude ExecutionTracker ContextCache.
From stdpp Require Import list sorting pretty options.

Module CacheSpec.
Import Rows ContextCache.

(** ** Paths *)

Definition validName (s : string) : bool :=
  JsStr.truthy s && negb (JsStr.includes "/" s).

Definition pathOf (ns : list string) : string := fold_left relative ns EmptyString.

Lemma pathOf_snoc ds name : pathOf (ds ++ [name]) = relative (pathOf ds) name.
Proof. unfold pathOf. by rewrite fold_left_app. Qed.

Lemma split_pathOf ns : ns <> [] -> forallb validName ns = true -> JsStr.splitSlash (pathOf ns) = ns.
Proof.
  induction ns as [|name ns IH] using rev_ind; [done|]. intros _. rewrite forallb_app. cbn [forallb]. rewrite andb_true_r.
  intros [Hns Hv]%andb_true_iff. unfold validName in Hv. apply andb_true_iff in Hv as [Ht Hn]. apply negb_true_iff in Hn.
  rewrite pathOf_snoc. unfold relative. destruct (JsStr.truthy (pathOf ns)) eqn:Hp.
  - rewrite JsStr.splitSlash_app, (JsStr.splitSlash_plain name) by done. f_equal. apply IH; [by intros ->|done].
  - destruct ns as [|x ns]; [by apply JsStr.splitSlash_plain|]. exfalso.
    assert (Hs : JsStr.splitSlash (pathOf (x :: ns)) = x :: ns) by by apply IH.
    unfold JsStr.truthy in Hp. apply negb_false_iff, bool_decide_eq_true in Hp. rewrite Hp in Hs. cbn in Hs.
    injection Hs as <- <-. done.
Qed.

(** ** Trees *)

Lemma Node_nested_ind (P : Node -> Prop) :
  (forall st c, P (NFile st c)) -> (forall st c, P (NOther st c)) ->
  (forall r es, Forall (fun e => P e.2) es -> P (NDir r es)) -> forall n, P n.
Proof.
  intros Hf Ho Hd. fix go 1. intros [st c|r es|st c]; [apply Hf| |apply Ho]. apply Hd.
  induction es as [|[name x] es IH]; constructor; [apply go|exact IH].
Qed.

(** Names are valid and distinct in every directory. *)
Fixpoint wfNode (n : Node) : Prop :=
  match n with
  | NDir _ es =>
      NoDup es.*1 /\ forallb validName es.*1 = true /\
      (fix go l := match l with [] => True | (_, x) :: l' => wfNode x /\ go l' end) es
  | _ => True
  end.

Lemma wfNode_dir r es : wfNode (NDir r es) -> NoDup es.*1 /\ forallb validName es.*1 = true /\ Forall (fun e => wfNode e.2) es.
Proof.
  intros (H1 & H2 & H3). repeat split; [done..|]. clear H1 H2. induction es as [|[name x] es IH]; constructor; [|apply IH];
    by destruct H3.
Qed.

(** The files a scan takes, in order. *)
Fixpoint listing (ds : list string) (n : Node) : list (list string * (Stats * string)) :=
  match n with
  | NDir true es =>
      (fix go l :=
         match l with
         | [] => []
         | (name, x) :: l' =>
             (if shouldIgnore name (pathOf (ds ++ [name])) then []
              else match x with
                   | NDir _ _ => listing (ds ++ [name]) x
                   | NFile st c =>
                       if negb (included name) then []
                       else match scannable st c with Some f => [(ds ++ [name], f)] | None => [] end
                   | NOther _ _ => []
                   end) ++ go l'
         end) es
  | _ => []
  end.

Definition entryListing (ds : list string) (e : string * Node) : list (list string * (Stats * string)) :=
  if shouldIgnore e.1 (pathOf (ds ++ [e.1])) then []
  else match e.2 with
       | NDir _ _ => listing (ds ++ [e.1]) e.2
       | NFile st c =>
           if negb (included e.1) then []
           else match scannable st c with Some f => [(ds ++ [e.1], f)] | None => [] end
       | NOther _ _ => []
       end.

Lemma listing_dir ds es : listing ds (NDir true es) = mjoin (entryListing ds <$> es).
Proof. cbn [listing]. induction es as [|[name x] es IH]; [done|]. cbn [fmap list_fmap mjoin list_join]. by rewrite IH. Qed.

(** ** Scans are listings *)

Definition addAll {V} (g : string -> Stats * string -> V) (l : list (list string * (Stats * string))) (m : JsMap.t V) : JsMap.t V :=
  fold_left (fun m e => JsMap.set (pathOf e.1) (g (pathOf e.1) e.2) m) l m.

Section Scans.
Context (md5 : string -> string).

Lemma scan_listing now root n ds files tree :
  (scanDirectory md5 now root (pathOf ds) n files tree).1 = addAll (cachedFile md5 now root) (listing ds n) files.
Proof.
  revert ds files tree. induction n as [st c|st c|r es IH] using Node_nested_ind; intros ds files tree; [done..|].
  destruct r; [|done]. rewrite listing_dir. cbn [scanDirectory]. revert files tree.
  induction IH as [|[name x] es Hx _ IHes]; intros files tree; [done|].
  cbn [fmap list_fmap mjoin list_join]. unfold addAll. rewrite fold_left_app. fold (addAll (cachedFile md5 now root)).
  rewrite <- pathOf_snoc. unfold entryListing at 2. cbn [fst snd].
  destruct (shouldIgnore name (pathOf (ds ++ [name]))); [apply IHes|].
  destruct x as [st c|r' es'|st c]; [| |apply IHes].
  - destruct (negb (included name)); [apply IHes|]. destruct (scannable st c); [|apply IHes]. apply IHes.
  - pose proof (Hx (ds ++ [name]) files []) as Hr. cbn [snd] in Hr.
    destruct (scanDirectory md5 now root (pathOf (ds ++ [name])) (NDir r' es') files []) as [files' children].
    cbn [fst] in Hr. subst files'. apply IHes.
Qed.

Lemma changes_listing n ds files :
  scanForChanges md5 (pathOf ds) n files = addAll (fun _ f => (hashContent md5 f.2, st_mtimeMs f.1)) (listing ds n) files.
Proof.
  revert ds files. induction n as [st c|st c|r es IH] using Node_nested_ind; intros ds files; [done..|].
  destruct r; [|done]. rewrite listing_dir. cbn [scanForChanges]. revert files.
  induction IH as [|[name x] es Hx _ IHes]; intros files; [done|].
  cbn [fmap list_fmap mjoin list_join]. unfold addAll. rewrite fold_left_app. fold (@addAll (string * Z)).
  rewrite <- pathOf_snoc. unfold entryListing at 2. cbn [fst snd].
  destruct (shouldIgnore name (pathOf (ds ++ [name]))); [apply IHes|].
  destruct x as [st c|r' es'|st c]; [| |apply IHes].
  - destruct (negb (included name)); [apply IHes|]. destruct (scannable st c); [|apply IHes]. apply IHes.
  - cbn [snd] in Hx. rewrite Hx. apply IHes.
Qed.

End Scans.
(** ** What a listing holds *)

Lemma entry_listing_spec ds e p f :
  wfNode e.2 -> (forall ds' p' f', (p', f') ∈ listing ds' e.2 ->
    exists ns st c, p' = ds' ++ ns /\ ns <> [] /\ forallb validName ns = true /\
      nodeAt ns e.2 = Some (NFile st c) /\ scannable st c = Some f') ->
  validName e.1 = true ->
  (p, f) ∈ entryListing ds e ->
  exists ns st c, p = ds ++ e.1 :: ns /\ forallb validName (e.1 :: ns) = true /\
    nodeAt ns e.2 = Some (NFile st c) /\ scannable st c = Some f.
Proof.
  intros Hwf IH Hv. unfold entryListing. destruct (shouldIgnore _ _); [by intros ?%elem_of_nil|].
  destruct e as [name x]. cbn [fst snd] in *. destruct x as [st c|r' es'|st c].
  - destruct (negb (included name)); [by intros ?%elem_of_nil|].
    destruct (scannable st c) as [f'|] eqn:Hs; [|by intros ?%elem_of_nil].
    intros [= -> ->]%list_elem_of_singleton. exists [], st, c. cbn. by rewrite Hv.
  - intros Hin. destruct (IH _ _ _ Hin) as (ns & st & c & -> & Hne & Hns & Hat & Hsc). exists ns, st, c.
    cbn [forallb]. by rewrite Hv, Hns, <- app_assoc.
  - by intros ?%elem_of_nil.
Qed.

Lemma childOf_elem name x es : NoDup es.*1 -> (name, x) ∈ es -> childOf name es = Some x.
Proof.
  unfold childOf. induction es as [|[n y] es IH]; [by intros _ ?%elem_of_nil|]. cbn [fmap list_fmap List.find fst].
  intros [Hn Hd]%list.NoDup_cons [[= -> ->]|Hin]%elem_of_cons; [by rewrite bool_decide_eq_true_2|].
  rewrite bool_decide_eq_false_2; [by apply IH|]. intros ->. apply Hn. by apply (list_elem_of_fmap_2 fst) in Hin.
Qed.

Lemma listing_spec n ds p f :
  wfNode n -> (p, f) ∈ listing ds n ->
  exists ns st c, p = ds ++ ns /\ ns <> [] /\ forallb validName ns = true /\
    nodeAt ns n = Some (NFile st c) /\ scannable st c = Some f.
Proof.
  revert ds p f. induction n as [st c|st c|r es IH] using Node_nested_ind; intros ds p f Hwf; [by intros ?%elem_of_nil..|].
  destruct r; [|by intros ?%elem_of_nil]. apply wfNode_dir in Hwf as (Hnd & Hval & Hsub). rewrite listing_dir.
  intros (l & Hp & Hl)%list_elem_of_join. apply list_elem_of_fmap in Hl as ([name x] & -> & Hin).
  rewrite list.Forall_forall in IH, Hsub. rewrite forallb_forall in Hval.
  assert (Hv : validName name = true) by (apply Hval, list_elem_of_In; by apply (list_elem_of_fmap_2 fst) in Hin).
  destruct (entry_listing_spec ds (name, x) p f) as (ns & st & c & -> & Hns & Hat & Hsc); auto.
  exists (name :: ns), st, c. repeat split; try done. cbn [nodeAt]. by rewrite (childOf_elem name x).
Qed.

Lemma entry_below ds e p f : wfNode e.2 -> validName e.1 = true -> (p, f) ∈ entryListing ds e -> exists ns, p = ds ++ e.1 :: ns.
Proof.
  intros Hwf Hv Hin. destruct (entry_listing_spec ds e p f) as (ns & _ & _ & -> & _); eauto.
  intros. by apply listing_spec.
Qed.

Lemma listing_NoDup n ds : wfNode n -> NoDup (listing ds n).*1.
Proof.
  revert ds. induction n as [st c|st c|r es IH] using Node_nested_ind; intros ds Hwf; [constructor..|].
  destruct r; [|constructor]. apply wfNode_dir in Hwf as (Hnd & Hval & Hsub). rewrite listing_dir.
  induction es as [|[name x] es IHes]; [constructor|]. cbn [fmap list_fmap mjoin list_join]. rewrite fmap_app.
  inversion Hsub as [|?? Hx Hsub']; inversion IH as [|?? IHx IH']; subst. cbn [fmap list_fmap forallb fst] in *.
  apply list.NoDup_cons in Hnd as [Hn Hnd]. apply andb_true_iff in Hval as [Hv Hval]. apply list.NoDup_app. repeat split.
  - unfold entryListing. cbn [fst snd]. destruct (shouldIgnore _ _); [constructor|].
    destruct x as [st c|r' es'|st c]; [|by apply IHx|constructor].
    destruct (negb _); [constructor|]. destruct (scannable st c); [apply NoDup_singleton|constructor].
  - intros p ([p1 f1] & -> & H1)%list_elem_of_fmap ([p2 f2] & Heq & H2)%list_elem_of_fmap. cbn [fst] in Heq. subst p2.
    apply entry_below in H1 as [ns1 ->]; [|done..].
    apply list_elem_of_join in H2 as (l & H2 & Hl). apply list_elem_of_fmap in Hl as ([name2 x2] & -> & Hin).
    rewrite list.Forall_forall in Hsub'. rewrite forallb_forall in Hval.
    assert (Hin' : name2 ∈ es.*1) by by apply (list_elem_of_fmap_2 fst) in Hin.
    apply entry_below in H2 as [ns2 H2]; [|by apply (Hsub' _ Hin)|by apply Hval, list_elem_of_In].
    cbn [fst] in H2. apply app_inv_head in H2. injection H2 as -> _. done.
  - by apply IHes.
Qed.

(** The paths of a listing from the root. *)
Definition flat (fs : Node) : JsMap.t (Stats * string) := (fun e => (pathOf e.1, e.2)) <$> listing [] fs.

Lemma flat_elem fs k f : wfNode fs -> (k, f) ∈ flat fs -> readAt k fs = Some f.
Proof.
  intros Hwf ([p f'] & [= -> ->] & Hin)%list_elem_of_fmap. apply listing_spec in Hin as (ns & st & c & -> & Hne & Hns & Hat & Hsc); [|done].
  unfold readAt. rewrite app_nil_l, split_pathOf, Hat by done. cbn [mbind option_bind readNode].
  unfold scannable in Hsc. destruct st as [s|]; [|done]. cbn [mbind option_bind] in *. destruct (_ <? _)%Z; [done|].
  by destruct c.
Qed.

Lemma flat_wf fs : wfNode fs -> JsMap.wf (flat fs).
Proof.
  intros Hwf. unfold JsMap.wf, JsMap.keys, flat. rewrite <- list_fmap_compose. change (fst ∘ _) with (pathOf ∘ @fst (list string) (Stats * string)).
  rewrite list_fmap_compose. apply NoDup_fmap_2_strong; [|by apply listing_NoDup].
  intros p1 p2 ([q1 f1] & -> & H1)%list_elem_of_fmap ([q2 f2] & -> & H2)%list_elem_of_fmap. cbn [fst].
  apply listing_spec in H1 as (n1 & _ & _ & -> & E1 & V1 & _); [|done].
  apply listing_spec in H2 as (n2 & _ & _ & -> & E2 & V2 & _); [|done].
  rewrite !app_nil_l. intros Heq. rewrite <- (split_pathOf n1), <- (split_pathOf n2) by done. by rewrite Heq.
Qed.

(** Filling a map from entries with distinct keys. *)
Lemma fill_fresh {A V} (g : string -> A -> V) (l : JsMap.t A) (m : JsMap.t V) :
  JsMap.wf l -> (forall k, k ∈ JsMap.keys l -> JsMap.get k m = None) ->
  fold_left (fun m e => JsMap.set e.1 (g e.1 e.2) m) l m = m ++ ((fun e => (e.1, g e.1 e.2)) <$> l).
Proof.
  unfold JsMap.wf, JsMap.keys. revert m. induction l as [|[k a] l IH]; intros m; [by rewrite app_nil_r|].
  cbn [fmap list_fmap fst snd fold_left]. intros [Hk Hl]%list.NoDup_cons Hm.
  rewrite JsMap.keys_set_fresh by apply Hm, list_elem_of_here. rewrite IH; [by rewrite <- app_assoc|done|].
  intros k' Hk'. rewrite <- JsMap.keys_set_fresh by apply Hm, list_elem_of_here.
  rewrite JsMap.get_set_ne by congruence. by apply Hm, list_elem_of_further.
Qed.

Lemma addAll_flat {V} (g : string -> Stats * string -> V) fs :
  wfNode fs -> addAll g (listing [] fs) [] = (fun e => (e.1, g e.1 e.2)) <$> flat fs.
Proof.
  intros Hwf. transitivity (fold_left (fun m e => JsMap.set e.1 (g e.1 e.2) m) (flat fs) []);
    [|by apply (fill_fresh g (flat fs) []); [apply flat_wf|]].
  unfold addAll, flat.
  generalize (@nil (string * V)). induction (listing [] fs) as [|[p f] l IH]; intros m; [done|]. apply IH.
Qed.

Lemma get_fmap {A V} (g : string -> A -> V) (l : JsMap.t A) k :
  JsMap.get k ((fun e => (e.1, g e.1 e.2)) <$> l) = g k <$> JsMap.get k l.
Proof. induction l as [|[k' a] l IH]; [done|]. cbn. case_decide; [by subst|]. exact IH. Qed.

(** ** Changes *)

Definition gone (current : JsMap.t (string * Z)) (e : string * CachedFile) : Prop := JsMap.get e.1 current = None.
Definition differs (current : JsMap.t (string * Z)) (e : string * CachedFile) : Prop :=
  match JsMap.get e.1 current with Some c => c.1 <> cf_hash e.2 | None => False end.

#[local] Instance gone_dec current e : Decision (gone current e).
Proof. unfold gone. apply _. Defined.
#[local] Instance differs_dec current e : Decision (differs current e).
Proof. unfold differs. destruct (JsMap.get e.1 current); apply _. Defined.

(** The loop over the cached files. *)
Lemma compare_loop l d current :
  NoDup l.*1 ->
  let r := fold_left compare l (d, current) in
  df_deleted r.1 = df_deleted d ++ (base.filter (gone current) l).*1 /\
  df_modified r.1 = df_modified d ++ (base.filter (differs current) l).*1 /\
  df_added r.1 = df_added d /\
  r.2 = base.filter (fun e => e.1 ∉ l.*1) current.
Proof.
  revert d current. induction l as [|[k a] l IH]; intros d current.
  - intros _. cbn. rewrite !app_nil_r. repeat split. symmetry. apply filter_all. intros e _ []%elem_of_nil.
  - cbn [fmap list_fmap fst]. intros [Hk Hl]%list.NoDup_cons. cbn [fold_left].
    destruct (compare (d, current) (k, a)) as [d1 cur1] eqn:Hc. cbn [compare fst snd] in Hc. injection Hc as Hd1 Hcur1.
    destruct (IH d1 cur1 Hl) as (E1 & E2 & E3 & E4). cbn zeta in *. rewrite E1, E2, E3, E4. clear IH E1 E2 E3 E4.
    assert (Hsame : forall e, e ∈ l -> JsMap.get e.1 cur1 = JsMap.get e.1 current).
    { intros e He. subst cur1. apply JsMap.get_delete_ne. intros Heq. apply Hk. rewrite Heq. by apply list_elem_of_fmap_2. }
    rewrite (filter_ext (gone cur1) (gone current) l) by (intros e He; unfold gone; by rewrite Hsame).
    rewrite (filter_ext (differs cur1) (differs current) l) by (intros e He; unfold differs; by rewrite Hsame).
    assert (Hcur : base.filter (fun e => e.1 ∉ l.*1) cur1 = base.filter (fun e => e.1 ∉ k :: l.*1) current).
    { subst cur1. unfold JsMap.delete. rewrite list_filter_filter. apply filter_ext. intros e _. rewrite not_elem_of_cons. tauto. }
    rewrite Hcur, !list.filter_cons. subst d1.
    destruct (JsMap.get k current) as [c|] eqn:Hg; [case_bool_decide as Hh|]; cbn [negb df_deleted df_modified df_added].
    + rewrite !decide_False by (unfold gone, differs; cbn [fst snd]; rewrite Hg; naive_solver). done.
    + rewrite decide_False, decide_True by (unfold gone, differs; cbn [fst snd]; rewrite Hg; naive_solver).
      cbn. by rewrite <- app_assoc.
    + rewrite decide_True, decide_False by (unfold gone, differs; cbn [fst snd]; rewrite Hg; naive_solver).
      cbn. by rewrite <- app_assoc.
Qed.

Lemma get_deletes {V} ks (m : JsMap.t V) k :
  JsMap.get k (fold_left (fun m k => JsMap.delete k m) ks m) = if decide (k ∈ ks) then None else JsMap.get k m.
Proof.
  revert m. induction ks as [|k' ks IH]; intros m; [by rewrite decide_False by apply not_elem_of_nil|].
  cbn [fold_left]. rewrite IH. destruct (decide (k = k')) as [->|Hne].
  - rewrite JsMap.get_delete_eq, (decide_True (P := k' ∈ k' :: ks)) by by left. by case_decide.
  - rewrite JsMap.get_delete_ne by congruence. destruct (decide (k ∈ ks)).
    + by rewrite decide_True by by right.
    + by rewrite decide_False by (rewrite elem_of_cons; naive_solver).
Qed.

Lemma wf_deletes {V} ks (m : JsMap.t V) : JsMap.wf m -> JsMap.wf (fold_left (fun m k => JsMap.delete k m) ks m).
Proof. revert m. induction ks as [|k ks IH]; intros m Hm; [done|]. by apply IH, JsMap.wf_delete. Qed.

Lemma elem_keys_filter {V} (P : string * V -> Prop) `{!forall e, Decision (P e)} (m : JsMap.t V) k :
  JsMap.wf m -> k ∈ (base.filter P m).*1 <-> exists v, JsMap.get k m = Some v /\ P (k, v).
Proof.
  intros Hm. rewrite list_elem_of_fmap. split.
  - intros ([k' v] & -> & [HP Hin]%list_elem_of_filter). exists v. split; [by apply JsMap.elem_get|done].
  - intros (v & Hg & HP). exists (k, v). split; [done|]. apply list_elem_of_filter. split; [done|]. by apply JsMap.get_Some_elem.
Qed.

Lemma evictLoop_sub sorted total m n e : e ∈ (evictLoop total sorted m n).1 -> e ∈ m.
Proof.
  revert total m n. induction sorted as [|x l IH]; intros total m n; [done|]. cbn [evictLoop].
  destruct (_ <? _)%Z; [|done]. intros [_ Hin]%IH%list_elem_of_filter. done.
Qed.

Lemma evictLoop_wf sorted total m n : JsMap.wf m -> JsMap.wf (evictLoop total sorted m n).1.
Proof.
  revert total m n. induction sorted as [|x l IH]; intros total m n Hm; [done|]. cbn [evictLoop].
  destruct (_ <? _)%Z; [|done]. by apply IH, JsMap.wf_delete.
Qed.

Lemma elem_set {V} k (v : V) m e : e ∈ JsMap.set k v m -> e.2 = v \/ e ∈ m.
Proof.
  induction m as [|[k' v'] m IH]; cbn; [by intros ->%list_elem_of_singleton; left|].
  case_decide; rewrite !elem_of_cons; [intros [->|]; auto|intros [->|Hin%IH]; tauto].
Qed.

Lemma size_keys {A B} (m : JsMap.t A) (m' : JsMap.t B) :
  JsMap.wf m -> JsMap.wf m' -> (forall k, JsMap.get k m = None <-> JsMap.get k m' = None) -> JsMap.size m = JsMap.size m'.
Proof.
  intros Hm Hm' Hk. unfold JsMap.size. rewrite <- (length_fmap fst m), <- (length_fmap fst m'). apply Permutation_length.
  apply NoDup_Permutation; [done..|]. intros k. specialize (Hk k). rewrite !JsMap.get_None_keys in Hk. unfold JsMap.keys in Hk.
  destruct (decide (k ∈ m.*1)), (decide (k ∈ m'.*1)); tauto.
Qed.

Section Refresh.
Context (md5 : string -> string).

(** The files a new scan takes. *)
Definition rescan (now : Z) (root : string) (fs : Node) : JsMap.t CachedFile := pc_files (buildContext md5 now EmptyString EmptyString root fs).

Lemma build_files now p t root fs : pc_files (buildContext md5 now p t root fs) = rescan now root fs.
Proof. unfold rescan, buildContext. by destruct (scanDirectory _ _ _ _ _ _ _). Qed.

Lemma rescan_flat now root fs : wfNode fs -> rescan now root fs = (fun e => (e.1, cachedFile md5 now root e.1 e.2)) <$> flat fs.
Proof.
  intros Hwf. rewrite <- (addAll_flat (cachedFile md5 now root)) by done. rewrite <- (scan_listing md5 now root fs [] [] []).
  unfold rescan, buildContext. cbn [pathOf fold_left]. by destruct (scanDirectory _ _ _ _ _ _ _).
Qed.

Lemma changes_flat fs :
  wfNode fs -> scanForChanges md5 EmptyString fs [] = (fun e => (e.1, (hashContent md5 e.2.2, st_mtimeMs e.2.1))) <$> flat fs.
Proof. intros Hwf. rewrite <- (addAll_flat (fun _ f => (hashContent md5 f.2, st_mtimeMs f.1))) by done. apply (changes_listing md5 fs []). Qed.

Lemma get_rescan now root fs k : wfNode fs -> JsMap.get k (rescan now root fs) = cachedFile md5 now root k <$> JsMap.get k (flat fs).
Proof. intros Hwf. rewrite rescan_flat by done. apply (get_fmap (cachedFile md5 now root)). Qed.

Lemma get_changes fs k :
  wfNode fs -> JsMap.get k (scanForChanges md5 EmptyString fs []) = (fun f => (hashContent md5 f.2, st_mtimeMs f.1)) <$> JsMap.get k (flat fs).
Proof. intros Hwf. rewrite changes_flat by done. apply (get_fmap (fun _ f => (hashContent md5 f.2, st_mtimeMs f.1))). Qed.

Lemma detect_spec files fs :
  JsMap.wf files -> wfNode fs ->
  let d := detectChanges md5 files fs in
  let current := scanForChanges md5 EmptyString fs [] in
  df_deleted d = (base.filter (gone current) files).*1 /\
  df_modified d = (base.filter (differs current) files).*1 /\
  df_added d = (base.filter (fun e => e.1 ∉ files.*1) current).*1.
Proof.
  intros Hf Hfs. unfold detectChanges. set (d0 := {| df_added := [] |}).
  destruct (compare_loop files d0 (scanForChanges md5 EmptyString fs []) Hf) as (E1 & E2 & E3 & E4). cbn zeta in *.
  destruct (fold_left compare files _) as [d cur]. cbn [fst snd df_deleted df_modified df_added] in *.
  by rewrite E1, E2, E3, E4.
Qed.

Lemma get_reread now root fs m k k' :
  JsMap.get k (reread md5 now root fs m k') =
    match (if decide (k' = k) then readAt k fs else None) with
    | Some f => Some (cachedFile md5 now root k f)
    | None => JsMap.get k m
    end.
Proof.
  unfold reread. case_decide as Hk; [subst|]; destruct (readAt _ fs); try done; [by rewrite JsMap.get_set_eq|by rewrite JsMap.get_set_ne].
Qed.

Lemma get_rereads now root fs ks m k :
  JsMap.get k (fold_left (reread md5 now root fs) ks m) =
    match (if decide (k ∈ ks) then readAt k fs else None) with
    | Some f => Some (cachedFile md5 now root k f)
    | None => JsMap.get k m
    end.
Proof.
  revert m. induction ks as [|k' ks IH]; intros m; [by rewrite decide_False by apply not_elem_of_nil|].
  cbn [fold_left]. rewrite IH, get_reread. destruct (decide (k' = k)) as [->|Hne].
  - rewrite (decide_True (P := k ∈ k :: ks)) by by left. case_decide; by destruct (readAt k fs).
  - destruct (decide (k ∈ ks)).
    + by rewrite decide_True by by right.
    + by rewrite decide_False by (rewrite elem_of_cons; naive_solver).
Qed.

Lemma wf_rereads now root fs ks m : JsMap.wf m -> JsMap.wf (fold_left (reread md5 now root fs) ks m).
Proof.
  revert m. induction ks as [|k ks IH]; intros m Hm; [done|]. cbn [fold_left]. apply IH. unfold reread.
  destruct (readAt k fs); [by apply JsMap.wf_set|done].
Qed.

Lemma wf_changes fs : wfNode fs -> JsMap.wf (scanForChanges md5 EmptyString fs []).
Proof.
  intros Hfs. rewrite changes_flat by done. unfold JsMap.wf, JsMap.keys. rewrite <- list_fmap_compose. by apply flat_wf.
Qed.

Lemma wf_rescan now root fs : wfNode fs -> JsMap.wf (rescan now root fs).
Proof.
  intros Hfs. rewrite rescan_flat by done. unfold JsMap.wf, JsMap.keys. rewrite <- list_fmap_compose. by apply flat_wf.
Qed.

(** One file after a refresh. *)
Definition refreshed (now : Z) (root k : string) (old : option CachedFile) (new : option (Stats * string)) : option CachedFile :=
  match new with
  | None => None
  | Some f =>
      match old with
      | Some a => Some (if decide (hashContent md5 f.2 = cf_hash a) then a else cachedFile md5 now root k f)
      | None => Some (cachedFile md5 now root k f)
      end
  end.

Lemma refresh_get now root fs c k :
  JsMap.wf (pc_files c) -> wfNode fs ->
  JsMap.get k (pc_files (applyDiff md5 now root fs (detectChanges md5 (pc_files c) fs) c)) =
    refreshed now root k (JsMap.get k (pc_files c)) (JsMap.get k (flat fs)).
Proof.
  intros Hc Hfs. destruct (detect_spec (pc_files c) fs Hc Hfs) as (E1 & E2 & E3). cbn zeta in *.
  cbn [applyDiff pc_files]. rewrite get_rereads, get_deletes, E1, E2, E3. clear E1 E2 E3.
  pose proof (wf_changes fs Hfs) as Hcur. pose proof (get_changes fs k Hfs) as Hgc.
  set (current := scanForChanges md5 EmptyString fs []) in *.
  pose proof (elem_keys_filter (gone current) (pc_files c) k Hc) as K1.
  pose proof (elem_keys_filter (differs current) (pc_files c) k Hc) as K2.
  pose proof (elem_keys_filter (fun e => e.1 ∉ (pc_files c).*1) current k Hcur) as K3.
  pose proof (JsMap.get_None_keys k (pc_files c)) as K4. unfold JsMap.keys in K4. unfold gone, differs in K1, K2. cbn [fst snd] in *.
  assert (Hread : forall f, JsMap.get k (flat fs) = Some f -> readAt k fs = Some f)
    by (intros f Hf; apply flat_elem; [done|]; by apply JsMap.get_Some_elem).
  unfold refreshed. rewrite Hgc in *. destruct (JsMap.get k (flat fs)) as [f|] eqn:Hf; cbn [fmap option_fmap option_map] in *.
  - rewrite (decide_False (P := k ∈ (base.filter (gone _) _).*1)) by naive_solver. rewrite (Hread f) by done.
    destruct (JsMap.get k (pc_files c)) as [a|] eqn:Ha.
    + destruct (decide (hashContent md5 f.2 = cf_hash a)) as [Hh|Hh].
      * rewrite decide_False; [done|]. rewrite elem_of_app, K2, K3. naive_solver.
      * rewrite decide_True; [done|]. rewrite elem_of_app, K2. naive_solver.
    + rewrite decide_True; [done|]. rewrite elem_of_app, K3. naive_solver.
  - rewrite (decide_False (P := k ∈ _ ++ _)) by (rewrite elem_of_app, K2, K3; naive_solver).
    case_decide as Hk; [done|]. destruct (JsMap.get k (pc_files c)) as [a|]; [|done]. exfalso. apply Hk, K1. eauto.
Qed.

(** ** The invariant *)

Record contextOk (c : ProjectContext) : Prop := {
  co_files : JsMap.wf (pc_files c);
  co_entries : forall k a, (k, a) ∈ pc_files c -> cf_relativePath a = k /\ cf_hash a = hashContent md5 (cf_content a);
  co_count : pc_totalFiles c = JsMap.size (pc_files c);
  co_size : pc_totalSize c = sumSizes (pc_files c);
}.

Record stateOk (s : State) : Prop := {
  so_heap : Forall contextOk (heap s);
  so_caches : JsMap.wf (caches s);
  so_refs : Forall (fun e => e.2 < length (heap s)) (caches s);
}.

(** Entries that name their key and hash their content. *)
Definition entriesOk (m : JsMap.t CachedFile) : Prop :=
  JsMap.wf m /\ forall k a, (k, a) ∈ m -> cf_relativePath a = k /\ cf_hash a = hashContent md5 (cf_content a).

Lemma entriesOk_set now root k f m : entriesOk m -> entriesOk (JsMap.set k (cachedFile md5 now root k f) m).
Proof.
  intros [Hw He]. split; [by apply JsMap.wf_set|]. intros k' a Hin%JsMap.elem_get; [|by apply JsMap.wf_set].
  destruct (decide (k = k')) as [<-|Hne].
  - rewrite JsMap.get_set_eq in Hin. by injection Hin as <-.
  - rewrite JsMap.get_set_ne in Hin by done. by apply He, JsMap.get_Some_elem.
Qed.

Lemma entriesOk_delete k m : entriesOk m -> entriesOk (JsMap.delete k m).
Proof.
  intros [Hw He]. split; [by apply JsMap.wf_delete|]. intros k' a [_ Hin]%list_elem_of_filter. by apply He.
Qed.

Lemma addAll_ok now root l m : entriesOk m -> entriesOk (addAll (cachedFile md5 now root) l m).
Proof.
  unfold addAll. revert m. induction l as [|[p f] l IH]; intros m Hm; [done|]. cbn [fold_left]. by apply IH, entriesOk_set.
Qed.

Lemma build_ok now p t root fs : contextOk (buildContext md5 now p t root fs).
Proof.
  pose proof (scan_listing md5 now root fs [] [] []) as Hs.
  assert (Hok : entriesOk (addAll (cachedFile md5 now root) (listing [] fs) [])) by (apply addAll_ok; split; [constructor|by intros ?? ?%elem_of_nil]).
  unfold buildContext. cbn [pathOf fold_left] in Hs. destruct (scanDirectory _ _ _ _ _ _ _) as [files tree]. cbn [fst] in Hs. subst files.
  destruct Hok. by constructor.
Qed.

Lemma apply_ok now root fs d c : contextOk c -> contextOk (applyDiff md5 now root fs d c).
Proof.
  intros [H1 H2 _ _]. assert (Hok : entriesOk (pc_files c)) by done. clear H1 H2.
  assert (Hd : entriesOk (fold_left (fun m k => JsMap.delete k m) (df_deleted d) (pc_files c))).
  { revert Hok. generalize (pc_files c). induction (df_deleted d) as [|k l IH]; intros m Hm; [done|]. by apply IH, entriesOk_delete. }
  assert (Hr : entriesOk (pc_files (applyDiff md5 now root fs d c))).
  { cbn [applyDiff pc_files]. revert Hd. generalize (fold_left (fun m k => JsMap.delete k m) (df_deleted d) (pc_files c)).
    induction (df_modified d ++ df_added d) as [|k l IH]; intros m Hm; [done|]. cbn [fold_left]. apply IH. unfold reread.
    destruct (readAt k fs); [by apply entriesOk_set|done]. }
  destruct Hr. by constructor.
Qed.

Lemma evict_ok s : stateOk s -> stateOk (evictIfNeeded s).
Proof.
  intros [H1 H2 H3]. unfold evictIfNeeded. destruct (_ <? _)%Z; [|done].
  pose proof (evictLoop_wf (merge_sort older (entries s)) (sizeOf (entries s)) (caches s) (evictions s) H2) as Hw.
  pose proof (fun e => evictLoop_sub (merge_sort older (entries s)) (sizeOf (entries s)) (caches s) (evictions s) e) as Hs.
  destruct (evictLoop _ _ _ _) as [m n]. constructor; [done..|]. cbn [caches heap fst] in *.
  rewrite list.Forall_forall in *. auto.
Qed.

Lemma get_ok now p t root force fs s : stateOk s -> stateOk (getContext md5 now p t root force fs s).2.
Proof.
  intros [H1 H2 H3]. unfold getContext. destruct (usable _ _ _ _); [by constructor|]. cbn [snd]. apply evict_ok.
  constructor; cbn [heap caches].
  - apply list.Forall_app. split; [done|]. constructor; [apply build_ok|constructor].
  - by apply JsMap.wf_set.
  - rewrite list.Forall_forall in *. intros e [->|Hin%H3]%elem_set; rewrite length_app; cbn; lia.
Qed.

Lemma job_ok now i fs s : stateOk s -> stateOk (runJob md5 now i fs s).
Proof.
  intros [H1 H2 H3]. unfold runJob. destruct (jobs s !! i) as [[ref root|ref root d]|]; [|..|done].
  - destruct (heap s !! ref); [|done]. destruct (changed _); by constructor.
  - constructor; cbn [withJobs heap caches]; [|done|by rewrite length_alter].
    rewrite list.Forall_lookup in *. intros j c Hj. destruct (decide (ref = j)) as [->|Hne].
    + rewrite list_lookup_alter_eq in Hj. destruct (heap s !! j) as [c0|] eqn:Hc; [|done]. injection Hj as <-. by apply apply_ok, (H1 j).
    + rewrite list_lookup_alter_ne in Hj by done. by apply (H1 j).
Qed.

Lemma invalidate_ok p t s : stateOk s -> stateOk (invalidate p t s).
Proof.
  intros [H1 H2 H3]. unfold invalidate. destruct (JsStr.orNull t); constructor; cbn [heap caches];
    [done|by apply JsMap.wf_delete| |done|by apply JsMap.wf_deleteWhere|];
    rewrite list.Forall_forall in *; intros e [_ Hin]%list_elem_of_filter; by apply H3.
Qed.

Lemma run_ok l s : stateOk s -> stateOk (run md5 l s).
Proof.
  revert s. induction l as [|x l IH]; intros s Hs; [done|]. cbn [run fold_left]. apply IH. destruct x; cbn [step].
  - by apply get_ok.
  - by apply job_ok.
  - by apply invalidate_ok.
  - destruct Hs. by constructor; [|constructor|constructor].
Qed.

Lemma init_ok : stateOk init.
Proof. repeat constructor. Qed.

(** ** A refresh is a scan *)

(** The same files with the same hashes, hence the same contents unless two
    contents collide. *)
Record agrees (c fresh : ProjectContext) : Prop := {
  ag_hashes : forall k, cf_hash <$> JsMap.get k (pc_files c) = cf_hash <$> JsMap.get k (pc_files fresh);
  ag_contents : forall k a b, JsMap.get k (pc_files c) = Some a -> JsMap.get k (pc_files fresh) = Some b ->
    cf_content a = cf_content b \/
    (cf_content a <> cf_content b /\ hashContent md5 (cf_content a) = hashContent md5 (cf_content b));
  ag_total : pc_totalFiles c = pc_totalFiles fresh;
}.

Lemma agrees_intro c fresh :
  contextOk c -> contextOk fresh -> (forall k, cf_hash <$> JsMap.get k (pc_files c) = cf_hash <$> JsMap.get k (pc_files fresh)) -> agrees c fresh.
Proof.
  intros [W1 E1 T1 _] [W2 E2 T2 _] Hh. constructor; [done|..].
  - intros k a b Ha Hb. specialize (Hh k). rewrite Ha, Hb in Hh. injection Hh as Hh.
    apply JsMap.get_Some_elem, E1 in Ha as [_ Ha]. apply JsMap.get_Some_elem, E2 in Hb as [_ Hb].
    destruct (decide (cf_content a = cf_content b)); [by left|right]. by rewrite <- Ha, <- Hb.
  - rewrite T1, T2. apply size_keys; [done..|]. intros k. specialize (Hh k).
    by destruct (JsMap.get k (pc_files c)), (JsMap.get k (pc_files fresh)).
Qed.

Lemma refresh_agrees now now' p t root fs c :
  contextOk c -> wfNode fs ->
  agrees (applyDiff md5 now root fs (detectChanges md5 (pc_files c) fs) c) (buildContext md5 now' p t root fs).
Proof.
  intros Hc Hfs. apply agrees_intro; [by apply apply_ok|apply build_ok|]. intros k.
  rewrite refresh_get by (done || apply Hc). rewrite build_files, get_rescan by done. unfold refreshed.
  destruct (JsMap.get k (flat fs)) as [f|]; [|done]. destruct (JsMap.get k (pc_files c)) as [a|]; [|done].
  cbn [fmap option_fmap option_map]. case_decide as Hd; [|done]. by rewrite <- Hd.
Qed.

Lemma unchanged_agrees now p t root fs c :
  contextOk c -> wfNode fs -> changed (detectChanges md5 (pc_files c) fs) = false -> agrees c (buildContext md5 now p t root fs).
Proof.
  intros Hc Hfs Hd. pose proof (refresh_agrees 0 now p t root fs c Hc Hfs) as [Hh _ _].
  apply agrees_intro; [done|apply build_ok|]. unfold changed in Hd. cbn [applyDiff pc_files] in Hh.
  destruct (detectChanges md5 (pc_files c) fs) as [a m d u]. cbn [df_added df_modified df_deleted] in *.
  destruct a; [|done]. destruct m; [|done]. destruct d; [|done]. exact Hh.
Qed.

Lemma usable_spec now key force s ref :
  usable now key force s = Some ref -> exists c, JsMap.get key (caches s) = Some ref /\ heap s !! ref = Some c.
Proof.
  unfold usable. destruct (JsMap.get key (caches s)) as [r|]; [|done]. cbn [mbind option_bind].
  destruct (heap s !! r) as [c|] eqn:Hc; [|done]. cbn [mbind option_bind]. destruct (_ && _); [|done]. intros [= ->]. eauto.
Qed.

Lemma jobs_last (l : list Job) x y : (l ++ [x]) !! length l = Some x /\ delete (length l) (l ++ [x]) = l /\ <[length l := y]> (l ++ [x]) = l ++ [y].
Proof.
  split; [by rewrite list_lookup_middle|]. split; [by rewrite delete_middle, app_nil_r|].
  rewrite <- (Nat.add_0_r (length l)) at 1. by rewrite insert_app_r.
Qed.

(** The two steps of the last job. *)
Lemma refresh_steps now1 now2 fs s s1 ref root c :
  jobs s1 = jobs s ++ [JDetect ref root] -> heap s1 !! ref = Some c ->
  let s3 := runJob md5 now2 (length (jobs s)) fs (runJob md5 now1 (length (jobs s)) fs s1) in
  let d := detectChanges md5 (pc_files c) fs in
  jobs s3 = jobs s /\ heap s3 !! ref = Some (if changed d then applyDiff md5 now2 root fs d c else c).
Proof.
  intros Hj Hc. cbn zeta. set (d := detectChanges md5 (pc_files c) fs). set (i := length (jobs s)).
  destruct (jobs_last (jobs s) (JDetect ref root) (JApply ref root d)) as (L1 & L2 & L3).
  destruct (jobs_last (jobs s) (JApply ref root d) (JDetect ref root)) as (A1 & A2 & _).
  assert (H1 : runJob md5 now1 i fs s1 =
               withJobs (heap s1) (if changed d then jobs s ++ [JApply ref root d] else jobs s) s1).
  { unfold runJob. rewrite Hj. unfold i. rewrite L1, Hc. fold d. rewrite L2, L3. by destruct (changed d). }
  rewrite H1. unfold runJob. cbn [withJobs jobs heap]. unfold i. destruct (changed d).
  - rewrite A1. cbn [withJobs jobs heap]. rewrite A2. split; [done|]. by rewrite list_lookup_alter_eq, Hc.
  - by rewrite (proj2 (lookup_ge_None (jobs s) (length (jobs s)))) by lia.
Qed.

End Refresh.

(** C16 A cache hit is eventually as good as a scan: in every reachable state
    of the service, for whatever was cached before, the object a hit returns
    holds, once its background refresh has run against the file tree, exactly
    the files a new scan of that tree finds, with the same hashes, so that a
    content can only differ when two contents have the same hash; the number
    of files agrees as well, and the refresh leaves no job behind. *)
Theorem refresh_equals_rescan md5 l s now p t root fs0 ref s1 now1 now2 fs :
  s = run md5 l init ->
  usable now (cacheKey p t) false s = Some ref ->
  getContext md5 now p t root false fs0 s = (ref, s1) ->
  wfNode fs ->
  let s3 := runJob md5 now2 (length (jobs s)) fs (runJob md5 now1 (length (jobs s)) fs s1) in
  jobs s3 = jobs s /\
  exists c, heap s3 !! ref = Some c /\ agrees md5 c (buildContext md5 now2 p t root fs).
Proof.
  intros -> Hu Hg Hfs. cbn zeta. set (s := run md5 l init) in *.
  pose proof (run_ok md5 l init (init_ok md5)) as Hok. fold s in Hok. destruct (usable_spec _ _ _ _ _ Hu) as (c & _ & Hc).
  unfold getContext in Hg. rewrite Hu in Hg. injection Hg as Hs1.
  destruct (refresh_steps md5 now1 now2 fs s s1 ref root c) as (E1 & E2); [by subst s1|by subst s1|].
  split; [exact E1|]. eexists. split; [exact E2|].
  assert (Hcok : contextOk md5 c) by (destruct Hok as [Hh _ _]; rewrite list.Forall_lookup in Hh; by apply (Hh ref)).
  destruct (changed _) eqn:Hch; [by apply refresh_agrees|by apply unchanged_agrees].
Qed.

(** A tree with a hidden directory, a large file, an unreadable file and a
    file that changes. *)
Definition st (n : Z) : option Stats := Some {| st_size := n; st_mtimeMs := 7 |}.

Definition treeBefore : Node :=
  NDir true [("package.json", NFile (st 2) (Some "{}"));
             ("src", NDir true [("a.ts", NFile (st 3) (Some "let")); ("old.ts", NFile (st 1) (Some "1"))])].

Definition treeAfter : Node :=
  NDir true [("node_modules", NDir true [("x.js", NFile (st 1) (Some "x"))]);
             ("package.json", NFile (st 2) (Some "{}"));
             ("src", NDir true [("a.ts", NFile (st 5) (Some "const")); ("big.ts", NFile (st 600000) (Some "b"));
                                ("new.TS", NFile (st 4) (Some "news")); ("gone.ts", NFile (st 4) None)])].

Lemma refresh_equals_rescan_witness :
  exists c, heap (runJob id 30 0 treeAfter (runJob id 20 0 treeAfter
                   (getContext id 10 "p" "t" "/w" false treeAfter (run id [CGet 5 "p" "t" "/w" false treeBefore] init)).2)) !! 0 = Some c /\
    JsMap.keys (pc_files c) = ["package.json"; "src/a.ts"; "src/new.TS"] /\ pc_totalFiles c = 3.
Proof.
  destruct (refresh_equals_rescan id [CGet 5 "p" "t" "/w" false treeBefore] _ 10 "p" "t" "/w" treeAfter 0 _ 20 30 treeAfter
              eq_refl eq_refl eq_refl) as (_ & c & Hc & Hag).
  - cbn. repeat split; try by vm_compute. all: repeat (apply NoDup_cons; split; [rewrite ?elem_of_cons, elem_of_nil; naive_solver|]); apply NoDup_nil_2.
  - exists c. pose proof (ag_total _ _ _ Hag) as Ht. split; [exact Hc|]. split; [|exact Ht].
    vm_compute in Hc. injection Hc as <-. reflexivity.
Defined.

(** ** Eviction *)

Lemma sizeOf_foldr l : sizeOf l = foldr (fun e z => (pc_totalSize e.2 + z)%Z) 0%Z l.
Proof.
  unfold sizeOf. enough (Hz : forall z, fold_left (fun total e => (total + pc_totalSize e.2)%Z) l z =
    (z + foldr (fun e z => (pc_totalSize e.2 + z)%Z) 0%Z l)%Z) by (rewrite Hz; lia).
  induction l as [|e l IH]; intros z; cbn; [lia|]. rewrite IH. lia.
Qed.

Lemma sizeOf_app l k : sizeOf (l ++ k) = (sizeOf l + sizeOf k)%Z.
Proof. rewrite !sizeOf_foldr. induction l as [|e l IH]; cbn; lia. Qed.

#[local] Instance sizeOf_proper : Proper ((≡ₚ) ==> (=)) sizeOf.
Proof.
  intros l k Hp. rewrite !sizeOf_foldr. induction Hp; cbn; lia.
Qed.

Lemma deletes_filter {V} ks (m : JsMap.t V) : fold_left (fun m k => JsMap.delete k m) ks m = base.filter (fun e => e.1 ∉ ks) m.
Proof.
  revert m. induction ks as [|k ks IH]; intros m.
  - symmetry. apply filter_all. intros e _. apply not_elem_of_nil.
  - cbn [fold_left]. rewrite IH. unfold JsMap.delete. rewrite list_filter_filter. apply filter_ext. intros e _.
    rewrite not_elem_of_cons. tauto.
Qed.

(** The loop drops a first part of the list: all of it, or enough. *)
Lemma evictLoop_spec l total m n :
  exists k, evictLoop total l m n = (fold_left (fun m k => JsMap.delete k m) (take k l).*1 m, n + k) /\ k <= length l /\
    (k = length l \/ (total - sizeOf (take k l) <= keptSizeBytes)%Z).
Proof.
  revert total m n. induction l as [|e l IH]; intros total m n.
  - exists 0. cbn. rewrite Nat.add_0_r. auto.
  - cbn [evictLoop]. destruct (keptSizeBytes <? total)%Z eqn:Ht.
    + destruct (IH (total - pc_totalSize e.2)%Z (JsMap.delete e.1 m) (S n)) as (k & Hk & Hle & Hor). exists (S k).
      cbn [take length fmap list_fmap fold_left]. rewrite Hk. split; [f_equal; lia|]. split; [lia|].
      destruct Hor as [->|Hs]; [by left|right]. change (e :: take k l) with ([e] ++ take k l). rewrite sizeOf_app. cbn in *. lia.
    + exists 0. cbn. rewrite Nat.add_0_r. split; [done|]. split; [lia|]. right. lia.
Qed.

Definition entriesIn (h : list ProjectContext) (m : JsMap.t nat) : list (string * ProjectContext) :=
  omap (fun e => (fun c => (e.1, c)) <$> h !! e.2) m.

Lemma entriesIn_filter h m (P : string -> Prop) `{!forall k, Decision (P k)} :
  entriesIn h (base.filter (fun e => P e.1) m) = base.filter (fun e => P e.1) (entriesIn h m).
Proof.
  unfold entriesIn. induction m as [|[k r] m IH]; [done|]. rewrite list.filter_cons. cbn [fst]. cbn [omap list_omap fst snd].
  case_decide as Hk; cbn [omap list_omap fst snd]; destruct (h !! r) as [c|]; cbn [fmap option_fmap option_map];
    rewrite ?list.filter_cons; cbn [fst]; rewrite ?decide_True, ?decide_False by done; by rewrite IH.
Qed.

Lemma entriesIn_keys h m : Forall (fun e => e.2 < length h) m -> (entriesIn h m).*1 = m.*1.
Proof.
  unfold entriesIn. induction 1 as [|[k r] m Hr _ IH]; [done|]. cbn [omap list_omap fst snd] in *.
  destruct (lookup_lt_is_Some_2 h r Hr) as [c ->]. cbn. by rewrite IH.
Qed.

Lemma filter_take_drop {A} (f : A -> string) (l : list A) k :
  NoDup (f <$> l) -> base.filter (fun x => f x ∉ f <$> take k l) l = drop k l.
Proof.
  intros Hnd. rewrite <- (take_drop k l), fmap_app in Hnd. apply list.NoDup_app in Hnd as (_ & Hd & _).
  transitivity (base.filter (fun x => f x ∉ f <$> take k l) (take k l ++ drop k l)); [by rewrite take_drop|].
  rewrite list.filter_app. rewrite filter_none, filter_all; [done|..].
  - intros x Hx Hin. by apply (Hd (f x) Hin), list_elem_of_fmap_2.
  - intros x Hx Hin. by apply Hin, list_elem_of_fmap_2.
Qed.

#[local] Instance older_total : Total older.
Proof. intros a b. unfold older. lia. Qed.
#[local] Instance older_trans : Transitive older.
Proof. intros a b c. unfold older. lia. Qed.

Lemma evict_spec md5 s :
  stateOk md5 s ->
  let s' := evictIfNeeded s in
  (sizeOf (entries s') <= maxSizeBytes)%Z /\
  ((sizeOf (entries s) <= maxSizeBytes)%Z -> s' = s) /\
  ((maxSizeBytes < sizeOf (entries s))%Z -> (sizeOf (entries s') <= keptSizeBytes)%Z) /\
  (forall e e', e ∈ entries s -> e ∉ entries s' -> e' ∈ entries s' -> older e e').
Proof.
  intros [_ Hw Hr]. cbn zeta. unfold evictIfNeeded. destruct (maxSizeBytes <? sizeOf (entries s))%Z eqn:Hmax.
  2: { repeat split; [lia|lia|]. intros e e' He Hn. done. }
  set (l := merge_sort older (entries s)). assert (Hp : l ≡ₚ entries s) by apply merge_sort_Permutation.
  destruct (evictLoop_spec l (sizeOf (entries s)) (caches s) (evictions s)) as (k & Hk & Hle & Hor). rewrite Hk.
  set (s' := {| heap := heap s |}).
  assert (Hnd : NoDup l.*1) by (rewrite Hp; change (entries s) with (entriesIn (heap s) (caches s)); by rewrite entriesIn_keys).
  assert (He : entries s' ≡ₚ drop k l).
  { change (entries s') with (entriesIn (heap s) (fold_left (fun m k => JsMap.delete k m) (take k l).*1 (caches s))).
    pose proof (entriesIn_filter (heap s) (caches s) (fun x => x ∉ (take k l).*1)) as Hef.
    rewrite deletes_filter. etrans; [apply reflexive_eq, Hef|].
    change (entriesIn (heap s) (caches s)) with (entries s). rewrite <- Hp. apply reflexive_eq. by apply (filter_take_drop fst l k). }
  assert (Hsz : (sizeOf (entries s') <= keptSizeBytes)%Z).
  { rewrite He. assert (Hsum : sizeOf (entries s) = (sizeOf (take k l) + sizeOf (drop k l))%Z) by (rewrite <- sizeOf_app, take_drop; by rewrite Hp).
    destruct Hor as [->|Hs]; [|lia]. rewrite drop_all. by vm_compute. }
  repeat split; [unfold keptSizeBytes, maxSizeBytes, MAX_CACHE_SIZE_MB in *; lia|lia|done|].
  intros e e' Hin Hout Hin'. rewrite He in Hout, Hin'. rewrite <- Hp, <- (take_drop k l), elem_of_app in Hin.
  assert (Hs : StronglySorted older (take k l ++ drop k l)) by (rewrite take_drop; apply StronglySorted_merge_sort; apply _).
  destruct Hin as [Hin|]; [|done]. by eapply StronglySorted_app_1_elem_of.
Qed.

(** The cache after a miss: in every reachable state, when a context is not
    cached or too old, the caller gets the scan of the tree, the contexts of
    the cache then take at most 100 MB in total; nothing is dropped unless the
    limit would be exceeded, then they are reduced to 80 MB, and everything
    dropped was updated no later than anything kept. *)
Theorem miss_keeps_cache_bounded md5 l s now p t root force fs ref s1 :
  s = run md5 l init ->
  usable now (cacheKey p t) force s = None ->
  getContext md5 now p t root force fs s = (ref, s1) ->
  let c := buildContext md5 now p t root fs in
  let all := entriesIn (heap s ++ [c]) (JsMap.set (cacheKey p t) ref (caches s)) in
  heap s1 !! ref = Some c /\ misses s1 = S (misses s) /\
  (sizeOf (entries s1) <= maxSizeBytes)%Z /\
  ((sizeOf all <= maxSizeBytes)%Z -> entries s1 = all) /\
  ((maxSizeBytes < sizeOf all)%Z -> (sizeOf (entries s1) <= keptSizeBytes)%Z) /\
  (forall e e', e ∈ all -> e ∉ entries s1 -> e' ∈ entries s1 -> older e e').
Proof.
  intros -> Hu Hg. set (s := run md5 l init) in *. unfold getContext in Hg. rewrite Hu in Hg. injection Hg as Href Hs1. cbn zeta.
  set (c := buildContext md5 now p t root fs) in *. set (s0 := {| heap := heap s ++ [c] |}) in *.
  assert (Hok : stateOk md5 s0).
  { pose proof (run_ok md5 l init (init_ok md5)) as [H1 H2 H3]. fold s in H1, H2, H3. constructor; cbn [s0 heap caches].
    - apply list.Forall_app. split; [done|]. constructor; [apply build_ok|constructor].
    - by apply JsMap.wf_set.
    - rewrite list.Forall_forall in *. intros e [->|Hin%H3]%elem_set; rewrite length_app; cbn; lia. }
  destruct (evict_spec md5 s0 Hok) as (E1 & E2 & E3 & E4). cbn zeta in *. rewrite Hs1 in *.
  change (entries s0) with (entriesIn (heap s ++ [c]) (JsMap.set (cacheKey p t) (length (heap s)) (caches s))) in *. rewrite Href in *.
  assert (Hh : heap s1 = heap s ++ [c] /\ misses s1 = S (misses s)).
  { subst s1. unfold evictIfNeeded. destruct (_ <? _)%Z; [by destruct (evictLoop _ _ _ _)|done]. }
  destruct Hh as [-> ->]. subst ref. split; [by rewrite list_lookup_middle|]. repeat split; try done. intros Hle. by rewrite E2.
Qed.

(** A project of 120 files of 500 KB. *)
Definition largeTree : Node := NDir true ((fun i => (pretty i +:+ ".ts", NFile (st 512000) (Some EmptyString))) <$> seq 0 120).

Definition firstSteps : list Step := [CGet 5 "p" "t" "/w" false largeTree].

Lemma miss_keeps_cache_bounded_witness :
  let s1 := (getContext id 10 "p" "u" "/v" false largeTree (run id firstSteps init)).2 in
  (sizeOf (entries s1) <= maxSizeBytes)%Z /\ JsMap.keys (caches s1) = ["p:u"] /\ evictions s1 = 1.
Proof.
  destruct (getContext id 10 "p" "u" "/v" false largeTree (run id firstSteps init)) as [ref s1] eqn:Hg.
  destruct (miss_keeps_cache_bounded id firstSteps (run id firstSteps init) 10 "p" "u" "/v" false
              largeTree ref s1 eq_refl ltac:(vm_compute; reflexivity) Hg) as (_ & _ & Hb & _).
  cbn [snd]. split; [exact Hb|]. apply (f_equal (fun r => (JsMap.keys (caches r.2), evictions r.2))) in Hg. cbn [snd] in Hg.
  assert (Hv : (JsMap.keys (caches s1), evictions s1) = (["p:u"], 1)) by (rewrite <- Hg; vm_compute; reflexivity).
  injection Hv as H1 H2. split; [exact H1|exact H2].
Defined.

(** ** Remarks on the code *)

(** A path that merely contains the name of a build directory is ignored. *)
Example source_ignored : shouldIgnore "distance.ts" "src/distance.ts" = true /\ shouldIgnore "builder.ts" "src/builder.ts" = true.
Proof. by vm_compute. Qed.

(** The tree shown to agents is not refreshed with the files. *)
Example tree_stale :
  let s := run id [CGet 5 "p" "t" "/w" false treeBefore; CGet 10 "p" "t" "/w" false treeAfter; CJob 11 0 treeAfter; CJob 12 0 treeAfter] init in
  exists c, heap s !! 0 = Some c /\ JsMap.has "src/new.TS" (pc_files c) = true /\
    pc_fileTree c = pc_fileTree (buildContext id 5 "p" "t" "/w" treeBefore).
Proof. eexists. split; [vm_compute; reflexivity|]. split; vm_compute; reflexivity. Qed.

(** A refresh does not evict: the cache can grow beyond its limit. *)
Definition hugeTree : Node := NDir true ((fun i => (pretty i +:+ ".ts", NFile (st 512000) (Some EmptyString))) <$> seq 0 210).

Example refresh_exceeds_limit :
  let s := run id [CGet 5 "p" "t" "/w" false treeBefore; CGet 10 "p" "t" "/w" false hugeTree; CJob 11 0 hugeTree; CJob 12 0 hugeTree] init in
  (maxSizeBytes < cs_totalSizeBytes (getStats s))%Z.
Proof. vm_compute. reflexivity. Qed.

End CacheSpec.
