(* ===== verification/Sentinental.v ===== *)
(** * Security training records (src/services/training/SentinentalWebhook.ts,
    src/database/repositories/SentinentalRepository.ts)

    The scores of a vulnerability, the record built when vulnerabilities are
    pushed, its row, and the buffer that is sent to the training server in
    batches. Scores are IEEE doubles; [Math.pow] is repeated multiplication,
    which after rounding to a tenth makes no difference. JSON columns hold the
    values themselves. A send is two steps, its start and its end, and other
    operations may come in between; whether the database accepts a statement
    and what the server answers is given to each step. *)

From S2P Require Import Prelude JsNumber Json SpyPatterns AgentSpy.
From Stdlib Require Import SpecFloat.
From stdpp Require Import list options.

(** ** Scores *)

Module Cvss.
Import SpyPatterns AgentSpy JsNum.

Inductive AttackVector := AV_network | AV_adjacent | AV_local | AV_physical.
Inductive AttackComplexity := AC_low | AC_high.
Inductive PrivilegesRequired := PR_none | PR_low | PR_high.
Inductive UserInteraction := UI_none | UI_required.
Inductive Scope := unchanged | changed.
Inductive Impact := I_none | I_low | I_high.
Inductive Rating := R_none | R_low | R_medium | R_high | R_critical.

Record CVSSLike := {
  cv_attackVector : AttackVector;
  cv_attackComplexity : AttackComplexity;
  cv_privilegesRequired : PrivilegesRequired;
  cv_userInteraction : UserInteraction;
  cv_scope : Scope;
  cv_confidentialityImpact : Impact;
  cv_integrityImpact : Impact;
  cv_availabilityImpact : Impact;
  cv_baseScore : JsNum.t;
  cv_severityRating : Rating;
  cv_exploitabilityScore : JsNum.t;
  cv_impactScore : JsNum.t;
}.

(** [Math.round(x * 10) / 10] *)
Definition toTenth (x : JsNum.t) : JsNum.t := SFdiv 53 1024 (ofZ (roundInt (mul x (ofZ 10)))) (ofZ 10).

Definition min10 (x : JsNum.t) : JsNum.t := if SFltb (ofZ 10) x then ofZ 10 else x.

Fixpoint power (x : JsNum.t) (n : nat) : JsNum.t :=
  match n with 0 => ofZ 1 | S n' => mul x (power x n') end.

Definition calcExploitability (av : AttackVector) (ac : AttackComplexity) (pr : PrivilegesRequired)
    (ui : UserInteraction) : JsNum.t :=
  let AV := match av with AV_network => ofDecimal 85 2 | AV_adjacent => ofDecimal 62 2 | AV_local => ofDecimal 55 2
                        | AV_physical => ofDecimal 2 1 end in
  let AC := match ac with AC_low => ofDecimal 77 2 | AC_high => ofDecimal 44 2 end in
  let PR := match pr with PR_none => ofDecimal 85 2 | PR_low => ofDecimal 62 2 | PR_high => ofDecimal 27 2 end in
  let UI := match ui with UI_none => ofDecimal 85 2 | UI_required => ofDecimal 62 2 end in
  mul (mul (mul (mul (ofDecimal 822 2) AV) AC) PR) UI.

Definition calcImpact (c i a : Impact) (sc : Scope) : JsNum.t :=
  let IMPACT x := match x with I_none => zero | I_low => ofDecimal 22 2 | I_high => ofDecimal 56 2 end in
  let iscBase := sub (ofZ 1) (mul (mul (sub (ofZ 1) (IMPACT c)) (sub (ofZ 1) (IMPACT i))) (sub (ofZ 1) (IMPACT a))) in
  match sc with
  | unchanged => mul (ofDecimal 642 2) iscBase
  | changed => sub (mul (ofDecimal 752 2) (sub iscBase (ofDecimal 29 3)))
                   (mul (ofDecimal 325 2) (power (sub iscBase (ofDecimal 2 2)) 15))
  end.

Definition among (v : SpyVulnerability) (l : list string) : bool := bool_decide (typeName (vu_type v) ∈ l).

Definition attackVectorOf (v : SpyVulnerability) : AttackVector :=
  if among v ["network_attack"; "ssrf"; "open_redirect"; "api_exposure"] then AV_network
  else if among v ["supply_chain"; "dependency_confusion"] then AV_network
  else AV_local.

Definition privilegesOf (v : SpyVulnerability) : PrivilegesRequired :=
  if among v ["privilege_escalation"; "container_escape"] then PR_low
  else if among v ["dangerous_command"; "file_operation"] then PR_none
  else PR_low.

(** Confidentiality, integrity and availability. *)
Definition impactsOf (v : SpyVulnerability) : Impact * Impact * Impact :=
  match vu_severity v with
  | critical => (I_high, I_high, I_high)
  | high =>
      (if among v ["secret_exposure"; "credential_leak"; "path_traversal"] then I_high else I_none,
       if among v ["code_injection"; "file_operation"; "dangerous_command"] then I_high else I_none,
       if among v ["infinite_loop"; "resource_exhaustion"; "dos"] then I_high else I_none)
  | medium => (I_low, I_low, I_none)
  | low => (I_none, I_none, I_none)
  end.

Definition ratingOf (base : JsNum.t) : Rating :=
  if SFleb (ofZ 9) base then R_critical
  else if SFleb (ofZ 7) base then R_high
  else if SFleb (ofZ 4) base then R_medium
  else if SFleb (ofDecimal 1 1) base then R_low
  else R_none.

Definition baseScore (impact exploitability : JsNum.t) (sc : Scope) : JsNum.t :=
  toTenth (if SFltb zero impact
           then match sc with
                | unchanged => min10 (add impact exploitability)
                | changed => min10 (mul (ofDecimal 108 2) (add impact exploitability))
                end
           else zero).

Definition calculateCVSSLike (v : SpyVulnerability) : CVSSLike :=
  let av := attackVectorOf v in
  let ac := if among v ["code_injection"; "prompt_injection"; "deserialization"] then AC_high else AC_low in
  let pr := privilegesOf v in
  let ui := if among v ["social_engineering"; "phishing"] then UI_required else UI_none in
  let sc := if among v ["container_escape"; "privilege_escalation"; "persistence"] then changed else unchanged in
  let '(c, i, a) := impactsOf v in
  let exploitability := calcExploitability av ac pr ui in
  let impact := calcImpact c i a sc in
  let base := baseScore impact exploitability sc in
  {| cv_attackVector := av; cv_attackComplexity := ac; cv_privilegesRequired := pr; cv_userInteraction := ui;
     cv_scope := sc; cv_confidentialityImpact := c; cv_integrityImpact := i; cv_availabilityImpact := a;
     cv_baseScore := base; cv_severityRating := ratingOf base; cv_exploitabilityScore := toTenth exploitability;
     cv_impactScore := toTenth impact |}.

(** The first of the highest scores. *)
Definition aggregateCVSS (scores : list CVSSLike) : option CVSSLike :=
  match scores with
  | [] => None
  | s :: l => Some (fold_left (fun worst c => if SFltb (cv_baseScore worst) (cv_baseScore c) then c else worst) l s)
  end.

(** Their sum divided by their number; 0 without any. *)
Definition average (scores : list CVSSLike) : JsNum.t :=
  match scores with
  | [] => zero
  | _ => SFdiv 53 1024 (fold_left (fun sum c => add sum (cv_baseScore c)) scores zero) (ofZ (Z.of_nat (length scores)))
  end.

End Cvss.

(** ** Records *)

Module Sentinental.
Import SpyPatterns AgentSpy Cvss Json.

Record ToolCall := {
  tc_toolName : option string;
  tc_toolInput : ToolArgs;
  tc_toolOutput : option Json;
  tc_success : bool;
  tc_timestamp : Z;
  tc_toolUseId : option string;
}.

Record ExecutionContext := {
  ec_prompt : string;
  ec_turnNumber : nat;
  ec_toolCalls : list ToolCall;
  ec_trigger : string;
  ec_partialOutput : string;
  ec_elapsedMs : Z;
}.

Record ProjectContext := {
  pj_language : string;
  pj_framework : option string;
  pj_packageManager : option string;
}.

Record CompletedPhase := { ph_name : string; ph_success : bool; ph_vulnerabilitiesDetected : nat }.

Record SeenVulnerability := {
  sv_type : VulnerabilityType;
  sv_severity : VulnerabilitySeverity;
  sv_phase : string;
  sv_wasBlocked : bool;
  sv_wasFixed : bool;
}.

Record TaskHistory := {
  th_completedPhases : list CompletedPhase;
  th_previousVulnerabilities : list SeenVulnerability;
  th_isRecurring : bool;
  th_recurrenceCount : nat;
  th_retryCount : nat;
  th_taskElapsedMs : Z;
  th_totalToolCalls : nat;
  th_totalTurns : nat;
}.

Record Platino := {
  pl_projectContext : option ProjectContext;
  pl_codeContext : option Json;
  pl_taskHistory : option TaskHistory;
}.

Inductive TraceLevel := bronze | silver | gold | platinum.

Record Summary := {
  su_total : nat;
  su_bySeverity : JsMap.t nat;
  su_byType : JsMap.t nat;
  su_byCategory : JsMap.t nat;
  su_byOwasp : JsMap.t nat;
  su_byCwe : JsMap.t nat;
  su_blocked : nat;
  su_riskScore : Z;
  su_avgCvssScore : option JsNum.t;
  su_hasRecurringPatterns : bool;
}.

Record SecurityTrainingRecord := {
  tr_id : string;
  tr_taskId : string;
  tr_sessionId : string;
  tr_timestamp : Z;
  tr_phase : string;
  tr_agentType : option string;
  tr_modelId : option string;
  tr_traceLevel : TraceLevel;
  tr_vulnerabilities : list SpyVulnerability;
  tr_executionContext : ExecutionContext;
  tr_projectContext : option ProjectContext;
  tr_codeContext : option Json;
  tr_cvssLike : option CVSSLike;
  tr_taskHistory : option TaskHistory;
  tr_summary : Summary;
}.

Definition severityName (s : VulnerabilitySeverity) : string :=
  match s with low => "low" | medium => "medium" | high => "high" | critical => "critical" end.

(** [SEVERITY_LEVELS[s]], undefined for another key. *)
Definition SEVERITY_LEVELS (s : string) : option nat :=
  if bool_decide (s = "low") then Some 1 else if bool_decide (s = "medium") then Some 2
  else if bool_decide (s = "high") then Some 3 else if bool_decide (s = "critical") then Some 4 else None.

(** A comparison with [undefined] is false. *)
Definition passes (minSeverity : string) (v : SpyVulnerability) : bool :=
  match SEVERITY_LEVELS (severityName (vu_severity v)), SEVERITY_LEVELS minSeverity with
  | Some a, Some b => b <=? a
  | _, _ => false
  end.

Definition countIf (k : option string) (m : JsMap.t nat) : JsMap.t nat :=
  match JsStr.orNull k with Some k => bump k m | None => m end.

Definition buildSummary (vs : list SpyVulnerability) (avg : JsNum.t) (h : option TaskHistory) : Summary :=
  {| su_total := length vs;
     su_bySeverity := fold_left (fun m v => bump (severityName (vu_severity v)) m) vs [];
     su_byType := fold_left (fun m v => bump (typeName (vu_type v)) m) vs [];
     su_byCategory := fold_left (fun m v => countIf (Some (vu_category v)) m) vs [];
     su_byOwasp := fold_left (fun m v => countIf (vu_owaspCategory v) m) vs [];
     su_byCwe := fold_left (fun m v => countIf (vu_cweId v) m) vs [];
     su_blocked := fold_left (fun n v => if vu_blocked v then S n else n) vs 0;
     su_riskScore := riskScore vs;
     su_avgCvssScore := if JsNum.truthy avg then Some (toTenth avg) else None;
     su_hasRecurringPatterns := match h with Some h => th_isRecurring h || (1 <? th_recurrenceCount h) | None => false end |}.

Definition determineTraceLevel (p : option Platino) (x : ExecutionContext) : TraceLevel :=
  let score := 1 + (if 0 <? length (ec_toolCalls x) then 1 else 0)
                 + (match p ≫= pl_projectContext with Some _ => 1 | None => 0 end)
                 + (match p ≫= pl_codeContext, p ≫= pl_taskHistory with Some _, Some _ => 1 | _, _ => 0 end) in
  if 4 <=? score then platinum else if 3 <=? score then gold else if 2 <=? score then silver else bronze.

Definition trainingRecord (id : string) (now : Z) (taskId sessionId phase : string) (filtered : list SpyVulnerability)
    (x : ExecutionContext) (agentType modelId : option string) (p : option Platino) : SecurityTrainingRecord :=
  let scores := calculateCVSSLike <$> filtered in
  {| tr_id := id; tr_taskId := taskId; tr_sessionId := sessionId; tr_timestamp := now; tr_phase := phase;
     tr_agentType := agentType; tr_modelId := modelId; tr_traceLevel := determineTraceLevel p x;
     tr_vulnerabilities := filtered; tr_executionContext := x; tr_projectContext := p ≫= pl_projectContext;
     tr_codeContext := p ≫= pl_codeContext; tr_cvssLike := aggregateCVSS scores; tr_taskHistory := p ≫= pl_taskHistory;
     tr_summary := buildSummary filtered (average scores) (p ≫= pl_taskHistory) |}.

(** ** Rows *)

Record Row := {
  ro_record : SecurityTrainingRecord;
  ro_vulnerabilities_count : nat;
  ro_risk_score : Z;
  ro_blocked_count : nat;
  ro_sent_to_sentinental : bool;
  ro_sent_at : option Z;
  ro_send_attempts : nat;
  ro_last_error : option string;
  ro_created_at : Z;
}.

Definition ro_id (r : Row) : string := tr_id (ro_record r).

(** [None]: the INSERT is rejected; [up] stands for everything but the key. *)
Definition create (up : bool) (now : Z) (r : SecurityTrainingRecord) (t : list Row) : option (list Row) :=
  if up && negb (existsb (fun x => bool_decide (ro_id x = tr_id r)) t) then
    Some (t ++ [{| ro_record := r; ro_vulnerabilities_count := length (tr_vulnerabilities r);
                   ro_risk_score := su_riskScore (tr_summary r); ro_blocked_count := su_blocked (tr_summary r);
                   ro_sent_to_sentinental := false; ro_sent_at := None; ro_send_attempts := 0; ro_last_error := None;
                   ro_created_at := now |}])
  else None.

Definition onIds (ids : list string) (f : Row -> Row) (t : list Row) : list Row :=
  (fun r => if bool_decide (ro_id r ∈ ids) then f r else r) <$> t.

Definition markSent (now : Z) (ids : list string) (t : list Row) : list Row :=
  onIds ids (fun r => {| ro_record := ro_record r; ro_vulnerabilities_count := ro_vulnerabilities_count r;
    ro_risk_score := ro_risk_score r; ro_blocked_count := ro_blocked_count r; ro_sent_to_sentinental := true;
    ro_sent_at := Some now; ro_send_attempts := ro_send_attempts r; ro_last_error := ro_last_error r;
    ro_created_at := ro_created_at r |}) t.

Definition markSendFailed (ids : list string) (err : string) (t : list Row) : list Row :=
  onIds ids (fun r => {| ro_record := ro_record r; ro_vulnerabilities_count := ro_vulnerabilities_count r;
    ro_risk_score := ro_risk_score r; ro_blocked_count := ro_blocked_count r;
    ro_sent_to_sentinental := ro_sent_to_sentinental r; ro_sent_at := ro_sent_at r;
    ro_send_attempts := S (ro_send_attempts r); ro_last_error := Some err; ro_created_at := ro_created_at r |}) t.

(** Rows are appended, so that the table is in the order of [created_at]. *)
Definition findPending (limit : nat) (t : list Row) : list Row :=
  take limit (base.filter (fun r => ro_sent_to_sentinental r = false) t).

Definition findByTaskId (taskId : string) (t : list Row) : list Row :=
  base.filter (fun r => tr_taskId (ro_record r) = taskId) t.

Definition findById (id : string) (t : list Row) : option Row := List.find (fun r => bool_decide (ro_id r = id)) t.

(** The record of a row: its time is that of the row. *)
Definition toTrainingRecord (r : Row) : SecurityTrainingRecord :=
  let x := ro_record r in
  {| tr_id := tr_id x; tr_taskId := tr_taskId x; tr_sessionId := tr_sessionId x; tr_timestamp := ro_created_at r;
     tr_phase := tr_phase x; tr_agentType := JsStr.orNull (tr_agentType x); tr_modelId := JsStr.orNull (tr_modelId x);
     tr_traceLevel := tr_traceLevel x; tr_vulnerabilities := tr_vulnerabilities x;
     tr_executionContext := tr_executionContext x; tr_projectContext := tr_projectContext x;
     tr_codeContext := tr_codeContext x; tr_cvssLike := tr_cvssLike x; tr_taskHistory := tr_taskHistory x;
     tr_summary := tr_summary x |}.

Definition dayMs : Z := 24 * 60 * 60 * 1000.

Definition deleteOldSentRecords (now : Z) (days : Z) (t : list Row) : list Row * nat :=
  let old r := match ro_sent_at r with Some at_ => ro_sent_to_sentinental r && (at_ <? now - dayMs * days)%Z | None => false end in
  (base.filter (fun r => old r = false) t, length (base.filter (fun r => old r = true) t)).

Record ExportOptions := {
  xo_startDate : option Z; xo_endDate : option Z; xo_traceLevel : option TraceLevel; xo_minRiskScore : option Z;
  xo_limit : option nat; xo_offset : option nat }.

#[export] Instance TraceLevel_eq_dec : EqDecision TraceLevel.
Proof. solve_decision. Defined.

Definition selected (o : ExportOptions) (r : Row) : bool :=
  match xo_startDate o with Some d => (d <=? ro_created_at r)%Z | None => true end &&
  match xo_endDate o with Some d => (ro_created_at r <=? d)%Z | None => true end &&
  match xo_traceLevel o with Some l => bool_decide (tr_traceLevel (ro_record r) = l) | None => true end &&
  match xo_minRiskScore o with Some n => (n <=? ro_risk_score r)%Z | None => true end.

(** LIMIT and OFFSET are added when they are given and not 0. *)
Definition findForExport (o : ExportOptions) (t : list Row) : list Row :=
  let rows := drop (default 0 (xo_offset o)) (base.filter (fun r => selected o r = true) t) in
  match xo_limit o with Some (S n) => take (S n) rows | _ => rows end.

Definition levelName (l : TraceLevel) : string :=
  match l with bronze => "bronze" | silver => "silver" | gold => "gold" | platinum => "platinum" end.

Record RepoStats := {
  rs_total : nat; rs_sent : nat; rs_pending : nat; rs_failed : nat; rs_totalVulnerabilities : nat;
  rs_byTraceLevel : JsMap.t nat; rs_avgRiskScore : Z }.

(** The average of non-negative integers, rounded half up; 0 without rows. *)
Definition roundedAverage (l : list Z) : Z :=
  match l with
  | [] => 0
  | _ => (2 * fold_left Z.add l 0 + Z.of_nat (length l)) / (2 * Z.of_nat (length l))
  end%Z.

Definition repoStats (t : list Row) : RepoStats :=
  {| rs_total := length t;
     rs_sent := length (base.filter (fun r => ro_sent_to_sentinental r = true) t);
     rs_pending := length (base.filter (fun r => ro_sent_to_sentinental r = false /\ ro_send_attempts r = 0) t);
     rs_failed := length (base.filter (fun r => ro_sent_to_sentinental r = false /\ 0 < ro_send_attempts r) t);
     rs_totalVulnerabilities := fold_left (fun n r => n + ro_vulnerabilities_count r) t 0;
     rs_byTraceLevel := fold_left (fun m r => bump (levelName (tr_traceLevel (ro_record r))) m) t [];
     rs_avgRiskScore := roundedAverage (ro_risk_score <$> t) |}.

(** ** The webhook *)

Record Config := {
  co_batchSize : option nat;
  co_enabled : bool;
  co_minSeverity : string;
}.

(** What happened to a batch that was sent. *)
Inductive Answer := Accepted | Refused (msg : string).

Record State := {
  config : Config;
  buffer : list SecurityTrainingRecord;
  flushTimer : bool;
  inFlight : list (list SecurityTrainingRecord);
  table : list Row;
  delivered : list SecurityTrainingRecord;
  resent : list SecurityTrainingRecord;
  created : nat;
}.

Definition init (c : Config) : State :=
  {| config := c; buffer := []; flushTimer := co_enabled c; inFlight := []; table := []; delivered := [];
     resent := []; created := 0 |}.

Definition withBuffer (b : list SecurityTrainingRecord) (f : list (list SecurityTrainingRecord)) (s : State) : State :=
  {| config := config s; buffer := b; flushTimer := flushTimer s; inFlight := f; table := table s;
     delivered := delivered s; resent := resent s; created := created s |}.

Definition withTable (t : list Row) (d : list SecurityTrainingRecord) (s : State) : State :=
  {| config := config s; buffer := buffer s; flushTimer := flushTimer s; inFlight := inFlight s; table := t;
     delivered := d; resent := resent s; created := created s |}.

(** [configure]: a change of [enabled] starts or stops the timer. *)
Definition configure (c : Config) (s : State) : State :=
  let timer := if negb (co_enabled (config s)) && co_enabled c then true
               else if co_enabled (config s) && negb (co_enabled c) then false else flushTimer s in
  {| config := c; buffer := buffer s; flushTimer := timer; inFlight := inFlight s; table := table s;
     delivered := delivered s; resent := resent s; created := created s |}.

(** [flush] up to the request. *)
Definition flush (s : State) : State :=
  match buffer s with [] => s | b => withBuffer [] (inFlight s ++ [b]) s end.

(** The request of the [i]-th batch is answered. *)
Definition answered (up : bool) (now : Z) (i : nat) (a : Answer) (s : State) : State :=
  match inFlight s !! i with
  | None => s
  | Some batch =>
      let ids := tr_id <$> batch in
      match a with
      | Accepted =>
          withTable (if up then markSent now ids (table s) else table s) (delivered s ++ batch)
            (withBuffer (buffer s) (delete i (inFlight s)) s)
      | Refused msg =>
          withTable (if up then markSendFailed ids msg (table s) else table s) (delivered s)
            (withBuffer (batch ++ buffer s) (delete i (inFlight s)) s)
      end
  end.

Definition batchLimit (c : Config) : nat := match co_batchSize c with Some (S n) => S n | _ => 10 end.

Section Service.
(** The [n]-th identifier that is generated, and whether the database accepts
    the statement that stores it. *)
Context (genId : nat -> string) (up : nat -> bool).

Definition persist (now : Z) (r : SecurityTrainingRecord) (s : State) : State :=
  {| config := config s; buffer := buffer s; flushTimer := flushTimer s; inFlight := inFlight s;
     table := default (table s) (create (up (created s)) now r (table s)); delivered := delivered s; resent := resent s;
     created := S (created s) |}.

Definition enqueue (r : SecurityTrainingRecord) (s : State) : State :=
  if co_enabled (config s) then
    let s1 := withBuffer (buffer s ++ [r]) (inFlight s) s in
    if batchLimit (config s1) <=? length (buffer s1) then flush s1 else s1
  else s.

Definition minSeverity (s : State) : string :=
  if JsStr.truthy (co_minSeverity (config s)) then co_minSeverity (config s) else "low".

Definition pushSecurityData (now : Z) (taskId sessionId phase : string) (vs : list SpyVulnerability)
    (x : ExecutionContext) (agentType modelId : option string) (p : option Platino) (s : State) : State :=
  match base.filter (fun v => passes (minSeverity s) v = true) vs with
  | [] => s
  | filtered =>
      let r := trainingRecord (genId (created s)) now taskId sessionId phase filtered x agentType modelId p in
      enqueue r (persist now r s)
  end.

(** The vulnerabilities of each session, in the order of the first of each. *)
Definition bySession (vs : list SpyVulnerability) : JsMap.t (list SpyVulnerability) :=
  fold_left (fun m v => JsMap.set (vu_sessionId v) (default [] (JsMap.get (vu_sessionId v) m) ++ [v]) m) vs [].

Definition minimalContext : ExecutionContext :=
  {| ec_prompt := "[Context not captured - legacy call]"; ec_turnNumber := 0; ec_toolCalls := []; ec_trigger := "unknown";
     ec_partialOutput := EmptyString; ec_elapsedMs := 0 |}.

Definition phaseOf (vs : list SpyVulnerability) : string :=
  match vs with
  | v :: _ => if JsStr.truthy (vu_phase v) then vu_phase v else "unknown"
  | [] => "unknown"
  end.

Definition push (now : Z) (taskId : string) (spy : Spy) (s : State) : State :=
  fold_left (fun s e => pushSecurityData now taskId e.1 (phaseOf e.2) e.2 minimalContext None None None s)
    (bySession (sm_vulnerabilities (getSummary taskId spy))) s.

(** Both the answer and the update that follows must succeed; what the server
    accepted is received in any case. *)
Definition retryFailed (now : Z) (limit : nat) (a : Answer) (dbUp : bool) (s : State) : (nat * nat) * State :=
  if negb (co_enabled (config s)) then ((0, 0), s)
  else
    match findPending limit (table s) with
    | [] => ((0, 0), s)
    | pending =>
        match a with
        | Refused _ => ((0, 1), s)
        | Accepted =>
            let ids := ro_id <$> pending in
            (if dbUp then (length ids, 0) else (0, 1),
             {| config := config s; buffer := buffer s; flushTimer := flushTimer s; inFlight := inFlight s;
                table := if dbUp then markSent now ids (table s) else table s; delivered := delivered s;
                resent := resent s ++ (toTrainingRecord <$> pending); created := created s |})
        end
    end.

(** The timer ticks while it is set. *)
Definition tick (s : State) : State := if flushTimer s then flush s else s.

Definition stopFlushTimer (s : State) : State :=
  {| config := config s; buffer := buffer s; flushTimer := false; inFlight := inFlight s; table := table s;
     delivered := delivered s; resent := resent s; created := created s |}.

Definition shutdown (s : State) : State := flush (stopFlushTimer s).

Record Status := {
  sn_enabled : bool; sn_bufferedRecords : nat; sn_batchSize : nat; sn_minSeverity : string; sn_postgres : RepoStats }.

Definition getStatus (s : State) : Status :=
  {| sn_enabled := co_enabled (config s); sn_bufferedRecords := length (buffer s); sn_batchSize := batchLimit (config s);
     sn_minSeverity := minSeverity s; sn_postgres := repoStats (table s) |}.

Inductive Step :=
  | SPush (now : Z) (taskId sessionId phase : string) (vs : list SpyVulnerability) (x : ExecutionContext)
      (agentType modelId : option string) (p : option Platino)
  | SPushTask (now : Z) (taskId : string) (spy : Spy)
  | STick
  | SAnswer (dbUp : bool) (now : Z) (i : nat) (a : Answer)
  | SRetry (now : Z) (limit : nat) (a : Answer) (dbUp : bool)
  | SConfigure (c : Config)
  | SDeleteOld (now days : Z)
  | SShutdown.

Definition step (x : Step) (s : State) : State :=
  match x with
  | SPush now taskId sessionId phase vs x agentType modelId p =>
      pushSecurityData now taskId sessionId phase vs x agentType modelId p s
  | SPushTask now taskId spy => push now taskId spy s
  | STick => tick s
  | SAnswer dbUp now i a => answered dbUp now i a s
  | SRetry now limit a dbUp => (retryFailed now limit a dbUp s).2
  | SConfigure c => configure c s
  | SDeleteOld now days => withTable (deleteOldSentRecords now days (table s)).1 (delivered s) s
  | SShutdown => shutdown s
  end.

Definition run (l : list Step) (s : State) : State := fold_left (fun s x => step x s) l s.

End Service.
End Sentinental.
