(* ===== verification/PhaseTracker.v ===== *)
(** * Phase tracker (src/orchestration/PhaseTracker.ts)

    What is known of a phase while it runs and of a task across its phases.
    Events go through the security spy; its findings go to the training
    records. The state of a phase is an object the caller owns: operations
    pass it along with the services. *)

From S2P Require Import Prelude JsNumber Json SpyPatterns AgentSpy AgentPhase EventBridge Sentinental.
From stdpp Require Import list options.

Module PhaseTracker.
Import Json Js SpyPatterns AgentSpy Sentinental.

Record PhaseTrackingContext := {
  pt_taskId : string;
  pt_sessionId : string;
  pt_phaseName : string;
  pt_projectPath : string;
  pt_startTime : Z;
}.

(** An event, as the spy sees it, with the properties read here. *)
Record TrackedEvent := {
  te_event : SpyEvent;
  te_tool_use_id : option string;
  te_id : option string;
  te_failed : bool;
}.

Record PhaseTrackingState := {
  ps_events : list TrackedEvent;
  ps_vulnerabilities : list SpyVulnerability;
  ps_toolCalls : list ToolCall;
  ps_turns : nat;
  ps_partialOutput : string;
}.

Record TaskTrackingState := {
  ts_taskStartTime : Z;
  ts_completedPhases : list CompletedPhase;
  ts_allVulnerabilities : list SeenVulnerability;
  ts_totalToolCalls : nat;
  ts_totalTurns : nat;
  ts_retryCount : nat;
}.

(** The services a tracker works with. *)
Record World := {
  w_tasks : JsMap.t TaskTrackingState;
  w_spy : Spy;
  w_hook : Sentinental.State;
  w_bridge : EventBridge.State;
}.

Definition withTasks (m : JsMap.t TaskTrackingState) (w : World) : World :=
  {| w_tasks := m; w_spy := w_spy w; w_hook := w_hook w; w_bridge := w_bridge w |}.
Definition withSpy (s : Spy) (w : World) : World :=
  {| w_tasks := w_tasks w; w_spy := s; w_hook := w_hook w; w_bridge := w_bridge w |}.
Definition withHook (h : Sentinental.State) (w : World) : World :=
  {| w_tasks := w_tasks w; w_spy := w_spy w; w_hook := h; w_bridge := w_bridge w |}.

Definition freshTask (now : Z) : TaskTrackingState :=
  {| ts_taskStartTime := now; ts_completedPhases := []; ts_allVulnerabilities := []; ts_totalToolCalls := 0;
     ts_totalTurns := 0; ts_retryCount := 0 |}.

Definition getTaskTrackingState (now : Z) (taskId : string) (m : JsMap.t TaskTrackingState)
    : TaskTrackingState * JsMap.t TaskTrackingState :=
  match JsMap.get taskId m with
  | Some t => (t, m)
  | None => (freshTask now, JsMap.set taskId (freshTask now) m)
  end.

Definition cleanupTaskTracking (taskId : string) (w : World) : World :=
  {| w_tasks := JsMap.delete taskId (w_tasks w); w_spy := AgentSpy.clear taskId (w_spy w); w_hook := w_hook w;
     w_bridge := EventBridge.unregisterTaskSessions taskId (w_bridge w) |}.

Definition createTrackingState : PhaseTrackingState :=
  {| ps_events := []; ps_vulnerabilities := []; ps_toolCalls := []; ps_turns := 0; ps_partialOutput := EmptyString |}.

(** [JSON.parse(readFileSync(path))]: [None] without such a file, [Some None]
    when reading or parsing throws; and [existsSync]. *)
Class ProjectFiles := {
  packageJson : string -> option (option Json);
  fileExists : string -> bool;
}.

Section Tracker.
Context `{NodeFs} `{ProjectFiles}.
Context (stringify : Json -> string) (spyId genId : nat -> string) (up : nat -> bool).

(** ** The stack of a project *)

Definition dependenciesOf (j : Json) : JsMap.t Json :=
  fold_left (fun m e => JsMap.set e.1 e.2 m)
    (default [] (EventBridge.spread <$> field "dependencies" j) ++
     default [] (EventBridge.spread <$> field "devDependencies" j)) [].

Definition dependsOn (deps : JsMap.t Json) (k : string) : bool :=
  match JsMap.get k deps with Some v => truthy v | None => false end.

Definition frameworkOf (deps : JsMap.t Json) : option string :=
  List.find (dependsOn deps) ["express"; "fastify"; "react"; "next"].

(** [undefined] when something throws. *)
Definition extractProjectContext (projectPath : string) : option ProjectContext :=
  match packageJson (pathJoin projectPath "package.json") with
  | Some None | Some (Some JNull) => None
  | Some (Some j) =>
      let deps := dependenciesOf j in
      let ts := dependsOn deps "typescript" || fileExists (pathJoin projectPath "tsconfig.json") in
      Some {| pj_language := if ts then "typescript" else "javascript"; pj_framework := frameworkOf deps;
              pj_packageManager := Some "npm" |}
  | None =>
      if fileExists (pathJoin projectPath "requirements.txt")
      then Some {| pj_language := "python"; pj_framework := None; pj_packageManager := Some "pip" |}
      else Some {| pj_language := "unknown"; pj_framework := None; pj_packageManager := None |}
  end.

(** ** Events *)

Definition toolUseIdOf (e : TrackedEvent) : option string := orElse (te_tool_use_id e) (te_id e).

Definition withCalls (calls : list ToolCall) (turns : nat) (st : PhaseTrackingState) : PhaseTrackingState :=
  {| ps_events := ps_events st; ps_vulnerabilities := ps_vulnerabilities st; ps_toolCalls := calls; ps_turns := turns;
     ps_partialOutput := ps_partialOutput st |}.

(** The answer of a tool goes to the last call, whichever it belongs to. *)
Definition completeLast (result : option Json) (failed : bool) (l : list ToolCall) : list ToolCall :=
  match last l with
  | Some c =>
      take (length l - 1) l ++
      [{| tc_toolName := tc_toolName c; tc_toolInput := tc_toolInput c; tc_toolOutput := result; tc_success := negb failed;
          tc_timestamp := tc_timestamp c; tc_toolUseId := tc_toolUseId c |}]
  | None => l
  end.

(** The state of the phase after an event, before the analysis. *)
Definition noteEvent (now : Z) (e : TrackedEvent) (st : PhaseTrackingState) : PhaseTrackingState :=
  let st1 := {| ps_events := ps_events st ++ [e]; ps_vulnerabilities := ps_vulnerabilities st;
                ps_toolCalls := ps_toolCalls st; ps_turns := ps_turns st;
                ps_partialOutput :=
                  match te_event e with
                  | PartUpdated (Some (ty, text)) =>
                      if bool_decide (ty = "text") then default (ps_partialOutput st) (JsStr.orNull text)
                      else ps_partialOutput st
                  | _ => ps_partialOutput st
                  end |} in
  match te_event e with
  | ToolBefore tool args =>
      withCalls (ps_toolCalls st1 ++
                 [{| tc_toolName := tool; tc_toolInput := args; tc_toolOutput := None; tc_success := true;
                     tc_timestamp := now; tc_toolUseId := toolUseIdOf e |}]) (S (ps_turns st1)) st1
  | ToolAfter _ result => withCalls (completeLast result (te_failed e) (ps_toolCalls st1)) (ps_turns st1) st1
  | _ => st1
  end.

Definition pushVulnerabilityToSentinental (now : Z) (c : PhaseTrackingContext) (st : PhaseTrackingState)
    (v : SpyVulnerability) (h : Sentinental.State) : Sentinental.State :=
  pushSecurityData genId up now (pt_taskId c) (pt_sessionId c) (pt_phaseName c) [v]
    {| ec_prompt := EmptyString; ec_turnNumber := ps_turns st;
       ec_toolCalls := drop (length (ps_toolCalls st) - 5) (ps_toolCalls st); ec_trigger := "vulnerability_detected";
       ec_partialOutput := JsStr.takeLast 1000 (ps_partialOutput st); ec_elapsedMs := now - pt_startTime c |}
    None None
    (Some {| pl_projectContext := extractProjectContext (pt_projectPath c); pl_codeContext := None; pl_taskHistory := None |}) h.

Definition spyContext (c : PhaseTrackingContext) (e : TrackedEvent) (st : PhaseTrackingState) : SpyContext :=
  {| cx_taskId := pt_taskId c; cx_sessionId := pt_sessionId c; cx_phase := pt_phaseName c; cx_storyId := None;
     cx_workspacePath := None; cx_iteration := None; cx_toolUseId := toolUseIdOf e; cx_turnNumber := Some (ps_turns st) |}.

Definition withVulnerabilities (vs : list SpyVulnerability) (st : PhaseTrackingState) : PhaseTrackingState :=
  {| ps_events := ps_events st; ps_vulnerabilities := ps_vulnerabilities st ++ vs; ps_toolCalls := ps_toolCalls st;
     ps_turns := ps_turns st; ps_partialOutput := ps_partialOutput st |}.

Definition trackEvent (now : Z) (e : TrackedEvent) (c : PhaseTrackingContext) : JsM (PhaseTrackingState * World) unit :=
  fun sw =>
    let st1 := noteEvent now e sw.1 in
    match AgentSpy.analyze stringify spyId now (te_event e) (spyContext c e st1) (w_spy sw.2) with
    | (Throw m, spy) => (Throw m, (st1, withSpy spy sw.2))
    | (Ok vs, spy) =>
        let st2 := withVulnerabilities vs st1 in
        let h := fold_left (fun h v => if isCriticalOrHigh (vu_severity v)
                                       then pushVulnerabilityToSentinental now c st2 v h else h) vs (w_hook sw.2) in
        (Ok tt, (st2, withHook h (withSpy spy sw.2)))
    end.

(** ** The end of a phase *)

Definition seen (phase : string) (v : SpyVulnerability) : SeenVulnerability :=
  {| sv_type := vu_type v; sv_severity := vu_severity v; sv_phase := phase; sv_wasBlocked := vu_blocked v;
     sv_wasFixed := false |}.

Definition buildTaskHistory (now : Z) (t : TaskTrackingState) (current : list SpyVulnerability) : TaskHistory :=
  let currentTypes := remove_dups (vu_type <$> current) in
  let recurringTypes := base.filter (fun ty => ty ∈ sv_type <$> ts_allVulnerabilities t) currentTypes in
  {| th_completedPhases := ts_completedPhases t; th_previousVulnerabilities := ts_allVulnerabilities t;
     th_isRecurring := 0 <? length recurringTypes; th_recurrenceCount := length recurringTypes;
     th_retryCount := ts_retryCount t; th_taskElapsedMs := now - ts_taskStartTime t;
     th_totalToolCalls := ts_totalToolCalls t; th_totalTurns := ts_totalTurns t |}.

Definition phaseCompleted (c : PhaseTrackingContext) (st : PhaseTrackingState) (success : bool) (t : TaskTrackingState)
    : TaskTrackingState :=
  {| ts_taskStartTime := ts_taskStartTime t;
     ts_completedPhases := ts_completedPhases t ++
       [{| ph_name := pt_phaseName c; ph_success := success; ph_vulnerabilitiesDetected := length (ps_vulnerabilities st) |}];
     ts_allVulnerabilities := ts_allVulnerabilities t ++ (seen (pt_phaseName c) <$> ps_vulnerabilities st);
     ts_totalToolCalls := ts_totalToolCalls t + length (ps_toolCalls st); ts_totalTurns := ts_totalTurns t + ps_turns st;
     ts_retryCount := ts_retryCount t |}.

Definition completePhaseTracking (now : Z) (c : PhaseTrackingContext) (st : PhaseTrackingState) (success : bool) (w : World)
    : World :=
  let '(t, m) := getTaskTrackingState now (pt_taskId c) (w_tasks w) in
  let t' := phaseCompleted c st success t in
  let h := buildTaskHistory now t' (ps_vulnerabilities st) in
  withHook
    (pushSecurityData genId up now (pt_taskId c) (pt_sessionId c) (pt_phaseName c) (ps_vulnerabilities st)
       {| ec_prompt := EmptyString; ec_turnNumber := ps_turns st; ec_toolCalls := ps_toolCalls st;
          ec_trigger := "phase_complete"; ec_partialOutput := ps_partialOutput st; ec_elapsedMs := now - pt_startTime c |}
       None None
       (Some {| pl_projectContext := extractProjectContext (pt_projectPath c); pl_codeContext := None;
                pl_taskHistory := Some h |}) (w_hook w))
    (withTasks (JsMap.set (pt_taskId c) t' m) w).

Definition hasBlockingVulnerabilities (st : PhaseTrackingState) : bool := existsb shouldBlock (ps_vulnerabilities st).

Definition getBlockingVulnerabilities (st : PhaseTrackingState) : list SpyVulnerability :=
  base.filter (fun v => shouldBlock v = true) (ps_vulnerabilities st).

(** The end of a run in the orchestrator: the findings of the task are pushed,
    then everything kept of it is dropped. The push reads the spy before it
    first waits, so it sees the findings. *)
Definition endOfRun (now : Z) (taskId : string) (w : World) : World :=
  cleanupTaskTracking taskId (withHook (push genId up now taskId (w_spy w) (w_hook w)) w).

End Tracker.
End PhaseTracker.
