(* ===== verification/SentinentalProofs.v ===== *)
(** * Properties of the training records

    Scores of all vulnerabilities; records are neither lost nor sent twice by
    the buffer; the push at the end of a run covers all findings of the task. *)

From S2P Require Import Prelude JsNumber Json SpyPatterns AgentSpy ExecutionTracker AgentPhase EventBridge Sentinental PhaseTracker.
From Stdlib Require Import SpecFloat.
From stdpp Require Import list pretty options.

Module SentinentalSpec.
Import SpyPatterns AgentSpy Cvss Sentinental Rows.

(** ** Scores *)

Definition atLeast (x : JsNum.t) (n : Z) : bool := SFleb (JsNum.ofDecimal n 1) x.
Definition atMost (x : JsNum.t) (n : Z) : bool := SFleb x (JsNum.ofDecimal n 1).

(** The types a severity of high gives an impact to. *)
Definition ratedWhenHigh : list VulnerabilityType :=
  [secret_exposure; credential_leak; path_traversal; code_injection; dangerous_command; infinite_loop; resource_exhaustion].

(** What the score of a severity and a type satisfies. *)
Definition scoreSpec (t : VulnerabilityType) (s : VulnerabilitySeverity) (c : CVSSLike) : bool :=
  match s with
  | low => JsNum.eqb (cv_baseScore c) JsNum.zero && match cv_severityRating c with R_none => true | _ => false end
  | medium => atLeast (cv_baseScore c) 36 && atMost (cv_baseScore c) 53 &&
              match cv_severityRating c with R_low | R_medium => true | _ => false end
  | high =>
      if bool_decide (t ∈ ratedWhenHigh)
      then atLeast (cv_baseScore c) 46 && atMost (cv_baseScore c) 61 &&
           match cv_severityRating c with R_medium => true | _ => false end
      else JsNum.eqb (cv_baseScore c) JsNum.zero && match cv_severityRating c with R_none => true | _ => false end
  | critical => atLeast (cv_baseScore c) 69 && atMost (cv_baseScore c) 87 &&
                match cv_severityRating c with R_medium | R_high => true | _ => false end
  end.

(** CVSS-like scores, for every vulnerability: a low one scores 0; a medium
    one between 3.6 and 5.3; a critical one between 6.9 and 8.7, so that none
    is ever rated critical; and a high one between 4.6 and 6.1 when its type
    is one of seven, but 0 and rated none for every other type, below what
    the same type scores with severity medium. *)
Theorem cvss_scores v : scoreSpec (vu_type v) (vu_severity v) (calculateCVSSLike v) = true.
Proof. destruct v as [? ? ? ? ? sev ty]. cbn [vu_type vu_severity]. destruct sev, ty; vm_compute; reflexivity. Qed.

(** ** The buffer *)

(** Every record that was buffered, wherever it is now. *)
Definition bag (s : State) : list SecurityTrainingRecord := buffer s ++ concat (inFlight s) ++ delivered s.

Lemma flush_bag s : bag (flush s) ≡ₚ bag s.
Proof.
  unfold flush. destruct (buffer s) as [|r b] eqn:Hb; [done|]. unfold bag. cbn [withBuffer buffer inFlight delivered].
  rewrite concat_app. cbn [concat]. rewrite app_nil_r, Hb. solve_Permutation.
Qed.

Lemma enqueue_bag r s : co_enabled (config s) = true -> bag (enqueue r s) ≡ₚ bag s ++ [r].
Proof.
  intros He. unfold enqueue. rewrite He. set (s1 := withBuffer _ _ s).
  assert (Hs : bag s1 ≡ₚ bag s ++ [r]) by (unfold bag, s1; cbn [withBuffer buffer inFlight delivered]; solve_Permutation).
  destruct (_ <=? _); [by rewrite flush_bag|done].
Qed.

Lemma concat_delete (l : list (list SecurityTrainingRecord)) i x : l !! i = Some x -> concat l ≡ₚ x ++ concat (delete i l).
Proof.
  revert i. induction l as [|y l IH]; intros [|i]; [done..| |]; cbn.
  - by intros [= ->].
  - intros Hi. rewrite (IH i Hi). solve_Permutation.
Qed.

Lemma answered_bag up now i a s : bag (answered up now i a s) ≡ₚ bag s.
Proof.
  unfold answered. destruct (inFlight s !! i) as [b|] eqn:Hi; [|done]. unfold bag.
  rewrite (concat_delete _ _ _ Hi). destruct a; cbn [withTable withBuffer buffer inFlight delivered]; solve_Permutation.
Qed.
Section Delivery.
Context (genId : nat -> string).

(** The state while the webhook is enabled. *)
Record hookOk (s : State) : Prop := {
  ho_enabled : co_enabled (config s) = true;
  ho_rows : forall r, r ∈ table s -> ro_record r ∈ bag s;
  ho_ids : forall r, r ∈ bag s -> exists n, n < created s /\ tr_id r = genId n;
  ho_nodup : NoDup (tr_id <$> bag s);
  ho_sent : forall r, r ∈ table s -> ro_sent_to_sentinental r = true -> ro_id r ∈ tr_id <$> (delivered s ++ resent s);
}.

(** Moving records around. *)
Lemma hookOk_move s s' :
  bag s' ≡ₚ bag s -> config s' = config s -> table s' = table s -> created s' = created s ->
  delivered s' = delivered s -> resent s' = resent s -> hookOk s -> hookOk s'.
Proof.
  intros Hb Hc Ht Hn Hd Hr [H1 H2 H3 H4 H5]. constructor; rewrite ?Hc, ?Ht, ?Hn, ?Hd, ?Hr; try done.
  - intros r Hin. rewrite Hb. auto.
  - intros r. rewrite Hb. auto.
  - by rewrite Hb.
Qed.

Lemma flush_fields s :
  config (flush s) = config s /\ table (flush s) = table s /\ created (flush s) = created s /\
  delivered (flush s) = delivered s /\ resent (flush s) = resent s.
Proof. unfold flush. by destruct (buffer s). Qed.

Lemma flush_ok s : hookOk s -> hookOk (flush s).
Proof.
  destruct (flush_fields s) as (? & ? & ? & ? & ?). apply hookOk_move; [apply flush_bag|done..].
Qed.

Lemma enqueue_fields r s :
  config (enqueue r s) = config s /\ table (enqueue r s) = table s /\ created (enqueue r s) = created s /\
  delivered (enqueue r s) = delivered s /\ resent (enqueue r s) = resent s.
Proof.
  unfold enqueue. destruct (co_enabled (config s)); [|done]. destruct (_ <=? _); [|done].
  by destruct (flush_fields (withBuffer (buffer s ++ [r]) (inFlight s) s)) as (-> & -> & -> & -> & ->).
Qed.

Lemma push_ok up now t sid ph vs x a m p s :
  Inj (=) (=) genId -> hookOk s -> hookOk (pushSecurityData genId up now t sid ph vs x a m p s).
Proof.
  intros Hinj [H1 H2 H3 H4 H5]. unfold pushSecurityData. destruct (base.filter _ vs) as [|v l]; [by constructor|].
  set (r := trainingRecord _ _ _ _ _ _ _ _ _ _). set (s1 := persist up now r s).
  assert (Hid : tr_id r = genId (created s)) by done.
  assert (Hb : bag (enqueue r s1) ≡ₚ bag s ++ [r]) by by apply (enqueue_bag r s1).
  destruct (enqueue_fields r s1) as (E1 & E2 & E3 & E4 & E5).
  assert (Ht : forall q, q ∈ table s1 -> q ∈ table s \/ (ro_record q = r /\ ro_sent_to_sentinental q = false)).
  { intros q. cbn [s1 persist table]. unfold create. destruct (_ && _); [|by left].
    intros [Hq|Hq%list_elem_of_singleton]%elem_of_app; [by left|right]. by subst q. }
  constructor.
  - by rewrite E1.
  - intros q. rewrite E2, Hb, elem_of_app, list_elem_of_singleton. intros [Hq|[-> _]]%Ht; auto.
  - intros q. rewrite Hb, E3, elem_of_app, list_elem_of_singleton. cbn [s1 persist created].
    intros [(n & ? & ?)%H3| ->]; [exists n; split; [lia|done]|exists (created s); split; [lia|done]].
  - rewrite Hb, fmap_app. apply list.NoDup_app. split; [done|]. split; [|apply NoDup_singleton].
    intros y (q & -> & Hq)%list_elem_of_fmap Hy%list_elem_of_singleton. destruct (H3 q Hq) as (n & Hn & Hq').
    rewrite Hq', Hid in Hy. apply Hinj in Hy. lia.
  - intros q. rewrite E2, E4, E5. cbn [s1 persist delivered resent]. intros [Hq|[_ Hq]]%Ht Hs; [auto|congruence].
Qed.

Lemma pushes_ok up now t l s :
  Inj (=) (=) genId -> hookOk s ->
  hookOk (fold_left (fun s e => pushSecurityData genId up now t e.1 (phaseOf e.2) e.2 minimalContext None None None s) l s).
Proof. intros Hinj. revert s. induction l as [|e l IH]; intros s Hs; [done|]. by apply IH, push_ok. Qed.

Lemma elem_onIds ids f t r :
  (forall q, ro_record (f q) = ro_record q) -> r ∈ onIds ids f t ->
  exists q, q ∈ t /\ ro_record r = ro_record q /\ (r = q \/ (r = f q /\ ro_id q ∈ ids)).
Proof.
  intros Hf (q & -> & Hq)%list_elem_of_fmap. exists q. split; [done|]. case_bool_decide; [rewrite Hf|]; auto.
Qed.

Lemma answered_ok dbUp now i a s : hookOk s -> hookOk (answered dbUp now i a s).
Proof.
  intros [H1 H2 H3 H4 H5]. pose proof (answered_bag dbUp now i a s) as Hb.
  assert (Hcfg : config (answered dbUp now i a s) = config s /\ created (answered dbUp now i a s) = created s)
    by (unfold answered; destruct (inFlight s !! i); [by destruct a|done]).
  destruct Hcfg as [Hc Hn].
  assert (Hrows : forall r, r ∈ table (answered dbUp now i a s) ->
    exists q, q ∈ table s /\ ro_record r = ro_record q /\
      (ro_sent_to_sentinental r = true -> ro_id r ∈ tr_id <$> (delivered (answered dbUp now i a s) ++ resent (answered dbUp now i a s)))).
  { intros r. unfold answered. destruct (inFlight s !! i) as [b|] eqn:Hi; [|intros Hr; exists r; auto].
    destruct a; cbn [withTable withBuffer table delivered resent]; destruct dbUp.
    - intros (q & Hq & He & Hor)%elem_onIds; [|done]. exists q. split_and!; [done..|]. intros Hs. unfold ro_id. rewrite He.
      rewrite !fmap_app, !elem_of_app. destruct Hor as [->|[_ Hid]]; [|left; by right].
      specialize (H5 q Hq Hs). rewrite fmap_app, elem_of_app in H5. tauto.
    - intros Hr. exists r. split_and!; [done..|]. intros Hs. specialize (H5 r Hr Hs). rewrite !fmap_app, !elem_of_app in *. tauto.
    - intros (q & Hq & He & Hor)%elem_onIds; [|done]. exists q. split_and!; [done..|]. intros Hs. unfold ro_id. rewrite He.
      apply (H5 q Hq). destruct Hor as [->|[-> _]]; done.
    - intros Hr. exists r. auto. }
  constructor.
  - by rewrite Hc.
  - intros r (q & Hq & -> & _)%Hrows. rewrite Hb. auto.
  - intros r. rewrite Hb, Hn. auto.
  - by rewrite Hb.
  - intros r (q & _ & _ & Hs)%Hrows. done.
Qed.

Lemma retry_ok now limit a dbUp s : hookOk s -> hookOk (retryFailed now limit a dbUp s).2.
Proof.
  intros [H1 H2 H3 H4 H5]. unfold retryFailed. rewrite H1. cbn [negb].
  destruct (findPending limit (table s)) as [|q0 l] eqn:Hp; [by constructor|]. rewrite <- Hp. clear Hp q0 l.
  destruct a; [|by constructor]. constructor; cbn [snd config table created delivered resent]; try done.
  - intros r. destruct dbUp; [|apply H2]. intros (q & Hq & -> & _)%elem_onIds; [by apply H2|done].
  - intros r. assert (Hid : tr_id <$> (toTrainingRecord <$> findPending limit (table s)) = ro_id <$> findPending limit (table s))
      by by rewrite <- list_fmap_compose.
    destruct dbUp.
    + intros (q & Hq & He & Hor)%elem_onIds; [|done]. unfold ro_id. rewrite He. intros Hs.
      rewrite !fmap_app, Hid, !elem_of_app. destruct Hor as [->|[_ Hin]]; [|right; by right].
      specialize (H5 q Hq Hs). rewrite fmap_app, elem_of_app in H5. tauto.
    + intros Hr Hs. specialize (H5 r Hr Hs). rewrite !fmap_app, !elem_of_app in *. tauto.
Qed.

(** The webhook stays enabled. *)
Definition staysEnabled (x : Step) : bool := match x with SConfigure c => co_enabled c | _ => true end.

Lemma step_ok up x s : Inj (=) (=) genId -> staysEnabled x = true -> hookOk s -> hookOk (step genId up x s).
Proof.
  intros Hinj Hx Hs. destruct x; cbn [step].
  - by apply push_ok.
  - by apply pushes_ok.
  - unfold tick. destruct (flushTimer s); [by apply flush_ok|done].
  - by apply answered_ok.
  - by apply retry_ok.
  - destruct Hs. by constructor.
  - destruct Hs as [H1 H2 H3 H4 H5]. constructor; try done; cbn [withTable table delivered resent];
      intros r [_ Hr]%list_elem_of_filter; auto.
  - apply flush_ok. destruct Hs. by constructor.
Qed.

Lemma hook_run_ok up l s : Inj (=) (=) genId -> forallb staysEnabled l = true -> hookOk s -> hookOk (run genId up l s).
Proof.
  intros Hinj. revert s. induction l as [|x l IH]; intros s Hl Hs; [done|]. cbn [forallb] in Hl.
  apply andb_true_iff in Hl as [Hx Hl]. cbn [run fold_left]. apply IH; [done|]. by apply step_ok.
Qed.

End Delivery.

(** C17 Training records: with the webhook enabled, after any sequence of pushes,
    timer ticks, answers of the server (accepted or refused, the update of the
    table succeeding or not), retries, reconfigurations and clean-ups, every
    stored record is in the buffer, in a request under way, or was accepted
    by the server; no record is in two of these places, so that the buffer
    sends none twice; a row marked as sent was accepted by the server; and
    when nothing is buffered or under way, the server has every stored
    record. *)
Theorem training_records_delivered genId up c l s :
  Inj (=) (=) genId ->
  co_enabled c = true ->
  forallb staysEnabled l = true ->
  s = run genId up l (init c) ->
  (forall r, r ∈ table s -> ro_record r ∈ buffer s ++ concat (inFlight s) ++ delivered s) /\
  NoDup (tr_id <$> (buffer s ++ concat (inFlight s) ++ delivered s)) /\
  (forall r, r ∈ table s -> ro_sent_to_sentinental r = true -> ro_id r ∈ tr_id <$> (delivered s ++ resent s)) /\
  (buffer s = [] -> inFlight s = [] -> forall r, r ∈ table s -> ro_record r ∈ delivered s).
Proof.
  intros Hinj Hc Hl ->. destruct (hook_run_ok genId up l (init c) Hinj Hl) as [H1 H2 _ H4 H5].
  - constructor; [done|by intros ? ?%elem_of_nil..|constructor|by intros ? ?%elem_of_nil].
  - repeat split; [done..|]. intros Hb Hf r Hr. specialize (H2 r Hr). unfold bag in H2. by rewrite Hb, Hf in H2.
Qed.

Definition anyFinding (session : string) (sev : VulnerabilitySeverity) : SpyVulnerability :=
  {| vu_id := "v"; vu_taskId := "t"; vu_sessionId := session; vu_phase := "Developer"; vu_timestamp := 0; vu_severity := sev;
     vu_type := sql_injection; vu_description := EmptyString; vu_evidence := Json.JNull; vu_toolName := None;
     vu_blocked := false; vu_matchedPattern := None; vu_category := "code_injection"; vu_toolUseId := None;
     vu_turnNumber := None; vu_owaspCategory := None; vu_cweId := None; vu_filePath := None; vu_lineNumber := None;
     vu_codeSnippet := None; vu_recommendation := None; vu_workspacePath := None; vu_absoluteFilePath := None;
     vu_storyId := None; vu_iteration := None; vu_repositoryName := None; vu_repositoryType := None |}.

Definition enabledConfig : Config := {| co_batchSize := Some 2; co_enabled := true; co_minSeverity := "medium" |}.

Definition aPush (sev : VulnerabilitySeverity) : Step :=
  SPush 1 "t" "s" "Developer" [anyFinding "s" sev] minimalContext None None None.

(** Three pushes pass the severity limit; the first batch is refused and sent
    again with the third record. *)
Definition someSends : list Step :=
  [aPush high; aPush low; aPush medium; SAnswer true 2 0 (Refused "HTTP 503"); aPush critical; SAnswer true 3 0 Accepted].

Lemma training_records_delivered_witness :
  let s := run (pretty (A := nat)) (fun _ => true) someSends (init enabledConfig) in
  (tr_id <$> delivered s) = ["0"; "1"; "2"] /\ buffer s = [] /\ inFlight s = [] /\
  (ro_sent_to_sentinental <$> table s) = [true; true; true] /\ (ro_send_attempts <$> table s) = [1; 1; 0] /\
  forall r, r ∈ table s -> ro_record r ∈ delivered s.
Proof.
  intros s. split_and!; [vm_compute; reflexivity..|].
  destruct (training_records_delivered (pretty (A := nat)) (fun _ => true) enabledConfig someSends s _ eq_refl eq_refl eq_refl)
    as (_ & _ & _ & Hd).
  apply Hd; vm_compute; reflexivity.
Defined.

(** ** The end of a run *)

Section EndOfRun.
Context (genId : nat -> string).

(** Stored identifiers were generated. *)
Definition tableOk (s : State) : Prop := forall r, r ∈ table s -> exists n, n < created s /\ ro_id r = genId n.

Lemma tableOk_same s s' : table s' = table s -> created s' = created s -> tableOk s -> tableOk s'.
Proof. unfold tableOk. by intros -> ->. Qed.

Lemma tableOk_records s s' :
  (forall r, r ∈ table s' -> exists q, q ∈ table s /\ ro_record r = ro_record q) -> created s' = created s -> tableOk s -> tableOk s'.
Proof.
  intros Hr Hc Hs r (q & Hq & He)%Hr. destruct (Hs q Hq) as (n & Hn & Hid). exists n. rewrite Hc. split; [done|].
  unfold ro_id in *. by rewrite He.
Qed.

Lemma push_tableOk up now t sid ph vs x a m p s : tableOk s -> tableOk (pushSecurityData genId up now t sid ph vs x a m p s).
Proof.
  intros Hs. unfold pushSecurityData. destruct (base.filter _ vs) as [|v l]; [done|]. set (r := trainingRecord _ _ _ _ _ _ _ _ _ _).
  destruct (enqueue_fields r (persist up now r s)) as (_ & E2 & E3 & _). unfold tableOk. rewrite E2, E3. cbn [persist table created].
  unfold create. intros q. destruct (_ && _); cbn [default from_option id].
  - intros [(n & ? & ?)%Hs| ->%list_elem_of_singleton]%elem_of_app; [exists n; split; [lia|done]|exists (created s); split; [lia|done]].
  - intros (n & ? & ?)%Hs. exists n. split; [lia|done].
Qed.

Lemma step_tableOk up x s : tableOk s -> tableOk (step genId up x s).
Proof.
  intros Hs. destruct x as [now t sid ph vs x a m p|now t spy| |dbUp now i a|now limit a dbUp|c|now days|]; cbn [step].
  - by apply push_tableOk.
  - unfold push. revert s Hs. induction (bySession _) as [|e l IH]; intros s Hs; [done|]. by apply IH, push_tableOk.
  - unfold tick. destruct (flushTimer s); [|done]. destruct (flush_fields s) as (_ & H2 & H3 & _). by apply (tableOk_same s).
  - apply (tableOk_records s); [|by unfold answered; destruct (inFlight s !! i); [destruct a|]|done].
    intros r. unfold answered. destruct (inFlight s !! i) as [b|]; [|eauto].
    destruct a, dbUp; cbn [withTable withBuffer table]; [|eauto| |eauto]; intros (q & ? & ? & _)%elem_onIds; eauto.
  - apply (tableOk_records s); [|unfold retryFailed; by repeat case_match|done].
    intros r. unfold retryFailed. destruct (negb _); [eauto|]. destruct (findPending _ _); [eauto|]. destruct a; [|eauto].
    destruct dbUp; cbn [snd table]; [|eauto]. intros (q & ? & ? & _)%elem_onIds; eauto.
  - by apply (tableOk_same s).
  - apply (tableOk_records s); [|done|done]. cbn [withTable table]. intros r [_ ?]%list_elem_of_filter. eauto.
  - unfold shutdown. destruct (flush_fields (stopFlushTimer s)) as (_ & H2 & H3 & _). by apply (tableOk_same s).
Qed.

Lemma run_tableOk up l s : tableOk s -> tableOk (run genId up l s).
Proof. revert s. induction l as [|x l IH]; intros s Hs; [done|]. by apply IH, step_tableOk. Qed.

End EndOfRun.

(** Grouping keeps every finding, under its own session. *)
Lemma bySession_spec vs :
  JsMap.wf (bySession vs) /\ concat (bySession vs).*2 ≡ₚ vs /\
  forall k l, (k, l) ∈ bySession vs -> l <> [] /\ Forall (fun v => vu_sessionId v = k) l.
Proof.
  unfold bySession. induction vs as [|v vs (H1 & H2 & H3)] using rev_ind.
  - split; [constructor|]. split; [done|]. by intros ?? ?%elem_of_nil.
  - rewrite fold_left_app. cbn [fold_left]. set (m := fold_left _ vs []) in *. set (k := vu_sessionId v).
    assert (Hv : forall l, JsMap.get k m = Some l -> Forall (fun v => vu_sessionId v = k) l)
      by (intros l Hl%JsMap.get_Some_elem; by apply (H3 k l)).
    split; [by apply JsMap.wf_set|]. split.
    + destruct (JsMap.get k m) as [l|] eqn:Hg; cbn [default from_option id].
      * transitivity (concat m.*2 ++ [v]); [|by rewrite H2]. clear H1 H2 H3 Hv. revert Hg. clearbody m.
        induction m as [|[k' l'] m IH]; [done|]. cbn [JsMap.get JsMap.set]. case_decide as Hk.
        -- intros [= ->]. cbn. solve_Permutation.
        -- intros Hg. cbn. rewrite (IH Hg). solve_Permutation.
      * rewrite JsMap.keys_set_fresh by done. rewrite fmap_app, concat_app. cbn. by rewrite H2.
    + intros k' l' Hin%JsMap.elem_get; [|by apply JsMap.wf_set]. destruct (decide (k = k')) as [<-|Hne].
      * rewrite JsMap.get_set_eq in Hin. injection Hin as <-. split; [by destruct (default [] _)|].
        apply list.Forall_app. split; [|by constructor]. destruct (JsMap.get k m) as [l|]; [by apply Hv|constructor].
      * rewrite JsMap.get_set_ne in Hin by done. by apply H3, JsMap.get_Some_elem.
Qed.

Lemma passes_low v : passes "low" v = true.
Proof. unfold passes. by destruct (vu_severity v). Qed.

(** The row a group becomes. *)
Definition groupRow (t : string) (e : string * list SpyVulnerability) (r : Row) : Prop :=
  tr_vulnerabilities (ro_record r) = e.2 /\ tr_sessionId (ro_record r) = e.1 /\ tr_taskId (ro_record r) = t /\
  tr_traceLevel (ro_record r) = bronze.

Lemma push_row genId now t e s :
  Inj (=) (=) genId -> tableOk genId s -> minSeverity s = "low" -> e.2 <> [] ->
  let s' := pushSecurityData genId (fun _ => true) now t e.1 (phaseOf e.2) e.2 minimalContext None None None s in
  exists r, table s' = table s ++ [r] /\ groupRow t e r /\ config s' = config s.
Proof.
  intros Hinj Hs Hmin Hne. cbn zeta. unfold pushSecurityData. rewrite Hmin, filter_all by (intros; apply passes_low).
  destruct e as [k [|v l]]; [done|]. cbn [fst snd] in *. set (r := trainingRecord _ _ _ _ _ _ _ _ _ _).
  destruct (enqueue_fields r (persist (fun _ => true) now r s)) as (E1 & E2 & _). rewrite E1, E2. cbn [persist table config].
  unfold create. assert (Hd : existsb (fun x => bool_decide (ro_id x = tr_id r)) (table s) = false).
  { apply not_true_iff_false. rewrite existsb_exists. intros (q & Hq & Hid%bool_decide_eq_true).
    apply list_elem_of_In, Hs in Hq as (n & Hn & Hq). rewrite Hq in Hid. apply Hinj in Hid. lia. }
  rewrite Hd. cbn [andb negb default from_option id]. eexists. split; [done|]. by split.
Qed.

Lemma pushes_rows genId now t l s :
  Inj (=) (=) genId -> tableOk genId s -> minSeverity s = "low" -> Forall (fun e => e.2 <> []) l ->
  exists rows,
    table (fold_left (fun s e => pushSecurityData genId (fun _ => true) now t e.1 (phaseOf e.2) e.2 minimalContext None None None s) l s)
      = table s ++ rows /\ Forall2 (groupRow t) l rows.
Proof.
  intros Hinj. revert s. induction l as [|e l IH]; intros s Hs Hmin Hl; [exists []; by rewrite app_nil_r|].
  inversion Hl as [|?? He Hl']; subst. cbn [fold_left].
  destruct (push_row genId now t e s Hinj Hs Hmin He) as (r & Hr & Hg & Hc). cbn zeta in *. set (s1 := pushSecurityData _ _ _ _ _ _ _ _ _ _ _ s) in *.
  destruct (IH s1) as (rows & Hrows & Hall); [by apply push_tableOk|unfold minSeverity; by rewrite Hc|done|].
  exists (r :: rows). rewrite Hrows, Hr, <- app_assoc. split; [done|by constructor].
Qed.

Lemma cleared taskId spy : getVulnerabilities taskId (AgentSpy.clear taskId spy) = [].
Proof. unfold getVulnerabilities, AgentSpy.clear. cbn. by rewrite JsMap.get_delete_eq. Qed.

Lemma groups_sessions t l rows : Forall2 (groupRow t) l rows -> (fun r => tr_sessionId (ro_record r)) <$> rows = l.*1.
Proof. induction 1 as [|e r l rows (_ & H2 & _) _ IH]; [done|]. cbn. by rewrite H2, IH. Qed.

Lemma groups_vulnerabilities t l rows : Forall2 (groupRow t) l rows -> (fun r => tr_vulnerabilities (ro_record r)) <$> rows = l.*2.
Proof. induction 1 as [|e r l rows (H1 & _) _ IH]; [done|]. cbn. by rewrite H1, IH. Qed.

(** The end of a run: in every reachable state of the webhook with the least
    severity as its limit and a database that accepts the statements, ending
    the run of a task stores one record for each session in which the spy
    found something; together they hold all findings of the task, each under
    its own session; afterwards the spy has none of them left. Such a record
    is always of the lowest trace level. *)
Theorem end_of_run_stores_findings genId c l now taskId w :
  Inj (=) (=) genId ->
  PhaseTracker.w_hook w = run genId (fun _ => true) l (init c) ->
  minSeverity (PhaseTracker.w_hook w) = "low" ->
  let w' := PhaseTracker.endOfRun genId (fun _ => true) now taskId w in
  exists rows,
    table (PhaseTracker.w_hook w') = table (PhaseTracker.w_hook w) ++ rows /\
    concat ((fun r => tr_vulnerabilities (ro_record r)) <$> rows) ≡ₚ getVulnerabilities taskId (PhaseTracker.w_spy w) /\
    NoDup ((fun r => tr_sessionId (ro_record r)) <$> rows) /\
    Forall (fun r => tr_taskId (ro_record r) = taskId /\ tr_traceLevel (ro_record r) = bronze /\
                     Forall (fun v => vu_sessionId v = tr_sessionId (ro_record r)) (tr_vulnerabilities (ro_record r))) rows /\
    getVulnerabilities taskId (PhaseTracker.w_spy w') = [].
Proof.
  intros Hinj Hw Hmin. cbn zeta. cbn [PhaseTracker.endOfRun PhaseTracker.cleanupTaskTracking PhaseTracker.withHook PhaseTracker.w_hook PhaseTracker.w_spy].
  assert (Hok : tableOk genId (PhaseTracker.w_hook w)) by (rewrite Hw; apply run_tableOk; by intros ? ?%elem_of_nil).
  destruct (bySession_spec (getVulnerabilities taskId (PhaseTracker.w_spy w))) as (B1 & B2 & B3).
  destruct (pushes_rows genId now taskId (bySession (getVulnerabilities taskId (PhaseTracker.w_spy w))) (PhaseTracker.w_hook w))
    as (rows & Hr & Hall); [done..| |].
  { apply list.Forall_forall. intros [k vs] Hin. by apply (B3 k vs). }
  exists rows. split; [exact Hr|]. rewrite (groups_sessions _ _ _ Hall), (groups_vulnerabilities _ _ _ Hall).
  repeat split; [done|exact B1| |apply cleared].
  apply list.Forall_forall. intros r Hin. apply list_elem_of_lookup in Hin as [i Hi].
  destruct (Forall2_lookup_r _ _ _ _ _ Hall Hi) as ([k vs] & He & (V & S & T & L)). cbn [fst snd] in *.
  apply list_elem_of_lookup_2, B3 in He as [_ He]. by rewrite V, S.
Qed.

Definition foundSpy : Spy := storeDetected "t" [anyFinding "s1" high; anyFinding "s2" low; anyFinding "s1" medium] initSpy.

Definition runWorld : PhaseTracker.World :=
  {| PhaseTracker.w_tasks := []; PhaseTracker.w_spy := foundSpy;
     PhaseTracker.w_hook := run (pretty (A := nat)) (fun _ => true) [aPush high]
       (init {| co_batchSize := None; co_enabled := false; co_minSeverity := EmptyString |});
     PhaseTracker.w_bridge := EventBridge.init |}.

Lemma end_of_run_stores_findings_witness :
  let w' := PhaseTracker.endOfRun (pretty (A := nat)) (fun _ => true) 5 "t" runWorld in
  ((fun r => (tr_id (ro_record r), tr_sessionId (ro_record r), length (tr_vulnerabilities (ro_record r)))) <$>
     table (PhaseTracker.w_hook w')) = [("0", "s", 1); ("1", "s1", 2); ("2", "s2", 1)] /\
  getVulnerabilities "t" (PhaseTracker.w_spy w') = [].
Proof.
  destruct (end_of_run_stores_findings (pretty (A := nat)) {| co_batchSize := None; co_enabled := false; co_minSeverity := EmptyString |}
              [aPush high] 5 "t" runWorld _ eq_refl eq_refl) as (rows & Hr & _ & _ & _ & Hc).
  split; [vm_compute; reflexivity|exact Hc].
Defined.

(** ** Remarks on the code *)

(** The findings of a phase are added to those seen before the history is
    built: a phase that found anything is always reported as recurring. *)
Lemma phase_always_recurring now c st success t :
  PhaseTracker.ps_vulnerabilities st <> [] ->
  let h := PhaseTracker.buildTaskHistory now (PhaseTracker.phaseCompleted c st success t) (PhaseTracker.ps_vulnerabilities st) in
  th_isRecurring h = true /\ th_recurrenceCount h = length (remove_dups (vu_type <$> PhaseTracker.ps_vulnerabilities st)).
Proof.
  intros Hne. cbn zeta. cbn [PhaseTracker.buildTaskHistory th_isRecurring th_recurrenceCount].
  assert (Hf : base.filter (fun ty => ty ∈ sv_type <$> PhaseTracker.ts_allVulnerabilities (PhaseTracker.phaseCompleted c st success t))
                 (remove_dups (vu_type <$> PhaseTracker.ps_vulnerabilities st)) = remove_dups (vu_type <$> PhaseTracker.ps_vulnerabilities st)).
  { apply filter_all. intros ty Hty. rewrite elem_of_remove_dups in Hty. cbn [PhaseTracker.phaseCompleted PhaseTracker.ts_allVulnerabilities].
    rewrite fmap_app, elem_of_app. right. rewrite <- list_fmap_compose. exact Hty. }
  rewrite Hf. split; [|done]. destruct (remove_dups (vu_type <$> PhaseTracker.ps_vulnerabilities st)) as [|ty l] eqn:Hd; [|done].
  destruct (PhaseTracker.ps_vulnerabilities st) as [|v vs] eqn:Hv; [done|]. exfalso.
  assert (Hin : vu_type v ∈ remove_dups (vu_type <$> v :: vs)) by (apply elem_of_remove_dups; by left).
  rewrite Hd in Hin. by apply elem_of_nil in Hin.
Qed.

(** An unknown minimal severity drops everything. *)
Example unknown_severity_drops : passes "hihg" (anyFinding "s" critical) = false.
Proof. by vm_compute. Qed.

End SentinentalSpec.
