(* ===== verification/TaskQueue.v ===== *)
(** * Task queue (src/services/queue/TaskQueue.ts)

    Three BullMQ queues kept in Redis. BullMQ is outside the repository: its
    operations are the class [BullMQ], and the documented behaviour some
    theorems rely on is the class [BullMQOk]. The service adds the choice of
    queue, of the job id and of the priority, and the clean-up at start-up. *)

From S2P Require Import Prelude TaskTypes Orchestrator.
From stdpp Require Import options.

Module TaskQueue.
Import Orchestrator.

(** [QUEUE_NAMES] *)
Definition TASKS : string := "task-execution".
Definition PRIORITY : string := "task-execution-priority".
Definition COMMITS : string := "git-commits".

(** [startFromPhase] is a string here: the routes cast it with [as any]. *)
Record TaskJobData := {
  jd_taskId : string;
  jd_userId : string;
  jd_projectId : option string;
  jd_title : option string;
  jd_description : option string;
  jd_repositoryIds : option (list string);
  jd_pipelineName : option string;
  jd_workspacePath : option string;
  jd_repositories : option (list RepositoryInfo);
  jd_githubToken : option string;
  jd_approvalMode : option ApprovalMode;
  jd_priority : option Z;
  jd_startFromPhase : option string;
  jd_preserveAnalysis : option bool;
  jd_preserveStories : option bool;
  jd_continuedFromTaskId : option string;
}.

Record CommitJobData := {
  cj_taskId : string; cj_repoPath : string; cj_message : string; cj_githubToken : string }.

(** The fields of [JobsOptions] the code sets; ages in seconds. *)
Record JobsOptions := {
  jo_attempts : option nat;
  jo_backoffDelay : option Z;
  jo_keepCompleted : option (Z * nat);
  jo_keepFailed : option Z;
  jo_priority : option Z;
  jo_delay : option Z;
  jo_jobId : option string;
}.

Definition noOptions : JobsOptions :=
  {| jo_attempts := None; jo_backoffDelay := None; jo_keepCompleted := None;
     jo_keepFailed := None; jo_priority := None; jo_delay := None; jo_jobId := None |}.

Definition defaultJobOptions : JobsOptions :=
  {| jo_attempts := Some 3; jo_backoffDelay := Some 5000%Z;
     jo_keepCompleted := Some ((24 * 3600)%Z, 1000); jo_keepFailed := Some (7 * 24 * 3600)%Z;
     jo_priority := None; jo_delay := None; jo_jobId := None |}.

Inductive JobState := JWaiting | JActive | JDelayed | JPrioritized | JCompleted | JFailed | JUnknown.

#[global] Instance JobState_eq_dec : EqDecision JobState.
Proof. solve_decision. Defined.

Record Job (D : Type) := mkJob { job_id : string; job_data : D }.
Arguments mkJob {_} _ _.
Arguments job_id {_} _.
Arguments job_data {_} _.

(** What the service calls of BullMQ. A [Queue] is the handle together with the
    contents of the queue in Redis; a job is addressed by its id. *)
Class BullMQ := {
  Queue : Type -> Type;
  newQueue {D} : string -> JobsOptions -> Queue D;
  bq_add {D} : string -> D -> JobsOptions -> Queue D -> outcome (Job D) * Queue D;
  bq_getJob {D} : string -> Queue D -> option (Job D);
  bq_getState {D} : string -> Queue D -> JobState;
  bq_getJobs {D} : list JobState -> Queue D -> list (Job D);
  bq_remove {D} : string -> Queue D -> outcome unit * Queue D;
  bq_moveToFailed {D} : string -> string -> string -> Queue D -> outcome unit * Queue D;
  bq_pause {D} : Queue D -> Queue D;
  bq_resume {D} : Queue D -> Queue D;
  bq_drain {D} : Queue D -> Queue D;
  bq_close {D} : Queue D -> Queue D;
}.

(** The state of a job that was just added. *)
Definition addedState (o : JobsOptions) : JobState :=
  if (0 <? default 0 (jo_delay o))%Z then JDelayed
  else if (0 <? default 0 (jo_priority o))%Z then JPrioritized
  else JWaiting.

(** Documented behaviour of BullMQ: adding a job whose id exists (in any state,
    finished jobs that are still kept included) is ignored; a new job is
    stored under its id, delayed, prioritized or waiting by its options;
    [getJobs] lists exactly the jobs in the given states, each once; a removal
    that succeeds removes that job only. *)
Class BullMQOk `{B : BullMQ} : Prop := {
  add_existing {D} n (d : D) o i q :
    jo_jobId o = Some i -> is_Some (bq_getJob i q) ->
    exists j, bq_add n d o q = (Ok j, q) /\ job_id j = i;
  add_fresh {D} n (d : D) o i q j q' :
    jo_jobId o = Some i -> bq_getJob i q = None -> bq_add n d o q = (Ok j, q') ->
    job_id j = i /\ job_data j = d /\ bq_getJob i q' = Some j /\ bq_getState i q' = addedState o
    /\ forall i', i' <> i -> bq_getJob i' q' = bq_getJob i' q /\ bq_getState i' q' = bq_getState i' q;
  getJobs_spec {D} sts (q : Queue D) j :
    j ∈ bq_getJobs sts q <-> bq_getJob (job_id j) q = Some j /\ bq_getState (job_id j) q ∈ sts;
  getJobs_ids {D} sts (q : Queue D) : NoDup (job_id <$> bq_getJobs sts q);
  getJob_id {D} i (q : Queue D) j : bq_getJob i q = Some j -> job_id j = i;
  remove_spec {D} i (q q' : Queue D) :
    bq_remove i q = (Ok tt, q') ->
    bq_getJob i q' = None
    /\ forall i', i' <> i -> bq_getJob i' q' = bq_getJob i' q /\ bq_getState i' q' = bq_getState i' q;
}.

Record AddOptions := { ao_priority : option Z; ao_delay : option Z; ao_isPro : option bool }.

(** [a || b] on numbers: an absent number or 0 is falsy. *)
Definition orNumber (a : option Z) (b : Z) : Z :=
  match a with Some 0%Z | None => b | Some n => n end.

Definition taskJobOptions (d : TaskJobData) (o : option AddOptions) : JobsOptions :=
  {| jo_attempts := jo_attempts defaultJobOptions;
     jo_backoffDelay := jo_backoffDelay defaultJobOptions;
     jo_keepCompleted := jo_keepCompleted defaultJobOptions;
     jo_keepFailed := jo_keepFailed defaultJobOptions;
     jo_priority := Some (orNumber (x ← o; ao_priority x) (orNumber (jd_priority d) 0));
     jo_delay := x ← o; ao_delay x;
     jo_jobId := Some (jd_taskId d) |}.

Section service.
Context `{B : BullMQ}.

Record State := {
  taskQueue : option (Queue TaskJobData);
  priorityQueue : option (Queue TaskJobData);
  commitQueue : option (Queue CommitJobData);
}.

Definition init : State := {| taskQueue := None; priorityQueue := None; commitQueue := None |}.

Definition withPriority (p : Z) (o : JobsOptions) : JobsOptions :=
  {| jo_attempts := jo_attempts o; jo_backoffDelay := jo_backoffDelay o;
     jo_keepCompleted := jo_keepCompleted o; jo_keepFailed := jo_keepFailed o;
     jo_priority := Some p; jo_delay := jo_delay o; jo_jobId := jo_jobId o |}.

Definition withAttempts (n : nat) (o : JobsOptions) : JobsOptions :=
  {| jo_attempts := Some n; jo_backoffDelay := jo_backoffDelay o;
     jo_keepCompleted := jo_keepCompleted o; jo_keepFailed := jo_keepFailed o;
     jo_priority := jo_priority o; jo_delay := jo_delay o; jo_jobId := jo_jobId o |}.

(** The queue events emitter, used for monitoring only, is left out. *)
Definition initialize (st : State) : State :=
  {| taskQueue := Some (newQueue TASKS defaultJobOptions);
     priorityQueue := Some (newQueue PRIORITY (withPriority 1 defaultJobOptions));
     commitQueue := Some (newQueue COMMITS (withAttempts 2 defaultJobOptions)) |}.

(** The queue of a Pro user, and the main one. *)
Definition queueOf (isPro : bool) (st : State) : option (Queue TaskJobData) :=
  if isPro then priorityQueue st else taskQueue st.

Definition setQueue (isPro : bool) (q : Queue TaskJobData) (st : State) : State :=
  {| taskQueue := if isPro then taskQueue st else Some q;
     priorityQueue := if isPro then Some q else priorityQueue st;
     commitQueue := commitQueue st |}.

Definition addTask (d : TaskJobData) (o : option AddOptions) (st : State)
    : outcome (Job TaskJobData) * State :=
  let isPro := default false (x ← o; ao_isPro x) in
  match queueOf isPro st with
  | None => (Throw "Queue not initialized", st)
  | Some q =>
      let '(r, q') := bq_add "execute-task" d (taskJobOptions d o) q in
      (r, setQueue isPro q' st)
  end.

Definition addCommit (d : CommitJobData) (st : State) : outcome (Job CommitJobData) * State :=
  match commitQueue st with
  | None => (Throw "Commit queue not initialized", st)
  | Some q =>
      let '(r, q') := bq_add "git-commit" d noOptions q in
      (r, {| taskQueue := taskQueue st; priorityQueue := priorityQueue st;
             commitQueue := Some q' |})
  end.

(** A job object knows its queue: the answer says which one (the main queue
    first). *)
Definition getJob (taskId : string) (st : State) : option (bool * Job TaskJobData) :=
  match taskQueue st with
  | None => None
  | Some q =>
      match bq_getJob taskId q with
      | Some j => Some (false, j)
      | None => pq ← priorityQueue st; j ← bq_getJob taskId pq; Some (true, j)
      end
  end.

(** [job.getState()] *)
Definition stateOf (isPro : bool) (i : string) (st : State) : JobState :=
  match queueOf isPro st with Some q => bq_getState i q | None => JUnknown end.

Definition getQueuePosition (taskId : string) (st : State) : option nat :=
  '(isPro, j) ← getJob taskId st;
  if bool_decide (stateOf isPro (job_id j) st ∈ [JWaiting; JDelayed]) then
    q ← taskQueue st;
    '(i, _) ← list_find (fun j' => job_id j' = taskId) (bq_getJobs [JWaiting] q);
    Some (i + 1)
  else None.

(** [job.remove()], [job.moveToFailed(...)] on the queue of the job *)
Definition onJob (isPro : bool)
    (f : Queue TaskJobData -> outcome unit * Queue TaskJobData) (st : State) : outcome unit * State :=
  match queueOf isPro st with
  | None => (Ok tt, st)
  | Some q => let '(r, q') := f q in (r, setQueue isPro q' st)
  end.

Definition cancelTask (taskId : string) (st : State) : outcome bool * State :=
  match getJob taskId st with
  | None => (Ok false, st)
  | Some (isPro, j) =>
      let s := stateOf isPro (job_id j) st in
      let answer (r : outcome unit * State) : outcome bool * State :=
        match r with (Ok _, st') => (Ok true, st') | (Throw e, st') => (Throw e, st') end in
      if bool_decide (s = JWaiting \/ s = JDelayed) then
        answer (onJob isPro (bq_remove (job_id j)) st)
      else if bool_decide (s = JActive) then
        answer (onJob isPro (bq_moveToFailed (job_id j) "Cancelled by user" "cancelled") st)
      else (Ok false, st)
  end.

Record QueueStats := {
  qs_waiting : nat; qs_active : nat; qs_completed : nat; qs_failed : nat; qs_delayed : nat;
  qs_priorityWaiting : nat }.

Definition countIn (s : JobState) (q : Queue TaskJobData) : nat := length (bq_getJobs [s] q).

Definition getStats (st : State) : QueueStats :=
  match taskQueue st, priorityQueue st with
  | Some q, Some pq =>
      {| qs_waiting := countIn JWaiting q; qs_active := countIn JActive q;
         qs_completed := countIn JCompleted q; qs_failed := countIn JFailed q;
         qs_delayed := countIn JDelayed q; qs_priorityWaiting := countIn JWaiting pq |}
  | _, _ => {| qs_waiting := 0; qs_active := 0; qs_completed := 0; qs_failed := 0;
               qs_delayed := 0; qs_priorityWaiting := 0 |}
  end.

(** [Math.ceil(n / c)]; [None] where the division gives no integer. *)
Definition ceilDiv (n : nat) (c : Z) : option Z :=
  if (c =? 0)%Z then None else Some (- (- Z.of_nat n / c))%Z.

(** The environment variables are arguments. *)
Definition getEstimatedWaitTime (avgTaskDuration concurrency : Z) (isPro : bool) (st : State)
    : option Z :=
  let s := getStats st in
  let ahead := if isPro then qs_priorityWaiting s else qs_priorityWaiting s + qs_waiting s in
  k ← ceilDiv ahead concurrency; Some (k * avgTaskDuration)%Z.

(** [pauseAll], [resumeAll], [drainAll], [close] apply one operation to every
    queue that exists. *)
Definition onAll (f : forall D, Queue D -> Queue D) (st : State) : State :=
  {| taskQueue := f _ <$> taskQueue st; priorityQueue := f _ <$> priorityQueue st;
     commitQueue := f _ <$> commitQueue st |}.

Definition pauseAll : State -> State := onAll (@bq_pause _).
Definition resumeAll : State -> State := onAll (@bq_resume _).
Definition drainAll : State -> State := onAll (@bq_drain _).
Definition close : State -> State := onAll (@bq_close _).

Definition staleStates : list JobState := [JActive; JWaiting; JDelayed].

(** [await job.remove().catch(() => {})] for every job *)
Definition removeJobs (js : list (Job TaskJobData)) (q : Queue TaskJobData) : Queue TaskJobData :=
  fold_left (fun q j => (bq_remove (job_id j) q).2) js q.

(** The task ids of the main queue are pushed as they come, those of the
    priority queue only when they are new. *)
Definition pushId (ids : list string) (j : Job TaskJobData) : list string :=
  if JsStr.truthy (jd_taskId (job_data j)) then ids ++ [jd_taskId (job_data j)] else ids.

Definition pushNewId (ids : list string) (j : Job TaskJobData) : list string :=
  if JsStr.truthy (jd_taskId (job_data j)) && negb (bool_decide (jd_taskId (job_data j) ∈ ids))
  then ids ++ [jd_taskId (job_data j)] else ids.

Definition cleanStaleJobsOnStartup (st : State) : nat * list string * State :=
  match taskQueue st, priorityQueue st with
  | Some q, Some pq =>
      let activeJobs := bq_getJobs staleStates q in
      let ids := fold_left pushId activeJobs [] in
      let priorityJobs := bq_getJobs staleStates pq in
      (length activeJobs + length priorityJobs, fold_left pushNewId priorityJobs ids,
       {| taskQueue := Some (removeJobs activeJobs q);
          priorityQueue := Some (removeJobs priorityJobs pq); commitQueue := commitQueue st |})
  | _, _ => (0, [], st)
  end.

End service.

(** ** BullMQ in memory

    A queue that keeps every job, to evaluate the definitions and to show that
    the documented behaviour can be had: a finite map from job id to the data
    and the state of the job. *)
Module MemBull.

Definition add {D} (n : string) (d : D) (o : JobsOptions) (q : gmap string (D * JobState))
    : outcome (Job D) * gmap string (D * JobState) :=
  let i := default n (jo_jobId o) in
  match q !! i with
  | Some _ => (Ok (mkJob i d), q)
  | None => (Ok (mkJob i d), <[i := (d, addedState o)]> q)
  end.

Definition jobs {D} (sts : list JobState) (q : gmap string (D * JobState)) : list (Job D) :=
  (fun e => mkJob e.1 e.2.1) <$> map_to_list (base.filter (fun e => e.2.2 ∈ sts) q).

#[export] Instance memBull : BullMQ :=
  {| Queue D := gmap string (D * JobState);
     newQueue D _ _ := ∅;
     bq_add D n d o q := add n d o q;
     bq_getJob D i q := (fun e => mkJob i e.1) <$> q !! i;
     bq_getState D i q := default JUnknown (snd <$> q !! i);
     bq_getJobs D sts q := jobs sts q;
     bq_remove D i q := (Ok tt, base.delete i q);
     bq_moveToFailed D i _ _ q := (Ok tt, alter (fun e => (e.1, JFailed)) i q);
     bq_pause D q := q; bq_resume D q := q;
     bq_drain D q := base.filter (fun e => e.2.2 <> JWaiting) q;
     bq_close D q := q |}.

#[export] Instance memBullOk : BullMQOk.
Proof.
  split; cbn; unfold add, jobs.
  - intros D n d o i q -> [j Hj]. cbn. destruct (q !! i); [|done]. by eexists.
  - intros D n d o i q j q' -> Hn. cbn. destruct (q !! i) eqn:E; [done|]. intros [= <- <-].
    rewrite lookup_insert_eq. split_and!; [done..|]. intros i' Hi. by rewrite lookup_insert_ne.
  - intros D sts q j. rewrite list_elem_of_fmap. split.
    + intros ([i [d st]] & -> & Hin). apply elem_of_map_to_list, map_lookup_filter_Some in Hin.
      destruct Hin as [Hq Hst]. cbn. by rewrite Hq.
    + intros [Hj Hst]. destruct (q !! job_id j) as [[d st]|] eqn:E; [|done].
      injection Hj as Hj. exists (job_id j, (d, st)). split; [by destruct j; simplify_eq/=|].
      apply elem_of_map_to_list, map_lookup_filter_Some. done.
  - intros D sts q. rewrite <- list_fmap_compose.
    replace (job_id ∘ _) with (@fst string (D * JobState)) by done. apply NoDup_fst_map_to_list.
  - intros D i q j. by intros (e & _ & ->)%fmap_Some.
  - intros D i q q' [= <-]. rewrite lookup_delete_eq. split; [done|].
    intros i' Hi. by rewrite lookup_delete_ne.
Qed.

End MemBull.

End TaskQueue.
