(* ===== verification/TaskWorker.v ===== *)
(** * Task worker (src/workers/TaskWorker.ts)

    One job: mark the task running, restore its costs when it is resumed, run
    the orchestrator with the options of the job, store the outcome. A thrown
    error is stored and thrown again for the queue. The UPDATE of a status can
    be rejected, before the [try], in it and in the [catch]; the queries of the
    orchestrator succeed, as in its model. Starting, pausing and closing the
    BullMQ workers is not modelled. *)

From S2P Require Import Prelude JsNumber TaskTypes TaskRepository MergePhase GlobalScan Json BuildCheck CostTracker Orchestrator TaskQueue.
From stdpp Require Import options.

Module TaskWorker.
Import TaskRepository MergePhase GlobalScan Orchestrator TaskQueue.

(** The column [result]: [JSON.stringify] of the result, or of [null]. *)
Inductive StoredResult := StoredNull | Stored (r : OrchestrationResult).

(** The columns of [tasks] that only the worker writes. *)
Record RunColumns := {
  started_at : option Z;
  completed_at : option Z;
  error_message : option string;
  result : option StoredResult;
}.

(** [task:completed] carries a summary of the result. *)
Record CompletedSummary := {
  cs_success : bool; cs_prUrl : option string; cs_prNumber : option Z; cs_merged : option bool;
  cs_storiesCompleted : option nat; cs_totalStories : option nat; cs_vulnerabilities : option nat }.

(** What the user is sent; texts are represented by the data in them. *)
Inductive UserEvent :=
  | UStarted (taskId jobId : string)
  | UAnalysis (taskId : string) (stories : nat)
  | UStory (taskId : string) (index : nat) (storyId : string) (success : bool)
  | UDeveloper (taskId : string) (commits : nat)
  | UPullRequest (taskId : string) (n : Z) (url : string)
  | UCompleted (taskId : string) (sessionId : option string) (s : CompletedSummary)
  | UFailed (taskId error : string) (attempt maxAttempts : nat).

Record W := {
  w_tasks : gmap string TaskRow;
  w_columns : gmap string RunColumns;
  w_costs : CostTracker.State;
  w_events : list (string * UserEvent);
  w_progress : list Z;
  w_redis : list (string * string);
}.

Definition emitToUser (u : string) (e : UserEvent) : JsM W unit :=
  Js.modify (fun w => {| w_tasks := w_tasks w; w_columns := w_columns w; w_costs := w_costs w;
    w_events := w_events w ++ [(u, e)]; w_progress := w_progress w; w_redis := w_redis w |}).

Definition onCosts (f : CostTracker.State -> CostTracker.State) : JsM W unit :=
  Js.modify (fun w => {| w_tasks := w_tasks w; w_columns := w_columns w; w_costs := f (w_costs w);
    w_events := w_events w; w_progress := w_progress w; w_redis := w_redis w |}).

(** The two parts of the row that one [UPDATE tasks] of the worker sets. *)
Definition updateColumns (now : Z) (s : TaskStatus) (r : option StoredResult) (e : option string)
    (c : RunColumns) : RunColumns :=
  {| started_at := if bool_decide (s = Running) then Some now else started_at c;
     completed_at := if bool_decide (s = Completed \/ s = Failed) then Some now else completed_at c;
     error_message := match e with Some _ => e | None => error_message c end;
     result := match r with Some _ => r | None => result c end |}.

Definition updateRowStatus (now : Z) (s : TaskStatus) (e : option string) (r : TaskRow) : TaskRow :=
  withStatus now s (match e with Some _ => e | None => failure_reason r end) r.

(** The three [setex] of the session mapping. *)
Definition storeSessionMapping (taskId sessionId userId : string) : JsM W unit :=
  Js.modify (fun w =>
    {| w_tasks := w_tasks w; w_columns := w_columns w; w_costs := w_costs w;
       w_events := w_events w; w_progress := w_progress w;
       w_redis := w_redis w ++ [("session:" +:+ sessionId +:+ ":task", taskId);
                                ("session:" +:+ sessionId +:+ ":user", userId);
                                ("task:" +:+ taskId +:+ ":session", sessionId)] |}).

(** The phase a name stands for. The orchestrator uses it only through
    [phaseOrder.indexOf(...) > n], so an unknown name (index -1) is as good as
    none (index 0). *)
Definition phaseOfName (s : string) : option RetryablePhase :=
  snd <$> list_find (fun p => phaseName p = s) phaseOrder.

(** The options of the run; those the worker does not give are absent: no
    auto-merge and no merge approval callback among them. *)
Definition workerOptions (d : TaskJobData) : OrchestrationOptions :=
  {| opt_projectPath := default EmptyString (jd_workspacePath d);
     opt_repositories := default [] (jd_repositories d);
     opt_phaseApprovalMode := Some (default Manual (jd_approvalMode d));
     opt_autoMerge := None; opt_skipPlanning := false; opt_skipPlanningForSimpleTasks := None;
     opt_skipTestGeneration := false; opt_coverageThreshold := None;
     opt_enableContextCache := None; opt_useEnhancedGitHub := false;
     opt_startFromPhase := s ← jd_startFromPhase d; phaseOfName s;
     opt_preserveAnalysis := default false (jd_preserveAnalysis d);
     opt_onMergeApprovalRequired := None |}.

(** The callbacks the worker passes: progress and an event to the user. *)
Definition callbackProgress (c : Callback) : option Z :=
  match c with
  | CbAnalysis _ => Some 25%Z
  | CbDeveloper _ => Some 60%Z
  | CbPullRequest _ _ => Some 80%Z
  | _ => None
  end.

Definition callbackEvent (taskId : string) (c : Callback) : option UserEvent :=
  match c with
  | CbAnalysis n => Some (UAnalysis taskId n)
  | CbStory i id ok => Some (UStory taskId i id ok)
  | CbDeveloper n => Some (UDeveloper taskId n)
  | CbPullRequest n url => Some (UPullRequest taskId n url)
  | CbPlanning | CbTestGeneration => None
  end.

(** [result.developer?.sessionId || result.analysis?.sessionId] *)
Definition sessionIdOf (r : OrchestrationResult) : option string :=
  match JsStr.orNull (dr_sessionId <$> or_developer r) with
  | Some s => Some s
  | None => ar_sessionId <$> or_analysis r
  end.

Definition summaryOfResult (r : OrchestrationResult) : CompletedSummary :=
  {| cs_success := or_success r;
     cs_prUrl := m ← or_merge r; pr_link <$> mr_pullRequest m;
     cs_prNumber := m ← or_merge r; pr_no <$> mr_pullRequest m;
     cs_merged := mr_merged <$> or_merge r;
     cs_storiesCompleted := (fun d => approvedCount (dr_stories d)) <$> or_developer r;
     cs_totalStories := (fun a => length (ar_stories a)) <$> or_analysis r;
     cs_vulnerabilities := (fun g => su_totalVulnerabilities (gs_summary g)) <$> or_globalScan r |}.

Record ProcessResult := {
  pr_success : bool; pr_taskId : string; pr_sessionId : option string;
  pr_result : OrchestrationResult }.

Section process.
Context `{PR : PhaseRunners}.

(** The database's conversion of amounts and whether it answers the cost
    queries, [job.updateProgress] (it fails when the job was removed), and the
    cost events that arrive while the orchestrator runs. *)
Variable numeric_10_6 : JsNum.t -> option JsNum.t.
Variable dbUp : bool.
Variable progress : Z -> outcome unit.
Variable during : CostTracker.State -> CostTracker.State.
Variable now : Z.

(** What the database answers to the UPDATE of a status, with its values. *)
Variable statusWrite : string -> TaskStatus -> option StoredResult -> option string -> outcome unit.

(** [errorMessage] counts only when it is not empty. An UPDATE that is rejected
    has changed nothing. *)
Definition updateTaskStatus (taskId : string) (s : TaskStatus) (r : option StoredResult)
    (errorMessage : option string) : JsM W unit := fun w =>
  let e := JsStr.orNull errorMessage in
  match statusWrite taskId s r e with
  | Throw x => (Throw x, w)
  | Ok _ =>
      (Ok tt, {| w_tasks := updateRow taskId (updateRowStatus now s e) (w_tasks w);
                 w_columns := alter (updateColumns now s r e) taskId (w_columns w); w_costs := w_costs w;
                 w_events := w_events w; w_progress := w_progress w; w_redis := w_redis w |})
  end.

Definition updateProgress (p : Z) : JsM W unit := fun w =>
  (progress p, {| w_tasks := w_tasks w; w_columns := w_columns w; w_costs := w_costs w;
                  w_events := w_events w; w_progress := w_progress w ++ [p];
                  w_redis := w_redis w |}).

(** [orchestratorV2.execute(taskId, {...})]: the callbacks report while it
    runs, the event bridge records costs. *)
Definition runOrchestrator (d : TaskJobData) : JsM W OrchestrationResult := fun w =>
  let '(r, s) := execute now (jd_taskId d) (workerOptions d) (w_tasks w) in
  (r, {| w_tasks := tasks s; w_columns := w_columns w; w_costs := during (w_costs w);
         w_events := w_events w
           ++ (pair (jd_userId d) <$> omap (callbackEvent (jd_taskId d)) (callbacks s));
         w_progress := w_progress w ++ omap callbackProgress (callbacks s);
         w_redis := w_redis w |}).

(** The body of the [try]. *)
Definition processBody (d : TaskJobData) : JsM W ProcessResult :=
  updateProgress 5;;
  r ← runOrchestrator d;
  updateProgress 100;;
  let sid := sessionIdOf r in
  (match JsStr.orNull sid with
   | Some s => storeSessionMapping (jd_taskId d) s (jd_userId d)
   | None => mret tt
   end);;
  updateTaskStatus (jd_taskId d) (if or_success r then Completed else Failed)
    (Some (Stored r)) None;;
  onCosts (CostTracker.persistCostToDb numeric_10_6 dbUp (jd_taskId d));;
  emitToUser (jd_userId d) (UCompleted (jd_taskId d) sid (summaryOfResult r));;
  mret {| pr_success := or_success r; pr_taskId := jd_taskId d; pr_sessionId := sid;
          pr_result := r |}.

(** The [catch]: stored, reported, thrown again. *)
Definition processFailed (attemptsMade : nat) (d : TaskJobData) (e : string) : JsM W ProcessResult :=
  updateTaskStatus (jd_taskId d) Failed (Some StoredNull) (Some e);;
  onCosts (CostTracker.persistCostToDb numeric_10_6 dbUp (jd_taskId d));;
  emitToUser (jd_userId d)
    (UFailed (jd_taskId d) e (attemptsMade + 1) (default 3 (jo_attempts defaultJobOptions)));;
  Js.throw e.

Definition processTask (attemptsMade : nat) (job : Job TaskJobData) : JsM W ProcessResult :=
  let d := job_data job in
  updateTaskStatus (jd_taskId d) Running None None;;
  (match JsStr.orNull (jd_startFromPhase d) with
   | Some _ =>
       onCosts (fun c => (CostTracker.restoreCostsFromDb dbUp now (jd_taskId d) c).2)
   | None => mret tt
   end);;
  emitToUser (jd_userId d) (UStarted (jd_taskId d) (job_id job));;
  Js.try_catch (processBody d) (processFailed attemptsMade d).

End process.

(** ** Commit jobs *)

Inductive CommitOutcome := Skipped | Committed.

Definition dquote : string := BuildCheck.dq.
Definition backslash : string := String (Ascii.ascii_of_nat 92) EmptyString.

(** [message.replace] of every double quote by a backslash and a quote *)
Fixpoint escapeQuotes (s : string) : string :=
  match s with
  | EmptyString => EmptyString
  | String c s' =>
      if bool_decide (c = Ascii.ascii_of_nat 34)
      then backslash +:+ dquote +:+ escapeQuotes s' else String c (escapeQuotes s')
  end.

Definition commitCommand (message : string) : string :=
  "git commit -m " +:+ dquote +:+ escapeQuotes message +:+ dquote.

(** The state is the list of commands run so far; [exec] gives the output of a
    command in a directory. Output is blank when nothing is left after its
    leading white space. *)
Definition processCommit (exec : string -> string -> outcome string)
    (d : CommitJobData) : JsM (list string) CommitOutcome :=
  let run (c : string) : JsM (list string) string := fun l => (exec (cj_repoPath d) c, l ++ [c]) in
  status ← run "git status --porcelain";
  if negb (JsStr.truthy (Json.trimStart status)) then mret Skipped
  else
    run "git add -A";;
    run (commitCommand (cj_message d));;
    (if JsStr.truthy (cj_githubToken d) then run "git push";; mret tt else mret tt);;
    mret Committed.

End TaskWorker.
