(* ===== verification/TaskRoutes.v ===== *)
(** * Task routes (src/api/routes/tasks.ts) and server start (src/server.ts)

    The handlers that start, resume, interrupt, continue, cancel, retry,
    approve and bypass a task: every branch with its HTTP answer. The
    [executions] map of the file, the task table, the queue and the pending
    approvals are the state; projects, repositories, the file system and the
    OpenCode client are the environment [RoutesEnv], with nothing assumed. A
    handler that lets an exception escape ends in [Throw]. *)

From S2P Require Import Prelude TaskTypes TaskRepository Json Approval Orchestrator TaskQueue.
From stdpp Require Import options.

Module TaskRoutes.
Import TaskRepository Orchestrator TaskQueue.

(** [s.trim()] *)
Definition trim (s : string) : string :=
  String.rev (Json.trimStart (String.rev (Json.trimStart s))).

Inductive ExecutionStatus := ExRunning | ExPaused | ExCompleted | ExFailed.

#[global] Instance ExecutionStatus_eq_dec : EqDecision ExecutionStatus.
Proof. solve_decision. Defined.

Record TaskExecution := {
  te_taskId : string;
  te_sessionId : string;
  te_status : ExecutionStatus;
  te_currentPhase : option string;
  te_startedAt : Z;
  te_pausedAt : option Z;
}.

(** What the routes read of a project and of a repository row. *)
Record Project := {
  pj_approvalMode : option ApprovalMode; pj_priority : option Z; pj_isPro : option bool }.

Record RepoRow := {
  rr_id : string; rr_name : string; rr_type : string; rr_executionOrder : option Z }.

(** Calls to the OpenCode client and the event bridge, by session. *)
Inductive SessionCall :=
  | Abort (sessionId : string)
  | Delete (sessionId : string)
  | Unregister (sessionId : string)
  | Prompt (sessionId text : string) (images : nat).

Definition callSession (c : SessionCall) : string :=
  match c with Abort s | Delete s | Unregister s | Prompt s _ _ => s end.

Inductive RouteEvent :=
  | EvStarted (taskId : string) | EvUserActivity (taskId content : string)
  | EvSystemActivity (taskId phase : string)
  | EvQueued (taskId jobId : string) (position : option nat)
  | EvResumed (taskId phase : string) (lastStory : option Z)
  | EvInterrupted (taskId : string) | EvContinued (taskId : string) (hasImages : bool)
  | EvTaskCancelled (taskId : string) (fromQueue : bool)
  | EvRetrying (taskId : string) | EvRetryFrom (taskId phase : string)
  | EvApproved (taskId phase : string) | EvRejected (taskId phase : string)
  | EvBypassed (taskId : string) (phase : option string).

(** The body of an answer with status 200. *)
Inductive Reply :=
  | Queued (taskId jobId : string) (position : option nat) (waitSeconds : option Z) (isPro : bool)
      (resumedFrom : option string)
  | InterruptedAt (pausedAt : Z)
  | NowRunning
  | CancelledReply (fromQueue : bool)
  | RetryQueued (taskId phase jobId : string)
  | ApprovedReply (phase : string) (resolved : bool)
  | RejectedReply (phase : string) (resolved : bool)
  | BypassedReply (phase : option string).

Inductive Response := Res200 (r : Reply) | ResError (code : Z) (error : string).

Class RoutesEnv := {
  getProject : option string -> option Project;
  getUserGitHubToken : string -> option string;
  findByProjectId : option string -> list RepoRow;
  getRepository : string -> option RepoRow;
  workspacesDir : string;
  pathJoin : string -> string -> string;
  workspaceExists : string -> bool;
  (** clone when missing, then write the [.env] file *)
  prepareRepo : string -> RepoRow -> outcome unit;
  connectOpenCode : outcome unit;
  abortSession : string -> outcome unit;
  deleteSession : string -> outcome unit;
  sendPrompt : string -> string -> nat -> outcome unit;
  setAutomatic : string -> outcome unit;
  avgTaskDuration : Z;
  workerConcurrency : Z;
}.

Section routes.
Context `{B : BullMQ} `{E : RoutesEnv}.

Record R := {
  rt_tasks : gmap string TaskRow;
  rt_queue : TaskQueue.State;
  rt_executions : list (string * TaskExecution);
  rt_approvals : ApprovalService.State;
  rt_calls : list SessionCall;
  rt_events : list RouteEvent;
}.

Definition onTasks (f : gmap string TaskRow -> gmap string TaskRow) : JsM R unit :=
  Js.modify (fun s => {| rt_tasks := f (rt_tasks s); rt_queue := rt_queue s;
    rt_executions := rt_executions s; rt_approvals := rt_approvals s; rt_calls := rt_calls s;
    rt_events := rt_events s |}).

Definition onExecutions (f : list (string * TaskExecution) -> list (string * TaskExecution))
    : JsM R unit :=
  Js.modify (fun s => {| rt_tasks := rt_tasks s; rt_queue := rt_queue s;
    rt_executions := f (rt_executions s); rt_approvals := rt_approvals s;
    rt_calls := rt_calls s; rt_events := rt_events s |}).

Definition toTask (e : RouteEvent) : JsM R unit :=
  Js.modify (fun s => {| rt_tasks := rt_tasks s; rt_queue := rt_queue s;
    rt_executions := rt_executions s; rt_approvals := rt_approvals s; rt_calls := rt_calls s;
    rt_events := rt_events s ++ [e] |}).

(** A call to the OpenCode client, recorded, with its outcome. *)
Definition onSession (c : SessionCall) (r : outcome unit) : JsM R unit := fun s =>
  (r, {| rt_tasks := rt_tasks s; rt_queue := rt_queue s; rt_executions := rt_executions s;
         rt_approvals := rt_approvals s; rt_calls := rt_calls s ++ [c];
         rt_events := rt_events s |}).

Definition onQueue {A} (f : TaskQueue.State -> outcome A * TaskQueue.State) : JsM R A := fun s =>
  let '(r, q) := f (rt_queue s) in
  (r, {| rt_tasks := rt_tasks s; rt_queue := q; rt_executions := rt_executions s;
         rt_approvals := rt_approvals s; rt_calls := rt_calls s; rt_events := rt_events s |}).

Definition onApprovals {A} (f : ApprovalService.State -> A * ApprovalService.State) : JsM R A :=
  fun s => let '(r, a) := f (rt_approvals s) in
  (Ok r, {| rt_tasks := rt_tasks s; rt_queue := rt_queue s; rt_executions := rt_executions s;
            rt_approvals := a; rt_calls := rt_calls s; rt_events := rt_events s |}).

Definition lift {A} (o : outcome A) : JsM R A := fun s => (o, s).

Definition fail400 (m : string) : JsM R Response := mret (ResError 400 m).
Definition fail404 (m : string) : JsM R Response := mret (ResError 404 m).

Variable now : Z.

(** The new entry of [executions]. *)
Definition newExecution (taskId : string) : TaskExecution :=
  {| te_taskId := taskId; te_sessionId := EmptyString; te_status := ExRunning;
     te_currentPhase := None; te_startedAt := now; te_pausedAt := None |}.

(** [execution.status = ...; execution.pausedAt = ...] on the shared object *)
Definition setExecution (taskId : string) (s : ExecutionStatus) (pausedAt : option Z) : JsM R unit :=
  onExecutions (fun m =>
    match JsMap.get taskId m with
    | Some e => JsMap.set taskId
        {| te_taskId := te_taskId e; te_sessionId := te_sessionId e; te_status := s;
           te_currentPhase := te_currentPhase e; te_startedAt := te_startedAt e;
           te_pausedAt := pausedAt |} m
    | None => m
    end).

Definition workspaceOf (taskId : string) : string := pathJoin workspacesDir taskId.

Definition repoInfo (workspace : string) (r : RepoRow) : RepositoryInfo :=
  {| r_id := rr_id r; r_name := rr_name r; r_type := rr_type r;
     r_localPath := pathJoin workspace (rr_name r); r_executionOrder := rr_executionOrder r |}.

(** The job a route queues for a task of a project. *)
Definition jobFor (t : Task) (userId : string) (p : Project) (repos : list RepositoryInfo)
    (startFrom : option string) (preserveAnalysis preserveStories : option bool) : TaskJobData :=
  {| jd_taskId := t_id t; jd_userId := userId; jd_projectId := t_projectId t; jd_title := None;
     jd_description := None; jd_repositoryIds := None; jd_pipelineName := Some "v2";
     jd_workspacePath := Some (workspaceOf (t_id t)); jd_repositories := Some repos;
     jd_githubToken := getUserGitHubToken userId;
     jd_approvalMode := Some (default Manual (pj_approvalMode p));
     jd_priority := Some (orNumber (pj_priority p) 0); jd_startFromPhase := startFrom;
     jd_preserveAnalysis := preserveAnalysis; jd_preserveStories := preserveStories;
     jd_continuedFromTaskId := None |}.

(** The [try] at the end of start and resume. *)
Definition queueAndReply (d : TaskJobData) (isPro : bool) (resumedFrom : option string)
    : JsM R Response :=
  Js.try_catch
    (j ← onQueue (addTask d (Some {| ao_priority := jd_priority d; ao_delay := None;
                                     ao_isPro := Some isPro |}));
     position ← Js.gets (fun s => getQueuePosition (jd_taskId d) (rt_queue s));
     wait ← Js.gets (fun s => getEstimatedWaitTime avgTaskDuration workerConcurrency isPro (rt_queue s));
     onTasks (updateStatus now (jd_taskId d) TaskTypes.Queued);;
     toTask (EvQueued (jd_taskId d) (job_id j) position);;
     mret (Res200 (Queued (jd_taskId d) (job_id j) position wait isPro resumedFrom)))
    (fun e =>
     onTasks (updateStatus now (jd_taskId d) Failed);;
     mret (ResError 500 ("Failed to queue task: " +:+ e))).

(** ** POST /:taskId/start *)

(** Cloning in order; the first failure escapes. *)
Fixpoint prepareRepos (workspace : string) (rs : list RepoRow) : JsM R unit :=
  match rs with
  | [] => mret tt
  | r :: rs' => lift (prepareRepo (pathJoin workspace (rr_name r)) r);; prepareRepos workspace rs'
  end.

(** The repositories of the run: all of the project, else the single one of
    the task, none without a token. *)
Definition startRepositories (t : Task) (userId : string) : JsM R (list RepositoryInfo) :=
  let ws := workspaceOf (t_id t) in
  let token := JsStr.orNull (getUserGitHubToken userId) in
  let all := findByProjectId (t_projectId t) in
  match token, all with
  | Some _, _ :: _ => prepareRepos ws all;; mret (repoInfo ws <$> all)
  | _, _ =>
      match r ← JsStr.orNull (t_repositoryId t); getRepository r, token with
      | Some r, Some _ => prepareRepos ws [r];; mret [repoInfo ws r]
      | _, _ => mret []
      end
  end.

Definition descriptionParams (d : string) : UpdateTaskParams :=
  {| up_title := None; up_description := Some d; up_status := None |}.

Definition start (userId taskId : string) (prompt : option string) : JsM R Response :=
  match JsStr.orNull prompt with
  | None => fail400 "prompt required - describe what you want the AI to do"
  | Some p =>
      if JsStr.length (trim p) <? 5
      then fail400 "prompt required - describe what you want the AI to do"
      else
        tb ← Js.gets rt_tasks;
        match findById taskId tb with
        | None => fail404 "Task not found"
        | Some t0 =>
            let '(t1, tb1) := update now (t_id t0) (descriptionParams (trim p)) tb in
            onTasks (fun _ => tb1);;
            let t := default t0 t1 in
            match getProject (t_projectId t) with
            | None => fail404 "Project not found"
            | Some pj =>
                repos ← startRepositories t userId;
                lift connectOpenCode;;
                onExecutions (JsMap.set (t_id t) (newExecution (t_id t)));;
                onTasks (updateStatus now (t_id t) Running);;
                toTask (EvStarted (t_id t));;
                (match JsStr.orNull (t_description t) with
                 | Some d => toTask (EvUserActivity (t_id t) d)
                 | None => mret tt
                 end);;
                queueAndReply (jobFor t userId pj repos None None None)
                  (default false (pj_isPro pj)) None
            end
        end
  end.

(** ** POST /:taskId/resume *)

Record ResumePlan := {
  rp_startFromPhase : string; rp_preserveAnalysis : bool; rp_preserveStories : bool }.

(** Where an interrupted task starts again; [None]: all phases are complete. *)
Definition resumePlan (t : Task) : option ResumePlan :=
  match JsStr.orNull (t_currentPhase t) with
  | Some ph =>
      Some {| rp_startFromPhase := ph;
              rp_preserveAnalysis := negb (bool_decide (ph = "Analysis"));
              rp_preserveStories := bool_decide (ph = "Merge" \/ ph = "GlobalScan") |}
  | None =>
      match t_completedPhases t with
      | Some (e :: es) =>
          let names := entryName <$> (e :: es) in
          if bool_decide ("GlobalScan" ∈ names) then None
          else if bool_decide ("Merge" ∈ names) then
            Some {| rp_startFromPhase := "GlobalScan"; rp_preserveAnalysis := true;
                    rp_preserveStories := true |}
          else if bool_decide ("Developer" ∈ names) then
            Some {| rp_startFromPhase := "Merge"; rp_preserveAnalysis := true;
                    rp_preserveStories := true |}
          else if bool_decide ("Analysis" ∈ names) then
            Some {| rp_startFromPhase := "Developer"; rp_preserveAnalysis := true;
                    rp_preserveStories := false |}
          else Some {| rp_startFromPhase := "Analysis"; rp_preserveAnalysis := false;
                       rp_preserveStories := false |}
      | _ => Some {| rp_startFromPhase := "Analysis"; rp_preserveAnalysis := false;
                     rp_preserveStories := false |}
      end
  end.

(** The job of a resume. *)
Definition resumeJob (t : Task) (userId : string) (pj : Project) (rp : ResumePlan) : TaskJobData :=
  jobFor t userId pj (repoInfo (workspaceOf (t_id t)) <$> findByProjectId (t_projectId t))
    (Some (rp_startFromPhase rp)) (Some (rp_preserveAnalysis rp)) (Some (rp_preserveStories rp)).

(** The answers carry the error text without its hint and the status in it. *)
Definition resume (userId taskId : string) : JsM R Response :=
  tb ← Js.gets rt_tasks;
  match findById taskId tb with
  | None => fail404 "Task not found"
  | Some t =>
      if negb (bool_decide (t_status t = Interrupted)) then fail400 "Cannot resume task"
      else
        match getProject (t_projectId t) with
        | None => fail404 "Project not found"
        | Some pj =>
            if negb (workspaceExists (workspaceOf (t_id t))) then fail400 "Workspace not found"
            else
              lift connectOpenCode;;
              match resumePlan t with
              | None => fail400 "Task already completed all phases"
              | Some rp =>
                  onExecutions (JsMap.set (t_id t) (newExecution (t_id t)));;
                  onTasks (updateStatus now (t_id t) Running);;
                  toTask (EvResumed (t_id t) (rp_startFromPhase rp) (t_lastCompletedStoryIndex t));;
                  toTask (EvSystemActivity (t_id t) (rp_startFromPhase rp));;
                  queueAndReply (resumeJob t userId pj rp) (default false (pj_isPro pj))
                    (Some (rp_startFromPhase rp))
              end
        end
  end.

(** ** Interrupt, continue, retry, cancel *)

Definition interrupt (taskId : string) : JsM R Response :=
  ex ← Js.gets rt_executions;
  match JsMap.get taskId ex with
  | None => fail404 "No running execution"
  | Some e =>
      if negb (bool_decide (te_status e = ExRunning)) then fail400 "Task not running"
      else
        onSession (Abort (te_sessionId e)) (abortSession (te_sessionId e));;
        setExecution taskId ExPaused (Some now);;
        onTasks (updateStatus now taskId Paused);;
        toTask (EvInterrupted taskId);;
        mret (Res200 (InterruptedAt now))
  end.

Definition continue_ (taskId : string) (prompt : option string) (images : nat) : JsM R Response :=
  ex ← Js.gets rt_executions;
  match JsMap.get taskId ex with
  | None => fail404 "No execution found"
  | Some e =>
      if negb (bool_decide (te_status e = ExPaused)) then fail400 "Task not interrupted"
      else
        let p := default "Continue with the task from where you left off." (JsStr.orNull prompt) in
        toTask (EvUserActivity taskId p);;
        onSession (Prompt (te_sessionId e) p images) (sendPrompt (te_sessionId e) p images);;
        setExecution taskId ExRunning None;;
        onTasks (updateStatus now taskId Running);;
        toTask (EvContinued taskId (0 <? images));;
        mret (Res200 NowRunning)
  end.

Definition retry (taskId : string) (prompt : option string) : JsM R Response :=
  ex ← Js.gets rt_executions;
  match JsMap.get taskId ex with
  | None => fail404 "No execution found"
  | Some e =>
      let p := default "Please try again with the previous task." (JsStr.orNull prompt) in
      onSession (Prompt (te_sessionId e) p 0) (sendPrompt (te_sessionId e) p 0);;
      setExecution taskId ExRunning None;;
      onTasks (updateStatus now taskId Running);;
      toTask (EvRetrying taskId);;
      mret (Res200 NowRunning)
  end.

Definition cancel (taskId : string) : JsM R Response :=
  cancelled ← onQueue (TaskQueue.cancelTask taskId);
  if (cancelled : bool) then
    onTasks (updateStatus now taskId Cancelled);;
    toTask (EvTaskCancelled taskId true);;
    mret (Res200 (CancelledReply true))
  else
    ex ← Js.gets rt_executions;
    match JsMap.get taskId ex with
    | None => fail404 "No execution found"
    | Some e =>
        (if JsStr.truthy (te_sessionId e) then
           onSession (Unregister (te_sessionId e)) (Ok tt);;
           Js.try_catch
             (onSession (Abort (te_sessionId e)) (abortSession (te_sessionId e));;
              onSession (Delete (te_sessionId e)) (deleteSession (te_sessionId e)))
             (fun _ => mret tt)
         else mret tt);;
        onExecutions (JsMap.delete taskId);;
        onTasks (updateStatus now taskId Cancelled);;
        onApprovals (fun a => (tt, ApprovalService.cancelTask now taskId a));;
        toTask (EvTaskCancelled taskId false);;
        mret (Res200 (CancelledReply false))
    end.

(** ** POST /:taskId/retry-from/:phase *)

Definition validPhases : list string := phaseName <$> phaseOrder.

(** The job of a phase-selective retry, before [...options]: the repositories
    the route builds are not part of it. *)
Definition retryJob (t : Task) (userId taskId phase : string) : TaskJobData :=
  {| jd_taskId := taskId; jd_userId := userId; jd_projectId := JsStr.orNull (t_projectId t);
     jd_title := Some (t_title t); jd_description := Some (default EmptyString (t_description t));
     jd_repositoryIds := Some (rr_id <$>
       match p ← JsStr.orNull (t_projectId t); getProject (Some p) with
       | Some _ => findByProjectId (t_projectId t)
       | None => []
       end);
     jd_pipelineName := None; jd_workspacePath := None; jd_repositories := None;
     jd_githubToken := getUserGitHubToken userId; jd_approvalMode := None; jd_priority := None;
     jd_startFromPhase := Some phase;
     jd_preserveAnalysis := Some (negb (bool_decide (phase = "Analysis" \/ phase = "Planning")));
     jd_preserveStories :=
       Some (bool_decide (phase ∈ ["TestGeneration"; "Merge"; "GlobalScan"]));
     jd_continuedFromTaskId := None |}.

Definition noStories (t : Task) : bool :=
  match t_stories t with Some (_ :: _) => false | _ => true end.

(** Why a phase cannot be retried. *)
Definition retryError (t : Task) (phase : string) : option string :=
  if negb (bool_decide (phase ∈ validPhases)) then Some ("Invalid phase: " +:+ phase)
  else if bool_decide (phase = "Developer") && noStories t then
    Some "Cannot retry from Developer phase - no stories from Analysis phase"
  else if bool_decide (phase = "TestGeneration") && noStories t then
    Some "Cannot retry from TestGeneration phase - no stories available"
  else if bool_decide (phase = "Merge" \/ phase = "GlobalScan")
          && bool_decide (JsStr.orNull (t_branchName t) = None) then
    Some ("Cannot retry from " +:+ phase +:+ " phase - no branch created")
  else None.

(** [options] is what [...options] of the request body does to the job. *)
Definition retryFrom (userId taskId phase : string) (options : TaskJobData -> TaskJobData)
    : JsM R Response :=
  tb ← Js.gets rt_tasks;
  match findById taskId tb with
  | None => fail404 "Task not found"
  | Some t =>
      match retryError t phase with
      | Some m => fail400 m
      | None =>
          Js.try_catch
            (ex ← Js.gets rt_executions;
             (match JsMap.get taskId ex with
              | Some e =>
                  onSession (Unregister (te_sessionId e)) (Ok tt);;
                  Js.try_catch (onSession (Abort (te_sessionId e)) (abortSession (te_sessionId e)))
                    (fun _ => mret tt);;
                  onExecutions (JsMap.delete taskId)
              | None => mret tt
              end);;
             onTasks (updateStatus now taskId Running);;
             toTask (EvRetryFrom taskId phase);;
             j ← onQueue (addTask (options (retryJob t userId taskId phase)) None);
             mret (Res200 (RetryQueued taskId phase (job_id j))))
            (fun _ => mret (ResError 500 "Failed to retry from phase"))
      end
  end.

(** ** Approvals over HTTP *)

Definition approve (taskId phase : string) (feedback : option string) : JsM R Response :=
  resolved ← onApprovals (ApprovalService.resolveWithAction now taskId phase
    {| ApprovalService.action := ApprovalService.Approve; ApprovalService.feedback := feedback |}
    None None);
  toTask (EvApproved taskId phase);;
  mret (Res200 (ApprovedReply phase resolved)).

Definition reject (taskId phase : string) : JsM R Response :=
  resolved ← onApprovals (ApprovalService.resolve now taskId phase false);
  toTask (EvRejected taskId phase);;
  mret (Res200 (RejectedReply phase resolved)).

(** The first of the phases with a pending approval is approved. *)
Fixpoint bypassFirst (taskId : string) (phases : list string) : JsM R (option string) :=
  match phases with
  | [] => mret None
  | ph :: phs =>
      onApprovals (ApprovalService.resolve now taskId ph true) ≫= fun resolved : bool =>
      if resolved then mret (Some ph) else bypassFirst taskId phs
  end.

Definition bypass (taskId : string) (enableForAllPhases : bool) : JsM R Response :=
  tb ← Js.gets rt_tasks;
  match findById taskId tb with
  | None => fail404 "Task not found"
  | Some t =>
      ph ← bypassFirst taskId ["Analysis"; "Developer"; "Merge"];
      (match JsStr.orNull (t_projectId t) with
       | Some p => if enableForAllPhases then lift (setAutomatic p) else mret tt
       | None => mret tt
       end);;
      toTask (EvBypassed taskId ph);;
      mret (Res200 (BypassedReply ph))
  end.

(** ** Server start *)

(** [main]: the interrupted tasks, then the stale jobs of the queues as they
    are found in Redis. A new process has no executions and no approvals. *)
Definition serverStart (s : R) : R :=
  {| rt_tasks := (recoverStaleTasks now (rt_tasks s)).2;
     rt_queue := (cleanStaleJobsOnStartup (rt_queue s)).2;
     rt_executions := []; rt_approvals := ApprovalService.init; rt_calls := []; rt_events := [] |}.

End routes.

(** ** Dispatch

    The routes of the file in the order they are registered. Express, which is
    outside the repository, chooses among them: class [Express], with its
    documented rule in [ExpressOk]. *)

Inductive Segment := Lit (s : string) | Param | Rest.

Record Route := { ro_method : string; ro_path : list Segment }.

Definition get_ (p : list Segment) : Route := {| ro_method := "GET"; ro_path := p |}.
Definition post_ (p : list Segment) : Route := {| ro_method := "POST"; ro_path := p |}.

Definition taskResumeRoute : Route := post_ [Param; Lit "resume"].
Definition queuePauseRoute : Route := post_ [Lit "queue"; Lit "pause"].
Definition queueResumeRoute : Route := post_ [Lit "queue"; Lit "resume"].

Definition routes : list Route :=
  [get_ []; post_ []; get_ [Param]; get_ [Param; Lit "activity-log"];
   {| ro_method := "DELETE"; ro_path := [Param] |};
   post_ [Param; Lit "start"]; taskResumeRoute; post_ [Param; Lit "interrupt"];
   post_ [Param; Lit "continue"]; post_ [Param; Lit "continue-with-context"];
   post_ [Param; Lit "cancel"]; post_ [Param; Lit "retry"];
   post_ [Param; Lit "retry-from"; Param]; post_ [Param; Lit "approve"; Param];
   post_ [Param; Lit "reject"; Param]; post_ [Param; Lit "bypass"];
   get_ [Param; Lit "status"]; get_ [Param; Lit "activities"]; get_ [Param; Lit "cost"];
   get_ [Param; Lit "diff"]; get_ [Param; Lit "diff"; Rest];
   get_ [Param; Lit "workspace"; Lit "files"]; get_ [Param; Lit "workspace"; Lit "file"; Rest];
   get_ [Param; Lit "workspace"; Lit "changes"];
   post_ [Param; Lit "workspace"; Lit "commit"]; post_ [Param; Lit "workspace"; Lit "push"];
   get_ [Lit "queue"; Lit "stats"]; get_ [Param; Lit "queue"; Lit "position"];
   get_ [Lit "queue"; Lit "wait-time"]; queuePauseRoute; queueResumeRoute;
   get_ [Param; Lit "export"]].

(** A parameter matches one non-empty segment, a star whatever is left. *)
Fixpoint pathMatches (p : list Segment) (path : list string) : bool :=
  match p, path with
  | [], [] => true
  | Rest :: _, _ => true
  | Lit s :: p', x :: path' => bool_decide (s = x) && pathMatches p' path'
  | Param :: p', x :: path' => JsStr.truthy x && pathMatches p' path'
  | _, _ => false
  end.

Definition routeMatches (m : string) (path : list string) (r : Route) : bool :=
  bool_decide (ro_method r = m) && pathMatches (ro_path r) path.

(** The handler chosen for a request. *)
Class Express := dispatch : list Route -> string -> list string -> option Route.

(** Documented: routes are tried in the order in which they were registered,
    and the first that matches handles the request (no handler of the file
    passes it on). *)
Class ExpressOk `{X : Express} : Prop :=
  dispatch_first rs m path :
    dispatch rs m path = hd_error (base.filter (fun r => routeMatches m path r = true) rs).

End TaskRoutes.
