(* ===== verification/TaskQueueProofs.v ===== *)
(** * Task queue: start-up clean-up, jobs the service loses sight of, and
    resubmission *)

From S2P Require Import Prelude TaskTypes Orchestrator TaskQueue.
From stdpp Require Import options.
Import TaskQueue.

Module QueueSpec.

Section proofs.
Context `{B : BullMQ} {BOK : BullMQOk}.
#[local] Set Default Proof Using "Type*".

Lemma queueOf_setQueue b b' q st :
  queueOf b (setQueue b' q st) = if bool_decide (b = b') then Some q else queueOf b st.
Proof. by destruct b, b'. Qed.

Lemma setQueue_same b q st : queueOf b st = Some q -> setQueue b q st = st.
Proof. destruct st, b; cbn; by intros ->. Qed.

(** A job that exists is kept, and a second one under its id is not added. *)
Lemma addTask_existing d o st q b :
  b = default false (x ← o; ao_isPro x) ->
  queueOf b st = Some q -> is_Some (bq_getJob (jd_taskId d) q) ->
  exists j, addTask d o st = (Ok j, st) /\ job_id j = jd_taskId d.
Proof.
  intros -> Hq Hj. unfold addTask. rewrite Hq.
  destruct (add_existing "execute-task" d (taskJobOptions d o) (jd_taskId d) q eq_refl Hj)
    as (j & -> & Hid). exists j. by rewrite setQueue_same.
Qed.

(** A new job is stored under the id of its task, in the state its options
    give it. *)
Lemma addTask_new d o st q b j st' :
  b = default false (x ← o; ao_isPro x) ->
  queueOf b st = Some q -> bq_getJob (jd_taskId d) q = None -> addTask d o st = (Ok j, st') ->
  job_id j = jd_taskId d /\ job_data j = d
  /\ (exists q', st' = setQueue b q' st
       /\ bq_getJob (jd_taskId d) q' = Some j
       /\ bq_getState (jd_taskId d) q' = addedState (taskJobOptions d o)
       /\ forall i, i <> jd_taskId d -> bq_getJob i q' = bq_getJob i q).
Proof.
  intros -> Hq Hn. unfold addTask. rewrite Hq.
  destruct (bq_add _ d _ q) as [r q'] eqn:E. intros [= -> <-].
  destruct (add_fresh _ _ (taskJobOptions d o) (jd_taskId d) _ _ _ eq_refl Hn E) as (? & ? & ? & ? & Hoth).
  split_and!; [done..|]. exists q'. split_and!; [done..|]. intros i Hi. by apply Hoth.
Qed.

(** ** Removing a list of jobs *)

(** No job is locked by a worker, so that every removal succeeds. *)
Definition unlocked : Prop := forall i (q : Queue TaskJobData), (bq_remove i q).1 = Ok tt.

Lemma remove_unlocked i (q : Queue TaskJobData) :
  unlocked -> bq_getJob i (bq_remove i q).2 = None
    /\ forall i', i' <> i -> bq_getJob i' (bq_remove i q).2 = bq_getJob i' q
                             /\ bq_getState i' (bq_remove i q).2 = bq_getState i' q.
Proof.
  intros Hu. specialize (Hu i q). destruct (bq_remove i q) as [r q'] eqn:E. cbn in *. subst r.
  by apply remove_spec.
Qed.

Lemma removeJobs_spec js q i :
  unlocked ->
  bq_getJob i (removeJobs js q) = (if bool_decide (i ∈ job_id <$> js) then None else bq_getJob i q)
  /\ (i ∉ job_id <$> js -> bq_getState i (removeJobs js q) = bq_getState i q).
Proof.
  intros Hu. revert q. induction js as [|j js IH]; intros q.
  { cbn. by rewrite bool_decide_false by apply not_elem_of_nil. }
  unfold removeJobs in *. cbn [fold_left fmap list_fmap]. destruct (IH (bq_remove (job_id j) q).2) as [-> Hst].
  destruct (remove_unlocked (job_id j) q Hu) as [Hnone Hoth].
  destruct (decide (i = job_id j)) as [->|Hne].
  - rewrite (bool_decide_true (job_id j ∈ job_id j :: _)) by apply list_elem_of_here.
    split; [by rewrite Hnone; case_bool_decide|]. intros []. apply list_elem_of_here.
  - destruct (Hoth i Hne) as [HJ HS]. split.
    + rewrite HJ. repeat case_bool_decide; set_solver.
    + rewrite elem_of_cons. intros Hno. rewrite Hst by tauto. done.
Qed.

(** After the removal of the stale jobs none is left, and the others are as
    they were. *)
Lemma clean_queue q :
  unlocked ->
  let q' := removeJobs (bq_getJobs staleStates q) q in
  bq_getJobs staleStates q' = []
  /\ forall i, bq_getState i q ∉ staleStates ->
       bq_getJob i q' = bq_getJob i q /\ bq_getState i q' = bq_getState i q.
Proof.
  intros Hu q'.
  assert (forall i, i ∈ job_id <$> bq_getJobs staleStates q -> bq_getState i q ∈ staleStates) as Hin.
  { intros i (j & -> & Hj)%list_elem_of_fmap. by apply getJobs_spec in Hj as [_ ?]. }
  split.
  - apply elem_of_nil_inv. intros j. rewrite getJobs_spec. intros [Hj Hst].
    destruct (removeJobs_spec (bq_getJobs staleStates q) q (job_id j) Hu) as [HJ HS].
    unfold q' in Hj, Hst. rewrite HJ in Hj. case_bool_decide as Hmem; [done|]. apply Hmem.
    rewrite HS in Hst by done. apply list_elem_of_fmap. exists j. by rewrite getJobs_spec.
  - intros i Hns. destruct (removeJobs_spec (bq_getJobs staleStates q) q i Hu) as [HJ HS].
    assert (i ∉ job_id <$> bq_getJobs staleStates q) as Hno by (intros ?; eauto).
    unfold q'. rewrite HJ, bool_decide_false by done. auto.
Qed.

(** ** The reported task ids *)

Lemma pushId_elem js ids x :
  x ∈ fold_left pushId js ids <->
  x ∈ ids \/ exists j, j ∈ js /\ jd_taskId (job_data j) = x /\ JsStr.truthy x = true.
Proof.
  revert ids. induction js as [|j js IH]; intros ids; cbn [fold_left].
  { split; [by left|]. intros [?|(j & []%not_elem_of_nil & _)]; done. }
  rewrite IH. unfold pushId. setoid_rewrite elem_of_cons.
  destruct (JsStr.truthy (jd_taskId (job_data j))) eqn:E; [rewrite elem_of_app, list_elem_of_singleton|];
    naive_solver congruence.
Qed.

Lemma pushNewId_elem js ids x :
  x ∈ fold_left pushNewId js ids <->
  x ∈ ids \/ exists j, j ∈ js /\ jd_taskId (job_data j) = x /\ JsStr.truthy x = true.
Proof.
  revert ids. induction js as [|j js IH]; intros ids; cbn [fold_left].
  { split; [by left|]. intros [?|(j & []%not_elem_of_nil & _)]; done. }
  rewrite IH. unfold pushNewId. setoid_rewrite elem_of_cons.
  destruct (JsStr.truthy (jd_taskId (job_data j))) eqn:E; cbn; [|naive_solver congruence].
  case_bool_decide as Hin; cbn; [|rewrite elem_of_app, list_elem_of_singleton]; naive_solver congruence.
Qed.

(** The clean-up at server start: with no job locked, neither queue holds an
    active, waiting or delayed job afterwards, every other job is untouched in
    data and state, the count is the number of jobs removed, and the reported
    ids are exactly the task ids of those jobs. *)
Theorem startup_cleans_queues st q pq :
  unlocked -> taskQueue st = Some q -> priorityQueue st = Some pq ->
  exists n ids q' pq',
    cleanStaleJobsOnStartup st
    = (n, ids, {| taskQueue := Some q'; priorityQueue := Some pq'; commitQueue := commitQueue st |})
    /\ bq_getJobs staleStates q' = [] /\ bq_getJobs staleStates pq' = []
    /\ (forall i, bq_getState i q ∉ staleStates ->
          bq_getJob i q' = bq_getJob i q /\ bq_getState i q' = bq_getState i q)
    /\ (forall i, bq_getState i pq ∉ staleStates ->
          bq_getJob i pq' = bq_getJob i pq /\ bq_getState i pq' = bq_getState i pq)
    /\ n = length (bq_getJobs staleStates q) + length (bq_getJobs staleStates pq)
    /\ forall x, x ∈ ids <->
         JsStr.truthy x = true
         /\ exists j, (j ∈ bq_getJobs staleStates q \/ j ∈ bq_getJobs staleStates pq)
                      /\ jd_taskId (job_data j) = x.
Proof.
  intros Hu Hq Hpq. unfold cleanStaleJobsOnStartup. rewrite Hq, Hpq.
  destruct (clean_queue q Hu), (clean_queue pq Hu). do 4 eexists.
  split; [reflexivity|]. split_and!; auto.
  intros x. rewrite pushNewId_elem, pushId_elem, elem_of_nil. naive_solver.
Qed.

(** A job added with a positive priority is invisible to the service: it is
    in the state [prioritized], which no operation asks for. It survives the
    clean-up at server start, has no queue position, and cannot be cancelled. *)
Theorem prioritized_job_unmanaged d o st q pq j st' :
  unlocked -> taskQueue st = Some q -> priorityQueue st = Some pq ->
  bq_getJob (jd_taskId d) q = None -> bq_getJob (jd_taskId d) pq = None ->
  (0 < orNumber (x ← o; ao_priority x) (orNumber (jd_priority d) 0))%Z ->
  (default 0 (x ← o; ao_delay x) <= 0)%Z ->
  addTask d o st = (Ok j, st') ->
  (exists b, getJob (jd_taskId d) (cleanStaleJobsOnStartup st').2 = Some (b, j))
  /\ getQueuePosition (jd_taskId d) st' = None
  /\ cancelTask (jd_taskId d) st' = (Ok false, st').
Proof.
  intros Hu Hq Hpq Hn Hpn Hpri Hdel Hadd.
  assert (addedState (taskJobOptions d o) = JPrioritized) as Hst.
  { unfold addedState. cbn. rewrite (proj2 (Z.ltb_ge _ _)) by done.
    by rewrite (proj2 (Z.ltb_lt _ _)). }
  set (b := default false (x ← o; ao_isPro x)) in *.
  assert (exists qb, queueOf b st = Some qb /\ bq_getJob (jd_taskId d) qb = None) as (qb & Hqb & Hnb).
  { unfold queueOf. destruct b; eauto. }
  destruct (addTask_new d o st qb b j st' eq_refl Hqb Hnb Hadd)
    as (Hid & _ & q' & -> & HJ & HS & _). rewrite Hst in HS.
  assert (getJob (jd_taskId d) (setQueue b q' st) = Some (b, j)) as Hget.
  { unfold getJob, setQueue. destruct b; cbn; rewrite ?Hq, ?Hpq; cbn.
    - by rewrite Hn, HJ. - by rewrite HJ. }
  assert (stateOf b (job_id j) (setQueue b q' st) = JPrioritized) as Hstate.
  { unfold stateOf. rewrite queueOf_setQueue, bool_decide_true by done. by rewrite Hid. }
  split_and!.
  - exists b. destruct (clean_queue q' Hu) as [_ Hkeep].
    destruct (Hkeep (jd_taskId d)) as [HJ' _]; [rewrite HS; by apply (bool_decide_unpack _)|].
    unfold cleanStaleJobsOnStartup, getJob, setQueue. destruct b; cbn; rewrite ?Hq, ?Hpq; cbn.
    + destruct (removeJobs_spec (bq_getJobs staleStates q) q (jd_taskId d) Hu) as [-> _].
      rewrite Hn. case_bool_decide; by rewrite HJ', HJ.
    + by rewrite HJ', HJ.
  - unfold getQueuePosition. rewrite Hget. cbn. rewrite Hstate. done.
  - unfold cancelTask. rewrite Hget, Hstate. done.
Qed.

End proofs.

(** ** Concrete queues *)

Definition demoJob (t : string) (p : option Z) : TaskJobData :=
  {| jd_taskId := t; jd_userId := "u"; jd_projectId := None; jd_title := None;
     jd_description := None; jd_repositoryIds := None; jd_pipelineName := None;
     jd_workspacePath := Some "/w"; jd_repositories := None; jd_githubToken := None;
     jd_approvalMode := None; jd_priority := p; jd_startFromPhase := None;
     jd_preserveAnalysis := None; jd_preserveStories := None; jd_continuedFromTaskId := None |}.

Definition demoMain : gmap string (TaskJobData * JobState) :=
  {["t1" := (demoJob "t1" None, JWaiting); "t2" := (demoJob "t2" None, JCompleted)]}.
Definition demoPrio : gmap string (TaskJobData * JobState) := {["t1" := (demoJob "t1" None, JActive)]}.

#[local] Existing Instance MemBull.memBull.
#[local] Existing Instance MemBull.memBullOk.

Definition demoQueues : TaskQueue.State (B := MemBull.memBull) :=
  {| taskQueue := Some demoMain; priorityQueue := Some demoPrio; commitQueue := None |}.

Lemma memBull_unlocked : unlocked (B := MemBull.memBull).
Proof. done. Qed.

Lemma startup_cleans_queues_witness :
  (cleanStaleJobsOnStartup demoQueues).1 = (2, ["t1"])
  /\ bq_getJobs staleStates demoMain <> []
  /\ exists q', taskQueue (cleanStaleJobsOnStartup demoQueues).2 = Some q'
       /\ bq_getJobs staleStates q' = []
       /\ bq_getState "t2" q' = JCompleted.
Proof.
  split; [vm_compute; reflexivity|]. split; [vm_compute; discriminate|].
  destruct (startup_cleans_queues (B := MemBull.memBull) demoQueues demoMain demoPrio
    memBull_unlocked eq_refl eq_refl) as (n & ids & q' & pq' & -> & Hc & _ & Hkeep & _).
  exists q'. split; [reflexivity|]. split; [exact Hc|].
  destruct (Hkeep "t2") as [_ Hs]; [by apply (bool_decide_unpack _)|]. rewrite Hs. reflexivity.
Defined.

Definition demoPrioritized : TaskQueue.State (B := MemBull.memBull) :=
  (addTask (demoJob "t9" (Some 5%Z)) None demoQueues).2.

Lemma prioritized_job_unmanaged_witness :
  exists j st', addTask (demoJob "t9" (Some 5%Z)) None demoQueues = (Ok j, st')
    /\ getQueuePosition "t9" st' = None /\ cancelTask "t9" st' = (Ok false, st').
Proof.
  exists (mkJob "t9" (demoJob "t9" (Some 5%Z))), demoPrioritized. split; [reflexivity|].
  apply (prioritized_job_unmanaged (B := MemBull.memBull) (demoJob "t9" (Some 5%Z)) None demoQueues
    demoMain demoPrio (mkJob "t9" (demoJob "t9" (Some 5%Z))) demoPrioritized
    memBull_unlocked eq_refl eq_refl eq_refl eq_refl ltac:(done) ltac:(done) eq_refl).
Defined.

End QueueSpec.
