(* ===== verification/TaskWorkerProofs.v ===== *)
(** * Task worker: what is stored and reported of a job, when a job is thrown
    back to the queue, and that the worker never merges *)

From S2P Require Import Prelude JsNumber TaskTypes TaskRepository TaskRepositoryProofs MergePhase MergePhaseProofs GlobalScan CostTracker Orchestrator OrchestratorProofs TaskQueue TaskQueueProofs TaskWorker.
From stdpp Require Import options.
Import TaskRepository MergePhase GlobalScan Orchestrator TaskQueue TaskWorker.

Module WorkerSpec.

(** The last event sent, with its recipient. *)
Definition lastEvent (w : W) : option (string * UserEvent) := hd_error (reverse (w_events w)).

Lemma lastEvent_emit u e w : lastEvent (emitToUser u e w).2 = Some (u, e).
Proof. unfold lastEvent, emitToUser, Js.modify. cbn [snd w_events]. by rewrite reverse_snoc. Qed.

Section proofs.
Context `{PR : PhaseRunners} {OK : PhaseRunnersOk}.
#[local] Set Default Proof Using "Type*".
Variable numeric_10_6 : JsNum.t -> option JsNum.t.
Variable dbUp : bool.
Variable progress : Z -> outcome unit.
Variable during : CostTracker.State -> CostTracker.State.
Variable now : Z.
Variable statusWrite : string -> TaskStatus -> option StoredResult -> option string -> outcome unit.

(** The row survives a run, with its resume columns cleared unless the set-up
    failed. *)
Lemma execute_row taskId o tb task :
  findById taskId tb = Some task ->
  match execute now taskId o tb with
  | (Ok _, s) => exists row, tasks s !! taskId = Some row /\ current_phase row = None
  | (Throw e, s) => prepare_providers task = Throw e /\ is_Some (tasks s !! taskId)
  end.
Proof.
  intros Hf. pose proof (OrchSpec.execute_found now taskId o tb task Hf) as He.
  apply fmap_Some in Hf as (row & Hrow & _).
  destruct (prepare_providers task) as [[]|e].
  - destruct He as (g & s' & -> & _ & _ & ->).
    destruct (OrchSpec.afterTry_row now taskId o task tb) as [row0 H0]; [by eexists|].
    destruct (OrchSpec.closed_row now taskId g _ _ H0) as (row' & Hc & _ & _ & Hres).
    exists row'. split; [done|]. by injection Hres.
  - rewrite He. split; [done|]. cbn. unfold updateStatus.
    by rewrite TaskRepoSpec.updateRow_same, Hrow.
Qed.

(** The row and the columns of the task a job is for. *)
Definition present (taskId : string) (w : W) : Prop :=
  is_Some (w_tasks w !! taskId) /\ is_Some (w_columns w !! taskId).

(** An UPDATE that the database takes. *)
Lemma updateTaskStatus_row taskId s r e w row c :
  w_tasks w !! taskId = Some row -> w_columns w !! taskId = Some c ->
  statusWrite taskId s r (JsStr.orNull e) = Ok tt ->
  exists w', updateTaskStatus now statusWrite taskId s r e w = (Ok tt, w')
  /\ w_tasks w' = updateRow taskId (updateRowStatus now s (JsStr.orNull e)) (w_tasks w)
  /\ w_tasks w' !! taskId = Some (updateRowStatus now s (JsStr.orNull e) row)
  /\ w_columns w' !! taskId = Some (updateColumns now s r (JsStr.orNull e) c)
  /\ w_events w' = w_events w.
Proof.
  intros Hr Hc Hs. unfold updateTaskStatus. rewrite Hs. eexists. split; [reflexivity|]. cbn.
  rewrite TaskRepoSpec.updateRow_same, Hr. split_and!; [done..| |done]. by rewrite lookup_alter_eq, Hc.
Qed.

(** The end of a job as it is told to the user. *)
Definition isEnd (e : string * UserEvent) : bool :=
  match e.2 with UCompleted _ _ _ | UFailed _ _ _ _ => true | _ => false end.

(** The handler of a failed job, on every state. *)
Lemma processFailed_run k d e w row c :
  w_tasks w !! jd_taskId d = Some row -> w_columns w !! jd_taskId d = Some c ->
  match statusWrite (jd_taskId d) Failed (Some StoredNull) (JsStr.orNull (Some e)) with
  | Throw x => processFailed numeric_10_6 dbUp now statusWrite k d e w = (Throw x, w)
  | Ok _ =>
      exists w', processFailed numeric_10_6 dbUp now statusWrite k d e w = (Throw e, w')
      /\ w_tasks w' !! jd_taskId d = Some (updateRowStatus now Failed (JsStr.orNull (Some e)) row)
      /\ w_columns w' !! jd_taskId d
         = Some (updateColumns now Failed (Some StoredNull) (JsStr.orNull (Some e)) c)
      /\ lastEvent w' = Some (jd_userId d, UFailed (jd_taskId d) e (k + 1) 3)
  end.
Proof.
  intros Hr Hc. unfold processFailed. destruct (statusWrite _ _ _ _) as [[]|x] eqn:Hs.
  - destruct (updateTaskStatus_row _ Failed (Some StoredNull) (Some e) w row c Hr Hc Hs) as (w1 & H1 & _ & Hr1 & Hc1 & _).
    eexists. rewrite (Js.bind_ok _ _ _ _ _ H1). split; [reflexivity|].
    split_and!; [exact Hr1|exact Hc1|]. apply lastEvent_emit.
  - unfold mbind, jsm_bind, updateTaskStatus. by rewrite Hs.
Qed.

(** What can throw inside the [try]. *)
Definition thrown (d : TaskJobData) (tb : gmap string TaskRow) (task : Task) (e : string) : Prop :=
  progress 5 = Throw e
  \/ (exists s, execute now (jd_taskId d) (workerOptions d) tb = (Throw e, s)) /\ prepare_providers task = Throw e
  \/ progress 100 = Throw e
  \/ exists r s, execute now (jd_taskId d) (workerOptions d) tb = (Ok r, s)
       /\ statusWrite (jd_taskId d) (if or_success r then Completed else Failed) (Some (Stored r)) None = Throw e.

Lemma no_end_while_running u t cs : Forall (fun e => isEnd e = false) (pair u <$> omap (callbackEvent t) cs).
Proof.
  induction cs as [|x cs IH]; [constructor|]. cbn [omap list_omap]. destruct x; cbn; try done; by constructor.
Qed.

(** The body of the [try] from a state in which the task is running: it returns
    with everything stored, or throws with the row still there and no end
    reported. *)
Lemma processBody_run d w row c :
  w_tasks w !! jd_taskId d = Some row -> w_columns w !! jd_taskId d = Some c ->
  match processBody numeric_10_6 dbUp progress during now statusWrite d w with
  | (Ok p, w') =>
      exists row' s,
        execute now (jd_taskId d) (workerOptions d) (w_tasks w) = (Ok (pr_result p), s)
        /\ pr_success p = or_success (pr_result p)
        /\ w_tasks w' !! jd_taskId d = Some row'
        /\ status row' = (if pr_success p then Completed else Failed)
        /\ current_phase row' = None
        /\ w_columns w' !! jd_taskId d
           = Some (updateColumns now (if pr_success p then Completed else Failed)
                     (Some (Stored (pr_result p))) None c)
        /\ lastEvent w' = Some (jd_userId d, UCompleted (jd_taskId d) (pr_sessionId p)
                                               (summaryOfResult (pr_result p)))
  | (Throw e, w') =>
      thrown d (w_tasks w) (mapRow row) e
      /\ is_Some (w_tasks w' !! jd_taskId d) /\ w_columns w' !! jd_taskId d = Some c
      /\ exists l, w_events w' = w_events w ++ l /\ Forall (fun x => isEnd x = false) l
  end.
Proof.
  intros Hr Hc.
  pose proof (execute_row (jd_taskId d) (workerOptions d) (w_tasks w) (mapRow row)) as Hx.
  unfold processBody, thrown, mbind, jsm_bind, updateProgress, runOrchestrator. cbn.
  destruct (progress 5) as [[]|e5].
  2:{ split_and!; eauto. exists []. by rewrite app_nil_r. }
  cbn. destruct (execute now (jd_taskId d) (workerOptions d) (w_tasks w)) as [[r|e] s] eqn:Ee; cbn.
  2:{ destruct Hx as [Hp Hrow]; [by unfold findById; rewrite Hr|]. split_and!; eauto.
      eexists. split; [done|]. apply no_end_while_running. }
  destruct Hx as (row1 & Hrow1 & Hph); [by unfold findById; rewrite Hr|].
  destruct (progress 100) as [[]|e100].
  2:{ cbn. split_and!; eauto. eexists. split; [done|]. apply no_end_while_running. }
  cbn. set (w2 := {| w_tasks := tasks s; w_columns := w_columns w |}).
  assert (exists w3, (match JsStr.orNull (sessionIdOf r) with
    | Some sid => storeSessionMapping (jd_taskId d) sid (jd_userId d) | None => mret tt end) w2 = (Ok tt, w3)
    /\ w_tasks w3 = tasks s /\ w_columns w3 = w_columns w /\ w_events w3 = w_events w2) as (w3 & E3 & Ht3 & Hc3 & Hev3).
  { destruct (JsStr.orNull (sessionIdOf r)); eexists; (split; [reflexivity|done]). }
  rewrite E3. cbn. unfold updateTaskStatus at 1. cbn [JsStr.orNull].
  destruct (statusWrite _ _ _ None) as [[]|x] eqn:Hs; cbn.
  - eexists _, s. split_and!;
      [done|done|by rewrite Ht3, TaskRepoSpec.updateRow_same, Hrow1|done|done
      |by rewrite Hc3, lookup_alter_eq, Hc|unfold lastEvent; cbn [w_events]; by rewrite reverse_snoc].
  - rewrite Ht3, Hc3, Hev3. split_and!; [|by eexists|done|].
    + do 3 right. by eexists _, _.
    + eexists. split; [done|]. apply no_end_while_running.
Qed.

(** The state in which the [try] is entered. *)
Definition entered (job : Job TaskJobData) (w : W) : W :=
  let d := job_data job in
  let w1 := (updateTaskStatus now statusWrite (jd_taskId d) Running None None w).2 in
  let w2 := match JsStr.orNull (jd_startFromPhase d) with
            | Some _ => (onCosts (fun c =>
                (CostTracker.restoreCostsFromDb dbUp now (jd_taskId d) c).2) w1).2
            | None => w1
            end in
  (emitToUser (jd_userId d) (UStarted (jd_taskId d) (job_id job)) w2).2.

Lemma processTask_try k job w :
  processTask numeric_10_6 dbUp progress during now statusWrite k job w
  = match statusWrite (jd_taskId (job_data job)) Running None None with
    | Throw x => (Throw x, w)
    | Ok _ =>
        Js.try_catch (processBody numeric_10_6 dbUp progress during now statusWrite (job_data job))
          (processFailed numeric_10_6 dbUp now statusWrite k (job_data job)) (entered job w)
    end.
Proof.
  unfold processTask, entered, mbind, jsm_bind. cbv zeta.
  destruct (updateTaskStatus now statusWrite _ Running None None w) as [r w1] eqn:E.
  unfold updateTaskStatus in E. cbn [JsStr.orNull] in E.
  destruct (statusWrite _ _ _ _) as [[]|x]; injection E as <- <-; [|done]. cbn [snd].
  by destruct (JsStr.orNull (jd_startFromPhase (job_data job))).
Qed.

Lemma entered_row job w row c :
  let i := jd_taskId (job_data job) in
  w_tasks w !! i = Some row -> w_columns w !! i = Some c -> statusWrite i Running None None = Ok tt ->
  w_tasks (entered job w) = updateRow i (updateRowStatus now Running None) (w_tasks w)
  /\ w_columns (entered job w) !! i = Some (updateColumns now Running None None c)
  /\ w_events (entered job w) = w_events w ++ [(jd_userId (job_data job), UStarted i (job_id job))].
Proof.
  intros i Hr Hc Hs. destruct (updateTaskStatus_row i Running None None w row c Hr Hc Hs) as (w1 & H1 & Ht & _ & Hc1 & He).
  unfold entered. fold i. rewrite H1. cbn [snd].
  destruct (JsStr.orNull (jd_startFromPhase (job_data job))); cbn; by rewrite He.
Qed.

(** C27: What a job leaves behind. Its first act is to write that the task is
    running; when the database refuses that, the job is thrown back with nothing
    done or reported. A run that returns stores its result: the task is
    completed or failed as the result says (whatever its status was before or
    became during the run), with both timestamps, no current phase, and the
    summary sent to the user last. Otherwise the job is thrown back to the
    queue: because the progress cannot be written (at 5 or at 100 percent), the
    orchestrator throws (for its model, whose queries succeed, only when the
    set-up of the providers does), or the database refuses the final status,
    but never because a phase failed. The task is then failed with the message
    stored and told to the user, and the error thrown again; if the database
    refuses this write too, its error is thrown instead, and the task keeps the
    columns it had as a running one and the user is told nothing. *)
Theorem processTask_outcome k job w row c :
  let d := job_data job in
  let i := jd_taskId d in
  let tb := updateRow i (updateRowStatus now Running None) (w_tasks w) in
  w_tasks w !! i = Some row -> w_columns w !! i = Some c ->
  match processTask numeric_10_6 dbUp progress during now statusWrite k job w with
  | (Ok p, w') =>
      exists row' c' s,
        execute now i (workerOptions d) tb = (Ok (pr_result p), s)
        /\ w_tasks w' !! i = Some row' /\ w_columns w' !! i = Some c'
        /\ pr_success p = or_success (pr_result p)
        /\ status row' = (if pr_success p then Completed else Failed)
        /\ current_phase row' = None
        /\ started_at c' = Some now /\ completed_at c' = Some now
        /\ result c' = Some (Stored (pr_result p)) /\ error_message c' = error_message c
        /\ lastEvent w' = Some (jd_userId d, UCompleted i (pr_sessionId p)
                                               (summaryOfResult (pr_result p)))
  | (Throw e, w') =>
      statusWrite i Running None None = Throw e /\ w' = w
      \/ exists e0, thrown d tb (mapRow (updateRowStatus now Running None row)) e0
         /\ match statusWrite i Failed (Some StoredNull) (JsStr.orNull (Some e0)) with
            | Ok _ =>
                e = e0 /\ exists row' c', w_tasks w' !! i = Some row' /\ w_columns w' !! i = Some c'
                /\ status row' = Failed /\ completed_at c' = Some now /\ result c' = Some StoredNull
                /\ (e <> EmptyString -> failure_reason row' = Some e /\ error_message c' = Some e)
                /\ lastEvent w' = Some (jd_userId d, UFailed i e (k + 1) 3)
            | Throw x =>
                e = x /\ is_Some (w_tasks w' !! i)
                /\ w_columns w' !! i = Some (updateColumns now Running None None c)
                /\ exists l, w_events w' = w_events w ++ l /\ Forall (fun y => isEnd y = false) l
            end
  end.
Proof.
  intros d i tb; subst tb i d; intros Hr Hc. rewrite processTask_try.
  destruct (statusWrite _ Running _ _) as [[]|x] eqn:Hw; [|by left].
  destruct (entered_row job w row c Hr Hc Hw) as (Ht1 & Hc1 & He1).
  assert (w_tasks (entered job w) !! jd_taskId (job_data job) = Some (updateRowStatus now Running None row)) as Hr1
    by (by rewrite Ht1, TaskRepoSpec.updateRow_same, Hr).
  pose proof (processBody_run (job_data job) _ _ _ Hr1 Hc1) as Hb. unfold Js.try_catch.
  destruct (processBody _ _ _ _ _ _ _ (entered job w)) as [[p|e] w1].
  - destruct Hb as (row' & s & He & Hsu & Hrow & Hst & Hph & Hcol & Hev).
    rewrite Ht1 in He. eexists row', _, s. split_and!; [exact He|done|exact Hcol|done..| | |done|done|done].
    + cbn. by destruct (pr_success p).
    + cbn. by destruct (pr_success p).
  - destruct Hb as (Hwhy & [row1 Hrow1] & Hcol1 & l & Hl & Hf). cbv beta iota. rewrite Ht1 in Hwhy.
    pose proof (processFailed_run k (job_data job) e w1 _ _ Hrow1 Hcol1) as Hfail.
    destruct (statusWrite _ Failed (Some StoredNull) _) as [[]|x] eqn:Hs.
    + destruct Hfail as (w' & -> & Hrow & Hcol & Hev). right. exists e. rewrite Hs. split; [done|]. split; [done|].
      eexists _, _. split_and!; [exact Hrow|exact Hcol|done..| |done]. intros He. by destruct e.
    + rewrite Hfail. right. exists e. rewrite Hs. split; [done|]. split; [done|]. split_and!; [by eexists|done|].
      rewrite Hl, He1, <- app_assoc. eexists. split; [done|]. by constructor.
Qed.

Section merging.
Variable hasChanges : string -> outcome bool.
Variable createPullRequest : string -> string -> string -> outcome PullRequestInfo.
Variable getPullRequestStatus : string -> Z -> outcome PRStatus.
Variable mergePullRequest : string -> Z -> outcome unit.

(** C28 The worker never merges: it passes neither auto-merge nor a callback for
    the merge approval, so with the merge phase as modelled no job ends with a
    merged pull request, the user is told so, and still the task is completed
    exactly when the merge phase reports no error. *)
Theorem worker_never_merges k job w row c p w' m :
  let i := jd_taskId (job_data job) in
  (forall c tb, run_merge c tb = OrchSpec.mergeRunner hasChanges createPullRequest
                                   getPullRequestStatus mergePullRequest now c tb) ->
  w_tasks w !! i = Some row -> w_columns w !! i = Some c ->
  processTask numeric_10_6 dbUp progress during now statusWrite k job w = (Ok p, w') ->
  or_merge (pr_result p) = Some m ->
  mr_merged m = false
  /\ (exists row', w_tasks w' !! i = Some row' /\ (status row' = Completed <-> mr_error m = None))
  /\ exists sid sm, lastEvent w' = Some (jd_userId (job_data job), UCompleted i sid sm)
       /\ cs_merged sm = Some false.
Proof.
  intros i; subst i; intros Hlink Hr Hc. rewrite processTask_try.
  destruct (statusWrite _ Running _ _) as [[]|x] eqn:Hw; [|by intros [=]].
  destruct (entered_row job w row c Hr Hc Hw) as (Ht1 & Hc1 & _).
  assert (w_tasks (entered job w) !! jd_taskId (job_data job) = Some (updateRowStatus now Running None row)) as Hr1
    by (by rewrite Ht1, TaskRepoSpec.updateRow_same, Hr).
  pose proof (processBody_run (job_data job) _ _ _ Hr1 Hc1) as Hb. unfold Js.try_catch.
  destruct (processBody _ _ _ _ _ _ _ (entered job w)) as [[p'|e] w1]; cycle 1.
  { intros Hp. exfalso. destruct Hb as (_ & [row1 Hrow1] & Hcol1 & _). revert Hp.
    pose proof (processFailed_run k (job_data job) e w1 _ _ Hrow1 Hcol1) as Hf.
    destruct (statusWrite _ Failed (Some StoredNull) _); [destruct Hf as (? & -> & _)|rewrite Hf]; by intros [=]. }
  intros [= -> ->] Hm. destruct Hb as (row' & s & He & Hsu & Hrow & Hst & _ & _ & Hev).
  edestruct (OrchSpec.completed_without_merge hasChanges createPullRequest getPullRequestStatus
    mergePullRequest now (jd_taskId (job_data job)) (workerOptions (job_data job)) (w_tasks (entered job w)))
    as (Hmf & Hok & _);
    [done|unfold findById; by rewrite Hr1|done|done|exact He|exact Hm|].
  split_and!; [done| |].
  - exists row'. split; [done|]. rewrite Hst, Hsu, <- Hok. by destruct (or_success _).
  - eexists _, _. split; [exact Hev|]. cbn. by rewrite Hm, <- Hmf.
Qed.

End merging.

End proofs.

(** ** A concrete job *)

#[local] Existing Instance OrchSpec.demoRunners.
#[local] Existing Instance OrchSpec.demoRunnersOk.

Definition demoJob : Job TaskJobData :=
  mkJob "t1"
    {| jd_taskId := "t1"; jd_userId := "u"; jd_projectId := None; jd_title := None;
       jd_description := None; jd_repositoryIds := None; jd_pipelineName := Some "v2";
       jd_workspacePath := Some "/w"; jd_repositories := Some [MergeSpec.demoRepo "api"];
       jd_githubToken := None; jd_approvalMode := Some Automatic; jd_priority := None;
       jd_startFromPhase := None; jd_preserveAnalysis := None; jd_preserveStories := None;
       jd_continuedFromTaskId := None |}.

Definition demoColumns : RunColumns :=
  {| started_at := None; completed_at := None; error_message := None; result := None |}.

Definition demoW : W :=
  {| w_tasks := OrchSpec.demoTable; w_columns := {["t1" := demoColumns]};
     w_costs := CostTracker.init ∅; w_events := []; w_progress := []; w_redis := [] |}.

Definition demoWrite (_ : string) (_ : TaskStatus) (_ : option StoredResult) (_ : option string) : outcome unit := Ok tt.

Definition demoProcess : outcome ProcessResult * W :=
  processTask Some true (fun _ => Ok tt) (fun c => c) 5 demoWrite 0 demoJob demoW.

(** The database refuses the final status: the job is thrown back. *)
Definition demoRefusal (_ : string) (s : TaskStatus) (_ : option StoredResult) (_ : option string) : outcome unit :=
  match s with Completed => Throw "deadlock detected" | _ => Ok tt end.


Lemma processTask_outcome_witness :
  (exists p w' row', demoProcess = (Ok p, w') /\ w_tasks w' !! "t1" = Some row'
    /\ status row' = Completed
    /\ w_progress w' = [5; 25; 60; 80; 100]%Z)
  /\ exists w' row',
    processTask Some true (fun _ => Ok tt) (fun c => c) 5 demoRefusal 0 demoJob demoW = (Throw "deadlock detected", w')
    /\ w_tasks w' !! "t1" = Some row' /\ failure_reason row' = Some "deadlock detected".
Proof.
  split.
  2:{ pose proof (processTask_outcome Some true (fun _ => Ok tt) (fun c => c) 5 demoRefusal 0 demoJob demoW
        (newRow "t1" 0 TaskRepoSpec.demoParams) demoColumns eq_refl eq_refl) as H.
      assert ((processTask Some true (fun _ => Ok tt) (fun c => c) 5 demoRefusal 0 demoJob demoW).1
        = Throw "deadlock detected") as E by (vm_compute; reflexivity).
      destruct (processTask _ _ _ _ _ demoRefusal _ _ _) as [r w']. cbn [fst] in E. subst r.
      destruct H as [[H _]|(e0 & _ & <- & row' & c' & Hr & _ & _ & _ & _ & Hf & _)]; [discriminate H|].
      exists w', row'. split_and!; [done|exact Hr|]. by apply Hf. }
  pose proof (processTask_outcome Some true (fun _ => Ok tt) (fun c => c) 5 demoWrite 0 demoJob demoW
    (newRow "t1" 0 TaskRepoSpec.demoParams) demoColumns eq_refl eq_refl) as H.
  fold demoProcess in H.
  assert (exists p, demoProcess.1 = Ok p /\ pr_success p = true) as (p & Ep & Es)
    by (eexists; split; vm_compute; reflexivity).
  assert (w_progress demoProcess.2 = [5; 25; 60; 80; 100]%Z) as Hp by (vm_compute; reflexivity).
  destruct demoProcess as [r w']. cbn [fst snd] in *. subst r.
  destruct H as (row' & c' & s & _ & Hr & _ & _ & Hs & _). rewrite Es in Hs.
  exists p, w', row'. by split_and!.
Defined.

Lemma worker_never_merges_witness :
  exists p w' m, demoProcess = (Ok p, w') /\ or_merge (pr_result p) = Some m
    /\ mr_merged m = false
    /\ exists row', w_tasks w' !! "t1" = Some row' /\ status row' = Completed.
Proof.
  assert (exists p m, demoProcess.1 = Ok p /\ or_merge (pr_result p) = Some m /\ mr_error m = None)
    as (p & m & Ep & Em & Ee) by (do 2 eexists; split_and!; vm_compute; reflexivity).
  destruct demoProcess as [r w'] eqn:E. cbn [fst] in Ep. subst r.
  destruct (worker_never_merges (PR := OrchSpec.demoRunners) Some true (fun _ => Ok tt) (fun c => c) 5 demoWrite (fun _ => Ok false)
    MergeSpec.demoCreate MergeSpec.demoStatusOk MergeSpec.demoMerge 0 demoJob demoW
    (newRow "t1" 0 TaskRepoSpec.demoParams) demoColumns p w' m
    (fun _ _ => eq_refl) eq_refl eq_refl E Em) as (Hm & (row' & Hr & Hs) & _).
  exists p, w', m. split_and!; [done..|]. exists row'. split; [done|]. by apply Hs.
Defined.

End WorkerSpec.
