(* ===== verification/TaskRoutesProofs.v ===== *)
(** * Task routes: what a retry and a resume really start, what a restart
    leaves behind, and two things that never happen *)

From S2P Require Import Prelude TaskTypes TaskRepository TaskRepositoryProofs Approval Orchestrator OrchestratorProofs TaskQueue TaskQueueProofs TaskWorker TaskRoutes.
From stdpp Require Import options.
Import TaskRepository Orchestrator TaskQueue TaskWorker TaskRoutes.

Module RouteSpec.

(** ** Executions never learn their session *)

Section blank.
Context `{B : BullMQ} `{E : RoutesEnv}.
#[local] Set Default Proof Using "Type*".
Variable now : Z.

(** Every execution, and every call made for one, has the empty session id. *)
Definition blank (s : R) : Prop :=
  Forall (fun e => te_sessionId e = EmptyString) (JsMap.values (rt_executions s))
  /\ Forall (fun c => callSession c = EmptyString) (rt_calls s).

Definition keepsBlank {A} (m : JsM R A) : Prop := forall s, blank s -> blank (m s).2.

Lemma keepsBlank_ret {A} (a : A) : keepsBlank (mret a).
Proof. by intros s. Qed.

Lemma keepsBlank_gets {A} (f : R -> A) : keepsBlank (Js.gets f).
Proof. by intros s. Qed.

Lemma keepsBlank_lift {A} (o : outcome A) : keepsBlank (TaskRoutes.lift o).
Proof. by intros s. Qed.

Lemma keepsBlank_bind {A C} (m : JsM R A) (k : A -> JsM R C) :
  keepsBlank m -> (forall a, keepsBlank (k a)) -> keepsBlank (m ≫= k).
Proof.
  intros Hm Hk s Hs. specialize (Hm s Hs). unfold mbind, jsm_bind.
  destruct (m s) as [[a|e] s']; [by apply Hk|done].
Qed.

Lemma keepsBlank_try {A} (m : JsM R A) h :
  keepsBlank m -> (forall e, keepsBlank (h e)) -> keepsBlank (Js.try_catch m h).
Proof.
  intros Hm Hh s Hs. specialize (Hm s Hs). unfold Js.try_catch.
  destruct (m s) as [[a|e] s']; [done|by apply Hh].
Qed.

Lemma keepsBlank_onTasks f : keepsBlank (TaskRoutes.onTasks f).
Proof. by intros s. Qed.

Lemma keepsBlank_toTask e : keepsBlank (toTask e).
Proof. by intros s. Qed.

Lemma keepsBlank_onQueue {A} (f : TaskQueue.State -> outcome A * TaskQueue.State) :
  keepsBlank (onQueue f).
Proof. intros s Hs. unfold onQueue. by destruct (f (rt_queue s)). Qed.

Lemma keepsBlank_onApprovals {A} (f : ApprovalService.State -> A * ApprovalService.State) :
  keepsBlank (onApprovals f).
Proof. intros s Hs. unfold onApprovals. by destruct (f (rt_approvals s)). Qed.

Lemma keepsBlank_new t : keepsBlank (onExecutions (JsMap.set t (newExecution now t))).
Proof.
  intros s [Hs Hc]. split; [|done]. cbn. apply list.Forall_forall. intros e He.
  apply JsMap.values_set in He as [->|He]; [done|]. by apply (proj1 (list.Forall_forall _ _) Hs).
Qed.

Lemma keepsBlank_delete t : keepsBlank (onExecutions (JsMap.delete t)).
Proof.
  intros s [Hs Hc]. split; [|done]. cbn. apply list.Forall_forall.
  intros e ((k & e') & -> & He)%list_elem_of_fmap. apply list_elem_of_filter in He as [_ He].
  apply (proj1 (list.Forall_forall _ _) Hs). apply list_elem_of_fmap. by exists (k, e').
Qed.

Lemma keepsBlank_set t st p : keepsBlank (setExecution t st p).
Proof.
  intros s [Hs Hc]. split; [|done]. cbn. destruct (JsMap.get t _) as [e|] eqn:Eg; [|done].
  rewrite list.Forall_forall in Hs |- *. intros x Hx. apply JsMap.values_set in Hx as [->|Hx]; [|auto].
  cbn. apply Hs. by eapply JsMap.get_Some_values.
Qed.

(** Calls are made for executions of the map. *)
Lemma keepsBlank_call c r : callSession c = EmptyString -> keepsBlank (onSession c r).
Proof. intros Hc s [Hs Hl]. split; [done|]. cbn. apply Forall_app. by repeat constructor. Qed.

Lemma blank_bind_executions {C} (k : list (string * TaskExecution) -> JsM R C) :
  (forall ex, (forall t e, JsMap.get t ex = Some e -> te_sessionId e = EmptyString) ->
     keepsBlank (k ex)) -> keepsBlank (Js.gets rt_executions ≫= k).
Proof.
  intros Hk s Hs. unfold mbind, jsm_bind, Js.gets. cbn. apply Hk; [|done].
  intros t e He%JsMap.get_Some_values. by apply (proj1 (list.Forall_forall _ _) (proj1 Hs)).
Qed.

Create HintDb blank discriminated.
#[local] Hint Resolve keepsBlank_ret keepsBlank_gets keepsBlank_lift keepsBlank_onTasks
  keepsBlank_toTask keepsBlank_onQueue keepsBlank_onApprovals keepsBlank_new keepsBlank_delete
  keepsBlank_set keepsBlank_call : blank.

Ltac blank_step :=
  lazymatch goal with
  | |- keepsBlank (match ?x with _ => _ end) => destruct x eqn:?
  | |- keepsBlank (Js.gets rt_executions ≫= _) => apply blank_bind_executions; intros ? ?
  | |- keepsBlank (_ ≫= _) => apply keepsBlank_bind; [|intros ?]
  | |- keepsBlank (Js.try_catch _ _) => apply keepsBlank_try; [|intros ?]
  | |- keepsBlank (let '(_, _) := ?x in _) => destruct x
  end.
Ltac blank_steps :=
  repeat (first [blank_step | progress cbn beta iota zeta | solve [eauto with blank]]).

Lemma keepsBlank_prepareRepos ws rs : keepsBlank (prepareRepos ws rs).
Proof. induction rs as [|r rs IH]; cbn [prepareRepos]; blank_steps. Qed.

Lemma keepsBlank_bypassFirst t phs : keepsBlank (bypassFirst now t phs).
Proof. induction phs as [|p phs IH]; cbn [bypassFirst]; blank_steps. Qed.

Lemma keepsBlank_queue d b r : keepsBlank (queueAndReply now d b r).
Proof. unfold queueAndReply. blank_steps. Qed.

#[local] Hint Resolve keepsBlank_prepareRepos keepsBlank_bypassFirst keepsBlank_queue : blank.

(** The requests that touch executions, approvals or the queue. *)
Inductive Request :=
  | RStart (userId taskId : string) (prompt : option string)
  | RResume (userId taskId : string)
  | RInterrupt (taskId : string)
  | RContinue (taskId : string) (prompt : option string) (images : nat)
  | RRetry (taskId : string) (prompt : option string)
  | RCancel (taskId : string)
  | RRetryFrom (userId taskId phase : string) (options : TaskJobData -> TaskJobData)
  | RApprove (taskId phase : string) (feedback : option string)
  | RReject (taskId phase : string)
  | RBypass (taskId : string) (all : bool).

Definition handle (r : Request) : JsM R Response :=
  match r with
  | RStart u t p => start now u t p
  | RResume u t => TaskRoutes.resume now u t
  | RInterrupt t => interrupt now t
  | RContinue t p n => continue_ now t p n
  | RRetry t p => retry now t p
  | RCancel t => TaskRoutes.cancel now t
  | RRetryFrom u t ph f => retryFrom now u t ph f
  | RApprove t ph f => approve now t ph f
  | RReject t ph => reject now t ph
  | RBypass t b => bypass now t b
  end.

Lemma keepsBlank_handle r : keepsBlank (handle r).
Proof.
  destruct r; cbn [handle].
  - unfold start, startRepositories, fail400, fail404. blank_steps.
  - unfold TaskRoutes.resume, fail400, fail404. blank_steps.
  - unfold interrupt, fail400, fail404. blank_steps.
  - unfold continue_, fail400, fail404. blank_steps.
  - unfold retry, fail400, fail404. blank_steps.
  - unfold TaskRoutes.cancel, fail400, fail404. blank_steps.
  - unfold retryFrom, fail400, fail404. blank_steps.
  - unfold approve. blank_steps.
  - unfold reject. blank_steps.
  - unfold bypass, fail404. blank_steps.
Qed.

End blank.

Section theorems.
Context `{B : BullMQ} `{E : RoutesEnv}.
#[local] Set Default Proof Using "Type*".

(** A sequence of requests, each at its time; a request that throws leaves the
    state it reached. *)
Definition serve (rs : list (Z * Request)) (s : R) : R :=
  fold_left (fun s r => (handle r.1 r.2 s).2) rs s.

(** No execution ever learns the session of its task: the id is created
    empty and no handler sets it. So after any sequence of requests since the
    server started, every abort, deletion, unregistration and prompt the routes
    made for an interrupted, continued, retried or cancelled task was addressed
    to the empty session id. *)
Theorem execution_session_never_set rs s :
  rt_executions s = [] -> rt_calls s = [] ->
  Forall (fun e => te_sessionId e = EmptyString) (JsMap.values (rt_executions (serve rs s)))
  /\ Forall (fun c => callSession c = EmptyString) (rt_calls (serve rs s)).
Proof.
  intros He Hc. change (blank (serve rs s)).
  assert (blank s) as Hs by (unfold blank; rewrite He, Hc; repeat constructor).
  clear He Hc. revert s Hs. induction rs as [|[n r] rs IH]; intros s Hs; [done|].
  cbn [serve fold_left]. apply IH, keepsBlank_handle, Hs.
Qed.

(** ** Retry from a phase *)

Context {BOK : BullMQOk}.

(** What remains to be said of a retry once its checks have passed. *)
Lemma retryFrom_run now userId taskId phase s t :
  findById taskId (rt_tasks s) = Some t -> retryError t phase = None ->
  exists s1, rt_queue s1 = rt_queue s
    /\ rt_tasks s1 = updateStatus now taskId Running (rt_tasks s)
    /\ retryFrom now userId taskId phase (fun d => d) s
       = match addTask (retryJob t userId taskId phase) None (rt_queue s) with
         | (Ok j, q) => (Ok (Res200 (RetryQueued taskId phase (job_id j))),
             {| rt_tasks := rt_tasks s1; rt_queue := q; rt_executions := rt_executions s1;
                rt_approvals := rt_approvals s1; rt_calls := rt_calls s1;
                rt_events := rt_events s1 |})
         | (Throw e, q) => (Ok (ResError 500 "Failed to retry from phase"),
             {| rt_tasks := rt_tasks s1; rt_queue := q; rt_executions := rt_executions s1;
                rt_approvals := rt_approvals s1; rt_calls := rt_calls s1;
                rt_events := rt_events s1 |})
         end.
Proof.
  intros Hf He. unfold retryFrom, mbind, jsm_bind, Js.try_catch, Js.gets. cbn. rewrite Hf, He.
  destruct (JsMap.get taskId (rt_executions s)) as [e|] eqn:Eg; cbn.
  - destruct (abortSession (te_sessionId e)) as [[]|m]; cbn;
      destruct (addTask _ None (rt_queue s)) as [[j|m'] q] eqn:Ea;
      unfold onQueue; cbn; rewrite Ea; (eexists {| rt_queue := rt_queue s |}; split_and!; reflexivity).
  - destruct (addTask _ None (rt_queue s)) as [[j|m'] q] eqn:Ea;
      unfold onQueue; cbn; rewrite Ea; (eexists {| rt_queue := rt_queue s |}; split_and!; reflexivity).
Qed.

(** A retry from a phase, once its checks have passed, marks the task as
    running and answers with success. If a job of the task is still known to the
    queue, in any state (finished jobs are kept for a day or a week), nothing is
    queued: the queue is unchanged and no worker will pick the task up. If not,
    a waiting job is added; it carries neither the workspace nor the
    repositories, so the run it starts works on no repository in the empty
    path. *)
Theorem retry_from_outcome now userId taskId phase s t row q :
  rt_tasks s !! taskId = Some row -> t = mapRow row -> retryError t phase = None ->
  taskQueue (rt_queue s) = Some q ->
  let d := retryJob t userId taskId phase in
  let '(r, s') := retryFrom now userId taskId phase (fun d => d) s in
  (exists row', rt_tasks s' !! taskId = Some row' /\ status row' = Running)
  /\ (is_Some (bq_getJob taskId q) ->
       r = Ok (Res200 (RetryQueued taskId phase taskId)) /\ rt_queue s' = rt_queue s)
  /\ (forall j q1, bq_getJob taskId q = None -> addTask d None (rt_queue s) = (Ok j, q1) ->
       r = Ok (Res200 (RetryQueued taskId phase taskId))
       /\ (exists q', taskQueue (rt_queue s') = Some q' /\ bq_getJob taskId q' = Some j
            /\ bq_getState taskId q' = JWaiting)
       /\ opt_startFromPhase (workerOptions (job_data j)) = phaseOfName phase
       /\ opt_repositories (workerOptions (job_data j)) = []
       /\ determineWorkingDirectory (opt_repositories (workerOptions (job_data j)))
            (opt_projectPath (workerOptions (job_data j))) = EmptyString).
Proof.
  intros Hrow -> He Hq d.
  destruct (retryFrom_run now userId taskId phase s (mapRow row)) as (s1 & Hq1 & Ht1 & Hrun);
    [unfold findById; by rewrite Hrow|done|].
  assert (exists row', rt_tasks s1 !! taskId = Some row' /\ status row' = Running) as Hst.
  { rewrite Ht1. unfold updateStatus. rewrite TaskRepoSpec.updateRow_same, Hrow. by eexists. }
  fold d in Hrun. rewrite Hrun. clear Hrun.
  destruct (decide (is_Some (bq_getJob taskId q))) as [Hj|Hj].
  - destruct (QueueSpec.addTask_existing d None (rt_queue s) q false eq_refl Hq Hj) as (j & -> & Hid).
    rewrite Hid. split_and!; [exact Hst|done|]. intros j' q1 Hn. rewrite Hn in Hj. by destruct Hj.
  - destruct (addTask d None (rt_queue s)) as [[j|m] q1] eqn:Ea; (split_and!; [exact Hst|done|]).
    2:{ by intros j q2 _ [=]. }
    intros j' q2 Hn [= <- <-].
    destruct (QueueSpec.addTask_new d None (rt_queue s) q false j q1 eq_refl Hq Hn Ea)
      as (Hid & Hd & q' & -> & HJ & HS & _). rewrite Hid, Hd. split_and!; [done| |done..].
    exists q'. by split_and!.
Qed.

(** ** Restart *)

(** A restart interrupts only running and paused tasks but removes the jobs
    of all: a task that was queued or waiting for an approval keeps its status,
    has no job any more, and the resume route refuses it. *)
Theorem restart_strands_queued_task now s i row q pq :
  QueueSpec.unlocked -> taskQueue (rt_queue s) = Some q -> priorityQueue (rt_queue s) = Some pq ->
  rt_tasks s !! i = Some row -> isStale row = false -> status row <> Interrupted ->
  bq_getState i q ∈ staleStates -> bq_getJob i pq = None ->
  let s' := serverStart now s in
  rt_tasks s' !! i = Some row
  /\ TaskQueue.getJob i (rt_queue s') = None
  /\ forall userId, TaskRoutes.resume now userId i s' = (Ok (ResError 400 "Cannot resume task"), s').
Proof.
  intros Hu Hq Hpq Hrow Hst Hni Hjob Hno s'.
  assert (rt_tasks s' !! i = Some row) as Hrow'.
  { cbn. by rewrite lookup_fmap, Hrow; cbn; rewrite Hst. }
  split_and!; [done| |].
  - unfold s', serverStart, cleanStaleJobsOnStartup. rewrite Hq, Hpq. unfold TaskQueue.getJob. cbn.
    rewrite (proj1 (QueueSpec.removeJobs_spec (bq_getJobs staleStates q) q i Hu)).
    rewrite (proj1 (QueueSpec.removeJobs_spec (bq_getJobs staleStates pq) pq i Hu)), Hno.
    case_bool_decide as Hin; [by case_bool_decide|].
    destruct (bq_getJob i q) as [j|] eqn:Ej; [|by case_bool_decide]. destruct Hin.
    pose proof (getJob_id i q j Ej) as Hid. apply list_elem_of_fmap. exists j. split; [done|].
    apply getJobs_spec. by rewrite Hid.
  - intros u. unfold TaskRoutes.resume, mbind, jsm_bind, Js.gets. unfold findById. rewrite Hrow'. cbn.
    by rewrite bool_decide_false.
Qed.

End theorems.

(** ** Resume *)

Section resume.
Context `{PR : PhaseRunners} `{E : RoutesEnv}.
#[local] Set Default Proof Using "Type*".

(** The phases before the developer phase that a start phase brings back. *)
Definition earlyPhases (startFrom : string) : list RetryablePhase :=
  match phaseOfName startFrom with
  | Some Planning | None => [Planning; Analysis]
  | Some Analysis => [Analysis]
  | Some _ => []
  end.

Lemma phaseOfName_sound s p : phaseOfName s = Some p -> phaseName p = s.
Proof. unfold phaseOfName. intros ([? ?] & (_ & ? & _)%list_find_Some & ->)%fmap_Some. done. Qed.

(** A plan whose start phase comes after the analysis preserves the analysis. *)
Lemma resumePlan_preserves t rp :
  resumePlan t = Some rp -> rp_startFromPhase rp <> "Analysis" -> rp_preserveAnalysis rp = true.
Proof.
  unfold resumePlan. destruct (JsStr.orNull (t_currentPhase t)) as [ph|].
  - intros [= <-]. cbn. intros. by rewrite bool_decide_false.
  - destruct (t_completedPhases t) as [[|e es]|]; [by intros [= <-]| |by intros [= <-]].
    repeat case_bool_decide; by intros [= <-].
Qed.

(** C29 The run the resume route queues. It does planning and analysis again only
    if the task was interrupted in one of them (or in an unknown phase), but it
    always does the developer phase, the tests and the merge again: also for a
    task whose record says that its merge is complete and which was to continue
    with the global scan. The phases of the run are started in that order, and
    the scan comes last. *)
Theorem resume_redoes_development now t t' rp userId pj i tb :
  resumePlan t = Some rp -> findById i tb = Some t' ->
  t_completedPhases t' = t_completedPhases t ->
  Forall TaskRepoSpec.isObject (completedPhasesOf t) ->
  prepare_providers t' = Ok tt ->
  let o := workerOptions (resumeJob t userId pj rp) in
  OrchSpec.planned o (computePlan t' o)
  = earlyPhases (rp_startFromPhase rp) ++ [Developer; TestGeneration; Merge]
  /\ exists k, k `prefix_of` earlyPhases (rp_startFromPhase rp) ++ [Developer; TestGeneration; Merge]
       /\ calls (execute now i o tb).2 = k ++ [GScan].
Proof.
  intros Hrp Hf Hsame Hobj Hprov o.
  assert (forall q, includesPhase q (completedPhasesOf t') = false) as Hno.
  { intros q. unfold completedPhasesOf in *. rewrite Hsame. clear -Hobj.
    induction Hobj as [|[] l He _ IH]; [done|done|exact IH]. }
  assert (OrchSpec.planned o (computePlan t' o)
    = earlyPhases (rp_startFromPhase rp) ++ [Developer; TestGeneration; Merge]) as Hplan.
  { unfold OrchSpec.planned, computePlan, startPhaseIndex, earlyPhases. rewrite !Hno.
    change (opt_startFromPhase o) with (phaseOfName (rp_startFromPhase rp)).
    change (opt_preserveAnalysis o) with (rp_preserveAnalysis rp).
    change (opt_skipPlanning o) with false. change (opt_skipTestGeneration o) with false.
    pose proof (resumePlan_preserves t rp Hrp) as Hpres.
    destruct (phaseOfName (rp_startFromPhase rp)) as [p|] eqn:Ep; [|done].
    apply phaseOfName_sound in Ep.
    destruct p; cbn in Ep |- *; try done; by rewrite Hpres by (rewrite <- Ep; discriminate). }
  split; [exact Hplan|]. rewrite <- Hplan.
  destruct (OrchSpec.afterTry_calls now i o t' tb) as (k & Hk & Hcalls & _). exists k. split; [done|].
  pose proof (OrchSpec.execute_found now i o tb t' Hf) as Hx. rewrite Hprov in Hx.
  destruct Hx as (g & s' & -> & Hc & _). cbn. by rewrite Hc, Hcalls.
Qed.

End resume.

(** ** Dispatch *)

Lemma queueResume_path m path :
  routeMatches m path queueResumeRoute = true -> m = "POST" /\ path = ["queue"; "resume"].
Proof.
  unfold routeMatches. intros [Hm%bool_decide_eq_true Hp]%andb_true_iff. split; [done|].
  destruct path as [|x [|y [|z path]]]; cbn in Hp; try discriminate.
  - by rewrite andb_false_r in Hp.
  - apply andb_true_iff in Hp as [Hx Hy%andb_true_iff]. destruct Hy as [Hy _].
    apply bool_decide_eq_true in Hx, Hy. by subst.
  - by rewrite !andb_false_r in Hp.
Qed.

(** The route that resumes paused queues cannot be reached: its path is
    caught by the route that resumes a task, with the task id "queue", which is
    registered first. The route that pauses the queues is reached. So queues
    paused over HTTP stay paused. *)
Theorem queue_resume_unreachable `{X : Express} {XOK : ExpressOk} :
  (forall m path, dispatch routes m path <> Some queueResumeRoute)
  /\ dispatch routes "POST" ["queue"; "resume"] = Some taskResumeRoute
  /\ dispatch routes "POST" ["queue"; "pause"] = Some queuePauseRoute.
Proof.
  split_and!; [|by rewrite dispatch_first..].
  intros m path. rewrite dispatch_first. intros Hd.
  assert (routeMatches m path queueResumeRoute = true) as Hm.
  { apply (list_elem_of_filter (fun r => routeMatches m path r = true) routes).
    destruct (base.filter _ routes) as [|r rs]; [done|]. injection Hd as ->. apply list_elem_of_here. }
  apply queueResume_path in Hm as [-> ->]. vm_compute in Hd. congruence.
Qed.

(** ** A concrete server *)

#[local] Existing Instance MemBull.memBull.
#[local] Existing Instance MemBull.memBullOk.
#[local] Existing Instance OrchSpec.demoRunners.

#[local] Instance demoEnv : RoutesEnv :=
  {| getProject _ := Some {| pj_approvalMode := Some Automatic; pj_priority := None; pj_isPro := None |};
     getUserGitHubToken _ := Some "token";
     findByProjectId _ := [{| rr_id := "r1"; rr_name := "api"; rr_type := "backend";
                              rr_executionOrder := Some 1%Z |}];
     getRepository _ := None; workspacesDir := "/ws"; pathJoin a b := a +:+ "/" +:+ b;
     workspaceExists _ := true; prepareRepo _ _ := Ok tt; connectOpenCode := Ok tt;
     abortSession _ := Ok tt; deleteSession _ := Ok tt; sendPrompt _ _ _ := Ok tt;
     setAutomatic _ := Ok tt; avgTaskDuration := 180; workerConcurrency := 3 |}.

Definition demoServer (tb : gmap string TaskRow) (main : gmap string (TaskJobData * JobState)) : R :=
  {| rt_tasks := tb;
     rt_queue := {| taskQueue := Some main; priorityQueue := Some ∅; commitQueue := None |};
     rt_executions := []; rt_approvals := ApprovalService.init; rt_calls := []; rt_events := [] |}.

Definition demoRequests : list (Z * Request) :=
  [(5%Z, RStart "u" "t1" (Some "add a login page")); (6%Z, RInterrupt "t1")].

Lemma execution_session_never_set_witness :
  rt_calls (serve demoRequests (demoServer OrchSpec.demoTable ∅)) = [Abort EmptyString]
  /\ Forall (fun c => callSession c = EmptyString)
       (rt_calls (serve demoRequests (demoServer OrchSpec.demoTable ∅))).
Proof.
  split; [vm_compute; reflexivity|].
  apply (execution_session_never_set demoRequests (demoServer OrchSpec.demoTable ∅) eq_refl eq_refl).
Defined.

(** The job of the first run of "t1", finished and kept. *)
Definition demoKept : R :=
  demoServer OrchSpec.demoTable {["t1" := (QueueSpec.demoJob "t1" None, JCompleted)]}.

Definition demoRow : TaskRow := newRow "t1" 0 TaskRepoSpec.demoParams.

Lemma retry_from_outcome_witness :
  exists r s', retryFrom 5 "u" "t1" "Analysis" (fun d => d) demoKept = (r, s')
    /\ r = Ok (Res200 (RetryQueued "t1" "Analysis" "t1")) /\ rt_queue s' = rt_queue demoKept
    /\ exists row', rt_tasks s' !! "t1" = Some row' /\ status row' = Running.
Proof.
  pose proof (retry_from_outcome 5 "u" "t1" "Analysis" demoKept (mapRow demoRow) demoRow
    {["t1" := (QueueSpec.demoJob "t1" None, JCompleted)]} eq_refl eq_refl eq_refl eq_refl) as H.
  cbv zeta in H. destruct (retryFrom 5 "u" "t1" "Analysis" (fun d => d) demoKept) as [r s'].
  destruct H as (Hst & Hkept & _). destruct Hkept as [Hr Hq]; [by eexists|].
  exists r, s'. by split_and!.
Defined.

Definition demoQueuedServer : R :=
  demoServer (updateStatus 1 "t1" TaskTypes.Queued OrchSpec.demoTable)
    {["t1" := (QueueSpec.demoJob "t1" None, JWaiting)]}.

Lemma restart_strands_queued_task_witness :
  TaskQueue.getJob "t1" (rt_queue demoQueuedServer) <> None
  /\ TaskQueue.getJob "t1" (rt_queue (serverStart 9 demoQueuedServer)) = None
  /\ (TaskRoutes.resume 9 "u" "t1" (serverStart 9 demoQueuedServer)).1
     = Ok (ResError 400 "Cannot resume task").
Proof.
  split; [vm_compute; discriminate|].
  destruct (restart_strands_queued_task 9 demoQueuedServer "t1"
    (withStatus 1 TaskTypes.Queued None demoRow)
    {["t1" := (QueueSpec.demoJob "t1" None, JWaiting)]} ∅
    QueueSpec.memBull_unlocked eq_refl eq_refl eq_refl eq_refl ltac:(discriminate)
    ltac:(by apply (bool_decide_unpack _)) eq_refl) as (_ & Hg & Hr).
  split; [exact Hg|]. by rewrite (Hr "u").
Defined.

(** A task interrupted after its merge. *)
Definition demoMerged : gmap string TaskRow :=
  foldr (fun ph => markPhaseComplete 3 "t1" ph None) OrchSpec.demoTable
    ["Merge"; "TestGeneration"; "Developer"; "Analysis"; "Planning"].
Definition demoMergedTask : Task := mapRow (default demoRow (demoMerged !! "t1")).
Definition demoPlan : ResumePlan :=
  {| rp_startFromPhase := "GlobalScan"; rp_preserveAnalysis := true; rp_preserveStories := true |}.

Lemma resume_redoes_development_witness :
  resumePlan demoMergedTask = Some demoPlan
  /\ OrchSpec.planned (workerOptions (resumeJob demoMergedTask "u"
         {| pj_approvalMode := None; pj_priority := None; pj_isPro := None |} demoPlan))
       (computePlan demoMergedTask (workerOptions (resumeJob demoMergedTask "u"
         {| pj_approvalMode := None; pj_priority := None; pj_isPro := None |} demoPlan)))
     = [Developer; TestGeneration; Merge].
Proof.
  split; [vm_compute; reflexivity|].
  apply (resume_redoes_development 9 demoMergedTask demoMergedTask demoPlan "u"
    {| pj_approvalMode := None; pj_priority := None; pj_isPro := None |} "t1" demoMerged);
    [vm_compute; reflexivity|vm_compute; reflexivity|reflexivity
    |vm_compute; repeat constructor|reflexivity].
Defined.

#[local] Instance demoExpress : Express := fun rs m path =>
  hd_error (base.filter (fun r => routeMatches m path r = true) rs).
#[local] Instance demoExpressOk : ExpressOk.
Proof. done. Qed.

Lemma queue_resume_unreachable_witness :
  dispatch routes "POST" ["queue"; "resume"] = Some taskResumeRoute
  /\ dispatch routes "GET" ["queue"; "stats"] = Some (get_ [Lit "queue"; Lit "stats"]).
Proof.
  split; [|vm_compute; reflexivity]. apply (queue_resume_unreachable (X := demoExpress)).
Defined.

End RouteSpec.
