(* ===== verification/TaskContext.v ===== *)
(** * Continuing a task (src/services/context/TaskContextBuilder.ts and the
    remaining routes of src/api/routes/tasks.ts)

    What is told to a new task about a finished one, the route that creates
    such a task, and the routes that list, create, show and delete tasks. The
    symbols of a prompt are their UTF-8 bytes. The property [file_path] of a
    stored tool input, which is kept in serialised form, is an argument; so are
    the properties a stored analysis or story has beyond its declared type
    ([StoredJson]): the columns hold what the language model wrote. A stored
    story always has a status, so the fallback [unknown] is not reached. *)

From S2P Require Import Prelude TaskTypes TaskRepository Json Regex Approval Orchestrator TaskQueue TaskRoutes.
From stdpp Require Import list sorting pretty options.

Module TaskContextBuilder.
Import TaskRepository.

(** What the columns [analysis] and [stories] hold beyond the declared types:
    the dependencies of an analysis, the properties [storyId] and [name] of a
    story. *)
Class StoredJson := {
  dependenciesOf : AnalysisData -> list string;
  storyIdOf : Story -> option string;
  nameOf : Story -> option string;
}.

Record StorySummary := { sy_id : option string; sy_title : option string; sy_status : StoryStatus; sy_description : string }.

Record TaskContext := {
  tx_originalTaskId : string;
  tx_originalPrompt : string;
  tx_stories : list StorySummary;
  tx_branchName : option string;
  tx_pr : option (Z * string);
  tx_analysisSummary : option string;
  tx_filesModified : list string;
  tx_finalStatus : TaskStatus;
}.

Definition newline : string := String "010" EmptyString.
Definition joinLines (l : list string) : string := String.concat newline l.

Definition statusName (s : TaskStatus) : string :=
  match s with
  | Pending => "pending" | TaskTypes.Queued => "queued" | Running => "running" | Paused => "paused"
  | WaitingForApproval => "waiting_for_approval" | Completed => "completed" | Failed => "failed" | Cancelled => "cancelled" | Interrupted => "interrupted"
  end.

Definition buildAnalysisSummary `{StoredJson} (a : AnalysisData) : string :=
  joinLines
    ((if JsStr.truthy (an_summary a) then [an_summary a] else []) ++
     (if JsStr.truthy (an_approach a) then ["**Approach:** " +:+ an_approach a] else []) ++
     (match an_risks a with [] => [] | l => ["**Risks identified:** " +:+ String.concat ", " l] end) ++
     (match dependenciesOf a with [] => [] | l => ["**Dependencies:** " +:+ String.concat ", " l] end)).

Definition pathPattern : string := "(?:^|\s)((?:\.\/|\/)?[\w\-./]+\.\w{1,10})(?:\s|$|:)".

(** [content.match(...)], no match when there is none. *)
Definition matchedPaths (content : string) : list string :=
  match Regex.compile pathPattern with Some r => Regex.matchAll false r content | None => [] end.

(** [s.replace(/:$/, '')] *)
Definition dropColon (s : string) : string :=
  if JsStr.endsWith ":" s then JsStr.take (JsStr.length s - 1) s else s.

Definition add (f : string) (l : list string) : list string := if bool_decide (f ∈ l) then l else l ++ [f].

Section Files.
Context `{SJ : StoredJson}.
Context (filePathOf : string -> option string).

Definition toolFile (e : ActivityEntry) : option string :=
  match ae_tool e with
  | Some t => if bool_decide (t = "Edit" \/ t = "Write") then JsStr.orNull (ae_toolInput e ≫= filePathOf) else None
  | None => None
  end.

Definition mentioned (e : ActivityEntry) : list string :=
  base.filter (fun p => JsStr.includes "/" p = true /\ JsStr.startsWith "http" p = false)
    ((fun m => dropColon (TaskRoutes.trim m)) <$> matchedPaths (ae_content e)).

(** The order of code units. *)
Definition unitLe (a b : string) : Prop := String.leb a b = true.
#[global] Instance unitLe_dec a b : Decision (unitLe a b).
Proof. unfold unitLe. apply _. Defined.

(** A set keeps the order of insertion; [sort] compares code units. *)
Definition extractFilesFromActivityLog (log : list ActivityEntry) : list string :=
  let files := fold_left (fun acc e =>
    fold_left (fun acc p => add p acc) (mentioned e) (match toolFile e with Some f => add f acc | None => acc end)) log [] in
  merge_sort unitLe files.

(** [a || b] on strings *)
Definition orProperty (a : string) (b : option string) : option string := if JsStr.truthy a then Some a else b.

Definition storySummary (s : Story) : StorySummary :=
  {| sy_id := orProperty (s_id s) (storyIdOf s); sy_title := orProperty (s_title s) (nameOf s); sy_status := s_status s; sy_description := JsStr.take 200 (s_description s) |}.

Definition buildTaskContext (taskId : string) (tb : gmap string TaskRow) : option TaskContext :=
  match findById taskId tb with
  | None => None
  | Some t =>
      Some {| tx_originalTaskId := t_id t; tx_originalPrompt := default EmptyString (t_description t);
              tx_stories := storySummary <$> default [] (t_stories t); tx_branchName := t_branchName t;
              tx_pr := match t_prNumber t, t_prUrl t with Some n, Some u => Some (n, u) | _, _ => None end;
              tx_analysisSummary := buildAnalysisSummary <$> t_analysis t;
              tx_filesModified := extractFilesFromActivityLog (getActivityLog taskId tb);
              tx_finalStatus := t_status t |}
  end.

End Files.

Definition storyMark (s : StoryStatus) : string :=
  match s with StoryCompleted => "✅" | StoryFailed => "❌" | _ => "⏸️" end.

Definition storyLines (s : StorySummary) : list string :=
  ("- " +:+ storyMark (sy_status s) +:+ " **" +:+ default "undefined" (sy_title s) +:+ "**") ::
  (if JsStr.truthy (sy_description s) then ["  " +:+ sy_description s] else []).

Definition tick (s : string) : string := "`" +:+ s +:+ "`".

Definition formatContextAsPrompt (c : TaskContext) : string :=
  joinLines
    (["## Previous Task Context"; EmptyString; "**Original Task ID:** " +:+ tx_originalTaskId c;
      "**Status:** " +:+ statusName (tx_finalStatus c); EmptyString; "### Original Request"; tx_originalPrompt c; EmptyString] ++
     (match JsStr.orNull (tx_branchName c) with Some b => ["**Branch:** " +:+ tick b] | None => [] end) ++
     (match tx_pr c with Some (n, u) => ["**PR:** #" +:+ pretty n +:+ " - " +:+ u] | None => [] end) ++
     (match tx_stories c with [] => [] | l => [EmptyString; "### Stories Completed"] ++ mjoin (storyLines <$> l) end) ++
     (match JsStr.orNull (tx_analysisSummary c) with
      | Some s => [EmptyString; "### Analysis Summary"; s]
      | None => []
      end) ++
     (match tx_filesModified c with
      | [] => []
      | l => [EmptyString; "### Files Modified"] ++ ((fun f => "- " +:+ tick f) <$> take 20 l) ++
             (if 20 <? length l then ["- ... and " +:+ pretty (length l - 20) +:+ " more files"] else [])
      end) ++
     [EmptyString; "---"; EmptyString]).

Definition buildContinuationPrompt (c : TaskContext) (userPrompt : string) : string :=
  formatContextAsPrompt c +:+ "## New Instructions" +:+ newline +:+ newline +:+ userPrompt +:+ newline +:+ newline +:+ "---" +:+
  newline +:+ newline +:+
  "Continue from where the previous task left off. You have access to the same workspace and branch.".

End TaskContextBuilder.

(** ** Routes *)

Module TaskCrud.
Import TaskRepository Orchestrator TaskQueue TaskRoutes TaskContextBuilder.

Inductive Reply :=
  | Tasks (l : list Task)
  | Created (t : Task)
  | Shown (t : Task) (log : list ActivityEntry) (e : option TaskExecution)
  | Log (taskId : string) (log : list ActivityEntry) (count : nat)
  | Deleted
  | StatusOf (t : Task) (e : option TaskExecution) (pendingApproval : option ApprovalService.PendingApprovalInfo)
  | Continued (taskId continuedFrom jobId : string) (position : option nat).

Inductive Answer := Done (code : Z) (r : Reply) | Error (code : Z) (error : string).

Section Routes.
Context `{B : BullMQ} `{E : RoutesEnv} `{SJ : StoredJson}.
(** The owner of a project, the next identifier of a task, the reader of tool
    inputs. *)
Context (ownerOf : string -> option string) (freshId : string) (filePathOf : string -> option string) (now : Z).

(** [GET /]: the tasks of every user, filtered by the query. *)
Definition listTasks (projectId : option string) (status : option TaskStatus) : JsM R Answer :=
  tb ← Js.gets rt_tasks;
  let all := findAll {| fo_projectId := None; fo_status := None; fo_limit := None; fo_offset := None |} tb in
  let some := match JsStr.orNull projectId with
              | Some p => base.filter (fun t => t_projectId t = Some p) all
              | None => all
              end in
  mret (Done 200 (Tasks (match status with Some s => base.filter (fun t => t_status t = s) some | None => some end))).

Definition createTask (userId : string) (title description projectId repositoryId : option string) : JsM R Answer :=
  match JsStr.orNull title, JsStr.orNull projectId with
  | Some ti, Some p =>
      if negb (bool_decide (ownerOf p = Some userId)) then mret (Error 404 "Project not found")
      else
        tb ← Js.gets rt_tasks;
        match create freshId now {| cp_userId := userId; cp_projectId := Some p; cp_repositoryId := repositoryId; cp_title := ti;
                                    cp_description := description; cp_status := Some Pending |} tb with
        | Some (t, tb') => onTasks (fun _ => tb');; mret (Done 201 (Created t))
        | None => Js.throw "duplicate key value violates unique constraint"
        end
  | _, _ => mret (Error 400 "title and projectId required")
  end.

Definition withTask (taskId : string) (k : Task -> JsM R Answer) : JsM R Answer :=
  tb ← Js.gets rt_tasks;
  match findById taskId tb with Some t => k t | None => mret (Error 404 "Task not found") end.

Definition showTask (taskId : string) : JsM R Answer :=
  withTask taskId (fun t =>
    log ← Js.gets (fun s => getActivityLog taskId (rt_tasks s));
    ex ← Js.gets rt_executions;
    mret (Done 200 (Shown t log (JsMap.get (t_id t) ex)))).

Definition activityLog (taskId : string) : JsM R Answer :=
  withTask taskId (fun t =>
    log ← Js.gets (fun s => getActivityLog taskId (rt_tasks s));
    mret (Done 200 (Log (t_id t) log (length log)))).

Definition deleteTask (taskId : string) : JsM R Answer :=
  withTask taskId (fun _ => onTasks (fun tb => (delete taskId tb).2);; mret (Done 200 Deleted)).

Definition taskStatus (taskId : string) : JsM R Answer :=
  withTask taskId (fun t => ex ← Js.gets rt_executions;
    ap ← Js.gets (fun s => ApprovalService.getPendingApprovalForTask taskId (rt_approvals s));
    mret (Done 200 (StatusOf t (JsMap.get taskId ex) ap))).

Definition continuable : list TaskStatus := [Completed; Failed; Cancelled].

(** The job of a continuation works in the workspace of the first task. *)
Definition continuationJob (t : Task) (from newId userId : string) (pj : Project) : TaskJobData :=
  {| jd_taskId := newId; jd_userId := userId; jd_projectId := t_projectId t; jd_title := None; jd_description := None;
     jd_repositoryIds := None; jd_pipelineName := Some "v2"; jd_workspacePath := Some (workspaceOf from);
     jd_repositories := Some (repoInfo (workspaceOf from) <$> findByProjectId (t_projectId t));
     jd_githubToken := getUserGitHubToken userId; jd_approvalMode := Some (default Manual (pj_approvalMode pj));
     jd_priority := Some (orNumber (pj_priority pj) 0); jd_startFromPhase := None; jd_preserveAnalysis := None;
     jd_preserveStories := None; jd_continuedFromTaskId := Some from |}.

(** The [try] at the end. *)
Definition queueContinuation (d : TaskJobData) (from : string) (isPro : bool) : JsM R Answer :=
  Js.try_catch
    (j ← onQueue (addTask d (Some {| ao_priority := jd_priority d; ao_delay := None; ao_isPro := Some isPro |}));
     position ← Js.gets (fun s => getQueuePosition (jd_taskId d) (rt_queue s));
     onTasks (updateStatus now (jd_taskId d) TaskTypes.Queued);;
     toTask (EvQueued (jd_taskId d) (job_id j) position);;
     mret (Done 200 (Continued (jd_taskId d) from (job_id j) position)))
    (fun e =>
     onTasks (updateStatus now (jd_taskId d) Failed);;
     mret (Error 500 ("Failed to queue task: " +:+ e))).

Definition continuationParams (t : Task) (userId fullPrompt : string) : CreateTaskParams :=
  {| cp_userId := userId; cp_projectId := t_projectId t; cp_repositoryId := t_repositoryId t;
     cp_title := "Continue: " +:+ t_title t; cp_description := Some fullPrompt; cp_status := Some Pending |}.

(** From the look-up of the project on. *)
Definition launchContinuation (userId originalTaskId : string) (t : Task) (text : string) : JsM R Answer :=
  match getProject (t_projectId t) with
  | None => mret (Error 404 "Project not found")
  | Some pj =>
      lift connectOpenCode;;
      onExecutions (JsMap.set freshId (newExecution now freshId));;
      onTasks (updateStatus now freshId Running);;
      toTask (EvStarted freshId);;
      toTask (EvUserActivity freshId text);;
      queueContinuation (continuationJob t originalTaskId freshId userId pj) originalTaskId (default false (pj_isPro pj))
  end.

Definition continueWithContext (userId originalTaskId : string) (prompt : option string) : JsM R Answer :=
  let text := default EmptyString (trim <$> prompt) in
  if JsStr.length text <? 5 then mret (Error 400 "prompt required - describe what you want the AI to do next")
  else
    tb ← Js.gets rt_tasks;
    match findById originalTaskId tb with
    | None => mret (Error 404 "Original task not found")
    | Some t =>
        if negb (bool_decide (t_status t ∈ continuable)) then
          mret (Error 400 ("Cannot continue task with status '" +:+ statusName (t_status t) +:+ "'. Use /continue for paused tasks."))
        else
          match buildTaskContext filePathOf originalTaskId tb with
          | None => mret (Error 500 "Failed to build context from original task")
          | Some c =>
              match create freshId now (continuationParams t userId (buildContinuationPrompt c text)) tb with
              | None => Js.throw "duplicate key value violates unique constraint"
              | Some (_, tb') => onTasks (fun _ => tb');; launchContinuation userId originalTaskId t text
              end
          end
    end.

(** [formatWaitTime] *)
Definition ceilQuot (a b : Z) : Z := ((a + b - 1) / b)%Z.

Definition formatWaitTime (seconds : Z) : string :=
  if (seconds <? 60)%Z then pretty seconds +:+ "s"
  else if (seconds <? 3600)%Z then pretty (ceilQuot seconds 60) +:+ "m"
  else pretty (seconds / 3600)%Z +:+ "h " +:+ pretty (ceilQuot (seconds mod 3600) 60) +:+ "m".

End Routes.
End TaskCrud.
