(* ===== verification/TaskContextProofs.v ===== *)
(** * Continuing a task: what the new task is told, and what it leaves alone *)

From S2P Require Import Prelude TaskTypes TaskRepository TaskRepositoryProofs Regex Approval Orchestrator OrchestratorProofs TaskQueue TaskQueueProofs TaskRoutes TaskRoutesProofs TaskContext.
From stdpp Require Import list sorting pretty options.
Import TaskRepository Orchestrator TaskQueue TaskRoutes TaskContextBuilder.

Module ContinueSpec.

(** ** The prompt *)

Lemma includes_append_r p s t : JsStr.includes p t = true -> JsStr.includes p (s +:+ t) = true.
Proof.
  intros H. induction s as [|c s IH]; [done|]. change (String c s +:+ t) with (String c (s +:+ t)). destruct p as [|x p]; [done|].
  cbn [JsStr.includes]. rewrite IH. apply orb_true_r.
Qed.

Lemma includes_prefix p t : JsStr.includes p (p +:+ t) = true.
Proof. exact (JsStr.includes_append p EmptyString t). Qed.

Lemma includes_self p : JsStr.includes p p = true.
Proof. rewrite <- (JsStr.append_nil p) at 2. apply includes_prefix. Qed.

Lemma concat_cons sep (x : string) l : l <> [] -> String.concat sep (x :: l) = x +:+ sep +:+ String.concat sep l.
Proof. by destruct l. Qed.

Lemma includes_concat sep (l : list string) x : x ∈ l -> JsStr.includes x (String.concat sep l) = true.
Proof.
  induction l as [|y l IH]; [by intros ?%not_elem_of_nil|]. destruct l as [|z l].
  - intros ->%list_elem_of_singleton. apply includes_self.
  - rewrite concat_cons by done. intros [->|H]%elem_of_cons; [apply includes_prefix|]. do 2 apply includes_append_r. auto.
Qed.

(** Text of a prompt stays in it when more is appended. *)
Lemma includes_append_l p s t : JsStr.includes p s = true -> JsStr.includes p (s +:+ t) = true.
Proof.
  revert t. induction s as [|c s IH]; intros t H.
  - destruct p; [by destruct t|done].
  - change (String c s +:+ t) with (String c (s +:+ t)). destruct p as [|x p]; [done|].
    cbn [JsStr.includes] in *. apply orb_true_iff in H as [H|H]; apply orb_true_iff; [left|right; auto].
    clear IH. change (String c (s +:+ t)) with (String c s +:+ t). revert H. generalize (String x p) (String c s). clear.
    intros p. induction p as [|x p IH]; intros s H; [done|]. destruct s as [|y s]; [done|].
    change (String y s +:+ t) with (String y (s +:+ t)). cbn [JsStr.startsWith] in *. apply andb_true_iff in H as [-> H]. cbn. auto.
Qed.

Lemma prompt_keeps_both c text :
  JsStr.includes (tx_originalPrompt c) (buildContinuationPrompt c text) = true
  /\ JsStr.includes text (buildContinuationPrompt c text) = true.
Proof.
  unfold buildContinuationPrompt. split.
  - apply includes_append_l, includes_concat. unfold formatContextAsPrompt. apply elem_of_app. left. do 6 right. by left.
  - do 4 apply includes_append_r. apply includes_prefix.
Qed.

(** ** The files of a log *)

Lemma add_elem f x l : f ∈ add x l <-> f = x \/ f ∈ l.
Proof. unfold add. case_bool_decide; set_solver. Qed.

Lemma add_nodup x l : NoDup l -> NoDup (add x l).
Proof. intros H. unfold add. case_bool_decide; [done|]. apply NoDup_app. split_and!; [done|set_solver|apply NoDup_singleton]. Qed.

Lemma adds_spec ps acc f :
  (f ∈ fold_left (fun acc p => add p acc) ps acc <-> f ∈ acc \/ f ∈ ps)
  /\ (NoDup acc -> NoDup (fold_left (fun acc p => add p acc) ps acc)).
Proof.
  revert acc. induction ps as [|p ps IH]; intros acc; cbn [fold_left]; [set_solver|].
  destruct (IH (add p acc)) as [-> IHn]. rewrite add_elem. split; [set_solver|]. auto using add_nodup.
Qed.

#[global] Instance unitLe_total : Total unitLe.
Proof. intros a b. unfold unitLe. destruct (String.leb_total a b); auto. Qed.

Section files.
Context (filePathOf : string -> option string).
#[local] Set Default Proof Using "Type*".

Definition namedBy (f : string) (e : ActivityEntry) : Prop := toolFile filePathOf e = Some f \/ f ∈ mentioned e.

Lemma named_cons f e log : (exists x, x ∈ e :: log /\ namedBy f x) <-> namedBy f e \/ exists x, x ∈ log /\ namedBy f x.
Proof.
  split.
  - intros (x & [->|Hx]%elem_of_cons & H); eauto.
  - intros [H|(x & Hx & H)]; [exists e; by split; [left|]|exists x; by split; [right|]].
Qed.

Lemma files_spec log acc f :
  let go := fold_left (fun acc e => fold_left (fun acc p => add p acc) (mentioned e)
              (match toolFile filePathOf e with Some f => add f acc | None => acc end)) log acc in
  (f ∈ go <-> f ∈ acc \/ exists e, e ∈ log /\ namedBy f e) /\ (NoDup acc -> NoDup go).
Proof.
  cbv zeta. revert acc. induction log as [|e log IH]; intros acc; cbn [fold_left]; [set_solver|].
  match goal with |- context [fold_left _ log ?a] => destruct (IH a) as [-> IHn] end.
  match goal with |- context [fold_left _ (mentioned e) ?a] => destruct (adds_spec (mentioned e) a f) as [-> Hn] end.
  split; [|intros Ha; apply IHn, Hn; destruct (toolFile _ e); auto using add_nodup].
  rewrite named_cons. generalize (exists x, x ∈ log /\ namedBy f x). unfold namedBy.
  intros P. destruct (toolFile filePathOf e) as [g|]; [rewrite add_elem|]; intuition congruence.
Qed.

(** Exactly the files an entry names, each once, in order. *)
Lemma extracted_files log :
  NoDup (extractFilesFromActivityLog filePathOf log)
  /\ Sorted unitLe (extractFilesFromActivityLog filePathOf log)
  /\ forall f, f ∈ extractFilesFromActivityLog filePathOf log <-> exists e, e ∈ log /\ namedBy f e.
Proof.
  unfold extractFilesFromActivityLog.
  match goal with |- context [merge_sort unitLe ?l] => pose proof (merge_sort_Permutation unitLe l) as Hp end.
  split_and!; [rewrite Hp; by apply (files_spec log [] ""); constructor|apply Sorted_merge_sort; apply _|].
  intros f. rewrite Hp. rewrite (proj1 (files_spec log [] f)). split; [by intros [?%not_elem_of_nil|H]|by right].
Qed.

End files.

(** A path that follows another after one space is not seen: the match of the
    first takes the space. *)
Lemma second_path_missed : matchedPaths "edited src/a.ts src/b.ts src/c.ts now" = [" src/a.ts "; " src/c.ts "].
Proof. vm_compute. reflexivity. Qed.

(** ** The route *)

Section continue_route.
Context `{B : BullMQ} {BOK : BullMQOk} `{E : RoutesEnv} `{SJ : StoredJson}.
Context (freshId : string) (filePathOf : string -> option string) (now : Z).
#[local] Set Default Proof Using "Type*".

Definition continueRoute := TaskCrud.continueWithContext freshId filePathOf now.

(** A computation changes no row but the one of the new task. *)
Definition ownRowOnly {A} (m : JsM R A) : Prop :=
  forall s j, j <> freshId -> rt_tasks (m s).2 !! j = rt_tasks s !! j.

Lemma own_bind {A C} (m : JsM R A) (k : A -> JsM R C) : ownRowOnly m -> (forall a, ownRowOnly (k a)) -> ownRowOnly (m ≫= k).
Proof.
  intros Hm Hk s j Hj. specialize (Hm s j Hj). unfold mbind, jsm_bind. destruct (m s) as [[a|e] s']; [|done].
  by rewrite (Hk a s' j Hj).
Qed.

Lemma own_try {A} (m : JsM R A) h : ownRowOnly m -> (forall e, ownRowOnly (h e)) -> ownRowOnly (Js.try_catch m h).
Proof.
  intros Hm Hh s j Hj. specialize (Hm s j Hj). unfold Js.try_catch. destruct (m s) as [[a|e] s']; [done|].
  by rewrite (Hh e s' j Hj).
Qed.

Lemma own_status st : ownRowOnly (onTasks (updateStatus now freshId st)).
Proof. intros s j Hj. by apply TaskRepoSpec.updateRow_other. Qed.

Lemma own_queue {A} (f : TaskQueue.State -> outcome A * TaskQueue.State) : ownRowOnly (onQueue f).
Proof. intros s j _. unfold onQueue. by destruct (f (rt_queue s)). Qed.

Lemma own_plain {A} (m : JsM R A) : (forall s, rt_tasks (m s).2 = rt_tasks s) -> ownRowOnly m.
Proof. intros H s j _. by rewrite H. Qed.

Lemma own_queueContinuation d from b : jd_taskId d = freshId -> ownRowOnly (TaskCrud.queueContinuation now d from b).
Proof.
  intros Hd. unfold TaskCrud.queueContinuation. rewrite Hd.
  repeat first [apply own_try; [|intros ?]|apply own_bind; [|intros ?]|apply own_status|apply own_queue|by apply own_plain].
Qed.

Lemma own_launch userId i t text : ownRowOnly (TaskCrud.launchContinuation freshId now userId i t text).
Proof.
  unfold TaskCrud.launchContinuation. destruct (getProject _); [|by apply own_plain].
  repeat first [apply own_bind; [|intros ?]|apply own_status|by apply own_queueContinuation|by apply own_plain].
Qed.

(** What the route does once the new row can be created. *)
Lemma continue_run userId i prompt s t c :
  JsStr.length (default EmptyString (trim <$> prompt)) >= 5 ->
  findById i (rt_tasks s) = Some t -> t_status t ∈ TaskCrud.continuable ->
  buildTaskContext filePathOf i (rt_tasks s) = Some c -> rt_tasks s !! freshId = None ->
  let text := default EmptyString (trim <$> prompt) in
  let row := newRow freshId now (TaskCrud.continuationParams t userId (buildContinuationPrompt c text)) in
  continueRoute userId i prompt s
  = (onTasks <[freshId := row]>;; TaskCrud.launchContinuation freshId now userId i t text) s.
Proof.
  intros Hl Ht Hf Hc Hn text row. unfold continueRoute, TaskCrud.continueWithContext. fold text.
  replace (JsStr.length text <? 5) with false by (symmetry; apply Nat.ltb_ge; unfold text; lia).
  unfold mbind at 1, jsm_bind at 1, Js.gets. rewrite Ht, bool_decide_true by done. cbn [negb]. rewrite Hc.
  unfold create. rewrite Hn. cbn zeta. unfold findById at 1. rewrite lookup_insert, decide_True by done. reflexivity.
Qed.

(** Whatever happens, every other task keeps its row: the one that is
    continued, too. *)
Lemma continue_frame userId i prompt s j :
  rt_tasks s !! freshId = None -> j <> freshId -> rt_tasks (continueRoute userId i prompt s).2 !! j = rt_tasks s !! j.
Proof.
  intros Hn Hj. destruct (decide (JsStr.length (default EmptyString (trim <$> prompt)) < 5)) as [Hl|Hl].
  { unfold continueRoute, TaskCrud.continueWithContext. by apply Nat.ltb_lt in Hl as ->. }
  destruct (findById i (rt_tasks s)) as [t|] eqn:Ht.
  2:{ unfold continueRoute, TaskCrud.continueWithContext. apply not_lt, Nat.ltb_ge in Hl as ->.
      unfold mbind, jsm_bind, Js.gets. by rewrite Ht. }
  destruct (decide (t_status t ∈ TaskCrud.continuable)) as [Hf|Hf].
  2:{ unfold continueRoute, TaskCrud.continueWithContext. apply not_lt, Nat.ltb_ge in Hl as ->.
      unfold mbind, jsm_bind, Js.gets. by rewrite Ht, bool_decide_false. }
  destruct (buildTaskContext filePathOf i (rt_tasks s)) as [c|] eqn:Hc.
  2:{ unfold buildTaskContext in Hc. by rewrite Ht in Hc. }
  rewrite (continue_run userId i prompt s t c) by (auto; lia).
  apply own_bind; [|intros _; apply own_launch|done]. intros s0 j0 Hj0. cbn. by rewrite lookup_insert_ne.
Qed.

(** The job, with the options it is added with. *)
Definition jobOf (userId i : string) (t : Task) (pj : Project) : TaskJobData := TaskCrud.continuationJob t i freshId userId pj.
Definition jobOptions (userId i : string) (t : Task) (pj : Project) : option AddOptions :=
  Some {| ao_priority := jd_priority (jobOf userId i t pj); ao_delay := None; ao_isPro := Some (default false (pj_isPro pj)) |}.

(** The launch, up to the answer of the queue. *)
Lemma launch_run userId i t text pj s :
  getProject (t_projectId t) = Some pj -> connectOpenCode = Ok tt ->
  exists s1, rt_queue s1 = rt_queue s /\ rt_tasks s1 = updateStatus now freshId Running (rt_tasks s)
    /\ TaskCrud.launchContinuation freshId now userId i t text s
       = TaskCrud.queueContinuation now (jobOf userId i t pj) i (default false (pj_isPro pj)) s1.
Proof.
  intros Hp Hc. unfold TaskCrud.launchContinuation. rewrite Hp. unfold TaskRoutes.lift. rewrite Hc.
  eexists. split_and!; [..|reflexivity]; done.
Qed.

(** A row whose status is set twice has the last one and its first text. *)
Lemma relabelled st st' row tb :
  let tb' := updateStatus now freshId st' (updateStatus now freshId st (<[freshId := row]> tb)) in
  exists row', tb' !! freshId = Some row' /\ status row' = st' /\ description row' = description row.
Proof.
  cbv zeta. unfold updateStatus. rewrite !TaskRepoSpec.updateRow_same, lookup_insert, decide_True by done.
  eexists. by split_and!.
Qed.

Lemma queueContinuation_run userId i t pj b s1 :
  b = default false (pj_isPro pj) ->
  let d := jobOf userId i t pj in
  match addTask d (jobOptions userId i t pj) (rt_queue s1) with
  | (Ok j, q) =>
      (TaskCrud.queueContinuation now d i b s1).1 = Ok (TaskCrud.Done 200 (TaskCrud.Continued freshId i (job_id j) (getQueuePosition freshId q)))
      /\ rt_tasks (TaskCrud.queueContinuation now d i b s1).2 = updateStatus now freshId TaskTypes.Queued (rt_tasks s1)
      /\ rt_queue (TaskCrud.queueContinuation now d i b s1).2 = q
  | (Throw e, q) =>
      (TaskCrud.queueContinuation now d i b s1).1 = Ok (TaskCrud.Error 500 ("Failed to queue task: " +:+ e))
      /\ rt_tasks (TaskCrud.queueContinuation now d i b s1).2 = updateStatus now freshId Failed (rt_tasks s1)
  end.
Proof.
  intros -> d. unfold TaskCrud.queueContinuation, Js.try_catch, mbind, jsm_bind, onQueue, jobOptions. fold d.
  destruct (addTask d _ (rt_queue s1)) as [[j|e] q]; by split_and!.
Qed.

Lemma prompt_nonempty c text : JsStr.orNull (Some (buildContinuationPrompt c text)) = Some (buildContinuationPrompt c text).
Proof. reflexivity. Qed.

(** The three tables after the run, for a task that can be continued. *)
Lemma continue_accepted userId i prompt s t r s' pj q :
  JsStr.length (default EmptyString (trim <$> prompt)) >= 5 ->
  rt_tasks s !! freshId = None -> findById i (rt_tasks s) = Some t ->
  continueRoute userId i prompt s = (r, s') ->
  t_status t ∈ TaskCrud.continuable -> getProject (t_projectId t) = Some pj -> connectOpenCode = Ok tt ->
  queueOf (default false (pj_isPro pj)) (rt_queue s) = Some q -> bq_getJob freshId q = None ->
  exists row text, rt_tasks s' !! freshId = Some row
    /\ description row = Some text
    /\ JsStr.includes (default EmptyString (t_description t)) text = true
    /\ JsStr.includes (default EmptyString (trim <$> prompt)) text = true
    /\ match (addTask (jobOf userId i t pj) (jobOptions userId i t pj) (rt_queue s)).1 with
       | Ok _ => status row = TaskTypes.Queued
           /\ (exists id pos, r = Ok (TaskCrud.Done 200 (TaskCrud.Continued freshId i id pos)))
           /\ exists q' j, queueOf (default false (pj_isPro pj)) (rt_queue s') = Some q' /\ bq_getJob freshId q' = Some j
              /\ jd_taskId (job_data j) = freshId /\ jd_workspacePath (job_data j) = Some (workspaceOf i)
              /\ jd_continuedFromTaskId (job_data j) = Some i
       | Throw e => status row = Failed /\ r = Ok (TaskCrud.Error 500 ("Failed to queue task: " +:+ e))
       end.
Proof.
  intros Hl Hn Ht Er Hf Hp Hc Hq Hj. destruct (buildTaskContext filePathOf i (rt_tasks s)) as [c|] eqn:Ec.
  2:{ unfold buildTaskContext in Ec. by rewrite Ht in Ec. }
  rewrite (continue_run userId i prompt s t c) in Er by done. cbv zeta in Er.
  assert (Hc0 : tx_originalPrompt c = default EmptyString (t_description t)).
  { unfold buildTaskContext in Ec. rewrite Ht in Ec. by injection Ec as <-. }
  set (text := default EmptyString (trim <$> prompt)) in *.
  destruct (prompt_keeps_both c text) as [H1 H2]. rewrite Hc0 in H1.
  unfold mbind at 1, jsm_bind at 1, onTasks at 1, Js.modify at 1 in Er. cbn [fst snd] in Er.
  match type of Er with TaskCrud.launchContinuation _ _ _ _ _ _ ?s0 = _ =>
    destruct (launch_run userId i t text pj s0 Hp Hc) as (s1 & Hq1 & Ht1 & El) end.
  rewrite El in Er. cbn in Hq1, Ht1.
  pose proof (queueContinuation_run userId i t pj (default false (pj_isPro pj)) s1 eq_refl) as Hrun. cbv zeta in Hrun.
  rewrite Hq1 in Hrun. rewrite Er in Hrun. cbn [fst snd] in Hrun.
  destruct (addTask _ _ (rt_queue s)) as [[j|e] q1] eqn:Ea; cbn [fst].
  - destruct Hrun as (-> & Ht' & Hq'). rewrite Ht1 in Ht'. rewrite Ht'.
    match goal with |- context [<[freshId := ?row]> ?tb] => destruct (relabelled Running TaskTypes.Queued row tb) as (row' & Hr & Hs & Hd) end.
    exists row', (buildContinuationPrompt c text). split_and!; [done|by rewrite Hd, <- prompt_nonempty|done..|eauto|].
    destruct (QueueSpec.addTask_new (jobOf userId i t pj) (jobOptions userId i t pj) _ q (default false (pj_isPro pj)) j q1 eq_refl Hq Hj Ea)
      as (_ & Hd' & q' & Hst & Hget & _).
    exists q', j. rewrite Hq', Hst, QueueSpec.queueOf_setQueue, bool_decide_true, Hd' by done. by split_and!.
  - destruct Hrun as (-> & Ht'). rewrite Ht1 in Ht'. rewrite Ht'.
    match goal with |- context [<[freshId := ?row]> ?tb] => destruct (relabelled Running Failed row tb) as (row' & Hr & Hs & Hd) end.
    exists row', (buildContinuationPrompt c text). split_and!; [done|by rewrite Hd, <- prompt_nonempty|done..].
Qed.

(** The row is created before the project is looked up: without one the
    answer is 404 and a pending task is left. *)
Lemma continuation_orphan userId i prompt s t :
  JsStr.length (default EmptyString (trim <$> prompt)) >= 5 ->
  rt_tasks s !! freshId = None -> findById i (rt_tasks s) = Some t ->
  t_status t ∈ TaskCrud.continuable -> getProject (t_projectId t) = None ->
  exists row, (continueRoute userId i prompt s).1 = Ok (TaskCrud.Error 404 "Project not found")
    /\ rt_tasks (continueRoute userId i prompt s).2 !! freshId = Some row /\ status row = Pending.
Proof.
  intros Hl Hn Ht Hf Hp. destruct (buildTaskContext filePathOf i (rt_tasks s)) as [c|] eqn:Ec.
  2:{ unfold buildTaskContext in Ec. by rewrite Ht in Ec. }
  rewrite (continue_run userId i prompt s t c) by done. unfold mbind, jsm_bind, TaskCrud.launchContinuation. rewrite Hp.
  cbn. rewrite lookup_insert, decide_True by done. eexists. by split_and!.
Qed.

(** C30: Continuing a finished task starts a new one that is told both what
    the first was asked and the new instructions, works in the workspace of
    the first, and leaves every row but its own alone, the first task's
    included. When the queue takes the job the new task is queued and its job
    is found under its identifier; when the queue refuses it the new task is
    marked as failed; a task that has not finished is not continued and
    nothing is written. *)
Theorem continuation_outcome userId i prompt s t :
  JsStr.length (default EmptyString (trim <$> prompt)) >= 5 ->
  rt_tasks s !! freshId = None -> findById i (rt_tasks s) = Some t ->
  let '(r, s') := TaskCrud.continueWithContext freshId filePathOf now userId i prompt s in
  (forall j, j <> freshId -> rt_tasks s' !! j = rt_tasks s !! j)
  /\ (t_status t ∉ TaskCrud.continuable -> (exists e, r = Ok (TaskCrud.Error 400 e)) /\ s' = s)
  /\ (forall pj q, t_status t ∈ TaskCrud.continuable -> getProject (t_projectId t) = Some pj -> connectOpenCode = Ok tt ->
      queueOf (default false (pj_isPro pj)) (rt_queue s) = Some q -> bq_getJob freshId q = None ->
      exists row text, rt_tasks s' !! freshId = Some row
        /\ description row = Some text
        /\ JsStr.includes (default EmptyString (t_description t)) text = true
        /\ JsStr.includes (default EmptyString (trim <$> prompt)) text = true
        /\ match (addTask (jobOf userId i t pj) (jobOptions userId i t pj) (rt_queue s)).1 with
           | Ok _ => status row = TaskTypes.Queued
               /\ (exists id pos, r = Ok (TaskCrud.Done 200 (TaskCrud.Continued freshId i id pos)))
               /\ exists q' j, queueOf (default false (pj_isPro pj)) (rt_queue s') = Some q' /\ bq_getJob freshId q' = Some j
                  /\ jd_taskId (job_data j) = freshId /\ jd_workspacePath (job_data j) = Some (workspaceOf i)
                  /\ jd_continuedFromTaskId (job_data j) = Some i
           | Throw e => status row = Failed /\ r = Ok (TaskCrud.Error 500 ("Failed to queue task: " +:+ e))
           end).
Proof.
  intros Hl Hn Ht. fold continueRoute. pose proof (continue_frame userId i prompt s) as Hframe.
  destruct (continueRoute userId i prompt s) as [r s'] eqn:Er. split_and!.
  - intros j Hj. by apply Hframe.
  - intros Hf. revert Er. unfold continueRoute, TaskCrud.continueWithContext.
    replace (_ <? 5) with false by (symmetry; apply Nat.ltb_ge; lia).
    unfold mbind, jsm_bind, Js.gets. rewrite Ht, bool_decide_false by done. intros [= <- <-]. eauto.
  - intros pj q Hf Hp Hc Hq Hj. clear Hframe.
    by apply (continue_accepted userId i prompt s t r s' pj q).
Qed.

End continue_route.
(** ** What is shown of a wait: minutes are rounded up after the hours are
    taken off, so the last minute of every hour is shown as sixty minutes *)

Lemma wait_shown_as_sixty h m : (1 <= h)%Z -> (3540 < m < 3600)%Z ->
  TaskCrud.formatWaitTime (3600 * h + m) = pretty h +:+ "h 60m".
Proof.
  intros Hh Hm. unfold TaskCrud.formatWaitTime, TaskCrud.ceilQuot.
  rewrite (proj2 (Z.ltb_ge _ 60)), (proj2 (Z.ltb_ge _ 3600)) by lia.
  replace ((3600 * h + m) / 3600)%Z with h by (rewrite Z.mul_comm, Z.div_add_l by lia; rewrite (Z.div_small m) by lia; lia).
  replace ((3600 * h + m) mod 3600)%Z with m by (rewrite Z.mul_comm, Z.add_comm, Z.mod_add by lia; rewrite Z.mod_small by lia; done).
  by replace ((m + 60 - 1) / 60)%Z with 60%Z by (apply (Z.div_unique_pos _ _ _ (m - 3541)); lia).
Qed.

(** ** An instance *)

#[local] Existing Instance MemBull.memBull.
#[local] Existing Instance MemBull.memBullOk.

#[local] Instance demoContinueEnv : RoutesEnv :=
  {| getProject _ := Some {| pj_approvalMode := None; pj_priority := None; pj_isPro := None |};
     getUserGitHubToken _ := None; findByProjectId _ := []; getRepository _ := None; workspacesDir := "/ws";
     pathJoin a b := a +:+ "/" +:+ b; workspaceExists _ := true; prepareRepo _ _ := Ok tt; connectOpenCode := Ok tt;
     abortSession _ := Ok tt; deleteSession _ := Ok tt; sendPrompt _ _ _ := Ok tt; setAutomatic _ := Ok tt;
     avgTaskDuration := 180; workerConcurrency := 3 |}.

#[local] Instance demoStored : StoredJson :=
  {| dependenciesOf _ := []; storyIdOf _ := None; nameOf _ := None |}.

Definition demoDone : R :=
  RouteSpec.demoServer {["t1" := newRow "t1" 0 {| cp_userId := "u"; cp_projectId := Some "p"; cp_repositoryId := None; cp_title := "login";
    cp_description := Some "add a login page"; cp_status := Some Completed |}]} ∅.

Lemma continuation_outcome_witness :
  exists row text, rt_tasks (TaskCrud.continueWithContext "t2" (fun _ => None) 7 "u" "t1" (Some " add a logout button ") demoDone).2 !! "t2"
    = Some row /\ description row = Some text /\ JsStr.includes "add a login page" text = true
    /\ JsStr.includes "add a logout button" text = true /\ status row = TaskTypes.Queued.
Proof.
  pose proof (continuation_outcome "t2" (fun _ => None) 7 "u" "t1" (Some " add a logout button ") demoDone _
    ltac:(vm_compute; lia) ltac:(vm_compute; reflexivity) ltac:(vm_compute; reflexivity)) as H.
  destruct (TaskCrud.continueWithContext _ _ _ _ _ _ _) as [r s']. destruct H as (_ & _ & H).
  destruct (H {| pj_approvalMode := None; pj_priority := None; pj_isPro := None |} ∅ ltac:(by left) eq_refl eq_refl
    ltac:(vm_compute; reflexivity) ltac:(vm_compute; reflexivity)) as (row & text & Hr & Hd & H1 & H2 & Hs & _).
  exists row, text. by split_and!.
Defined.

End ContinueSpec.
