(* ===== verification/Workspace.v ===== *)
(** * Workspaces (src/services/workspace/WorkspaceService.ts, the workspace
    routes of src/api/routes/tasks.ts)

    The parser of [git status --porcelain], the git commands the service
    runs, and the routes that list and read the files of a workspace, report
    its changes, commit and push them. Commands are recorded with their
    working directory; what they answer may depend on everything run before.
    The path functions of Node are the POSIX ones. *)

From S2P Require Import Prelude TaskTypes TaskRepository Json AgentSpy Approval Orchestrator TaskQueue TaskRoutes ContextCache.
From stdpp Require Import list pretty options.

(** ** Paths *)

Module Paths.

(** The next component of an absolute path: [..] at the root stays there. *)
Definition enter (acc : list string) (x : string) : list string :=
  if bool_decide (x = EmptyString) || bool_decide (x = ".") then acc
  else if bool_decide (x = "..") then take (length acc - 1) acc
  else acc ++ [x].

Definition resolve (parts : list string) : list string := fold_left enter parts [].

Fixpoint absolute (l : list string) : string :=
  match l with
  | [] => EmptyString
  | x :: l' => "/" +:+ x +:+ absolute l'
  end.

(** [path.normalize] of an absolute path; a slash at the end is kept. *)
Definition normalize (p : string) : string :=
  match resolve (JsStr.splitSlash p) with
  | [] => "/"
  | l => absolute l +:+ if JsStr.endsWith "/" p then "/" else EmptyString
  end.

(** [path.join(a, b)] for an absolute [a]; an empty [b] is left out. *)
Definition join (a b : string) : string := normalize (if JsStr.truthy b then a +:+ "/" +:+ b else a).

End Paths.

(** ** The service *)

Module WorkspaceService.
Import Js.

Record GitStatusEntry := {
  gs_indexStatus : Ascii.ascii;
  gs_workTreeStatus : Ascii.ascii;
  gs_file : string;
  gs_originalFile : option string;
}.

Record ParsedGitStatus := {
  st_entries : list GitStatusEntry;
  st_modified : list string;
  st_untracked : list string;
  st_staged : list string;
  st_deleted : list string;
  st_added : list string;
  st_allChanges : list string;
  st_hasChanges : bool;
  st_hasStaged : bool;
  st_hasUnstaged : bool;
  st_hasUntracked : bool;
}.

Definition noStatus : ParsedGitStatus :=
  {| st_entries := []; st_modified := []; st_untracked := []; st_staged := []; st_deleted := []; st_added := [];
     st_allChanges := []; st_hasChanges := false; st_hasStaged := false; st_hasUnstaged := false; st_hasUntracked := false |}.

(** [s.split(sep)] for a non-empty separator; the fuel is the length. *)
Fixpoint splitOn (fuel : nat) (sep s : string) : list string :=
  match fuel with
  | 0 => [s]
  | S fuel' =>
      match s with
      | EmptyString => [EmptyString]
      | String c s' =>
          if JsStr.startsWith sep s then EmptyString :: splitOn fuel' sep (JsStr.drop (JsStr.length sep) s)
          else match splitOn fuel' sep s' with x :: l => String c x :: l | [] => [String c EmptyString] end
      end
  end.

Definition arrow : string := " -> ".

(** One line; [None]: it is too short. *)
Definition parseLine (line : string) : option GitStatusEntry :=
  match line with
  | String i (String w (String _ rest)) =>
      let file := TaskRoutes.trim rest in
      if JsStr.includes arrow file then
        match splitOn (JsStr.length file) arrow file with
        | o :: f :: _ => Some {| gs_indexStatus := i; gs_workTreeStatus := w; gs_file := f; gs_originalFile := Some o |}
        | _ => None
        end
      else Some {| gs_indexStatus := i; gs_workTreeStatus := w; gs_file := file; gs_originalFile := None |}
  | _ => None
  end.

Definition pushNew (f : string) (l : list string) : list string := if bool_decide (f ∈ l) then l else l ++ [f].

(** What one entry adds. *)
Definition addEntry (r : ParsedGitStatus) (e : GitStatusEntry) : ParsedGitStatus :=
  let i := gs_indexStatus e in
  let w := gs_workTreeStatus e in
  let f := gs_file e in
  let entries := st_entries r ++ [e] in
  if bool_decide (i = "?"%char) && bool_decide (w = "?"%char) then
    {| st_entries := entries; st_modified := st_modified r; st_untracked := st_untracked r ++ [f]; st_staged := st_staged r;
       st_deleted := st_deleted r; st_added := st_added r; st_allChanges := st_allChanges r;
       st_hasChanges := st_hasChanges r; st_hasStaged := st_hasStaged r; st_hasUnstaged := st_hasUnstaged r;
       st_hasUntracked := true |}
  else if bool_decide (i = "!"%char) && bool_decide (w = "!"%char) then
    {| st_entries := entries; st_modified := st_modified r; st_untracked := st_untracked r; st_staged := st_staged r;
       st_deleted := st_deleted r; st_added := st_added r; st_allChanges := st_allChanges r;
       st_hasChanges := st_hasChanges r; st_hasStaged := st_hasStaged r; st_hasUnstaged := st_hasUnstaged r;
       st_hasUntracked := st_hasUntracked r |}
  else
    let inIndex := negb (bool_decide (i = " "%char)) && negb (bool_decide (i = "?"%char)) in
    let inTree := negb (bool_decide (w = " "%char)) && negb (bool_decide (w = "?"%char)) in
    let modified := if inIndex && bool_decide (i = "M"%char) then st_modified r ++ [f] else st_modified r in
    let deleted := if inIndex && bool_decide (i = "D"%char) then st_deleted r ++ [f] else st_deleted r in
    {| st_entries := entries;
       st_modified := if inTree && bool_decide (w = "M"%char) then pushNew f modified else modified;
       st_untracked := st_untracked r;
       st_staged := if inIndex then st_staged r ++ [f] else st_staged r;
       st_deleted := if inTree && bool_decide (w = "D"%char) then pushNew f deleted else deleted;
       st_added := if inIndex && bool_decide (i = "A"%char) then st_added r ++ [f] else st_added r;
       st_allChanges := st_allChanges r; st_hasChanges := st_hasChanges r;
       st_hasStaged := st_hasStaged r || inIndex; st_hasUnstaged := st_hasUnstaged r || inTree;
       st_hasUntracked := st_hasUntracked r |}.

(** [[...new Set(l)]]: the first of equal elements stays. *)
Definition unique (l : list string) : list string := fold_left (fun acc x => pushNew x acc) l [].

Definition closeStatus (r : ParsedGitStatus) : ParsedGitStatus :=
  let all := unique (st_modified r ++ st_untracked r ++ st_deleted r ++ st_added r) in
  {| st_entries := st_entries r; st_modified := st_modified r; st_untracked := st_untracked r; st_staged := st_staged r;
     st_deleted := st_deleted r; st_added := st_added r; st_allChanges := all;
     st_hasChanges := match all with [] => false | _ => true end; st_hasStaged := st_hasStaged r;
     st_hasUnstaged := st_hasUnstaged r; st_hasUntracked := st_hasUntracked r |}.

Definition parseGitStatus (output : option string) : ParsedGitStatus :=
  match output with
  | None => noStatus
  | Some o =>
      if negb (JsStr.truthy (TaskRoutes.trim o)) then noStatus
      else closeStatus (fold_left addEntry (omap parseLine (AgentSpy.splitLines (TaskRoutes.trim o))) noStatus)
  end.

(** ** Git commands *)

Abbreviation Log := (list (string * string)) (only parsing).

Section Commands.
(** [exec] of a command in a directory, after the commands run so far. *)
Context (exec : list (string * string) -> string -> string -> outcome string).

Definition execAsync (cwd command : string) : JsM Log string :=
  fun log => (exec log cwd command, log ++ [(cwd, command)]).

(** [try { ... } catch { return v }] *)
Definition orOnError {A} (v : A) (m : JsM Log A) : JsM Log A := try_catch m (fun _ => mret v).

Definition statusCommand : string := "git status --porcelain".

Definition getChanges (cwd : string) : JsM Log ParsedGitStatus :=
  orOnError (parseGitStatus None) (out ← execAsync cwd statusCommand; mret (parseGitStatus (Some out))).

Definition getDiff (cwd : string) (staged : bool) : JsM Log string :=
  orOnError EmptyString
    (out ← execAsync cwd (if staged then "git diff --cached --stat" else "git diff --stat"); mret (TaskRoutes.trim out)).

(** The character that delimits shell words. *)
Definition quote : string := String (Ascii.ascii_of_nat 34) EmptyString.

Definition quoted (s : string) : string := quote +:+ s +:+ quote.

Definition stageFiles (cwd : string) (files : list string) : JsM Log bool :=
  match files with
  | [] => mret false
  | _ => orOnError false (execAsync cwd ("git add " +:+ String.concat " " (quoted <$> files));; mret true)
  end.

Definition stageAll (cwd : string) : JsM Log bool := orOnError false (execAsync cwd "git add -A";; mret true).

(** Every double quote gets a backslash; nothing else is escaped. *)
Fixpoint escape (s : string) : string :=
  match s with
  | EmptyString => EmptyString
  | String c s' =>
      if bool_decide (c = Ascii.ascii_of_nat 34) then String "\"%char (String c (escape s')) else String c (escape s')
  end.

Definition commitCommand (message : string) : string := "git commit -m " +:+ quoted (escape message).

Definition commit (cwd message : string) : JsM Log bool :=
  orOnError false
    (out ← execAsync cwd statusCommand;
     if negb (JsStr.truthy (TaskRoutes.trim out)) then mret false
     else execAsync cwd (commitCommand message);; mret true).

Definition getCurrentBranch (cwd : string) : JsM Log string :=
  orOnError "main" (out ← execAsync cwd "git rev-parse --abbrev-ref HEAD"; mret (TaskRoutes.trim out)).

(** [s.replace(p, r)] for strings: the first occurrence. *)
Fixpoint replaceFirst (p r s : string) : string :=
  if JsStr.startsWith p s then r +:+ JsStr.drop (JsStr.length p) s
  else match s with
       | EmptyString => EmptyString
       | String c s' => String c (replaceFirst p r s')
       end.

Definition authUrl (token url : string) : string :=
  replaceFirst "https://github.com/" ("https://" +:+ token +:+ "@github.com/") url.

Definition pushCommand (url branch : string) : string := "git push " +:+ url +:+ " " +:+ branch.

Definition pushWithToken (cwd token : string) (branch : option string) : JsM Log bool :=
  orOnError false
    (out ← execAsync cwd "git remote get-url origin";
     let url := authUrl token (TaskRoutes.trim out) in
     target ← match JsStr.orNull branch with Some b => mret b | None => getCurrentBranch cwd end;
     execAsync cwd (pushCommand url target);; mret true).

Definition createBranch (cwd branchName : string) : JsM Log bool :=
  orOnError false (execAsync cwd ("git checkout -b " +:+ branchName);; mret true).

(** The clone runs in the directory of the process, here the empty path. *)
Definition cloneWithToken (repoUrl targetDir token : string) (branch : option string) : JsM Log bool :=
  orOnError false
    (let branchArg := match JsStr.orNull branch with Some b => "-b " +:+ b | None => EmptyString end in
     execAsync EmptyString ("git clone " +:+ branchArg +:+ " " +:+ authUrl token repoUrl +:+ " " +:+ quoted targetDir);;
     execAsync targetDir ("git remote set-url origin " +:+ repoUrl);;
     mret true).

Record PushOutcome := { po_committed : bool; po_pushed : bool; po_changes : ParsedGitStatus }.

Definition commitAndPush (cwd message token : string) (branch : option string) : JsM Log PushOutcome :=
  changes ← getChanges cwd;
  if negb (st_hasChanges changes) then mret {| po_committed := false; po_pushed := false; po_changes := changes |}
  else
    stageAll cwd;;
    committed ← commit cwd message;
    if negb committed then mret {| po_committed := false; po_pushed := false; po_changes := changes |}
    else
      pushed ← pushWithToken cwd token branch;
      mret {| po_committed := committed; po_pushed := pushed; po_changes := changes |}.

Definition formatSummary (s : ParsedGitStatus) : string :=
  let part (l : list string) (name : string) := match l with [] => [] | _ => [pretty (length l) +:+ name] end in
  match (part (st_modified s) " modified" ++ part (st_added s) " added" ++ part (st_deleted s) " deleted" ++
         part (st_untracked s) " untracked")%list with
  | [] => "no changes"
  | l => String.concat ", " l
  end.

End Commands.
End WorkspaceService.

(** ** Routes *)

Module WorkspaceRoutes.
Import Js AgentSpy WorkspaceService TaskTypes TaskRepository.

Record RepoChanges := {
  rc_name : string;
  rc_path : string;
  rc_branch : string;
  rc_status : ParsedGitStatus;
  rc_summary : string;
}.

Record CommitResult := { cr_name : string; cr_committed : bool; cr_error : option string }.
Record PushResult := { pr_name : string; pr_pushed : bool; pr_branch : option string; pr_error : option string }.

Inductive Response :=
  | WError (code : Z) (error : string)
  | WFiles (files : list string)
  | WFile (content path : string) (size : Z)
  | WChanges (hasChanges : bool) (modified untracked : list string) (repositories : list RepoChanges) (branch summary : string)
  | WCommitted (committed : bool) (results : list CommitResult) (message : string)
  | WPushed (pushed : bool) (results : list PushResult) (branch : option string) (message : string).

(** What the routes ask of the file system, the repository table and the
    accounts. *)
Class WorkspaceEnv := {
  workspacesDir : string;
  existsSync : string -> bool;
  statSync : string -> outcome (bool * Z);
  readFileSync : string -> outcome string;
  readdirSync : string -> outcome (list DirEntry);
  treeAt : string -> ContextCache.Node;
  repoNames : string -> list string;
  githubToken : string -> option string;
  exec : list (string * string) -> string -> string -> outcome string;
}.

Section Routes.
Context `{WorkspaceEnv}.

Definition workspacePathOf (t : Task) : string := Paths.join workspacesDir (t_id t).

(** ** Files *)

Definition skipped (name : string) : bool := bool_decide (name = ".git") || bool_decide (name = "node_modules").

(** [walkDir]: [None] when a directory cannot be read. *)
Fixpoint walkDir (prefix : string) (n : ContextCache.Node) (files : list string) : option (list string) :=
  match n with
  | ContextCache.NDir true entries =>
      (fix go (l : list (string * ContextCache.Node)) (files : list string) : option (list string) :=
         match l with
         | [] => Some files
         | (name, x) :: l' =>
             if skipped name then go l' files
             else
               let relativePath := if JsStr.truthy prefix then prefix +:+ "/" +:+ name else name in
               match x with
               | ContextCache.NDir _ _ =>
                   match walkDir relativePath x files with Some files' => go l' files' | None => None end
               | _ => go l' (files ++ [relativePath])
               end
         end) entries files
  | _ => None
  end.

Definition listFiles (taskId : string) (tb : gmap string TaskRow) : Response :=
  match findById taskId tb with
  | None => WError 404 "Task not found"
  | Some t =>
      if negb (existsSync (workspacePathOf t)) then WFiles []
      else match walkDir EmptyString (treeAt (workspacePathOf t)) [] with
           | Some files => WFiles files
           | None => WError 500 "readdir failed"
           end
  end.

Definition readFile (taskId filePath : string) (tb : gmap string TaskRow) : Response :=
  match findById taskId tb with
  | None => WError 404 "Task not found"
  | Some t =>
      if negb (JsStr.truthy filePath) then WError 400 "File path required"
      else
        let workspacePath := workspacePathOf t in
        let fullPath := Paths.join workspacePath filePath in
        if negb (JsStr.startsWith workspacePath fullPath) then WError 403 "Access denied"
        else if negb (existsSync fullPath) then WError 404 "File not found"
        else match statSync fullPath with
             | Throw e => WError 500 e
             | Ok (true, _) => WError 400 "Path is a directory"
             | Ok (false, size) =>
                 match readFileSync fullPath with
                 | Throw e => WError 500 e
                 | Ok content => WFile content filePath size
                 end
             end
  end.

(** ** Repositories of a workspace *)

Definition isRepoDir (workspacePath : string) (e : DirEntry) : bool :=
  match en_kind e with
  | KDir => negb (JsStr.startsWith "." (en_name e)) &&
            existsSync (Paths.join (Paths.join workspacePath (en_name e)) ".git")
  | _ => false
  end.

(** Directories with a [.git], when the project has no repositories. *)
Definition discover (workspacePath : string) : outcome (list string) :=
  match readdirSync workspacePath with
  | Throw e => Throw e
  | Ok entries =>
      Ok (en_name <$> base.filter (fun e => isRepoDir workspacePath e = true) entries)
  end.

Definition reposOf (t : Task) : outcome (list string) :=
  match match JsStr.orNull (t_projectId t) with Some p => repoNames p | None => [] end with
  | [] => discover (workspacePathOf t)
  | l => Ok l
  end.

(** [repoNames]: the names of the body, when there are any. *)
Definition chosen (wanted : option (list string)) (repos : list string) : list string :=
  match wanted with
  | Some (w :: ws) => base.filter (fun r => r ∈ w :: ws) repos
  | _ => repos
  end.

Definition lift {A} (o : outcome A) : JsM Log A := fun s => (o, s).

(** A loop that keeps the results that are defined. *)
Fixpoint each {A} (f : string -> JsM Log (option A)) (l : list string) : JsM Log (list A) :=
  match l with
  | [] => mret []
  | x :: l' => r ← f x; rs ← each f l'; mret (match r with Some a => a :: rs | None => rs end)
  end.

Definition changesOf (workspacePath name : string) : JsM Log (option RepoChanges) :=
  let repoPath := Paths.join workspacePath name in
  if negb (existsSync repoPath) then mret None
  else
    status ← getChanges exec repoPath;
    branch ← getCurrentBranch exec repoPath;
    mret (Some {| rc_name := name; rc_path := repoPath; rc_branch := branch; rc_status := status;
                  rc_summary := formatSummary status |}).

Definition inRepo (f : ParsedGitStatus -> list string) (rs : list RepoChanges) : list string :=
  mjoin ((fun r => (fun x => rc_name r +:+ "/" +:+ x) <$> f (rc_status r)) <$> rs).

Definition changes (taskId : string) (tb : gmap string TaskRow) : JsM Log Response :=
  match findById taskId tb with
  | None => mret (WError 404 "Task not found")
  | Some t =>
      let ws := workspacePathOf t in
      if negb (existsSync ws) then mret (WChanges false [] [] [] "main" EmptyString)
      else
        try_catch
          (repos ← lift (reposOf t);
           rs ← each (changesOf ws) repos;
           mret (WChanges (existsb (fun r => st_hasChanges (rc_status r)) rs) (inRepo st_modified rs)
                   (inRepo st_untracked rs) rs
                   (match rs with r :: _ => if JsStr.truthy (rc_branch r) then rc_branch r else "main" | [] => "main" end)
                   (String.concat ", " ((fun r => rc_name r +:+ ": " +:+ rc_summary r) <$> rs))))
          (fun e => mret (WError 500 e))
  end.

Definition commitIn (workspacePath message name : string) : JsM Log (option CommitResult) :=
  let repoPath := Paths.join workspacePath name in
  if negb (existsSync repoPath)
  then mret (Some {| cr_name := name; cr_committed := false; cr_error := Some "Path not found" |})
  else
    try_catch
      (stageAll exec repoPath;;
       committed ← commit exec repoPath message;
       mret (Some {| cr_name := name; cr_committed := committed; cr_error := None |}))
      (fun e => mret (Some {| cr_name := name; cr_committed := false; cr_error := Some e |})).

Definition commitRoute (taskId : string) (message : option string) (wanted : option (list string))
    (tb : gmap string TaskRow) : JsM Log Response :=
  let text := default EmptyString (TaskRoutes.trim <$> message) in
  if negb (JsStr.truthy text) then mret (WError 400 "Commit message required")
  else
    match findById taskId tb with
    | None => mret (WError 404 "Task not found")
    | Some t =>
        let ws := workspacePathOf t in
        if negb (existsSync ws) then mret (WError 404 "Workspace not found")
        else
          try_catch
            (repos ← lift (reposOf t);
             results ← each (commitIn ws text) (chosen wanted repos);
             let n := length (base.filter (fun r => cr_committed r = true) results) in
             mret (WCommitted (0 <? n) results
                     (if 0 <? n then "Committed to " +:+ pretty n +:+ " repository(ies)" else "No changes to commit")))
            (fun e => mret (WError 500 e))
    end.

Definition pushIn (workspacePath token : string) (branch : option string) (name : string) : JsM Log (option PushResult) :=
  let repoPath := Paths.join workspacePath name in
  if negb (existsSync repoPath)
  then mret (Some {| pr_name := name; pr_pushed := false; pr_branch := None; pr_error := Some "Path not found" |})
  else
    try_catch
      (target ← match JsStr.orNull branch with Some b => mret b | None => getCurrentBranch exec repoPath end;
       pushed ← pushWithToken exec repoPath token (Some target);
       mret (Some {| pr_name := name; pr_pushed := pushed; pr_branch := Some target; pr_error := None |}))
      (fun e => mret (Some {| pr_name := name; pr_pushed := false; pr_branch := None; pr_error := Some e |})).

Definition pushRoute (userId taskId : string) (branch : option string) (wanted : option (list string))
    (tb : gmap string TaskRow) : JsM Log Response :=
  match findById taskId tb with
  | None => mret (WError 404 "Task not found")
  | Some t =>
      let ws := workspacePathOf t in
      if negb (existsSync ws) then mret (WError 404 "Workspace not found")
      else
        match JsStr.orNull (githubToken userId) with
        | None => mret (WError 400 "GitHub token not available")
        | Some token =>
            try_catch
              (repos ← lift (reposOf t);
               results ← each (pushIn ws token branch) (chosen wanted repos);
               let done := base.filter (fun r => pr_pushed r = true) results in
               mret (WPushed (0 <? length done) results (r ← head done; pr_branch r)
                       (if 0 <? length done then "Pushed " +:+ pretty (length done) +:+ " repository(ies)"
                        else "Nothing to push")))
              (fun e => mret (WError 500 e))
        end
  end.

End Routes.
End WorkspaceRoutes.
