(* ===== verification/WorkspaceProofs.v ===== *)
(** * Properties of workspaces

    The read route stays among the directories whose names begin with the
    identifier of the task; the status of git is read back except for the
    first line. *)

From S2P Require Import Prelude TaskTypes TaskRepository Json AgentSpy ExecutionTracker TaskRoutes ContextCache Workspace.
From stdpp Require Import list options.

Module WorkspaceSpec.
Import TaskRepository Paths.

(** ** Splitting *)

Definition noSlash (s : string) : bool := negb (JsStr.includes "/" s).

Lemma noSlash_cons c s : noSlash (String c s) = negb (bool_decide (c = "/"%char)) && noSlash s.
Proof.
  unfold noSlash. cbn [JsStr.includes JsStr.startsWith]. rewrite andb_true_r, negb_orb. f_equal. f_equal. apply bool_decide_ext.
  split; congruence.
Qed.

Lemma split_noSlash s : noSlash s = true -> JsStr.splitSlash s = [s].
Proof. intros Hs%negb_true_iff. by apply JsStr.splitSlash_plain. Qed.

Lemma split_all s : Forall (fun x => noSlash x = true) (JsStr.splitSlash s).
Proof.
  induction s as [|c s IH]; [by repeat constructor|]. cbn [JsStr.splitSlash]. case_bool_decide as Hc; [by constructor|].
  destruct (JsStr.splitSlash s) as [|x l]; [constructor; [|done]|]; [|inversion IH; subst; constructor; [|done]];
    rewrite noSlash_cons, bool_decide_eq_false_2 by done; done.
Qed.

(** Appending joins the last and the first component. *)
Lemma split_append p t :
  exists l x y r, JsStr.splitSlash p = l ++ [x] /\ JsStr.splitSlash t = y :: r /\ JsStr.splitSlash (p +:+ t) = l ++ (x +:+ y) :: r.
Proof.
  induction p as [|c p (l & x & y & r & H1 & H2 & H3)].
  - destruct (JsStr.splitSlash t) as [|y r] eqn:Ht; [destruct t; cbn in Ht; repeat case_match; done|].
    exists [], EmptyString, y, r. by rewrite <- Ht.
  - change (String c p +:+ t) with (String c (p +:+ t)). cbn [JsStr.splitSlash]. rewrite H1, H3. case_bool_decide.
    + by exists (EmptyString :: l), x, y, r.
    + destruct l as [|z l]; cbn [app].
      * by exists [], (String c x), y, r.
      * by exists (String c z :: l), x, y, r.
Qed.

Lemma split_absolute l : Forall (fun x => noSlash x = true) l -> JsStr.splitSlash (absolute l) = EmptyString :: l.
Proof.
  induction l as [|x l IH]; [done|]. intros Hl. inversion Hl as [|?? Hx Hl']; subst. cbn [absolute].
  change ("/" +:+ x +:+ absolute l) with (EmptyString +:+ "/" +:+ (x +:+ absolute l)). rewrite JsStr.splitSlash_app. cbn [JsStr.splitSlash app]. f_equal.
  destruct (split_append x (absolute l)) as (p & z & y & r & H1 & H2 & H3). rewrite IH in H2 by done. rewrite split_noSlash in H1 by done.
  injection H2 as <- <-. destruct p as [|? [|]]; [|done..]. injection H1 as <-. by rewrite H3, JsStr.append_nil.
Qed.

(** ** Normal components *)

Definition plain (x : string) : bool :=
  noSlash x && JsStr.truthy x && negb (bool_decide (x = ".")) && negb (bool_decide (x = "..")).

Lemma resolve_plain parts : Forall (fun x => noSlash x = true) parts -> Forall (fun x => plain x = true) (resolve parts).
Proof.
  unfold resolve. enough (Hg : forall acc, Forall (fun x => plain x = true) acc -> Forall (fun x => noSlash x = true) parts ->
    Forall (fun x => plain x = true) (fold_left enter parts acc)) by by apply Hg.
  induction parts as [|x parts IH]; intros acc Ha Hp; [done|]. inversion Hp as [|?? Hx Hp']; subst. cbn [fold_left]. apply IH; [|done].
  unfold enter.
  destruct (bool_decide (x = EmptyString) || bool_decide (x = ".")) eqn:H1; [done|].
  destruct (bool_decide (x = "..")) eqn:H2; [by apply Forall_take|]. apply list.Forall_app. split; [done|]. constructor; [|done].
  unfold plain, JsStr.truthy. apply orb_false_iff in H1 as [-> ->]. by rewrite Hx, H2.
Qed.

Lemma plain_noSlash x : plain x = true -> noSlash x = true.
Proof. unfold plain. by intros [[[? _]%andb_true_iff _]%andb_true_iff _]%andb_true_iff. Qed.

Lemma plain_nonempty x : plain x = true -> x <> EmptyString.
Proof. by intros Hx ->. Qed.

(** The result of [join], and what it is made of. *)
Lemma join_shape a b :
  exists comps tail, join a b = absolute comps +:+ tail /\ (tail = EmptyString \/ tail = "/") /\
    Forall (fun x => plain x = true) comps.
Proof.
  unfold join, normalize. set (p := if JsStr.truthy b then _ else _).
  pose proof (resolve_plain (JsStr.splitSlash p) (split_all p)) as Hr. destruct (resolve (JsStr.splitSlash p)) as [|x l].
  - exists [], "/". auto.
  - exists (x :: l). eexists. split; [done|]. split; [|done]. destruct (JsStr.endsWith "/" p); auto.
Qed.

Lemma resolve_all acc l :
  Forall (fun x => plain x = true) l ->
  fold_left enter l acc = acc ++ l.
Proof.
  revert acc. induction l as [|x l IH]; intros acc Hl; [by rewrite app_nil_r|]. inversion Hl as [|?? Hx Hl']; subst. cbn [fold_left].
  unfold plain, JsStr.truthy in Hx. apply andb_true_iff in Hx as [[[_ Hx1]%andb_true_iff Hx2]%andb_true_iff Hx3].
  apply negb_true_iff in Hx1, Hx2, Hx3. unfold enter at 2. rewrite Hx1, Hx2, Hx3. cbn [orb]. rewrite IH by done. by rewrite <- app_assoc.
Qed.

Lemma endsWith_plain s t : plain t = true -> JsStr.endsWith "/" (s +:+ t) = false.
Proof.
  intros Ht. pose proof (plain_noSlash t Ht) as Hn. pose proof (plain_nonempty t Ht) as Hne. clear Ht.
  induction s as [|c s IH].
  - change (EmptyString +:+ t) with t. induction t as [|c t IH]; [done|]. rewrite noSlash_cons in Hn. apply andb_true_iff in Hn as [Hc Hn].
    apply negb_true_iff, bool_decide_eq_false in Hc. cbn [JsStr.endsWith]. rewrite bool_decide_eq_false_2 by congruence.
    destruct t as [|d t]; [done|]. by apply IH.
  - change (String c s +:+ t) with (String c (s +:+ t)). cbn [JsStr.endsWith]. rewrite IH.
    rewrite bool_decide_eq_false_2; [done|]. intros [= _ Hs]. by destruct s, t.
Qed.

Lemma join_plain ds x :
  Forall (fun x => plain x = true) ds -> plain x = true -> join (absolute ds) x = absolute (ds ++ [x]).
Proof.
  intros Hds Hx. unfold join. assert (Ht : JsStr.truthy x = true) by (unfold plain in Hx; by repeat apply andb_true_iff in Hx as [Hx ?]).
  rewrite Ht. unfold normalize.
  rewrite JsStr.splitSlash_app, split_absolute, (split_noSlash x) by (by apply plain_noSlash || (eapply Forall_impl; [done|apply plain_noSlash])).
  unfold resolve. cbn [fold_left app]. change (enter [] EmptyString) with (@nil string). rewrite (resolve_all [] (ds ++ [x])) by (apply list.Forall_app; auto).
  rewrite <- JsStr.append_assoc, endsWith_plain by done. rewrite app_nil_l.
  destruct (ds ++ [x]) as [|y l] eqn:E; [by destruct ds|]. by rewrite JsStr.append_nil.
Qed.

(** A path that begins with a plain path goes through a component that begins
    with its last one. *)
Lemma prefix_component ds x comps tail :
  Forall (fun x => plain x = true) (ds ++ [x]) -> Forall (fun x => plain x = true) comps ->
  (tail = EmptyString \/ tail = "/") ->
  JsStr.startsWith (absolute (ds ++ [x])) (absolute comps +:+ tail) = true ->
  exists suffix rest, comps = ds ++ (x +:+ suffix) :: rest.
Proof.
  intros Hp Hc Htail (t & Ht)%JsStr.startsWith_spec.
  assert (Hn : forall l, Forall (fun x => plain x = true) l -> Forall (fun x => noSlash x = true) l)
    by (intros l Hl; eapply Forall_impl; [exact Hl|apply plain_noSlash]).
  destruct (split_append (absolute (ds ++ [x])) t) as (l & z & y & r & H1 & H2 & H3).
  rewrite split_absolute in H1 by auto. change (EmptyString :: ds ++ [x]) with ((EmptyString :: ds) ++ [x]) in H1.
  apply app_inj_tail in H1 as [<- <-]. rewrite <- Ht in H3.
  assert (Hx : x +:+ y <> EmptyString).
  { apply list.Forall_app in Hp as [_ Hp]. inversion Hp as [|?? Hx _]; subst. apply plain_nonempty in Hx. by destruct x. }
  destruct Htail as [->| ->].
  - rewrite JsStr.append_nil, split_absolute in H3 by auto. injection H3 as ->. eauto.
  - change "/" with ("/" +:+ EmptyString) in H3. rewrite JsStr.splitSlash_app, split_absolute in H3 by auto. cbn [JsStr.splitSlash app] in H3.
    injection H3 as H3. destruct r as [|r0 r _] using rev_ind.
    + change (ds ++ [x +:+ y]) with (ds ++ [x +:+ y]) in H3. apply app_inj_tail in H3 as [_ H3]. by rewrite <- H3 in Hx.
    + change (ds ++ (x +:+ y) :: r ++ [r0]) with (ds ++ ((x +:+ y) :: r) ++ [r0]) in H3. rewrite app_assoc in H3.
      apply app_inj_tail in H3 as [-> _]. eauto.
Qed.

(** C18 Reading a file of a workspace: for every requested path, with [..] and
    whatever else in it, a file is only served from below a directory of the
    workspaces whose name begins with the identifier of the task; no
    component of the path that is opened is [..]; and when no other directory
    has a name that extends the identifier, it is the workspace of the task. *)
Theorem workspace_file_contained `{WorkspaceRoutes.WorkspaceEnv} ds taskId filePath tb t content path size :
  WorkspaceRoutes.workspacesDir = absolute ds ->
  Forall (fun x => plain x = true) ds ->
  plain (t_id t) = true ->
  findById taskId tb = Some t ->
  WorkspaceRoutes.readFile taskId filePath tb = WorkspaceRoutes.WFile content path size ->
  exists suffix rest tail,
    let opened := ds ++ (t_id t +:+ suffix) :: rest in
    WorkspaceRoutes.readFileSync (absolute opened +:+ tail) = Ok content /\
    Forall (fun x => plain x = true) opened /\ (tail = EmptyString \/ tail = "/") /\
    ((forall sfx rest tail, sfx <> EmptyString ->
        WorkspaceRoutes.existsSync (absolute (ds ++ (t_id t +:+ sfx) :: rest) +:+ tail) = false) ->
     suffix = EmptyString).
Proof.
  intros Hdir Hds Hid Hf. unfold WorkspaceRoutes.readFile. rewrite Hf. destruct (negb (JsStr.truthy filePath)); [done|].
  assert (Hws : WorkspaceRoutes.workspacePathOf t = absolute (ds ++ [t_id t])).
  { unfold WorkspaceRoutes.workspacePathOf. rewrite Hdir. by apply join_plain. }
  rewrite Hws. destruct (join_shape (absolute (ds ++ [t_id t])) filePath) as (comps & tail & -> & Htail & Hc).
  destruct (JsStr.startsWith _ _) eqn:Hs; [|done]. cbn [negb].
  destruct (prefix_component ds (t_id t) comps tail) as (suffix & rest & ->);
    [by apply list.Forall_app; auto|done|done|exact Hs|].
  destruct (WorkspaceRoutes.existsSync _) eqn:He; [|done]. cbn [negb].
  destruct (WorkspaceRoutes.statSync _) as [[[] sz]|]; [done| |done].
  destruct (WorkspaceRoutes.readFileSync _) as [c|] eqn:Hr; [|done]. intros [= -> _ _].
  exists suffix, rest, tail. cbn zeta. repeat split; [done..|]. intros Hno. destruct (decide (suffix = EmptyString)); [done|].
  by rewrite Hno in He.
Qed.

(** A task whose workspace lies beside one with a longer name. *)
Definition readParams : CreateTaskParams :=
  {| cp_userId := "u"; cp_projectId := None; cp_repositoryId := None; cp_title := "T"; cp_description := None; cp_status := None |}.

Definition readTable : gmap string TaskRow := {["t1" := newRow "t1" 0 readParams]}.

#[local] Instance siblings : WorkspaceRoutes.WorkspaceEnv :=
  {| WorkspaceRoutes.workspacesDir := "/ws";
     WorkspaceRoutes.existsSync p := bool_decide (p = "/ws/t1/a.ts" \/ p = "/ws/t10/.env");
     WorkspaceRoutes.statSync _ := Ok (false, 6%Z);
     WorkspaceRoutes.readFileSync p := Ok (if bool_decide (p = "/ws/t1/a.ts") then "let a;" else "SECRET");
     WorkspaceRoutes.readdirSync _ := Throw "ENOENT"; WorkspaceRoutes.treeAt _ := ContextCache.NDir true [];
     WorkspaceRoutes.repoNames _ := []; WorkspaceRoutes.githubToken _ := None;
     WorkspaceRoutes.exec _ _ _ := Throw "no git" |}.

Lemma workspace_file_contained_witness :
  WorkspaceRoutes.readFile "t1" "b/../../t1/./a.ts" readTable = WorkspaceRoutes.WFile "let a;" "b/../../t1/./a.ts" 6 /\
  exists suffix rest tail, WorkspaceRoutes.readFileSync (absolute (["ws"] ++ ("t1" +:+ suffix) :: rest) +:+ tail) = Ok "let a;".
Proof.
  assert (Hr : WorkspaceRoutes.readFile "t1" "b/../../t1/./a.ts" readTable = WorkspaceRoutes.WFile "let a;" "b/../../t1/./a.ts" 6)
    by (vm_compute; reflexivity).
  split; [exact Hr|].
  destruct (@workspace_file_contained siblings ["ws"] "t1" _ readTable (mapRow (newRow "t1" 0 readParams)) _ _ _
              ltac:(reflexivity) ltac:(repeat constructor) ltac:(reflexivity) ltac:(vm_compute; reflexivity) Hr) as (suffix & rest & tail & Ho & _).
  exists suffix, rest, tail. exact Ho.
Defined.

(** The file of another workspace is served, since only the beginning of the
    path is compared. *)
Example sibling_workspace_read : WorkspaceRoutes.readFile "t1" "../t10/.env" readTable = WorkspaceRoutes.WFile "SECRET" "../t10/.env" 6.
Proof. vm_compute. reflexivity. Qed.

(** ** The status of git *)

Import WorkspaceService.

Lemma rev_app_app s t a : String.rev_app (s +:+ t) a = String.rev_app t (String.rev_app s a).
Proof. revert a. induction s as [|c s IH]; intros a; [done|]. exact (IH (String c a)). Qed.

Lemma rev_app_twice s a b : String.rev_app (String.rev_app s a) b = String.rev_app a (s +:+ b).
Proof. revert a b. induction s as [|c s IH]; intros a b; [done|]. exact (IH (String c a) b). Qed.

Lemma rev_rev s : String.rev (String.rev s) = s.
Proof. unfold String.rev. rewrite rev_app_twice. apply JsStr.append_nil. Qed.

Lemma rev_snoc s c : String.rev (s +:+ String c EmptyString) = String c (String.rev s).
Proof. unfold String.rev. by rewrite rev_app_app. Qed.

Lemma trimmedEnd_snoc s : s <> EmptyString -> Json.trimmedEnd s = true -> exists p c, s = p +:+ String c EmptyString /\ Json.isSpace c = false.
Proof.
  induction s as [|c s IH]; [done|]. intros _ Ht. destruct s as [|d s].
  - exists EmptyString, c. split; [done|]. by apply negb_true_iff.
  - destruct (IH ltac:(done) Ht) as (p & x & Hs & Hx). exists (String c p), x. by rewrite Hs.
Qed.

Definition newlineStr : string := String AgentSpy.newline EmptyString.

(** A line end after text without surrounding white space is all that goes. *)
Lemma trim_line s : Json.trimmed s = true -> TaskRoutes.trim (s +:+ newlineStr) = s.
Proof.
  intros Ht. destruct s as [|c s]; [done|]. cbn [Json.trimmed] in Ht. apply andb_true_iff in Ht as [Hc Ht]. apply negb_true_iff in Hc.
  unfold TaskRoutes.trim. change (String c s +:+ newlineStr) with (String c (s +:+ newlineStr)).
  rewrite Json.trimStart_first by done. change (String c (s +:+ newlineStr)) with (String c s +:+ newlineStr).
  unfold newlineStr. rewrite rev_snoc. cbn [Json.trimStart]. change (Json.isSpace AgentSpy.newline) with true. cbn iota.
  destruct (trimmedEnd_snoc (String c s) ltac:(done) Ht) as (p & x & -> & Hx). rewrite rev_snoc, Json.trimStart_first by done.
  rewrite <- rev_snoc. apply rev_rev.
Qed.

Lemma trim_trimmed s : Json.trimmed s = true -> TaskRoutes.trim s = s.
Proof.
  intros Ht. destruct s as [|c s]; [done|]. cbn [Json.trimmed] in Ht. apply andb_true_iff in Ht as [Hc Ht]. apply negb_true_iff in Hc.
  unfold TaskRoutes.trim. rewrite Json.trimStart_first by done.
  destruct (trimmedEnd_snoc (String c s) ltac:(done) Ht) as (p & x & -> & Hx). rewrite rev_snoc, Json.trimStart_first by done.
  rewrite <- rev_snoc. apply rev_rev.
Qed.

(** What git prints for an entry that is not a rename. *)
Definition statusLine (e : GitStatusEntry) : string :=
  String (gs_indexStatus e) (String (gs_workTreeStatus e) (String " " (gs_file e))).

Fixpoint printStatus (l : list GitStatusEntry) : string :=
  match l with
  | [] => EmptyString
  | e :: l' => statusLine e +:+ newlineStr +:+ printStatus l'
  end.

Definition noNewline (s : string) : bool := negb (JsStr.includes newlineStr s).

Record validEntry (e : GitStatusEntry) : Prop := {
  ve_index : gs_indexStatus e <> AgentSpy.newline;
  ve_tree : gs_workTreeStatus e <> AgentSpy.newline;
  ve_file : Json.trimmed (gs_file e) = true;
  ve_line : noNewline (gs_file e) = true;
  ve_arrow : JsStr.includes arrow (gs_file e) = false;
  ve_plain : gs_originalFile e = None;
}.

Lemma parse_statusLine e : validEntry e -> parseLine (statusLine e) = Some e.
Proof.
  intros [_ _ H3 _ H5 H6]. cbn [statusLine parseLine]. rewrite trim_trimmed, H5 by done. destruct e. cbn in *. by subst.
Qed.

Lemma splitLines_line l s : noNewline l = true -> AgentSpy.splitLines (l +:+ newlineStr +:+ s) = l :: AgentSpy.splitLines s.
Proof.
  induction l as [|c l IH]; [done|]. unfold noNewline. cbn [JsStr.includes newlineStr JsStr.startsWith]. rewrite andb_true_r, negb_orb.
  intros [Hc Hl]%andb_true_iff. apply negb_true_iff, bool_decide_eq_false in Hc.
  change (String c l +:+ newlineStr +:+ s) with (String c (l +:+ newlineStr +:+ s)). cbn [AgentSpy.splitLines].
  rewrite bool_decide_eq_false_2 by congruence. by rewrite (IH Hl).
Qed.

Lemma splitLines_last l : noNewline l = true -> AgentSpy.splitLines l = [l].
Proof.
  induction l as [|c l IH]; [done|]. unfold noNewline. cbn [JsStr.includes newlineStr JsStr.startsWith]. rewrite andb_true_r, negb_orb.
  intros [Hc Hl]%andb_true_iff. apply negb_true_iff, bool_decide_eq_false in Hc. cbn [AgentSpy.splitLines].
  rewrite bool_decide_eq_false_2 by congruence. by rewrite (IH Hl).
Qed.

Lemma noNewline_cons c s : noNewline (String c s) = negb (bool_decide (c = AgentSpy.newline)) && noNewline s.
Proof.
  unfold noNewline. cbn [JsStr.includes newlineStr JsStr.startsWith]. rewrite andb_true_r, negb_orb. f_equal. f_equal.
  apply bool_decide_ext. split; congruence.
Qed.

Lemma statusLine_noNewline e : validEntry e -> noNewline (statusLine e) = true.
Proof.
  intros [H1 H2 _ H4 _ _]. unfold statusLine. rewrite !noNewline_cons, H4, !bool_decide_eq_false_2 by done. done.
Qed.

(** The lines without the last line end. *)
Fixpoint body (first : string) (l : list GitStatusEntry) : string :=
  match l with
  | [] => first
  | e :: l' => first +:+ newlineStr +:+ body (statusLine e) l'
  end.

Lemma printStatus_body e l : printStatus (e :: l) = body (statusLine e) l +:+ newlineStr.
Proof.
  revert e. induction l as [|e' l IH]; intros e; [cbn [printStatus body]; by rewrite JsStr.append_nil|].
  cbn [printStatus body] in *. rewrite IH. by rewrite <- !JsStr.append_assoc.
Qed.

Lemma splitLines_body first l :
  noNewline first = true -> Forall validEntry l -> AgentSpy.splitLines (body first l) = first :: (statusLine <$> l).
Proof.
  intros Hf Hl. revert first Hf. induction Hl as [|e l He _ IH]; intros first Hf; cbn [body]; [by apply splitLines_last|].
  rewrite splitLines_line by done. by rewrite IH by by apply statusLine_noNewline.
Qed.

Lemma trimmedEnd_append a b : b <> EmptyString -> Json.trimmedEnd (a +:+ b) = Json.trimmedEnd b.
Proof.
  intros Hb. induction a as [|c a IH]; [done|]. change (String c a +:+ b) with (String c (a +:+ b)). cbn [Json.trimmedEnd].
  rewrite IH. by destruct a, b.
Qed.

Lemma trimmedEnd_file i w f : Json.trimmed f = true -> Json.trimmedEnd (String i (String w (String " " f))) = true.
Proof. destruct f as [|c f]; [done|]. cbn [Json.trimmed]. intros [_ Hf]%andb_true_iff. exact Hf. Qed.

Lemma body_nonempty first l : first <> EmptyString -> body first l <> EmptyString.
Proof. destruct l; [done|]. by destruct first. Qed.

Lemma body_trimmedEnd first l :
  Json.trimmedEnd first = true -> Forall validEntry l -> Json.trimmedEnd (body first l) = true.
Proof.
  intros Hf Hl. revert first Hf. induction Hl as [|e l [_ _ He _ _ _] _ IH]; intros first Hf; cbn [body]; [done|].
  rewrite <- JsStr.append_assoc, trimmedEnd_append by by apply body_nonempty. apply IH. by apply trimmedEnd_file.
Qed.

Lemma parse_lines l : Forall validEntry l -> omap parseLine (statusLine <$> l) = l.
Proof. induction 1 as [|e l He _ IH]; [done|]. cbn [fmap list_fmap omap list_omap]. by rewrite parse_statusLine, IH. Qed.

Lemma addEntry_entries r e : st_entries (addEntry r e) = st_entries r ++ [e].
Proof. unfold addEntry. by repeat case_match. Qed.

Lemma fold_entries l r : st_entries (fold_left addEntry l r) = st_entries r ++ l.
Proof.
  revert r. induction l as [|e l IH]; intros r; [by rewrite app_nil_r|]. cbn [fold_left]. rewrite IH, addEntry_entries.
  by rewrite <- app_assoc.
Qed.

(** Parsing an output whose first line, once the output is trimmed, is given. *)
Lemma parse_output out first l :
  TaskRoutes.trim out = body first l -> first <> EmptyString -> noNewline first = true -> Forall validEntry l ->
  st_entries (parseGitStatus (Some out)) = omap parseLine [first] ++ l.
Proof.
  intros Ht Hne Hn Hl. unfold parseGitStatus. rewrite Ht.
  assert (Htr : JsStr.truthy (body first l) = true)
    by (unfold JsStr.truthy; by rewrite bool_decide_eq_false_2 by by apply body_nonempty).
  rewrite Htr. cbn [negb]. change (st_entries (closeStatus ?r)) with (st_entries r).
  rewrite fold_entries, splitLines_body by done. cbn [noStatus st_entries app].
  cbn [omap list_omap]. change (list_omap ?A ?B parseLine (statusLine <$> l)) with (omap parseLine (statusLine <$> l)).
  rewrite parse_lines by done. by destruct (parseLine first).
Qed.

Definition shifted (e : GitStatusEntry) : GitStatusEntry :=
  {| gs_indexStatus := gs_workTreeStatus e; gs_workTreeStatus := " "; gs_file := JsStr.drop 1 (gs_file e); gs_originalFile := None |}.

(** Reading the status of git: the entries git prints, one per line, are read
    back exactly when the index status of the first is not a blank. When it
    is (a file that is modified but not staged), trimming the output shifts
    that line: the status of the work tree is taken for that of the index and
    the file loses its first character; the others are read back. *)
Theorem git_status_roundtrip e l :
  validEntry e ->
  Forall validEntry l ->
  (Json.isSpace (gs_indexStatus e) = false ->
   st_entries (parseGitStatus (Some (printStatus (e :: l)))) = e :: l) /\
  (gs_indexStatus e = " "%char -> Json.isSpace (gs_workTreeStatus e) = false -> Json.trimmed (JsStr.drop 1 (gs_file e)) = true ->
   st_entries (parseGitStatus (Some (printStatus (e :: l)))) = shifted e :: l).
Proof.
  intros He Hl. pose proof (statusLine_noNewline e He) as Hn. rewrite printStatus_body. split.
  - intros Hi. rewrite (parse_output _ (statusLine e) l); [cbn [omap list_omap]; by rewrite parse_statusLine| |done|done|done].
    apply trim_line. assert (Hend : Json.trimmedEnd (body (statusLine e) l) = true)
      by (apply body_trimmedEnd; [apply trimmedEnd_file, He|done]).
    unfold Json.trimmed. destruct (body (statusLine e) l) as [|c s] eqn:Hb; [by apply body_nonempty in Hb|].
    assert (c = gs_indexStatus e) as -> by (destruct l; cbn in Hb; by injection Hb as <- _). by rewrite Hi.
  - intros Hi Hw Hf. destruct e as [i w f o]. cbn [gs_indexStatus gs_workTreeStatus gs_file] in *. subst i.
    destruct He as [_ H2 H3 H4 H5 _]. cbn [gs_workTreeStatus gs_file] in *. destruct f as [|c f]; [done|].
    set (first := String w (String " " (String c f))).
    assert (Hfirst : noNewline first = true)
      by (unfold first; rewrite !noNewline_cons in *; rewrite bool_decide_eq_false_2 by done; done).
    assert (Hbody : body (statusLine {| gs_indexStatus := " "; gs_workTreeStatus := w; gs_file := String c f; gs_originalFile := o |}) l
                    = String " " (body first l)) by by destruct l.
    rewrite Hbody. rewrite (parse_output _ first l); [| |done|done|done].
    + cbn [omap list_omap parseLine first]. cbn [JsStr.drop] in *. rewrite trim_trimmed by done.
      cbn [JsStr.includes] in H5. apply orb_false_iff in H5 as [_ H5]. by rewrite H5.
    + assert (Ht : Json.trimmed (body first l) = true).
      { unfold Json.trimmed. assert (Hend : Json.trimmedEnd (body first l) = true)
          by (apply body_trimmedEnd; [by apply (trimmedEnd_file w " "%char (String c f))|done]).
        destruct (body first l) as [|d s] eqn:Hb; [by apply body_nonempty in Hb|].
        assert (d = w) as -> by (destruct l; cbn in Hb; by injection Hb as <- _). by rewrite Hw. }
      change (String " " (body first l) +:+ newlineStr) with (String " " (body first l +:+ newlineStr)).
      transitivity (TaskRoutes.trim (body first l +:+ newlineStr)); [|by apply trim_line]. unfold TaskRoutes.trim. by cbn [Json.trimStart].
Qed.

Definition stagedEntry : GitStatusEntry :=
  {| gs_indexStatus := "M"; gs_workTreeStatus := " "; gs_file := "src/a.ts"; gs_originalFile := None |}.
Definition unstagedEntry : GitStatusEntry :=
  {| gs_indexStatus := " "; gs_workTreeStatus := "M"; gs_file := "src/b.ts"; gs_originalFile := None |}.

Lemma git_status_roundtrip_witness :
  st_entries (parseGitStatus (Some (printStatus [stagedEntry; unstagedEntry]))) = [stagedEntry; unstagedEntry] /\
  (gs_file <$> st_entries (parseGitStatus (Some (printStatus [unstagedEntry; stagedEntry])))) = ["rc/b.ts"; "src/a.ts"].
Proof.
  assert (Hs : validEntry stagedEntry) by (constructor; vm_compute; congruence).
  assert (Hu : validEntry unstagedEntry) by (constructor; vm_compute; congruence).
  destruct (git_status_roundtrip stagedEntry [unstagedEntry] Hs ltac:(by constructor)) as [H1 _].
  destruct (git_status_roundtrip unstagedEntry [stagedEntry] Hu ltac:(by constructor)) as [_ H2].
  split; [by apply H1; vm_compute|]. rewrite H2; vm_compute; reflexivity.
Defined.

(** ** Commands *)

(** Text between double quotes that the shell takes as it is: nothing is
    substituted and the quotes are not closed. *)
Fixpoint inert (s : string) : bool :=
  match s with
  | EmptyString => true
  | String c s' =>
      if bool_decide (c = "\"%char) then match s' with String _ s'' => inert s'' | EmptyString => false end
      else negb (bool_decide (c = Ascii.ascii_of_nat 34)) && negb (bool_decide (c = "$"%char)) &&
           negb (bool_decide (c = "`"%char)) && inert s'
  end.

Fixpoint harmless (s : string) : bool :=
  match s with
  | EmptyString => true
  | String c s' =>
      negb (bool_decide (c = "\"%char)) && negb (bool_decide (c = "$"%char)) && negb (bool_decide (c = "`"%char)) && harmless s'
  end.

(** A commit message without backslash, dollar or backquote is passed on. *)
Lemma escape_inert m : harmless m = true -> inert (escape m) = true.
Proof.
  induction m as [|c m IH]; [done|]. cbn [harmless]. intros [[[H1 H2]%andb_true_iff H3]%andb_true_iff Hm]%andb_true_iff.
  cbn [escape]. destruct (bool_decide (c = Ascii.ascii_of_nat 34)) eqn:Hq; [exact (IH Hm)|]. cbn [inert].
  apply negb_true_iff in H1. rewrite H1, H2, H3, Hq. exact (IH Hm).
Qed.

(** Other messages reach the shell: a substitution, and a quote closed by a
    backslash that was there. *)
Example message_substituted : inert (escape "fix $(id)") = false.
Proof. by vm_compute. Qed.

Example message_closes_quote : inert (escape ("fix \" +:+ quote +:+ "; id")) = false.
Proof. by vm_compute. Qed.

Lemma orOnError_ok {A} (v : A) m s : exists a s', orOnError v m s = (Ok a, s').
Proof. unfold orOnError, Js.try_catch. destruct (m s) as [[a|e] s']; eauto. Qed.

(** [commitAndPush] never throws; it pushes only what it committed, and commits
    only when there are changes. *)
Lemma commitAndPush_order exec cwd message token branch log :
  exists o log', commitAndPush exec cwd message token branch log = (Ok o, log') /\
    (po_pushed o = true -> po_committed o = true) /\ (po_committed o = true -> st_hasChanges (po_changes o) = true).
Proof.
  unfold commitAndPush.
  destruct (orOnError_ok (parseGitStatus None) (out ← execAsync exec cwd statusCommand; mret (parseGitStatus (Some out))) log) as (ch & s1 & E1).
  erewrite Js.bind_ok by exact E1. destruct (st_hasChanges ch) eqn:Hch; cbn [negb]; [|by do 2 eexists].
  destruct (orOnError_ok false (execAsync exec cwd "git add -A";; mret true) s1) as (ad & s2 & E2).
  erewrite Js.bind_ok by exact E2.
  assert (Hc : exists c s3, commit exec cwd message s2 = (Ok c, s3)) by apply orOnError_ok. destruct Hc as (c & s3 & E3).
  erewrite Js.bind_ok by exact E3. destruct c; cbn [negb]; [|by do 2 eexists].
  assert (Hp : exists p s4, pushWithToken exec cwd token branch s3 = (Ok p, s4)) by apply orOnError_ok. destruct Hp as (p & s4 & E4).
  erewrite Js.bind_ok by exact E4. by do 2 eexists.
Qed.

End WorkspaceSpec.
