(* ===== verification/Specialists.v ===== *)
(** * Specialists (src/services/specialists/SpecialistManager.ts)

    Which expert personas a prompt is written for: those a project's
    configuration switches on, those whose keywords occur in the task, the
    model tier they ask for, and the detection of a project's stack from its
    files. The texts of the personas (prompts.ts) are the class [PromptTexts];
    of the registry, the model has the identifiers, names, stacks and tiers.
    Stack and specialist names are strings; a name outside the tables is not
    found in them. Scores are binary64. *)

From S2P Require Import Prelude JsNumber Json Regex TaskRoutes ProjectRoutes.
From Stdlib Require Import SpecFloat.
From stdpp Require Import list options.

Module Specialists.
Import JsNum Regex ProjectRoutes.

Inductive Phase := PhAnalysis | PhDeveloper.

#[global] Instance Phase_eq_dec : EqDecision Phase.
Proof. solve_decision. Defined.

Record SpecialistDefinition := {
  sd_id : string;
  sd_name : string;
  sd_description : string;
  sd_stacks : option (list string);
  sd_phases : option (list Phase);
  sd_modelTier : option Z;
}.

(** No definition restricts its phases, and all have a tier. *)
Definition define (id name description : string) (tier : Z) (stacks : option (list string)) : SpecialistDefinition :=
  {| sd_id := id; sd_name := name; sd_description := description; sd_stacks := stacks; sd_phases := None;
     sd_modelTier := Some tier |}.

Definition SPECIALIST_REGISTRY : JsMap.t SpecialistDefinition :=
  [("context-manager", define "context-manager" "Context Manager"
      "Explores and understands the codebase structure, patterns, and dependencies" 2 None);
   ("task-decomposition", define "task-decomposition" "Task Decomposition Expert"
      "Breaks down complex tasks into atomic, implementable stories" 1 None);
   ("code-architect", define "code-architect" "Code Architect"
      "Designs technical approach and identifies architectural patterns" 1 None);
   ("debugger", define "debugger" "Debugger / Error Detective"
      "Diagnoses and resolves errors systematically" 2 None);
   ("test-engineer", define "test-engineer" "Test Engineer"
      "Designs and implements comprehensive tests" 2 None);
   ("security-auditor", define "security-auditor" "Security Auditor"
      "Identifies and prevents security vulnerabilities" 1 None);
   ("git-flow-manager", define "git-flow-manager" "Git Flow Manager"
      "Manages branches, commits, and version control best practices" 3 None);
   ("react-expert", define "react-expert" "React Expert"
      "Senior React developer with deep framework knowledge" 2 (Some ["react"]));
   ("vue-expert", define "vue-expert" "Vue Expert"
      "Senior Vue developer with framework expertise" 2 (Some ["vue"]));
   ("angular-expert", define "angular-expert" "Angular Expert"
      "Senior Angular developer with TypeScript and RxJS expertise" 2 (Some ["angular"]));
   ("nextjs-architect", define "nextjs-architect" "Next.js Architect"
      "Next.js App Router and full-stack React expert" 1 (Some ["nextjs"]));
   ("svelte-expert", define "svelte-expert" "Svelte Expert"
      "Senior Svelte developer with SvelteKit expertise" 2 (Some ["svelte"]));
   ("nodejs-pro", define "nodejs-pro" "Node.js Pro"
      "Senior Node.js developer with backend expertise" 2 (Some ["nodejs"]));
   ("python-pro", define "python-pro" "Python Pro"
      "Senior Python developer with backend expertise" 2 (Some ["python"]));
   ("go-expert", define "go-expert" "Go Expert"
      "Senior Go developer with systems expertise" 2 (Some ["go"]));
   ("java-specialist", define "java-specialist" "Java Specialist"
      "Senior Java developer with Spring Boot expertise" 2 (Some ["java"]));
   ("rust-expert", define "rust-expert" "Rust Expert"
      "Senior Rust developer with systems programming expertise" 1 (Some ["rust"]));
   ("dotnet-expert", define "dotnet-expert" ".NET Expert"
      "Senior .NET developer with C# and ASP.NET Core expertise" 2 (Some ["dotnet"]));
   ("flutter-dart-expert", define "flutter-dart-expert" "Flutter/Dart Expert"
      "Senior Flutter developer with cross-platform mobile expertise" 2 (Some ["flutter"; "dart"]));
   ("postgresql-architect", define "postgresql-architect" "PostgreSQL Architect"
      "PostgreSQL database design and optimization expert" 2 (Some ["postgresql"]));
   ("mongodb-expert", define "mongodb-expert" "MongoDB Expert"
      "MongoDB database design and optimization expert" 2 (Some ["mongodb"]));
   ("mysql-specialist", define "mysql-specialist" "MySQL Specialist"
      "MySQL and MariaDB database optimization expert" 2 (Some ["mysql"]));
   ("redis-expert", define "redis-expert" "Redis Expert"
      "Redis caching, data structures, and pub/sub expert" 2 (Some ["redis"]));
   ("docker-expert", define "docker-expert" "Docker Expert"
      "Docker containerization expert" 2 (Some ["docker"]));
   ("kubernetes-architect", define "kubernetes-architect" "Kubernetes Architect"
      "Kubernetes orchestration and cloud-native architecture expert" 1 (Some ["kubernetes"]));
   ("aws-specialist", define "aws-specialist" "AWS Specialist"
      "AWS cloud architecture and services expert" 2 (Some ["aws"]));
   ("gcp-expert", define "gcp-expert" "GCP Expert"
      "Google Cloud Platform architecture expert" 2 (Some ["gcp"]));
   ("azure-specialist", define "azure-specialist" "Azure Specialist"
      "Microsoft Azure cloud architecture expert" 2 (Some ["azure"]));
   ("ui-ux-designer", define "ui-ux-designer" "UI/UX Designer"
      "User interface and experience design expert" 2 None);
   ("api-designer", define "api-designer" "API Designer"
      "RESTful and GraphQL API design expert" 2 None);
   ("performance-optimizer", define "performance-optimizer" "Performance Optimizer"
      "Application performance and optimization expert" 2 None);
   ("accessibility-expert", define "accessibility-expert" "Accessibility Expert"
      "Web accessibility and WCAG expert" 2 None);
   ("fullstack-developer", define "fullstack-developer" "Fullstack Developer"
      "Full-stack development expert" 2 None)].

Class PromptTexts := {
  persona : string -> string;
  instructions : string -> Phase -> option string;
}.

(** ** Configuration *)

Record StandardSpecialistsConfig := {
  contextManager : bool; taskDecomposition : bool; codeArchitect : bool; debugger : bool; testEngineer : bool;
  securityAuditor : bool; gitFlowManager : bool }.

Record ProjectSpecialistsConfig := {
  pc_stack : DetectedStack;
  pc_standard : StandardSpecialistsConfig;
  pc_domainSpecialists : option (list string);
}.

Definition noStack : DetectedStack :=
  {| st_frontend := None; st_backend := None; st_database := None; st_infrastructure := None; st_additionalTech := None |}.

Definition allStandard : StandardSpecialistsConfig :=
  {| contextManager := true; taskDecomposition := true; codeArchitect := true; debugger := true; testEngineer := true;
     securityAuditor := true; gitFlowManager := true |}.

Definition getDefaultConfig : ProjectSpecialistsConfig :=
  {| pc_stack := noStack; pc_standard := allStandard; pc_domainSpecialists := Some [] |}.

Definition STACK_TO_SPECIALIST : JsMap.t string :=
  [("react", "react-expert"); ("vue", "vue-expert"); ("angular", "angular-expert"); ("nextjs", "nextjs-architect");
   ("svelte", "svelte-expert"); ("nodejs", "nodejs-pro"); ("python", "python-pro"); ("go", "go-expert");
   ("java", "java-specialist"); ("rust", "rust-expert"); ("dotnet", "dotnet-expert");
   ("flutter", "flutter-dart-expert"); ("dart", "flutter-dart-expert"); ("postgresql", "postgresql-architect");
   ("mongodb", "mongodb-expert"); ("mysql", "mysql-specialist"); ("redis", "redis-expert"); ("docker", "docker-expert");
   ("kubernetes", "kubernetes-architect"); ("aws", "aws-specialist"); ("gcp", "gcp-expert"); ("azure", "azure-specialist");
   ("vercel", "nextjs-architect")].

Definition STANDARD_CONFIG_MAP : list ((StandardSpecialistsConfig -> bool) * string) :=
  [(contextManager, "context-manager"); (taskDecomposition, "task-decomposition"); (codeArchitect, "code-architect");
   (debugger, "debugger"); (testEngineer, "test-engineer"); (securityAuditor, "security-auditor");
   (gitFlowManager, "git-flow-manager")].

(** ** Active specialists *)

Definition getSpecialist (id : string) : option SpecialistDefinition := JsMap.get id SPECIALIST_REGISTRY.

Definition stackSpecialist (s : option string) : list string :=
  match t ← JsStr.orNull s; JsMap.get t STACK_TO_SPECIALIST with Some x => [x] | None => [] end.

Definition getStackSpecialists (s : DetectedStack) : list string :=
  stackSpecialist (st_frontend s) ++ stackSpecialist (st_backend s) ++ stackSpecialist (st_database s) ++
  stackSpecialist (st_infrastructure s).

(** The filter by phase. *)
Definition applies (phase : Phase) (id : string) : bool :=
  match getSpecialist id with
  | None => false
  | Some d => match sd_phases d with None => true | Some l => bool_decide (phase ∈ l) end
  end.

Definition getActiveSpecialists (config : ProjectSpecialistsConfig) (phase : Phase) : list string :=
  base.filter (fun id => applies phase id = true)
    ((base.filter (fun e => e.1 (pc_standard config) = true) STANDARD_CONFIG_MAP).*2 ++
     getStackSpecialists (pc_stack config) ++ default [] (pc_domainSpecialists config)).

(** ** Prompts *)

Definition newline : string := String "010" EmptyString.
Definition blankLine : string := newline +:+ newline.

Fixpoint toUpperCase (s : string) : string :=
  match s with
  | EmptyString => EmptyString
  | String c s' => String (Ascii.ascii_of_N (Regex.upper (Regex.code c))) (toUpperCase s')
  end.

Definition guideline (label : string) (v : option string) : list string :=
  match JsStr.orNull v with Some x => [label +:+ ": " +:+ toUpperCase x] | None => [] end.

Definition buildStackGuidelines (s : DetectedStack) : string :=
  let parts := guideline "Frontend" (st_frontend s) ++ guideline "Backend" (st_backend s) ++
    guideline "Database" (st_database s) ++ guideline "Infrastructure" (st_infrastructure s) ++
    match st_additionalTech s with Some (x :: l) => ["Additional: " +:+ joinWith ", " (x :: l)] | _ => [] end in
  match parts with
  | [] => EmptyString
  | _ => "## Project Stack" +:+ newline +:+ joinWith newline ((fun p => "- " +:+ p) <$> parts)
  end.

Record SpecialistContext := {
  sx_personaPrompt : string;
  sx_instructionsPrompt : string;
  sx_activeSpecialists : list string;
  sx_stackGuidelines : string;
  sx_recommendedModelTier : Z;
}.

(** One round of the loop over the active specialists: the parts of the
    persona, of the instructions, and the best tier so far. *)
Definition addSpecialist `{PromptTexts} (phase : Phase) (acc : list string * list string * Z) (id : string)
    : list string * list string * Z :=
  let '(personas, instr, tier) := acc in
  match getSpecialist id with
  | None => acc
  | Some d =>
      (personas ++ (if JsStr.truthy (persona id) then [TaskRoutes.trim (persona id)] else []),
       instr ++ (match JsStr.orNull (instructions id phase) with Some t => [TaskRoutes.trim t] | None => [] end),
       match sd_modelTier d with Some t => if (t <? tier)%Z then t else tier | None => tier end)
  end.

(** The context of a list of specialists. *)
Definition contextOf `{PromptTexts} (config : ProjectSpecialistsConfig) (phase : Phase) (ids : list string) : SpecialistContext :=
  let '(personas, instr, tier) := fold_left (addSpecialist phase) ids ([], [], 3%Z) in
  {| sx_personaPrompt := joinWith blankLine personas; sx_instructionsPrompt := joinWith blankLine instr;
     sx_activeSpecialists := ids; sx_stackGuidelines := buildStackGuidelines (pc_stack config);
     sx_recommendedModelTier := tier |}.

Definition buildContext `{PromptTexts} (config : ProjectSpecialistsConfig) (phase : Phase) : SpecialistContext :=
  contextOf config phase (getActiveSpecialists config phase).

Record EnhanceOptions := { eo_includePersona : bool; eo_includeInstructions : bool; eo_includeStackGuidelines : bool }.

Definition enhancePrompt (basePrompt : string) (c : SpecialistContext) (o : EnhanceOptions) : string :=
  joinWith blankLine
    ((if eo_includePersona o && JsStr.truthy (sx_personaPrompt c)
      then ["# Your Expert Identity" +:+ newline +:+ sx_personaPrompt c] else []) ++
     (if eo_includeStackGuidelines o && JsStr.truthy (sx_stackGuidelines c) then [sx_stackGuidelines c] else []) ++
     [basePrompt] ++
     (if eo_includeInstructions o && JsStr.truthy (sx_instructionsPrompt c)
      then ["# Specialist Guidelines" +:+ newline +:+ sx_instructionsPrompt c] else [])).

(** ** Categories *)

Definition getAllSpecialists : list SpecialistDefinition := JsMap.values SPECIALIST_REGISTRY.

Record Categories := {
  ca_standard : list SpecialistDefinition; ca_frontend : list SpecialistDefinition; ca_backend : list SpecialistDefinition;
  ca_database : list SpecialistDefinition; ca_infrastructure : list SpecialistDefinition;
  ca_domain : list SpecialistDefinition }.

Definition getSpecialistsByCategory : Categories :=
  let having ids := base.filter (fun d => sd_id d ∈ ids) getAllSpecialists in
  {| ca_standard := having ["context-manager"; "task-decomposition"; "code-architect"; "debugger"; "test-engineer";
                            "security-auditor"; "git-flow-manager"];
     ca_frontend := having ["react-expert"; "vue-expert"; "angular-expert"; "nextjs-architect"; "svelte-expert"];
     ca_backend := having ["nodejs-pro"; "python-pro"; "go-expert"; "java-specialist"; "rust-expert"; "dotnet-expert"];
     ca_database := having ["postgresql-architect"; "mongodb-expert"; "mysql-specialist"; "redis-expert"];
     ca_infrastructure := having ["docker-expert"; "kubernetes-architect"; "aws-specialist"; "gcp-expert"; "azure-specialist"];
     ca_domain := having ["ui-ux-designer"; "api-designer"; "performance-optimizer"; "accessibility-expert";
                          "fullstack-developer"] |}.

(** ** Specialists by the words of a task *)

Record ContextualPattern := { cp_keywords : list literal; cp_weight : JsNum.t }.

Definition CONTEXTUAL_PATTERNS : JsMap.t ContextualPattern :=
  [("react-expert", {| cp_keywords := [ci "\breact\b"; ci "\bcomponent"; ci "\bhook"; ci "\buseState\b";
      ci "\buseEffect\b"; ci "\bjsx\b"; ci "\btsx\b"; cs "\.tsx?\b"]; cp_weight := ofDecimal 10 1 |});
   ("vue-expert", {| cp_keywords := [ci "\bvue\b"; ci "\bvuex\b"; ci "\bpinia\b"; ci "\bcomposition api\b";
      cs "\.vue\b"]; cp_weight := ofDecimal 10 1 |});
   ("nextjs-architect", {| cp_keywords := [ci "\bnext\.?js\b"; ci "\bserver component"; ci "\bapp router\b";
      ci "\bgetServerSideProps\b"; ci "\bgetStaticProps\b"; ci "\buse server\b"]; cp_weight := ofDecimal 10 1 |});
   ("angular-expert", {| cp_keywords := [ci "\bangular\b"; ci "\bngModule\b"; ci "\binjectable\b";
      cs "\.component\.ts\b"]; cp_weight := ofDecimal 10 1 |});
   ("svelte-expert", {| cp_keywords := [ci "\bsvelte\b"; ci "\bsveltekit\b"; cs "\.svelte\b"
      ]; cp_weight := ofDecimal 10 1 |});
   ("nodejs-pro", {| cp_keywords := [ci "\bnode\.?js\b"; ci "\bexpress\b"; ci "\bfastify\b"; ci "\bnestjs\b";
      ci "\bmiddleware\b"; ci "\broute"]; cp_weight := ofDecimal 10 1 |});
   ("python-pro", {| cp_keywords := [ci "\bpython\b"; ci "\bfastapi\b"; ci "\bdjango\b"; ci "\bflask\b";
      ci "\bpydantic\b"; cs "\.py\b"]; cp_weight := ofDecimal 10 1 |});
   ("go-expert", {| cp_keywords := [ci "\bgolang\b"; ci "\bgo\s+\w+\b"; ci "\bgoroutine"; ci "\bchannel"; cs "\.go\b"
      ]; cp_weight := ofDecimal 10 1 |});
   ("java-specialist", {| cp_keywords := [ci "\bjava\b"; ci "\bspring\s*boot\b"; ci "\bspring\b"; ci "\bmaven\b";
      ci "\bgradle\b"; cs "\.java\b"]; cp_weight := ofDecimal 10 1 |});
   ("rust-expert", {| cp_keywords := [ci "\brust\b"; ci "\bcargo\b"; ci "\bownership\b"; ci "\bborrow\b"; cs "\.rs\b"
      ]; cp_weight := ofDecimal 10 1 |});
   ("dotnet-expert", {| cp_keywords := [ci "\.net\b"; ci "\bcsharp\b"; ci "\bc#\b"; ci "\baspnet\b"; cs "\.cs\b"
      ]; cp_weight := ofDecimal 10 1 |});
   ("postgresql-architect", {| cp_keywords := [ci "\bpostgres"; ci "\bpostgresql\b"; ci "\bprisma\b";
      ci "\bdrizzle\b"; cs "\bSQL\b"; ci "\bmigration"; ci "\bschema\b"]; cp_weight := ofDecimal 10 1 |});
   ("mongodb-expert", {| cp_keywords := [ci "\bmongodb\b"; ci "\bmongoose\b"; ci "\bnosql\b"; ci "\baggregate";
      ci "\bcollection"]; cp_weight := ofDecimal 10 1 |});
   ("mysql-specialist", {| cp_keywords := [ci "\bmysql\b"; ci "\bmariadb\b"]; cp_weight := ofDecimal 10 1 |});
   ("redis-expert", {| cp_keywords := [ci "\bredis\b"; ci "\bcach(e|ing)\b"; ci "\bpubsub\b"
      ]; cp_weight := ofDecimal 10 1 |});
   ("docker-expert", {| cp_keywords := [ci "\bdocker\b"; ci "\bcontainer"; ci "\bDockerfile\b"; ci "\bcompose\b";
      ci "\bimage\b"]; cp_weight := ofDecimal 10 1 |});
   ("kubernetes-architect", {| cp_keywords := [ci "\bkubernetes\b"; ci "\bk8s\b"; ci "\bhelm\b"; ci "\bpod";
      ci "\bdeployment"; ci "\bservice\b"; ci "\bingress\b"]; cp_weight := ofDecimal 10 1 |});
   ("aws-specialist", {| cp_keywords := [ci "\baws\b"; ci "\blambda\b"; ci "\bs3\b"; ci "\bec2\b"; ci "\bdynamodb\b";
      ci "\bcognito\b"; ci "\bsqs\b"]; cp_weight := ofDecimal 10 1 |});
   ("gcp-expert", {| cp_keywords := [ci "\bgcp\b"; ci "\bgoogle cloud\b"; ci "\bcloud run\b"; ci "\bbigquery\b";
      ci "\bfirestore\b"]; cp_weight := ofDecimal 10 1 |});
   ("azure-specialist", {| cp_keywords := [ci "\bazure\b"; ci "\bcosmosdb\b"; ci "\bazure function"
      ]; cp_weight := ofDecimal 10 1 |});
   ("context-manager", {| cp_keywords := [ci "\bunderstand"; ci "\banalyze"; ci "\bexplore"; ci "\bresearch"
      ]; cp_weight := ofDecimal 5 1 |});
   ("task-decomposition", {| cp_keywords := [ci "\bcomplex\b"; ci "\bmultiple"; ci "\bstep"; ci "\bplan";
      ci "\bbreak down"]; cp_weight := ofDecimal 5 1 |});
   ("code-architect", {| cp_keywords := [ci "\barchitect"; ci "\bdesign"; ci "\bstructure"; ci "\bpattern";
      ci "\brefactor"; ci "\borganiz"]; cp_weight := ofDecimal 8 1 |});
   ("debugger", {| cp_keywords := [ci "\bbug\b"; ci "\bdebug"; ci "\bfix\b"; ci "\berror\b"; ci "\bissue\b";
      ci "\bcrash"; ci "\bbroken"; ci "\bnot working"]; cp_weight := ofDecimal 9 1 |});
   ("test-engineer", {| cp_keywords := [ci "\btest"; ci "\bjest\b"; ci "\bvitest\b"; ci "\bpytest\b"; ci "\bspec\b";
      ci "\bcoverage\b"; ci "\bmock"; ci "\bunit\b"; ci "\bintegration\b"; ci "\be2e\b"
      ]; cp_weight := ofDecimal 9 1 |});
   ("security-auditor", {| cp_keywords := [ci "\bsecurity\b"; ci "\bvulnerabil"; ci "\bauth"; ci "\bencrypt";
      ci "\binjection"; ci "\bxss\b"; ci "\bcsrf\b"; ci "\bcors\b"; ci "\bsanitiz"]; cp_weight := ofDecimal 9 1 |});
   ("git-flow-manager", {| cp_keywords := [ci "\bgit\b"; ci "\bbranch"; ci "\bmerge"; ci "\bcommit";
      ci "\bpull request"; ci "\bpr\b"; ci "\brebase"]; cp_weight := ofDecimal 7 1 |});
   ("ui-ux-designer", {| cp_keywords := [ci "\bui\b"; ci "\bux\b"; ci "\bdesign"; ci "\blayout"; ci "\bresponsive";
      ci "\bstyle"; ci "\bcss\b"; ci "\btailwind"; ci "\bsass\b"; ci "\banimation"]; cp_weight := ofDecimal 8 1 |});
   ("api-designer", {| cp_keywords := [ci "\bapi\b"; ci "\brest\b"; ci "\bgraphql\b"; ci "\bendpoint"; ci "\broute";
      ci "\bhttp"; ci "\brequest"; ci "\bresponse\b"; ci "\bopenapi\b"; ci "\bswagger\b"
      ]; cp_weight := ofDecimal 8 1 |});
   ("performance-optimizer", {| cp_keywords := [ci "\bperformance\b"; ci "\boptimiz"; ci "\bslow\b"; ci "\bfast";
      ci "\bspeed"; ci "\bcach"; ci "\blatency"; ci "\bbundle"; ci "\blazy"; ci "\bmemoiz"
      ]; cp_weight := ofDecimal 8 1 |});
   ("accessibility-expert", {| cp_keywords := [ci "\ba11y\b"; ci "\baccessib"; ci "\baria\b"; ci "\bscreen reader";
      ci "\bwcag\b"; ci "\bkeyboard"]; cp_weight := ofDecimal 9 1 |});
   ("fullstack-developer", {| cp_keywords := [ci "\bfullstack\b"; ci "\bfull-stack\b"; ci "\bfrontend and backend\b";
      ci "\bend-to-end\b"]; cp_weight := ofDecimal 6 1 |});
   ("flutter-dart-expert", {| cp_keywords := [ci "\bflutter\b"; ci "\bdart\b"; ci "\bwidget"; ci "\briverpod\b";
      ci "\bbloc\b"; ci "\bprovider\b"; ci "\bpubspec\b"; cs "\.dart\b"; ci "\bmobile app\b"
      ]; cp_weight := ofDecimal 10 1 |})].

Record Score := { sc_score : JsNum.t; sc_matches : list string }.

(** The first match of every pattern that has one. *)
Definition keywordMatches (text : string) (p : ContextualPattern) : list string :=
  omap (fun r => litMatch r text) (cp_keywords p).

(** [(matchCount / total) * weight] *)
Definition keywordScore (matchCount : nat) (p : ContextualPattern) : JsNum.t :=
  mul (div (ofZ (Z.of_nat matchCount)) (ofZ (Z.of_nat (length (cp_keywords p))))) (cp_weight p).

Definition scoreKeywords (text : string) : JsMap.t Score :=
  fold_left (fun scores e =>
    match keywordMatches text e.2 with
    | [] => scores
    | ms => JsMap.set e.1 {| sc_score := keywordScore (length ms) e.2; sc_matches := nub ms |} scores
    end) CONTEXTUAL_PATTERNS [].

Definition boost (minScore : JsNum.t) (scores : JsMap.t Score) (id : string) : JsMap.t Score :=
  match JsMap.get id scores with
  | Some c => JsMap.set id {| sc_score := mul (sc_score c) (ofDecimal 13 1); sc_matches := sc_matches c |} scores
  | None => JsMap.set id {| sc_score := minScore; sc_matches := ["from-config"] |} scores
  end.

(** All scores, before they are ranked. *)
Definition contextualScores (text : string) (config : ProjectSpecialistsConfig) (minScore : JsNum.t) (phase : Phase)
    : JsMap.t Score :=
  fold_left (boost minScore) (nub (getActiveSpecialists config phase)) (scoreKeywords text).

Definition entryScore (e : string * Score) : JsNum.t := sc_score e.2.

Record ContextualMatch := { cm_specialist : string; cm_score : JsNum.t; cm_matchedKeywords : list string }.

(** [Math.round(x * 100) / 100] *)
Definition toHundredth (x : JsNum.t) : JsNum.t := div (ofZ (roundInt (mul x (ofZ 100)))) (ofZ 100).

Record ContextualOptions := { co_maxSpecialists : nat; co_minScore : JsNum.t; co_phase : Phase }.

Definition defaultOptions (phase : Phase) : ContextualOptions :=
  {| co_maxSpecialists := 5; co_minScore := ofDecimal 1 1; co_phase := phase |}.

(** The entries kept, best first, with their exact scores. *)
Definition chosenScores (text : string) (config : ProjectSpecialistsConfig) (o : ContextualOptions) : list (string * Score) :=
  take (co_maxSpecialists o)
    (sortDesc entryScore (base.filter (fun e => SFleb (co_minScore o) (sc_score e.2) = true)
      (contextualScores text config (co_minScore o) (co_phase o)))).

Definition getContextualSpecialists (text : string) (config : ProjectSpecialistsConfig) (o : ContextualOptions)
    : list ContextualMatch :=
  (fun e => {| cm_specialist := e.1; cm_score := toHundredth (sc_score e.2); cm_matchedKeywords := sc_matches e.2 |})
    <$> chosenScores text config o.

Definition buildContextualContext `{PromptTexts} (text : string) (config : ProjectSpecialistsConfig) (phase : Phase)
    : SpecialistContext * list ContextualMatch :=
  let matches := getContextualSpecialists text config (defaultOptions phase) in
  (contextOf config phase (nub ((cm_specialist <$> matches) ++ getActiveSpecialists config phase)), matches).

(** ** POST /specialists/contextual *)

Inductive ContextualReply :=
  | ContextualFound (ms : list ContextualMatch) (active : list string) (tier : Z) (guidelines : string)
  | ContextualRefused (code : Z) (error : string).

(** [configOf] reads the specialists of a project's settings; it may throw. The
    matches are those of the requested number, the context that of five. *)
Definition contextualRoute `{PromptTexts} (configOf : string -> outcome (option ProjectSpecialistsConfig))
    (taskContent projectId : option string) (maxSpecialists : option nat) (phase : option Phase) : ContextualReply :=
  match JsStr.orNull taskContent with
  | None => ContextualRefused 400 "taskContent is required"
  | Some text =>
      match match JsStr.orNull projectId with Some p => configOf p | None => Ok None end with
      | Throw _ => ContextualRefused 500 "Failed to get contextual specialists"
      | Ok c =>
          let config := default getDefaultConfig c in
          let ph := default PhDeveloper phase in
          let ms := getContextualSpecialists text config
            {| co_maxSpecialists := default 5 maxSpecialists; co_minScore := ofDecimal 1 1; co_phase := ph |} in
          let full := (buildContextualContext text config ph).1 in
          ContextualFound ms (sx_activeSpecialists full) (sx_recommendedModelTier full) (sx_stackGuidelines full)
      end
  end.

End Specialists.
