(* ===== verification/StackDetection.v ===== *)
(** * Detecting a stack (src/services/specialists/SpecialistManager.ts:
    detectStack, detectStackFromRepo, and the route of src/api/routes/projects.ts
    that calls it)

    The listing of a directory and the contents of its files are arguments, as
    are [JSON.parse], the clone and the creation of the temporary directory. *)

From S2P Require Import Prelude Json Regex ProjectRoutes Specialists.
From stdpp Require Import list options.

Module StackDetection.
Import Json ProjectRoutes Specialists.

(** What the detection works on: the stack so far and the other techniques. *)
Record Detection := {
  de_frontend : option string; de_backend : option string; de_database : option string; de_infrastructure : option string;
  de_tech : list string }.

Definition nothing : Detection :=
  {| de_frontend := None; de_backend := None; de_database := None; de_infrastructure := None; de_tech := [] |}.

Definition setFrontend (v : string) (d : Detection) : Detection :=
  {| de_frontend := Some v; de_backend := de_backend d; de_database := de_database d;
     de_infrastructure := de_infrastructure d; de_tech := de_tech d |}.
Definition setBackend (v : string) (d : Detection) : Detection :=
  {| de_frontend := de_frontend d; de_backend := Some v; de_database := de_database d;
     de_infrastructure := de_infrastructure d; de_tech := de_tech d |}.
Definition setDatabase (v : string) (d : Detection) : Detection :=
  {| de_frontend := de_frontend d; de_backend := de_backend d; de_database := Some v;
     de_infrastructure := de_infrastructure d; de_tech := de_tech d |}.
Definition setInfrastructure (v : string) (d : Detection) : Detection :=
  {| de_frontend := de_frontend d; de_backend := de_backend d; de_database := de_database d;
     de_infrastructure := Some v; de_tech := de_tech d |}.
Definition pushTech (v : string) (d : Detection) : Detection :=
  {| de_frontend := de_frontend d; de_backend := de_backend d; de_database := de_database d;
     de_infrastructure := de_infrastructure d; de_tech := de_tech d ++ [v] |}.

Definition when_ (b : bool) (f : Detection -> Detection) (d : Detection) : Detection := if b then f d else d.

(** ** package.json *)

(** A property of [{ ...pkg.dependencies, ...pkg.devDependencies }] is truthy. *)
Definition dependency (pkg : Json) (name : string) : bool :=
  let entry key := d ← field key pkg; field name d in
  match entry "devDependencies" with
  | Some v => truthy v
  | None => match entry "dependencies" with Some v => truthy v | None => false end
  end.

Definition anyOf (has : string -> bool) (names : list string) : bool := existsb has names.

Definition nodeFrontend (has : string -> bool) (d : Detection) : Detection :=
  if has "next" then setFrontend "nextjs" d
  else if has "@angular/core" then setFrontend "angular" d
  else if has "vue" then setFrontend "vue" d
  else if anyOf has ["svelte"; "@sveltejs/kit"] then setFrontend "svelte" d
  else if anyOf has ["react"; "react-dom"] then setFrontend "react" d
  else d.

(** The schema is read with a [catch] of its own, so a missing one is empty. *)
Definition prismaDatabase (schema : string) (d : Detection) : Detection :=
  if JsStr.includes "postgresql" schema || JsStr.includes "postgres" schema then setDatabase "postgresql" d
  else if JsStr.includes "mysql" schema then setDatabase "mysql" d
  else if JsStr.includes "mongodb" schema then setDatabase "mongodb" d
  else if JsStr.includes "sqlite" schema then setDatabase "sqlite" d
  else d.

Definition nodeDatabase (has : string -> bool) (schema : string) (d : Detection) : Detection :=
  let d1 :=
    if anyOf has ["pg"; "@prisma/client"; "drizzle-orm"; "typeorm"; "sequelize"; "knex"] then
      if anyOf has ["@prisma/client"; "prisma"] then prismaDatabase schema d
      else if anyOf has ["pg"; "postgres"] then setDatabase "postgresql" d
      else d
    else d in
  let d2 := when_ (anyOf has ["mongoose"; "mongodb"]) (setDatabase "mongodb") d1 in
  let d3 := when_ (anyOf has ["mysql"; "mysql2"]) (setDatabase "mysql") d2 in
  if anyOf has ["redis"; "ioredis"; "@upstash/redis"] then
    match de_database d3 with None => setDatabase "redis" d3 | Some _ => pushTech "Redis" d3 end
  else d3.

Definition nodeTech (has : string -> bool) (d : Detection) : Detection :=
  when_ (anyOf has ["jest"; "vitest"; "mocha"]) (pushTech "Testing")
  (when_ (anyOf has ["socket.io"; "ws"]) (pushTech "WebSockets")
  (when_ (has "graphql") (pushTech "GraphQL")
  (when_ (anyOf has ["@trpc/server"; "@trpc/client"]) (pushTech "tRPC")
  (when_ (has "tailwindcss") (pushTech "Tailwind CSS")
  (when_ (has "typescript") (pushTech "TypeScript") d))))).

Definition nodeServers : list string := ["express"; "fastify"; "koa"; "hono"; "@nestjs/core"; "@hapi/hapi"; "restify"].

Section detection.
Context (files : list string) (readFile : string -> outcome string) (parse : string -> outcome Json).

Definition listed (f : string) : bool := bool_decide (f ∈ files).
Definition listedAny (l : list string) : bool := existsb listed l.

Definition contentOr (f dflt : string) : string := match readFile f with Ok c => c | Throw _ => dflt end.

(** Reading, parsing and [null] throw before anything is recorded. *)
Definition packageJson (d : Detection) : Detection :=
  if listed "package.json" then
    match c ← match readFile "package.json" with Ok c => Some c | Throw _ => None end;
          match parse c with Ok JNull => None | Ok pkg => Some pkg | Throw _ => None end with
    | None => d
    | Some pkg =>
        let has := dependency pkg in
        nodeTech has (nodeDatabase has (contentOr "prisma/schema.prisma" EmptyString)
          (when_ (anyOf has nodeServers) (setBackend "nodejs") (nodeFrontend has d)))
    end
  else d.

(** ** The other languages *)

Definition pythonContent : option string :=
  if listed "requirements.txt" then match readFile "requirements.txt" with Ok c => Some c | Throw _ => None end
  else if listed "pyproject.toml" then match readFile "pyproject.toml" with Ok c => Some c | Throw _ => None end
  else Some EmptyString.

Definition pythonTech (content : string) (d : Detection) : Detection :=
  let has s := JsStr.includes s content in
  when_ (has "psycopg") (setDatabase "postgresql")
  (when_ (has "pymongo" || has "motor") (setDatabase "mongodb")
  (when_ (has "sqlalchemy") (fun d => setDatabase (default "postgresql" (de_database d)) d)
  (when_ (has "flask") (pushTech "Flask")
  (when_ (has "django") (pushTech "Django")
  (when_ (has "fastapi") (pushTech "FastAPI") d))))).

Definition pythonFiles : list string := ["requirements.txt"; "pyproject.toml"; "setup.py"; "Pipfile"].

Definition python (d : Detection) : Detection :=
  if listedAny pythonFiles then
    match pythonContent with Some c => pythonTech c (setBackend "python" d) | None => setBackend "python" d end
  else d.

Definition go (d : Detection) : Detection :=
  if listed "go.mod" then
    match readFile "go.mod" with
    | Ok c => when_ (JsStr.includes "fiber" c) (pushTech "Fiber") (when_ (JsStr.includes "echo" c) (pushTech "Echo")
                (when_ (JsStr.includes "gin-gonic" c) (pushTech "Gin") (setBackend "go" d)))
    | Throw _ => setBackend "go" d
    end
  else d.

Definition java (d : Detection) : Detection :=
  when_ (listedAny ["pom.xml"; "build.gradle"; "build.gradle.kts"]) (fun d => pushTech "Spring Boot" (setBackend "java" d)) d.

Definition rust (d : Detection) : Detection := when_ (listed "Cargo.toml") (setBackend "rust") d.

(** A pubspec of a Flutter project. *)
Definition isFlutter (c : string) : bool := JsStr.includes "flutter:" c || JsStr.includes "sdk: flutter" c.

Definition pubspec (d : Detection) : Detection :=
  if listed "pubspec.yaml" then
    match readFile "pubspec.yaml" with
    | Ok c =>
        if isFlutter c then
          when_ (JsStr.includes "provider:" c) (pushTech "Provider") (when_ (JsStr.includes "flutter_bloc" c) (pushTech "Bloc")
            (when_ (JsStr.includes "riverpod" c) (pushTech "Riverpod") (pushTech "Flutter" (setFrontend "flutter" d))))
        else pushTech "Dart" (setBackend "dart" d)
    | Throw _ => setFrontend "flutter" d
    end
  else d.

Definition dotnetProject : bool :=
  existsb (JsStr.endsWith ".csproj") files || existsb (JsStr.endsWith ".fsproj") files || listed "global.json".

Definition dotnet (d : Detection) : Detection := when_ dotnetProject (setBackend "dotnet") d.

(** ** Infrastructure *)

Definition dockerFiles : list string :=
  ["Dockerfile"; "dockerfile"; "docker-compose.yml"; "docker-compose.yaml"; "compose.yml"; "compose.yaml"].
Definition k8sDirs : list string := ["k8s"; "kubernetes"; "helm"; "charts"].
Definition awsFiles : list string := ["serverless.yml"; "serverless.yaml"; "sam.yaml"; "template.yaml"; "cdk.json"].

Definition infrastructure (d : Detection) : Detection :=
  when_ (listedAny awsFiles) (setInfrastructure "aws")
  (when_ (listed "vercel.json") (setInfrastructure "vercel")
  (when_ (listedAny k8sDirs) (setInfrastructure "kubernetes")
  (when_ (listedAny dockerFiles) (setInfrastructure "docker") d))).

Definition asStack (d : Detection) : DetectedStack :=
  {| st_frontend := de_frontend d; st_backend := de_backend d; st_database := de_database d;
     st_infrastructure := de_infrastructure d;
     st_additionalTech := match de_tech d with [] => None | l => Some (nub l) end |}.

Definition detectStack : DetectedStack :=
  asStack (infrastructure (dotnet (pubspec (rust (java (go (python (packageJson nothing)))))))).

End detection.

(** ** From a repository *)

Inductive Call := Clone (command cwd : string) | Remove (dir : string).

(** The files a clone leaves in the temporary directory. *)
Record Checkout := { ck_files : list string; ck_readFile : string -> outcome string }.

Section repository.
Context (parse : string -> outcome Json).
Context (mkdtemp : outcome string) (clone : string -> outcome Checkout).

Definition cloneCommand (repoUrl branch : string) : string :=
  "git clone --depth 1 --single-branch --branch " +:+ branch +:+ " " +:+ repoUrl +:+ " .".

(** The result, and the commands and removals on the way. *)
Definition detectStackFromRepo (repoUrl branch : string) : outcome DetectedStack * list Call :=
  match mkdtemp with
  | Throw e => (Throw e, [])
  | Ok dir =>
      (Ok (match clone (cloneCommand repoUrl branch) with
           | Ok c => detectStack (ck_files c) (ck_readFile c) parse
           | Throw _ => noStack
           end),
       [Clone (cloneCommand repoUrl branch) dir; Remove dir])
  end.

(** ** POST /detect-stack *)

Definition githubUrlPattern : Regex.literal := Regex.cs "^https?:\/\/(www\.)?github\.com\/[\w-]+\/[\w.-]+".

Inductive StackReply :=
  | StackFound (stack : DetectedStack) (specialists : list string) (summary : string)
  | StackRefused (code : Z) (error : string).

Definition detectStackRoute (repoUrl branch : option string) : StackReply * list Call :=
  match JsStr.orNull repoUrl with
  | None => (StackRefused 400 "Repository URL is required", [])
  | Some url =>
      if negb (Regex.litTest githubUrlPattern url) then (StackRefused 400 "Invalid GitHub repository URL", [])
      else
        match detectStackFromRepo url (default "main" branch) with
        | (Ok s, calls) =>
            (StackFound s
               (getActiveSpecialists {| pc_stack := s; pc_standard := allStandard; pc_domainSpecialists := Some [] |} PhDeveloper)
               (buildStackSummary s), calls)
        | (Throw _, calls) => (StackRefused 500 "Failed to detect stack", calls)
        end
  end.

End repository.
End StackDetection.
