(* ===== verification/SpecialistsProofs.v ===== *)
(** * Specialists: which ones a prompt is written for, and in which order *)

From S2P Require Import Prelude JsNumber Json Regex TaskRoutes ProjectRoutes Specialists StackDetection.
From Stdlib Require Import SpecFloat Sorted.
From stdpp Require Import list sorting options.
Import JsNum ProjectRoutes Specialists.

Module SpecialistSpec.
Import NumberOrder.

(** ** Lists without repetitions *)

Lemma nub_from (l acc : list string) x :
  let go := fold_left (fun acc x => if decide (x ∈ acc) then acc else acc ++ [x]) l acc in
  (x ∈ go <-> x ∈ acc \/ x ∈ l) /\ (NoDup acc -> NoDup go) /\ exists rest, go = acc ++ rest.
Proof.
  cbv zeta. revert acc. induction l as [|y l IH]; intros acc; cbn [fold_left].
  { split_and!; [set_solver|done|by exists []; rewrite app_nil_r]. }
  destruct (decide (y ∈ acc)) as [Hy|Hy].
  - destruct (IH acc) as (-> & Hn & Hr). split_and!; [set_solver|done|done].
  - destruct (IH (acc ++ [y])) as (-> & Hn & rest & Hr). split_and!; [set_solver| |].
    + intros Ha. apply Hn, NoDup_app. split_and!; [done|set_solver|apply NoDup_singleton].
    + exists (y :: rest). by rewrite Hr, <- app_assoc.
Qed.

Lemma nub_elem l x : x ∈ nub l <-> x ∈ l.
Proof. destruct (nub_from l [] x) as [H _]. unfold nub. rewrite H. set_solver. Qed.

Lemma nub_nodup l : NoDup (nub l).
Proof. destruct (nub_from l [] EmptyString) as (_ & H & _). apply H. constructor. Qed.

Lemma nub_prefix l k : NoDup l -> exists rest, nub (l ++ k) = l ++ rest.
Proof.
  intros Hl. unfold nub. rewrite fold_left_app. destruct (nub_from k (nub l) EmptyString) as (_ & _ & rest & Hr).
  exists rest. etrans; [exact Hr|]. f_equal. clear Hr.
  enough (forall acc : list string, NoDup (acc ++ l) ->
    fold_left (fun acc x => if decide (x ∈ acc) then acc else acc ++ [x]) l acc = acc ++ l) as H by (by apply (H [])).
  clear Hl. induction l as [|y l IH]; intros acc Hn; cbn [fold_left]; [by rewrite app_nil_r|].
  rewrite decide_False by (apply NoDup_app in Hn as (_ & Hd & _); set_solver).
  rewrite IH by (by rewrite <- app_assoc). by rewrite <- app_assoc.
Qed.

(** ** Ranking *)

Lemma prefix_nodup {A} (l k : list A) : NoDup (l ++ k) -> NoDup l.
Proof. by intros [? _]%NoDup_app. Qed.

(** ** Scores *)

(** The score the words of a task give to a specialist. *)
Definition wordScore (text id : string) : option Score :=
  p ← JsMap.get id CONTEXTUAL_PATTERNS;
  match keywordMatches text p with
  | [] => None
  | ms => Some {| sc_score := keywordScore (length ms) p; sc_matches := nub ms |}
  end.

(** And the one it has in the end. *)
Definition finalScore (text : string) (minScore : JsNum.t) (configured : bool) (id : string) : option Score :=
  match wordScore text id, configured with
  | Some s, true => Some {| sc_score := mul (sc_score s) (ofDecimal 13 1); sc_matches := sc_matches s |}
  | Some s, false => Some s
  | None, true => Some {| sc_score := minScore; sc_matches := ["from-config"] |}
  | None, false => None
  end.

Lemma scoreKeywords_from text l acc id :
  JsMap.wf l -> JsMap.wf acc ->
  let go := fold_left (fun scores e =>
    match keywordMatches text e.2 with
    | [] => scores
    | ms => JsMap.set e.1 {| sc_score := keywordScore (length ms) e.2; sc_matches := nub ms |} scores
    end) l acc in
  JsMap.wf go
  /\ JsMap.get id go =
     match p ← JsMap.get id l; match keywordMatches text p with
                               | [] => None
                               | ms => Some {| sc_score := keywordScore (length ms) p; sc_matches := nub ms |}
                               end with
     | Some s => Some s
     | None => JsMap.get id acc
     end.
Proof.
  cbv zeta. revert acc. induction l as [|[k p] l IH]; intros acc Hl Ha; cbn [fold_left]; [done|].
  apply NoDup_cons in Hl as [Hk Hl]. apply JsMap.get_None_keys in Hk. cbn [fst snd] in *.
  destruct (keywordMatches text p) as [|m ms] eqn:E.
  - destruct (IH acc Hl Ha) as [Hw ->]. split; [done|]. cbn [JsMap.get]. case_decide as Hid; [|done].
    subst. rewrite Hk. cbn. by rewrite E.
  - match goal with |- context [fold_left _ l ?a] => destruct (IH a Hl ltac:(by apply JsMap.wf_set)) as [Hw ->] end.
    split; [done|]. cbn [JsMap.get]. case_decide as Hid.
    + subst. rewrite Hk. cbn [mbind option_bind]. rewrite E. apply JsMap.get_set_eq.
    + by rewrite JsMap.get_set_ne.
Qed.

Lemma patterns_wf : JsMap.wf CONTEXTUAL_PATTERNS.
Proof. apply (bool_decide_unpack _). vm_compute. exact I. Qed.

Lemma boost_from minScore ids scores id :
  NoDup ids -> JsMap.wf scores ->
  JsMap.wf (fold_left (boost minScore) ids scores)
  /\ JsMap.get id (fold_left (boost minScore) ids scores) =
     if decide (id ∈ ids) then
       match JsMap.get id scores with
       | Some s => Some {| sc_score := mul (sc_score s) (ofDecimal 13 1); sc_matches := sc_matches s |}
       | None => Some {| sc_score := minScore; sc_matches := ["from-config"] |}
       end
     else JsMap.get id scores.
Proof.
  revert scores. induction ids as [|k ids IH]; intros scores Hn Hw; cbn [fold_left].
  { by rewrite decide_False by apply not_elem_of_nil. }
  apply NoDup_cons in Hn as [Hk Hn].
  assert (JsMap.wf (boost minScore scores k)) as Hb by (unfold boost; destruct (JsMap.get k scores); by apply JsMap.wf_set).
  destruct (IH _ Hn Hb) as [Hg ->]. split; [done|]. destruct (decide (id = k)) as [->|Hne].
  - rewrite decide_False, decide_True by (done || by left). unfold boost.
    by destruct (JsMap.get k scores); rewrite JsMap.get_set_eq.
  - assert (JsMap.get id (boost minScore scores k) = JsMap.get id scores) as ->.
    { unfold boost. destruct (JsMap.get k scores); by apply JsMap.get_set_ne. }
    destruct (decide (id ∈ ids)); [rewrite decide_True by (by right)|rewrite decide_False by (by intros [|]%elem_of_cons)]; done.
Qed.

Lemma contextualScores_get text config minScore phase id :
  JsMap.wf (contextualScores text config minScore phase)
  /\ JsMap.get id (contextualScores text config minScore phase)
     = finalScore text minScore (bool_decide (id ∈ getActiveSpecialists config phase)) id.
Proof.
  unfold contextualScores, scoreKeywords.
  destruct (scoreKeywords_from text CONTEXTUAL_PATTERNS [] id patterns_wf ltac:(constructor)) as [Hw Hg].
  cbv zeta in Hw, Hg. destruct (boost_from minScore (nub (getActiveSpecialists config phase)) _ id (nub_nodup _) Hw) as [Hf ->].
  split; [done|]. rewrite Hg. unfold finalScore, wordScore. cbn [JsMap.get].
  destruct (JsMap.get id CONTEXTUAL_PATTERNS) as [p|]; cbn [mbind option_bind]; [destruct (keywordMatches text p)|].
  all: destruct (decide (id ∈ nub _)) as [H|H]; rewrite nub_elem in H;
    [rewrite bool_decide_true by done|rewrite bool_decide_false by done]; done.
Qed.

#[local] Opaque contextualScores CONTEXTUAL_PATTERNS.

Section chosen.
Variables (text : string) (config : ProjectSpecialistsConfig) (o : ContextualOptions).

Definition scoreOf (id : string) : option Score :=
  finalScore text (co_minScore o) (bool_decide (id ∈ getActiveSpecialists config (co_phase o))) id.

Definition eligible : list (string * Score) :=
  base.filter (fun e => SFleb (co_minScore o) (sc_score e.2) = true) (contextualScores text config (co_minScore o) (co_phase o)).

Lemma chosen_split : eligible ≡ₚ chosenScores text config o ++ drop (co_maxSpecialists o) (sortDesc entryScore eligible).
Proof. unfold chosenScores. fold eligible. by rewrite take_drop, sortDesc_perm. Qed.

Lemma eligible_spec id s : (id, s) ∈ eligible <-> scoreOf id = Some s /\ SFleb (co_minScore o) (sc_score s) = true.
Proof.
  destruct (contextualScores_get text config (co_minScore o) (co_phase o) id) as [Hw Hg].
  unfold eligible, scoreOf. rewrite list_elem_of_filter, <- Hg, JsMap.get_Some_iff by exact Hw. cbn [snd]. tauto.
Qed.

Lemma eligible_numbered : numbered entryScore eligible.
Proof. apply list.Forall_forall. intros [id s] [_ H]%eligible_spec. by apply leb_number in H as [_ H]. Qed.

Lemma chosen_nodup : NoDup (chosenScores text config o).*1.
Proof.
  eapply prefix_nodup. rewrite <- fmap_app, <- chosen_split. unfold eligible. apply JsMap.wf_filter.
  apply (contextualScores_get _ _ _ _ EmptyString).
Qed.

Lemma chosen_elem id s : (id, s) ∈ chosenScores text config o -> scoreOf id = Some s /\ SFleb (co_minScore o) (sc_score s) = true.
Proof. intros H. apply eligible_spec. rewrite chosen_split. apply elem_of_app. by left. Qed.

Lemma chosen_complete id s :
  scoreOf id = Some s -> SFleb (co_minScore o) (sc_score s) = true ->
  (id, s) ∈ chosenScores text config o
  \/ length (chosenScores text config o) = co_maxSpecialists o
     /\ Forall (fun e => SFleb (sc_score s) (sc_score e.2) = true) (chosenScores text config o).
Proof.
  intros Hs Hm. pose proof (proj2 (eligible_spec id s) (conj Hs Hm)) as Hin. rewrite chosen_split in Hin.
  apply elem_of_app in Hin as [Hin|Hin]; [by left|right]. unfold chosenScores. fold eligible. split.
  - rewrite length_take. destruct (decide (length (sortDesc entryScore eligible) <= co_maxSpecialists o)) as [Hle|Hle]; [|lia].
    rewrite drop_ge in Hin by done. by apply not_elem_of_nil in Hin.
  - apply list.Forall_forall. intros e He. exact (sortDesc_take entryScore _ eligible e (id, s) eligible_numbered He Hin).
Qed.

(** C38: The specialists chosen for a task are the best ones, best first: each
    is listed once and with the score its words and the configuration give it,
    none is below the least score, and one that reaches it is missing only
    when the list is full of others that score at least as much. *)
Theorem contextual_specialists_ranked :
  let best := chosenScores text config o in
  length best <= co_maxSpecialists o /\ NoDup best.*1
  /\ StronglySorted (fun a b => SFleb (sc_score b.2) (sc_score a.2) = true) best
  /\ (forall id s, (id, s) ∈ best -> scoreOf id = Some s /\ SFleb (co_minScore o) (sc_score s) = true)
  /\ (forall id s, scoreOf id = Some s -> SFleb (co_minScore o) (sc_score s) = true ->
      (id, s) ∈ best
      \/ length best = co_maxSpecialists o /\ Forall (fun e => SFleb (sc_score s) (sc_score e.2) = true) best).
Proof.
  cbv zeta. split_and!; [|apply chosen_nodup| |apply chosen_elem|apply chosen_complete].
  - unfold chosenScores. rewrite length_take. lia.
  - apply (prefix_sorted entryScore _ (drop (co_maxSpecialists o) (sortDesc entryScore eligible))). unfold chosenScores. fold eligible.
    rewrite take_drop. apply sortDesc_sorted, eligible_numbered.
Qed.

End chosen.

(** ** The context of a prompt *)

Definition tierOf (id : string) : option Z := getSpecialist id ≫= sd_modelTier.

(** The best tier of a list, at most [start]. *)
Definition leastTier (start : Z) (ids : list string) (t : Z) : Prop :=
  (t <= start)%Z /\ (forall id u, id ∈ ids -> tierOf id = Some u -> (t <= u)%Z)
  /\ (t = start \/ exists id, id ∈ ids /\ tierOf id = Some t).

Lemma addSpecialist_tier `{PromptTexts} phase acc id :
  (addSpecialist phase acc id).2 = match tierOf id with Some u => if (u <? acc.2)%Z then u else acc.2 | None => acc.2 end.
Proof. destruct acc as [[ps ins] t]. unfold addSpecialist, tierOf. by destruct (getSpecialist id) as [d|]. Qed.

Lemma tier_from `{PromptTexts} phase ids acc : leastTier acc.2 ids (fold_left (addSpecialist phase) ids acc).2.
Proof.
  revert acc. induction ids as [|id ids IH]; intros acc; cbn [fold_left].
  { split_and!; [lia|by intros ? ? ?%not_elem_of_nil|by left]. }
  destruct (IH (addSpecialist phase acc id)) as (H1 & H2 & H3).
  rewrite addSpecialist_tier in H1, H3. split_and!.
  - destruct (tierOf id) as [u|]; [destruct (Z.ltb_spec u acc.2)|]; lia.
  - intros x u [->|Hx]%elem_of_cons Hu; [|eauto]. rewrite Hu in H1. destruct (Z.ltb_spec u acc.2); lia.
  - destruct H3 as [H3|(x & Hx & Hu)]; [|right; exists x; split; [by right|done]].
    destruct (tierOf id) as [u|] eqn:Eu; [|by left]. destruct (u <? acc.2)%Z; [|by left].
    right. exists id. split; [by left|]. by rewrite H3, Eu.
Qed.

Lemma contextOf_tier `{PromptTexts} config phase ids : leastTier 3 ids (sx_recommendedModelTier (contextOf config phase ids)).
Proof.
  pose proof (tier_from phase ids ([], [], 3%Z)) as H1. unfold contextOf.
  destruct (fold_left _ ids _) as [[ps ins] t]. exact H1.
Qed.

Lemma contextOf_active `{PromptTexts} config phase ids : sx_activeSpecialists (contextOf config phase ids) = ids.
Proof. unfold contextOf. by destruct (fold_left _ ids _) as [[ps ins] t]. Qed.

(** ** Facts of the tables, by evaluation *)

#[local] Transparent CONTEXTUAL_PATTERNS.

Lemma patterns_registered : Forall (fun k => is_Some (getSpecialist k)) (JsMap.keys CONTEXTUAL_PATTERNS).
Proof. apply (bool_decide_unpack _). vm_compute. exact I. Qed.

Lemma patterns_parse : Forall (fun p => Forall (fun l => Regex.parses l = true) (cp_keywords p)) (JsMap.values CONTEXTUAL_PATTERNS).
Proof. apply (bool_decide_unpack _). vm_compute. exact I. Qed.

Lemma tiers_positive : Forall (fun d => (1 <= default 1 (sd_modelTier d))%Z) getAllSpecialists.
Proof. apply (bool_decide_unpack _). vm_compute. exact I. Qed.

(** One word is enough for a configured specialist to reach the least score. *)
Lemma boosted_reaches :
  Forall (fun p => Forall (fun n => SFleb (ofDecimal 1 1) (mul (keywordScore n p) (ofDecimal 13 1)) = true)
    (seq 1 (length (cp_keywords p)))) (JsMap.values CONTEXTUAL_PATTERNS).
Proof. apply (bool_decide_unpack _). vm_compute. exact I. Qed.

#[local] Opaque CONTEXTUAL_PATTERNS.

Lemma length_omap_le {A C} (f : A -> option C) l : length (omap f l) <= length l.
Proof. induction l as [|x l IH]; cbn; [done|]. destruct (f x); cbn; lia. Qed.

Lemma configured_reaches text id :
  exists s, finalScore text (ofDecimal 1 1) true id = Some s /\ SFleb (ofDecimal 1 1) (sc_score s) = true.
Proof.
  unfold finalScore, wordScore. destruct (JsMap.get id CONTEXTUAL_PATTERNS) as [p|] eqn:Ep; cbn [mbind option_bind]; [|by eexists].
  destruct (keywordMatches text p) as [|m ms] eqn:Em; [by eexists|]. eexists. split; [done|]. cbn [sc_score].
  apply JsMap.get_Some_values in Ep. pose proof boosted_reaches as Hb. rewrite list.Forall_forall in Hb.
  specialize (Hb p Ep). rewrite list.Forall_forall in Hb. apply Hb, elem_of_seq. rewrite <- Em.
  split; [rewrite Em; cbn; lia|]. pose proof (length_omap_le (fun r => Regex.litMatch r text) (cp_keywords p)).
  unfold keywordMatches. lia.
Qed.

Lemma active_registered config phase id : id ∈ getActiveSpecialists config phase -> is_Some (getSpecialist id).
Proof.
  intros [H _]%list_elem_of_filter. unfold applies in H. destruct (getSpecialist id); [by eexists|done].
Qed.

Lemma scored_registered text m config phase id s :
  finalScore text m (bool_decide (id ∈ getActiveSpecialists config phase)) id = Some s -> is_Some (getSpecialist id).
Proof.
  unfold finalScore, wordScore. destruct (JsMap.get id CONTEXTUAL_PATTERNS) as [p|] eqn:Ep.
  - intros _. pose proof patterns_registered as Hr. rewrite list.Forall_forall in Hr. apply Hr.
    apply JsMap.get_Some_elem in Ep. apply list_elem_of_fmap. by exists (id, p).
  - cbn [mbind option_bind]. case_bool_decide as Ha; [|done]. intros _. exact (active_registered _ _ _ Ha).
Qed.

Lemma matches_ids text config o : cm_specialist <$> getContextualSpecialists text config o = (chosenScores text config o).*1.
Proof. unfold getContextualSpecialists. by rewrite <- list_fmap_compose. Qed.

(** The context of a prompt: the specialists found by the words of the
    task come first, then the rest of the configured ones, none twice and all
    of them in the registry; a configured specialist is among the first unless
    five others are; and the recommended model is the best one any of them
    asks for. *)
Theorem contextual_context_complete `{PromptTexts} text config phase :
  let '(c, ms) := buildContextualContext text config phase in
  let active := sx_activeSpecialists c in
  NoDup active /\ (exists rest, active = (cm_specialist <$> ms) ++ rest)
  /\ (forall id, id ∈ active -> is_Some (getSpecialist id))
  /\ (forall id, id ∈ getActiveSpecialists config phase -> id ∈ active /\ (id ∈ (cm_specialist <$> ms) \/ length ms = 5))
  /\ leastTier 3 active (sx_recommendedModelTier c).
Proof.
  unfold buildContextualContext. cbv zeta. rewrite contextOf_active, matches_ids.
  set (o := defaultOptions phase). pose proof (chosen_nodup text config o) as Hn. split_and!.
  - apply nub_nodup.
  - by apply nub_prefix.
  - intros id [H1|H1]%nub_elem%elem_of_app; [|by eapply active_registered].
    apply list_elem_of_fmap in H1 as ([k s] & -> & Hs). apply chosen_elem in Hs as [Hs _]. by eapply scored_registered.
  - intros id Hid. split; [apply nub_elem, elem_of_app; by right|].
    destruct (configured_reaches text id) as (s & Hs & Hm).
    destruct (chosen_complete text config o id s) as [Hin|[Hl _]]; [|done|..].
    + unfold scoreOf. cbn [o defaultOptions co_minScore co_phase]. by rewrite bool_decide_true.
    + left. apply list_elem_of_fmap. by exists (id, s).
    + right. unfold getContextualSpecialists. by rewrite length_fmap.
  - apply contextOf_tier.
Qed.

Lemma tier_positive id t : tierOf id = Some t -> (1 <= t)%Z.
Proof.
  intros (d & Hd & Hdt)%bind_Some. pose proof tiers_positive as Hp. rewrite list.Forall_forall in Hp.
  apply JsMap.get_Some_values in Hd. specialize (Hp d Hd). by rewrite Hdt in Hp.
Qed.

Lemma decomposition_active config phase :
  taskDecomposition (pc_standard config) = true -> "task-decomposition" ∈ getActiveSpecialists config phase.
Proof.
  intros Ht. apply list_elem_of_filter. split; [by vm_compute|]. apply elem_of_app. left. apply list_elem_of_fmap.
  exists (taskDecomposition, "task-decomposition"). split; [done|]. apply list_elem_of_filter. split; [done|]. by right; left.
Qed.

(** With the decomposition of tasks switched on, as it is by default, the best
    tier is recommended whatever the task is. *)
Lemma default_tier_constant `{PromptTexts} text config phase :
  taskDecomposition (pc_standard config) = true ->
  sx_recommendedModelTier (buildContextualContext text config phase).1 = 1%Z.
Proof.
  intros Ht. unfold buildContextualContext. cbv zeta. cbn [fst].
  match goal with |- context [contextOf config phase ?ids] => destruct (contextOf_tier config phase ids) as (H1 & H2 & H3) end.
  match goal with |- ?x = _ => remember x as t eqn:Et end. clear Et.
  assert (t <= 1)%Z.
  { apply (H2 "task-decomposition"); [|by vm_compute]. apply nub_elem, elem_of_app. right. by apply decomposition_active. }
  destruct H3 as [H3|(id & _ & Hid)]; [lia|]. apply tier_positive in Hid. lia.
Qed.

End SpecialistSpec.

(** ** Detection of a stack *)

Module StackSpec.
Import Json StackDetection.

Section detection.
Context (files : list string) (readFile : string -> outcome string) (parse : string -> outcome Json).
#[local] Set Default Proof Using "Type".

(** A file that says the project is written in Dart without Flutter. *)
Definition pureDart : bool :=
  listed files "pubspec.yaml" && match readFile "pubspec.yaml" with Ok c => negb (isFlutter c) | Throw _ => false end.

(** The package of the project, when it can be read. *)
Definition package : option Json :=
  if listed files "package.json" then
    match readFile "package.json" with
    | Ok c => match parse c with Ok JNull | Throw _ => None | Ok pkg => Some pkg end
    | Throw _ => None
    end
  else None.

Ltac detect := repeat (case_match; cbn in *; try done).

Lemma backend_dotnet d : de_backend (dotnet files d) = if dotnetProject files then Some "dotnet" else de_backend d.
Proof. unfold dotnet, when_. detect. Qed.

Lemma backend_pubspec d : de_backend (pubspec files readFile d) = if pureDart then Some "dart" else de_backend d.
Proof.
  unfold pubspec, pureDart, when_. destruct (listed files "pubspec.yaml"); [|done].
  destruct (readFile "pubspec.yaml") as [c|e]; [|done]. cbn [andb]. destruct (isFlutter c); [|done]. detect.
Qed.

Lemma backend_rust d : de_backend (rust files d) = if listed files "Cargo.toml" then Some "rust" else de_backend d.
Proof. unfold rust, when_. detect. Qed.

Lemma backend_java d :
  de_backend (java files d) = if listedAny files ["pom.xml"; "build.gradle"; "build.gradle.kts"] then Some "java" else de_backend d.
Proof. unfold java, when_. destruct (listedAny _ _); done. Qed.

Lemma backend_go d : de_backend (go files readFile d) = if listed files "go.mod" then Some "go" else de_backend d.
Proof. unfold go, when_. destruct (listed files "go.mod"); [|done]. destruct (readFile "go.mod"); [|done]. detect. Qed.

Lemma pythonTech_keeps c d : de_backend (pythonTech c d) = de_backend d /\ de_frontend (pythonTech c d) = de_frontend d
  /\ de_infrastructure (pythonTech c d) = de_infrastructure d.
Proof. unfold pythonTech, when_. repeat (destruct (JsStr.includes _ c); cbn); done. Qed.

Lemma backend_python d : de_backend (python files readFile d) = if listedAny files pythonFiles then Some "python" else de_backend d.
Proof.
  unfold python. destruct (listedAny files pythonFiles); [|done]. destruct (pythonContent _ _); [|done].
  by rewrite (proj1 (pythonTech_keeps _ _)).
Qed.

(** The database and the other techniques are found without touching the
    rest. *)
Definition sameSides (d d' : Detection) : Prop :=
  de_backend d' = de_backend d /\ de_frontend d' = de_frontend d /\ de_infrastructure d' = de_infrastructure d.

Lemma nodeDatabase_keeps has schema d : sameSides d (nodeDatabase has schema d).
Proof.
  unfold nodeDatabase, prismaDatabase, when_, sameSides. cbv zeta.
  destruct (anyOf has ["pg"; _; _; _; _; _]); [destruct (anyOf has ["@prisma/client"; _]);
    [destruct (_ || _); [|destruct (JsStr.includes "mysql" _); [|destruct (JsStr.includes "mongodb" _); [|destruct (JsStr.includes "sqlite" _)]]]
    |destruct (anyOf has ["pg"; _])]|].
  all: destruct (anyOf has ["mongoose"; _]), (anyOf has ["mysql"; _]), (anyOf has ["redis"; _; _]); cbn; try done.
  all: by destruct (de_database d).
Qed.

Lemma nodeTech_keeps has d : sameSides d (nodeTech has d).
Proof.
  unfold nodeTech, when_, sameSides.
  destruct (has "typescript"), (has "tailwindcss"), (anyOf has ["@trpc/server"; _]), (has "graphql"), (anyOf has ["socket.io"; _]),
    (anyOf has ["jest"; _; _]); done.
Qed.

(** The frontend of a package. *)
Definition packageFrontend (has : string -> bool) : option string :=
  if has "next" then Some "nextjs" else if has "@angular/core" then Some "angular" else if has "vue" then Some "vue"
  else if anyOf has ["svelte"; "@sveltejs/kit"] then Some "svelte" else if anyOf has ["react"; "react-dom"] then Some "react"
  else None.

Lemma node_sides :
  let d := packageJson files readFile parse nothing in
  de_backend d = match package with Some pkg => if anyOf (dependency pkg) nodeServers then Some "nodejs" else None | None => None end
  /\ de_frontend d = match package with Some pkg => packageFrontend (dependency pkg) | None => None end
  /\ de_infrastructure d = None.
Proof.
  cbv zeta. unfold packageJson, package. destruct (listed files "package.json"); [|done].
  destruct (readFile "package.json") as [c|]; [|done]. cbn [mbind option_bind].
  destruct (parse c) as [[]|]; try done.
  all: match goal with |- context [nodeTech ?h ?d] => destruct (nodeTech_keeps h d) as (-> & -> & ->) end.
  all: match goal with |- context [nodeDatabase ?h ?x ?d] => destruct (nodeDatabase_keeps h x d) as (-> & -> & ->) end.
  all: unfold when_, nodeFrontend, packageFrontend.
  all: match goal with |- context [anyOf ?h nodeServers] => destruct (anyOf h nodeServers) end.
  all: repeat case_match; done.
Qed.

(** ** Sides other than the backend *)

Definition flutterProject : bool :=
  listed files "pubspec.yaml" && match readFile "pubspec.yaml" with Ok c => isFlutter c | Throw _ => true end.

Lemma frontend_pubspec d : de_frontend (pubspec files readFile d) = if flutterProject then Some "flutter" else de_frontend d.
Proof.
  unfold pubspec, flutterProject, when_. destruct (listed files "pubspec.yaml"); [|done].
  destruct (readFile "pubspec.yaml") as [c|e]; [|done]. cbn [andb]. destruct (isFlutter c); [|done]. detect.
Qed.

Lemma frontend_others d :
  de_frontend (rust files (java files (go files readFile (python files readFile d)))) = de_frontend d.
Proof.
  unfold rust, java, go, python, when_.
  destruct (listed files "Cargo.toml"), (listedAny files ["pom.xml"; _; _]), (listed files "go.mod"),
    (listedAny files pythonFiles), (pythonContent files readFile); cbn; try done.
  all: try (destruct (readFile "go.mod"); cbn; [repeat (destruct (JsStr.includes _ _); cbn)|]).
  all: by rewrite ?(proj1 (proj2 (pythonTech_keeps _ _))).
Qed.

Lemma infrastructure_others d :
  de_infrastructure (dotnet files (pubspec files readFile (rust files (java files (go files readFile (python files readFile d))))))
  = de_infrastructure d.
Proof.
  assert (Hp : forall d, de_infrastructure (pubspec files readFile d) = de_infrastructure d).
  { intros d0. unfold pubspec, when_. destruct (listed files "pubspec.yaml"); [|done].
    destruct (readFile "pubspec.yaml") as [c|]; [|done]. repeat case_match; done. }
  unfold dotnet, when_. destruct (dotnetProject files); cbn; rewrite Hp.
  all: unfold rust, java, go, python, when_.
  all: destruct (listed files "Cargo.toml"), (listedAny files ["pom.xml"; _; _]), (listed files "go.mod"),
    (listedAny files pythonFiles), (pythonContent files readFile); cbn; try done.
  all: try (destruct (readFile "go.mod"); cbn; [repeat (destruct (JsStr.includes _ _); cbn)|]).
  all: by rewrite ?(proj2 (proj2 (pythonTech_keeps _ _))).
Qed.

Lemma infrastructure_keeps d : de_backend (infrastructure files d) = de_backend d /\ de_frontend (infrastructure files d) = de_frontend d.
Proof. unfold infrastructure, when_. by repeat case_match. Qed.

Lemma dotnet_frontend d : de_frontend (dotnet files d) = de_frontend d.
Proof. unfold dotnet, when_. by case_match. Qed.

(** The stack by precedence: what the sequence of checks computes. *)
Definition backendByPrecedence : option string :=
  if dotnetProject files then Some "dotnet" else if pureDart then Some "dart" else if listed files "Cargo.toml" then Some "rust"
  else if listedAny files ["pom.xml"; "build.gradle"; "build.gradle.kts"] then Some "java"
  else if listed files "go.mod" then Some "go" else if listedAny files pythonFiles then Some "python"
  else match package with Some pkg => if anyOf (dependency pkg) nodeServers then Some "nodejs" else None | None => None end.

Definition frontendByPrecedence : option string :=
  if flutterProject then Some "flutter" else match package with Some pkg => packageFrontend (dependency pkg) | None => None end.

Definition infrastructureByPrecedence : option string :=
  if listedAny files awsFiles then Some "aws" else if listed files "vercel.json" then Some "vercel"
  else if listedAny files k8sDirs then Some "kubernetes" else if listedAny files dockerFiles then Some "docker" else None.

Lemma detectStack_sides :
  let s := detectStack files readFile parse in
  st_backend s = backendByPrecedence /\ st_frontend s = frontendByPrecedence /\ st_infrastructure s = infrastructureByPrecedence.
Proof.
  cbv zeta. unfold detectStack, asStack. cbn [st_backend st_frontend st_infrastructure].
  destruct node_sides as (Hb & Hf & Hi). rewrite (proj1 (infrastructure_keeps _)), (proj2 (infrastructure_keeps _)).
  rewrite backend_dotnet, backend_pubspec, backend_rust, backend_java, backend_go, backend_python, Hb.
  rewrite dotnet_frontend, frontend_pubspec, frontend_others, Hf. split_and!; [done..|].
  unfold infrastructure, when_, infrastructureByPrecedence.
  by repeat case_match; cbn; rewrite ?infrastructure_others, ?Hi.
Qed.

End detection.

(** A name with a specialist that works in every phase. *)
Definition hasSpecialist (v : string) : bool :=
  match JsMap.get v STACK_TO_SPECIALIST with Some id => JsStr.truthy v && applies PhDeveloper id | None => false end.

Lemma stackSpecialist_some v : hasSpecialist v = true ->
  exists id, JsMap.get v STACK_TO_SPECIALIST = Some id /\ stackSpecialist (Some v) = [id] /\ applies PhDeveloper id = true.
Proof.
  unfold hasSpecialist, stackSpecialist, JsStr.orNull, JsStr.truthy. destruct (JsMap.get v STACK_TO_SPECIALIST) as [id|] eqn:E; [|done].
  intros [Hv Ha]%andb_true_iff. exists id. split_and!; [done| |done].
  destruct (bool_decide (v = EmptyString)) eqn:Ev; [done|]. apply bool_decide_eq_false in Ev. cbn.
  by destruct v; cbn in *; [done|rewrite E].
Qed.

Lemma sides_have_specialists files readFile parse v :
  Some v ∈ [frontendByPrecedence files readFile parse; backendByPrecedence files readFile parse; infrastructureByPrecedence files] ->
  hasSpecialist v = true.
Proof.
  rewrite !elem_of_cons. unfold frontendByPrecedence, backendByPrecedence, infrastructureByPrecedence, packageFrontend.
  intros [H|[H|[H|H%not_elem_of_nil]]]; [..|done].
  all: repeat (case_match; try discriminate H); injection H as ->; reflexivity.
Qed.

(** Detection of a stack: whatever files there are and whatever reading
    them gives, the backend, frontend and infrastructure are those of the
    order of precedence (.NET, Dart, Rust, Java, Go, Python, Node.js; Flutter
    before the packages; AWS, Vercel, Kubernetes, Docker); no technique is
    listed twice; and each of the three that is detected has a specialist among
    those the route answers. *)
Theorem stack_detection_precedence files readFile parse :
  let s := detectStack files readFile parse in
  st_backend s = backendByPrecedence files readFile parse
  /\ st_frontend s = frontendByPrecedence files readFile parse
  /\ st_infrastructure s = infrastructureByPrecedence files
  /\ NoDup (default [] (st_additionalTech s))
  /\ forall v, Some v ∈ [st_frontend s; st_backend s; st_infrastructure s] ->
     exists id, JsMap.get v STACK_TO_SPECIALIST = Some id
       /\ id ∈ getActiveSpecialists {| pc_stack := s; pc_standard := allStandard; pc_domainSpecialists := Some [] |} PhDeveloper.
Proof.
  cbv zeta. destruct (detectStack_sides files readFile parse) as (Hb & Hf & Hi). split_and!; [done..| |].
  - unfold detectStack, asStack. cbn [st_additionalTech]. destruct (de_tech _); [constructor|apply SpecialistSpec.nub_nodup].
  - intros v Hv. pose proof Hv as Hs. rewrite Hb, Hf, Hi in Hs.
    apply sides_have_specialists, stackSpecialist_some in Hs as (id & Hid & Hst & Happ). exists id. split; [done|].
    apply list_elem_of_filter. split; [done|]. apply elem_of_app. right. apply elem_of_app. left.
    unfold getStackSpecialists. cbn [pc_stack]. rewrite !elem_of_app. rewrite !elem_of_cons in Hv.
    destruct Hv as [Hv|[Hv|[Hv|Hv%not_elem_of_nil]]]; [..|done]; rewrite <- Hv, Hst; set_solver.
Qed.


(** The pattern is not tied to the end of the address, which goes into a shell
    command unquoted: what follows the name is run. *)
Example repository_url_unchecked :
  let url := "https://github.com/a/b; touch /tmp/x #" in
  Regex.litTest githubUrlPattern url = true
  /\ cloneCommand url "main" = "git clone --depth 1 --single-branch --branch main https://github.com/a/b; touch /tmp/x # .".
Proof. split; vm_compute; reflexivity. Qed.

(** A package with Prisma whose schema cannot be read has no database, not the
    default the handler was written for. *)
Example prisma_without_schema :
  st_database (detectStack ["package.json"]
    (fun f => if bool_decide (f = "package.json") then Ok "p" else Throw "ENOENT")
    (fun _ => Ok (JObj [("dependencies", JObj [("@prisma/client", JStr "5")])]))) = None.
Proof. vm_compute. reflexivity. Qed.

End StackSpec.
