(* ===== verification/MlAnalyzer.v ===== *)
(** * The security analyser of training data
    (src/services/training/MLSecurityAnalyzer.ts)

    Sequences of tool calls, the classification of prompts, the state of the
    repository and recoveries from errors, as signals for the training data.
    The paths and the command of a tool input are strings, anything else counts
    as absent. The database may refuse a signal ([accepts]), which is caught.
    Git answers by a function of command and directory; counts are printed by
    git in decimal digits. *)

From S2P Require Import Prelude JsNumber Json Regex AgentSpy TaskRoutes ExecutionTracker.
From Stdlib Require Import SpecFloat.
From stdpp Require Import list pretty options.

Module MlAnalyzer.
Import Json JsNum Regex.

Inductive PromptType :=
  | code_generation | debugging | refactoring | security_review | documentation | testing | deployment | data_analysis
  | unknown.

#[global] Instance PromptType_eq_dec : EqDecision PromptType.
Proof. solve_decision. Defined.

Inductive SignalSeverity := Critical | High | Medium | Low | Info.

#[global] Instance SignalSeverity_eq_dec : EqDecision SignalSeverity.
Proof. solve_decision. Defined.

Inductive SignalType := tool_chain | prompt_classification | git_context | error_recovery.

#[global] Instance SignalType_eq_dec : EqDecision SignalType.
Proof. solve_decision. Defined.

Record GitContext := {
  gc_branch : string;
  gc_hasUncommittedChanges : bool;
  gc_recentCommits : list string;
  gc_isDirty : bool;
  gc_aheadBehind : option (option Z * option Z);
}.

Record ErrorRecoveryAttempt := {
  er_error : string;
  er_errorType : string;
  er_recoveryAction : string;
  er_recoveryToolName : string;
  er_successful : bool;
  er_attemptNumber : nat;
  er_timestamp : Z;
}.

Record Classification := {
  cl_primaryType : PromptType;
  cl_confidence : JsNum.t;
  cl_allTypes : list (PromptType * JsNum.t);
}.

(** The [details] of a signal, by what detected it. *)
Inductive Details :=
  | ReadThenNetwork (readFile networkCommand : string) (sequence : list Json)
  | ReadThenWrite (readFile writeFile : string) (sequence : list Json)
  | MultipleReads (fileCount : nat) (files : list string)
  | Classified (c : Classification) (promptLength : nat) (promptPreview : string)
  | Git (c : GitContext)
  | Recovery (errorType errorPreview recoveryAction recoveryTool : string) (successful : bool) (attemptNumber : nat).

Record Signal := {
  sg_id : string;
  sg_taskId : string;
  sg_executionId : option string;
  sg_type : SignalType;
  sg_severity : SignalSeverity;
  sg_description : string;
  sg_details : Details;
  sg_detectedAt : Z;
}.

(** ** Patterns *)

Record PromptPattern := { pp_type : PromptType; pp_weight : JsNum.t; pp_patterns : list literal }.

Definition PROMPT_PATTERNS : list PromptPattern :=
  [{| pp_type := code_generation; pp_weight := ofDecimal 10 1; pp_patterns :=
      [ci "create\s+(a\s+)?(new\s+)?(function|class|component|module|service)";
       ci "implement\s+(a\s+)?(feature|functionality)"; ci "write\s+(code|function|class)";
       ci "build\s+(a\s+)?(new\s+)?"; ci "add\s+(a\s+)?(new\s+)?(feature|endpoint|route)"] |};
   {| pp_type := debugging; pp_weight := ofDecimal 10 1; pp_patterns :=
      [ci "fix\s+(the\s+)?(bug|error|issue|problem)"; ci "debug"; ci "why\s+(is|does|isn't|doesn't)";
       ci "not\s+working"; ci "error\s+(message|when)"; ci "broken"; ci "crash(ing|es)?"] |};
   {| pp_type := refactoring; pp_weight := ofDecimal 10 1; pp_patterns :=
      [ci "refactor"; ci "clean\s*up"; ci "improve\s+(the\s+)?(code|structure|performance)"; ci "optimize";
       ci "simplify"; ci "restructure"] |};
   {| pp_type := security_review; pp_weight := ofDecimal 12 1; pp_patterns :=
      [ci "security\s+(audit|review|check|scan)"; ci "vulnerabilit(y|ies)"; ci "penetration\s+test";
       ci "secure\s+(the\s+)?"; ci "authentication"; ci "authorization"; ci "xss|csrf|sql\s*injection"] |};
   {| pp_type := documentation; pp_weight := ofDecimal 8 1; pp_patterns :=
      [ci "document(ation)?"; ci "write\s+(docs|documentation|readme)"; ci "add\s+comments";
       ci "explain\s+(the\s+)?(code|function|class)"; ci "jsdoc|typedoc"] |};
   {| pp_type := testing; pp_weight := ofDecimal 10 1; pp_patterns :=
      [ci "write\s+(tests?|unit\s*tests?|integration\s*tests?)"; ci "test\s+(coverage|the|this)";
       ci "add\s+tests?"; ci "jest|mocha|pytest|vitest"; ci "mock(ing)?"] |};
   {| pp_type := deployment; pp_weight := ofDecimal 10 1; pp_patterns :=
      [ci "deploy"; ci "ci\/cd"; ci "docker"; ci "kubernetes|k8s"; ci "pipeline"; ci "release"; ci "production"] |};
   {| pp_type := data_analysis; pp_weight := ofDecimal 9 1; pp_patterns :=
      [ci "analyze\s+(the\s+)?(data|logs|metrics)"; ci "find\s+(patterns?|trends?)"; ci "statistics"; ci "report";
       ci "aggregate"] |}].

Definition SENSITIVE_FILE_PATTERNS : list literal :=
  [ci "\.env($|\.)"; ci "\.pem$"; ci "\.key$"; ci "id_rsa"; ci "id_ed25519"; ci "credentials"; ci "secrets?\.(json|yaml|yml)";
   ci "\.aws\/credentials"; ci "\.kube\/config"].

Definition networkPattern : literal := ci "curl|wget|nc|netcat|ssh|scp|rsync|ftp".
Definition envPattern : literal := ci "\.env".

(** The command with its quoted format. *)
Definition logCommand : string := "git log --oneline -n 3 --format=" +:+ (String "034" EmptyString) +:+ "%s" +:+ (String "034" EmptyString).

(** ** State *)

Record ToolStep := { ts_tool : Json; ts_filePath : option string; ts_command : option string; ts_timestamp : Z }.

Record State := {
  toolSequences : JsMap.t (list ToolStep);
  errorRecoveries : JsMap.t (list ErrorRecoveryAttempt);
  (** how many identifiers were drawn *)
  drawn : nat;
  (** the table [ml_security_signals] *)
  stored : list Signal;
}.

Definition init : State := {| toolSequences := []; errorRecoveries := []; drawn := 0; stored := [] |}.

Definition onSequences (f : JsMap.t (list ToolStep) -> JsMap.t (list ToolStep)) (s : State) : State :=
  {| toolSequences := f (toolSequences s); errorRecoveries := errorRecoveries s; drawn := drawn s; stored := stored s |}.

Definition onRecoveries (f : JsMap.t (list ErrorRecoveryAttempt) -> JsMap.t (list ErrorRecoveryAttempt)) (s : State) : State :=
  {| toolSequences := toolSequences s; errorRecoveries := f (errorRecoveries s); drawn := drawn s; stored := stored s |}.

Section analyzer.
Context (genId : nat -> string) (accepts : Signal -> bool).

(** What is known of a signal before it has an identifier. *)
Record Draft := { dr_type : SignalType; dr_severity : SignalSeverity; dr_description : string; dr_details : Details }.

Definition createSignal (now : Z) (taskId executionId : string) (d : Draft) (s : State) : Signal * State :=
  ({| sg_id := genId (drawn s); sg_taskId := taskId; sg_executionId := Some executionId; sg_type := dr_type d;
      sg_severity := dr_severity d; sg_description := dr_description d; sg_details := dr_details d; sg_detectedAt := now |},
   {| toolSequences := toolSequences s; errorRecoveries := errorRecoveries s; drawn := S (drawn s); stored := stored s |}).

(** An empty execution identifier is stored as [null]; a refused row is
    reported and forgotten. *)
Definition persistSignal (g : Signal) (s : State) : State :=
  let row := {| sg_id := sg_id g; sg_taskId := sg_taskId g; sg_executionId := JsStr.orNull (sg_executionId g); sg_type := sg_type g;
                sg_severity := sg_severity g; sg_description := sg_description g; sg_details := sg_details g;
                sg_detectedAt := sg_detectedAt g |} in
  if accepts row then
    {| toolSequences := toolSequences s; errorRecoveries := errorRecoveries s; drawn := drawn s; stored := stored s ++ [row] |}
  else s.

(** The signals of one call are all created before the first is stored. *)
Fixpoint createSignals (now : Z) (taskId executionId : string) (ds : list Draft) (s : State) : list Signal * State :=
  match ds with
  | [] => ([], s)
  | d :: ds' =>
      let '(g, s1) := createSignal now taskId executionId d s in
      let '(gs, s2) := createSignals now taskId executionId ds' s1 in
      (g :: gs, s2)
  end.

Definition emit (now : Z) (taskId executionId : string) (ds : list Draft) (s : State) : list Signal * State :=
  let '(gs, s1) := createSignals now taskId executionId ds s in
  (gs, fold_left (fun s g => persistSignal g s) gs s1).

(** ** Tool call chains *)

Definition isTool (name : string) (t : ToolStep) : bool := match ts_tool t with JStr x => bool_decide (x = name) | _ => false end.

Definition strArg (name : string) (input : option Json) : option string :=
  match input ≫= field name with Some (JStr x) => JsStr.orNull (Some x) | _ => None end.

Definition networkChain (a b : ToolStep) : list Draft :=
  let readPath := default EmptyString (ts_filePath a) in
  let bashCmd := default EmptyString (ts_command b) in
  if isTool "Read" a && isTool "Bash" b && existsb (fun p => litTest p readPath) SENSITIVE_FILE_PATTERNS
     && litTest networkPattern bashCmd
  then [{| dr_type := tool_chain; dr_severity := Critical;
           dr_description := "Potential exfiltration: Read sensitive file → network command";
           dr_details := ReadThenNetwork readPath (JsStr.take 100 bashCmd) [ts_tool a; ts_tool b] |}]
  else [].

Definition writeChain (a b : ToolStep) : list Draft :=
  let readPath := default EmptyString (ts_filePath a) in
  let writePath := default EmptyString (ts_filePath b) in
  if isTool "Read" a && isTool "Write" b && litTest envPattern readPath && negb (bool_decide (readPath = writePath))
  then [{| dr_type := tool_chain; dr_severity := High; dr_description := "Potential data copy: Read .env → write elsewhere";
           dr_details := ReadThenWrite readPath writePath [ts_tool a; ts_tool b] |}]
  else [].

(** [l.slice(-n)] *)
Definition lastN {A} (n : nat) (l : list A) : list A := drop (length l - n) l.

Definition readChain (sequence : list ToolStep) : list Draft :=
  let recentReads := base.filter (fun t => isTool "Read" t = true) (lastN 5 sequence) in
  if 4 <=? length recentReads
  then [{| dr_type := tool_chain; dr_severity := Medium; dr_description := "Multiple file reads (potential reconnaissance)";
           dr_details := MultipleReads (length recentReads) (omap ts_filePath recentReads) |}]
  else [].

(** What a sequence that ends with the new call shows. *)
Definition chains (sequence : list ToolStep) : list Draft :=
  if length sequence <? 2 then []
  else match lastN 2 sequence with
       | [a; b] => networkChain a b ++ writeChain a b ++ readChain sequence
       | _ => []
       end.

Definition toolStep (now : Z) (name : Json) (input : option Json) : ToolStep :=
  {| ts_tool := name;
     ts_filePath := match strArg "file_path" input with Some p => Some p | None => strArg "path" input end;
     ts_command := strArg "command" input; ts_timestamp := now |}.

Definition sequenceOf (executionId : string) (s : State) : list ToolStep := default [] (JsMap.get executionId (toolSequences s)).

Definition trackToolCall (now : Z) (taskId executionId : string) (name : Json) (input : option Json) (s : State)
    : list Signal * State :=
  let sequence := sequenceOf executionId s ++ [toolStep now name input] in
  emit now taskId executionId (chains sequence) (onSequences (JsMap.set executionId sequence) s).

Definition getToolSequence (executionId : string) (s : State) : list Json := ts_tool <$> sequenceOf executionId s.

(** ** Prompt classification *)

(** All matches of all patterns of a type. *)
Definition matchCount (prompt : string) (p : PromptPattern) : nat :=
  fold_left (fun n r => n + length (litMatchAll r prompt)) (pp_patterns p) 0.

(** Every type occurs once, so its score is set once. *)
Definition promptScore (prompt : string) (p : PromptPattern) : JsNum.t :=
  match matchCount prompt p with
  | 0 => zero
  | n => add zero (mul (ofZ (Z.of_nat n)) (pp_weight p))
  end.

Definition promptScores (prompt : string) : list (PromptType * JsNum.t) :=
  (fun p => (pp_type p, promptScore prompt p)) <$> PROMPT_PATTERNS.

(** [Math.round(x * 100) / 100] *)
Definition percent (x : JsNum.t) : JsNum.t := div (ofZ (roundInt (mul x (ofZ 100)))) (ofZ 100).

Definition classifyPrompt (prompt : string) : Classification :=
  let allTypes := sortDesc snd (promptScores prompt) in
  let totalScore := fold_left (fun sum t => add sum t.2) allTypes zero in
  match allTypes with
  | [] => {| cl_primaryType := unknown; cl_confidence := zero; cl_allTypes := [] |}
  | (ty, topScore) :: _ =>
      {| cl_primaryType := if SFltb zero topScore then ty else unknown;
         cl_confidence := if SFltb zero totalScore then percent (div topScore totalScore) else zero;
         cl_allTypes := base.filter (fun t => SFltb zero t.2 = true) allTypes |}
  end.

Definition typeName (t : PromptType) : string :=
  match t with
  | code_generation => "code_generation" | debugging => "debugging" | refactoring => "refactoring"
  | security_review => "security_review" | documentation => "documentation" | testing => "testing"
  | deployment => "deployment" | data_analysis => "data_analysis" | unknown => "unknown"
  end.

Definition classificationDraft (prompt : string) : Draft :=
  let c := classifyPrompt prompt in
  {| dr_type := prompt_classification; dr_severity := Info;
     dr_description := "Prompt classified as: " +:+ typeName (cl_primaryType c);
     dr_details := Classified c (JsStr.length prompt) (JsStr.take 200 prompt) |}.

Definition recordPromptClassification (now : Z) (taskId executionId prompt : string) (s : State) : list Signal * State :=
  emit now taskId executionId [classificationDraft prompt] s.

(** ** Git context *)

Context (git : string -> string -> outcome string).

(** [s.split('\t')] *)
Fixpoint splitTab (s : string) : list string :=
  match s with
  | EmptyString => [EmptyString]
  | String c s' =>
      if bool_decide (c = "009"%char) then EmptyString :: splitTab s'
      else match splitTab s' with x :: l => String c x :: l | [] => [String c EmptyString] end
  end.

(** The fields are filled in order; the first command that fails ends it. *)
Definition captureGitContext (workspacePath : string) : GitContext :=
  let none := {| gc_branch := "unknown"; gc_hasUncommittedChanges := false; gc_recentCommits := []; gc_isDirty := false;
                 gc_aheadBehind := None |} in
  match git workspacePath "git rev-parse --abbrev-ref HEAD" with
  | Throw _ => none
  | Ok branchOut =>
      let branch := TaskRoutes.trim branchOut in
      match git workspacePath "git status --porcelain" with
      | Throw _ => {| gc_branch := branch; gc_hasUncommittedChanges := false; gc_recentCommits := []; gc_isDirty := false;
                      gc_aheadBehind := None |}
      | Ok statusOut =>
          let dirty := 0 <? JsStr.length (TaskRoutes.trim statusOut) in
          match git workspacePath logCommand with
          | Throw _ => {| gc_branch := branch; gc_hasUncommittedChanges := dirty; gc_recentCommits := []; gc_isDirty := dirty;
                          gc_aheadBehind := None |}
          | Ok logOut =>
              {| gc_branch := branch; gc_hasUncommittedChanges := dirty;
                 gc_recentCommits := base.filter (fun l => JsStr.truthy l = true) (AgentSpy.splitLines (TaskRoutes.trim logOut));
                 gc_isDirty := dirty;
                 gc_aheadBehind :=
                   match git workspacePath "git rev-list --left-right --count HEAD...@{upstream}" with
                   | Ok abOut =>
                       let counts := splitTab (TaskRoutes.trim abOut) in
                       Some (counts !! 0 ≫= numberFrom 0, counts !! 1 ≫= numberFrom 0)
                   | Throw _ => None
                   end |}
          end
      end
  end.

Definition gitDraft (c : GitContext) : Draft :=
  {| dr_type := git_context; dr_severity := Info;
     dr_description := "Git: " +:+ gc_branch c +:+ (if gc_isDirty c then " (dirty)" else EmptyString); dr_details := Git c |}.

Definition recordGitContext (now : Z) (taskId executionId workspacePath : string) (s : State) : list Signal * State :=
  emit now taskId executionId [gitDraft (captureGitContext workspacePath)] s.

(** ** Error recovery *)

Definition getErrorRecoveryHistory (executionId : string) (s : State) : list ErrorRecoveryAttempt :=
  default [] (JsMap.get executionId (errorRecoveries s)).

Definition recoveryDraft (attempt : nat) (error errorType action tool : string) (successful : bool) : Draft :=
  {| dr_type := error_recovery; dr_severity := if successful then Info else Medium;
     dr_description := "Error recovery #" +:+ pretty attempt +:+ ": " +:+ (if successful then "success" else "failed");
     dr_details := Recovery errorType (JsStr.take 200 error) action tool successful attempt |}.

Definition trackErrorRecovery (now : Z) (taskId executionId error errorType action tool : string) (successful : bool) (s : State)
    : list Signal * State :=
  let attempts := getErrorRecoveryHistory executionId s in
  let attempt := S (length attempts) in
  let a := {| er_error := JsStr.take 500 error; er_errorType := errorType; er_recoveryAction := action;
              er_recoveryToolName := tool; er_successful := successful; er_attemptNumber := attempt; er_timestamp := now |} in
  emit now taskId executionId [recoveryDraft attempt error errorType action tool successful]
    (onRecoveries (JsMap.set executionId (attempts ++ [a])) s).

(** ** Retrieval and clean-up *)

(** [ORDER BY detected_at ASC]; equal times in the order of insertion. *)
Fixpoint insertByTime (g : Signal) (l : list Signal) : list Signal :=
  match l with
  | [] => [g]
  | x :: l' => if (sg_detectedAt g <=? sg_detectedAt x)%Z then g :: x :: l' else x :: insertByTime g l'
  end.

Definition getSignalsForTask (taskId : string) (s : State) : list Signal :=
  foldr insertByTime [] (base.filter (fun g => sg_taskId g = taskId) (stored s)).

Record Summary := {
  sm_total : nat; sm_bySeverity : SignalSeverity -> nat; sm_byType : SignalType -> nat }.

(** One round of the loop that counts. *)
Definition count (m : Summary) (g : Signal) : Summary :=
  {| sm_total := sm_total m;
     sm_bySeverity := fun v => if bool_decide (v = sg_severity g) then S (sm_bySeverity m v) else sm_bySeverity m v;
     sm_byType := fun v => if bool_decide (v = sg_type g) then S (sm_byType m v) else sm_byType m v |}.

Definition getSignalSummary (taskId : string) (s : State) : Summary :=
  let signals := getSignalsForTask taskId s in
  fold_left count signals {| sm_total := length signals; sm_bySeverity := fun _ => 0; sm_byType := fun _ => 0 |}.

Definition clearExecution (executionId : string) (s : State) : State :=
  onRecoveries (JsMap.delete executionId) (onSequences (JsMap.delete executionId) s).

(** ** Serving the execution tracker: what its asynchronous calls do. A
    recovery it reports is always a successful one. An error that is not a
    string has no [substring]: the call throws after the attempt list was
    created, and the tracker catches it. *)

Definition errorText (e : Json) : option string := match e with JStr x => Some x | _ => None end.

Definition openRecoveries (executionId : string) (s : State) : State :=
  if JsMap.has executionId (errorRecoveries s) then s else onRecoveries (JsMap.set executionId []) s.

Definition serve (now : Z) (c : ExecutionTracker.MlCall) (s : State) : State :=
  match c with
  | ExecutionTracker.MlContext taskId executionId prompt workspace =>
      let s1 := (recordPromptClassification now taskId executionId prompt s).2 in
      match workspace with Some w => (recordGitContext now taskId executionId w s1).2 | None => s1 end
  | ExecutionTracker.MlTool taskId executionId name input => (trackToolCall now taskId executionId name input s).2
  | ExecutionTracker.MlRecovery taskId executionId error errorType action tool =>
      match errorText error with
      | Some e => (trackErrorRecovery now taskId executionId e errorType action tool true s).2
      | None => openRecoveries executionId s
      end
  | ExecutionTracker.MlClear executionId => clearExecution executionId s
  end.

Definition serveAll (cs : list (Z * ExecutionTracker.MlCall)) (s : State) : State :=
  fold_left (fun s c => serve c.1 c.2 s) cs s.

End analyzer.
End MlAnalyzer.
