(* ===== verification/MlAnalyzerProofs.v ===== *)
(** * The security analyser: executions do not influence each other, and what
    a chain of tool calls is reported as *)

From S2P Require Import Prelude JsNumber Json Regex ExecutionTracker MlAnalyzer.
From stdpp Require Import list options.
Import Json ExecutionTracker MlAnalyzer.

Module MlSpec.

Section analyzer.
Context (genId : nat -> string) (accepts : Signal -> bool) (git : string -> string -> outcome string).
#[local] Set Default Proof Using "Type".

(** A signal without its identifier. *)
Definition shape (g : Signal) : Signal :=
  {| sg_id := EmptyString; sg_taskId := sg_taskId g; sg_executionId := sg_executionId g; sg_type := sg_type g;
     sg_severity := sg_severity g; sg_description := sg_description g; sg_details := sg_details g;
     sg_detectedAt := sg_detectedAt g |}.

(** The row a draft becomes. *)
Definition rowOf (now : Z) (taskId executionId : string) (d : Draft) : Signal :=
  {| sg_id := EmptyString; sg_taskId := taskId; sg_executionId := JsStr.orNull (Some executionId); sg_type := dr_type d;
     sg_severity := dr_severity d; sg_description := dr_description d; sg_details := dr_details d; sg_detectedAt := now |}.

(** Whether a row is accepted does not depend on its identifier. *)
Definition anyId : Prop := forall g, accepts g = accepts (shape g).

(** ** Emitting changes the table only *)

Lemma createSignals_spec now t e ds s :
  let '(gs, s') := createSignals genId now t e ds s in
  toolSequences s' = toolSequences s /\ errorRecoveries s' = errorRecoveries s /\ stored s' = stored s
  /\ Forall2 (fun g d => sg_executionId g = Some e /\ sg_taskId g = t /\ sg_type g = dr_type d /\ sg_severity g = dr_severity d
       /\ sg_description g = dr_description d /\ sg_details g = dr_details d /\ sg_detectedAt g = now) gs ds.
Proof.
  revert s. induction ds as [|d ds IH]; intros s; cbn [createSignals]; [done|].
  unfold createSignal at 1. match goal with |- context [createSignals _ _ _ _ ds ?x] => specialize (IH x); destruct (createSignals genId now t e ds x) as [gs s'] end.
  destruct IH as (-> & -> & -> & IH). split_and!; [done..|]. by constructor.
Qed.

Lemma persist_keeps g s :
  toolSequences (persistSignal accepts g s) = toolSequences s /\ errorRecoveries (persistSignal accepts g s) = errorRecoveries s.
Proof. unfold persistSignal. cbv zeta. by destruct (accepts _). Qed.

Lemma persists_keep gs s :
  toolSequences (fold_left (fun s g => persistSignal accepts g s) gs s) = toolSequences s
  /\ errorRecoveries (fold_left (fun s g => persistSignal accepts g s) gs s) = errorRecoveries s.
Proof.
  revert s. induction gs as [|g gs IH]; intros s; cbn [fold_left]; [done|].
  destruct (IH (persistSignal accepts g s)) as [-> ->]. apply persist_keeps.
Qed.

(** The rows added, without their identifiers. *)
Definition added (now : Z) (taskId executionId : string) (ds : list Draft) : list Signal :=
  base.filter (fun g => accepts g = true) (rowOf now taskId executionId <$> ds).

Lemma persists_stored now t e gs ds s :
  anyId ->
  Forall2 (fun g d => sg_executionId g = Some e /\ sg_taskId g = t /\ sg_type g = dr_type d /\ sg_severity g = dr_severity d
       /\ sg_description g = dr_description d /\ sg_details g = dr_details d /\ sg_detectedAt g = now) gs ds ->
  shape <$> stored (fold_left (fun s g => persistSignal accepts g s) gs s) = (shape <$> stored s) ++ added now t e ds.
Proof.
  intros Ha H. revert s. induction H as [|g d gs ds (He & Ht & Hty & Hsv & Hde & Hdt & Hat) H IH]; intros s; cbn [fold_left].
  { unfold added. cbn. by rewrite app_nil_r. }
  rewrite IH. unfold persistSignal, added. cbv zeta. rewrite fmap_cons, list.filter_cons, Ha.
  unfold shape at 2. cbn. rewrite He, Ht, Hty, Hsv, Hde, Hdt, Hat. fold (rowOf now t e d).
  destruct (accepts (rowOf now t e d)) eqn:Er; cbn [stored].
  - rewrite decide_True by done. by rewrite fmap_app, <- app_assoc.
  - by rewrite decide_False.
Qed.

Lemma emit_spec now t e ds s :
  anyId ->
  toolSequences (emit genId accepts now t e ds s).2 = toolSequences s
  /\ errorRecoveries (emit genId accepts now t e ds s).2 = errorRecoveries s
  /\ shape <$> stored (emit genId accepts now t e ds s).2 = (shape <$> stored s) ++ added now t e ds.
Proof.
  intros Ha. unfold emit. pose proof (createSignals_spec now t e ds s) as H.
  destruct (createSignals genId now t e ds s) as [gs s1]. destruct H as (H1 & H2 & H3 & H4). cbn [snd].
  destruct (persists_keep gs s1) as [-> ->]. rewrite (persists_stored now t e gs ds s1 Ha H4). by rewrite H1, H2, H3.
Qed.

(** ** One execution on its own

    What the analyser remembers of an execution, and how a call of that
    execution changes it and what it reports. *)

Record Local := { lo_sequence : option (list ToolStep); lo_recoveries : option (list ErrorRecoveryAttempt) }.

Definition fresh : Local := {| lo_sequence := None; lo_recoveries := None |}.

Definition localOf (e : string) (s : State) : Local :=
  {| lo_sequence := JsMap.get e (toolSequences s); lo_recoveries := JsMap.get e (errorRecoveries s) |}.

Definition callExecution (c : MlCall) : string :=
  match c with MlContext _ e _ _ | MlTool _ e _ _ | MlRecovery _ e _ _ _ _ | MlClear e => e end.

Definition callTask (c : MlCall) : string :=
  match c with MlContext t _ _ _ | MlTool t _ _ _ | MlRecovery t _ _ _ _ _ => t | MlClear _ => EmptyString end.

Definition stepLocal (now : Z) (c : MlCall) (l : Local) : Local * list Draft :=
  match c with
  | MlContext _ _ prompt w =>
      (l, classificationDraft prompt :: match w with Some w => [gitDraft (captureGitContext git w)] | None => [] end)
  | MlTool _ _ name input =>
      let sequence := default [] (lo_sequence l) ++ [toolStep now name input] in
      ({| lo_sequence := Some sequence; lo_recoveries := lo_recoveries l |}, chains sequence)
  | MlRecovery _ _ error errorType action tool =>
      let attempts := default [] (lo_recoveries l) in
      match errorText error with
      | Some e =>
          ({| lo_sequence := lo_sequence l;
              lo_recoveries := Some (attempts ++ [{| er_error := JsStr.take 500 e; er_errorType := errorType;
                er_recoveryAction := action; er_recoveryToolName := tool; er_successful := true;
                er_attemptNumber := S (length attempts); er_timestamp := now |}]) |},
           [recoveryDraft (S (length attempts)) e errorType action tool true])
      | None => ({| lo_sequence := lo_sequence l; lo_recoveries := Some attempts |}, [])
      end
  | MlClear _ => (fresh, [])
  end.

(** The rows of an execution, call after call. *)
Fixpoint runLocal (l : Local) (cs : list (Z * MlCall)) : Local * list Signal :=
  match cs with
  | [] => (l, [])
  | (now, c) :: cs' =>
      let '(l1, ds) := stepLocal now c l in
      let '(l2, rows) := runLocal l1 cs' in
      (l2, added now (callTask c) (callExecution c) ds ++ rows)
  end.

Definition serveIt := serve genId accepts git.

Lemma added_app now t e ds ds' : added now t e (ds ++ ds') = added now t e ds ++ added now t e ds'.
Proof. unfold added. by rewrite fmap_app, list.filter_app. Qed.

Lemma localOf_emit now t e ds e' s : anyId -> localOf e' (emit genId accepts now t e ds s).2 = localOf e' s.
Proof. intros Ha. unfold localOf. destruct (emit_spec now t e ds s Ha) as (-> & -> & _). done. Qed.

Lemma stored_emit now t e ds s : anyId ->
  shape <$> stored (emit genId accepts now t e ds s).2 = (shape <$> stored s) ++ added now t e ds.
Proof. intros Ha. by destruct (emit_spec now t e ds s Ha) as (_ & _ & ->). Qed.

(** A call changes what is known of its own execution, by the local step, and
    adds the rows of that step. *)
Lemma serve_local now c s :
  anyId ->
  localOf (callExecution c) (serveIt now c s) = (stepLocal now c (localOf (callExecution c) s)).1
  /\ (forall e, e <> callExecution c -> localOf e (serveIt now c s) = localOf e s)
  /\ shape <$> stored (serveIt now c s)
     = (shape <$> stored s) ++ added now (callTask c) (callExecution c) (stepLocal now c (localOf (callExecution c) s)).2.
Proof.
  intros Ha. destruct c as [t e prompt w|t e name input|t e error ty action tool|e];
    unfold serveIt; cbn [serve callExecution callTask stepLocal].
  - unfold recordPromptClassification, recordGitContext. destruct w as [w|].
    + split_and!; [by rewrite !localOf_emit by done|intros e' He; by rewrite !localOf_emit by done|].
      rewrite !stored_emit by done. rewrite <- app_assoc, <- added_app. done.
    + split_and!; [by rewrite localOf_emit by done|intros e' He; by rewrite localOf_emit by done|by rewrite stored_emit by done].
  - unfold trackToolCall. cbv zeta. split_and!.
    + rewrite localOf_emit by done. unfold localOf, sequenceOf. cbn. by rewrite JsMap.get_set_eq.
    + intros e' He. rewrite localOf_emit by done. unfold localOf. cbn. by rewrite JsMap.get_set_ne.
    + by rewrite stored_emit by done.
  - destruct (errorText error) as [x|]; cbn [fst snd].
    + unfold trackErrorRecovery. cbv zeta. split_and!.
      * rewrite localOf_emit by done. unfold localOf, getErrorRecoveryHistory. cbn. by rewrite JsMap.get_set_eq.
      * intros e' He. rewrite localOf_emit by done. unfold localOf. cbn. by rewrite JsMap.get_set_ne.
      * by rewrite stored_emit by done.
    + unfold openRecoveries, localOf. destruct (JsMap.has e (errorRecoveries s)) eqn:Eh.
      * apply JsMap.has_spec in Eh as [l Hl]. rewrite Hl. split_and!; [done..|]. cbn. by rewrite app_nil_r.
      * apply JsMap.has_false in Eh. rewrite Eh. split_and!.
        -- cbn. by rewrite JsMap.get_set_eq.
        -- intros e' He. cbn. by rewrite JsMap.get_set_ne.
        -- cbn. by rewrite app_nil_r.
  - unfold clearExecution, localOf, fresh. split_and!.
    + cbn [onRecoveries onSequences toolSequences errorRecoveries fst]. by rewrite !JsMap.get_delete_eq.
    + intros e' He. cbn [onRecoveries onSequences toolSequences errorRecoveries]. by rewrite !JsMap.get_delete_ne.
    + cbn. by rewrite app_nil_r.
Qed.

(** Rows added for a non-empty execution are found under it, and only there. *)
Lemma added_execution now t e ds e' :
  e' <> EmptyString ->
  base.filter (fun g => sg_executionId g = Some e') (added now t e ds) = if bool_decide (e = e') then added now t e ds else [].
Proof.
  intros He. unfold added. induction ds as [|d ds IH]; [by case_bool_decide|]. rewrite fmap_cons, list.filter_cons.
  destruct (accepts (rowOf now t e d)) eqn:Er; [rewrite decide_True by done|by rewrite decide_False].
  rewrite list.filter_cons, IH. cbn [rowOf sg_executionId]. unfold JsStr.orNull.
  case_bool_decide as Heq; [subst; rewrite decide_True; [done|by destruct e']|rewrite decide_False; [done|destruct e; congruence]].
Qed.

Lemma serveAll_cons now c cs s :
  serveAll genId accepts git ((now, c) :: cs) s = serveAll genId accepts git cs (serveIt now c s).
Proof. reflexivity. Qed.

Lemma serveAll_local e cs s :
  anyId -> e <> EmptyString ->
  let own := base.filter (fun c => callExecution c.2 = e) cs in
  let s' := serveAll genId accepts git cs s in
  localOf e s' = (runLocal (localOf e s) own).1
  /\ base.filter (fun g => sg_executionId g = Some e) (shape <$> stored s')
     = base.filter (fun g => sg_executionId g = Some e) (shape <$> stored s) ++ (runLocal (localOf e s) own).2.
Proof.
  intros Ha He. cbv zeta. revert s. induction cs as [|[now c] cs IH]; intros s; [by rewrite app_nil_r|].
  rewrite serveAll_cons. destruct (IH (serveIt now c s)) as [IH1 IH2]. destruct (serve_local now c s Ha) as (Hl & Ho & Hs).
  rewrite IH1, IH2, Hs, list.filter_app, added_execution by done. rewrite list.filter_cons. cbn [snd].
  case_bool_decide as Hc.
  - rewrite decide_True by done. rewrite <- Hc in *. rewrite Hl. cbn [runLocal].
    destruct (stepLocal now c _) as [l1 ds]. cbn [fst snd]. destruct (runLocal l1 _) as [l2 rows]. cbn.
    by rewrite <- app_assoc.
  - rewrite decide_False by done. rewrite Ho by done. by rewrite app_nil_r.
Qed.

(** C37: Executions are analysed apart: however the calls of several executions
    interleave, what the analyser remembers of one of them and the rows it
    stores for it are those of the execution's own calls run alone. *)
Theorem executions_analysed_apart e cs :
  anyId -> e <> EmptyString ->
  let own := base.filter (fun c => callExecution c.2 = e) cs in
  let s := serveAll genId accepts git cs init in
  localOf e s = (runLocal fresh own).1
  /\ base.filter (fun g => sg_executionId g = Some e) (shape <$> stored s) = (runLocal fresh own).2.
Proof. intros Ha He. apply (serveAll_local e cs init Ha He). Qed.

(** ** Chains of tool calls *)

Lemma runLocal_app l a b :
  runLocal l (a ++ b) = ((runLocal (runLocal l a).1 b).1, (runLocal l a).2 ++ (runLocal (runLocal l a).1 b).2).
Proof.
  revert l. induction a as [|[now c] a IH]; intros l; cbn [app runLocal]; [cbn [fst snd app]; by destruct (runLocal l b)|].
  destruct (stepLocal now c l) as [l1 ds]. rewrite IH. destruct (runLocal l1 a) as [l2 r2]. cbn [fst snd].
  by rewrite app_assoc.
Qed.

(** Calls that neither add a tool nor forget the execution. *)
Definition quiet (c : MlCall) : Prop := match c with MlContext _ _ _ _ | MlRecovery _ _ _ _ _ _ => True | _ => False end.

Lemma runLocal_quiet l cs : Forall (fun c => quiet c.2) cs -> lo_sequence (runLocal l cs).1 = lo_sequence l.
Proof.
  revert l. induction cs as [|[now c] cs IH]; intros l; cbn [runLocal]; [done|]. intros [Hc Hcs]%Forall_cons.
  destruct (stepLocal now c l) as [l1 ds] eqn:E. specialize (IH l1 Hcs). destruct (runLocal l1 cs) as [l2 r]. cbn [fst] in *.
  rewrite IH. destruct c as [t e pr w| |t e err ty ac tl|]; [|by destruct Hc| |by destruct Hc].
  - by injection E as <- _.
  - cbn [stepLocal] in E. destruct (errorText err); by injection E as <- _.
Qed.

Lemma chains_network l a b : exists rest, chains (l ++ [a; b]) = networkChain a b ++ rest.
Proof.
  unfold chains, lastN. rewrite length_app. cbn [length]. rewrite (proj2 (Nat.ltb_ge _ 2)) by lia.
  replace (length l + 2 - 2) with (length l) by lia. rewrite drop_app_length. by eexists.
Qed.

(** What is reported. *)
Definition exfiltrationOf (a b : ToolStep) : Draft :=
  {| dr_type := tool_chain; dr_severity := Critical;
     dr_description := "Potential exfiltration: Read sensitive file → network command";
     dr_details := ReadThenNetwork (default EmptyString (ts_filePath a)) (JsStr.take 100 (default EmptyString (ts_command b)))
                     [ts_tool a; ts_tool b] |}.

Lemma exfiltration_local e task mid post t1 t2 in1 in2 l :
  Forall (fun c => quiet c.2) mid ->
  let a := toolStep t1 (JStr "Read") in1 in
  let b := toolStep t2 (JStr "Bash") in2 in
  existsb (fun p => Regex.litTest p (default EmptyString (ts_filePath a))) SENSITIVE_FILE_PATTERNS = true ->
  Regex.litTest networkPattern (default EmptyString (ts_command b)) = true ->
  (forall g, accepts g = true) ->
  rowOf t2 task e (exfiltrationOf a b)
  ∈ (runLocal l ((t1, MlTool task e (JStr "Read") in1) :: mid ++ (t2, MlTool task e (JStr "Bash") in2) :: post)).2.
Proof.
  intros Hmid a b Hs Hn Hacc. cbn [runLocal stepLocal]. fold a.
  set (l1 := {| lo_sequence := _; lo_recoveries := _ |}). rewrite runLocal_app. cbn [snd].
  apply elem_of_app. right. apply elem_of_app. right. pose proof (runLocal_quiet l1 mid Hmid) as Hq.
  destruct (runLocal l1 mid) as [l2 r2]. cbn [fst] in *. cbn [runLocal stepLocal]. rewrite Hq.
  change (default [] (lo_sequence l1)) with (default [] (lo_sequence l) ++ [a]). fold b. rewrite <- app_assoc. cbn [app]. match goal with |- context [runLocal ?x post] => destruct (runLocal x post) as [l3 r3] end.
  cbn [snd callTask callExecution]. apply elem_of_app. left.
  destruct (chains_network (default [] (lo_sequence l)) a b) as [rest ->]. unfold networkChain. cbv zeta.
  change (isTool "Read" a) with true. change (isTool "Bash" b) with true. rewrite Hs, Hn. cbn [andb app].
  unfold added. apply list_elem_of_filter. split; [apply Hacc|]. by left.
Qed.

(** A sensitive file that is read and a network command that follows it in the
    same execution are reported, whatever the other executions do in between. *)
Lemma exfiltration_signalled e task pre mid post t1 t2 in1 in2 :
  anyId -> e <> EmptyString ->
  Forall (fun c => callExecution c.2 = e -> quiet c.2) mid ->
  let a := toolStep t1 (JStr "Read") in1 in
  let b := toolStep t2 (JStr "Bash") in2 in
  existsb (fun p => Regex.litTest p (default EmptyString (ts_filePath a))) SENSITIVE_FILE_PATTERNS = true ->
  Regex.litTest networkPattern (default EmptyString (ts_command b)) = true ->
  (forall g, accepts g = true) ->
  exists g, g ∈ stored (serveAll genId accepts git
      (pre ++ (t1, MlTool task e (JStr "Read") in1) :: mid ++ (t2, MlTool task e (JStr "Bash") in2) :: post) init)
    /\ sg_executionId g = Some e /\ sg_severity g = Critical
    /\ sg_details g = ReadThenNetwork (default EmptyString (ts_filePath a)) (JsStr.take 100 (default EmptyString (ts_command b)))
                        [JStr "Read"; JStr "Bash"].
Proof.
  intros Ha He Hmid a b Hs Hn Hacc.
  match goal with |- context [serveAll _ _ _ ?cs _] => destruct (serveAll_local e cs init Ha He) as [_ Hrows] end.
  cbv zeta in Hrows.
  rewrite list.filter_app, list.filter_cons, decide_True, list.filter_app, list.filter_cons, decide_True in Hrows by done.
  assert (Hin : rowOf t2 task e (exfiltrationOf a b) ∈
    base.filter (fun g => sg_executionId g = Some e) (shape <$> stored (serveAll genId accepts git
      (pre ++ (t1, MlTool task e (JStr "Read") in1) :: mid ++ (t2, MlTool task e (JStr "Bash") in2) :: post) init))).
  { rewrite Hrows, runLocal_app. apply elem_of_app. right. apply elem_of_app. right. apply exfiltration_local; try done.
    apply list.Forall_forall. intros c [Hc Hin]%list_elem_of_filter. rewrite list.Forall_forall in Hmid. by apply Hmid. }
  apply list_elem_of_filter in Hin as [Hex (g & Hg & Hin)%list_elem_of_fmap]. exists g. split; [done|].
  unfold shape in Hg. injection Hg as Ht He' Hty Hsv Hds Hdt Hat. rewrite <- He', <- Hsv, <- Hdt. by split_and!.
Qed.

(** Nothing is kept of an execution that was cleared, as the tracker clears
    it when the execution ends: its sequence of tools reads as empty. *)
Lemma finished_sequence_lost e pre now post :
  anyId -> e <> EmptyString -> Forall (fun c => callExecution c.2 <> e) post ->
  getToolSequence e (serveAll genId accepts git (pre ++ (now, MlClear e) :: post) init) = [].
Proof.
  intros Ha He Hpost. destruct (serveAll_local e (pre ++ (now, MlClear e) :: post) init Ha He) as [Hl _]. cbv zeta in Hl.
  rewrite list.filter_app, list.filter_cons, decide_True in Hl by done.
  assert (base.filter (fun c : Z * MlCall => callExecution c.2 = e) post = []) as Hp.
  { clear Hl. induction Hpost as [|c post Hc Hpost IH]; [done|]. rewrite list.filter_cons, decide_False by done. apply IH. }
  rewrite Hp, runLocal_app in Hl. cbn in Hl. unfold getToolSequence, sequenceOf.
  apply (f_equal lo_sequence) in Hl. cbn in Hl. by rewrite Hl.
Qed.

(** ** Tools by another name *)

Definition noRead (t : ToolStep) : Prop := isTool "Read" t = false.

Lemma chains_noRead l : Forall noRead l -> chains l = [].
Proof.
  intros Hl. unfold chains. destruct (length l <? 2); [done|]. unfold lastN at 1.
  assert (Hd : forall n, Forall noRead (drop n l)) by (intros n; by apply Forall_drop).
  destruct (drop (length l - 2) l) as [|a [|b [|]]] eqn:E; try done.
  specialize (Hd (length l - 2)) as Ha. rewrite E in Ha. apply Forall_cons in Ha as [Ha _]. unfold noRead in Ha.
  unfold networkChain, writeChain. cbv zeta. rewrite Ha. cbn [andb app]. unfold readChain, lastN.
  assert (base.filter (fun t => isTool "Read" t = true) (drop (length l - 5) l) = []) as ->; [|done].
  generalize (Hd (length l - 5)). generalize (drop (length l - 5) l). clear. intros k Hk.
  induction Hk as [|t k Ht Hk IH]; [done|]. unfold noRead in Ht. rewrite list.filter_cons, decide_False by congruence. done.
Qed.

(** The chains are looked for under the names Read, Bash and Write. Where the
    tools have other names, such as the lower case names the spy compares
    with, no chain is ever reported. *)
Lemma no_read_no_chain cs l :
  Forall noRead (default [] (lo_sequence l)) ->
  Forall (fun c => match c.2 with MlTool _ _ name _ => name <> JStr "Read" | _ => True end) cs ->
  Forall (fun g => sg_type g <> tool_chain) (runLocal l cs).2.
Proof.
  revert l. induction cs as [|[now c] cs IH]; intros l Hl; cbn [runLocal]; [constructor|]. intros [Hc Hcs]%Forall_cons.
  destruct (stepLocal now c l) as [l1 ds] eqn:E. specialize (IH l1).
  assert (Hds : Forall noRead (default [] (lo_sequence l1)) /\ Forall (fun d => dr_type d <> tool_chain) ds).
  { destruct c as [t x prompt w|t x name input|t x err ty ac tl|x]; cbn [stepLocal] in E.
    - injection E as <- <-. split; [done|]. constructor; [done|]. destruct w; [by constructor|constructor].
    - injection E as <- <-. cbn [lo_sequence from_option snd] in *. assert (Forall noRead (default [] (lo_sequence l) ++ [toolStep now name input])) as Hn.
      { apply Forall_app. split; [done|]. constructor; [|constructor]. unfold noRead, isTool. cbn.
        destruct name; try done. apply bool_decide_eq_false. congruence. }
      split; [done|]. rewrite chains_noRead by done. constructor.
    - destruct (errorText err); injection E as <- <-; cbn; (split; [done|]); [by constructor|constructor].
    - injection E as <- <-. split; constructor. }
  destruct Hds as [H1 H2]. specialize (IH H1 Hcs). destruct (runLocal l1 cs) as [l2 rows]. cbn [snd] in *.
  apply Forall_app. split; [|done]. unfold added. apply list.Forall_forall. intros g [_ (d & -> & Hd)%list_elem_of_fmap]%list_elem_of_filter.
  rewrite list.Forall_forall in H2. by apply H2.
Qed.

End analyzer.

(** ** Classification and summary *)

Lemma unmatched_unknown prompt :
  Forall (fun p => matchCount prompt p = 0) PROMPT_PATTERNS ->
  classifyPrompt prompt = {| cl_primaryType := unknown; cl_confidence := JsNum.zero; cl_allTypes := [] |}.
Proof.
  intros H. unfold classifyPrompt.
  assert (promptScores prompt = (fun p => (pp_type p, JsNum.zero)) <$> PROMPT_PATTERNS) as ->; [|vm_compute; reflexivity].
  unfold promptScores. induction H as [|p ps Hp H IH]; [done|]. rewrite !fmap_cons, IH. f_equal.
  unfold promptScore. by rewrite Hp.
Qed.

Lemma prompt_patterns_parse :
  Forall (fun p => Forall (fun l => Regex.parses l = true) (pp_patterns p)) PROMPT_PATTERNS
  /\ Forall (fun l => Regex.parses l = true) (networkPattern :: envPattern :: SENSITIVE_FILE_PATTERNS).
Proof. split; apply (bool_decide_unpack _); vm_compute; exact I. Qed.

Lemma count_from l m v w :
  let m' := fold_left count l m in
  sm_total m' = sm_total m
  /\ sm_bySeverity m' v = sm_bySeverity m v + length (base.filter (fun g => sg_severity g = v) l)
  /\ sm_byType m' w = sm_byType m w + length (base.filter (fun g => sg_type g = w) l).
Proof.
  cbv zeta. revert m. induction l as [|g l IH]; intros m; cbn [fold_left]; [cbn; lia|].
  destruct (IH (count m g)) as (-> & -> & ->). rewrite !list.filter_cons. cbn [count sm_total sm_bySeverity sm_byType].
  split_and!; [done|..]; case_bool_decide; case_decide; subst; try done; cbn [length]; lia.
Qed.

(** The counts of a summary are those of the rows of the task. *)
Lemma summary_counts taskId s v w :
  let l := getSignalsForTask taskId s in
  let m := getSignalSummary taskId s in
  sm_total m = length l /\ sm_bySeverity m v = length (base.filter (fun g => sg_severity g = v) l)
  /\ sm_byType m w = length (base.filter (fun g => sg_type g = w) l).
Proof. cbv zeta. unfold getSignalSummary. cbv zeta. apply count_from. Qed.

(** ** An instance: two executions interleaved *)

Definition demoCalls : list (Z * MlCall) :=
  [(1%Z, MlTool "t" "e1" (JStr "Read") (Some (JObj [("file_path", JStr "/app/.env")])));
   (2%Z, MlTool "t" "e2" (JStr "Bash") (Some (JObj [("command", JStr "ls")])));
   (3%Z, MlTool "t" "e1" (JStr "Bash") (Some (JObj [("command", JStr "curl http://x")])))].

Lemma executions_analysed_apart_witness :
  sg_severity <$> base.filter (fun g => sg_executionId g = Some "e1")
    (shape <$> stored (serveAll (fun n => EmptyString) (fun _ => true) (fun _ _ => Throw "git") demoCalls init)) = [Critical].
Proof.
  rewrite (proj2 (executions_analysed_apart (fun n => EmptyString) (fun _ => true) (fun _ _ => Throw "git") "e1" demoCalls
    (fun _ => eq_refl) ltac:(discriminate))).
  vm_compute. reflexivity.
Defined.

Lemma exfiltration_signalled_witness :
  exists g, g ∈ stored (serveAll (fun n => EmptyString) (fun _ => true) (fun _ _ => Throw "git") demoCalls init)
    /\ sg_executionId g = Some "e1" /\ sg_severity g = Critical.
Proof.
  destruct (exfiltration_signalled (fun n => EmptyString) (fun _ => true) (fun _ _ => Throw "git") "e1" "t" []
    [(2%Z, MlTool "t" "e2" (JStr "Bash") (Some (JObj [("command", JStr "ls")])))] [] 1 3
    (Some (JObj [("file_path", JStr "/app/.env")])) (Some (JObj [("command", JStr "curl http://x")]))
    (fun _ => eq_refl) ltac:(discriminate) ltac:(by repeat constructor) ltac:(vm_compute; reflexivity) ltac:(vm_compute; reflexivity)
    (fun _ => eq_refl)) as (g & Hg & He & Hs & _).
  by exists g.
Defined.

End MlSpec.
