(* ===== verification/GitService.v ===== *)
(** * The git service (src/services/git/GitService.ts)

    Every operation as the commands it runs, in order, and what it makes of
    their answers. The shell is a parameter: a command run in a directory
    answers or fails and may change the state [G] behind it. *)

From S2P Require Import Prelude JsNumber Json Regex AgentSpy TaskRoutes Workspace.
From stdpp Require Import list pretty options.

Module GitService.
Import Js Json Regex WorkspaceService.

Record BranchInfo := { bi_name : string; bi_taskId : string; bi_createdAt : Z }.
Record CommitInfo := { ci_hash : string; ci_message : string; ci_storyId : option string }.
Record PullRequestInfo := { pi_number : Z; pi_url : string; pi_title : string; pi_body : string; pi_branch : string }.
Record Checks := { ck_passed : nat; ck_failed : nat; ck_pending : nat }.
Record PullRequestStatus := { prs_state : string; prs_mergeable : bool; prs_checks : Checks }.

Definition newline : string := String "010" EmptyString.

Section service.
Context {G : Type} (exec : string -> string -> G -> outcome string * G).

(** The state behind the commands, and the commands run: directory and text. *)
Record Shell := { sh_state : G; sh_log : list (string * string) }.

Definition execAsync (command cwd : string) : JsM Shell string := fun s =>
  let '(r, g) := exec cwd command (sh_state s) in (r, {| sh_state := g; sh_log := sh_log s ++ [(cwd, command)] |}).

Definition rethrow {A} (prefix : string) (m : JsM Shell A) : JsM Shell A := try_catch m (fun e => throw (prefix +:+ e)).

Definition git (command cwd : string) : JsM Shell string :=
  rethrow "Git command failed: " (out ← execAsync ("git " +:+ command) cwd; mret (TaskRoutes.trim out)).

Definition gh (command cwd : string) : JsM Shell string :=
  rethrow "GitHub CLI failed: " (out ← execAsync ("gh " +:+ command) cwd; mret (TaskRoutes.trim out)).

(** ** Branches *)

Definition createBranch (now : Z) (taskId directory baseBranch : string) : JsM Shell BranchInfo :=
  let branchName := "task/" +:+ taskId in
  git "fetch origin" directory;;
  git ("checkout -b " +:+ branchName +:+ " origin/" +:+ baseBranch) directory;;
  mret {| bi_name := branchName; bi_taskId := taskId; bi_createdAt := now |}.

Definition getCurrentBranch (directory : string) : JsM Shell string := git "rev-parse --abbrev-ref HEAD" directory.

Definition checkout (directory branch : string) : JsM Shell unit := git ("checkout " +:+ branch) directory;; mret tt.

Definition pull (directory : string) : JsM Shell unit := git "pull" directory;; mret tt.

Definition orElse {A} (m : JsM Shell A) (v : A) : JsM Shell A := try_catch m (fun _ => mret v).

Definition branchExists (directory branch : string) : JsM Shell bool :=
  orElse (git ("rev-parse --verify " +:+ branch) directory;; mret true) false.

Definition deleteBranch (directory branch : string) : JsM Shell unit :=
  orElse (git ("branch -D " +:+ branch) directory;; mret tt) tt;;
  orElse (git ("push origin --delete " +:+ branch) directory;; mret tt) tt.

(** ** Changes *)

Definition hasChanges (directory : string) : JsM Shell bool :=
  status ← git "status --porcelain" directory; mret (0 <? JsStr.length status).

(** [line.substring(3).trim()] of the lines that are not blank *)
Definition changedFile (line : string) : option string :=
  if JsStr.truthy (TaskRoutes.trim line) then Some (TaskRoutes.trim (JsStr.drop 3 line)) else None.

Definition getChangedFiles (directory : string) : JsM Shell (list string) :=
  status ← git "status --porcelain" directory;
  mret (if JsStr.truthy status then omap changedFile (AgentSpy.splitLines status) else []).

Definition stageAll (directory : string) : JsM Shell unit := git "add -A" directory;; mret tt.

Record StoryOptions := { so_storyId : option string; so_storyTitle : option string }.

Definition fullMessage (message : string) (o : option StoryOptions) : string :=
  match JsStr.orNull (o ≫= so_storyId), JsStr.orNull (o ≫= so_storyTitle) with
  | Some i, Some t => "[" +:+ i +:+ "] " +:+ t +:+ newline +:+ newline +:+ message
  | _, _ => message
  end.

Definition commit (directory message : string) (o : option StoryOptions) : JsM Shell CommitInfo :=
  stageAll directory;;
  git ("commit -m " +:+ quoted (escape (fullMessage message o))) directory;;
  hash ← git "rev-parse HEAD" directory;
  mret {| ci_hash := hash; ci_message := fullMessage message o; ci_storyId := o ≫= so_storyId |}.

Definition push (directory : string) (branch : option string) : JsM Shell unit :=
  current ← match JsStr.orNull branch with Some b => mret b | None => getCurrentBranch directory end;
  git ("push -u origin " +:+ current) directory;; mret tt.

Definition commitAndPush (directory message : string) (o : option StoryOptions) : JsM Shell CommitInfo :=
  changed ← hasChanges directory;
  if negb changed then mret {| ci_hash := EmptyString; ci_message := "No changes"; ci_storyId := None |}
  else c ← commit directory message o; push directory None;; mret c.

(** ** Pull requests *)

Record PullRequestOptions := { po_title : string; po_body : string; po_baseBranch : option string; po_draft : bool }.

(** [s.replace(/\n/g, '\\n')] *)
Fixpoint escapeLines (s : string) : string :=
  match s with
  | EmptyString => EmptyString
  | String c s' => if bool_decide (c = "010"%char) then String "\" (String "n" (escapeLines s')) else String c (escapeLines s')
  end.

Definition createCommand (base head : string) (o : PullRequestOptions) : string :=
  "pr create --base " +:+ base +:+ " --head " +:+ head +:+ " --title " +:+ quoted (escape (po_title o)) +:+ " --body " +:+
  quoted (escapeLines (escape (po_body o))) +:+ " " +:+ (if po_draft o then "--draft" else EmptyString).

Definition urlPattern : literal := cs "https:\/\/github\.com\/[^\s]+".
Definition numberPattern : literal := cs "\/pull\/(\d+)".

Definition litMatch1 (l : literal) (s : string) : option string := r ← compile (lit_source l); match1 (lit_ci l) r s.

(** The number in the address, 0 without one. *)
Definition pullNumber (url : string) : Z := default 0%Z (litMatch1 numberPattern url ≫= JsNum.numberFrom 0).

Definition createPullRequest (directory : string) (o : PullRequestOptions) : JsM Shell PullRequestInfo :=
  current ← getCurrentBranch directory;
  push directory (Some current);;
  output ← gh (createCommand (default "main" (JsStr.orNull (po_baseBranch o))) current o) directory;
  match litMatch urlPattern output with
  | None => throw ("Failed to parse PR URL from output: " +:+ output)
  | Some url =>
      mret {| pi_number := pullNumber url; pi_url := url; pi_title := po_title o; pi_body := po_body o; pi_branch := current |}
  end.

Inductive MergeMethod := MMerge | MSquash | MRebase.

Definition methodName (m : MergeMethod) : string :=
  match m with MMerge => "merge" | MSquash => "squash" | MRebase => "rebase" end.

Definition mergePullRequest (directory : string) (prNumber : Z) (method : option MergeMethod) (deleteAfterMerge : option bool)
    : JsM Shell unit :=
  gh ("pr merge " +:+ pretty prNumber +:+ " --" +:+ methodName (default MSquash method) +:+ " " +:+
      (if default true deleteAfterMerge then "--delete-branch" else EmptyString)) directory;;
  mret tt.

(** The elements a [for ... of] visits; anything else is not iterable. *)
Definition iterate (v : option Json) : outcome (list Json) :=
  match v with
  | None | Some JNull | Some (JBool false) => Ok []
  | Some (JArr l) => Ok l
  | Some (JStr s) => Ok ((fun c => JStr (String c EmptyString)) <$> String.list_ascii_of_string s)
  | Some (JNum n) => if JsNum.truthy n then Throw "not iterable" else Ok []
  | Some _ => Throw "not iterable"
  end.

Definition addCheck (k : Checks) (c : Json) : Checks :=
  match field "conclusion" c with
  | Some (JStr v) =>
      if bool_decide (v = "SUCCESS") then {| ck_passed := S (ck_passed k); ck_failed := ck_failed k; ck_pending := ck_pending k |}
      else if bool_decide (v = "FAILURE") then {| ck_passed := ck_passed k; ck_failed := S (ck_failed k); ck_pending := ck_pending k |}
      else {| ck_passed := ck_passed k; ck_failed := ck_failed k; ck_pending := S (ck_pending k) |}
  | _ => {| ck_passed := ck_passed k; ck_failed := ck_failed k; ck_pending := S (ck_pending k) |}
  end.

Definition isNull (v : Json) : bool := match v with JNull => true | _ => false end.

(** What is read of the parsed answer; a property of [null] and a state that
    is not a string throw. *)
Definition readStatus (data : Json) : outcome PullRequestStatus :=
  if isNull data then Throw "Cannot read properties of null"
  else match iterate (field "statusCheckRollup" data) with
       | Throw e => Throw e
       | Ok l =>
           if existsb isNull l then Throw "Cannot read properties of null"
           else match field "state" data with
                | Some (JStr st) =>
                    Ok {| prs_state := AgentSpy.toLowerCase st;
                          prs_mergeable := match field "mergeable" data with Some (JStr v) => bool_decide (v = "MERGEABLE") | _ => false end;
                          prs_checks := fold_left addCheck l {| ck_passed := 0; ck_failed := 0; ck_pending := 0 |} |}
                | _ => Throw "toLowerCase is not a function"
                end
       end.

Definition getPullRequestStatus (parse : string -> outcome Json) (directory : string) (prNumber : Z) : JsM Shell PullRequestStatus :=
  result ← gh ("pr view " +:+ pretty prNumber +:+ " --json state,mergeable,statusCheckRollup") directory;
  match parse result with
  | Throw e => throw e
  | Ok data => match readStatus data with Ok st => mret st | Throw e => throw e end
  end.

(** ** Descriptions and differences *)

Definition setBranchDescription (directory description : string) : JsM Shell unit :=
  branch ← getCurrentBranch directory;
  git ("config branch." +:+ branch +:+ ".description " +:+ quoted (escape description)) directory;; mret tt.

Definition getBranchDescription (directory : string) : JsM Shell (option string) :=
  orElse (branch ← getCurrentBranch directory; d ← git ("config branch." +:+ branch +:+ ".description") directory; mret (Some d)) None.

Definition getDiffSummary (directory : string) : JsM Shell string := orElse (git "diff --stat HEAD" directory) EmptyString.

Definition truncateDiff (diff : string) (maxLines : nat) : string :=
  let lines := AgentSpy.splitLines diff in
  if maxLines <? length lines then
    String.concat newline (take maxLines lines) +:+ newline +:+ newline +:+ "... (truncated, " +:+
    pretty (length lines - maxLines) +:+ " more lines)"
  else diff.

Definition getFullDiff (directory : string) (maxLines : nat) : JsM Shell string :=
  orElse (diff ← git "diff HEAD" directory; mret (truncateDiff diff maxLines)) EmptyString.

Definition getFileDiff (directory filePath : string) : JsM Shell string :=
  orElse (git ("diff HEAD -- " +:+ quoted filePath) directory) EmptyString.

(** ** Checkpoints *)

Definition createCheckpoint (now : Z) (directory name : string) : JsM Shell (option string) :=
  orElse
    (changed ← hasChanges directory;
     if negb changed then mret None
     else
       stageAll directory;;
       let message := "checkpoint-" +:+ name +:+ "-" +:+ pretty now in
       git ("stash push -m " +:+ quoted message) directory;;
       mret (Some message)) None.

Definition stashPattern : literal := cs "^(stash@\{\d+\})".

(** The reference of the first listed stash whose line has the name in it. *)
Definition stashRef (checkpointName list : string) : option string :=
  head (omap (fun line => if JsStr.includes checkpointName line then litMatch1 stashPattern line else None)
    (AgentSpy.splitLines list)).

Definition onCheckpoint (action directory checkpointName : string) : JsM Shell bool :=
  orElse
    (list ← git "stash list" directory;
     match stashRef checkpointName list with
     | Some ref => git ("stash " +:+ action +:+ " " +:+ ref) directory;; mret true
     | None => mret false
     end) false.

Definition restoreCheckpoint : string -> string -> JsM Shell bool := onCheckpoint "pop".
Definition dropCheckpoint : string -> string -> JsM Shell bool := onCheckpoint "drop".

Definition discardChanges (directory : string) : JsM Shell unit :=
  orElse (git "reset --hard HEAD" directory;; git "clean -fd" directory;; mret tt) tt.

End service.
End GitService.
