(* ===== verification/GitServiceProofs.v ===== *)
(** * The git service: the commands of a commit, and the branches the developer
    phase does not get *)

From S2P Require Import Prelude JsNumber Json Regex TaskTypes AgentSpy TaskRoutes Workspace GitService BuildCheck DeveloperPhase DeveloperPhaseProofs.
From stdpp Require Import list options.
Import Js GitService.

Module GitSpec.

Section service.
Context {G : Type} (exec : string -> string -> G -> outcome string * G).
#[local] Set Default Proof Using "Type".

Abbreviation Shell := (@Shell G).

(** ** One command *)

Definition ran (s : Shell) (g : G) (cwd command : string) : Shell :=
  {| sh_state := g; sh_log := sh_log s ++ [(cwd, command)] |}.

Lemma git_run command cwd s :
  git exec command cwd s
  = let '(r, g) := exec cwd ("git " +:+ command) (sh_state s) in
    (match r with Ok out => Ok (TaskRoutes.trim out) | Throw e => Throw ("Git command failed: " +:+ e) end,
     ran s g cwd ("git " +:+ command)).
Proof.
  unfold git, rethrow, try_catch, mbind, jsm_bind, execAsync.
  destruct (exec cwd ("git " +:+ command) (sh_state s)) as [[out|e] g]; reflexivity.
Qed.

Lemma bind_git {A} command cwd (k : string -> JsM Shell A) s :
  (git exec command cwd ≫= k) s
  = let '(r, g) := exec cwd ("git " +:+ command) (sh_state s) in
    match r with
    | Ok out => k (TaskRoutes.trim out) (ran s g cwd ("git " +:+ command))
    | Throw e => (Throw ("Git command failed: " +:+ e), ran s g cwd ("git " +:+ command))
    end.
Proof.
  unfold mbind, jsm_bind. rewrite git_run. destruct (exec cwd _ (sh_state s)) as [[out|e] g]; reflexivity.
Qed.



(** ** Commit and push *)




(** ** The developer phase over the git service *)

(** An environment of the phase whose branch operations are those of the git
    service, called with the arguments the phase gives them: the path of the
    repository as the task, and the branch as the directory. *)
Class OverGit (E : Type) `{DeveloperPhase.DevEnv E} (now : Z) (shell : E -> Shell) (withShell : Shell -> E -> E) : Prop := {
  shell_withShell s e : shell (withShell s e) = s;
  checkout_git p b e :
    DeveloperPhase.checkout p b e
    = let '(r, s) := checkout exec p b (shell e) in (r, withShell s e);
  createBranch_git p b e :
    DeveloperPhase.createBranch p b e
    = let '(r, s) := createBranch exec now p b "main" (shell e) in
      (match r with Ok _ => Ok tt | Throw m => Throw m end, withShell s e);
}.

Section developer.
Context {E : Type} `{D : DeveloperPhase.DevEnv E} (now : Z) (shell : E -> Shell) (withShell : Shell -> E -> E)
  {O : OverGit E now shell withShell}.
Context (c : DeveloperPhase.DeveloperPhaseContext).
#[local] Set Default Proof Using "Type*".

Abbreviation branch := (DeveloperPhase.d_branchName c).
Abbreviation shellOf w := (shell (DeveloperPhase.env w)).

Lemma checkout_run p s r e : checkout exec p branch s = (r, e) ->
  let '(o, g) := exec p ("git checkout " +:+ branch) (sh_state s) in
  e = ran s g p ("git checkout " +:+ branch) /\ match o with Ok _ => r = Ok tt | Throw _ => exists m, r = Throw m end.
Proof.
  unfold checkout. rewrite bind_git. change ("git " +:+ ("checkout " +:+ branch)) with ("git checkout " +:+ branch).
  destruct (exec p _ (sh_state s)) as [[x|x] g]; intros [= <- <-]; eauto.
Qed.

(** In a directory that does not exist the fetch fails and nothing follows. *)
Lemma createBranch_run p s :
  (forall command g, exists m, (exec branch command g).1 = Throw m) ->
  exists m, createBranch exec now p branch "main" s
    = (Throw m, ran s (exec branch "git fetch origin" (sh_state s)).2 branch "git fetch origin").
Proof.
  intros Hd. unfold createBranch. cbv zeta. rewrite bind_git. change ("git " +:+ "fetch origin") with "git fetch origin".
  specialize (Hd "git fetch origin" (sh_state s)) as [m Hm].
  destruct (exec branch _ (sh_state s)) as [r g]. cbn in Hm. subst r. by eexists.
Qed.

(** The commands of the loop, and the state they leave: a checkout in each
    repository, and after one that fails a fetch in the directory [branch]. *)
Fixpoint loopCommands (paths : list string) (g : G) : list (string * string) * G :=
  match paths with
  | [] => ([], g)
  | p :: ps =>
      let '(o, g1) := exec p ("git checkout " +:+ branch) g in
      match o with
      | Ok _ => let '(l, g2) := loopCommands ps g1 in ((p, "git checkout " +:+ branch) :: l, g2)
      | Throw _ =>
          let '(l, g2) := loopCommands ps (exec branch "git fetch origin" g1).2 in
          ((p, "git checkout " +:+ branch) :: (branch, "git fetch origin") :: l, g2)
      end
  end.

Lemma checkout_step r w :
  (forall command g, exists m, (exec branch command g).1 = Throw m) ->
  let p := r_localPath r in
  exists w', (try_catch
      (DeveloperPhase.call (fun _ => DeveloperPhase.ACheckout p branch) (DeveloperPhase.checkout p branch))
      (fun _ => DeveloperPhase.attempt (DeveloperPhase.call (fun _ => DeveloperPhase.ACreateBranch p branch)
                  (DeveloperPhase.createBranch p branch));; mret tt)) w = (Ok tt, w')
    /\ (sh_log (shellOf w'), sh_state (shellOf w'))
       = (let '(l, g) := loopCommands [p] (sh_state (shellOf w)) in (sh_log (shellOf w) ++ l, g)).
Proof.
  intros Hd p. unfold try_catch, DeveloperPhase.call. rewrite checkout_git. cbn [loopCommands].
  destruct (checkout exec p branch (shellOf w)) as [r1 s1] eqn:E1. apply checkout_run in E1.
  destruct (exec p _ (sh_state (shellOf w))) as [[o|o] g1]; destruct E1 as [-> Hr].
  - subst r1. eexists. split; [done|]. cbn. by rewrite shell_withShell.
  - destruct Hr as [m ->].
    cbn [DeveloperPhase.env]. unfold DeveloperPhase.attempt, try_catch, mbind, jsm_bind. rewrite createBranch_git. cbn [DeveloperPhase.env].
    rewrite shell_withShell.
    destruct (createBranch_run p (ran (shellOf w) g1 p ("git checkout " +:+ branch)) Hd) as (m' & ->).
    eexists. split; [done|]. cbn. rewrite shell_withShell. cbn. by rewrite <- app_assoc.
Qed.

Lemma loopCommands_cons p ps g :
  loopCommands (p :: ps) g
  = let '(l1, g1) := loopCommands [p] g in let '(l2, g2) := loopCommands ps g1 in (l1 ++ l2, g2).
Proof.
  cbn [loopCommands]. destruct (exec p _ g) as [[o|o] g1]; cbn; by destruct (loopCommands ps _).
Qed.

(** One checkout in each repository, in order, and nothing else but the fetches. *)
Lemma loopCommands_kinds paths g :
  (base.filter (fun e => e.2 = "git checkout " +:+ branch) (loopCommands paths g).1).*1 = paths
  /\ forall e, e ∈ (loopCommands paths g).1 -> e.2 = "git checkout " +:+ branch \/ e = (branch, "git fetch origin").
Proof.
  revert g. induction paths as [|p ps IH]; intros g; [by split; [|intros e ?%not_elem_of_nil]|].
  cbn [loopCommands]. destruct (exec p _ g) as [[o|o] g1].
  - destruct (IH g1) as [IH1 IH2]. destruct (loopCommands ps g1) as [l g2]. cbn [fst] in *. split.
    + rewrite filter_cons, decide_True by done. cbn. by rewrite IH1.
    + intros e [->|He]%elem_of_cons; [by left|auto].
  - destruct (IH (exec branch "git fetch origin" g1).2) as [IH1 IH2].
    destruct (loopCommands ps _) as [l g2]. cbn [fst] in *. split.
    + rewrite filter_cons, decide_True by done. rewrite filter_cons, decide_False by done. cbn. by rewrite IH1.
    + intros e [->|[->|He]%elem_of_cons]%elem_of_cons; [by left|by right|auto].
Qed.

(** C11: The loop at the start of the developer phase that puts every repository
    on the branch of the task runs, whatever git answers, exactly this: in each
    repository, in order, a checkout of the branch and, when that fails, a fetch
    in a directory named like the branch; the code hands the path of the
    repository to [createBranch] as the task and the branch as the directory,
    there is no directory of that name, the fetch fails and the [checkout -b]
    that should follow is never run. The loop succeeds all the same. A
    repository whose checkout fails stays on the branch it was on (a branch the
    remote has may be created by the checkout itself, by git). *)
Theorem checkout_loop_commands w :
  (forall command g, exists m, (exec branch command g).1 = Throw m) ->
  let paths := r_localPath <$> DeveloperPhase.d_repositories c in
  let '(l, g) := loopCommands paths (sh_state (shellOf w)) in
  exists w', DeveloperPhase.checkoutAll c w = (Ok tt, w')
    /\ sh_log (shellOf w') = sh_log (shellOf w) ++ l
    /\ sh_state (shellOf w') = g
    /\ (base.filter (fun e => e.2 = "git checkout " +:+ branch) l).*1 = paths
    /\ forall e, e ∈ l -> e.2 = "git checkout " +:+ branch \/ e = (branch, "git fetch origin").
Proof.
  intros Hd paths. pose proof (loopCommands_kinds paths (sh_state (shellOf w))) as Hk.
  unfold DeveloperPhase.checkoutAll. subst paths.
  destruct (loopCommands _ _) as [l g] eqn:El. cbn [fst] in Hk. destruct Hk as [Hk1 Hk2].
  enough (exists w', DeveloperPhase.forRepos (fun r => _) (DeveloperPhase.d_repositories c) w = (Ok tt, w')
    /\ sh_log (shellOf w') = sh_log (shellOf w) ++ l /\ sh_state (shellOf w') = g) as (w' & H1 & H2 & H3)
    by (exists w'; split_and!; [exact H1|done..]).
  clear Hk1 Hk2. revert w l g El.
  induction (DeveloperPhase.d_repositories c) as [|r rs IH]; intros w l g El; cbn [DeveloperPhase.forRepos].
  { exists w. injection El as <- <-. by rewrite app_nil_r. }
  rewrite fmap_cons, loopCommands_cons in El. destruct (checkout_step r w Hd) as (w1 & H1 & Hl1). cbv zeta in H1.
  destruct (loopCommands [_] _) as [l1 g1]. injection Hl1 as Hlog1 Hst1.
  destruct (loopCommands (r_localPath <$> rs) g1) as [l2 g2] eqn:E2. injection El as <- <-.
  rewrite <- Hst1 in E2. destruct (IH w1 l2 g2 E2) as (w2 & H2 & Hl2 & Hg2).
  exists w2. rewrite (bind_ok _ _ _ _ _ H1). split; [exact H2|]. by rewrite Hl2, Hlog1, app_assoc.
Qed.

End developer.
End service.
(** ** An instance: a repository without the branch *)

(** Every command fails. *)
Definition demoExec : string -> string -> unit -> outcome string * unit := fun _ _ g => (Throw "fatal", g).

#[local] Instance demoGitEnv : DeveloperPhase.DevEnv (Shell (G := unit)) :=
  {| DeveloperPhase.checkout p b s := checkout demoExec p b s;
     DeveloperPhase.createBranch p b s :=
       let '(r, s') := createBranch demoExec 5 p b "main" s in (match r with Ok _ => Ok tt | Throw m => Throw m end, s');
     DeveloperPhase.createSession _ s := (Ok "ses", s); DeveloperPhase.sendPrompt _ _ s := (Ok tt, s);
     DeveloperPhase.waitForIdle _ s := (Ok [], s); DeveloperPhase.hasChanges p s := hasChanges demoExec p s;
     DeveloperPhase.files _ _ := BuildCheck.demoFs;
     DeveloperPhase.exec _ _ s := (BuildCheck.Exited "ok" "", s);
     DeveloperPhase.commitAndPush _ _ s := (Throw "fatal", s); DeveloperPhase.discardChanges p s := discardChanges demoExec p s;
     DeveloperPhase.getChangedFiles p s := getChangedFiles demoExec p s; DeveloperPhase.getFullDiff p s := getFullDiff demoExec p 300 s;
     DeveloperPhase.requestApproval _ _ s := (Throw "none", s); DeveloperPhase.jsonParse _ := None |}.

#[local] Instance demoOverGit : OverGit demoExec (Shell (G := unit)) 5 (fun s => s) (fun s _ => s).
Proof. split; [done| |]; intros p b e; cbn; [by destruct (checkout _ _ _ _)|done]. Qed.

Definition demoShellWorld : DeveloperPhase.W (Shell (G := unit)) :=
  {| DeveloperPhase.env := {| sh_state := tt; sh_log := [] |}; DeveloperPhase.sessions := []; DeveloperPhase.tasks := ∅;
     DeveloperPhase.trace := [] |}.

Lemma checkout_loop_commands_witness :
  exists w', DeveloperPhase.checkoutAll (DevSpec.demoContext true) demoShellWorld = (Ok tt, w')
    /\ sh_log (DeveloperPhase.env w') = [("/w/api", "git checkout b"); ("b", "git fetch origin")].
Proof.
  destruct (checkout_loop_commands demoExec 5 (fun s => s) (fun s _ => s) (DevSpec.demoContext true) demoShellWorld
    (fun _ _ => ex_intro _ "fatal" eq_refl)) as (w' & Hw & Hl & _).
  exists w'. split; [exact Hw|exact Hl].
Defined.

(** ** Two readings that go wrong *)

(** The answer is trimmed before it is cut at the third character of a line: a
    file that is only modified, listed first, loses the first letter of its
    name. *)
Example first_changed_file_cut :
  (getChangedFiles (fun _ _ g => (Ok (" M src/a.ts" +:+ newline +:+ " M src/b.ts" +:+ newline), g)) "/w"
     {| sh_state := tt; sh_log := [] |}).1 = Ok ["rc/a.ts"; "src/b.ts"].
Proof. vm_compute. reflexivity. Qed.

(** A checkpoint is looked up by the occurrence of its name: another whose
    name only begins with it is taken when it is listed first. *)
Example checkpoint_by_prefix :
  stashRef "checkpoint-story-1" ("stash@{0}: On b: checkpoint-story-10-5" +:+ newline +:+ "stash@{1}: On b: checkpoint-story-1-4")
  = Some "stash@{0}".
Proof. vm_compute. reflexivity. Qed.

(** The number of a pull request is the first one after a [/pull/] of the
    address, be it part of the name of a repository. *)
Example pull_number_of_name :
  pullNumber "https://github.com/o/r/pull/17" = 17%Z /\ pullNumber "https://github.com/pull/3d/pull/17" = 3%Z.
Proof. split; vm_compute; reflexivity. Qed.

End GitSpec.
