(* ===== verification/GitHubEnhanced.v ===== *)
(** * GitHub texts (src/services/git/GitHubEnhancedService.ts)

    Branch names, commit messages, descriptions and labels of pull requests,
    the numbers of the issues a text mentions, and the requests to the GitHub
    client, which is a parameter: a request answers a value or fails and may
    change the state [G]. Texts are 8-bit units, numbers of issues integers (a
    text has at most fifteen digits in a row). *)

From S2P Require Import Prelude JsNumber Json Regex TaskTypes AgentSpy TaskRoutes ProjectRoutes GitService.
From stdpp Require Import pretty list options.

Module GitHubEnhanced.
Import Js Json.

Inductive BranchPrefix := BrFeature | BrFix | BrRefactor | BrDocs | BrTest | BrChore.

Record BranchConfig := { bc_prefix : BranchPrefix; bc_taskId : string; bc_title : string; bc_issueNumber : option Z }.

Record PRConfig := {
  pc_owner : string; pc_repo : string; pc_head : string; pc_base : string; pc_title : string; pc_body : option string;
  pc_labels : option (list string); pc_reviewers : option (list string); pc_draft : option bool }.

Record PRDescription := {
  pd_summary : string; pd_changes : list string; pd_testPlan : list string; pd_breakingChanges : option (list string);
  pd_issueLinks : list string }.

Record CommitConfig := {
  cc_type : string; cc_scope : option string; cc_description : string; cc_body : option string; cc_issueNumber : option Z;
  cc_breaking : option bool }.

Definition BRANCH_PREFIXES (p : BranchPrefix) : string :=
  match p with
  | BrFeature => "feat" | BrFix => "fix" | BrRefactor => "refactor" | BrDocs => "docs" | BrTest => "test" | BrChore => "chore"
  end.

Definition nl : string := GitService.newline.

(** A number that is present and not zero. *)
Definition nonZero (n : option Z) : option Z := x ← n; if (x =? 0)%Z then None else Some x.

(** ** Branch names *)

(** [[a-z0-9]] *)
Definition isPlain (c : Ascii.ascii) : bool := Regex.inRanges [(48, 57); (97, 122)]%N (Regex.code c).

(** [s.replace(/[^a-z0-9\s-]/g, '')] *)
Fixpoint removeSpecial (s : string) : string :=
  match s with
  | EmptyString => EmptyString
  | String c s' =>
      if isPlain c || Json.isSpace c || bool_decide (c = "-"%char) then String c (removeSpecial s') else removeSpecial s'
  end.

(** [s.replace(/p+/g, '-')]: each run of units with [p] becomes one hyphen. *)
Fixpoint hyphenate (p : Ascii.ascii -> bool) (inRun : bool) (s : string) : string :=
  match s with
  | EmptyString => EmptyString
  | String c s' =>
      if p c then (if inRun then hyphenate p true s' else String "-" (hyphenate p true s')) else String c (hyphenate p false s')
  end.

Definition kebabTitle (title : string) : string :=
  JsStr.take 50
    (hyphenate (fun c => bool_decide (c = "-"%char)) false
      (hyphenate Json.isSpace false (removeSpecial (AgentSpy.toLowerCase title)))).

Definition generateBranchName (c : BranchConfig) : string :=
  BRANCH_PREFIXES (bc_prefix c) +:+ "/" +:+ bc_taskId c
  +:+ match nonZero (bc_issueNumber c) with Some n => "-issue-" +:+ pretty n | None => EmptyString end
  +:+ "-" +:+ kebabTitle (bc_title c).

Definition generateCommitMessage (c : CommitConfig) : string :=
  cc_type c
  +:+ match JsStr.orNull (cc_scope c) with Some s => "(" +:+ s +:+ ")" | None => EmptyString end
  +:+ (if default false (cc_breaking c) then "!" else EmptyString)
  +:+ ": " +:+ cc_description c
  +:+ match JsStr.orNull (cc_body c) with Some b => nl +:+ nl +:+ b | None => EmptyString end
  +:+ match nonZero (cc_issueNumber c) with Some n => nl +:+ nl +:+ "Closes #" +:+ pretty n | None => EmptyString end.

(** ** Descriptions *)

(** What is before and after the first occurrence of [p]. *)
Fixpoint splitAt (p s : string) : option (string * string) :=
  if JsStr.startsWith p s then Some (EmptyString, JsStr.drop (JsStr.length p) s)
  else match s with
       | EmptyString => None
       | String c s' => '(a, b) ← splitAt p s'; Some (String c a, b)
       end.

Definition backquote : Ascii.ascii := "`"%char.

(** The replacement text of the language: a dollar sign with a dollar sign, an
    ampersand, a back-quote or a quote after it stands for itself, the match,
    what is before it, what is after it. *)
Fixpoint expand (matched before after rep : string) : string :=
  match rep with
  | EmptyString => EmptyString
  | String c r =>
      if bool_decide (c = "$"%char) then
        match r with
        | String d r' =>
            if bool_decide (d = "$"%char) then String "$" (expand matched before after r')
            else if bool_decide (d = "&"%char) then matched +:+ expand matched before after r'
            else if bool_decide (d = backquote) then before +:+ expand matched before after r'
            else if bool_decide (d = "'"%char) then after +:+ expand matched before after r'
            else String c (expand matched before after r)
        | EmptyString => String c EmptyString
        end
      else String c (expand matched before after r)
  end.

(** [s.replace(p, rep)] for a string [p] *)
Definition replace (p rep s : string) : string :=
  match splitAt p s with Some (a, b) => a +:+ expand p a b rep +:+ b | None => s end.

Definition footer : string :=
  "---" +:+ nl +:+ "🤖 Generated with [Open Multi-Agents](https://github.com/your-org/open-multi-agents)" +:+ nl.

Definition PR_TEMPLATE : string :=
  "## Summary" +:+ nl +:+ "{{summary}}" +:+ nl +:+ nl +:+ "## Changes" +:+ nl +:+ "{{changes}}" +:+ nl +:+ nl +:+
  "## Test Plan" +:+ nl +:+ "{{testPlan}}" +:+ nl +:+ nl +:+ "{{breakingChanges}}" +:+ nl +:+ nl +:+ "{{issueLinks}}" +:+ nl +:+
  nl +:+ footer.

Definition bullets (mark : string) (l : list string) : string := String.concat nl ((fun x => mark +:+ x) <$> l).

Definition breakingText (d : PRDescription) : string :=
  match pd_breakingChanges d with
  | Some (b :: bs) => "## ⚠️ Breaking Changes" +:+ nl +:+ bullets "- " (b :: bs)
  | Some [] | None => EmptyString
  end.

Definition issueText (d : PRDescription) : string :=
  match pd_issueLinks d with [] => EmptyString | l => "## Related Issues" +:+ nl +:+ String.concat nl l end.

Definition generatePRDescription (d : PRDescription) : string :=
  let b1 := replace "{{summary}}" (pd_summary d) PR_TEMPLATE in
  let b2 := replace "{{changes}}" (bullets "- " (pd_changes d)) b1 in
  let b3 := replace "{{testPlan}}" (bullets "- [ ] " (pd_testPlan d)) b2 in
  let b4 := replace "{{breakingChanges}}" (breakingText d) b3 in
  TaskRoutes.trim (replace "{{issueLinks}}" (issueText d) b4).

(** ** Issues *)

(** Group 1 of the successive matches of a global expression, none of which is
    empty. *)
Fixpoint groupsFrom (fuel : nat) (ci : bool) (r : Regex.re) (prev : option Ascii.ascii) (s : string) : list string :=
  match fuel with
  | 0 => []
  | S fuel' =>
      match Regex.execFrom ci r prev s with
      | None => []
      | Some (p, p') =>
          option_list (snd <$> hd_error (base.filter (fun c => c.1 = 1) (Regex.p_caps p')))
          ++ groupsFrom fuel' ci r (Regex.p_prev p') (Regex.p_rest p')
      end
  end.

Definition groups (l : Regex.literal) (s : string) : list string :=
  match Regex.compile (Regex.lit_source l) with
  | Some r => groupsFrom (S (String.length s)) (Regex.lit_ci l) r None s
  | None => []
  end.

Definition issuePatterns : list Regex.literal :=
  [Regex.cs "#(\d+)"; Regex.ci "issue-(\d+)"; Regex.ci "fixes\s+#(\d+)"; Regex.ci "closes\s+#(\d+)";
   Regex.ci "resolves\s+#(\d+)"].

Definition addNumber (acc : list Z) (n : Z) : list Z := if decide (n ∈ acc) then acc else acc ++ [n].

Definition extractIssueNumbers (text : string) : list Z :=
  fold_left addNumber (omap (JsNum.numberFrom 0) (issuePatterns ≫= fun l => groups l text)) [].

Definition generateIssueLinks (issueNumbers : list Z) (closeOnMerge : bool) : list string :=
  (fun n => (if closeOnMerge then "Closes #" else "Related to #") +:+ pretty n) <$> issueNumbers.

(** ** Labels *)

Inductive ChangeType := ChFeature | ChFix | ChRefactor | ChDocs | ChTest.

Definition typeLabels (t : ChangeType) : list string :=
  match t with
  | ChFeature => ["enhancement"; "feature"]
  | ChFix => ["bug"; "fix"]
  | ChRefactor => ["refactor"; "tech-debt"]
  | ChDocs => ["documentation"]
  | ChTest => ["test"; "quality"]
  end.

Definition anyIncludes (parts files : list string) : bool :=
  existsb (fun f => existsb (fun p => JsStr.includes p f) parts) files.

Definition suggestLabels (filesChanged : list string) (t : ChangeType) (breaking : option bool) : list string :=
  ProjectRoutes.nub (typeLabels t ++ (if default false breaking then ["breaking-change"] else [])
    ++ (if anyIncludes ["src/api"; "src/services"; "server"] filesChanged then ["backend"] else [])
    ++ (if anyIncludes ["components"; "pages"; ".tsx"; ".jsx"] filesChanged then ["frontend"] else [])
    ++ (if anyIncludes ["migration"; "schema"; ".prisma"] filesChanged then ["database"] else [])).

(** ** Addresses *)

Definition group (ci : bool) (r : Regex.re) (i : nat) (s : string) : option string :=
  m ← Regex.exec ci r s; snd <$> hd_error (base.filter (fun c => c.1 = i) (Regex.p_caps m.2)).

Definition repoPatterns : list Regex.literal := [Regex.cs "github\.com[/:]([^/]+)\/([^/.]+)"; Regex.cs "^([^/]+)\/([^/]+)$"].

Definition dropGit (s : string) : string :=
  if JsStr.endsWith ".git" s then JsStr.take (JsStr.length s - 4) s else s.

Definition tryRepo (url : string) (l : Regex.literal) : option (string * string) :=
  r ← Regex.compile (Regex.lit_source l);
  owner ← group (Regex.lit_ci l) r 1 url;
  repo ← group (Regex.lit_ci l) r 2 url;
  Some (owner, dropGit repo).

Definition parseRepoUrl (url : string) : option (string * string) := head (omap (tryRepo url) repoPatterns).

(** ** Requests *)

Inductive OctokitCall :=
  | PullsCreate (owner repo title body head base : string) (draft : bool)
  | AddLabels (owner repo : string) (number : Json) (labels : list string)
  | RequestReviewers (owner repo : string) (number : Json) (reviewers : list string)
  | PullsGet (owner repo : string) (number : Z)
  | PullsUpdate (owner repo : string) (number : Z) (body : string)
  | GetBranch (owner repo branch : string)
  | GetRepo (owner repo : string).

Record CreatedPR := { cp_number : Json; cp_url : Json; cp_title : Json; cp_state : Json }.

Section client.
Context {G : Type} (octokit : OctokitCall -> G -> outcome Json * G).

(** Whether [init] has made a client, the state of GitHub, the requests. *)
Record State := { initialized : bool; github : G; requests : list OctokitCall }.

(** [init]: without the package the features stay disabled. *)
Definition init (available : bool) (s : State) : State :=
  {| initialized := initialized s || available; github := github s; requests := requests s |}.

Definition request (c : OctokitCall) : JsM State Json := fun s =>
  let '(r, g) := octokit c (github s) in
  (r, {| initialized := initialized s; github := g; requests := requests s ++ [c] |}).

Definition need (message : string) : JsM State unit := fun s => if initialized s then (Ok tt, s) else (Throw message, s).

Definition get (name : string) (v : Json) : Json := default JNull (field name v).

(** [l && l.length > 0] *)
Definition nonEmpty (l : option (list string)) : option (list string) :=
  match l with Some (x :: xs) => Some (x :: xs) | Some [] | None => None end.

(** A request whose failure is only reported. *)
Definition attempt (c : OctokitCall) : JsM State unit := try_catch (request c;; mret tt) (fun _ => mret tt).

Definition createPR (c : PRConfig) : JsM State CreatedPR :=
  need "GitHub not initialized. Call init() first.";;
  answer ← request (PullsCreate (pc_owner c) (pc_repo c) (pc_title c) (default EmptyString (JsStr.orNull (pc_body c)))
                      (pc_head c) (pc_base c) (default false (pc_draft c)));
  let pr := get "data" answer in
  match nonEmpty (pc_labels c) with
  | Some l => attempt (AddLabels (pc_owner c) (pc_repo c) (get "number" pr) l) | None => mret tt end;;
  match nonEmpty (pc_reviewers c) with
  | Some l => attempt (RequestReviewers (pc_owner c) (pc_repo c) (get "number" pr) l) | None => mret tt end;;
  mret {| cp_number := get "number" pr; cp_url := get "html_url" pr; cp_title := get "title" pr; cp_state := get "state" pr |}.

Definition createPRWithAIDescription (c : PRConfig) (summary : string) (filesChanged : list string)
    (issueNumbers : option (list Z)) : JsM State CreatedPR :=
  createPR
    {| pc_owner := pc_owner c; pc_repo := pc_repo c; pc_head := pc_head c; pc_base := pc_base c; pc_title := pc_title c;
       pc_body := Some (generatePRDescription
         {| pd_summary := summary;
            pd_changes := (fun f => "Modified " +:+ String backquote (f +:+ String backquote EmptyString)) <$> filesChanged;
            pd_testPlan := ["Verify all new functionality works as expected"; "Run existing test suite";
                            "Manual testing of affected features"];
            pd_breakingChanges := None; pd_issueLinks := generateIssueLinks (default [] issueNumbers) true |});
       pc_labels := pc_labels c; pc_reviewers := pc_reviewers c; pc_draft := pc_draft c |}.

(** The body of a pull request is a text or null. *)
Definition bodyOf (answer : Json) : option string := match get "body" (get "data" answer) with JStr b => Some b | _ => None end.

Definition linkIssueToPR (owner repo : string) (prNumber issueNumber : Z) : JsM State unit :=
  need "GitHub not initialized";;
  answer ← request (PullsGet owner repo prNumber);
  if match bodyOf answer with Some b => JsStr.includes ("#" +:+ pretty issueNumber) b | None => false end then mret tt
  else
    request (PullsUpdate owner repo prNumber
      (default EmptyString (bodyOf answer) +:+ nl +:+ nl +:+ "Closes #" +:+ pretty issueNumber));;
    mret tt.

Definition branchExists (owner repo branch : string) : JsM State bool :=
  need "GitHub not initialized";;
  try_catch (request (GetBranch owner repo branch);; mret true) (fun _ => mret false).

Definition getDefaultBranch (owner repo : string) : JsM State Json :=
  need "GitHub not initialized";;
  answer ← request (GetRepo owner repo); mret (get "default_branch" (get "data" answer)).

End client.

(** ** The description the orchestrator hands to the merge phase *)

(** [story.filesToModify] and [story.filesToCreate] of every story *)
Definition storyFiles (stories : list StoryResult) : list string :=
  stories ≫= fun s => default [] (sr_filesToModify s) ++ default [] (sr_filesToCreate s).

Definition riskIncludes (part r : string) : bool := JsStr.includes part (AgentSpy.toLowerCase r).

Definition enhancedDescription (taskDescription : option string) (branchName summary : string) (risks storyTitles : list string)
    (done : list StoryResult) (testNames : list string) : string :=
  let filesChanged := storyFiles done in
  let issueNumbers := extractIssueNumbers (default EmptyString (JsStr.orNull taskDescription) +:+ " " +:+ branchName) in
  generatePRDescription
    {| pd_summary := summary;
       pd_changes :=
         match filesChanged with
         | [] => storyTitles
         | fs => (fun f => "Modified " +:+ String backquote (f +:+ String backquote EmptyString)) <$> take 20 fs
         end;
       pd_testPlan := ["Run existing test suite"; "Manual testing of affected features"]
                      ++ ((fun t => "Run " +:+ t) <$> testNames);
       pd_breakingChanges := Some (base.filter (fun r => riskIncludes "breaking" r || riskIncludes "migration" r = true) risks);
       pd_issueLinks := generateIssueLinks issueNumbers true |}.

(** The labels of the same run, which are only logged. *)
Definition loggedLabels (branchName : string) (risks : list string) (done : list StoryResult) : list string :=
  suggestLabels (storyFiles done) (if JsStr.startsWith "fix" branchName then ChFix else ChFeature)
    (Some (existsb (riskIncludes "breaking") risks)).

End GitHubEnhanced.
