(* ===== verification/GitHubEnhancedProofs.v ===== *)
(** * GitHub texts: branch titles, filled descriptions, requests and what goes
    wrong *)

From S2P Require Import Prelude JsNumber Json Regex TaskTypes AgentSpy TaskRoutes ProjectRoutes GitService GitHubEnhanced SpecialistsProofs.
From stdpp Require Import pretty list options.
Import Js GitHubEnhanced.

Module GitHubSpec.

(** ** Branch titles *)

Fixpoint allChars (P : Ascii.ascii -> bool) (s : string) : bool :=
  match s with EmptyString => true | String c s' => P c && allChars P s' end.

Definition isHyphen (c : Ascii.ascii) : bool := bool_decide (c = "-"%char).
Definition titleChar (c : Ascii.ascii) : bool := isPlain c || isHyphen c.

(** No two hyphens in a row, and none at the start when [after] says so. *)
Fixpoint hyphenated (after : bool) (s : string) : bool :=
  match s with
  | EmptyString => true
  | String c s' => if isHyphen c then negb after && hyphenated true s' else hyphenated false s'
  end.

Lemma allChars_take P n s : allChars P s = true -> allChars P (JsStr.take n s) = true.
Proof.
  revert n. induction s as [|c s IH]; intros [|n]; cbn; try done. intros [H1 H2]%andb_true_iff. by rewrite H1, IH.
Qed.

Lemma hyphenated_take n b s : hyphenated b s = true -> hyphenated b (JsStr.take n s) = true.
Proof.
  revert n b. induction s as [|c s IH]; intros [|n] b; cbn; try done. case_match; [|by apply IH].
  intros [H1 H2]%andb_true_iff. by rewrite H1, IH.
Qed.

Lemma removeSpecial_chars s : allChars (fun c => titleChar c || Json.isSpace c) (removeSpecial s) = true.
Proof.
  induction s as [|c s IH]; [done|]. cbn [removeSpecial]. case_match eqn:E; [|done]. cbn [allChars]. rewrite IH, andb_true_r.
  unfold titleChar, isHyphen. by destruct (isPlain c), (Json.isSpace c), (bool_decide _).
Qed.

Lemma hyphenate_chars (P : Ascii.ascii -> bool) p b s :
  P "-"%char = true -> allChars (fun c => P c || p c) s = true -> allChars P (hyphenate p b s) = true.
Proof.
  intros Hh. revert b. induction s as [|c s IH]; intros b; cbn; [done|]. intros [H1 H2]%andb_true_iff. destruct (p c).
  { destruct b; cbn [allChars]; rewrite ?Hh; by apply IH. }
  rewrite orb_false_r in H1. cbn [allChars]. by rewrite H1, IH.
Qed.

Lemma hyphenate_hyphenated b s : hyphenated b (hyphenate isHyphen b s) = true.
Proof.
  revert b. induction s as [|c s IH]; intros b; cbn [hyphenate]; [done|]. destruct (isHyphen c) eqn:E; [destruct b; [done|]|].
  - cbn [hyphenated]. change (isHyphen "-") with true. cbn [negb andb]. by rewrite IH.
  - cbn [hyphenated]. by rewrite E, IH.
Qed.

Lemma allChars_mono P Q s : (forall c, P c = true -> Q c = true) -> allChars P s = true -> allChars Q s = true.
Proof. intros H. induction s as [|c s IH]; [done|]. cbn. intros [H1 H2]%andb_true_iff. by rewrite H, IH. Qed.

(** The title of a branch name is made of lower case letters, digits and
    hyphens only, has no two hyphens in a row and at most fifty characters,
    whatever the title of the task is; so a branch name is safe in a command
    when the identifier of the task is. *)
Theorem branch_title_well_formed title :
  allChars titleChar (kebabTitle title) = true /\ hyphenated false (kebabTitle title) = true
  /\ JsStr.length (kebabTitle title) <= 50.
Proof.
  unfold kebabTitle. fold isHyphen. change (fun c => bool_decide (c = "-"%char)) with isHyphen. split_and!.
  - apply allChars_take, hyphenate_chars; [done|]. eapply allChars_mono; [|apply (hyphenate_chars titleChar); [done|apply removeSpecial_chars]].
    intros c ->. done.
  - apply hyphenated_take, hyphenate_hyphenated.
  - rewrite JsStr.take_length. lia.
Qed.

(** ** Descriptions *)

(** A text without dollar signs and without two opening braces in a row. *)
Definition plainText (s : string) : bool := allChars (fun c => negb (bool_decide (c = "$"%char))) s && negb (JsStr.includes "{{" s).

Lemma expand_plain m a b s : allChars (fun c => negb (bool_decide (c = "$"%char))) s = true -> expand m a b s = s.
Proof.
  induction s as [|c s IH]; [done|]. cbn. intros [H1 H2]%andb_true_iff. destruct (bool_decide (c = "$"%char)); [done|]. by rewrite IH.
Qed.

(** The braces of a place holder are not found in a text that has none and ends
    its line. *)
Fixpoint noBraces (s : string) : bool :=
  match s with
  | EmptyString => true
  | String c s' => negb (bool_decide (c = "{"%char) && match s' with String d _ => bool_decide (d = "{"%char) | EmptyString => true end)
                   && noBraces s'
  end.

Lemma noBraces_includes s : JsStr.includes "{{" s = false -> noBraces (s +:+ nl) = true.
Proof.
  induction s as [|c s IH]; [done|]. cbn [JsStr.includes]. intros [H1 H2]%orb_false_iff.
  change (String c s +:+ nl) with (String c (s +:+ nl)). cbn [noBraces].
  rewrite IH, andb_true_r by done. destruct (decide (c = "{"%char)) as [->|]; [|by rewrite bool_decide_eq_false_2].
  destruct s as [|d s]; [done|]. change (String d s +:+ nl) with (String d (s +:+ nl)). cbv iota beta.
  destruct (decide (d = "{"%char)) as [->|Hd]; [by destruct s|]. by rewrite (bool_decide_eq_false_2 _ Hd), andb_false_r.
Qed.

Lemma noBraces_app a b : noBraces a = true -> noBraces b = true -> noBraces (a +:+ b) = true.
Proof.
  induction a as [|c a IH]; [done|]. change (String c a +:+ b) with (String c (a +:+ b)). cbn [noBraces].
  intros [H1 H2]%andb_true_iff Hb. rewrite IH by done.
  rewrite andb_true_r. destruct a as [|d a]; [|exact H1]. cbn [String.append]. rewrite andb_true_r in H1. by destruct (bool_decide _).
Qed.

(** The first place holder is found behind such a text. *)
Lemma splitAt_holder p a b : noBraces a = true -> splitAt ("{{" +:+ p) (a +:+ ("{{" +:+ p) +:+ b) = Some (a, b).
Proof.
  intros Ha. induction a as [|c a IH].
  - change (EmptyString +:+ ("{{" +:+ p) +:+ b) with (("{{" +:+ p) +:+ b). assert (Hs : JsStr.startsWith ("{{" +:+ p) (("{{" +:+ p) +:+ b) = true)
      by apply JsStr.startsWith_append.
    assert (Hd : JsStr.drop (JsStr.length ("{{" +:+ p)) (("{{" +:+ p) +:+ b) = b).
    { generalize ("{{" +:+ p) as q. clear. induction q as [|c q IH]; [by destruct b|done]. }
    revert Hs Hd. generalize ("{{" +:+ p) as q. intros q Hs Hd. destruct (q +:+ b) eqn:E; cbn [splitAt]; by rewrite Hs, Hd.
  - cbn [noBraces] in Ha. apply andb_true_iff in Ha as [H1 H2]. specialize (IH H2).
    change (String c a +:+ ("{{" +:+ p) +:+ b) with (String c (a +:+ ("{{" +:+ p) +:+ b)). cbn [splitAt].
    assert (Hs : JsStr.startsWith ("{{" +:+ p) (String c (a +:+ ("{{" +:+ p) +:+ b)) = false).
    { change ("{{" +:+ p) with (String "{" (String "{" p)) at 1. cbn [JsStr.startsWith].
      destruct (decide (c = "{"%char)) as [->|Hc]; [|by rewrite bool_decide_eq_false_2 by congruence]. destruct a as [|d a]; [done|].
      change (String d a +:+ ("{{" +:+ p) +:+ b) with (String d (a +:+ ("{{" +:+ p) +:+ b)). cbv iota beta.
      destruct (decide (d = "{"%char)) as [->|Hd]; [done|]. rewrite (bool_decide_eq_false_2 ("{"%char = d)) by congruence.
      by rewrite andb_false_r. }
    rewrite Hs, IH. done.
Qed.

Lemma replace_holder p rep a b :
  noBraces a = true -> allChars (fun c => negb (bool_decide (c = "$"%char))) rep = true ->
  replace ("{{" +:+ p) rep (a +:+ ("{{" +:+ p) +:+ b) = a +:+ rep +:+ b.
Proof. intros Ha Hr. unfold replace. rewrite splitAt_holder by done. by rewrite expand_plain. Qed.

Lemma plain_parts s : plainText s = true -> allChars (fun c => negb (bool_decide (c = "$"%char))) s = true /\ noBraces (s +:+ nl) = true.
Proof. intros [H1 H2]%andb_true_iff. split; [done|]. apply noBraces_includes. by destruct (JsStr.includes _ _). Qed.

(** One place holder is filled: what is before it ends a line. *)
Lemma fill p rep pre post t :
  noBraces pre = true -> plainText rep = true -> t = pre +:+ ("{{" +:+ p) +:+ nl +:+ post ->
  replace ("{{" +:+ p) rep t = (pre +:+ rep +:+ nl) +:+ post /\ noBraces (pre +:+ rep +:+ nl) = true.
Proof.
  intros Hp [H1 H2]%plain_parts ->. rewrite replace_holder by done. rewrite !JsStr.append_assoc. split; [done|].
  by apply noBraces_app.
Qed.

Definition sections (d : PRDescription) : string :=
  "## Summary" +:+ nl +:+ pd_summary d +:+ nl +:+ nl +:+ "## Changes" +:+ nl +:+ bullets "- " (pd_changes d) +:+ nl +:+ nl +:+
  "## Test Plan" +:+ nl +:+ bullets "- [ ] " (pd_testPlan d) +:+ nl +:+ nl +:+ breakingText d +:+ nl +:+ nl +:+ issueText d +:+ nl +:+ nl
  +:+ footer.

(** When none of its texts has a dollar sign or two opening braces in a row,
    the description of a pull request is the template with every text in its
    place, without the white space around it. *)
Theorem description_filled d :
  plainText (pd_summary d) = true -> plainText (bullets "- " (pd_changes d)) = true ->
  plainText (bullets "- [ ] " (pd_testPlan d)) = true -> plainText (breakingText d) = true -> plainText (issueText d) = true ->
  generatePRDescription d = TaskRoutes.trim (sections d).
Proof.
  unfold generatePRDescription, sections. generalize (pd_summary d) (bullets "- " (pd_changes d)) (bullets "- [ ] " (pd_testPlan d))
    (breakingText d) (issueText d). intros s1 s2 s3 s4 s5 H1 H2 H3 H4 H5. f_equal.
  set (p5 := nl +:+ nl +:+ footer). set (p4 := nl +:+ "{{issueLinks}}" +:+ p5). set (p3 := nl +:+ "{{breakingChanges}}" +:+ nl +:+ p4).
  set (p2 := nl +:+ "## Test Plan" +:+ nl +:+ "{{testPlan}}" +:+ nl +:+ p3).
  set (p1 := nl +:+ "## Changes" +:+ nl +:+ "{{changes}}" +:+ nl +:+ p2).
  destruct (fill "summary}}" s1 ("## Summary" +:+ nl) p1 PR_TEMPLATE eq_refl H1 eq_refl) as [E1 N1].
  set (t1 := _ +:+ p1) in E1. set (q1 := _ +:+ s1 +:+ nl) in N1.
  destruct (fill "changes}}" s2 (q1 +:+ nl +:+ "## Changes" +:+ nl) p2 t1 (noBraces_app q1 (nl +:+ "## Changes" +:+ nl) N1 eq_refl) H2) as [E2 N2].
  { unfold t1, q1, p1. rewrite !JsStr.append_assoc. reflexivity. }
  set (t2 := _ +:+ p2) in E2. set (q2 := _ +:+ s2 +:+ nl) in N2.
  destruct (fill "testPlan}}" s3 (q2 +:+ nl +:+ "## Test Plan" +:+ nl) p3 t2 (noBraces_app q2 (nl +:+ "## Test Plan" +:+ nl) N2 eq_refl) H3) as [E3 N3].
  { unfold t2, q2, p2. rewrite !JsStr.append_assoc. reflexivity. }
  set (t3 := _ +:+ p3) in E3. set (q3 := _ +:+ s3 +:+ nl) in N3.
  destruct (fill "breakingChanges}}" s4 (q3 +:+ nl) p4 t3 (noBraces_app q3 nl N3 eq_refl) H4) as [E4 N4].
  { unfold t3, q3, p3. rewrite !JsStr.append_assoc. reflexivity. }
  set (t4 := _ +:+ p4) in E4. set (q4 := _ +:+ s4 +:+ nl) in N4.
  destruct (fill "issueLinks}}" s5 (q4 +:+ nl) (nl +:+ footer) t4 (noBraces_app q4 nl N4 eq_refl) H5) as [E5 _].
  { unfold t4, q4, p4. rewrite !JsStr.append_assoc. reflexivity. }
  change (replace "{{summary}}" s1 PR_TEMPLATE = t1) in E1. change (replace "{{changes}}" s2 t1 = t2) in E2.
  change (replace "{{testPlan}}" s3 t2 = t3) in E3. change (replace "{{breakingChanges}}" s4 t3 = t4) in E4.
  match type of E5 with _ = ?x => change (replace "{{issueLinks}}" s5 t4 = x) in E5 end.
  rewrite E1, E2, E3, E4, E5. unfold q4, q3, q2, q1. rewrite !JsStr.append_assoc. reflexivity.
Qed.

Definition demoDescription : PRDescription :=
  {| pd_summary := "Adds a login"; pd_changes := ["Modified a.ts"; "Modified b.ts"]; pd_testPlan := ["Run existing test suite"];
     pd_breakingChanges := Some []; pd_issueLinks := ["Closes #12"] |}.

Lemma description_filled_witness :
  generatePRDescription demoDescription = TaskRoutes.trim (sections demoDescription).
Proof. apply description_filled; vm_compute; reflexivity. Defined.

(** A dollar sign and an ampersand in a text bring the name of the place holder
    back, and a place holder in a text takes the text meant for the template. *)
Example description_substituted :
  JsStr.startsWith ("## Summary" +:+ nl +:+ "a {{summary}} b" +:+ nl)
    (generatePRDescription {| pd_summary := "a $& b"; pd_changes := []; pd_testPlan := []; pd_breakingChanges := None;
                              pd_issueLinks := [] |}) = true
  /\ JsStr.startsWith ("## Summary" +:+ nl +:+ "- x" +:+ nl +:+ nl +:+ "## Changes" +:+ nl +:+ "{{changes}}")
    (generatePRDescription {| pd_summary := "{{changes}}"; pd_changes := ["x"]; pd_testPlan := []; pd_breakingChanges := None;
                              pd_issueLinks := [] |}) = true.
Proof. split; vm_compute; reflexivity. Qed.

(** ** Issues, labels and addresses *)

Example issue_numbers :
  extractIssueNumbers "Closes #12, fixes   #7 see issue-9 and #12" = [12; 7; 9]%Z
  /\ extractIssueNumbers (String.concat nl (generateIssueLinks [3; 14; 15]%Z true)) = [3; 14; 15]%Z.
Proof. split; vm_compute; reflexivity. Qed.

(** The name of a repository is cut at its first dot. *)
Example repository_cut_at_dot :
  parseRepoUrl "https://github.com/vercel/next.js" = Some ("vercel", "next")
  /\ parseRepoUrl "git@github.com:o/r.git" = Some ("o", "r") /\ parseRepoUrl "o/next.js" = Some ("o", "next.js").
Proof. split_and!; vm_compute; reflexivity. Qed.

Lemma labels_once files t breaking : NoDup (suggestLabels files t breaking).
Proof. apply SpecialistSpec.nub_nodup. Qed.

(** ** Requests *)

Section requests.
Context {G : Type} (octokit : OctokitCall -> G -> outcome Json.Json * G).
#[local] Set Default Proof Using "Type".

Lemma attempt_run c (s : State (G := G)) : exists s', attempt octokit c s = (Ok tt, s') /\ requests s' = requests s ++ [c].
Proof.
  unfold attempt, try_catch, mbind, jsm_bind, request. destruct (octokit c (github s)) as [[v|e] g]; by eexists.
Qed.

(** A pull request is created, or the one request fails; that its labels or
    reviewers are refused changes nothing. *)
Lemma create_pr_outcome c (s : State (G := G)) :
  initialized s = true ->
  let first := PullsCreate (pc_owner c) (pc_repo c) (pc_title c) (default EmptyString (JsStr.orNull (pc_body c))) (pc_head c)
                 (pc_base c) (default false (pc_draft c)) in
  match (octokit first (github s)).1 with
  | Throw e => exists s', createPR octokit c s = (Throw e, s') /\ requests s' = requests s ++ [first]
  | Ok answer =>
      let number := get "number" (get "data" answer) in
      exists p s', createPR octokit c s = (Ok p, s') /\ cp_number p = number
      /\ requests s' = requests s ++ first
           :: (match nonEmpty (pc_labels c) with Some l => [AddLabels (pc_owner c) (pc_repo c) number l] | None => [] end)
           ++ (match nonEmpty (pc_reviewers c) with Some l => [RequestReviewers (pc_owner c) (pc_repo c) number l] | None => [] end)
  end.
Proof.
  intros Hi first. unfold createPR. rewrite (bind_ok _ _ s tt s) by (unfold need; by rewrite Hi). fold first.
  destruct (octokit first (github s)) as [[answer|e] g] eqn:Eq; cbn [fst];
    unfold mbind at 1, jsm_bind at 1, request; rewrite Eq; [|eexists; split; reflexivity].
  set (s1 := {| initialized := _; github := g; requests := _ |}).
  assert (Hopt : forall (l : option (list string)) k (s : State (G := G)), exists s',
    (match l with Some x => attempt octokit (k x) | None => mret tt end) s = (Ok tt, s')
    /\ requests s' = requests s ++ match l with Some x => [k x] | None => [] end).
  { intros [x|] k s0; [apply attempt_run|]. exists s0. by rewrite app_nil_r. }
  destruct (Hopt (nonEmpty (pc_labels c)) (AddLabels (pc_owner c) (pc_repo c) (get "number" (get "data" answer))) s1)
    as (s2 & E2 & R2). rewrite (bind_ok _ _ _ _ _ E2).
  destruct (Hopt (nonEmpty (pc_reviewers c)) (RequestReviewers (pc_owner c) (pc_repo c) (get "number" (get "data" answer))) s2)
    as (s3 & E3 & R3). rewrite (bind_ok _ _ _ _ _ E3).
  do 2 eexists. split; [done|]. split; [done|]. rewrite R3, R2. unfold s1. cbn [requests]. by rewrite <- !app_assoc.
Qed.

End requests.

(** An issue counts as linked when its number begins the number of another one
    the text mentions. *)
Example issue_link_missed :
  requests (linkIssueToPR (fun _ (g : unit) => (Ok (Json.JObj [("data", Json.JObj [("body", Json.JStr "Closes #12")])]), g)) "o" "r" 5 1
    {| initialized := true; github := tt; requests := [] |}).2 = [PullsGet "o" "r" 5].
Proof. vm_compute. reflexivity. Qed.

End GitHubSpec.
