(* ===== verification/TenantProofs.v ===== *)
(** * Users do not share projects

    Serving a request of a user on the whole database is the same as serving
    it on the rows the user owns: the answers agree, up to which refusal a
    foreign row gets, the user's rows end the same, and nobody else's row
    changes. The two routes without the check of the owner are shown to be the
    exceptions: what is proved of all requests supposes that these two are not
    sent for a project of somebody else. *)

From S2P Require Import Prelude JsNumber Json EventBridge Schema ExecutionTracker Crypto CryptoProofs Accounts Projects LlmConfig RepositoryRoutes ProjectRoutes Scaffolding Specialists.
From stdpp Require Import list sorting options.

Module TenantSpec.
Import Json Js Schema TrainingRows Rows ProjectRows EnvService RepositoryRoutes ProjectRoutes.
Module PR := ProjectRepository.
Module RR := RepositoryRepository.

(** ** Own rows *)

(** The keys of the two tables. *)
Record wf (d : Db) : Prop := {
  wf_projects : NoDup (p_id <$> projects d);
  wf_repos : NoDup (g_id <$> repos d);
  wf_foreign : forall r, r ∈ repos d -> g_project_id r ∈ p_id <$> projects d;
}.

Section owner.
Variable u : string.

Definition myIds (d : Db) : list string := p_id <$> base.filter (fun r => p_user_id r = u) (projects d).

Definition mine (d : Db) : Db :=
  {| projects := base.filter (fun r => p_user_id r = u) (projects d);
     repos := base.filter (fun r => g_project_id r ∈ myIds d) (repos d) |}.

Definition theirs (d : Db) : Db :=
  {| projects := base.filter (fun r => p_user_id r <> u) (projects d);
     repos := base.filter (fun r => g_project_id r ∉ myIds d) (repos d) |}.

Lemma elem_myIds id d : id ∈ myIds d <-> exists r, r ∈ projects d /\ p_user_id r = u /\ p_id r = id.
Proof.
  unfold myIds. rewrite list_elem_of_fmap. split.
  - intros (r & -> & [? ?]%list_elem_of_filter). eauto.
  - intros (r & ? & ? & <-). exists r. by rewrite list_elem_of_filter.
Qed.

Lemma myIds_mine d : myIds (mine d) = myIds d.
Proof. unfold myIds, mine. simpl. by rewrite (filter_all _ (base.filter _ _)) by by intros ? [? ?]%list_elem_of_filter. Qed.

(** The row with an own id is an own row. *)
Lemma own_row d r : wf d -> r ∈ projects d -> p_id r ∈ myIds d -> p_user_id r = u.
Proof.
  intros [Hp _ _] Hr (r' & Hr' & <- & Hid)%elem_myIds. by rewrite (NoDup_key _ _ _ _ Hp Hr' Hr Hid).
Qed.

Lemma find_own id d :
  wf d -> id ∈ myIds d -> findRow p_id id (projects (mine d)) = findRow p_id id (projects d).
Proof. intros Hd Hid. apply findRow_filter. intros r Hr <-. by eapply own_row. Qed.

Lemma find_foreign id d : id ∉ myIds d -> findRow p_id id (projects (mine d)) = None.
Proof.
  intros Hid. apply findRow_None. intros r [Hu Hr]%list_elem_of_filter <-. apply Hid, elem_myIds. eauto.
Qed.

(** Ids of own repositories. *)
Definition myRepos (d : Db) : list string := g_id <$> repos (mine d).

Lemma elem_myRepos id d : id ∈ myRepos d <-> exists r, r ∈ repos d /\ g_id r = id /\ g_project_id r ∈ myIds d.
Proof.
  unfold myRepos. rewrite list_elem_of_fmap. split.
  - intros (r & -> & [? ?]%list_elem_of_filter). eauto.
  - intros (r & ? & <- & ?). exists r. split; [done|]. by apply list_elem_of_filter.
Qed.

Lemma own_repo d r : wf d -> r ∈ repos d -> g_id r ∈ myRepos d -> g_project_id r ∈ myIds d.
Proof.
  intros [_ Hg _] Hr (r' & Hr' & Hid & Hp)%elem_myRepos. by rewrite (NoDup_key _ _ _ _ Hg Hr Hr' (eq_sym Hid)).
Qed.

Lemma findRepo_own id d :
  wf d -> id ∈ myRepos d -> findRow g_id id (repos (mine d)) = findRow g_id id (repos d).
Proof. intros Hd Hid. apply findRow_filter. intros r Hr <-. by eapply own_repo. Qed.

Lemma findRepo_foreign id d : id ∉ myRepos d -> findRow g_id id (repos (mine d)) = None.
Proof. intros Hid. apply findRow_None. intros r Hr <-. apply Hid. unfold myRepos. set_solver. Qed.

(** ** Computations that stay within the own rows *)

(** What does not become worse for the user. *)
Definition keeps (d d' : Db) : Prop := myIds d ⊆ myIds d' /\ myRepos d ⊆ myRepos d'.

Lemma keeps_trans d1 d2 d3 : keeps d1 d2 -> keeps d2 d3 -> keeps d1 d3.
Proof. unfold keeps. set_solver. Qed.

Definition related {A} (R : A -> A -> Prop) (o o' : outcome A) : Prop :=
  match o, o' with Ok a, Ok a' => R a a' | Throw e, Throw e' => e = e' | _, _ => False end.

Record isolated {A} (R : A -> A -> Prop) (m : JsM Db A) (d : Db) : Prop := {
  is_result : related R (m d).1 (m (mine d)).1;
  is_mine : (m (mine d)).2 = mine (m d).2;
  is_theirs : theirs (m d).2 = theirs d;
  is_wf : wf (m d).2;
  is_keeps : keeps d (m d).2;
}.

Lemma isolated_bind {A B} (R : B -> B -> Prop) (m : JsM Db A) (k : A -> JsM Db B) d :
  isolated eq m d -> (forall a, (m d).1 = Ok a -> isolated R (k a) (m d).2) -> isolated R (m ≫= k) d.
Proof.
  intros [Hr Hm Ht Hw Hk] H2.
  assert (He : (m ≫= k) d = match (m d).1 with Ok a => k a (m d).2 | Throw e => (Throw e, (m d).2) end).
  { unfold mbind, jsm_bind. by destruct (m d) as [[|] ?]. }
  assert (He' : (m ≫= k) (mine d)
    = match (m d).1 with Ok a => k a (mine (m d).2) | Throw e => (Throw e, mine (m d).2) end).
  { unfold mbind, jsm_bind. rewrite <- Hm. revert Hr. destruct (m (mine d)) as [[a|e] ?], (m d).1; simpl; by intros; subst. }
  destruct (m d).1 as [a|e] eqn:Ho.
  - destruct (H2 a eq_refl) as [Hr2 Hm2 Ht2 Hw2 Hk2]. constructor; rewrite ?He, ?He'; try done.
    + congruence.
    + by eapply keeps_trans.
  - constructor; rewrite ?He, ?He'; done.
Qed.

Lemma isolated_pure {A} (R : A -> A -> Prop) (m : JsM Db A) o d :
  wf d -> (forall d, m d = (o, d)) -> related R o o -> isolated R m d.
Proof. intros Hd Hm Hr. constructor; rewrite !Hm; try done. Qed.

Lemma isolated_ret {A} (R : A -> A -> Prop) a d : wf d -> R a a -> isolated R (mret a) d.
Proof. intros Hd Hr. by eapply isolated_pure. Qed.

Lemma isolated_lift {A} (o : outcome A) d : wf d -> isolated eq (RR.lift o) d.
Proof. intros Hd. eapply isolated_pure; [done..|]. by destruct o. Qed.

Lemma isolated_query q sch d : wf d -> isolated eq (query sch q) d.
Proof.
  intros Hd. unfold query. destruct (rejected sch q) as [e|]; [by eapply (isolated_pure _ _ (Throw e))|by apply isolated_ret].
Qed.

Lemma isolated_gets {A} (f : Db -> A) d : wf d -> f (mine d) = f d -> isolated eq (gets f) d.
Proof. intros Hd Hf. by constructor. Qed.

(** A handler that answers with a constant. *)
Lemma isolated_try {A} (R : A -> A -> Prop) (m : JsM Db A) a d :
  isolated R m d -> R a a -> isolated R (try_catch m (fun _ => mret a)) d.
Proof.
  intros [Hr Hm Ht Hw Hk] Ha.
  assert (He : try_catch m (fun _ => mret a) d = (match (m d).1 with Ok b => Ok b | Throw _ => Ok a end, (m d).2)).
  { unfold try_catch. by destruct (m d) as [[]]. }
  assert (He' : try_catch m (fun _ => mret a) (mine d)
    = (match (m (mine d)).1 with Ok b => Ok b | Throw _ => Ok a end, mine (m d).2)).
  { unfold try_catch. rewrite <- Hm. by destruct (m (mine d)) as [[]]. }
  constructor; rewrite ?He, ?He'; try done. revert Hr. simpl. by destruct (m d).1, (m (mine d)).1.
Qed.

Lemma isolated_mono {A} (R R' : A -> A -> Prop) (m : JsM Db A) d :
  (forall a b, R a b -> R' a b) -> isolated R m d -> isolated R' m d.
Proof. intros HR [Hr Hm Ht Hw Hk]. constructor; try done. revert Hr. destruct (m d).1, (m (mine d)).1; simpl; auto. Qed.

(** ** Statements *)

(** Updating an own project by a function that keeps its keys. *)
Lemma isolated_updateProjects id f d :
  wf d -> id ∈ myIds d -> (forall r, p_id (f r) = p_id r) -> (forall r, p_user_id (f r) = p_user_id r) ->
  isolated eq (modify (onProjects (updateWhere p_id id f))) d.
Proof.
  intros Hd Hid Hf Hu. set (d' := onProjects (updateWhere p_id id f) d).
  assert (Hids : myIds d' = myIds d).
  { unfold myIds, d', onProjects. simpl. rewrite filter_updateWhere by (intros r; by rewrite Hu). by apply updateWhere_keys. }
  assert (Hm : mine d' = onProjects (updateWhere p_id id f) (mine d)).
  { unfold mine. rewrite Hids. unfold d', onProjects. simpl. f_equal. apply filter_updateWhere. intros r. by rewrite Hu. }
  assert (Hw : wf d').
  { destruct Hd. constructor; unfold d'; simpl; rewrite ?updateWhere_keys; done. }
  constructor; try done.
  - change (theirs d' = theirs d). unfold theirs. rewrite Hids. f_equal. unfold d'. simpl.
    rewrite filter_updateWhere by (intros r; by rewrite Hu).
    apply updateWhere_id. intros r [Hr Hin]%list_elem_of_filter <-. by apply Hr, (own_row d).
  - change (keeps d d'). split; [by rewrite Hids|]. unfold myRepos. by rewrite Hm.
Qed.

Lemma isolated_updateRepos id f d :
  wf d -> id ∈ myRepos d -> (forall r, g_id (f r) = g_id r) -> (forall r, g_project_id (f r) = g_project_id r) ->
  isolated eq (modify (onRepos (updateWhere g_id id f))) d.
Proof.
  intros Hd Hid Hf Hp. set (d' := onRepos (updateWhere g_id id f) d).
  assert (Hm : mine d' = onRepos (updateWhere g_id id f) (mine d)).
  { unfold mine, onRepos. simpl. f_equal. apply filter_updateWhere. intros r. by rewrite Hp. }
  assert (Hw : wf d').
  { destruct Hd as [H1 H2 H3]. constructor; unfold d'; simpl; rewrite ?updateWhere_keys; try done.
    intros r (x & Hx & ->)%elem_of_updateWhere. case_decide; rewrite ?Hp; by apply H3. }
  constructor; try done.
  - change (theirs d' = theirs d). unfold theirs, d', onRepos. simpl. f_equal.
    rewrite filter_updateWhere by (intros r; by rewrite Hp).
    apply updateWhere_id. intros r [Hr Hin]%list_elem_of_filter <-. by apply Hr, (own_repo d).
  - change (keeps d d'). split; [done|]. unfold myRepos. rewrite Hm. simpl. by rewrite updateWhere_keys.
Qed.

(** Inserting a project of the user, under an id nobody else uses. *)
Lemma isolated_insertProject row d :
  wf d -> p_user_id row = u -> p_id row ∉ p_id <$> projects d ->
  isolated eq (modify (onProjects (fun l => l ++ [row]))) d
  /\ p_id row ∈ myIds (onProjects (fun l => l ++ [row]) d).
Proof.
  intros Hd Hu Hnew. set (d' := onProjects (fun l => l ++ [row]) d).
  assert (Hids : myIds d' = myIds d ++ [p_id row]).
  { unfold myIds, d'. simpl. rewrite list.filter_app, list.filter_cons, decide_True by done. by rewrite fmap_app. }
  assert (Hin : forall r, r ∈ repos d -> g_project_id r ∈ myIds d' <-> g_project_id r ∈ myIds d).
  { intros r Hr. rewrite Hids, elem_of_app, list_elem_of_singleton. split; [|tauto]. intros [|He]; [done|].
    exfalso. apply Hnew. rewrite <- He. by apply (wf_foreign _ Hd). }
  assert (Hm : repos (mine d') = repos (mine d)) by (apply filter_ext; intros r Hr; by apply Hin).
  split; [|rewrite Hids; set_solver]. constructor; try done.
  - change (onProjects (fun l => l ++ [row]) (mine d) = mine d').
    unfold onProjects. rewrite <- Hm. change (mine d') with {| projects := projects (mine d'); repos := repos (mine d') |}.
    f_equal. unfold d'. simpl. by rewrite list.filter_app, list.filter_cons, decide_True.
  - change (theirs d' = theirs d). unfold theirs. f_equal.
    + unfold d'. simpl. rewrite list.filter_app, list.filter_cons, decide_False by naive_solver. by rewrite app_nil_r.
    + apply filter_ext. intros r Hr. by rewrite Hin.
  - destruct Hd as [H1 H2 H3]. constructor; unfold d'; simpl; try done.
    + rewrite fmap_app. apply NoDup_app. split; [done|]. split; [set_solver|apply NoDup_singleton].
    + intros r Hr. rewrite fmap_app, elem_of_app. left. by apply H3.
  - split; [change (myIds d ⊆ myIds d'); rewrite Hids; set_solver|]. unfold myRepos. change (g_id <$> repos (mine d) ⊆ g_id <$> repos (mine d')).
    by rewrite Hm.
Qed.

Lemma isolated_insertRepo row d :
  wf d -> g_project_id row ∈ myIds d -> g_id row ∉ g_id <$> repos d ->
  isolated eq (modify (onRepos (fun l => l ++ [row]))) d
  /\ g_id row ∈ myRepos (onRepos (fun l => l ++ [row]) d).
Proof.
  intros Hd Hp Hnew. set (d' := onRepos (fun l => l ++ [row]) d).
  assert (Hm : mine d' = onRepos (fun l => l ++ [row]) (mine d)).
  { unfold mine, onRepos. simpl. f_equal. by rewrite list.filter_app, list.filter_cons, decide_True. }
  assert (Hin : g_id row ∈ myRepos d') by (unfold myRepos; rewrite Hm; simpl; rewrite fmap_app; set_solver).
  split; [|done]. constructor; try done.
  - unfold theirs. simpl. f_equal. rewrite list.filter_app, list.filter_cons, decide_False by naive_solver. by rewrite app_nil_r.
  - destruct Hd as [H1 H2 H3]. constructor; simpl; try done.
    + rewrite fmap_app. apply NoDup_app. split; [done|]. split; [set_solver|apply NoDup_singleton].
    + intros r [Hr|[= ->]%list_elem_of_singleton]%elem_of_app; [by apply H3|].
      apply elem_myIds in Hp as (x & Hx & _ & <-). set_solver.
  - split; [done|]. change (myRepos d ⊆ myRepos d'). unfold myRepos. rewrite Hm. simpl. rewrite fmap_app. set_solver.
Qed.

(** ** Repository operations *)

Abbreviation schema := initializeSchema.

(** The sequence rule as the operations use it: the second computation starts
    in a state with the same invariant, more own rows and the same others. *)
Lemma isolated_seq {A B} (R : B -> B -> Prop) (m : JsM Db A) (k : A -> JsM Db B) d :
  isolated eq m d ->
  (forall a d', m d = (Ok a, d') -> wf d' -> keeps d d' -> theirs d' = theirs d -> isolated R (k a) d') ->
  isolated R (m ≫= k) d.
Proof.
  intros Hm Hk. apply isolated_bind; [done|]. intros a Ha. destruct Hm. apply Hk; [|done..].
  rewrite <- Ha. apply surjective_pairing.
Qed.

Lemma isolated_after_query {B} (R : B -> B -> Prop) q (k : JsM Db B) d :
  wf d -> isolated R k d -> isolated R (query schema q;; k) d.
Proof.
  intros Hd Hk. apply isolated_seq; [by apply isolated_query|]. intros a d' Hq _ _ _.
  unfold query, throw, mret, jsm_ret in Hq. destruct (rejected schema q); by simplify_eq.
Qed.

Lemma iso_findProject id inc d : wf d -> id ∈ myIds d -> isolated eq (PR.findById schema id inc) d.
Proof.
  intros Hd Hid. apply isolated_after_query; [done|]. apply isolated_gets; [done|]. f_equal. by apply find_own.
Qed.

Lemma iso_findRepo id d : wf d -> id ∈ myRepos d -> isolated eq (RR.findById schema id) d.
Proof.
  intros Hd Hid. apply isolated_after_query; [done|]. apply isolated_gets; [done|]. f_equal. by apply findRepo_own.
Qed.

Lemma iso_byProject id d : wf d -> id ∈ myIds d -> isolated eq (RR.findByProjectId schema id) d.
Proof.
  intros Hd Hid. apply isolated_after_query; [done|]. apply isolated_gets; [done|]. do 2 f_equal.
  unfold mine. simpl. rewrite list_filter_filter. apply filter_ext. intros r _. split; [tauto|].
  intros [-> ?]. by repeat split.
Qed.

Lemma iso_byUser d : wf d -> isolated eq (PR.findByUserId schema u) d.
Proof.
  intros Hd. apply isolated_after_query; [done|]. apply isolated_gets; [done|]. do 2 f_equal.
  unfold mine. simpl. rewrite list_filter_filter. apply filter_ext. intros r _. tauto.
Qed.

Lemma iso_updateProject now id x d : wf d -> id ∈ myIds d -> isolated eq (PR.update schema now id x) d.
Proof.
  intros Hd Hid. apply isolated_seq; [by apply iso_findProject|]. intros [y|] d1 _ Hd1 [Hk1 _] _; [|by apply isolated_ret].
  apply isolated_after_query; [done|]. apply isolated_seq; [apply isolated_updateProjects; auto|].
  intros [] d2 _ Hd2 [Hk2 _] _. apply iso_findProject; auto.
Qed.

Lemma iso_updateRepo now id x d : wf d -> id ∈ myRepos d -> isolated eq (RR.update schema now id x) d.
Proof.
  intros Hd Hid. apply isolated_seq; [by apply iso_findRepo|]. intros [y|] d1 _ Hd1 [_ Hk1] _; [|by apply isolated_ret].
  apply isolated_after_query; [done|]. apply isolated_seq; [apply isolated_updateRepos; auto|].
  intros [] d2 _ Hd2 [_ Hk2] _. apply iso_findRepo; auto.
Qed.

(** An id that is used, by whomever, is used in the own rows too when nobody
    else may have it. *)
Lemma used_project id d :
  wf d -> id ∉ p_id <$> projects (theirs d) -> id ∈ p_id <$> projects d <-> id ∈ p_id <$> projects (mine d).
Proof.
  intros Hd Hid. rewrite !list_elem_of_fmap. split; intros (r & -> & Hr); exists r; split; try done.
  - apply list_elem_of_filter. split; [|done]. destruct (decide (p_user_id r = u)) as [|Hu]; [done|]. exfalso.
    apply Hid, list_elem_of_fmap. exists r. split; [done|]. by apply list_elem_of_filter.
  - by apply list_elem_of_filter in Hr as [_ ?].
Qed.

Lemma used_repo id d :
  wf d -> id ∉ g_id <$> repos (theirs d) -> id ∈ g_id <$> repos d <-> id ∈ g_id <$> repos (mine d).
Proof.
  intros Hd Hid. rewrite !list_elem_of_fmap. split; intros (r & -> & Hr); exists r; split; try done.
  - apply list_elem_of_filter. split; [|done]. destruct (decide (g_project_id r ∈ myIds d)) as [|Hu]; [done|]. exfalso.
    apply Hid, list_elem_of_fmap. exists r. split; [done|]. by apply list_elem_of_filter.
  - by apply list_elem_of_filter in Hr as [_ ?].
Qed.

Lemma isolated_ext {A} (R : A -> A -> Prop) (m m' : JsM Db A) d :
  m d = m' d -> m (mine d) = m' (mine d) -> isolated R m' d -> isolated R m d.
Proof. intros H1 H2 [? ? ? ? ?]. constructor; by rewrite ?H1, ?H2. Qed.

Lemma isolated_throw {A} (R : A -> A -> Prop) e d : wf d -> isolated R (throw e) d.
Proof. intros Hd. by eapply (isolated_pure _ _ (Throw e)). Qed.

Lemma isolated_found {A} (o : option A) d : wf d -> isolated eq (found o) d.
Proof. intros Hd. destruct o; [by apply isolated_ret|by apply isolated_throw]. Qed.

Lemma iso_createProject knownUser now id name desc ty key st d :
  wf d -> id ∉ p_id <$> projects (theirs d) ->
  isolated eq (PR.create schema knownUser now id name desc ty u key st) d
  /\ forall p d', PR.create schema knownUser now id name desc ty u key st d = (Ok p, d') -> PR.ip_id p ∈ myIds d'.
Proof.
  intros Hd Hid. unfold PR.create, foreignKey.
  pose proof (used_project id d Hd Hid) as Hused.
  set (row := {| p_id := id |}). set (rest := modify _ ≫= _).
  destruct (knownUser u).
  2: { split; [|done]. apply isolated_after_query; [done|]. by apply (isolated_throw eq). }
  destruct (decide (id ∈ p_id <$> projects d)) as [Hin|Hin].
  - assert (He : forall d', id ∈ p_id <$> projects d' -> (query schema (Insert "projects" ["id"; "name"; "description";
      "type"; "status"; "user_id"; "api_key"; "settings"; "is_active"]);; mret tt;; l ← gets projects;
      primaryKey (negb (existsb (fun r => bool_decide (p_id r = id)) l));; rest) d'
      = (Throw "duplicate key value violates unique constraint", d')).
    { intros d' Hd'. erewrite bind_ok by (by apply query_ok). do 2 erewrite bind_ok by reflexivity.
      rewrite existsb_key, bool_decide_eq_true_2 by done. done. }
    split; [|intros p d' Hr; by rewrite He in Hr].
    eapply isolated_ext; [apply He; done|apply He; by apply Hused|].
    by eapply (isolated_pure _ _ (Throw _)).
  - assert (He : forall d', id ∉ p_id <$> projects d' -> (query schema (Insert "projects" ["id"; "name"; "description";
      "type"; "status"; "user_id"; "api_key"; "settings"; "is_active"]);; mret tt;; l ← gets projects;
      primaryKey (negb (existsb (fun r => bool_decide (p_id r = id)) l));; rest) d' = rest d').
    { intros d' Hd'. erewrite bind_ok by (by apply query_ok). do 2 erewrite bind_ok by reflexivity.
      rewrite existsb_key, bool_decide_eq_false_2 by done. done. }
    destruct (isolated_insertProject row d Hd eq_refl Hin) as [Hi Hnew]. split.
    + eapply isolated_ext; [by apply He|apply He; by rewrite <- Hused|].
      apply isolated_seq; [exact Hi|]. intros [] d1 [= <-] Hd1 _ _. apply isolated_seq; [by apply iso_findProject|].
      intros r d2 _ Hd2 _ _. by apply isolated_found.
    + intros p d'. rewrite He by done. unfold rest. erewrite bind_ok by reflexivity.
      unfold PR.findById. rewrite bind_assoc. erewrite bind_ok by (by apply query_ok). erewrite bind_ok by reflexivity.
      erewrite findRow_elem; [intros [= <- <-]; exact Hnew| |simpl; set_solver|done].
      exact (wf_projects _ (is_wf _ _ _ Hi)).
Qed.

(** The insertion of a repository, once its statement is accepted. *)
Definition insertRepo (now : Z) (id : string) (n : RR.RepoInput) : JsM Db RR.IRepository :=
  modify (onRepos (fun l => l ++ [RR.newRow now id n]));; r ← RR.findById schema id; found r.

Lemma createRepo_eq now id n d :
  RR.rn_projectId n ∈ p_id <$> projects d ->
  RR.create schema now id n d
  = if decide (id ∈ g_id <$> repos d) then (Throw "duplicate key value violates unique constraint", d)
    else insertRepo now id n d.
Proof.
  intros Hp. unfold RR.create. erewrite bind_ok by (by apply query_ok). erewrite bind_ok by reflexivity.
  rewrite (existsb_key p_id), (bool_decide_eq_true_2 _ Hp). erewrite bind_ok by reflexivity. rewrite (existsb_key g_id).
  case_decide as Hin; [by rewrite bool_decide_eq_true_2|]. by rewrite bool_decide_eq_false_2.
Qed.

Lemma iso_createRepo now id n d :
  wf d -> RR.rn_projectId n ∈ myIds d -> id ∉ g_id <$> repos (theirs d) ->
  isolated eq (RR.create schema now id n) d.
Proof.
  intros Hd Hp Hid. pose proof (used_repo id d Hd Hid) as Hused.
  assert (Hin : RR.rn_projectId n ∈ p_id <$> projects (mine d)) by exact Hp.
  assert (Hin' : RR.rn_projectId n ∈ p_id <$> projects d).
  { apply elem_myIds in Hp as (r & ? & _ & <-). set_solver. }
  destruct (decide (id ∈ g_id <$> repos d)) as [Hu|Hu].
  - apply (isolated_ext eq _ (throw "duplicate key value violates unique constraint")); [..|by apply (isolated_throw eq)].
    + by rewrite createRepo_eq, decide_True.
    + by rewrite createRepo_eq, decide_True by tauto.
  - apply (isolated_ext eq _ (insertRepo now id n)).
    { by rewrite createRepo_eq, decide_False. }
    { by rewrite createRepo_eq, decide_False by tauto. }
    destruct (isolated_insertRepo (RR.newRow now id n) d Hd Hp Hu) as [Hi Hnew].
    apply isolated_seq; [exact Hi|]. intros [] d1 [= <-] Hd1 _ _. apply isolated_seq; [by apply iso_findRepo|].
    intros r d2 _ Hd2 _ _. by apply isolated_found.
Qed.

Lemma iso_deleteProject now id d : wf d -> id ∈ myIds d -> isolated eq (PR.delete schema now id) d.
Proof.
  intros Hd Hid. apply isolated_after_query; [done|].
  assert (Hin : existsb (fun r => bool_decide (p_id r = id)) (projects d) = true
                /\ existsb (fun r => bool_decide (p_id r = id)) (projects (mine d)) = true).
  { rewrite !existsb_key, !bool_decide_eq_true. split; [|exact Hid]. apply elem_myIds in Hid as (r & ? & _ & <-). set_solver. }
  eapply (isolated_ext eq _ (modify (onProjects (updateWhere p_id id _));; mret true)).
  { erewrite bind_ok by reflexivity. by rewrite (proj1 Hin). }
  { erewrite bind_ok by reflexivity. by rewrite (proj2 Hin). }
  apply isolated_seq; [by apply isolated_updateProjects|]. intros [] d1 _ Hd1 _ _. by apply isolated_ret.
Qed.

Lemma iso_deleteRepo now id d : wf d -> id ∈ myRepos d -> isolated eq (RR.delete schema now id) d.
Proof.
  intros Hd Hid. apply isolated_after_query; [done|].
  assert (Hin : existsb (fun r => bool_decide (g_id r = id)) (repos d) = true
                /\ existsb (fun r => bool_decide (g_id r = id)) (repos (mine d)) = true).
  { rewrite !existsb_key, !bool_decide_eq_true. split; [|exact Hid]. apply elem_myRepos in Hid as (r & ? & <- & _). set_solver. }
  eapply (isolated_ext eq _ (modify (onRepos (updateWhere g_id id _));; mret true)).
  { erewrite bind_ok by reflexivity. by rewrite (proj1 Hin). }
  { erewrite bind_ok by reflexivity. by rewrite (proj2 Hin). }
  apply isolated_seq; [by apply isolated_updateRepos|]. intros [] d1 _ Hd1 _ _. by apply isolated_ret.
Qed.

Lemma iso_lastSynced now id d : wf d -> id ∈ myRepos d -> isolated eq (RR.updateLastSynced schema now id) d.
Proof. intros Hd Hid. apply isolated_after_query; [done|]. by apply isolated_updateRepos. Qed.

Lemma iso_updateSettings now id s d : wf d -> id ∈ myIds d -> isolated eq (PR.updateSettings schema now id s) d.
Proof.
  intros Hd Hid. apply isolated_seq; [by apply iso_findProject|]. intros [x|] d1 _ Hd1 [Hk _] _; [|by apply isolated_ret].
  apply iso_updateProject; auto.
Qed.

Lemma iso_getEnv `{CryptoService.Aead} fromBase64 devKey env id d :
  wf d -> id ∈ myRepos d -> isolated eq (RR.getDecryptedEnvVariables schema fromBase64 devKey env id) d.
Proof.
  intros Hd Hid. apply isolated_seq; [by apply iso_findRepo|]. intros [x|] d1 _ Hd1 _ _; [|by apply isolated_ret].
  by apply isolated_lift.
Qed.

(** ** Guards *)

(** The ways to refuse a row that is not the user's. *)
Definition refusals : list Reply := [notFound "Project"; notFound "Repository"; denied].

Definition agree (r r' : Reply) : Prop := r = r' \/ r ∈ refusals /\ r' ∈ refusals.

Lemma agree_refl r : agree r r.
Proof. by left. Qed.

Lemma findProject_eq id (inc : bool) d :
  PR.findById schema id inc d
  = (Ok ((fun r => let p := PR.rowToProject r in if inc then p else PR.withoutKey p) <$> findRow p_id id (projects d)), d).
Proof. unfold PR.findById. by erewrite bind_ok by (by apply query_ok). Qed.

Lemma findRepo_eq id d : RR.findById schema id d = (Ok (RR.rowToRepository <$> findRow g_id id (repos d)), d).
Proof. unfold RR.findById. by erewrite bind_ok by (by apply query_ok). Qed.

Lemma isolated_withProject id inc failed k d :
  wf d -> (forall x, id ∈ myIds d -> PR.ip_id x = id -> isolated agree (k x) d) ->
  isolated agree (withProject schema u id inc failed k) d.
Proof.
  intros Hd Hk. apply isolated_try; [|apply agree_refl].
  destruct (decide (id ∈ myIds d)) as [Hin|Hout].
  - apply isolated_seq; [by apply iso_findProject|]. intros o d'. rewrite findProject_eq. intros [= <- <-] _ _ _.
    destruct (findRow p_id id (projects d)) as [r|] eqn:Hr; cbn [fmap option_fmap option_map];
      [|apply isolated_ret; [done|apply agree_refl]].
    apply findRow_Some in Hr as [_ Hr]. case_decide; [|apply isolated_ret; [done|apply agree_refl]].
    apply Hk; [done|]. by destruct inc.
  - apply (isolated_ext agree _ (mret (notFound "Project"))); [..|apply isolated_ret; [done|apply agree_refl]].
    + erewrite bind_ok by apply findProject_eq. destruct (findRow p_id id (projects d)) as [r|] eqn:Hr; [|done].
      apply findRow_Some in Hr as [Hr <-]. cbn [fmap option_fmap option_map]. rewrite decide_False; [done|].
      intros Hu. apply Hout, elem_myIds. exists r. by destruct inc.
    + erewrite bind_ok by apply findProject_eq. by rewrite find_foreign.
Qed.

Lemma isolated_withRepo id other failed k d :
  wf d -> other ∈ refusals ->
  (forall x, id ∈ myRepos d -> RR.ir_id x = id -> isolated agree (k x) d) ->
  isolated agree (withRepo schema u id other failed k) d.
Proof.
  intros Hd Ho Hk. apply isolated_try; [|apply agree_refl].
  destruct (decide (id ∈ myRepos d)) as [Hin|Hout].
  - apply isolated_seq; [by apply iso_findRepo|]. intros o d'. rewrite findRepo_eq. intros [= <- <-] _ _ _.
    destruct (findRow g_id id (repos d)) as [r|] eqn:Hr; cbn [fmap option_fmap option_map];
      [|apply isolated_ret; [done|apply agree_refl]].
    apply findRow_Some in Hr as [Hr Hid]. subst id.
    apply isolated_seq; [apply iso_findProject; [done|]; by apply own_repo|]. intros o d'. rewrite findProject_eq.
    intros [= <- <-] _ _ _. destruct (findRow p_id _ (projects d)) as [y|]; cbn [fmap option_fmap option_map];
      [case_decide|]; [by apply Hk|apply isolated_ret; [done|apply agree_refl]..].
  - assert (Hfull : exists x, x ∈ refusals /\ (r ← RR.findById schema id;
      match r with
      | None => mret (notFound "Repository")
      | Some x =>
          p ← ProjectRepository.findById schema (RR.ir_projectId x) false;
          match p with
          | Some y => if decide (ProjectRepository.ip_userId y = u) then k x else mret other
          | None => mret other
          end
      end) d = (Ok x, d)).
    { erewrite bind_ok by apply findRepo_eq. destruct (findRow g_id id (repos d)) as [r|] eqn:Hr;
        cbn [fmap option_fmap option_map]; [|exists (notFound "Repository"); split; [unfold refusals; set_solver|done]].
      apply findRow_Some in Hr as [Hr <-]. erewrite bind_ok by apply findProject_eq. exists other. split; [done|].
      destruct (findRow p_id _ (projects d)) as [y|] eqn:Hy; [|done]. cbn [fmap option_fmap option_map].
      apply findRow_Some in Hy as [Hy Hid]. rewrite decide_False; [done|].
      intros Hu. apply Hout, elem_myRepos. exists r. split; [done|]. split; [done|]. apply elem_myIds. eauto. }
    destruct Hfull as (x & Hx & He).
    assert (Hm : (RR.findById schema id) (mine d) = (Ok None, mine d)).
    { rewrite findRepo_eq. by rewrite findRepo_foreign. }
    constructor; rewrite ?He; [|by erewrite bind_ok by exact Hm|done..].
    erewrite bind_ok by exact Hm. simpl. right. split; [done|]. unfold refusals. set_solver.
Qed.

(** ** Handlers *)

Lemma sortBy_elem {A} (le : A -> A -> bool) (l : list A) x : x ∈ sortBy le l <-> x ∈ l.
Proof. unfold sortBy. by rewrite (merge_sort_Permutation _ l). Qed.

Lemma byProject_elems pid d rs d' :
  RR.findByProjectId schema pid d = (Ok rs, d') -> pid ∈ myIds d -> forall r, r ∈ rs -> RR.ir_id r ∈ myRepos d'.
Proof.
  unfold RR.findByProjectId. erewrite bind_ok by (by apply query_ok). intros [= <- <-] Hp r Hr.
  apply list_elem_of_fmap in Hr as (x & -> & Hx). apply sortBy_elem, list_elem_of_filter in Hx as [[Hx _] Hin].
  apply elem_myRepos. exists x. by rewrite Hx.
Qed.

Lemma byUser_elems d ps d' :
  PR.findByUserId schema u d = (Ok ps, d') -> forall p, p ∈ ps -> PR.ip_id p ∈ myIds d'.
Proof.
  unfold PR.findByUserId. erewrite bind_ok by (by apply query_ok). intros [= <- <-] p Hp.
  apply list_elem_of_fmap in Hp as (x & -> & Hx). apply sortBy_elem, list_elem_of_filter in Hx as [[Hx _] Hin].
  apply elem_myIds. eauto.
Qed.

Lemma isolated_mapM {A B} (f : A -> JsM Db B) (l : list A) d :
  wf d -> (forall x d', x ∈ l -> wf d' -> keeps d d' -> isolated eq (f x) d') -> isolated eq (mapM_ f l) d.
Proof.
  revert d. induction l as [|x l IH]; intros d Hd Hf; cbn [mapM_]; [by apply isolated_ret|].
  apply isolated_seq; [apply Hf; [by left|done|done]|]. intros y d1 _ Hd1 Hk1 _.
  apply isolated_seq; [|intros ys d2 _ Hd2 _ _; by apply isolated_ret]. apply IH; [done|].
  intros z d2 Hz Hd2 Hk2. apply Hf; [by right|done|]. by eapply keeps_trans.
Qed.

Lemma isolated_deleteAll now rs d :
  wf d -> (forall r, r ∈ rs -> RR.ir_id r ∈ myRepos d) -> isolated eq (deleteAll schema now rs) d.
Proof.
  revert d. induction rs as [|r rs IH]; intros d Hd Hr; cbn [deleteAll]; [by apply isolated_ret|].
  apply isolated_seq; [apply iso_deleteRepo; [done|]; apply Hr; by left|]. intros b d1 _ Hd1 [_ Hk] _.
  apply IH; [done|]. intros x Hx. apply Hk, Hr. by right.
Qed.

Lemma isolated_createRepos now newId pid i l d :
  wf d -> pid ∈ myIds d -> (forall j, newId j ∉ g_id <$> repos (theirs d)) ->
  isolated eq (createRepos schema now newId pid i l) d.
Proof.
  revert i d. induction l as [|b l IH]; intros i d Hd Hp Hn; cbn [createRepos]; [by apply isolated_ret|].
  apply isolated_seq; [destruct (nr_name b); [by apply isolated_ret|by apply isolated_throw]|].
  intros name d1 _ Hd1 [Hk1 _] Ht1.
  apply isolated_seq; [destruct (nr_full_name b); [by apply isolated_ret|by apply isolated_throw]|].
  intros full d2 _ Hd2 [Hk2 _] Ht2.
  apply isolated_seq; [apply iso_createRepo; [done|apply Hk2, Hk1, Hp|by rewrite Ht2, Ht1]|].
  intros r d3 _ Hd3 [Hk3 _] Ht3. apply isolated_seq; [|intros rs d4 _ Hd4 _ _; by apply isolated_ret].
  apply IH; [done|apply Hk3, Hk2, Hk1, Hp|]. by rewrite Ht3, Ht2, Ht1.
Qed.

End owner.

(** The rows of a user are among those another user may not touch. *)
Lemma mine_theirs u v d : u <> v -> wf d -> mine u (theirs v d) = mine u d.
Proof.
  intros Huv Hd.
  assert (Hp : base.filter (fun r => p_user_id r = u) (projects (theirs v d))
               = base.filter (fun r => p_user_id r = u) (projects d)).
  { unfold theirs. simpl. rewrite list_filter_filter. apply filter_ext. intros r _. naive_solver. }
  assert (Hi : myIds u (theirs v d) = myIds u d) by (unfold myIds; by rewrite Hp).
  unfold mine. rewrite Hi, Hp. f_equal. unfold theirs. simpl. rewrite list_filter_filter. apply filter_ext.
  intros r _. split; [tauto|]. intros Hu. split; [done|]. intros Hv.
  apply elem_myIds in Hu as (x & Hx & Hxu & Hxid). apply elem_myIds in Hv as (y & Hy & Hyv & Hyid).
  apply Huv. rewrite <- Hxu, <- Hyv. f_equal. apply (NoDup_key p_id (projects d)); [apply Hd|done|done|congruence].
Qed.

Create HintDb isolated.
#[export] Hint Resolve iso_findProject iso_findRepo iso_byProject iso_byUser iso_updateProject iso_updateRepo : isolated.
#[export] Hint Resolve iso_deleteProject iso_deleteRepo iso_lastSynced iso_updateSettings iso_getEnv : isolated.
#[export] Hint Resolve isolated_lift isolated_found isolated_deleteAll isolated_query : isolated.

(** Works through a handler: sequences by the rule, branches by cases, and the
    answer at the end. *)
Ltac isolate :=
  repeat match goal with
  | |- isolated _ _ (mret _) _ => apply isolated_ret; [done|apply agree_refl]
  | |- isolated _ _ (_ ≫= _) _ =>
      apply isolated_seq; [solve [eauto with isolated]|intros ? ? _ ? [? ?] _]
  | |- isolated _ _ (match ?x with _ => _ end) _ => destruct x
  | |- isolated _ _ (let _ := _ in _) _ => cbv zeta
  end.

(** ** Requests *)

Section requests.
Context `{CryptoService.Aead}.
Variables (fromBase64 : string -> string) (devKey : string) (env : CryptoService.Env).
Variable fetchRepo : string -> string -> outcome bool.
Variable knownUser : string -> bool.
Variable scaffold : string -> string -> Json -> outcome Json.
Variable accounts : AccountRows.Db.
Context `{Specialists.PromptTexts}.
Variables (neonApiKey : option string) (neon : string -> outcome Scaffolding.NeonAnswer).
Variable readConfig : Json -> outcome Specialists.ProjectSpecialistsConfig.
Variable activeSpecialists : Json -> Json.
Variable detectStackFromRepo : string -> string -> outcome DetectedStack.
Abbreviation schema := initializeSchema.

(** The requests of an authenticated user that the two routers serve, with the
    clock and what is drawn at random. [Elsewhere] stands for the five that
    read and write neither table: GET /github, /templates/list, /llm/providers,
    /specialists and POST /detect-stack. *)
Inductive Request :=
  | ListRepositories (projectId : string)
  | AddRepository (now : Z) (id projectId : string) (b : AddBody)
  | GetRepository (id : string)
  | PutRepository (now : Z) (id : string) (b : RR.RepoData)
  | DeleteRepository (now : Z) (id : string)
  | Reconnect (now : Z) (id : string)
  | GetEnv (id : string)
  | PutEnv (now : Z) (ivs : list string) (id : string) (vars : option (list IEnvVariable))
  | DeleteEnv (now : Z) (id : string)
  | ListProjects
  | PostProject (now : Z) (newId : nat -> string) (b : NewProject)
  | GetProject (id : string)
  | PutProject (now : Z) (id : string) (name description type status : option string) (isActive : option bool)
  | DeleteProject (now : Z) (id : string)
  | GetApiKey (id : string)
  | PutApiKey (now : Z) (id : string) (apiKey : option string)
  | GetSettings (id : string)
  | PatchSettings (now : Z) (id : string) (b : Json)
  | GetLlm (id : string)
  | PutLlm (now : Z) (id : string) (b : LlmBody)
  | DeleteLlm (now : Z) (id : string)
  | Scaffold (id : string) (stack : option Scaffolding.DetectedStack) (provision : option bool)
  | DetectStack (now : Z) (id : string)
  | Contextual (taskContent projectId : option string) (maxSpecialists : option nat) (phase : option Specialists.Phase)
  | Elsewhere (answer : outcome Reply).

Definition serve (u : string) (q : Request) : JsM Db Reply :=
  match q with
  | ListRepositories pid => listByProject schema u pid
  | AddRepository now id pid b => addRepository schema now id u pid b
  | GetRepository id => getRepository schema u id
  | PutRepository now id b => putRepository schema now u id b
  | DeleteRepository now id => deleteRepository schema now u id
  | Reconnect now id => reconnect schema fetchRepo accounts now u id
  | GetEnv id => getEnv schema fromBase64 devKey env u id
  | PutEnv now ivs id vars => putEnv schema fromBase64 devKey env now ivs u id vars
  | DeleteEnv now id => deleteEnv schema now u id
  | ListProjects => listProjects schema u
  | PostProject now newId b => postProject schema knownUser scaffold now newId u b
  | GetProject id => getProject schema u id
  | PutProject now id n de ty st a => putProject schema now u id n de ty st a
  | DeleteProject now id => deleteProject schema now u id
  | GetApiKey id => getApiKey schema u id
  | PutApiKey now id k => putApiKey schema now u id k
  | GetSettings id => getProjectSettings schema u id
  | PatchSettings now id b => patchSettings schema now u id b
  | GetLlm id => getLlmConfig schema u id
  | PutLlm now id b => putLlmConfig schema now u id b
  | DeleteLlm now id => deleteLlmConfig schema now u id
  | Scaffold id stack provision => ProjectTools.postScaffold schema neonApiKey neon u id stack provision
  | DetectStack now id => detectStack schema activeSpecialists detectStackFromRepo now id
  | Contextual text pid max ph => ProjectTools.postContextual schema readConfig text pid max ph
  | Elsewhere answer => RR.lift answer
  end.

(** The project a request names without the route asking whose it is. *)
Definition unchecked (q : Request) : option string :=
  match q with
  | DetectStack _ id => Some id
  | Contextual _ pid _ _ => JsStr.orNull pid
  | _ => None
  end.

(** No project of somebody else. *)
Definition notForeign (u id : string) (d : Db) : Prop := id ∈ myIds u d \/ id ∉ p_id <$> projects d.

(** Generated ids do not hit a row of somebody else, and the two routes that do
    not check the owner are not sent for a project of somebody else. *)
Definition fresh (u : string) (q : Request) (d : Db) : Prop :=
  match q with
  | AddRepository _ id _ _ => id ∉ g_id <$> repos (theirs u d)
  | PostProject _ newId _ =>
      newId 0 ∉ p_id <$> projects (theirs u d) /\ forall j, newId j ∉ g_id <$> repos (theirs u d)
  | _ => forall id, unchecked q = Some id -> notForeign u id d
  end.

Lemma isolated_postProject u now newId b d :
  wf d -> fresh u (PostProject now newId b) d ->
  isolated u agree (postProject schema knownUser scaffold now newId u b) d.
Proof.
  intros Hd [Hp Hr]. unfold postProject. destruct (JsStr.orNull (np_name b)) as [name|];
    [|apply isolated_ret; [done|apply agree_refl]].
  apply isolated_try; [|apply agree_refl].
  pose proof (fun de ty key st => iso_createProject u knownUser now (newId 0) name de ty key st d Hd Hp) as Hc.
  apply isolated_seq; [by apply Hc|]. intros p d1 Hrun Hd1 [Hk1 _] Ht1.
  apply isolated_seq; [|intros rs d2 _ Hd2 _ _; apply isolated_ret; [done|apply agree_refl]].
  apply isolated_createRepos; [done| |by rewrite Ht1]. by eapply (proj2 (Hc _ _ _ _)).
Qed.

Lemma isolated_listProjects u d : wf d -> isolated u agree (listProjects schema u) d.
Proof.
  intros Hd. apply isolated_try; [|apply agree_refl]. apply isolated_seq; [by apply iso_byUser|].
  intros ps d1 Hrun Hd1 _ _. apply isolated_seq; [|intros l d2 _ Hd2 _ _; apply isolated_ret; [done|apply agree_refl]].
  apply isolated_mapM; [done|]. intros p d2 Hp Hd2 [Hk _]. apply isolated_seq.
  - apply iso_byProject; [done|]. apply Hk. by eapply byUser_elems.
  - intros rs d3 _ Hd3 _ _. by apply isolated_ret.
Qed.

Lemma isolated_deleteProject u now id d : wf d -> isolated u agree (deleteProject schema now u id) d.
Proof.
  intros Hd. apply isolated_withProject; [done|]. intros p Hid Hp. rewrite Hp.
  apply isolated_seq; [by apply iso_byProject|]. intros rs d1 Hrun Hd1 [Hk1 _] _.
  apply isolated_seq; [apply isolated_deleteAll; [done|]; by eapply byProject_elems|].
  intros [] d2 _ Hd2 [Hk2 _] _. apply isolated_seq; [apply iso_deleteProject; auto|].
  intros x d3 _ Hd3 _ _. apply isolated_ret; [done|apply agree_refl].
Qed.

Lemma find_unused id d : id ∉ p_id <$> projects d -> findRow p_id id (projects d) = None.
Proof. intros Hid. apply findRow_None. intros r Hr <-. by apply Hid, list_elem_of_fmap_2. Qed.

Lemma unused_mine u id d : id ∉ p_id <$> projects d -> id ∉ p_id <$> projects (mine u d).
Proof. intros Hid (r & -> & [_ Hr]%list_elem_of_filter)%list_elem_of_fmap. by apply Hid, list_elem_of_fmap_2. Qed.

Lemma isolated_detectStack u now id d :
  wf d -> notForeign u id d ->
  isolated u agree (detectStack schema activeSpecialists detectStackFromRepo now id) d.
Proof.
  intros Hd [Hid|Hid].
  - unfold detectStack. apply isolated_try; [|apply agree_refl]. isolate.
  - apply (isolated_ext u agree _ (mret (notFound "Project"))); [..|apply isolated_ret; [done|apply agree_refl]].
    + unfold detectStack, try_catch. erewrite bind_ok by apply findProject_eq. by rewrite find_unused.
    + unfold detectStack, try_catch. erewrite bind_ok by apply findProject_eq. by rewrite find_unused by by apply unused_mine.
Qed.

Lemma storedConfig_mine u id d :
  wf d -> notForeign u id d ->
  (ProjectTools.storedConfig schema readConfig id (mine u d)).1 = (ProjectTools.storedConfig schema readConfig id d).1.
Proof.
  intros Hd Hid. unfold ProjectTools.storedConfig. do 2 erewrite bind_ok by apply findProject_eq.
  assert (findRow p_id id (projects (mine u d)) = findRow p_id id (projects d)) as ->.
  { destruct Hid as [Hid|Hid]; [by apply find_own|]. rewrite !find_unused; [done..|]. by apply unused_mine. }
  repeat case_match; try done. unfold mbind, jsm_bind, RR.lift. by destruct (readConfig _).
Qed.

Lemma isolated_contextual u text pid max ph d :
  wf d -> (forall id, JsStr.orNull pid = Some id -> notForeign u id d) ->
  isolated u agree (ProjectTools.postContextual schema readConfig text pid max ph) d.
Proof.
  intros Hd Hid. constructor; try done. simpl. left. f_equal. unfold Specialists.contextualRoute.
  destruct (JsStr.orNull text); [|done]. destruct (JsStr.orNull pid) as [id|]; [|done].
  by rewrite storedConfig_mine by auto.
Qed.

Ltac guardRepo :=
  apply isolated_withRepo; [done|unfold refusals; set_solver|]; intros ? ? ?; isolate.
Ltac guardProject := apply isolated_withProject; [done|]; intros ? ? ?; isolate.

Lemma serve_isolated u q d : wf d -> fresh u q d -> isolated u agree (serve u q) d.
Proof.
  intros Hd Hf. destruct q; cbn [serve].
  - unfold listByProject. guardProject.
  - unfold addRepository. apply isolated_withProject; [done|]. intros x Hid Hx.
    destruct (JsStr.orNull (ab_name b)) as [name|], (JsStr.orNull (ab_githubRepoUrl b)) as [url|],
      (JsStr.orNull (ab_githubRepoName b)) as [rn|]; try (apply isolated_ret; [done|apply agree_refl]).
    apply isolated_seq; [by apply iso_createRepo|]. intros r d1 _ Hd1 _ _. isolate.
  - unfold getRepository. guardRepo.
  - unfold putRepository. guardRepo.
  - unfold deleteRepository. guardRepo.
  - unfold reconnect. apply isolated_seq; [by apply isolated_lift|]. intros t d1 _ Hd1 _ _.
    apply isolated_withRepo; [done|unfold refusals; set_solver|]; intros x Hid Hx. rewrite Hx. isolate.
  - unfold getEnv. guardRepo.
  - unfold putEnv. guardRepo.
  - unfold deleteEnv. guardRepo.
  - by apply isolated_listProjects.
  - by apply isolated_postProject.
  - unfold getProject. apply isolated_withProject; [done|]. intros x Hid Hx. rewrite Hx. isolate.
  - unfold putProject. guardProject.
  - by apply isolated_deleteProject.
  - unfold getApiKey. guardProject.
  - unfold putApiKey. guardProject.
  - unfold getProjectSettings. guardProject.
  - unfold patchSettings. guardProject.
  - unfold getLlmConfig. apply isolated_withProject; [done|]. intros x Hid Hx.
    apply (isolated_mono u eq); [intros ? ? ->; apply agree_refl|]. by apply isolated_lift.
  - unfold putLlmConfig. guardProject.
  - unfold deleteLlmConfig. guardProject.
  - unfold ProjectTools.postScaffold. apply isolated_withProject; [done|]. intros x Hid Hx. rewrite Hx. isolate.
  - apply isolated_detectStack; [done|]. by apply Hf.
  - by apply isolated_contextual.
  - apply (isolated_mono u eq); [intros ? ? ->; apply agree_refl|]. by apply isolated_lift.
Qed.

(** ** Interleavings *)

(** A sequence of requests, each with its user, and the answers. *)
Fixpoint run (l : list (string * Request)) (d : Db) : list (string * outcome Reply) * Db :=
  match l with
  | [] => ([], d)
  | (v, q) :: l' => let r := serve v q d in let rest := run l' r.2 in ((v, r.1) :: rest.1, rest.2)
  end.

Fixpoint freshRun (l : list (string * Request)) (d : Db) : Prop :=
  match l with
  | [] => True
  | (v, q) :: l' => fresh v q d /\ freshRun l' (serve v q d).2
  end.

Definition byUser {A} (u : string) (l : list (string * A)) : list (string * A) := base.filter (fun e => e.1 = u) l.

(** C14: However the requests of several users to the project and repository
    routes interleave, each user gets the answers, and ends with the rows, of a
    database that holds nothing but the user's own projects and repositories;
    only whether a row of somebody else is refused as missing or as forbidden
    can differ. This supposes that nobody sends POST /:id/detect-stack or POST
    /specialists/contextual for a project of somebody else: these two routes do
    not ask whose project it is ([detect_stack_crosses_owners] and
    [contextual_crosses_owners] show what they then do). And generated ids must
    not hit a row of somebody else. *)
Theorem tenant_isolation u l d :
  wf d -> freshRun l d ->
  mine u (run l d).2 = (run (byUser u l) (mine u d)).2
  /\ Forall2 (fun a b => a.1 = u /\ b.1 = u /\ related agree a.2 b.2) (byUser u (run l d).1) (run (byUser u l) (mine u d)).1.
Proof.
  revert d. induction l as [|[v q] l IH]; intros d Hd Hf; [by split; [|constructor]|].
  destruct Hf as [Hq Hl]. destruct (serve_isolated v q d Hd Hq) as [Hr Hm Ht Hw Hk].
  destruct (IH _ Hw Hl) as [IH1 IH2]. unfold byUser in *. cbn [run fst snd].
  rewrite !list.filter_cons. cbn [fst snd]. destruct (decide (v = u)) as [->|Hne].
  - cbn [run fst snd]. rewrite Hm. split; [done|]. by constructor.
  - assert (Hs : mine u (serve v q d).2 = mine u d).
    { rewrite <- (mine_theirs u v), Ht, mine_theirs by done. done. }
    rewrite Hs in *. done.
Qed.

End requests.

(** ** The routes without an owner *)

(** The contextual specialists are chosen by the settings of whatever project is
    named: the answer, to whoever asks, is that for its stored configuration. *)
Lemma contextual_crosses_owners `{Specialists.PromptTexts} (readConfig : Json -> outcome Specialists.ProjectSpecialistsConfig)
    text p settings c max ph d :
  wf d -> p ∈ projects d -> p_id p <> EmptyString -> PR.ip_settings (PR.rowToProject p) = Some settings ->
  field "specialists" settings = Some c -> truthy c = true ->
  (ProjectTools.postContextual initializeSchema readConfig text (Some (p_id p)) max ph d).1
  = Ok (ProjectTools.contextualReply (Specialists.contextualRoute
      (fun _ => match readConfig c with Ok r => Ok (Some r) | Throw e => Throw e end) text (Some (p_id p)) max ph)).
Proof.
  intros Hd Hp Hne Hs Hc Ht. simpl. do 2 f_equal. unfold Specialists.contextualRoute.
  destruct (JsStr.orNull text); [|done].
  assert (JsStr.orNull (Some (p_id p)) = Some (p_id p)) as -> by (simpl; by destruct (p_id p)).
  assert ((ProjectTools.storedConfig initializeSchema readConfig (p_id p) d).1
    = match readConfig c with Ok r => Ok (Some r) | Throw e => Throw e end) as ->; [|done].
  unfold ProjectTools.storedConfig. erewrite bind_ok by apply findProject_eq.
  rewrite (findRow_elem p_id _ _ _ (wf_projects _ Hd) Hp eq_refl). cbn [fmap option_fmap option_map].
  change (PR.ip_settings (PR.withoutKey (PR.rowToProject p))) with (PR.ip_settings (PR.rowToProject p)).
  rewrite Hs, Hc, Ht. unfold mbind, jsm_bind, RR.lift. by destruct (readConfig c).
Qed.

Section detection.
Variable activeSpecialists : Json -> Json.
Variable detectStackFromRepo : string -> string -> outcome DetectedStack.

(** What the detection stores. *)
Definition detected (p : ProjectRow) (l : list DetectedStack) : Json :=
  PR.merge (PR.ip_settings (PR.rowToProject p))
    (withStack (settingsOf (PR.withoutKey (PR.rowToProject p))) (stackJson (mergeStacks l))).

Lemma update_known now id x d p :
  wf d -> p ∈ projects d -> p_id p = id ->
  PR.update initializeSchema now id x d
  = (Ok (Some (PR.withoutKey (PR.rowToProject (PR.updated now x p)))), onProjects (updateWhere p_id id (PR.updated now x)) d).
Proof.
  intros Hd Hp Hid. unfold PR.update. erewrite bind_ok by apply findProject_eq.
  rewrite (findRow_elem p_id _ _ _ (wf_projects _ Hd) Hp Hid). cbn [fmap option_fmap option_map].
  erewrite bind_ok by (by apply query_ok). erewrite bind_ok by reflexivity. rewrite findProject_eq. do 2 f_equal.
  erewrite (findRow_elem p_id _ _ (PR.updated now x p)); [done| | |done].
  - cbn [onProjects projects]. rewrite updateWhere_keys; [apply Hd|done].
  - apply elem_of_updateWhere. exists p. by rewrite decide_True.
Qed.

(** The detection of a stack asks only whether the project exists: whoever
    sends the request, a project with an active repository whose stack can be
    detected gets its settings rewritten, its owner notwithstanding. *)
Theorem detect_stack_crosses_owners now d p r s :
  wf d -> p ∈ projects d -> r ∈ repos d -> g_project_id r = p_id p -> g_is_active r = true ->
  g_github_repo_url r <> EmptyString -> g_github_branch r <> EmptyString ->
  detectStackFromRepo (g_github_repo_url r) (g_github_branch r) = Ok s ->
  exists reply d' p' stacks,
    detectStack initializeSchema activeSpecialists detectStackFromRepo now (p_id p) d = (Ok reply, d')
    /\ status reply = 200%Z /\ s ∈ stacks
    /\ p' ∈ projects d' /\ p_id p' = p_id p /\ p_user_id p' = p_user_id p
    /\ p_settings p' = Some (detected p stacks) /\ p_updated_at p' = now.
Proof.
  intros Hd Hp Hr Hrp Ha Hurl Hbr Hs. unfold detectStack, try_catch.
  erewrite bind_ok by apply findProject_eq.
  rewrite (findRow_elem p_id _ _ _ (wf_projects _ Hd) Hp eq_refl). cbn [fmap option_fmap option_map].
  unfold RR.findByProjectId. rewrite bind_assoc. erewrite bind_ok by (by apply query_ok). erewrite bind_ok by reflexivity.
  set (rows := sortBy byOrder _). assert (Hin : RR.rowToRepository r ∈ RR.rowToRepository <$> rows).
  { apply list_elem_of_fmap. exists r. split; [done|]. unfold rows. rewrite sortBy_elem. by apply list_elem_of_filter. }
  destruct (RR.rowToRepository <$> rows) as [|x0 rs0] eqn:Hrows; [by apply elem_of_nil in Hin|]. rewrite <- Hrows in *.
  set (found_ := omap _ _). assert (Hf : (g_name r, s) ∈ found_).
  { apply list_elem_of_omap. exists (RR.rowToRepository r). split; [done|]. cbn.
    destruct (g_github_repo_url r) eqn:Hu; [done|]. cbn. destruct (g_github_branch r) eqn:Hb; [done|]. cbn. by rewrite Hs. }
  destruct found_ as [|e0 es] eqn:Hfound; [by apply elem_of_nil in Hf|]. rewrite <- Hfound in *.
  unfold PR.updateSettings. rewrite bind_assoc. erewrite bind_ok by apply findProject_eq.
  rewrite (findRow_elem p_id _ _ _ (wf_projects _ Hd) Hp eq_refl). cbn [fmap option_fmap option_map].
  erewrite bind_ok by (by eapply update_known).
  eexists _, _, _, (found_.*2). split; [reflexivity|]. split; [done|].
  split; [apply list_elem_of_fmap; by exists (g_name r, s)|].
  split; [apply elem_of_updateWhere; exists p; by rewrite decide_True|]. by repeat split.
Qed.

End detection.
(** ** A small database *)

Definition demoProject (id user : string) : ProjectRow :=
  {| p_id := id; p_name := "P"; p_description := None; p_type := "web-app"; p_status := "planning"; p_user_id := user;
     p_api_key := None; p_settings := Some (JObj []); p_is_active := true; p_created_at := 1; p_updated_at := 1 |}.

Definition demoRepo (id project : string) : RepoRow :=
  {| g_id := id; g_name := "app"; g_description := None; g_project_id := project;
     g_github_repo_url := "https://github.com/x/app"; g_github_repo_name := "x/app"; g_github_branch := "main";
     g_type := "backend"; g_path_patterns := None; g_execution_order := Some 1%Z; g_dependencies := None;
     g_env_variables := None; g_is_active := true; g_last_synced_at := None; g_created_at := 1; g_updated_at := 1 |}.

Definition demoDb : Db :=
  {| projects := [demoProject "p1" "ann"; demoProject "p2" "bob"]; repos := [demoRepo "r1" "p1"; demoRepo "r2" "p2"] |}.

Lemma demoDb_wf : wf demoDb.
Proof.
  constructor.
  - by apply (bool_decide_unpack _); vm_compute.
  - by apply (bool_decide_unpack _); vm_compute.
  - intros r [->|[->|[]%elem_of_nil]%elem_of_cons]%elem_of_cons; by apply (bool_decide_unpack _); vm_compute.
Qed.

Definition demoStack : DetectedStack :=
  {| st_frontend := None; st_backend := Some "nodejs"; st_database := None; st_infrastructure := None;
     st_additionalTech := None |}.

#[local] Instance demoTexts : Specialists.PromptTexts :=
  {| Specialists.persona x := x; Specialists.instructions _ _ := None |}.

(** Ann tries the repository and the project of Bob, Bob deletes his, Ann
    stores variables and has the stack of her project detected. *)
Definition demoSteps : list (string * Request) :=
  [("ann", GetEnv "r2"); ("ann", Scaffold "p2" None None); ("bob", DeleteRepository 5 "r2");
   ("ann", PutEnv 6 ["0123456789abcdef"] "r1" (Some CryptoSpec.demoVars)); ("ann", ListRepositories "p1");
   ("ann", DetectStack 7 "p1"); ("bob", Contextual (Some "react") None None None)].

Abbreviation demoRun :=
  (run (H := CryptoSpec.demoAead) (fun s => s) "" CryptoSpec.demoKeys (fun _ _ => Ok true) (fun _ => true)
     (fun _ _ _ => Throw "offline") {| AccountRows.oauth := []; AccountRows.users := [] |}
     None (fun _ => Throw "offline") (fun _ => Throw "none") (fun x => x) (fun _ _ => Ok demoStack)).

Lemma tenant_isolation_witness :
  (fun e => match e.2 with Ok r => status r | Throw _ => 0%Z end) <$> (demoRun demoSteps demoDb).1
    = [403; 404; 200; 200; 200; 200; 200]%Z
  /\ mine "ann" (demoRun demoSteps demoDb).2 = (demoRun (byUser "ann" demoSteps) (mine "ann" demoDb)).2.
Proof.
  split; [by vm_compute|].
  apply (tenant_isolation (H := CryptoSpec.demoAead) (fun s => s) "" CryptoSpec.demoKeys (fun _ _ => Ok true) (fun _ => true)
           (fun _ _ _ => Throw "offline") {| AccountRows.oauth := []; AccountRows.users := [] |}
           None (fun _ => Throw "offline") (fun _ => Throw "none") (fun x => x) (fun _ _ => Ok demoStack)
           "ann" demoSteps demoDb); [exact demoDb_wf|].
  do 5 (split; [intros id Hid; discriminate Hid|]).
  split; [|split; [intros id Hid; discriminate Hid|exact I]].
  intros id [= <-]. left. by apply (bool_decide_unpack _); vm_compute.
Defined.

Lemma detect_stack_crosses_owners_witness :
  exists reply d' p' stacks,
    detectStack initializeSchema (fun x => x) (fun _ _ => Ok demoStack) 9 "p2" demoDb = (Ok reply, d')
    /\ status reply = 200%Z /\ demoStack ∈ stacks
    /\ p' ∈ projects d' /\ p_id p' = "p2" /\ p_user_id p' = "bob"
    /\ p_settings p' = Some (detected (demoProject "p2" "bob") stacks) /\ p_updated_at p' = 9%Z.
Proof.
  apply (detect_stack_crosses_owners (fun x => x) (fun _ _ => Ok demoStack) 9 demoDb (demoProject "p2" "bob")
           (demoRepo "r2" "p2") demoStack demoDb_wf); try done; [right; left|right; left].
Defined.

End TenantSpec.
