(* ===== verification/ProjectRoutesProofs.v ===== *)
(** * Properties of the project and repository routes

    Environment variables come back as they were given, and what an accepted
    choice of language models means for a run. *)

From S2P Require Import Prelude JsNumber Json EventBridge Schema ExecutionTracker Crypto CryptoProofs Accounts Projects LlmConfig RepositoryRoutes ProjectRoutes TenantProofs.
From stdpp Require Import list options.

Module ProjectSpec.
Import Json Js Schema TrainingRows Rows ProjectRows EnvService RepositoryRoutes ProjectRoutes TenantSpec.
Abbreviation schema := initializeSchema.

(** ** Guards *)

Lemma withRepo_200 user id other failed k d reply d' :
  withRepo schema user id other failed k d = (Ok reply, d') -> status reply = 200%Z -> status other <> 200%Z ->
  exists r p, findRow g_id id (repos d) = Some r /\ findRow p_id (g_project_id r) (projects d) = Some p
    /\ p_user_id p = user /\ k (RR.rowToRepository r) d = (Ok reply, d').
Proof.
  unfold withRepo, try_catch. erewrite bind_ok by apply findRepo_eq. intros Hrun Hs Ho.
  destruct (findRow g_id id (repos d)) as [r|] eqn:Hr; cbn [fmap option_fmap option_map] in Hrun;
    [|unfold mret, jsm_ret in Hrun; by simplify_eq].
  erewrite bind_ok in Hrun by apply findProject_eq. cbn [RR.ir_projectId RR.rowToRepository] in Hrun.
  destruct (findRow p_id (g_project_id r) (projects d)) as [p|] eqn:Hp; cbn [fmap option_fmap option_map] in Hrun;
    [|unfold mret, jsm_ret in Hrun; by simplify_eq].
  case_decide as Hu; [|unfold mret, jsm_ret in Hrun; by simplify_eq]. exists r, p. repeat split; [done..|].
  destruct (k (RR.rowToRepository r) d) as [[a|e] d1]; [by simplify_eq|]. unfold mret, jsm_ret in Hrun. by simplify_eq.
Qed.

Lemma withRepo_own user id other failed k d r p reply d' :
  findRow g_id id (repos d) = Some r -> findRow p_id (g_project_id r) (projects d) = Some p -> p_user_id p = user ->
  k (RR.rowToRepository r) d = (Ok reply, d') ->
  withRepo schema user id other failed k d = (Ok reply, d').
Proof.
  intros Hr Hp Hu Hk. unfold withRepo, try_catch. erewrite bind_ok by apply findRepo_eq. rewrite Hr.
  cbn [fmap option_fmap option_map]. erewrite bind_ok by apply findProject_eq. cbn [RR.ir_projectId RR.rowToRepository].
  rewrite Hp. cbn [fmap option_fmap option_map]. rewrite decide_True by done. by rewrite Hk.
Qed.

Lemma withProject_200 user id inc failed k d reply d' :
  withProject schema user id inc failed k d = (Ok reply, d') -> status reply = 200%Z ->
  exists p, findRow p_id id (projects d) = Some p /\ p_user_id p = user
    /\ k (if inc then PR.rowToProject p else PR.withoutKey (PR.rowToProject p)) d = (Ok reply, d').
Proof.
  unfold withProject, try_catch. erewrite bind_ok by apply findProject_eq. intros Hrun Hs.
  destruct (findRow p_id id (projects d)) as [p|] eqn:Hp; cbn [fmap option_fmap option_map] in Hrun;
    [|unfold mret, jsm_ret in Hrun; by simplify_eq].
  case_decide as Hu; [|unfold mret, jsm_ret in Hrun; by simplify_eq]. exists p. repeat split; [by destruct inc|].
  destruct (k _ d) as [[a|e] d1]; [by simplify_eq|]. unfold mret, jsm_ret in Hrun. by simplify_eq.
Qed.

Lemma updateRepo_known now id x d r :
  wf d -> findRow g_id id (repos d) = Some r ->
  RR.update schema now id x d
  = (Ok (Some (RR.rowToRepository (RR.updated now x r))), onRepos (updateWhere g_id id (RR.updated now x)) d)
  /\ findRow g_id id (repos (onRepos (updateWhere g_id id (RR.updated now x)) d)) = Some (RR.updated now x r).
Proof.
  intros Hd Hr.
  assert (Hf : findRow g_id id (repos (onRepos (updateWhere g_id id (RR.updated now x)) d)) = Some (RR.updated now x r)).
  { apply findRow_Some in Hr as [Hin Hid]. cbn [onRepos repos]. apply findRow_elem; [| |done].
    - rewrite updateWhere_keys; [apply Hd|done].
    - apply elem_of_updateWhere. exists r. by rewrite decide_True. }
  split; [|done]. unfold RR.update. erewrite bind_ok by apply findRepo_eq. rewrite Hr. cbn [fmap option_fmap option_map].
  erewrite bind_ok by (by apply query_ok). erewrite bind_ok by reflexivity. rewrite findRepo_eq. by rewrite Hf.
Qed.

(** ** Environment variables *)

Section env.
Context `{AOk : CryptoService.AeadOk}.
Variables (fromBase64 : string -> string) (devKey : string) (env : CryptoService.Env).

Lemma decryptAll_prepared ivs vs st :
  prepareForStorage fromBase64 devKey env ivs vs = Ok st ->
  (forall v p, v ∈ vs -> v_isSecret v = true -> v_value v = Some p -> CryptoService.isEncrypted p = false) ->
  RR.decryptAll fromBase64 devKey env st = Ok vs.
Proof using AOk.
  revert ivs st. induction vs as [|v vs IH]; intros ivs st Hp Hv; cbn in Hp; [by simplify_eq|].
  destruct (if v_isSecret v then _ else _) as [x|] eqn:Hx; [|done].
  destruct (prepareForStorage fromBase64 devKey env (tail ivs) vs) as [l|] eqn:Hl; [|done]. simplify_eq. cbn.
  destruct (v_isSecret v) eqn:Hs.
  2: { injection Hx as <-. rewrite (IH _ _ Hl) by (intros ? ? Hw; apply Hv; by right). by destruct v. }
  destruct (v_value v) as [p|] eqn:Hval; cbn in Hx.
  2: { injection Hx as <-. cbn. rewrite (IH _ _ Hl) by (intros ? ? Hw; apply Hv; by right).
       do 2 f_equal. destruct v; unfold withValue; by simpl in *; subst. }
  destruct (CryptoService.encrypt fromBase64 devKey env _ p) as [e|] eqn:He; [|done]. injection Hx as <-.
  assert (Hd : CryptoService.decrypt fromBase64 devKey env e = Ok p)
    by (eapply CryptoSpec.decrypt_encrypt; [by apply (Hv v); [left|..]|done]).
  rewrite (IH _ _ Hl) by (intros ? ? Hw; apply Hv; by right).
  destruct (JsStr.orNull (Some e)) as [x|] eqn:Ho.
  - destruct e; [done|]. injection Ho as <-. rewrite Hd. do 2 f_equal. destruct v. unfold withValue. simpl in *. by subst.
  - destruct e; [|done]. injection Hd as <-. do 2 f_equal. destruct v. unfold withValue. simpl in *. by subst.
Qed.

(** Secrets are stored encrypted. *)
Definition sealed (v : IEnvVariable) : Prop :=
  v_isSecret v = true -> forall p, v_value v = Some p -> p = EmptyString \/ CryptoService.isEncrypted p = true.

Lemma encrypt_marks iv p e :
  CryptoService.encrypt fromBase64 devKey env iv p = Ok e -> e = EmptyString \/ CryptoService.isEncrypted e = true.
Proof.
  unfold CryptoService.encrypt. destruct (JsStr.truthy p) eqn:Ht; simpl.
  - destruct (CryptoService.isEncrypted p) eqn:Hp; [intros [= <-]; by right|].
    destruct (CryptoService.cipherKey _ _ _); [|done]. destruct (CryptoService.seal _ _ _). intros [= <-]. by right.
  - intros [= <-]. left. unfold JsStr.truthy in Ht. destruct p; [done|]. by rewrite bool_decide_eq_false_2 in Ht.
Qed.

Lemma prepared_sealed ivs vs st : prepareForStorage fromBase64 devKey env ivs vs = Ok st -> Forall sealed st.
Proof.
  revert ivs st. induction vs as [|v vs IH]; intros ivs st Hp; cbn in Hp; [by simplify_eq|].
  destruct (if v_isSecret v then _ else _) as [x|] eqn:Hx; [|done].
  destruct (prepareForStorage _ _ _ _ vs) as [l|] eqn:Hl; [|done]. simplify_eq. constructor; [|by eapply IH].
  intros Hs p Hval. cbn in Hs, Hval. rewrite Hs in Hx. subst x. destruct (v_value v) as [q|]; [|done]. cbn in Hx.
  destruct (CryptoService.encrypt _ _ _ _ q) as [e|] eqn:He; [|done]. injection Hx as ->. by eapply encrypt_marks.
Qed.

(** C21 Variables an owner stores with PUT /:id/env are stored with every secret
    encrypted, are served by GET /:id/env with the values that were given, and
    produce the .env file with those values; the secrets must not start with
    the marker of encrypted values. *)
Theorem stored_env_served now ivs user id vs reply d d' :
  wf d -> putEnv schema fromBase64 devKey env now ivs user id (Some vs) d = (Ok reply, d') -> status reply = 200%Z ->
  (forall v p, v ∈ vs -> v_isSecret v = true -> v_value v = Some p -> CryptoService.isEncrypted p = false) ->
  getEnv schema fromBase64 devKey env user id d'
    = (Ok (succeed [("data", Some (JObj [("envVariables", JArr (envJson <$> vs)); ("count", count vs)]))]), d')
  /\ exists r st, findRow g_id id (repos d') = Some r /\ g_env_variables r = Some st /\ Forall sealed st
     /\ (vs <> [] -> generateEnvFileContent fromBase64 devKey env st = Ok (heading +:+ CryptoSpec.plainEntries vs)).
Proof using AOk.
  intros Hd Hrun Hs Hv.
  apply withRepo_200 in Hrun as (r & p & Hr & Hp & Hu & Hrun); [|done|done]. cbv zeta in Hrun. cbn [default] in Hrun.
  destruct (negb _) in Hrun; [unfold mret, jsm_ret in Hrun; by simplify_eq|].
  apply bind_inv in Hrun as (st & d1 & Hst & Hrun). unfold RR.lift in Hst. injection Hst as Hst <-.
  destruct (updateRepo_known now id (RR.onlyEnv st) d r Hd Hr) as [Hup Hf].
  erewrite bind_ok in Hrun by exact Hup. unfold mret, jsm_ret in Hrun. injection Hrun as <- <-. split.
  - eapply withRepo_own; [exact Hf|exact Hp|exact Hu|]. unfold RR.getDecryptedEnvVariables. rewrite bind_assoc.
    erewrite bind_ok by apply findRepo_eq. rewrite Hf. cbn [fmap option_fmap option_map].
    erewrite bind_ok; [reflexivity|]. unfold RR.lift. f_equal. by eapply decryptAll_prepared.
  - exists (RR.updated now (RR.onlyEnv st) r), st. split; [done|]. split; [done|]. split; [by eapply prepared_sealed|].
    intros Hne. by eapply CryptoSpec.env_file_roundtrip.
Qed.

End env.
(** ** Objects *)

Section objects.
Implicit Types (m : list (string * Json)) (k : string) (v : Json).

Lemma field_elem k m v : field k (JObj m) = Some v -> (k, v) ∈ m.
Proof.
  cbn [field]. destruct (base.filter _ (reverse m)) as [|[k' v'] l] eqn:Hf; [done|]. intros [= <-].
  pose proof (list_elem_of_here (k', v') l) as Hin. rewrite <- Hf in Hin.
  apply list_elem_of_filter in Hin as [Hk Hin]. simpl in Hk. subst k'. by rewrite elem_of_reverse in Hin.
Qed.

Lemma field_const k m v : k ∈ m.*1 -> (forall v', (k, v') ∈ m -> v' = v) -> field k (JObj m) = Some v.
Proof.
  intros Hk Hv. destruct (field k (JObj m)) as [x|] eqn:Hf; [by apply field_elem, Hv in Hf as ->|].
  exfalso. apply list_elem_of_fmap in Hk as ([k' v'] & -> & Hin). cbn [field fst] in Hf.
  destruct (base.filter _ (reverse m)) as [|e l] eqn:He; [|done].
  apply (elem_of_nil (k', v')). rewrite <- He. apply list_elem_of_filter. split; [done|]. by rewrite elem_of_reverse.
Qed.

(** Only the entries of a key matter to its field. *)
Lemma field_same k m m' :
  base.filter (fun e => e.1 = k) m = base.filter (fun e => e.1 = k) m' -> field k (JObj m) = field k (JObj m').
Proof. intros Hm. cbn [field]. by rewrite !filter_reverse, Hm. Qed.

Lemma filter_fmap_key (P : string * Json -> Prop) `{!forall e, Decision (P e)} f m :
  (forall e, P e -> f e = e) -> (forall e, P (f e) <-> P e) -> base.filter P (f <$> m) = base.filter P m.
Proof.
  intros H1 H2. induction m as [|e m IH]; [done|]. csimpl. rewrite !list.filter_cons, IH.
  destruct (decide (P e)) as [Hp|Hp]; [rewrite decide_True by (by apply H2); by rewrite H1|].
  by rewrite decide_False by (by rewrite H2).
Qed.

Lemma has_keys k m : JsMap.has k m = true <-> k ∈ m.*1.
Proof.
  rewrite JsMap.has_spec. destruct (JsMap.get k m) as [v|] eqn:Hg.
  - split; [|eauto]. intros _. apply JsMap.get_Some_elem in Hg. apply list_elem_of_fmap. by exists (k, v).
  - apply JsMap.get_None_keys in Hg. split; [intros [? ?]; done|]. by intros ?%Hg.
Qed.

Lemma field_setKey_eq k v m : field k (JObj (LlmConfig.setKey k v m)) = Some v.
Proof.
  unfold LlmConfig.setKey. destruct (JsMap.has k m) eqn:Hh.
  - apply has_keys in Hh. apply field_const.
    + rewrite <- list_fmap_compose. apply list_elem_of_fmap in Hh as ([k' v'] & -> & Hin).
      apply list_elem_of_fmap. exists (k', v'). split; [|done]. simpl. by rewrite decide_True.
    + intros v' Hin. apply list_elem_of_fmap in Hin as ([k1 v1] & He & Hin). simpl in He. case_decide; by simplify_eq.
  - assert (Hk : k ∉ m.*1) by (rewrite <- has_keys; by rewrite Hh). apply field_const.
    + rewrite fmap_app. set_solver.
    + intros v' [Hin|Hin]%elem_of_app; [|by apply list_elem_of_singleton in Hin; simplify_eq].
      exfalso. apply Hk, list_elem_of_fmap. by exists (k, v').
Qed.

Lemma field_setKey_ne k k' v m : k <> k' -> field k' (JObj (LlmConfig.setKey k v m)) = field k' (JObj m).
Proof.
  intros Hne. apply field_same. unfold LlmConfig.setKey. destruct (JsMap.has k m).
  - apply filter_fmap_key; intros [k1 v1]; simpl.
    + intros ->. by rewrite decide_False.
    + case_decide; simpl; [subst; naive_solver|done].
  - rewrite list.filter_app, list.filter_cons. simpl. rewrite decide_False by done. by rewrite app_nil_r.
Qed.

Lemma field_setOptKey_eq k (v : option Json) m : field k (JObj (LlmConfig.setOptKey k v m)) = v.
Proof.
  destruct v as [v|]; [apply field_setKey_eq|]. cbn [LlmConfig.setOptKey].
  destruct (field k (JObj (JsMap.delete k m))) as [x|] eqn:Hf; [|done].
  apply field_elem, list_elem_of_filter in Hf as [Hf _]. done.
Qed.

Lemma field_setOptKey_ne k k' (v : option Json) m : k <> k' -> field k' (JObj (LlmConfig.setOptKey k v m)) = field k' (JObj m).
Proof.
  intros Hne. destruct v as [v|]; [by apply field_setKey_ne|]. apply field_same. cbn [LlmConfig.setOptKey].
  unfold JsMap.delete. rewrite list_filter_filter. apply filter_ext. naive_solver.
Qed.

End objects.

(** ** Language models *)

Import LlmConfig EventBridge.

Lemma valid_config c key p m :
  validateLLMConfig c key = Ok (Valid p m) ->
  exists name mid, li_provider c = Some name /\ JsMap.get name LLM_PROVIDERS = Some p
    /\ li_model c = Some mid /\ findModel p mid = Some m
    /\ (lp_requiresApiKey p = true -> JsStr.orNull (li_apiKey c) <> None \/ isTrue key = true).
Proof.
  unfold validateLLMConfig. destruct (JsStr.orNull (li_provider c)) as [name|] eqn:Hn; [|done].
  assert (Hname : li_provider c = Some name).
  { unfold JsStr.orNull in Hn. by repeat case_match; simplify_eq. }
  destruct (JsMap.get name LLM_PROVIDERS) as [q|] eqn:Hq; [|by case_match].
  destruct (li_model c) as [mid|] eqn:Hmid; [|done]. cbn [mbind option_bind].
  destruct (findModel q mid) as [m'|] eqn:Hm; [|done].
  destruct (JsStr.orNull (li_apiKey c)) as [k|] eqn:Hk.
  - destruct (validateApiKey q k); [|done]. intros [= <- <-]. exists name, mid. repeat split; [done..|]. by left.
  - destruct (lp_requiresApiKey q && negb (isTrue key)) eqn:Hb; [done|]. intros [= <- <-]. exists name, mid.
    repeat split; [done..|]. intros Hreq. rewrite Hreq in Hb. right. by destruct (isTrue key).
Qed.

Lemma configOf_fields c old :
  prop "provider" (Some (configOf c old)) = JStr <$> li_provider c
  /\ prop "model" (Some (configOf c old)) = JStr <$> li_model c
  /\ prop "apiKey" (Some (configOf c old)) = keptKey (li_apiKey c) old
  /\ truthy (configOf c old) = true.
Proof. unfold configOf. destruct (li_provider c), (li_model c), (keptKey (li_apiKey c) old); by repeat split. Qed.

Lemma keptKey_true apiKey old :
  JsStr.orNull apiKey <> None \/ isTrue old = true -> exists k, keptKey apiKey old = Some k /\ truthy k = true.
Proof.
  unfold keptKey. destruct (JsStr.orNull apiKey) as [k|] eqn:Hk.
  - intros _. exists (JStr k). split; [done|]. destruct apiKey as [[|a s]|]; [done| |done].
    injection Hk as <-. done.
  - intros [|Ho]; [done|]. destruct old as [o|]; [|done]. exists o. cbn in *. by rewrite Ho.
Qed.

(** What the stored configuration of a phase is made of. *)
Definition phaseStored (existing : option Json) (provider : option string) (dkey : option Json) (e : string * Json) : Prop :=
  exists ph c p m, e.1 = phaseKey ph
    /\ let old := prop "apiKey" (prop (phaseKey ph) (prop "phases" existing)) in
       e.2 = configOf c old
       /\ validateLLMConfig c (orV old (if decide (li_provider c = provider) then dkey else None)) = Ok (Valid p m).

Lemma phaseConfigs_stored existing provider dkey input ps l :
  phaseConfigs existing provider dkey input ps = Ok (inr l) -> Forall (phaseStored existing provider dkey) l.
Proof.
  revert l. induction ps as [|ph ps IH]; intros l; cbn [phaseConfigs]; [by intros [= <-]|].
  destruct (input ph) as [c|]; [|apply IH]. destruct (_ && _); [|apply IH].
  destruct (validateLLMConfig c _) as [[p m|e]|] eqn:Hv; [|done..].
  destruct (phaseConfigs _ _ _ _ ps) as [[e|l']|]; [done| |done]. intros [= <-]. constructor; [|by apply IH].
  by exists ph, c, p, m.
Qed.

(** A configuration a phase can run with: a provider of the table, one of its
    models, and a key when one is needed. *)
Record runnable (config : option Json) (name : string) (p : LLMProvider) (mid : string) (m : LLMModel) : Prop := {
  ru_provider : prop "provider" config = Some (JStr name);
  ru_known : JsMap.get name LLM_PROVIDERS = Some p;
  ru_model : prop "model" config = Some (JStr mid);
  ru_found : findModel p mid = Some m;
  ru_key : lp_requiresApiKey p = true -> isTrue (prop "apiKey" config) = true;
}.

Lemma choice_runnable config name p mid m :
  runnable config name p mid m ->
  exists ch, choiceOf config = Ok ch /\ ch_providerID ch = toOpenCodeProvider (Some (JStr name))
    /\ ch_modelID ch = Some (JStr mid) /\ (lp_requiresApiKey p = true -> is_Some (ch_apiKey ch)).
Proof.
  intros [Hp _ Hm _ Hk]. destruct config as [c|]; [|done]. cbn [prop mbind option_bind] in Hp, Hm.
  assert (Ha : access "provider" (Some c) = Ok (Some (JStr name))) by (destruct c; try done; cbn [access]; by rewrite Hp).
  unfold choiceOf. rewrite Ha. eexists. split; [reflexivity|]. split; [done|]. split; [done|]. cbn [ch_apiKey].
  intros Hreq. specialize (Hk Hreq). unfold isTrue in Hk. destruct (prop "apiKey" (Some c)) as [k|]; [|done].
  cbn. rewrite Hk. eauto.
Qed.

Lemma authCalls_total done_ cs :
  (forall c, c ∈ cs -> exists x, c = Some x /\ x <> JNull) ->
  exists calls, authCalls done_ cs = Ok calls
    /\ forall c, c ∈ cs -> isTrue (prop "apiKey" c) = true -> toOpenCodeProvider (prop "provider" c) ∈ done_ ++ calls.*1.
Proof.
  revert done_. induction cs as [|c cs IH]; intros done_ Hc; [exists []; set_solver|].
  destruct (Hc c ltac:(by left)) as (x & -> & Hx).
  assert (Ha : access "apiKey" (Some x) = Ok (field "apiKey" x)) by by destruct x.
  assert (Hcs : forall c, c ∈ cs -> exists x, c = Some x /\ x <> JNull) by (intros; apply Hc; by right).
  cbn [authCalls]. rewrite Ha. set (pr := toOpenCodeProvider (prop "provider" (Some x))).
  destruct (field "apiKey" x) as [k|] eqn:Hk.
  2: { destruct (IH done_ Hcs) as (calls & -> & H2). exists calls. split; [done|].
       intros c [->|Hin]%elem_of_cons; [|by apply H2]. cbn [prop mbind option_bind]. by rewrite Hk. }
  destruct (truthy k && negb (bool_decide (pr ∈ done_))) eqn:Hb.
  - destruct (IH (done_ ++ [pr]) Hcs) as (calls & -> & H2). exists ((pr, k) :: calls). split; [done|].
    intros c [->|Hin]%elem_of_cons Ht; [cbn; set_solver|]. specialize (H2 c Hin Ht). cbn. set_solver.
  - destruct (IH done_ Hcs) as (calls & -> & H2). exists calls. split; [done|].
    intros c [->|Hin]%elem_of_cons Ht; [|by apply H2]. cbn [prop mbind option_bind] in Ht. rewrite Hk in Ht.
    cbn in Ht. rewrite Ht in Hb. simpl in Hb. apply negb_false_iff, bool_decide_eq_true in Hb. fold pr. set_solver.
Qed.

Lemma llm_default d ps : field "default" (llmConfigOf d ps) = Some d.
Proof. unfold llmConfigOf. by case_decide. Qed.

Lemma llm_phase k d ps v : prop k (prop "phases" (Some (llmConfigOf d ps))) = Some v -> (k, v) ∈ ps.
Proof. unfold llmConfigOf. case_decide; [done|]. apply (field_elem k ps). Qed.

Lemma stored_llm d ps l :
  storedConfig (Some (JObj (setKey "llm" (llmConfigOf d ps) l))) = Ok (Some (llmConfigOf d ps)).
Proof.
  unfold storedConfig. cbn [prop mbind option_bind]. rewrite field_setKey_eq. unfold llmConfigOf. by case_decide.
Qed.

Lemma isTrue_orV a b : isTrue (orV a b) = isTrue a || isTrue b.
Proof. unfold orV, isTrue. destruct a as [a|]; [|done]. destruct (truthy a) eqn:Ha; [by rewrite Ha|done]. Qed.

#[local] Instance phaseKey_inj : Inj (=) (=) phaseKey.
Proof. by intros [] []. Qed.

Section put.
Variables (existing : option Json) (dflt : LlmInput) (dkey : option Json) (ps : list (string * Json)).
Variables (p0 : LLMProvider) (m0 : LLMModel).
Hypothesis (Hdflt : validateLLMConfig dflt dkey = Ok (Valid p0 m0)).
Hypothesis (Hps : Forall (phaseStored existing (li_provider dflt) dkey) ps).
Abbreviation d0 := (configOf dflt dkey).
Abbreviation full := (llmConfigOf d0 ps).

Lemma default_runnable : exists name mid, li_provider dflt = Some name /\ runnable (Some d0) name p0 mid m0.
Proof using Hdflt.
  destruct (valid_config _ _ _ _ Hdflt) as (name & mid & Hn & Hp & Hm & Hf & Hk).
  destruct (configOf_fields dflt dkey) as (F1 & F2 & F3 & _). exists name, mid. split; [done|].
  constructor; rewrite ?F1, ?F2, ?F3, ?Hn, ?Hm; try done. intros Hreq.
  destruct (keptKey_true _ dkey (Hk Hreq)) as (k & -> & Ht). done.
Qed.

(** Every phase has a configuration to run with, and its provider, if it needs
    a key, gets one at the start of a run. *)
Lemma phase_runnable ph :
  exists config name p mid m, getPhaseConfig full ph = Ok config /\ runnable config name p mid m
    /\ (lp_requiresApiKey p = true -> ph <> merge ->
        exists x, x ∈ uniqueConfigs full /\ isTrue (prop "apiKey" x) = true /\ prop "provider" x = Some (JStr name)).
Proof using Hdflt Hps.
  destruct default_runnable as (name0 & mid0 & Hn0 & H0).
  assert (Hown : Some d0 ∈ uniqueConfigs full) by (unfold uniqueConfigs; rewrite llm_default; by left).
  unfold getPhaseConfig. destruct (prop (phaseKey ph) _) as [v|] eqn:Hv.
  2: { exists (Some d0), name0, p0, mid0, m0. rewrite llm_default. split; [done|]. split; [done|].
       intros Hreq _. exists (Some d0). split; [done|]. split; [by apply (ru_key _ _ _ _ _ H0)|apply H0]. }
  pose proof (llm_phase _ _ _ _ Hv) as Hin. rewrite list.Forall_forall in Hps. apply Hps in Hin as (ph' & c & p & m & Hph & He & Hval).
  cbn [fst snd] in Hph, He. apply (inj phaseKey) in Hph as <-. set (old := prop "apiKey" _) in He, Hval.
  destruct (valid_config _ _ _ _ Hval) as (name & mid & Hn & Hp & Hm & Hf & Hk).
  destruct (configOf_fields c old) as (F1 & F2 & F3 & Ht). rewrite <- He in F1, F2, F3, Ht. rewrite Ht.
  assert (Hown' : ph <> merge -> Some v ∈ uniqueConfigs full).
  { intros Hne. unfold uniqueConfigs. right. apply list_elem_of_filter. split; [done|]. rewrite <- Hv.
    apply (list_elem_of_fmap_2 (fun p => prop (phaseKey p) (prop "phases" (Some full)))). destruct ph; set_solver. }
  rewrite Hn in F1. rewrite Hm in F2. change (field "apiKey" v) with (prop "apiKey" (Some v)).
  destruct (isTrue (prop "apiKey" (Some v))) eqn:Hkey.
  { exists (Some v), name, p, mid, m. split; [done|]. split; [by constructor|]. intros _ Hne. eauto. }
  assert (Hno : forall k, keptKey (li_apiKey c) old = Some k -> truthy k = true -> False).
  { intros k Hk1 Hk2. rewrite F3, Hk1 in Hkey. cbn in Hkey. congruence. }
  assert (Hsrc : lp_requiresApiKey p = true -> name = name0 /\ isTrue dkey = true).
  { intros Hreq. destruct (Hk Hreq) as [Ho|Ho];
      [destruct (keptKey_true (li_apiKey c) old (or_introl Ho)) as (k & ? & ?); by destruct (Hno k)|].
    rewrite isTrue_orV in Ho. apply orb_true_iff in Ho as [Ho|Ho];
      [destruct (keptKey_true (li_apiKey c) old (or_intror Ho)) as (k & ? & ?); by destruct (Hno k)|].
    case_decide as Heq; [|done]. split; [congruence|done]. }
  rewrite llm_default. assert (Hacc : access "provider" (Some d0) = Ok (Some (JStr name0))).
  { unfold access. rewrite <- (ru_provider _ _ _ _ _ H0). by unfold configOf. }
  rewrite Hacc. change (field "provider" v) with (prop "provider" (Some v)). rewrite F1. cbn [strictEq fmap option_fmap option_map].
  assert (Hd0 : isTrue dkey = true -> isTrue (prop "apiKey" (Some d0)) = true).
  { intros Hd. destruct (configOf_fields dflt dkey) as (_ & _ & -> & _).
    destruct (keptKey_true (li_apiKey dflt) dkey (or_intror Hd)) as (k & -> & ?). done. }
  case_bool_decide as Heq.
  - assert (Hobj : v = JObj (spread v)) by (rewrite He; by unfold configOf).
    eexists _, name, p, mid, m. split; [reflexivity|]. split.
    + constructor; try done; cbn [prop mbind option_bind].
      * rewrite field_setOptKey_ne, <- Hobj by done. exact F1.
      * rewrite field_setOptKey_ne, <- Hobj by done. exact F2.
      * intros Hreq. rewrite field_setOptKey_eq. by apply Hd0, Hsrc.
    + intros Hreq _. exists (Some d0). split; [done|]. split; [by apply Hd0, Hsrc|]. rewrite Heq. apply H0.
  - exists (Some v), name, p, mid, m. split; [done|].
    assert (Hreq : lp_requiresApiKey p = true -> False) by (intros Hreq; by destruct (Hsrc Hreq)).
    split; [by constructor|]. by intros.
Qed.

End put.

(** The settings [findById] finds, for the functions a run calls. *)
Definition settingsIn (id : string) (d : Db) : option (option Json) :=
  (fun r => PR.ip_settings (PR.rowToProject r)) <$> findRow p_id id (projects d).

Lemma find_updated now id x d p :
  wf d -> findRow p_id id (projects d) = Some p ->
  findRow p_id id (projects (onProjects (updateWhere p_id id (PR.updated now x)) d)) = Some (PR.updated now x p).
Proof.
  intros Hd [Hin Hid]%findRow_Some. cbn [onProjects projects]. apply findRow_elem; [| |done].
  - rewrite updateWhere_keys; [apply Hd|done].
  - apply elem_of_updateWhere. exists p. by rewrite decide_True.
Qed.

(** An accepted request stores the validated configuration. *)
Lemma put_stores now user id b reply d d' :
  wf d -> putLlmConfig schema now user id b d = (Ok reply, d') -> status reply = 200%Z ->
  exists existing dkey ps p0 m0 l,
    validateLLMConfig (lb_default b) dkey = Ok (Valid p0 m0)
    /\ Forall (phaseStored existing (li_provider (lb_default b)) dkey) ps
    /\ settingsIn id d' = Some (Some (JObj (setKey "llm" (llmConfigOf (configOf (lb_default b) dkey) ps) l))).
Proof.
  intros Hd Hrun Hs. apply withProject_200 in Hrun as (p & Hp & Hu & Hrun); [|done].
  cbv zeta in Hrun. set (existing := prop "llm" _) in Hrun. set (dkey := orV (prop "apiKey" _) _) in Hrun.
  apply bind_inv in Hrun as (v & d1 & Hv & Hrun). injection Hv as Hv <-.
  destruct v as [p0 m0|e]; [|unfold mret, jsm_ret in Hrun; by simplify_eq].
  apply bind_inv in Hrun as (r & d1 & Hr & Hrun). apply pair_equal_spec in Hr as [Hr <-].
  destruct r as [e|ps]; [unfold mret, jsm_ret in Hrun; by simplify_eq|].
  pose proof (findRow_Some _ _ _ _ Hp) as [Hin Hid].
  erewrite bind_ok in Hrun by (by eapply update_known). injection Hrun as <- <-.
  exists existing, dkey, ps, p0, m0, (settingsOf (PR.rowToProject p)). split; [done|]. split.
  - revert Hr. destruct (lb_phases b); [by apply phaseConfigs_stored|]. intros [= <-]. constructor.
  - unfold settingsIn. by rewrite (find_updated _ _ _ _ p).
Qed.

(** C35 An accepted choice of language models serves every phase: whatever was
    stored before, each phase of a run gets a provider of the table with one
    of its models, and with a key when the provider needs one; the set-up of
    the run succeeds and hands a key to every provider that the phases which
    talk to a model need. *)
Theorem llm_config_serves_every_phase now user id b reply d d' ph :
  wf d -> putLlmConfig schema now user id b d = (Ok reply, d') -> status reply = 200%Z ->
  exists ch name p mid m full calls,
    getProjectLLMConfig (settingsIn id d') (Some ph) = Ok ch
    /\ JsMap.get name LLM_PROVIDERS = Some p /\ findModel p mid = Some m
    /\ ch_providerID ch = toOpenCodeProvider (Some (JStr name)) /\ ch_modelID ch = Some (JStr mid)
    /\ getFullProjectLLMConfig (settingsIn id d') = Ok full /\ authCalls [] (uniqueConfigs full) = Ok calls
    /\ (lp_requiresApiKey p = true -> is_Some (ch_apiKey ch) /\ (ph <> merge -> ch_providerID ch ∈ calls.*1))
    /\ forall auth, (forall pr k, auth pr k = Ok tt) -> prepareProviders auth (Some id) (settingsIn id d') = Ok tt.
Proof.
  intros Hd Hrun Hs. destruct (put_stores _ _ _ _ _ _ _ Hd Hrun Hs) as (existing & dkey & ps & p0 & m0 & l & Hdf & Hps & Hset).
  rewrite Hset. set (full := llmConfigOf (configOf (lb_default b) dkey) ps) in *.
  assert (Hfull : getFullProjectLLMConfig (Some (Some (JObj (setKey "llm" full l)))) = Ok full).
  { unfold getFullProjectLLMConfig. unfold full. by rewrite stored_llm. }
  assert (Hall : forall ph, exists config name p mid m, getPhaseConfig full ph = Ok config /\ runnable config name p mid m
    /\ (lp_requiresApiKey p = true -> ph <> merge ->
        exists x, x ∈ uniqueConfigs full /\ isTrue (prop "apiKey" x) = true /\ prop "provider" x = Some (JStr name))).
  { intros ph'. by eapply phase_runnable. }
  assert (Hchoice : forall ph, exists ch, getProjectLLMConfig (Some (Some (JObj (setKey "llm" full l)))) (Some ph) = Ok ch).
  { intros ph'. destruct (Hall ph') as (config & ? & ? & ? & ? & Hg & Hrn & _). unfold getProjectLLMConfig. rewrite Hfull, Hg.
    destruct (choice_runnable _ _ _ _ _ Hrn) as (ch & -> & _). eauto. }
  destruct (default_runnable _ _ _ _ Hdf) as (name0 & mid0 & _ & H0).
  destruct (authCalls_total [] (uniqueConfigs full)) as (calls & Hcalls & Hall2).
  { intros c [->|[Hc _]%list_elem_of_filter]%elem_of_cons; [unfold full; rewrite llm_default; eauto|].
    destruct c as [[]|]; try done; eauto. }
  destruct (Hall ph) as (config & name & p & mid & m & Hg & Hrn & Hcfg).
  destruct (choice_runnable _ _ _ _ _ Hrn) as (ch & Hch & Hc1 & Hc2 & Hc3).
  exists ch, name, p, mid, m, full, calls. unfold getProjectLLMConfig at 1. rewrite Hfull, Hg, Hch.
  repeat (split; [first [done|apply Hrn]|]). split.
  - intros Hreq. split; [by apply Hc3|]. intros Hne. destruct (Hcfg Hreq Hne) as (x & Hx & Hk & Hpx).
    rewrite Hc1, <- Hpx. by apply (Hall2 x).
  - intros auth Hauth. unfold prepareProviders. destruct (JsStr.orNull (Some id));
      [|cbn; done]. rewrite Hfull.
    destruct (Hchoice analysis) as (c1 & ->), (Hchoice developer) as (c2 & ->), (Hchoice security) as (c3 & ->).
    unfold full at 1. rewrite llm_default. cbn [access]. rewrite Hcalls.
    assert (Hok : forall r, fold_left (fun r call => match r with Ok _ => auth call.1 call.2 | Throw e => Throw e end) r (Ok tt) = Ok tt).
    { induction r as [|[a k] r IH]; [done|]. cbn [fold_left fst snd]. by rewrite Hauth. }
    apply Hok.
Qed.

(** A key that is kept is not checked against its new provider. *)
Lemma kept_key_crosses_providers name p mid m key :
  name <> EmptyString -> JsMap.get name LLM_PROVIDERS = Some p -> findModel p mid = Some m -> truthy key = true ->
  let c := {| li_provider := Some name; li_model := Some mid; li_apiKey := None |} in
  validateLLMConfig c (Some key) = Ok (Valid p m) /\ prop "apiKey" (Some (configOf c (Some key))) = Some key.
Proof.
  intros Hn Hp Hm Hk c. split.
  - unfold validateLLMConfig, c. cbn [li_provider li_model li_apiKey]. destruct name; [done|]. cbn [JsStr.orNull]. rewrite Hp.
    cbn [mbind option_bind]. rewrite Hm. cbn [isTrue]. rewrite Hk. by rewrite andb_false_r.
  - destruct (configOf_fields c (Some key)) as (_ & _ & -> & _). unfold keptKey, c. cbn. by rewrite Hk.
Qed.

(** Of two keys of one provider only the first reaches the client. *)
Example second_key_ignored :
  let cfg k := JObj [("provider", JStr "anthropic"); ("model", JStr "claude-haiku-4-5-20251001"); ("apiKey", JStr k)] in
  authCalls [] (uniqueConfigs (llmConfigOf (cfg "sk-ant-first0000") [("developer", cfg "sk-ant-second000")]))
  = Ok [("anthropic", JStr "sk-ant-first0000")].
Proof. by vm_compute. Qed.

(** ** Witnesses *)

Abbreviation demoPut :=
  (putEnv (H := CryptoSpec.demoAead) schema (fun s => s) "" CryptoSpec.demoKeys 6 ["0123456789abcdef"] "ann" "r1"
     (Some CryptoSpec.demoVars) demoDb).

Lemma stored_env_served_witness :
  (match demoPut.1 with Ok r => status r | Throw _ => 0%Z end) = 200%Z
  /\ (getEnv (H := CryptoSpec.demoAead) schema (fun s => s) "" CryptoSpec.demoKeys "ann" "r1" demoPut.2).1
     = Ok (succeed [("data", Some (JObj [("envVariables", JArr (envJson <$> CryptoSpec.demoVars));
                                        ("count", count CryptoSpec.demoVars)]))]).
Proof.
  split; [by vm_compute|].
  destruct (stored_env_served (AOk := CryptoSpec.demoAead_ok) (fun s => s) "" CryptoSpec.demoKeys 6 ["0123456789abcdef"] "ann" "r1"
              CryptoSpec.demoVars (match demoPut.1 with Ok r => r | Throw _ => denied end) demoDb demoPut.2 demoDb_wf)
    as [Hget _].
  - vm_compute. reflexivity.
  - vm_compute. reflexivity.
  - intros v p [->|[->|[]%elem_of_nil]%elem_of_cons]%elem_of_cons Hs Hp; cbn in Hs, Hp; simplify_eq. by vm_compute.
  - by rewrite Hget.
Defined.

Definition demoLlm : LlmBody :=
  {| lb_default := {| li_provider := Some "anthropic"; li_model := Some "claude-opus-4-5-20251101";
                      li_apiKey := Some "sk-ant-0123456789" |};
     lb_phases := Some (fun ph => match ph with
                                  | analysis => Some {| li_provider := Some "local"; li_model := Some "glm-4.7"; li_apiKey := None |}
                                  | _ => None
                                  end) |}.

Abbreviation demoPutLlm := (putLlmConfig schema 7 "ann" "p1" demoLlm demoDb).

Lemma llm_config_serves_every_phase_witness :
  exists ch name p mid m full calls,
    getProjectLLMConfig (settingsIn "p1" demoPutLlm.2) (Some developer) = Ok ch
    /\ JsMap.get name LLM_PROVIDERS = Some p /\ findModel p mid = Some m
    /\ ch_providerID ch = toOpenCodeProvider (Some (JStr name)) /\ ch_modelID ch = Some (JStr mid)
    /\ getFullProjectLLMConfig (settingsIn "p1" demoPutLlm.2) = Ok full /\ authCalls [] (uniqueConfigs full) = Ok calls
    /\ (lp_requiresApiKey p = true -> is_Some (ch_apiKey ch) /\ (developer <> merge -> ch_providerID ch ∈ calls.*1))
    /\ forall auth, (forall pr k, auth pr k = Ok tt) -> prepareProviders auth (Some "p1") (settingsIn "p1" demoPutLlm.2) = Ok tt.
Proof.
  apply (llm_config_serves_every_phase 7 "ann" "p1" demoLlm (match demoPutLlm.1 with Ok r => r | Throw _ => denied end) demoDb
           demoPutLlm.2 developer demoDb_wf); vm_compute; reflexivity.
Defined.

End ProjectSpec.
