(* ===== verification/SocketService.v ===== *)
(** * Sockets (src/services/realtime/SocketService.ts, wired by src/api/server.ts)

    Rooms of clients and the messages sent to them. The calls to socket.io are
    recorded in order; what its rooms hold after them is the class
    [RoomSemantics]: its documented behaviour. The only callback the server
    registers sends a pending approval again, so the approval service is part
    of the state. A message is a JSON value; [JSON.stringify] and the text of a
    date are parameters. *)

From S2P Require Import Prelude JsNumber Json Approval.
From stdpp Require Import gmap sets list options.

Module SocketService.
Import Json.

Inductive IoCall :=
  | Connected (socket : string)
  | Joined (socket room : string)
  | Left (socket room : string)
  | Disconnected (socket : string)
  | EmitTo (room event : string) (data : Json)
  | EmitAll (event : string) (data : Json).

(** socket.io: a socket is in the room of its own id from its connection on,
    joins and leaves rooms, and leaves all when it disconnects. *)
Class RoomSemantics (members : list IoCall -> string -> gset string) : Prop := {
  members_nil r : members [] r = ∅;
  members_connected l s r : members (l ++ [Connected s]) r = if decide (r = s) then {[s]} ∪ members l r else members l r;
  members_joined l s r r' : members (l ++ [Joined s r]) r' = if decide (r' = r) then {[s]} ∪ members l r' else members l r';
  members_left l s r r' : members (l ++ [Left s r]) r' = if decide (r' = r) then members l r' ∖ {[s]} else members l r';
  members_disconnected l s r : members (l ++ [Disconnected s]) r = members l r ∖ {[s]};
  members_emitTo l room e d r : members (l ++ [EmitTo room e d]) r = members l r;
  members_emitAll l e d r : members (l ++ [EmitAll e d]) r = members l r }.

(** An entry handed to [TaskRepository.appendActivityLog]. *)
Record Persisted := { pe_taskId : string; pe_type : string; pe_content : string; pe_timestamp : Z; pe_toolInput : Json }.

Record World := {
  io : bool;
  taskRooms : JsMap.t (gset string);
  userRooms : JsMap.t (gset string);
  onTaskJoinCallback : bool;
  approvals : ApprovalService.State;
  calls : list IoCall;
  persisted : list Persisted;
}.

Definition initial : World :=
  {| io := false; taskRooms := []; userRooms := []; onTaskJoinCallback := false; approvals := ApprovalService.init; calls := [];
     persisted := [] |}.

Definition onTaskRooms (f : JsMap.t (gset string) -> JsMap.t (gset string)) (w : World) : World :=
  {| io := io w; taskRooms := f (taskRooms w); userRooms := userRooms w; onTaskJoinCallback := onTaskJoinCallback w;
     approvals := approvals w; calls := calls w; persisted := persisted w |}.
Definition onUserRooms (f : JsMap.t (gset string) -> JsMap.t (gset string)) (w : World) : World :=
  {| io := io w; taskRooms := taskRooms w; userRooms := f (userRooms w); onTaskJoinCallback := onTaskJoinCallback w;
     approvals := approvals w; calls := calls w; persisted := persisted w |}.
Definition onApprovals (a : ApprovalService.State) (w : World) : World :=
  {| io := io w; taskRooms := taskRooms w; userRooms := userRooms w; onTaskJoinCallback := onTaskJoinCallback w;
     approvals := a; calls := calls w; persisted := persisted w |}.
Definition call (c : IoCall) (w : World) : World :=
  {| io := io w; taskRooms := taskRooms w; userRooms := userRooms w; onTaskJoinCallback := onTaskJoinCallback w;
     approvals := approvals w; calls := calls w ++ [c]; persisted := persisted w |}.
(** [this.io?.…] *)
Definition emit (c : IoCall) (w : World) : World := if io w then call c w else w.

Section sockets.
Context (stringify : Json -> string) (isoString : Z -> string).

(** ** Sending *)

Definition skipEvents : list string := ["cost:update"; "typing"; "heartbeat"; "ping"; "pong"].

(** [data?.message || data?.phase || data?.content || data?.title || event] *)
Definition contentOf (event : string) (data : Json) : Json :=
  match truthyField "message" data, truthyField "phase" data, truthyField "content" data, truthyField "title" data with
  | Some v, _, _, _ => v
  | None, Some v, _, _ => v
  | None, None, Some v, _ => v
  | None, None, None, Some v => v
  | None, None, None, None => JStr event
  end.

Definition isToolCall (data : Json) : bool :=
  match field "type" data with Some (JStr x) => bool_decide (x = "tool_call") | _ => false end.

Definition persistIfImportant (now : Z) (taskId event : string) (data : Json) (w : World) : World :=
  if bool_decide (event ∈ skipEvents) then w
  else if bool_decide (event = "agent:activity") && isToolCall data then w
  else
    let text := match contentOf event data with JStr x => x | v => stringify v end in
    {| io := io w; taskRooms := taskRooms w; userRooms := userRooms w; onTaskJoinCallback := onTaskJoinCallback w;
       approvals := approvals w; calls := calls w;
       persisted := persisted w ++ [{| pe_taskId := taskId; pe_type := event; pe_content := JsStr.take 5000 text;
                                       pe_timestamp := now; pe_toolInput := data |}] |}.

Definition toTask (now : Z) (taskId event : string) (data : Json) (w : World) : World :=
  persistIfImportant now taskId event data (emit (EmitTo taskId event data) w).

Definition userRoom (userId : string) : string := "user:" +:+ userId.

Definition emitToUser (userId event : string) (data : Json) (w : World) : World := emit (EmitTo (userRoom userId) event data) w.

Definition broadcast (event : string) (data : Json) (w : World) : World := emit (EmitAll event data) w.

(** ** Approvals on the wire *)

Definition payload (i : ApprovalService.PendingApprovalInfo) : Json :=
  JObj [("taskId", JStr (ApprovalService.pi_taskId i)); ("phase", JStr (ApprovalService.pi_phase i));
        ("output", JStr (ApprovalService.pi_output i)); ("requestedAt", JStr (isoString (ApprovalService.pi_requestedAt i)))].

Definition resendApprovalRequest (now : Z) (taskId : string) (w : World) : World :=
  match ApprovalService.getPendingApprovalForTask taskId (approvals w) with
  | None => w
  | Some i =>
      toTask now taskId "phase:approval_required" (payload i)
        (onApprovals (ApprovalService.resendApprovalRequest taskId (approvals w)).2 w)
  end.

Definition requestApproval (now : Z) (taskId phase output : string) (timeoutMs : option Z) (w : World) : World :=
  toTask now taskId "phase:approval_required"
    (payload {| ApprovalService.pi_taskId := taskId; ApprovalService.pi_phase := phase; ApprovalService.pi_output := output;
                ApprovalService.pi_requestedAt := now |})
    (onApprovals (ApprovalService.requestApproval now taskId phase output timeoutMs (approvals w)).2 w).

(** ** Rooms *)

(** [if (!rooms.has(k)) rooms.set(k, new Set()); rooms.get(k)!.add(s)] *)
Definition addTo (k s : string) (rooms : JsMap.t (gset string)) : JsMap.t (gset string) :=
  JsMap.set k ({[s]} ∪ default ∅ (JsMap.get k rooms)) rooms.

(** [rooms.get(k)?.delete(s)] *)
Definition removeFrom (k s : string) (rooms : JsMap.t (gset string)) : JsMap.t (gset string) :=
  match JsMap.get k rooms with Some x => JsMap.set k (x ∖ {[s]}) rooms | None => rooms end.

(** [for (const [_, sockets] of rooms) sockets.delete(s)] *)
Definition removeEverywhere (s : string) (rooms : JsMap.t (gset string)) : JsMap.t (gset string) :=
  (fun e => (e.1, e.2 ∖ {[s]})) <$> rooms.

Definition joinTask (now : Z) (s taskId : string) (w : World) : World :=
  let w1 := onTaskRooms (addTo taskId s) (call (Joined s taskId) w) in
  if onTaskJoinCallback w1 then resendApprovalRequest now taskId w1 else w1.

Definition leaveTask (s taskId : string) (w : World) : World := onTaskRooms (removeFrom taskId s) (call (Left s taskId) w).

Definition joinUser (s userId : string) (w : World) : World := onUserRooms (addTo userId s) (call (Joined s (userRoom userId)) w).

Definition leaveUser (s userId : string) (w : World) : World :=
  onUserRooms (removeFrom userId s) (call (Left s (userRoom userId)) w).

Definition joinNames : list string := ["task:join"; "join-task"; "subscribe"].
Definition leaveNames : list string := ["task:leave"; "leave-task"; "unsubscribe"].

(** A message of a client: its name and its text; that of [authenticate] is
    [data?.userId]. *)
Definition clientEvent (now : Z) (s name : string) (arg : option string) (w : World) : World :=
  let text := default EmptyString arg in
  if bool_decide (name ∈ joinNames) then joinTask now s text w
  else if bool_decide (name ∈ leaveNames) then leaveTask s text w
  else if bool_decide (name = "user:join") then joinUser s text w
  else if bool_decide (name = "user:leave") then leaveUser s text w
  else if bool_decide (name = "authenticate") then match JsStr.orNull arg with Some u => joinUser s u w | None => w end
  else w.

Definition onDisconnect (s : string) (w : World) : World :=
  onUserRooms (removeEverywhere s) (onTaskRooms (removeEverywhere s) (call (Disconnected s) w)).

(** ** The server *)

Definition isUserConnected (userId : string) (w : World) : bool :=
  match JsMap.get userId (userRooms w) with Some x => (0 <? size x) | None => false end.

Definition getConnectedUsersCount (w : World) : nat := JsMap.size (userRooms w).

(** [socketService.init], [setOnTaskJoinCallback] of [startServer] *)
Definition startServer (w : World) : World :=
  {| io := true; taskRooms := taskRooms w; userRooms := userRooms w; onTaskJoinCallback := true; approvals := approvals w;
     calls := calls w; persisted := persisted w |}.

(** What happens to a started server. *)
Inductive Event :=
  | Connects (s : string)
  | Sends (now : Z) (s name : string) (arg : option string)
  | Disconnects (s : string)
  | ToTask (now : Z) (taskId event : string) (data : Json)
  | ToUser (userId event : string) (data : Json)
  | ToAll (event : string) (data : Json)
  | Asks (now : Z) (taskId phase output : string) (timeoutMs : option Z)
  | Settles (a : ApprovalService.State).

Definition step (w : World) (e : Event) : World :=
  match e with
  | Connects s => call (Connected s) w
  | Sends now s name arg => clientEvent now s name arg w
  | Disconnects s => onDisconnect s w
  | ToTask now t ev d => toTask now t ev d w
  | ToUser u ev d => emitToUser u ev d w
  | ToAll ev d => broadcast ev d w
  | Asks now t p o ms => requestApproval now t p o ms w
  | Settles a => onApprovals a w
  end.

Definition run (es : list Event) : World := fold_left step es (startServer initial).

End sockets.
End SocketService.
