(* ===== verification/SocketServiceProofs.v ===== *)
(** * Sockets: who hears the messages of a task, and the approval a client that
    joins is asked for again *)

From S2P Require Import Prelude JsNumber Json Approval SocketService.
From stdpp Require Import gmap sets list options.
Import SocketService.

Module SocketSpec.

(** ** The sets of a room map *)

Definition room (k : string) (rooms : JsMap.t (gset string)) : gset string := default ∅ (JsMap.get k rooms).

Lemma room_addTo k s k' rooms : room k' (addTo k s rooms) = if decide (k' = k) then {[s]} ∪ room k' rooms else room k' rooms.
Proof.
  unfold room, addTo. destruct (decide (k' = k)) as [->|]; [by rewrite JsMap.get_set_eq|by rewrite JsMap.get_set_ne].
Qed.

Lemma room_removeFrom k s k' rooms : room k' (removeFrom k s rooms) = if decide (k' = k) then room k' rooms ∖ {[s]} else room k' rooms.
Proof.
  unfold room, removeFrom. destruct (JsMap.get k rooms) as [x|] eqn:E; destruct (decide (k' = k)) as [->|]; [..|done].
  - by rewrite JsMap.get_set_eq, E.
  - by rewrite JsMap.get_set_ne.
  - rewrite E. set_solver.
Qed.

Lemma room_removeEverywhere s k rooms : room k (removeEverywhere s rooms) = room k rooms ∖ {[s]}.
Proof.
  unfold room. induction rooms as [|[k' x] rooms IH]; cbn; [set_solver|]. case_match; [done|]. exact IH.
Qed.

Ltac fields :=
  cbn [calls taskRooms userRooms io onTaskJoinCallback approvals onTaskRooms onUserRooms onApprovals call leaveTask joinUser
       leaveUser onDisconnect].

Section rooms.
Context (stringify : Json.Json -> string) (isoString : Z -> string) (members : list IoCall -> string -> gset string).
Context `{Hrooms : !RoomSemantics members}.
#[local] Set Default Proof Using "Type".

Abbreviation step := (step stringify isoString).
Abbreviation run := (run stringify isoString).

(** ** The specification: who follows a task *)

Definition follow (taskId : string) (x : gset string) (e : Event) : gset string :=
  match e with
  | Sends _ s name arg =>
      if bool_decide (default EmptyString arg = taskId) then
        if bool_decide (name ∈ joinNames) then {[s]} ∪ x else if bool_decide (name ∈ leaveNames) then x ∖ {[s]} else x
      else x
  | Disconnects s => x ∖ {[s]}
  | _ => x
  end.

Definition followers (taskId : string) (es : list Event) : gset string := fold_left (follow taskId) es ∅.

(** The name of a room that is neither one of a user nor one of a socket. *)
Definition taskName (taskId : string) (es : list Event) : Prop :=
  JsStr.startsWith "user:" taskId = false /\ forall s, Connects s ∈ es -> s <> taskId.

(** ** The sets of the service and the rooms of socket.io agree *)

Record agrees (taskId : string) (x : gset string) (w : World) : Prop := {
  ag_members : members (calls w) taskId = x;
  ag_room : room taskId (taskRooms w) = x;
  ag_io : io w = true;
  ag_callback : onTaskJoinCallback w = true }.

Lemma agrees_emit t x c w :
  (forall l r, members (l ++ [c]) r = members l r) -> agrees t x w -> agrees t x (emit c w).
Proof. intros Hc [H1 H2 H3 H4]. unfold emit. rewrite H3. split; fields; [by rewrite Hc|done..]. Qed.

Lemma agrees_persist t x now i ev d w : agrees t x w -> agrees t x (persistIfImportant stringify now i ev d w).
Proof. intros [H1 H2 H3 H4]. unfold persistIfImportant. repeat case_match; by split. Qed.

Lemma agrees_toTask t x now i ev d w : agrees t x w -> agrees t x (toTask stringify now i ev d w).
Proof using Hrooms. intros H. apply agrees_persist, agrees_emit; [intros; apply members_emitTo|done]. Qed.

Lemma agrees_approvals t x a w : agrees t x w -> agrees t x (onApprovals a w).
Proof. by intros []. Qed.

Lemma agrees_resend t x now i w : agrees t x w -> agrees t x (resendApprovalRequest stringify isoString now i w).
Proof using Hrooms.
  intros H. unfold resendApprovalRequest. case_match; [|done]. by apply agrees_toTask, agrees_approvals.
Qed.

Lemma agrees_joinTask t x now s i w :
  agrees t x w -> agrees t (if decide (t = i) then {[s]} ∪ x else x) (joinTask stringify isoString now s i w).
Proof using Hrooms.
  intros [H1 H2 H3 H4]. unfold joinTask. cbn [onTaskJoinCallback onTaskRooms call]. rewrite H4. apply agrees_resend.
  split; fields; [rewrite members_joined|rewrite room_addTo|done..]; by rewrite ?H1, ?H2.
Qed.

Lemma agrees_leaveTask t x s i w : agrees t x w -> agrees t (if decide (t = i) then x ∖ {[s]} else x) (leaveTask s i w).
Proof using Hrooms.
  intros [H1 H2 H3 H4]. split; fields; [rewrite members_left|rewrite room_removeFrom|done..]; by rewrite ?H1, ?H2.
Qed.

Lemma not_userRoom t u : JsStr.startsWith "user:" t = false -> t <> userRoom u.
Proof. intros H ->. by cbn in H. Qed.

Lemma agrees_joinUser t x s u w : JsStr.startsWith "user:" t = false -> agrees t x w -> agrees t x (joinUser s u w).
Proof using Hrooms.
  intros Ht [H1 H2 H3 H4]. split; fields; [|done..]. rewrite members_joined, decide_False; [done|by apply not_userRoom].
Qed.

Lemma agrees_leaveUser t x s u w : JsStr.startsWith "user:" t = false -> agrees t x w -> agrees t x (leaveUser s u w).
Proof using Hrooms.
  intros Ht [H1 H2 H3 H4]. split; fields; [|done..]. rewrite members_left, decide_False; [done|by apply not_userRoom].
Qed.

Lemma agrees_client t x now s name arg w :
  JsStr.startsWith "user:" t = false -> agrees t x w ->
  agrees t (follow t x (Sends now s name arg)) (clientEvent stringify isoString now s name arg w).
Proof using Hrooms.
  intros Ht H. unfold clientEvent, follow. generalize (default EmptyString arg) as i. intros i.
  pose proof (agrees_joinTask t x now s i w H) as Hj. pose proof (agrees_leaveTask t x s i w H) as Hl.
  replace (bool_decide (i = t)) with (bool_decide (t = i)) by by apply bool_decide_ext.
  destruct (decide (t = i)); [rewrite bool_decide_eq_true_2 by done|rewrite bool_decide_eq_false_2 by done].
  all: repeat case_match; auto using agrees_joinUser, agrees_leaveUser.
Qed.

Lemma agrees_step t x w e :
  JsStr.startsWith "user:" t = false -> (forall s, e = Connects s -> s <> t) -> agrees t x w -> agrees t (follow t x e) (step w e).
Proof using Hrooms.
  intros Ht He H. destruct e as [s|now s name arg|s|now i ev d|u ev d|ev d|now i p o ms|a]; cbn [SocketService.step].
  - destruct H as [H1 H2 H3 H4]. split; fields; [|done..]. rewrite members_connected, decide_False; [done|]. intros ->. by eapply He.
  - by apply agrees_client.
  - destruct H as [H1 H2 H3 H4]. split; fields; [rewrite members_disconnected|rewrite room_removeEverywhere|done..]; by rewrite ?H1, ?H2.
  - by apply agrees_toTask.
  - apply agrees_emit; [intros; apply members_emitTo|done].
  - apply agrees_emit; [intros; apply members_emitAll|done].
  - by apply agrees_toTask, agrees_approvals.
  - by apply agrees_approvals.
Qed.

Lemma agrees_run t es w x :
  taskName t es -> agrees t x w -> agrees t (fold_left (follow t) es x) (fold_left step es w).
Proof using Hrooms.
  revert w x. induction es as [|e es IH]; intros w x [Ht Hs] H; [done|]. cbn [fold_left]. apply IH.
  - split; [done|]. intros s Hin. apply Hs. by right.
  - apply agrees_step; [done| |done]. intros s ->. apply Hs. by left.
Qed.

Lemma agrees_start t : agrees t ∅ (startServer initial).
Proof using Hrooms. split; [apply members_nil|done..]. Qed.

(** C40: The messages of a task reach exactly its followers: after any history
    of a started server, the sockets that asked to join the task and have
    neither left it nor disconnected since are the members of its room, the set
    the service keeps of it, and so those to which the next message of the task
    is sent, which is the last call made; provided the name of the task is
    neither that of a socket nor of the room of a user. *)
Theorem task_messages_reach_followers t es now ev d :
  taskName t es ->
  let w := run es in
  members (calls w) t = followers t es
  /\ room t (taskRooms w) = followers t es
  /\ calls (toTask stringify now t ev d w) = calls w ++ [EmitTo t ev d].
Proof using Hrooms.
  intros Ht. cbv zeta. destruct (agrees_run t es _ ∅ Ht (agrees_start t)) as [H1 H2 H3 _]. split_and!; [exact H1|exact H2|].
  assert (Hp : forall w, calls (persistIfImportant stringify now t ev d w) = calls w)
    by (intros w; unfold persistIfImportant; by repeat case_match).
  unfold toTask. rewrite Hp. unfold emit. unfold run, SocketService.run. by rewrite H3.
Qed.

(** ** A client that joins *)

Definition started (w : World) : Prop := io w = true /\ onTaskJoinCallback w = true.

Lemma started_toTask now t ev d w : started w -> started (toTask stringify now t ev d w).
Proof. intros [H1 H2]. unfold toTask, persistIfImportant, emit, started. rewrite H1. by repeat case_match. Qed.

Lemma started_resend now t w : started w -> started (resendApprovalRequest stringify isoString now t w).
Proof. intros H. unfold resendApprovalRequest. case_match; [|done]. by apply started_toTask. Qed.

Lemma started_step w e : started w -> started (step w e).
Proof.
  intros H. pose proof H as [H1 H2]. destruct e; cbn [SocketService.step]; try done.
  - unfold clientEvent. repeat case_match; try done. unfold joinTask. fields. rewrite H2. by apply started_resend.
  - by apply started_toTask.
  - unfold emitToUser, emit. by rewrite H1.
  - unfold broadcast, emit. by rewrite H1.
  - by apply started_toTask.
Qed.

Lemma started_run es : started (run es).
Proof.
  unfold run, SocketService.run. assert (H : started (startServer initial)) by done. revert H. generalize (startServer initial).
  induction es as [|e es IH]; intros w H; [done|]. cbn [fold_left]. by apply IH, started_step.
Qed.

(** C5: A client that joins a task while an approval of the task is pending is
    asked: whatever happened before, the last call of the join sends, to the
    room of the task, which the client is then in, the request of the first
    entry of the table whose key belongs to the task. The table is a map: its
    order is that in which the keys entered it, and a phase that asks again
    before its first request is settled keeps its place. *)
Theorem joining_client_is_asked es now s t name phase :
  name ∈ joinNames ->
  ApprovalService.hasPendingApproval t phase (approvals (run es)) = true ->
  exists pre i k pa, ApprovalService.pending (approvals (run es)) !! i = Some (k, pa)
  /\ ApprovalService.keyOfTask t k = true
  /\ (forall j e, (j < i)%nat -> ApprovalService.pending (approvals (run es)) !! j = Some e ->
       ApprovalService.keyOfTask t e.1 = false)
  /\ calls (step (run es) (Sends now s name (Some t)))
     = pre ++ [EmitTo t "phase:approval_required"
                (payload isoString {| ApprovalService.pi_taskId := ApprovalService.pa_taskId pa;
                                      ApprovalService.pi_phase := ApprovalService.pa_phase pa;
                                      ApprovalService.pi_output := ApprovalService.pa_output pa;
                                      ApprovalService.pi_requestedAt := ApprovalService.pa_requestedAt pa |})]
  /\ s ∈ members pre t.
Proof using Hrooms.
  intros Hname Hp. destruct (started_run es) as [Hio Hcb]. revert Hio Hcb Hp. generalize (run es). intros w Hio Hcb Hp.
  cbn [SocketService.step]. unfold clientEvent. rewrite bool_decide_eq_true_2 by done. cbn [default].
  unfold joinTask. fields. rewrite Hcb. unfold resendApprovalRequest, ApprovalService.getPendingApprovalForTask. fields.
  destruct (list_find _ (ApprovalService.pending (approvals w))) as [[i [k pa]]|] eqn:Hf.
  - apply list_find_Some in Hf as (Hi & Hk & Hmin). exists (calls w ++ [Joined s t]), i, k, pa.
    split; [exact Hi|]. split; [exact Hk|].
    split; [intros j e Hj He; apply not_true_is_false; exact (Hmin j e He Hj)|]. split.
    + cbn [mbind option_bind]. unfold toTask, persistIfImportant, emit. fields. rewrite Hio. by repeat case_match.
    + rewrite members_joined, decide_True by done. set_solver.
  - exfalso. apply list_find_None in Hf. unfold ApprovalService.hasPendingApproval in Hp. apply JsMap.has_spec in Hp as [pa Hp].
    apply JsMap.get_Some_elem in Hp. rewrite list.Forall_forall in Hf. apply (Hf _ Hp). cbn. apply JsStr.startsWith_spec.
    exists phase. unfold JsStr.key. by rewrite JsStr.append_assoc.
Qed.

(** Joining is not authenticated, and tasks and users share the names of the
    rooms: a client that joins the task [user:u] hears what is sent to [u]. *)
Lemma user_room_open es now s name u ev d :
  name ∈ joinNames ->
  let w := step (run es) (Sends now s name (Some (userRoom u))) in
  s ∈ members (calls w) (userRoom u) /\ calls (emitToUser u ev d w) = calls w ++ [EmitTo (userRoom u) ev d].
Proof using Hrooms.
  intros Hname. cbv zeta. split.
  - destruct (started_run es) as [Hio Hcb]. revert Hio Hcb. generalize (run es). intros w Hio Hcb.
    cbn [SocketService.step]. unfold clientEvent. rewrite bool_decide_eq_true_2 by done. cbn [default].
    unfold joinTask. fields. rewrite Hcb. unfold resendApprovalRequest. fields. case_match.
    + unfold toTask, persistIfImportant, emit. fields. rewrite Hio. repeat case_match; fields.
      all: rewrite members_emitTo, members_joined, decide_True by done; set_solver.
    + fields. rewrite members_joined, decide_True by done. set_solver.
  - destruct (started_step (run es) (Sends now s name (Some (userRoom u))) (started_run es)) as [Hio _].
    unfold emitToUser, emit. by rewrite Hio.
Qed.

End rooms.

(** The users that are counted as connected never become fewer. *)
Lemma users_never_leave stringify isoString w e :
  getConnectedUsersCount w <= getConnectedUsersCount (SocketService.step stringify isoString w e).
Proof.
  assert (Hadd : forall k s (m : JsMap.t (gset string)), JsMap.size m <= JsMap.size (addTo k s m)).
  { intros k s m. unfold addTo, JsMap.size. destruct (JsMap.get k m) eqn:E.
    - assert (Hk : JsMap.keys (JsMap.set k ({[s]} ∪ default ∅ (Some g)) m) = JsMap.keys m) by (apply JsMap.keys_set_old; by eexists).
      apply (f_equal length) in Hk. unfold JsMap.keys in Hk. rewrite !length_fmap in Hk. cbn [default] in *. lia.
    - rewrite JsMap.keys_set_fresh by done. rewrite length_app. lia. }
  assert (Hrem : forall k s (m : JsMap.t (gset string)), JsMap.size m <= JsMap.size (removeFrom k s m)).
  { intros k s m. unfold removeFrom, JsMap.size. destruct (JsMap.get k m) as [x|] eqn:E; [|done].
    assert (Hk : JsMap.keys (JsMap.set k (x ∖ {[s]}) m) = JsMap.keys m) by (apply JsMap.keys_set_old; by eexists).
    apply (f_equal length) in Hk. unfold JsMap.keys in Hk. rewrite !length_fmap in Hk. lia. }
  assert (Htask : forall now t ev d w, userRooms (toTask stringify now t ev d w) = userRooms w).
  { intros. unfold toTask, persistIfImportant, emit. by repeat case_match. }
  unfold getConnectedUsersCount. destruct e as [s|now s name arg|s|now i ev d|u ev d|ev d|now i p o ms|a]; cbn [SocketService.step].
  - done.
  - unfold clientEvent. repeat case_match; try done; try apply Hadd; try apply Hrem.
    unfold joinTask, resendApprovalRequest. repeat case_match; [by rewrite Htask|done..].
  - cbn. unfold removeEverywhere, JsMap.size. by rewrite length_fmap.
  - by rewrite Htask.
  - unfold emitToUser, emit. by case_match.
  - unfold broadcast, emit. by case_match.
  - unfold requestApproval. by rewrite Htask.
  - done.
Qed.

(** ** An instance of the rooms, and a session with two clients *)

Definition memberStep (rooms : string -> gset string) (c : IoCall) (r : string) : gset string :=
  match c with
  | Connected s => if decide (r = s) then {[s]} ∪ rooms r else rooms r
  | Joined s r' => if decide (r = r') then {[s]} ∪ rooms r else rooms r
  | Left s r' => if decide (r = r') then rooms r ∖ {[s]} else rooms r
  | Disconnected s => rooms r ∖ {[s]}
  | EmitTo _ _ _ | EmitAll _ _ => rooms r
  end.

Definition membersOf (l : list IoCall) : string -> gset string := fold_left memberStep l (fun _ => ∅).

#[local] Instance membersOf_rooms : RoomSemantics membersOf.
Proof. split; intros; unfold membersOf; rewrite ?fold_left_app; reflexivity. Qed.

Definition demoEvents : list Event :=
  [Connects "s1"; Connects "s2"; Sends 1 "s1" "join-task" (Some "t"); Asks 2 "t" "Development" "diff" None;
   Sends 3 "s2" "subscribe" (Some "t"); Sends 4 "s1" "leave-task" (Some "t")].

Lemma task_messages_reach_followers_witness :
  membersOf (calls (SocketService.run (fun _ => EmptyString) (fun _ => EmptyString) demoEvents)) "t" = {["s2"]}.
Proof.
  destruct (task_messages_reach_followers (fun _ => EmptyString) (fun _ => EmptyString) membersOf "t" demoEvents 5 "m" Json.JNull)
    as [H _].
  - split; [reflexivity|]. intros s Hs. unfold demoEvents in Hs. set_solver.
  - rewrite H. vm_compute. reflexivity.
Defined.

(** Two phases wait; the first to have asked is sent. *)
Definition demoAsked : list Event :=
  take 4 demoEvents ++ [Asks 3 "t" "TestGeneration" "tests" None].

Lemma joining_client_is_asked_witness :
  exists pre pa, ApprovalService.pa_phase pa = "Development" /\ "s2" ∈ membersOf pre "t"
    /\ (ApprovalService.pending
          (approvals (SocketService.run (fun _ => EmptyString) (fun _ => EmptyString) demoAsked)) !! 0)
       = Some ("t:Development", pa).
Proof.
  destruct (joining_client_is_asked (fun _ => EmptyString) (fun _ => EmptyString) membersOf demoAsked 4 "s2" "t" "subscribe"
    "Development") as (pre & i & k & pa & H1 & H2 & Hmin & _ & H3); [by apply (bool_decide_unpack _)|vm_compute; reflexivity|].
  destruct i as [|i].
  - exists pre, pa. vm_compute in H1. injection H1 as <- <-. by split_and!.
  - specialize (Hmin 0 _ ltac:(lia) eq_refl). vm_compute in Hmin. discriminate.
Defined.

End SocketSpec.
