(* ===== verification/OpenCodeClient.v ===== *)
(** * The OpenCode client (src/services/opencode/OpenCodeClient.ts)

    The connection, its retries, and the requests each operation makes. The
    SDK is a parameter: a request answers a JSON value or fails and may change
    the state [G] of the server; requests and delays are recorded. A connection
    attempt is two steps, its start and the answer to the health check, so that
    other operations can come in between; [connect] is one after the other. *)

From S2P Require Import Prelude JsNumber Json.
From Stdlib Require Import SpecFloat.
From stdpp Require Import list options.

Module OpenCodeClient.
Import Js Json JsNum.

Record Model := { providerID : string; modelID : string }.

(** The environment of the process. *)
Record Env := {
  OPENCODE_PROVIDER : option string; OPENCODE_MODEL : option string; OPENCODE_URL : option string;
  OPENCODE_DIRECTORY : option string; ANTHROPIC_API_KEY : option string; OPENAI_API_KEY : option string }.

Definition orDefault (v : option string) (d : string) : string := default d (JsStr.orNull v).

Definition DEFAULT_MODEL (e : Env) : Model :=
  {| providerID := orDefault (OPENCODE_PROVIDER e) "dgx-spark"; modelID := orDefault (OPENCODE_MODEL e) "kimi-dev-72b" |}.

Inductive Part := TextPart (text : string) | FilePart (mime url : string) (filename : option string).

Inductive Reply := Once | Always | Reject.
Inductive Level := Ask | Allow | Deny.

Record Request_ := {
  rq_sessionId : string; rq_directory : option string; rq_parts : list Part; rq_model : option Model; rq_agent : option string;
  rq_system : option string }.

Inductive SdkCall :=
  | CHealth
  | CAuthSet (provider key : string)
  | CCreate (title : string) (directory : option string) (permission : option (list string))
  | CPromptAsync (r : Request_)
  | CPrompt (r : Request_)
  | CGet (sessionId : string) (directory : option string)
  | CAbort (sessionId : string) (directory : option string)
  | CList (directory : option string)
  | CDelete (sessionId : string) (directory : option string)
  | CFork (sessionId : string) (directory messageId : option string)
  | CMessages (sessionId : string) (directory : option string)
  | CSummarize (sessionId : string) (directory : option string) (provider model : string)
  | CPermission (sessionId permissionId : string) (response : Reply) (directory : option string)
  | CUpdate (sessionId : string) (directory : option string) (permission : list (string * Level))
  | CAgents
  | CProviders.

Section client.
Context {G : Type} (env : Env) (sdk : SdkCall -> G -> outcome Json * G).

Record State := {
  client : bool;
  connected : bool;
  reconnecting : bool;
  server : G;
  calls : list SdkCall;
  delays : list JsNum.t;
}.

Definition config_baseUrl : string := orDefault (OPENCODE_URL env) "http://localhost:4096".
Definition config_directory : option string := OPENCODE_DIRECTORY env.

Definition setClient (b : bool) (s : State) : State :=
  {| client := b; connected := connected s; reconnecting := reconnecting s; server := server s; calls := calls s; delays := delays s |}.
Definition setConnected (b : bool) (s : State) : State :=
  {| client := client s; connected := b; reconnecting := reconnecting s; server := server s; calls := calls s; delays := delays s |}.
Definition setReconnecting (b : bool) (s : State) : State :=
  {| client := client s; connected := connected s; reconnecting := b; server := server s; calls := calls s; delays := delays s |}.

Definition request (c : SdkCall) : JsM State Json := fun s =>
  let '(r, g) := sdk c (server s) in
  (r, {| client := client s; connected := connected s; reconnecting := reconnecting s; server := g; calls := calls s ++ [c];
         delays := delays s |}).

(** ** Connecting *)

Definition getClient : JsM State unit := fun s =>
  if client s then (Ok tt, s) else (Throw "OpenCode client not initialized. Call connect() first.", s).

(** One provider, when its key is set; a failure is only reported. *)
Definition setAuth (provider : string) (key : option string) : JsM State unit :=
  match JsStr.orNull key with
  | Some k => try_catch (request (CAuthSet provider k);; mret tt) (fun _ => mret tt)
  | None => mret tt
  end.

Definition configureProviderAuth : JsM State unit :=
  getClient;; setAuth "anthropic" (ANTHROPIC_API_KEY env);; setAuth "openai" (OPENAI_API_KEY env).

Definition configureProjectAuth (provider apiKey : string) : JsM State bool :=
  if negb (JsStr.truthy apiKey) then mret false
  else getClient;; try_catch (request (CAuthSet provider apiKey);; mret true) (fun _ => mret false).

(** Up to the health check; [false]: already connected. *)
Definition connectStart : JsM State bool := fun s => if connected s then (Ok false, s) else (Ok true, setClient true s).

Definition cannotConnect {A} : JsM State A := throw ("Cannot connect to OpenCode server at " +:+ config_baseUrl).

(** [health.data?.healthy] *)
Definition healthy (h : Json) : bool :=
  match field "data" h with Some d => match field "healthy" d with Some v => Json.truthy v | None => false end | None => false end.

(** From the answer of the health check on. *)
Definition connectEnd (answer : outcome Json) : JsM State unit :=
  match answer with
  | Throw _ => cannotConnect
  | Ok h =>
      if healthy h then modify (setConnected true);; try_catch configureProviderAuth (fun _ => cannotConnect)
      else cannotConnect
  end.

Definition attemptRequest (c : SdkCall) : JsM State (outcome Json) := fun s => let '(r, s') := request c s in (Ok r, s').

Definition connect : JsM State unit :=
  go ← connectStart;
  if (go : bool) then h ← attemptRequest CHealth; connectEnd h else mret tt.

(** ** Retries *)

(** [Math.min] *)
Definition minNum (a b : JsNum.t) : JsNum.t := match b with S754_nan => b | _ => if SFltb b a then b else a end.

Definition sleep (d : JsNum.t) : JsM State unit :=
  modify (fun s => {| client := client s; connected := connected s; reconnecting := reconnecting s; server := server s;
                      calls := calls s; delays := delays s ++ [d] |}).

(** The loop, by the attempts that are left; the flag is checked before each. *)
Fixpoint retryLoop (left_ : nat) (delay maxDelay : JsNum.t) : JsM State bool :=
  match left_ with
  | 0 => mret false
  | S n =>
      up ← gets connected;
      if (up : bool) then mret false
      else
        ok ← try_catch (connect;; mret true) (fun _ => mret false);
        if (ok : bool) then mret true
        else
          match n with
          | 0 => retryLoop n delay maxDelay
          | S _ => sleep delay;; retryLoop n (minNum (mul delay (ofDecimal 15 1)) maxDelay) maxDelay
          end
  end.

Record RetryOptions := { ro_maxRetries : option nat; ro_initialDelay : option JsNum.t; ro_maxDelay : option JsNum.t }.

Definition connectWithRetry (o : RetryOptions) : JsM State unit :=
  busy ← gets (fun s => connected s || reconnecting s);
  if (busy : bool) then mret tt
  else
    modify (setReconnecting true);;
    retryLoop (default 30 (ro_maxRetries o)) (default (ofZ 1000) (ro_initialDelay o)) (default (ofZ 10000) (ro_maxDelay o));;
    modify (setReconnecting false).

Definition startBackgroundReconnect : JsM State unit :=
  busy ← gets (fun s => connected s || reconnecting s);
  if (busy : bool) then mret tt
  else try_catch (connectWithRetry {| ro_maxRetries := None; ro_initialDelay := None; ro_maxDelay := None |}) (fun _ => mret tt).

Definition disconnect : JsM State unit := modify (fun s => setConnected false (setClient false s)).

(** ** Sessions *)

Definition directoryOf (d : option string) : option string := match JsStr.orNull d with Some x => Some x | None => config_directory end.

Definition allowedTools : list string :=
  ["Edit"; "Write"; "Bash"; "WebFetch"; "WebSearch"; "Read"; "Glob"; "Grep"; "TodoWrite"; "TodoRead"; "List"; "Task";
   "ExternalDirectory"; "DoomLoop"; "Skill"; "CodeSearch"; "LSP"].

(** [r.data?.id] when it is truthy *)
Definition dataId (r : Json) : option string :=
  d ← field "data" r; i ← field "id" d; match i with JStr x => JsStr.orNull (Some x) | _ => None end.

Definition createSession (title : string) (directory : option string) (autoApprove : option bool) : JsM State string :=
  getClient;;
  r ← request (CCreate title (directoryOf directory) (if default true autoApprove then Some allowedTools else None));
  match dataId r with Some i => mret i | None => throw "Failed to create session" end.

Record PromptOptions := { op_model : option Model; op_agent : option string; op_system : option string; op_directory : option string }.

Definition promptRequest (sessionId : string) (parts : list Part) (o : PromptOptions) : Request_ :=
  {| rq_sessionId := sessionId; rq_directory := directoryOf (op_directory o); rq_parts := parts;
     rq_model := Some (default (DEFAULT_MODEL env) (op_model o)); rq_agent := JsStr.orNull (op_agent o);
     rq_system := JsStr.orNull (op_system o) |}.

Definition sendPrompt (sessionId text : string) (o : PromptOptions) : JsM State unit :=
  getClient;; request (CPromptAsync (promptRequest sessionId [TextPart text] o));; mret tt.

(** An image, its data already in base64. *)
Record Image := { im_data : string; im_mime : option string; im_filename : option string }.

Definition imagePart (i : Image) : Part :=
  let mime := orDefault (im_mime i) "image/png" in
  FilePart mime ("data:" +:+ mime +:+ ";base64," +:+ im_data i) (JsStr.orNull (im_filename i)).

Definition sendPromptWithImages (sessionId text : string) (images : list Image) (o : PromptOptions) : JsM State unit :=
  getClient;;
  request (CPromptAsync (promptRequest sessionId ((if JsStr.truthy text then [TextPart text] else []) ++ (imagePart <$> images)) o));;
  mret tt.

Definition getSession (sessionId : string) : JsM State (option Json) :=
  getClient;; r ← request (CGet sessionId config_directory); mret (field "data" r).

Definition abortSession (sessionId : string) : JsM State unit :=
  getClient;; request (CAbort sessionId config_directory);; mret tt.

Definition pauseSession : string -> JsM State unit := abortSession.

Definition deleteSession (sessionId : string) : JsM State unit :=
  getClient;; request (CDelete sessionId config_directory);; mret tt.

Definition listSessions : JsM State Json :=
  getClient;; r ← request (CList config_directory);
  mret (match field "data" r with Some d => if Json.truthy d then d else JArr [] | None => JArr [] end).

(** The model and the system text of a resumed session are optional. *)
Definition resumeSession (sessionId prompt : string) (model : option Model) (system : option string) : JsM State unit :=
  getClient;;
  s ← getSession sessionId;
  if negb (match s with Some v => Json.truthy v | None => false end) then throw ("Session " +:+ sessionId +:+ " not found")
  else
    request (CPrompt {| rq_sessionId := sessionId; rq_directory := config_directory; rq_parts := [TextPart prompt];
                        rq_model := model; rq_agent := None; rq_system := JsStr.orNull system |});;
    mret tt.

Definition retrySession (sessionId : string) (newPrompt : option string) (model : option Model) : JsM State unit :=
  resumeSession sessionId (orDefault newPrompt "Please try again with the previous task.") model None.

Definition sessionExists (sessionId : string) : JsM State bool :=
  try_catch (s ← getSession sessionId; mret (match s with Some v => Json.truthy v | None => false end)) (fun _ => mret false).

Definition forkSession (sessionId : string) (messageId directory : option string) : JsM State string :=
  getClient;;
  r ← request (CFork sessionId (directoryOf directory) (JsStr.orNull messageId));
  match dataId r with Some i => mret i | None => throw ("Failed to fork session " +:+ sessionId) end.

Definition getSessionMessages (sessionId : string) (directory : option string) : JsM State Json :=
  getClient;; r ← request (CMessages sessionId (directoryOf directory));
  mret (match field "data" r with Some d => if Json.truthy d then d else JArr [] | None => JArr [] end).

(** [r.data === true] *)
Definition dataTrue (r : Json) : bool := match field "data" r with Some (JBool b) => b | _ => false end.

Definition summarizeSession (sessionId : string) (provider model directory : option string) : JsM State bool :=
  getClient;;
  r ← request (CSummarize sessionId (directoryOf directory) (orDefault provider (providerID (DEFAULT_MODEL env)))
                 (orDefault model (modelID (DEFAULT_MODEL env))));
  mret (dataTrue r).

(** ** The server *)

Definition getAgents : JsM State (option Json) := getClient;; r ← request CAgents; mret (field "data" r).
Definition getProviders : JsM State (option Json) := getClient;; r ← request CProviders; mret (field "data" r).

(** ** Permissions *)

Definition respondToPermission (sessionId permissionId : string) (response : Reply) (directory : option string) : JsM State bool :=
  getClient;;
  try_catch (r ← request (CPermission sessionId permissionId response (directoryOf directory)); mret (dataTrue r)) (fun _ => mret false).

Definition updateSessionConfig (sessionId : string) (permission : list (string * Level)) (directory : option string) : JsM State unit :=
  getClient;; request (CUpdate sessionId (directoryOf directory) permission);; mret tt.

Definition enableAutoApproval (sessionId : string) (directory : option string) : JsM State unit :=
  updateSessionConfig sessionId
    [("edit", Allow); ("bash", Allow); ("webfetch", Allow); ("doom_loop", Allow); ("external_directory", Allow)] directory.

Definition disableAutoApproval (sessionId : string) (directory : option string) : JsM State unit :=
  updateSessionConfig sessionId [("edit", Ask); ("bash", Ask); ("webfetch", Ask)] directory.

End client.
End OpenCodeClient.
