(* ===== verification/OpenCodeClientProofs.v ===== *)
(** * The OpenCode client: how often and how long it tries to connect, and how
    a connection is lost for good *)

From S2P Require Import Prelude JsNumber Json OpenCodeClient.
From Stdlib Require Import SpecFloat.
From stdpp Require Import list options.
Import Js OpenCodeClient.

Module ClientSpec.

Section client.
Context {G : Type} (env : Env) (sdk : SdkCall -> G -> outcome Json.Json * G).
#[local] Set Default Proof Using "Type".

Abbreviation State := (@State G).

Definition isHealth (c : SdkCall) : bool := match c with CHealth => true | _ => false end.

(** The number of health checks made. *)
Definition checks (s : State) : nat := length (base.filter (fun c => isHealth c = true) (calls s)).

(** The same but for requests other than health checks. *)
Record sameBut (s s' : State) : Prop := {
  sb_client : client s' = client s; sb_connected : connected s' = connected s; sb_reconnecting : reconnecting s' = reconnecting s;
  sb_delays : delays s' = delays s; sb_checks : checks s' = checks s }.

Lemma sameBut_refl s : sameBut s s.
Proof. by split. Qed.

Lemma sameBut_trans a b c : sameBut a b -> sameBut b c -> sameBut a c.
Proof. intros [] []. split; congruence. Qed.

Lemma setAuth_run provider key s : exists s', setAuth sdk provider key s = (Ok tt, s') /\ sameBut s s'.
Proof.
  unfold setAuth. destruct (JsStr.orNull key) as [k|]; [|by exists s].
  unfold try_catch, request, mbind, jsm_bind. destruct (sdk _ (server s)) as [[v|e] g]; (eexists; split; [done|]).
  all: split; [done..|]; unfold checks; cbn [calls]; rewrite list.filter_app, length_app; apply Nat.add_0_r.
Qed.

Lemma configure_run s : client s = true -> exists s', configureProviderAuth env sdk s = (Ok tt, s') /\ sameBut s s'.
Proof.
  intros Hc. unfold configureProviderAuth. rewrite (bind_ok _ _ s tt s) by (unfold getClient; by rewrite Hc).
  destruct (setAuth_run "anthropic" (ANTHROPIC_API_KEY env) s) as (s1 & H1 & Hs1). rewrite (bind_ok _ _ _ _ _ H1).
  destruct (setAuth_run "openai" (OPENAI_API_KEY env) s1) as (s2 & H2 & Hs2). exists s2. split; [done|].
  by eapply sameBut_trans.
Qed.

(** One attempt: one health check, and connected exactly when it returns. *)
Lemma connect_run s :
  connected s = false ->
  exists r s', connect env sdk s = (r, s') /\ client s' = true /\ reconnecting s' = reconnecting s /\ delays s' = delays s
    /\ checks s' = S (checks s) /\ match r with Ok _ => connected s' = true | Throw _ => connected s' = false end.
Proof.
  intros Hn. unfold connect. rewrite (bind_ok _ _ s true (setClient true s)) by (unfold connectStart; by rewrite Hn).
  unfold attemptRequest, mbind at 1, jsm_bind at 1, request. destruct (sdk CHealth _) as [h g].
  set (s1 := {| client := _; connected := _ |}).
  assert (H1 : client s1 = true /\ connected s1 = false /\ reconnecting s1 = reconnecting s /\ delays s1 = delays s
    /\ checks s1 = S (checks s)).
  { split_and!; [done..|]. unfold s1, checks. cbn [calls setClient]. rewrite list.filter_app, length_app. apply Nat.add_1_r. }
  destruct H1 as (Hc1 & Hn1 & Hr1 & Hd1 & Hk1). unfold connectEnd. destruct h as [h|e]; [|by do 2 eexists].
  destruct (healthy h); [|by do 2 eexists].
  unfold mbind, jsm_bind, modify. cbn [fst snd]. unfold try_catch.
  destruct (configure_run (setConnected true s1) Hc1) as (s2 & -> & [S1 S2 S3 S4 S5]).
  do 2 eexists. split; [done|]. rewrite S1, S2, S3, S4, S5. by split_and!.
Qed.

(** ** Retries *)

Fixpoint backoff (n : nat) (delay maxDelay : JsNum.t) : list JsNum.t :=
  match n with 0 => [] | S n' => delay :: backoff n' (minNum (JsNum.mul delay (JsNum.ofDecimal 15 1)) maxDelay) maxDelay end.

Lemma retryLoop_run n delay maxDelay s :
  connected s = false ->
  exists b s' k, retryLoop env sdk n delay maxDelay s = (Ok b, s')
    /\ reconnecting s' = reconnecting s /\ checks s' = checks s + k /\ k <= n /\ (n <> 0 -> k <> 0)
    /\ delays s' = delays s ++ take (pred k) (backoff n delay maxDelay)
    /\ (connected s' = true -> client s' = true) /\ (connected s' = false -> k = n).
Proof.
  revert delay s. induction n as [|n IH]; intros delay s Hn; cbn [retryLoop].
  { exists false, s, 0. split_and!; [done|done|lia|lia|done|by rewrite app_nil_r|congruence|done]. }
  rewrite (bind_ok _ _ s false s) by (unfold gets; by rewrite Hn).
  destruct (connect_run s Hn) as (r & s1 & Hr & Hc1 & Hr1 & Hd1 & Hk1 & Hres).
  assert (Htry : (try_catch (connect env sdk;; mret true) (fun _ => mret false)) s
    = (Ok (match r with Ok _ => true | Throw _ => false end), s1)).
  { unfold try_catch, mbind, jsm_bind. rewrite Hr. by destruct r. }
  rewrite (bind_ok _ _ _ _ _ Htry). destruct r as [[]|e].
  { exists true, s1, 1. split_and!; [done|done|lia|lia|done|cbn; by rewrite app_nil_r|done|congruence]. }
  destruct n as [|n].
  { destruct (IH delay s1 Hres) as (b & s' & k & H1 & H2 & H3 & H4 & _ & H5 & H6 & H7). assert (k = 0) by lia. subst k.
    exists b, s', 1. split_and!; [done|congruence|lia|lia|done|by rewrite H5, Hd1|done|done]. }
  set (d' := minNum _ _). destruct (IH d' (sleep delay s1).2 Hres) as (b & s' & k & H1 & H2 & H3 & H4 & H0 & H5 & H6 & H7).
  exists b, s', (S k). split_and!; [exact H1|etrans; [exact H2|exact Hr1]| |lia|done| |done|intros Hs; by rewrite H7].
  - rewrite H3. change (checks (sleep delay s1).2) with (checks s1). lia.
  - rewrite H5. change (delays (sleep delay s1).2) with (delays s1 ++ [delay]). rewrite Hd1, <- app_assoc.
    destruct k as [|k]; [lia|done].
Qed.

(** C39: connecting with retries always returns, from every state that is
    neither connected nor reconnecting and whatever the server answers: it
    makes [k] health checks, at most as many as asked for (30 by default) and
    all of them unless it gets connected; before every check but the first it
    has waited, the waits being the first [k - 1] of the sequence that starts
    at the initial delay and grows by half up to the maximum; at the end no
    reconnection is under way, and a client that counts as connected can be
    used. *)
Theorem connecting_bounded o s :
  connected s = false -> reconnecting s = false ->
  exists s' k, connectWithRetry env sdk o s = (Ok tt, s')
    /\ reconnecting s' = false
    /\ checks s' = checks s + k /\ k <= default 30 (ro_maxRetries o)
    /\ delays s' = delays s ++ take (pred k) (backoff (default 30 (ro_maxRetries o)) (default (JsNum.ofZ 1000) (ro_initialDelay o))
                                       (default (JsNum.ofZ 10000) (ro_maxDelay o)))
    /\ (connected s' = true -> client s' = true)
    /\ (connected s' = false -> k = default 30 (ro_maxRetries o)).
Proof.
  intros Hn Hr. unfold connectWithRetry. rewrite (bind_ok _ _ s false s) by (unfold gets; by rewrite Hn, Hr).
  rewrite (bind_ok _ _ s tt (setReconnecting true s)) by done.
  destruct (retryLoop_run (default 30 (ro_maxRetries o)) (default (JsNum.ofZ 1000) (ro_initialDelay o))
    (default (JsNum.ofZ 10000) (ro_maxDelay o)) (setReconnecting true s) Hn) as (b & s1 & k & H1 & H2 & H3 & H4 & _ & H5 & H6 & H7).
  rewrite (bind_ok _ _ _ _ _ H1). exists (setReconnecting false s1), k. by split_and!.
Qed.

(** A disconnection between the start of an attempt and the answer of its
    health check leaves a client that counts as connected and cannot be used:
    no further attempt is made and every operation fails. *)
Lemma disconnected_while_connecting h s :
  connected s = false -> healthy h = true ->
  let s' := ((connectStart;; disconnect;; connectEnd env sdk (Ok h)) s).2 in
  connected s' = true /\ client s' = false /\ connect env sdk s' = (Ok tt, s')
  /\ forall o, connectWithRetry env sdk o s' = (Ok tt, s')
  /\ forall title d a, exists e, createSession env sdk title d a s' = (Throw e, s').
Proof.
  intros Hn Hh. cbn zeta. unfold connectStart, disconnect, connectEnd. rewrite Hh.
  unfold mbind, jsm_bind, modify. rewrite Hn. unfold try_catch, configureProviderAuth, getClient, mbind, jsm_bind. cbn.
  split_and!; [done..|]. intros o. split; [done|]. intros title d a. by eexists.
Qed.

(** Answering a permission request never throws once there is a client: a
    refused or failed answer is the value [false]. *)
Lemma refused_answer_returns sessionId permissionId response directory s :
  client s = true -> exists b s', respondToPermission env sdk sessionId permissionId response directory s = (Ok b, s').
Proof.
  intros Hc. unfold respondToPermission, getClient, try_catch, request, mbind, jsm_bind, gets, mret, jsm_ret. rewrite Hc.
  cbn. destruct (sdk _ (server s)) as [[v|e] g]; eauto.
Qed.

End client.

(** ** A server that is never healthy, and one that is at the third check *)

Definition noEnv : Env :=
  {| OPENCODE_PROVIDER := None; OPENCODE_MODEL := None; OPENCODE_URL := None; OPENCODE_DIRECTORY := None;
     ANTHROPIC_API_KEY := Some "key"; OPENAI_API_KEY := None |}.
Definition fromThird (c : SdkCall) (n : nat) : outcome Json.Json * nat :=
  match c with
  | CHealth => (Ok (Json.JObj [("data", Json.JObj [("healthy", Json.JBool (Nat.leb 2 n))])]), S n)
  | _ => (Ok Json.JNull, n)
  end.
Definition fresh : @OpenCodeClient.State nat :=
  {| client := false; connected := false; reconnecting := false; server := 0; calls := []; delays := [] |}.
Definition defaults : RetryOptions := {| ro_maxRetries := None; ro_initialDelay := None; ro_maxDelay := None |}.

Example third_check_connects :
  (connectWithRetry noEnv fromThird defaults fresh).2
  = {| client := true; connected := true; reconnecting := false; server := 3;
       calls := [CHealth; CHealth; CHealth; CAuthSet "anthropic" "key"]; delays := [JsNum.ofZ 1000; JsNum.ofZ 1500] |}.
Proof. by vm_compute. Qed.

(** The default retries wait for 250781.25 milliseconds in all. *)
Example default_backoff_total :
  foldr JsNum.add (JsNum.ofZ 0) (take 29 (backoff 30 (JsNum.ofZ 1000) (JsNum.ofZ 10000))) = JsNum.ofDecimal 25078125 2.
Proof. by vm_compute. Qed.

Lemma connecting_bounded_witness :
  exists s' k, connectWithRetry noEnv fromThird defaults fresh = (Ok tt, s') /\ checks s' = checks fresh + k /\ k <= 30.
Proof.
  destruct (connecting_bounded noEnv fromThird defaults fresh eq_refl eq_refl) as (s' & k & H & _ & Hk & Hle & _).
  exists s', k. split; [exact H|]. split; [exact Hk|exact Hle].
Defined.

End ClientSpec.
